(* ===== verification/_CoqProject ===== *)
-Q . S2P
Prelude.v
RustStr.v
Json.v
ToolCalls.v
Content.v
Accounting.v
Inference.v
Attachments.v
RuntimePolicy.v
Compat.v
Paths.v
AppError.v
Policy.v
Steering.v
Planning.v
SecureError.v
TrustPolicy.v
Sse.v
Receipts.v
Endpoint.v
Catalog.v
Lease.v
Release.v
Models.v
Kernel.v
Compaction.v
Images.v
Title.v
Disk.v
Workspace.v
WorkspaceEdits.v
WorkspaceTheorems.v
Tools.v
Agent.v
TurnLoop.v
TurnProofs.v
TurnTheorems.v
Restore.v
RestoreTheorems.v
Redact.v
Tables.v
Timeline.v
Events.v
Projection.v
Recovery.v
StoreQueries.v
Accounts.v
StoreInvariant.v
StoreWrites.v
StoreLife.v
StoreLoad.v
StoreBatches.v
StoreEffects.v
StoreTheorems.v
NearCrypto.v
NearWire.v
Relay.v
NearStream.v
NearInference.v
NearProofs.v
NearAttest.v
NearEngine.v
NearSample.v
NearTheorems.v
NearEngineTheorems.v
Machine.v
Download.v
Installation.v
Staging.v
SelfUpdate.v
SelfUpdateProofs.v
SelfUpdateTheorems.v
StagingTheorems.v
DownloadTheorems.v
AuthChecks.v
Credentials.v
SignIn.v
CredentialProofs.v
CredentialTheorems.v
RotationTheorems.v
