(* ===== verification/Prelude.v ===== *)
(** * Axiom: the secure inference client and its command-line agent

    Axiom runs chat models inside attested hardware.  A command-line agent
    (src/apps/axiomcli) turns a user's prompts into requests, lets the model use
    tools on the user's machine under a permission policy, and sends the requests
    through a relay it does not trust (src/crates/axiom-secure-client).  The relay
    offers a catalog of models, signed policies and attestation leases; the client
    checks each of them, negotiates an encryption contract, reads the encrypted
    event stream, and never sends a prompt without a verified session.  A crate of
    shared types (axiom-inference), an OpenAI-compatible translation
    (axiom-openai-compat) and an update feed (axiom-update-client) complete it.

    This library models the decision-making core of these crates as executable
    functions on explicit states, and proves what the program relies on.

    ** Parts and files

    Foundations:
    - [Prelude]: results, the state-and-error monad [M] with its loop [iterM] and
      its Hoare triples, list lemmas, the hint database and the tactics;
    - [RustStr]: Rust strings as UTF-8 bytes, with [str]'s methods;
    - [Json]: [serde_json::Value], floats, the classes [SerdeJson],
      [JsonText] and [Base64].

    Shared types, src/crates/axiom-inference/src:
    - [ToolCalls] (lib.rs): limits, validation errors, [ToolCallAccumulator];
    - [Inference] (lib.rs): messages, tools, [InferenceRequest::validate],
      provider events, [ModelInfo];
    - [Content], [Attachments] (attachments.rs): images and files, prompts;
    - [Accounting] (accounting.rs, security.rs): usage records, evidence;
    - [RuntimePolicy] (runtime_policy.rs): the image runtime policy.

    Translation, src/crates/axiom-openai-compat/src/lib.rs: [Compat].

    The agent, src/apps/axiomcli/src:
    - [Paths], [Policy] (policy.rs): path resolution and the permission engine;
    - [Steering] (steering.rs), [Planning] (planning.rs), [AppError] (error.rs);
    - [Kernel] (app.rs): sessions, their commands and events, the journal;
    - [Models] (agent.rs, first and last part): model settings, token estimates and
      the requests made for a model;
    - [Compaction] (agent.rs): context budgets and the summary of a conversation;
    - [Images] (image_tool.rs), [Tools] (tools.rs): the image catalog of a
      conversation and the tool registry;
    - [Disk]: [std::fs] on Linux, the calls with their failures and what other processes
      do between them, to the names and to the files that are open; [Workspace] (workspace.rs): confined paths, reads, searches and
      patches; [WorkspaceEdits] follows a commit and its rollback file by file,
      [WorkspaceTheorems] has the theorems on whole patches;
    - [Agent] (agent.rs, [AgentEngine]): the state of the engine and of a turn, the
      system prompt, and [authorize];
    - [TurnLoop] (agent.rs, [AgentEngine::run]): a turn from its prompt to its end;
      [TurnProofs] has its invariant and [TurnTheorems] the theorems;
    - [Restore] (agent.rs, [AgentEngine] between turns): restoration from a journal,
      settings, titles ([Title], session_title.rs), images generated again;
      [RestoreTheorems] says what a restored conversation is.

    The session store, src/apps/axiomcli/src/session:
    - [Redact] (audit.rs): what is removed from everything that is stored;
    - [Tables] (records.rs, codec.rs, schema.sql): the rows and their constraints, and
      the monad [Tables.Sql] of statements that may fail, with transactions;
    - [Timeline] (timeline.rs): items, turns, notices, replacement of a prompt;
    - [Events] (events.rs): how each event is stored, and batches of them;
    - [Projection] (projection.rs): the journal made from the rows;
    - [Recovery] (recovery.rs, queries.rs): decoding, interrupted turns, loading;
    - [StoreQueries] (queries.rs, accounting.rs, preferences.rs, collections.rs): pages,
      catalogs, titles, deletion, accounting, preferences, collections;
    - [Accounts] (connection.rs): handles bound to an account while accounts change;
    - [StoreInvariant] has the Hoare rules of statements and the well-formedness of a
      store, [StoreWrites] and [StoreLife] that every operation keeps it; [StoreLoad],
      [StoreBatches] and [StoreEffects] follow loading, batches and the remaining
      operations; [StoreEffects] also has a recorded conversation, and [StoreTheorems]
      what the store promises.

    The secure client, src/crates/axiom-secure-client/src:
    - [SecureError] (error.rs, and the classification in relay/client.rs);
    - [TrustPolicy] (security.rs, client.rs): signed policies, rollback journal;
    - [Sse], [Receipts] (relay/sse.rs, dto.rs, deadline.rs): the event stream;
    - [Endpoint] (config.rs, http.rs): where the client may connect;
    - [Catalog] (catalog.rs, provider.rs, client.rs): models and contracts;
    - [Lease] (lease.rs): key leases and the cache of verified material;
    - [Relay] (relay/client.rs): the requests to the relay.

    The NEAR provider, src/crates/axiom-secure-client/src/providers/near:
    - [NearCrypto] (crypto.rs): keys, sealing and opening of texts;
    - [NearWire] (inference.rs, first part): sealed requests and the bytes whose hash the
      worker signs, with floats as Python writes them;
    - [NearStream] (inference.rs, second part): receipts, signed transcripts, and
      [StreamState]; [NearInference]: the calls [complete] and [stream];
    - [NearAttest] (attestation.rs): the evidence of a worker and what the vendors say
      of it; [NearEngine] (mod.rs): [establish] as the steps of concurrent tasks;
    - [NearProofs] has the invariant of a stream and what a sealed request is, the end of
      [NearAttest] what an accepted attestation shows; [NearTheorems] and
      [NearEngineTheorems] have what the provider promises; [NearSample] attests a worker
      and exchanges a message with concrete codecs.

    Updates, src/crates/axiom-update-client/src, src/crates/axiom-installation/src and
    src/apps/axiomcli/src/updates:
    - [Release] (manifest.rs): signed release manifests; [Download] (lib.rs): the fetch of
      a feed and of an artifact into a file;
    - [Machine]: the state of a machine that updates itself (files, directories, processes,
      locks) with the calls on it and their failures; [Installation] (axiom-installation):
      layouts, ownership markers, the replacement of an image;
    - [Staging] (updates.rs): downloaded updates, job files and their pruning;
      [SelfUpdate] (updates.rs, updates/apply.rs): the check, the job and the process that
      applies it;
    - [SelfUpdateProofs] has the Hoare rules of the calls, what each operation does to
      files, and an update that runs; [SelfUpdateTheorems], [StagingTheorems] and
      [DownloadTheorems] have what an update promises.

    The account session, src/apps/axiomcli/src/auth.rs:
    - [AuthChecks]: what is accepted of the service and of the browser's callback;
    - [Credentials] ([AuthManager]): the state, the credential store, and rotation,
      validation, sign-out; [SignIn] ([new_with_paths], [NativeLogin]): start and login;
    - [CredentialProofs] has the rules by which operations keep a property and a service
      one can run, [CredentialTheorems] and [RotationTheorems] what the session promises.

    The files follow the calls: a component requires the components it uses.
    [Compat] builds the requests of [Inference] and reports through [ToolCalls];
    [Catalog] uses [Endpoint] for provider addresses and yields the models that
    [Lease] binds to keys under a policy of [TrustPolicy]; [Sse] fails with the
    errors of [SecureError].  A turn ([TurnLoop.run]) asks the provider with requests
    of [Models], runs tools of [Tools] that [Policy] and the user allow, compacts its
    transcript with [Compaction], takes new input from [Steering], and sends events
    that [Kernel] records and [Events] stores; [Recovery.load] gives them back to
    [Kernel] and [Restore].  A request to a NEAR model goes from [NearEngine], whose
    sessions rest on [NearAttest] and [Lease], through [NearInference] to [Relay], and
    its answer back through [Sse] and [NearStream].  An update found by [Release] is fetched
    by [Download], kept by [Staging] and put in place by [SelfUpdate] with [Installation].
    The bearer of requests comes from [Credentials], and [Accounts] binds the session store
    to the account it shows.

    ** How the code is represented

    A Rust struct is a record and an enum an inductive type with the same
    constructors, prefixed where two of them would share a field name.  A function
    returning [Result] returns [result]; a method on [&mut self] is a function of
    type [M state error value], which returns the state it leaves also when it
    fails.  Methods behind a mutex or a file lock are single atomic steps, and an
    interleaving of tasks is a list of steps ([Steering], [Lease]) or a step
    relation ([TrustPolicy.overlap_step], [Kernel.process_step]); [Planning.plan_step] is a
    relation too.  A turn is one function: what happens outside of it, other
    tasks included, happens where the source awaits ([Agent.Host]).  In [Credentials], other
    tasks change the state at every await and before every lock of the state, whole operations
    run while one waits for their mutex, and other processes while one waits for the file lock.
    A machine integer is a [Z]; saturating operations are written out, a [usize]
    has 64 bits, and where a computation needs a range the theorem states it or a
    lemma derives it ([RuntimePolicy.dimensions_no_overflow]).  A [BTreeMap] or
    [HashMap] is a [gmap] where its order is not observed, and a list where it is.

    Some loops of the code carry fuel: Euclid's loop, [RuntimePolicy.euclid], gets
    100 rounds; its operands are ratio sides of at most two digits, and the second
    one decreases in every round, so it always returns the greatest common divisor
    ([RuntimePolicy.euclid_gcd]).  The decimal printer of [Accounting], used to
    state a round trip, gets 20 digits, enough for a [u64].  The split of a
    transcript ([Compaction.split_transcript]) gets its length, since every piece
    takes at least one character ([Compaction.compaction_inputs_lose_nothing] says it
    is enough), and the rounds of a turn get an argument, for which one more than
    the step limit is enough ([TurnTheorems.turns_terminate]).  Matches of a text
    ([Workspace.count_matches]) are counted with its length, and a path follows at most
    the forty links of the kernel ([Disk.walk]).  The wait of an update for another process
    polls as often as its deadline allows ([Machine.poll], [Machine.poll_enough]).  Everything else is
    structural recursion, so every operation returns.

    Third-party code is an argument: the classes [SerdeJson], [Base64],
    [FileSystem], [UrlLib], [UrlOrigin], [PolicyCrypto], [RelayCodec],
    [CatalogCodec], [KeyDigest], [ReleaseCodec], [RequestJson], [JsonText],
    [ImageLib], [Workspace.LineDiff], [Workspace.Walker], [RelayHttp], [NearPrimitives],
    [NearCodec], [JsonWriter], [FloatText], [IntelLib], [NvidiaLib], [EvidenceCodec],
    [World], [MarkerCodec], [JobCodec], [Build], [UrlParts], [AuthClock], [AuthCodec],
    [Pkce] list
    the operations the program calls, without laws, and so do [Chrono], [StoreCodec],
    [TurnIds] and [PageCodec] for the text forms of what is stored;
    [Compaction.Provider], [Agent.Host] and [Tools.PlanStore] do so for what the agent
    calls on a state of the outside world: the provider, the front end, MCP discovery,
    plan files, the deadline.  Where a theorem needs documented behaviour it is a named
    hypothesis ([CanonicalFileSystem], [CodecRoundtrip], [StoreLaws], [NearLaws], [OutcomeRoundtrip]) and a witness
    instantiates it.  A database is its tables, a statement of SQL a function on them
    that keeps the constraints of the schema or fails, and any statement may also fail
    for reasons of its own ([Tables.cn_faults]); a transaction that fails leaves the
    tables as they were.  Clocks, random identifiers, DNS answers, HTTP responses and the outcomes
    of file writes are arguments.

    ** What the theorems show

    - The permission engine: nothing outside the workspace is ever allowed or
      offered, hard denials and profiles dominate rules and grants, rules only
      narrow, grants never override a rule, an approval is as wide as what was
      shown, and child environments are functions on an allowlist.
    - Trust: an accepted policy is signed and strict; a call of [trust_policy]
      never rolls a client back, the journal survives crashes and restarts, and
      the one way overlapping calls do roll the cache back is exhibited.
    - The relay: streams are read the same however they are cut, receipts are
      whole, memory is bounded and stalls are cut; leases bind the local key,
      verified material is current, catalog models are usable, stale catalogs
      bounded, clients pinned, and remote text never shown.
    - Requests: validation is exact, translation faithful, strict mode complete,
      dropped parameters reported, chunks read back; tool-call fragments assemble
      exactly; accepted prompts are valid messages up to one stated limit.
    - The agent's parts: steering is delivered exactly once and in order, terminal
      plans are final; a session restored from its journal is the session that was
      recorded, and turns follow their protocol; compaction is all or nothing and
      loses no input; requests respect their model; the tools offered are those
      permitted, and images keep their identity.
    - The agent's turn ([TurnTheorems]), whatever provider, user, tools and clock
      do: it ends, the kernel accepts its events and is left in the same turn, a
      tool runs only right after its effects were allowed and approved, and transcripts
      and stored histories answer their calls in place, unless the provider used an
      identifier twice.  A restored conversation is its journal line by line, but for
      journals with a compaction, and after a turn that returned it can be sent.
    - The workspace ([WorkspaceTheorems]): while no other process changes the disk and no
      name is one that a temporary file will get, a patch is applied exactly or, whichever
      call of the system fails, leaves every file as it was (or says it needs help), no
      patch reaches outside the root, and a replacement replaces the only match.  A read,
      with other processes at work between its calls, is of the one file that was opened,
      whose name led inside when it was looked up.  Examples show what those processes
      can do: overwrite races, directories that become links, files that grow or move.
    - The session store ([StoreTheorems]): whatever is done to a store and fails in it,
      it stays well formed, and a thread that has its attachments loads, up to the limit
      of items, into a journal that says what was said and restores an idle session;
      batches are all or nothing; a replaced prompt
      takes exactly its tail with it; what a process left running, and nothing else, is
      closed once;
      reports of the relay only settle requests; collections keep their order; nothing
      secret by the program's own rule stays in a redacted text; a handle bound to an
      account never works on another one.
    - The NEAR provider ([NearTheorems], [NearEngineTheorems]): a streamed answer is what a
      worker signed for this very request with a key that an accepted Intel quote and an
      NVIDIA verdict bind to the challenge; what is shown earlier is the same text, and
      tool calls wait for the receipt; a request leaves the machine sealed for that key;
      however tasks interleave, sessions rest on attested material that has not expired,
      one task attests a model at a time, and none waits for ever; the quote library gets
      no more bytes than configured.
    - The account session ([CredentialTheorems], [RotationTheorems], [AuthChecks]): a refresh
      token is sent at most once while the store obeys; a session that the service issued is
      stored or its revocation is asked for; a token that is handed out is of the account
      shown at that moment (if the service names accounts rightly), and work is never moved
      to another account; the one read of the loopback listener that is taken for the
      callback is bound to the login, the listener and the website.  Examples show what
      happens when a save is late, when an account label is read late, when a connection is
      idle, and when a request comes in parts.
    - Updates ([SelfUpdateTheorems], [StagingTheorems], [DownloadTheorems]): only signed
      releases with exact download addresses are accepted, and never back while the
      remembered one can be looked at; an update runs nothing but the installed program and
      the installer, for a signed release newer than the program, on a file of the stated
      size and digest unless someone else changes it; whichever call of an AppImage update fails the installed
      image is whole, a download takes no more bytes than its release names,
      pruning spares the jobs that may still run, and an outcome is reported.

    Witnesses next to the theorems evaluate them on concrete values.

    ** What is not modelled

    Parsing of JSON text into typed values, cryptography, HTTP and file I/O: they
    are the arguments above; in particular that an Intel quote, an X.509 chain or a
    signature is genuine is the word of the library that checks it.  The other provider
    engines (providers/tinfoil, chutes, direct, pool).  Of the agent: the built-in tools (tools.rs, web.rs,
    mcp.rs), git and processes of workspace.rs, snapshots of the workspace, the
    development runners of agent.rs, and a concurrent reset of permissions or settings
    during a turn; channels are unbounded, but may close at any moment.  Of the session
    store: SQLite itself, its files and their migration (schema.rs), MCP servers,
    settings and export.  Of updates: the branches for Windows and macOS.  Of the
    account session: the keyring itself, the identity file of the installation and the stores
    of debug builds.  The ACP server (acp/), billing, the directories of accounts, the
    terminal and desktop user interfaces, the proxy and the installers.

    Next in order: the composer, text layout and slash commands of the terminal
    interface; the other provider engines. *)

From stdpp Require Import base gmap strings list sorting.
From Stdlib Require Import ZArith Ascii Lia ZifyBool ZifyN ZifyNat.

Local Open Scope Z_scope.

(** ** Machine integers

    [u64] and [usize] values are [Z]; the operations that can leave the range
    are the ones the source writes ([saturating_add], [checked_add], ...).
    [usize] is 64 bits wide on every supported target. *)

Definition U64_MAX : Z := 2 ^ 64 - 1.
Definition U32_MAX : Z := 2 ^ 32 - 1.
Definition I64_MAX : Z := 2 ^ 63 - 1.
Definition in_u64 (n : Z) : Prop := 0 <= n <= U64_MAX.
Definition in_u32 (n : Z) : Prop := 0 <= n <= U32_MAX.

Definition saturating_add (a b : Z) : Z := Z.min (a + b) U64_MAX.
Definition checked_add (a b : Z) : option Z :=
  if a + b <=? U64_MAX then Some (a + b) else None.
Definition saturating_sub (a b : Z) : Z := Z.max (a - b) 0.

Lemma saturating_add_le a b n : n < U64_MAX -> saturating_add a b <= n -> a + b <= n.
Proof. unfold saturating_add. lia. Qed.

Lemma saturating_add_exact a b : a + b <= U64_MAX -> saturating_add a b = a + b.
Proof. unfold saturating_add. lia. Qed.

Lemma checked_add_Some a b c : checked_add a b = Some c <-> c = a + b /\ a + b <= U64_MAX.
Proof. unfold checked_add. case_match; naive_solver lia. Qed.

(** ** [Result<T, E>] *)

Inductive result (E A : Type) : Type :=
| Ok (a : A)
| Err (e : E).
Arguments Ok {E A} a.
Arguments Err {E A} e.

#[export] Instance result_ret {E} : MRet (result E) := fun A a => Ok a.
#[export] Instance result_bind {E} : MBind (result E) := fun A B f m =>
  match m with Ok a => f a | Err e => Err e end.
#[export] Instance result_fmap {E} : FMap (result E) := fun A B f m =>
  match m with Ok a => Ok (f a) | Err e => Err e end.

#[export] Instance result_eq_dec {E A} `{EqDecision E, EqDecision A} : EqDecision (result E A).
Proof. solve_decision. Defined.

Definition is_ok {E A} (m : result E A) : bool :=
  match m with Ok _ => true | Err _ => false end.
Definition is_err {E A} (m : result E A) : bool := negb (is_ok m).

(** [result.ok()] and [option.ok_or(e)]. *)
Definition ok {E A} (m : result E A) : option A :=
  match m with Ok a => Some a | Err _ => None end.
Definition ok_or {E A} (o : option A) (e : E) : result E A :=
  match o with Some a => Ok a | None => Err e end.
Definition map_err {E F A} (f : E -> F) (m : result E A) : result F A :=
  match m with Ok a => Ok a | Err e => Err (f e) end.

(** [if bad { return Err(e) }]: the rest of the function runs only when the
    condition is false. *)
Definition reject_if {E} (bad : bool) (e : E) : result E unit :=
  if bad then Err e else Ok tt.

(** [iter().map(f).collect::<Result<Vec<_>>>()] stops at the first error, in
    order. *)
Fixpoint collect {E A B} (f : A -> result E B) (l : list A) : result E (list B) :=
  match l with
  | [] => Ok []
  | x :: l => match f x with
              | Err e => Err e
              | Ok y => match collect f l with Err e => Err e | Ok ys => Ok (y :: ys) end
              end
  end.

(** [for x in l { check(x)?; }] *)
Fixpoint for_each {E A} (f : A -> result E unit) (l : list A) : result E unit :=
  match l with
  | [] => Ok tt
  | x :: l => match f x with Err e => Err e | Ok _ => for_each f l end
  end.

(** [if let Some(x) = o { check(x)?; }] *)
Definition if_some {E A} (o : option A) (check : A -> result E unit) : result E unit :=
  match o with Some a => check a | None => Ok tt end.

Lemma if_some_Ok {E A} (o : option A) (check : A -> result E unit) (P : A -> Prop) :
  (forall a, o = Some a -> check a = Ok tt <-> P a) ->
  if_some o check = Ok tt <-> (forall a, o = Some a -> P a).
Proof. intros H. destruct o as [a|]; simpl; [rewrite H by done|]; naive_solver. Qed.

Lemma bind_Ok {E A B} (m : result E A) (f : A -> result E B) b :
  (m ≫= f) = Ok b <-> exists a, m = Ok a /\ f a = Ok b.
Proof. destruct m; naive_solver. Qed.

Lemma fmap_Ok {E A B} (m : result E A) (f : A -> B) b :
  f <$> m = Ok b <-> exists a, m = Ok a /\ f a = b.
Proof. destruct m; naive_solver. Qed.

Lemma bind_Err {E A B} (m : result E A) (f : A -> result E B) e :
  (m ≫= f) = Err e <-> m = Err e \/ exists a, m = Ok a /\ f a = Err e.
Proof. destruct m; naive_solver. Qed.

Lemma ok_or_Ok {E A} (o : option A) (e : E) a : ok_or o e = Ok a <-> o = Some a.
Proof. destruct o; naive_solver. Qed.

Lemma map_err_Ok {E F A} (f : E -> F) (m : result E A) a : map_err f m = Ok a <-> m = Ok a.
Proof. destruct m; naive_solver. Qed.

Lemma reject_if_Ok {E} b (e : E) u : reject_if b e = Ok u <-> b = false.
Proof. destruct b, u; naive_solver. Qed.

Lemma Ok_inj {E A} (a b : A) : @Ok E A a = Ok b -> a = b.
Proof. congruence. Qed.

Lemma reject_if_tt {E} b (e : E) : reject_if b e = Ok tt <-> b = false.
Proof. apply reject_if_Ok. Qed.

Lemma bind_unit_Ok {E B} (m : result E unit) (k : unit -> result E B) b :
  (m ≫= k) = Ok b <-> m = Ok tt /\ k tt = Ok b.
Proof. destruct m as [[]|e]; naive_solver. Qed.

Lemma for_each_Ok {E A} (f : A -> result E unit) l u :
  for_each f l = Ok u <-> Forall (fun x => f x = Ok tt) l.
Proof.
  destruct u. induction l as [|x l IH]; simpl; [naive_solver|].
  destruct (f x) as [[]|e] eqn:Hf.
  - rewrite IH, Forall_cons. naive_solver.
  - rewrite Forall_cons, Hf. naive_solver.
Qed.

Lemma collect_Ok {E A B} (f : A -> result E B) l ys :
  collect f l = Ok ys <-> Forall2 (fun x y => f x = Ok y) l ys.
Proof.
  revert ys. induction l as [|x l IH]; intros ys; simpl.
  - split; [intros [= <-]; constructor | by inversion 1].
  - destruct (f x) as [y|e] eqn:Hf.
    + split.
      * destruct (collect f l) as [ys'|e]; [|done]. intros [= <-].
        constructor; [done | by apply IH].
      * intros H. inversion H as [|? y' ? ys' Hy Hys]; subst.
        rewrite Hf in Hy. injection Hy as ->. apply IH in Hys. by rewrite Hys.
    + split; [done|]. intros H. inversion H; congruence.
Qed.

Lemma collect_length {E A B} (f : A -> result E B) l ys :
  collect f l = Ok ys -> length ys = length l.
Proof. rewrite collect_Ok. intros H. by apply Forall2_length in H. Qed.

(** ** A state and error monad

    [fn op(&mut self, ...) -> Result<A, E>]: the state is returned on the error
    path too, because the source keeps the mutations made before the failure. *)

Definition M (S E A : Type) : Type := S -> S * result E A.

#[export] Instance M_ret {S E} : MRet (M S E) := fun A a s => (s, Ok a).
#[export] Instance M_bind {S E} : MBind (M S E) := fun A B f m s =>
  match m s with (s', Ok a) => f a s' | (s', Err e) => (s', Err e) end.

Definition throw {S E A} (e : E) : M S E A := fun s => (s, Err e).
Definition lift {S E A} (m : result E A) : M S E A := fun s => (s, m).
Definition gets {S E A} (f : S -> A) : M S E A := fun s => (s, Ok (f s)).
Definition modify {S E} (f : S -> S) : M S E unit := fun s => (f s, Ok tt).
Definition reject_when {S E} (bad : S -> bool) (e : E) : M S E unit := fun s =>
  if bad s then (s, Err e) else (s, Ok tt).

(** A loop over a list of inputs that stops at the first error. *)
Fixpoint iterM {S E A} (f : A -> M S E unit) (l : list A) : M S E unit :=
  match l with
  | [] => mret tt
  | x :: l => _ ← f x; iterM f l
  end.

Lemma M_bind_run {S E A B} (m : M S E A) (f : A -> M S E B) s :
  (m ≫= f) s = match m s with (s', Ok a) => f a s' | (s', Err e) => (s', Err e) end.
Proof. reflexivity. Qed.

Lemma M_bind_Ok {S E A B} (m : M S E A) (f : A -> M S E B) s s' b :
  (m ≫= f) s = (s', Ok b) <-> exists s1 a, m s = (s1, Ok a) /\ f a s1 = (s', Ok b).
Proof. rewrite M_bind_run. destruct (m s) as [s1 [a|e]]; naive_solver. Qed.

Lemma M_bind_cases {S E A B} (m : M S E A) (f : A -> M S E B) s s' r :
  (m ≫= f) s = (s', r) ->
  (exists a s1, m s = (s1, Ok a) /\ f a s1 = (s', r)) \/ (exists e, m s = (s', Err e) /\ r = Err e).
Proof. rewrite M_bind_run. destruct (m s) as [s1 [a|e]]; [by left; exists a, s1|]. intros [= <- <-]. right. by exists e. Qed.

Lemma iterM_app {S E A} (f : A -> M S E unit) l1 l2 s :
  iterM f (l1 ++ l2) s =
  match iterM f l1 s with (s', Ok _) => iterM f l2 s' | (s', Err e) => (s', Err e) end.
Proof.
  revert s. induction l1 as [|x l1 IH]; intros s; simpl; [done|].
  rewrite !M_bind_run. destruct (f x s) as [s1 [[]|e]]; [apply IH | done].
Qed.

(** An invariant that every step preserves, whether it succeeds or fails, holds
    after the loop. *)
Lemma iterM_invariant {S E A} (P : S -> Prop) (f : A -> M S E unit) l s :
  (forall x s, P s -> P (fst (f x s))) -> P s -> P (fst (iterM f l s)).
Proof.
  intros Hstep. revert s. induction l as [|x l IH]; intros s Hs; simpl; [done|].
  rewrite M_bind_run. specialize (Hstep x s Hs).
  destruct (f x s) as [s1 [[]|e]]; simpl in *; auto.
Qed.

(** Hoare triples: [Post] of the value and the state on success, [Bad] of the error
    and the state on failure. *)
Definition triple {S E A} (Pre : S -> Prop) (m : M S E A) (Post : A -> S -> Prop)
    (Bad : E -> S -> Prop) : Prop :=
  forall s, Pre s -> match m s with (s', Ok a) => Post a s' | (s', Err e) => Bad e s' end.

Section Triples.
Context {S E : Type}.
Implicit Types (Bad : E -> S -> Prop).

Lemma triple_ret {A} (Pre : S -> Prop) (a : A) Post Bad :
  (forall s, Pre s -> Post a s) -> triple Pre (mret a) Post Bad.
Proof. intros H s Hs. by apply H. Qed.

Lemma triple_throw {A} (Pre : S -> Prop) (e : E) (Post : A -> S -> Prop) Bad :
  (forall s, Pre s -> Bad e s) -> triple Pre (throw e) Post Bad.
Proof. intros H s Hs. by apply H. Qed.

Lemma triple_lift {A} (Pre : S -> Prop) (m : result E A) Post Bad :
  (forall s, Pre s -> match m with Ok a => Post a s | Err e => Bad e s end) ->
  triple Pre (lift m) Post Bad.
Proof. intros H s Hs. unfold lift. specialize (H s Hs). by destruct m. Qed.

Lemma triple_modify (Pre : S -> Prop) (f : S -> S) Post Bad :
  (forall s, Pre s -> Post tt (f s)) -> triple Pre (modify f) Post Bad.
Proof. intros H s Hs. by apply H. Qed.

Lemma triple_gets {A} (Pre : S -> Prop) (f : S -> A) Post Bad :
  (forall s, Pre s -> Post (f s) s) -> triple Pre (gets f) Post Bad.
Proof. intros H s Hs. by apply H. Qed.

Lemma triple_bind {A B} (Pre : S -> Prop) (m : M S E A) (f : A -> M S E B) Mid Post Bad :
  triple Pre m Mid Bad -> (forall a, triple (Mid a) (f a) Post Bad) ->
  triple Pre (m ≫= f) Post Bad.
Proof.
  intros Hm Hf s Hs. rewrite M_bind_run. specialize (Hm s Hs).
  destruct (m s) as [s' [a|e]]; [by apply Hf|done].
Qed.

Lemma triple_weaken {A} (Pre Pre' : S -> Prop) (m : M S E A) (Post Post' : A -> S -> Prop) Bad Bad' :
  triple Pre' m Post' Bad' -> (forall s, Pre s -> Pre' s) ->
  (forall a s, Post' a s -> Post a s) -> (forall e s, Bad' e s -> Bad e s) ->
  triple Pre m Post Bad.
Proof.
  intros H HP HQ HB s Hs. specialize (H s (HP s Hs)). destruct (m s) as [s' [a|e]]; auto.
Qed.

(** A loop keeps what each of its rounds keeps. *)
Lemma triple_iter {A} (I : S -> Prop) (f : A -> M S E unit) l Bad :
  (forall x, x ∈ l -> triple I (f x) (fun _ => I) Bad) -> triple I (iterM f l) (fun _ => I) Bad.
Proof.
  induction l as [|x l IH]; intros H; cbn [iterM]; [by apply triple_ret|].
  apply (triple_bind _ _ _ (fun _ => I)); [apply H; left|].
  intros _. apply IH. intros y Hy. apply H. by right.
Qed.
End Triples.

(** The next operation of a sequence, whose triple [tac] proves. *)
Ltac run_op tac := eapply triple_bind; [tac | cbv beta].

(** ** Vectors *)

(** [Vec::dedup]: drops consecutive repetitions. *)
Fixpoint dedup {A} `{EqDecision A} (l : list A) : list A :=
  match l with
  | x :: ((y :: _) as l') => if decide (x = y) then dedup l' else x :: dedup l'
  | _ => l
  end.

Lemma dedup_cons2 {A} `{EqDecision A} (x y : A) l :
  dedup (x :: y :: l) = if decide (x = y) then dedup (y :: l) else x :: dedup (y :: l).
Proof. reflexivity. Qed.

Lemma elem_of_dedup {A} `{EqDecision A} (l : list A) x : x ∈ dedup l <-> x ∈ l.
Proof.
  induction l as [|a [|b l] IH]; [done..|]. rewrite dedup_cons2.
  case_decide; [|set_solver]. subst. rewrite IH. set_solver.
Qed.

Lemma dedup_head {A} `{EqDecision A} (x : A) l : exists l', dedup (x :: l) = x :: l'.
Proof.
  revert x. induction l as [|y l IH]; intros x; [by exists []|].
  rewrite dedup_cons2. case_decide as Hxy; [subst; apply IH | by eexists].
Qed.

(** On a sorted vector [dedup] leaves no repetition at all. *)
Lemma dedup_NoDup {A} `{EqDecision A} (R : relation A) `{!Transitive R, !AntiSymm eq R} l :
  StronglySorted R l -> NoDup (dedup l).
Proof.
  induction l as [|a [|b l] IH]; intros Hs; [constructor | apply NoDup_singleton |].
  rewrite dedup_cons2. apply StronglySorted_inv in Hs as [Hs Hall].
  case_decide as Hab; [subst; auto|]. constructor; [|auto].
  rewrite elem_of_dedup, elem_of_cons. intros [->|Hin]; [done|].
  apply StronglySorted_inv in Hs as [_ Hb].
  rewrite Forall_forall in Hb, Hall. apply Hab, (anti_symm R).
  - apply Hall. set_solver.
  - by apply Hb.
Qed.

Lemma dedup_sorted {A} `{EqDecision A} (R : relation A) l :
  StronglySorted R l -> StronglySorted R (dedup l).
Proof.
  induction l as [|a [|b l] IH]; intros Hs; [done..|].
  rewrite dedup_cons2. apply StronglySorted_inv in Hs as [Hs Hall].
  case_decide; [auto|]. constructor; [auto|].
  rewrite Forall_forall in Hall |- *. intros x Hx. apply Hall. by apply elem_of_dedup.
Qed.

Lemma sorted_take {A} (R : relation A) n l : StronglySorted R l -> StronglySorted R (take n l).
Proof.
  revert n. induction l as [|x l IH]; intros [|n] Hs; simpl; try constructor.
  - apply StronglySorted_inv in Hs as [Hs _]. auto.
  - apply StronglySorted_inv in Hs as [_ Hall]. by apply Forall_take.
Qed.

Lemma NoDup_take {A} n (l : list A) : NoDup l -> NoDup (take n l).
Proof. intros H. rewrite <- (take_drop n l) in H. by apply NoDup_app in H as [? _]. Qed.

Lemma omap_cons_eq {A B} (f : A -> option B) x l :
  omap f (x :: l) = match f x with Some y => y :: omap f l | None => omap f l end.
Proof. reflexivity. Qed.

Lemma forallb_elem_of {A} (p : A -> bool) l :
  forallb p l = true <-> forall x, x ∈ l -> p x = true.
Proof. rewrite forallb_forall. by setoid_rewrite list_elem_of_In. Qed.

Lemma existsb_elem_of {A} (p : A -> bool) l :
  existsb p l = true <-> exists x, x ∈ l /\ p x = true.
Proof. rewrite existsb_exists. by setoid_rewrite list_elem_of_In. Qed.

Lemma existsb_false {A} (p : A -> bool) l :
  existsb p l = false <-> forall x, x ∈ l -> p x = false.
Proof.
  induction l as [|a l IH]; simpl; [set_solver|].
  rewrite orb_false_iff, IH. set_solver.
Qed.

(** ** The smallest elements of a vector

    [sort], [dedup], [truncate(n)] keeps the [n] smallest elements; truncating
    the parts first loses none of them. *)

Section Smallest.
Context {A : Type} `{EqDecision A} (R : relation A) `{!RelDecision R}.
Context `{!PreOrder R, !AntiSymm eq R, !Total R}.

Definition sort_dedup (l : list A) : list A := dedup (merge_sort R l).

Lemma elem_of_sort_dedup l x : x ∈ sort_dedup l <-> x ∈ l.
Proof. unfold sort_dedup. by rewrite elem_of_dedup, merge_sort_Permutation. Qed.

Lemma sort_dedup_sorted l : StronglySorted R (sort_dedup l).
Proof. apply dedup_sorted, StronglySorted_merge_sort; apply _. Qed.

Lemma sort_dedup_NoDup l : NoDup (sort_dedup l).
Proof. apply (dedup_NoDup R), StronglySorted_merge_sort; apply _. Qed.

(** How many elements of [l] are strictly below [x]. *)
Definition rank (x : A) (l : list A) : nat := length (filter (fun y => R y x /\ y <> x) l).

Lemma rank_mono x l l' : NoDup l' -> l' ⊆ l -> (rank x l' <= rank x l)%nat.
Proof.
  intros Hn Hs. apply submseteq_length, NoDup_submseteq; [by apply NoDup_filter|].
  intros y. rewrite !list_elem_of_filter. intros [? Hy]. split; [done|by apply Hs].
Qed.

Lemma take_rank n l x :
  StronglySorted R l -> NoDup l -> x ∈ take n l <-> x ∈ l /\ (rank x l < n)%nat.
Proof.
  revert n. induction l as [|a l IH]; intros n Hs Hn.
  - rewrite take_nil. set_solver.
  - apply StronglySorted_inv in Hs as [Hs Hall]. apply NoDup_cons in Hn as [Ha Hn].
    rewrite Forall_forall in Hall. destruct n as [|n]; [simpl; set_solver by lia|].
    cbn [take]. rewrite !elem_of_cons, IH by done. unfold rank. rewrite filter_cons.
    destruct (decide (x = a)) as [->|Hne].
    + split; [intros _|by left]. split; [by left|]. rewrite decide_False by naive_solver.
      destruct (filter _ l) as [|y l'] eqn:Hf; [simpl; lia|]. exfalso.
      assert (Hy : y ∈ y :: l') by left. rewrite <- Hf in Hy.
      apply list_elem_of_filter in Hy as [[Hya Hne] Hy]. apply Hne, (anti_symm R); auto.
    + case_decide as Hd; simpl.
      * split; [intros [|[? ?]]; [done|split; [by right|lia]]|].
        intros [[|?] ?]; [done|]. right. split; [done|lia].
      * split; [intros [|[Hx ?]]; [done|]|intros [[|Hx] ?]; [done|]];
          exfalso; apply Hd; split; auto.
Qed.

Lemma take_smallest n l l' :
  StronglySorted R l -> NoDup l -> StronglySorted R l' -> NoDup l' -> l' ⊆ l ->
  (forall x, x ∈ take n l -> x ∈ l') -> take n l' = take n l.
Proof.
  intros Hs Hn Hs' Hn' Hsub Htake.
  apply (StronglySorted_unique R); [by apply sorted_take..|].
  apply NoDup_Permutation; [by apply NoDup_take..|]. intros x. split.
  - intros Hx. assert (Hx' : x ∈ l') by (rewrite <- (take_drop n l'); set_solver).
    destruct (decide (x ∈ take n l)) as [|Hout]; [done|]. exfalso.
    apply take_rank in Hx as [_ Hr]; [|done..].
    assert (Hd : x ∈ drop n l).
    { pose proof (Hsub x Hx') as Hx. rewrite <- (take_drop n l) in Hx. set_solver. }
    assert (Hlen : length (take n l) = n).
    { rewrite length_take. destruct (decide (n <= length l)%nat); [lia|].
      rewrite drop_ge in Hd by lia. set_solver. }
    assert (Hle : (length (take n l) <= rank x l')%nat); [|lia].
    apply submseteq_length, NoDup_submseteq; [by apply NoDup_take|].
    intros y Hy. apply list_elem_of_filter. split; [|by apply Htake]. split.
    + rewrite <- (take_drop n l) in Hs. apply StronglySorted_app in Hs as (Hrel & _ & _).
      by apply Hrel.
    + intros ->. by apply Hout.
  - intros Hx. pose proof (Htake x Hx). apply take_rank in Hx as [_ Hr]; [|done..].
    apply take_rank; [done..|]. split; [done|]. pose proof (rank_mono x l l' Hn' Hsub). lia.
Qed.

Lemma take_sort_dedup_app n a b :
  take n (sort_dedup (take n (sort_dedup a) ++ take n (sort_dedup b)))
  = take n (sort_dedup (a ++ b)).
Proof.
  pose proof sort_dedup_sorted. pose proof sort_dedup_NoDup.
  assert (Hsub : forall l x, x ∈ take n (sort_dedup l) -> x ∈ l).
  { intros l x Hx. apply elem_of_sort_dedup. rewrite <- (take_drop n). set_solver. }
  assert (Hin : forall l x, l ⊆ a ++ b -> x ∈ l -> x ∈ take n (sort_dedup (a ++ b)) ->
                            x ∈ take n (sort_dedup l)).
  { intros l x Hl Hx Ht. apply take_rank in Ht as [_ Hr]; [|done..].
    apply take_rank; [done..|]. rewrite elem_of_sort_dedup. split; [done|].
    eapply Nat.le_lt_trans; [|exact Hr]. apply rank_mono; [done|].
    intros y. rewrite !elem_of_sort_dedup. apply Hl. }
  apply take_smallest; [done..| |].
  - intros x. rewrite !elem_of_sort_dedup, !elem_of_app. intros [?|?]; eauto.
  - intros x Hx. pose proof (Hsub _ _ Hx) as Hab. rewrite elem_of_sort_dedup, elem_of_app.
    apply elem_of_app in Hab as [Ha|Hb]; [left|right]; apply Hin; (done || set_solver).
Qed.
End Smallest.

(** ** Automation *)

(** Turns a hypothesis [m = Ok _] about a chain of checks into the facts every
    check established. *)
Ltac inv_ok :=
  repeat match goal with
  | H : (_ ≫= _) = Ok _ |- _ => apply bind_Ok in H as (? & ? & ?)
  | H : (_ <$> _) = Ok _ |- _ => apply fmap_Ok in H as (? & ? & ?)
  | H : reject_if _ _ = Ok _ |- _ => apply reject_if_Ok in H
  | H : ok_or _ _ = Ok _ |- _ => apply ok_or_Ok in H
  | H : map_err _ _ = Ok _ |- _ => apply map_err_Ok in H
  | H : mret _ = Ok _ |- _ => injection H as H
  | H : Ok _ = Ok _ |- _ => injection H as H
  | H : Err _ = Ok _ |- _ => discriminate H
  | H : for_each _ _ = Ok _ |- _ => apply for_each_Ok in H
  | H : (if ?b then Err _ else _) = Ok _ |- _ => let E := fresh "Hc" in destruct b eqn:E; [discriminate H|]
  | H : (if ?b then _ else Err _) = Ok _ |- _ => let E := fresh "Hc" in destruct b eqn:E; [|discriminate H]
  end; simplify_eq/=.

(** Splits boolean guards into their conjuncts. *)
Ltac split_guards :=
  repeat match goal with
  | H : (_ || _)%bool = false |- _ => apply orb_false_iff in H as [? ?]
  | H : (_ && _)%bool = true |- _ => apply andb_true_iff in H as [? ?]
  | H : negb _ = true |- _ => apply negb_true_iff in H
  | H : negb _ = false |- _ => apply negb_false_iff in H
  | H : bool_decide _ = true |- _ => apply bool_decide_eq_true in H
  | H : bool_decide _ = false |- _ => apply bool_decide_eq_false in H
  end.

Ltac case_if :=
  match goal with
  | |- context [if ?b then _ else _] => let E := fresh "Hif" in destruct b eqn:E
  end.

Create HintDb axiom discriminated.
#[export] Hint Resolve sorted_take dedup_sorted NoDup_take : axiom.
#[export] Hint Rewrite @bind_Ok @ok_or_Ok @map_err_Ok @reject_if_Ok : axiom.
