(* ===== verification/RustStr.v ===== *)
(** Rust strings.

    A [String] or [&str] is its UTF-8 bytes, a [string] of 8-bit [ascii]
    characters; [len] counts bytes and literals in the source are ASCII.
    [char] is a Unicode scalar value, an [N].  The file holds the UTF-8 decoder
    and encoder with their round trips and the [str] methods the program uses:
    [chars], [trim], [split_once], [strip_prefix], [contains], [split],
    [join], [to_ascii_lowercase], decimal [parse], byte-wise ordering, and slicing
    at character boundaries. *)

From stdpp Require Import base gmap strings list sorting.
From Stdlib Require Import ZArith NArith Ascii Lia ZifyBool ZifyN ZifyNat.
From S2P Require Import Prelude.

Local Open Scope N_scope.

(** ** Bytes *)

Definition byte_val (a : ascii) : N := N_of_ascii a.
Definition byte_of (n : N) : ascii := ascii_of_N n.

Lemma byte_val_lt a : byte_val a < 256.
Proof. apply N_ascii_bounded. Qed.

Lemma byte_val_of n : n < 256 -> byte_val (byte_of n) = n.
Proof. apply N_ascii_embedding. Qed.

Lemma byte_of_val a : byte_of (byte_val a) = a.
Proof. apply ascii_N_embedding. Qed.

Fixpoint bytes (s : string) : list N :=
  match s with
  | EmptyString => []
  | String a s => byte_val a :: bytes s
  end.

Fixpoint of_bytes (l : list N) : string :=
  match l with
  | [] => EmptyString
  | n :: l => String (byte_of n) (of_bytes l)
  end.

(** [str::len], in bytes. *)
Definition len (s : string) : Z := Z.of_nat (String.length s).
Definition is_empty (s : string) : bool :=
  match s with EmptyString => true | _ => false end.

Lemma len_nonneg s : (0 <= len s)%Z.
Proof. unfold len. lia. Qed.

Lemma is_empty_true s : is_empty s = true <-> s = EmptyString.
Proof. by destruct s. Qed.

Lemma is_empty_len s : is_empty s = false <-> (0 < len s)%Z.
Proof. destruct s; unfold len; simpl; split; intros; try done; lia. Qed.

Lemma bytes_app s t : bytes (s +:+ t) = bytes s ++ bytes t.
Proof. induction s as [|a s IH]; [done|]. simpl. by f_equal. Qed.

Lemma of_bytes_bytes s : of_bytes (bytes s) = s.
Proof. induction s as [|a s IH]; simpl; [done|]. by rewrite byte_of_val, IH. Qed.

Lemma bytes_of_bytes l : Forall (fun n => n < 256) l -> bytes (of_bytes l) = l.
Proof.
  induction 1 as [|n l Hn _ IH]; simpl; [done|]. by rewrite byte_val_of, IH.
Qed.

Lemma bytes_inj s t : bytes s = bytes t -> s = t.
Proof. intros H. by rewrite <- (of_bytes_bytes s), H, of_bytes_bytes. Qed.

Lemma str_app_assoc (s t u : string) : s +:+ (t +:+ u) = (s +:+ t) +:+ u.
Proof. apply bytes_inj. rewrite !bytes_app. apply app_assoc. Qed.

Lemma str_app_nil_r (s : string) : s +:+ "" = s.
Proof. apply bytes_inj. rewrite bytes_app. apply app_nil_r. Qed.

Lemma len_bytes s : len s = Z.of_nat (length (bytes s)).
Proof. unfold len. induction s as [|a s IH]; simpl; [done|lia]. Qed.

Lemma len_app s t : (len (s +:+ t) = len s + len t)%Z.
Proof. rewrite !len_bytes, bytes_app, length_app. lia. Qed.

Lemma is_empty_app (s t : string) : is_empty (s +:+ t) = is_empty s && is_empty t.
Proof. by destruct s. Qed.

(** ** Character classes, on scalar values (and on single bytes) *)

Definition is_ascii_digit (c : N) : bool := (48 <=? c) && (c <=? 57).
Definition is_ascii_uppercase (c : N) : bool := (65 <=? c) && (c <=? 90).
Definition is_ascii_lowercase (c : N) : bool := (97 <=? c) && (c <=? 122).
Definition is_ascii_alphanumeric (c : N) : bool :=
  is_ascii_digit c || is_ascii_uppercase c || is_ascii_lowercase c.
Definition is_ascii_hexdigit (c : N) : bool :=
  is_ascii_digit c || ((65 <=? c) && (c <=? 70)) || ((97 <=? c) && (c <=? 102)).
(** [char::is_control]: general category Cc. *)
Definition is_control (c : N) : bool := (c <? 32) || ((127 <=? c) && (c <? 160)).
(** [char::is_whitespace]: the Unicode White_Space property. *)
Definition is_whitespace (c : N) : bool :=
  ((9 <=? c) && (c <=? 13)) || (c =? 32) || (c =? 133) || (c =? 160) || (c =? 5760)
  || ((8192 <=? c) && (c <=? 8202)) || (c =? 8232) || (c =? 8233) || (c =? 8239)
  || (c =? 8287) || (c =? 12288).

Lemma alphanumeric_not_control c : is_ascii_alphanumeric c = true -> is_control c = false.
Proof.
  unfold is_ascii_alphanumeric, is_ascii_digit, is_ascii_uppercase, is_ascii_lowercase, is_control.
  lia.
Qed.

(** ** UTF-8 *)

Definition scalar (c : N) : Prop := c < 55296 \/ (57344 <= c /\ c < 1114112).

Definition is_cont (b : N) : bool := (128 <=? b) && (b <? 192).

(** Second byte ranges of the three and four byte forms: no overlong form, no
    surrogate, nothing above U+10FFFF. *)
Definition second3_ok (b0 b1 : N) : bool :=
  ((b0 =? 224) && (160 <=? b1) && (b1 <? 192))
  || ((225 <=? b0) && (b0 <=? 236) && is_cont b1)
  || ((b0 =? 237) && (128 <=? b1) && (b1 <? 160))
  || ((238 <=? b0) && (b0 <=? 239) && is_cont b1).
Definition second4_ok (b0 b1 : N) : bool :=
  ((b0 =? 240) && (144 <=? b1) && (b1 <? 192))
  || ((241 <=? b0) && (b0 <=? 243) && is_cont b1)
  || ((b0 =? 244) && (128 <=? b1) && (b1 <? 144)).

Fixpoint utf8_decode (s : string) : option (list N) :=
  match s with
  | EmptyString => Some []
  | String a s1 =>
    let b0 := byte_val a in
    if b0 <? 128 then cons b0 <$> utf8_decode s1 else
    match s1 with
    | EmptyString => None
    | String b s2 =>
      let b1 := byte_val b in
      if (194 <=? b0) && (b0 <=? 223) && is_cont b1
      then cons ((b0 - 192) * 64 + (b1 - 128)) <$> utf8_decode s2 else
      match s2 with
      | EmptyString => None
      | String c s3 =>
        let b2 := byte_val c in
        if second3_ok b0 b1 && is_cont b2
        then cons ((b0 - 224) * 4096 + (b1 - 128) * 64 + (b2 - 128)) <$> utf8_decode s3 else
        match s3 with
        | EmptyString => None
        | String d s4 =>
          let b3 := byte_val d in
          if second4_ok b0 b1 && is_cont b2 && is_cont b3
          then cons ((b0 - 240) * 262144 + (b1 - 128) * 4096 + (b2 - 128) * 64 + (b3 - 128))
                 <$> utf8_decode s4
          else None
        end
      end
    end
  end.

Definition encode_char (c : N) : list N :=
  if c <? 128 then [c]
  else if c <? 2048 then [192 + c / 64; 128 + c mod 64]
  else if c <? 65536 then [224 + c / 4096; 128 + (c / 64) mod 64; 128 + c mod 64]
  else [240 + c / 262144; 128 + (c / 4096) mod 64; 128 + (c / 64) mod 64; 128 + c mod 64].

Definition utf8_encode (cs : list N) : string := of_bytes (mjoin (encode_char <$> cs)).

(** [std::str::from_utf8]. *)
Definition from_utf8 (bs : list N) : option string :=
  let s := of_bytes bs in if utf8_decode s then Some s else None.

Definition valid_utf8 (s : string) : bool := if utf8_decode s then true else false.

(** [str::chars].  A Rust string is always valid UTF-8, so the default is never
    taken on a value of the program. *)
Definition chars (s : string) : list N := default [] (utf8_decode s).



Lemma of_bytes_app l1 l2 : of_bytes (l1 ++ l2) = of_bytes l1 +:+ of_bytes l2.
Proof. induction l1 as [|n l1 IH]; simpl; [done|]. by rewrite IH. Qed.

Lemma encode_char_bytes c : scalar c -> Forall (fun n => n < 256) (encode_char c).
Proof.
  unfold scalar, encode_char. intros Hc.
  repeat case_match; repeat constructor; lia.
Qed.

(** Decoding is a left inverse of encoding. *)
Lemma utf8_decode_encode_char c s :
  scalar c -> utf8_decode (of_bytes (encode_char c) +:+ s) = cons c <$> utf8_decode s.
Proof.
  intros Hc. pose proof (encode_char_bytes c Hc) as Hb. unfold encode_char in *. unfold scalar in Hc.
  repeat case_match; simpl; rewrite !Forall_cons in Hb; destruct_and?;
    rewrite ?byte_val_of by done.
  - rewrite (proj2 (N.ltb_lt c 128)) by lia. done.
  - replace (_ <? 128) with false by lia. unfold is_cont.
    match goal with |- context [if ?b then _ else _] => replace b with true by lia end.
    f_equal. f_equal. lia.
  - replace (_ <? 128) with false by lia.
    match goal with |- context [if ?b then _ else _] => replace b with false by lia end.
    unfold second3_ok, is_cont.
    match goal with |- context [if ?b then _ else _] => replace b with true by lia end.
    f_equal. f_equal. lia.
  - replace (_ <? 128) with false by lia.
    match goal with |- context [if ?b then _ else _] => replace b with false by lia end.
    unfold second3_ok, second4_ok, is_cont.
    match goal with |- context [if ?b then _ else _] => replace b with false by lia end.
    match goal with |- context [if ?b then _ else _] => replace b with true by lia end.
    f_equal. f_equal. lia.
Qed.

Lemma utf8_encode_cons c cs :
  utf8_encode (c :: cs) = of_bytes (encode_char c) +:+ utf8_encode cs.
Proof. unfold utf8_encode. simpl. apply of_bytes_app. Qed.

Lemma utf8_decode_encode cs : Forall scalar cs -> utf8_decode (utf8_encode cs) = Some cs.
Proof.
  induction 1 as [|c cs Hc _ IH]; [done|].
  by rewrite utf8_encode_cons, utf8_decode_encode_char, IH.
Qed.

Lemma String_byte_eq x y s t :
  x = y -> s = t -> String (byte_of x) s = String (byte_of y) t.
Proof. congruence. Qed.

(** One step of the decoder: a non-empty valid string starts with the encoding
    of one scalar value. *)
Lemma utf8_decode_step s c cs :
  utf8_decode s = Some (c :: cs) ->
  exists s', s = of_bytes (encode_char c) +:+ s' /\ scalar c /\ utf8_decode s' = Some cs.
Proof.
  unfold scalar. destruct s as [|a s1]; simpl; [done|]. pose proof (byte_val_lt a).
  rewrite <- (byte_of_val a). remember (byte_val a) as b0 eqn:E0. rewrite byte_val_of by done.
  destruct (b0 <? 128) eqn:Hc0.
  { destruct (utf8_decode s1) as [cs'|] eqn:Hd; simpl; [|done]. intros [= <- <-].
    exists s1. unfold encode_char. rewrite Hc0. split_and!; [done|lia|done]. }
  destruct s1 as [|b s2]; [done|]. pose proof (byte_val_lt b).
  rewrite <- (byte_of_val b). remember (byte_val b) as b1 eqn:E1. rewrite byte_val_of by done.
  destruct ((194 <=? b0) && _ && _) eqn:Hc2.
  { destruct (utf8_decode s2) as [cs'|] eqn:Hd; simpl; [|done]. intros [= <- <-].
    unfold is_cont in *. exists s2. unfold encode_char.
    replace (_ <? 128) with false by lia. replace (_ <? 2048) with true by lia.
    split_and!; [|lia|done]. simpl. repeat (apply String_byte_eq; [lia|]). done. }
  destruct s2 as [|c2 s3]; [done|]. pose proof (byte_val_lt c2).
  rewrite <- (byte_of_val c2). remember (byte_val c2) as b2 eqn:E2. rewrite byte_val_of by done.
  destruct (second3_ok b0 b1 && is_cont b2) eqn:Hc3.
  { destruct (utf8_decode s3) as [cs'|] eqn:Hd; simpl; [|done]. intros [= <- <-].
    unfold second3_ok, is_cont in *. exists s3. unfold encode_char.
    replace (_ <? 128) with false by lia. replace (_ <? 2048) with false by lia.
    replace (_ <? 65536) with true by lia.
    split_and!; [|lia|done]. simpl. repeat (apply String_byte_eq; [lia|]). done. }
  destruct s3 as [|d s4]; [done|]. pose proof (byte_val_lt d).
  rewrite <- (byte_of_val d). remember (byte_val d) as b3 eqn:E3. rewrite byte_val_of by done.
  destruct (second4_ok b0 b1 && _ && _) eqn:Hc4; [|done].
  destruct (utf8_decode s4) as [cs'|] eqn:Hd; simpl; [|done]. intros [= <- <-].
  unfold second4_ok, is_cont in *. exists s4. unfold encode_char.
  replace (_ <? 128) with false by lia. replace (_ <? 2048) with false by lia.
  replace (_ <? 65536) with false by lia.
  split_and!; [|lia|done]. simpl. repeat (apply String_byte_eq; [lia|]). done.
Qed.

Lemma utf8_decode_nil s : utf8_decode s = Some [] -> s = EmptyString.
Proof.
  destruct s as [|a s1]; simpl; [done|]. case_match; [by destruct (utf8_decode s1)|].
  destruct s1 as [|b s2]; [done|]. case_match; [by destruct (utf8_decode s2)|].
  destruct s2 as [|c s3]; [done|]. case_match; [by destruct (utf8_decode s3)|].
  destruct s3 as [|d s4]; [done|]. case_match; [by destruct (utf8_decode s4)|done].
Qed.

(** Encoding is a left inverse of decoding on valid strings. *)
Lemma utf8_encode_decode s cs :
  utf8_decode s = Some cs -> utf8_encode cs = s /\ Forall scalar cs.
Proof.
  revert s. induction cs as [|c cs IH]; intros s Hs.
  - apply utf8_decode_nil in Hs as ->. split; [done|constructor].
  - apply utf8_decode_step in Hs as (s' & -> & Hc & Hs').
    apply IH in Hs' as [<- Hcs]. split; [by rewrite utf8_encode_cons|]. by constructor.
Qed.

Lemma utf8_decode_app s t cs :
  utf8_decode s = Some cs -> utf8_decode (s +:+ t) = (app cs) <$> utf8_decode t.
Proof.
  revert s. induction cs as [|c cs IH]; intros s Hs.
  - apply utf8_decode_nil in Hs as ->. change (EmptyString +:+ t) with t.
    by destruct (utf8_decode t).
  - apply utf8_decode_step in Hs as (s' & -> & Hc & Hs').
    rewrite <- str_app_assoc, utf8_decode_encode_char by done.
    rewrite (IH _ Hs'). by destruct (utf8_decode t).
Qed.

Lemma chars_app s t : valid_utf8 s = true -> valid_utf8 t = true ->
  chars (s +:+ t) = chars s ++ chars t.
Proof.
  unfold valid_utf8, chars. destruct (utf8_decode s) as [cs|] eqn:Hs; [|done].
  intros _. rewrite (utf8_decode_app _ _ _ Hs). by destruct (utf8_decode t).
Qed.

Lemma valid_utf8_app s t : valid_utf8 s = true -> valid_utf8 t = true ->
  valid_utf8 (s +:+ t) = true.
Proof.
  unfold valid_utf8. destruct (utf8_decode s) as [cs|] eqn:Hs; [|done].
  intros _. rewrite (utf8_decode_app _ _ _ Hs). by destruct (utf8_decode t).
Qed.

(** An ASCII string decodes to its bytes. *)
Lemma utf8_decode_ascii s :
  forallb (fun b => b <? 128) (bytes s) = true -> utf8_decode s = Some (bytes s).
Proof.
  induction s as [|a s IH]; simpl; [done|]. rewrite andb_true_iff. intros [Ha Hs].
  by rewrite Ha, (IH Hs).
Qed.

Lemma ascii_chars (p : N -> bool) s :
  (forall c, p c = true -> c < 128) -> forallb p (bytes s) = true -> chars s = bytes s.
Proof.
  intros Hp Hall. unfold chars. rewrite utf8_decode_ascii; [done|].
  apply forallb_elem_of. intros b Hb.
  apply (proj1 (forallb_elem_of _ _)) with (x := b) in Hall; [|done]. apply Hp in Hall. lia.
Qed.

(** Every byte of the encoding of a scalar value above U+007F has its high bit
    set, so a property of all the characters that implies ASCII is a property
    of all the bytes. *)
Lemma chars_all_bytes (p : N -> bool) s :
  (forall c, p c = true -> c < 128) -> valid_utf8 s = true ->
  forallb p (chars s) = true -> forallb p (bytes s) = true /\ chars s = bytes s.
Proof.
  intros Hp Hv Hall. unfold valid_utf8, chars in *.
  destruct (utf8_decode s) as [cs|] eqn:Hs; [|done]. simpl in *.
  apply utf8_encode_decode in Hs as [<- _].
  assert (Hb : mjoin (encode_char <$> cs) = cs).
  { clear Hv. induction cs as [|c cs IH]; [done|]. simpl in Hall.
    apply andb_true_iff in Hall as [Hc Hcs].
    change (mjoin (encode_char <$> c :: cs)) with (encode_char c ++ mjoin (encode_char <$> cs)).
    rewrite (IH Hcs). apply Hp in Hc.
    unfold encode_char. by rewrite (proj2 (N.ltb_lt c 128) Hc). }
  assert (Henc : utf8_encode cs = of_bytes cs) by exact (f_equal of_bytes Hb).
  rewrite Henc, bytes_of_bytes; [done|].
  apply Forall_forall. intros c Hc.
  apply (proj1 (forallb_elem_of _ _)) with (x := c) in Hall; [|done]. apply Hp in Hall. lia.
Qed.

(** ** [str] methods *)

Fixpoint drop_while (p : N -> bool) (l : list N) : list N :=
  match l with
  | x :: l' => if p x then drop_while p l' else l
  | [] => []
  end.

Definition trim_chars (p : N -> bool) (l : list N) : list N :=
  reverse (drop_while p (reverse (drop_while p l))).

(** [str::trim] and [str::trim_matches]. *)
Definition trim_matches (p : N -> bool) (s : string) : string :=
  match utf8_decode s with
  | Some cs => utf8_encode (trim_chars p cs)
  | None => s
  end.
Definition trim (s : string) : string := trim_matches is_whitespace s.

(** [str::trim_end_matches] of one ASCII character. *)
Definition trim_end_byte (b : N) (s : string) : string :=
  of_bytes (reverse (drop_while (N.eqb b) (reverse (bytes s)))).

(** [s.trim().is_empty()]. *)
Definition is_blank (s : string) : bool := is_empty (trim s).

Fixpoint strip_prefix (p s : string) : option string :=
  match p, s with
  | EmptyString, _ => Some s
  | String a p, String b s => if Ascii.eqb a b then strip_prefix p s else None
  | _, EmptyString => None
  end.

Definition starts_with (p s : string) : bool := if strip_prefix p s then true else false.

(** [str::split_once], at the first occurrence. *)
Fixpoint split_once (p s : string) : option (string * string) :=
  match strip_prefix p s with
  | Some rest => Some (EmptyString, rest)
  | None =>
    match s with
    | EmptyString => None
    | String a s => '(l, r) ← split_once p s; Some (String a l, r)
    end
  end.

(** [str::contains] of a pattern. *)
Definition contains (p s : string) : bool := if split_once p s then true else false.

Definition ends_with (p s : string) : bool :=
  bool_decide (drop (length (bytes s) - length (bytes p)) (bytes s) = bytes p)
  && (len p <=? len s)%Z.

(** [str::split] on one ASCII character: never empty. *)
Fixpoint split_byte (b : N) (s : string) : list string :=
  match s with
  | EmptyString => [EmptyString]
  | String a s =>
    if byte_val a =? b then EmptyString :: split_byte b s
    else match split_byte b s with
         | [] => [String a EmptyString]
         | x :: l => String a x :: l
         end
  end.

(** [[String]::join]. *)
Fixpoint join (sep : string) (l : list string) : string :=
  match l with
  | [] => EmptyString
  | [x] => x
  | x :: l => x +:+ sep +:+ join sep l
  end.

Definition newline : string := String (byte_of 10) EmptyString.

(** [str::strip_suffix] of a carriage return, and [str::lines]: a final newline
    opens no line, and a carriage return before the end of the text ends none. *)
Definition strip_cr (s : string) : string :=
  match reverse (bytes s) with 13 :: l => of_bytes (reverse l) | _ => s end.
Definition lines (s : string) : list string :=
  let pieces := split_byte 10 s in
  (strip_cr <$> removelast pieces)
  ++ match last pieces with Some rest => if is_empty rest then [] else [rest] | None => [] end.

Definition to_ascii_lowercase (s : string) : string :=
  of_bytes ((fun c => if is_ascii_uppercase c then c + 32 else c) <$> bytes s).

(** [str::parse::<u64>] of a string of decimal digits. *)
Definition decimal_value (s : string) : Z :=
  foldl (fun acc c => (acc * 10 + (Z.of_N c - 48))%Z) 0%Z (bytes s).
Definition parse_digits (bound : Z) (s : string) : option Z :=
  if is_empty s || negb (forallb is_ascii_digit (bytes s)) then None
  else let v := decimal_value s in if (v <=? bound)%Z then Some v else None.

(** Byte-wise lexicographic order, the [Ord] of [str]. *)
Fixpoint bytes_leb (l1 l2 : list N) : bool :=
  match l1, l2 with
  | [], _ => true
  | _ :: _, [] => false
  | x :: l1, y :: l2 => (x <? y) || ((x =? y) && bytes_leb l1 l2)
  end.
Definition str_le (s t : string) : Prop := bytes_leb (bytes s) (bytes t) = true.

#[export] Instance str_le_dec : RelDecision str_le.
Proof. intros s t. unfold str_le. apply _. Defined.

Lemma bytes_leb_refl l : bytes_leb l l = true.
Proof. induction l as [|x l IH]; simpl; [done|]. rewrite IH. lia. Qed.

Lemma bytes_leb_trans l1 l2 l3 :
  bytes_leb l1 l2 = true -> bytes_leb l2 l3 = true -> bytes_leb l1 l3 = true.
Proof.
  revert l2 l3. induction l1 as [|x l1 IH]; intros [|y l2] [|z l3]; simpl; try done.
  rewrite !orb_true_iff, !andb_true_iff. intros [?|[? H1]] [?|[? H2]]; try (left; lia).
  right. split; [lia|eauto].
Qed.

Lemma bytes_leb_antisym l1 l2 :
  bytes_leb l1 l2 = true -> bytes_leb l2 l1 = true -> l1 = l2.
Proof.
  revert l2. induction l1 as [|x l1 IH]; intros [|y l2]; simpl; try done.
  rewrite !orb_true_iff, !andb_true_iff. intros [?|[? H1]] [?|[? H2]]; try lia.
  f_equal; [lia|eauto].
Qed.

Lemma bytes_leb_total l1 l2 : bytes_leb l1 l2 = true \/ bytes_leb l2 l1 = true.
Proof.
  revert l2. induction l1 as [|x l1 IH]; intros [|y l2]; simpl; auto.
  rewrite !orb_true_iff, !andb_true_iff. destruct (IH l2); destruct (N.compare_spec x y); lia.
Qed.

#[export] Instance str_le_preorder : PreOrder str_le.
Proof.
  split; [intros s; apply bytes_leb_refl | intros s t u; apply bytes_leb_trans].
Qed.
#[export] Instance str_le_antisym : AntiSymm eq str_le.
Proof. intros s t H1 H2. by apply bytes_inj, bytes_leb_antisym. Qed.
#[export] Instance str_le_total : Total str_le.
Proof. intros s t. apply bytes_leb_total. Qed.

(** [Vec<String>::sort_unstable]: equal strings are indistinguishable, so any
    sort gives this one. *)
Definition sort_strings (l : list string) : list string := merge_sort str_le l.

Lemma sort_strings_sorted l : StronglySorted str_le (sort_strings l).
Proof. apply StronglySorted_merge_sort; apply _. Qed.

Lemma elem_of_sort_strings l x : x ∈ sort_strings l <-> x ∈ l.
Proof. unfold sort_strings. by rewrite merge_sort_Permutation. Qed.

(** ** Slices *)

(** [&s[..n]] and [&s[n..]], for a character boundary [n]. *)
Definition str_take (n : nat) (s : string) : string := of_bytes (take n (bytes s)).
Definition str_drop (n : nat) (s : string) : string := of_bytes (drop n (bytes s)).

(** [s.is_char_boundary(n)]: the ends, and every byte that continues no character. *)
Definition is_char_boundary (s : string) (n : nat) : bool :=
  match bytes s !! n with
  | Some b => (n =? 0)%nat || negb (is_cont b)
  | None => (n =? length (bytes s))%nat
  end.

(** [while !s.is_char_boundary(end) { end -= 1; }]; zero is a boundary. *)
Fixpoint floor_boundary (s : string) (n : nat) : nat :=
  if is_char_boundary s n then n else match n with O => O | S n => floor_boundary s n end.

Lemma length_bytes s : length (bytes s) = String.length s.
Proof. induction s; cbn; congruence. Qed.

Lemma str_take_drop n s : str_take n s +:+ str_drop n s = s.
Proof. unfold str_take, str_drop. by rewrite <- of_bytes_app, take_drop, of_bytes_bytes. Qed.

Lemma bytes_lt s : Forall (fun n => n < 256) (bytes s).
Proof. induction s; constructor; [apply byte_val_lt|done]. Qed.

Lemma bytes_str_take n s : bytes (str_take n s) = take n (bytes s).
Proof. apply bytes_of_bytes, Forall_take, bytes_lt. Qed.

Lemma bytes_str_drop n s : bytes (str_drop n s) = drop n (bytes s).
Proof. apply bytes_of_bytes, Forall_drop, bytes_lt. Qed.

Lemma len_str_take n s : (len (str_take n s) <= Z.of_nat n)%Z.
Proof. rewrite len_bytes, bytes_str_take, length_take. lia. Qed.

(** An encoded character is one leading byte and at most three continuations. *)
Lemma encode_char_shape c :
  scalar c -> exists b l, encode_char c = b :: l /\ is_cont b = false /\
                     Forall (fun x => is_cont x = true) l /\ (length l <= 3)%nat.
Proof.
  unfold scalar, encode_char, is_cont. intros Hc.
  pose proof (N.mod_lt c 64 ltac:(done)). pose proof (N.mod_lt (c / 64) 64 ltac:(done)).
  pose proof (N.mod_lt (c / 4096) 64 ltac:(done)).
  destruct (c <? 128) eqn:Ha; [|destruct (c <? 2048) eqn:Hb; [|destruct (c <? 65536) eqn:Hd]].
  - exists c, []. split_and!; [done|lia|constructor|cbn; lia].
  - eexists _, _. split_and!; [done|lia|repeat constructor; lia|cbn; lia].
  - eexists _, _. split_and!; [done|lia|repeat constructor; lia|cbn; lia].
  - eexists _, _. split_and!; [done|lia|repeat constructor; lia|cbn; lia].
Qed.

Lemma boundary_zero s : is_char_boundary s 0 = true.
Proof. unfold is_char_boundary. destruct s; done. Qed.

Lemma boundary_end s : is_char_boundary s (length (bytes s)) = true.
Proof. unfold is_char_boundary. rewrite lookup_ge_None_2 by lia. apply Nat.eqb_refl. Qed.

Lemma boundary_app s t n :
  is_char_boundary (s +:+ t) (length (bytes s) + n) = true -> is_char_boundary t n = true.
Proof.
  unfold is_char_boundary. rewrite bytes_app, lookup_app_r, length_app by lia.
  replace (length (bytes s) + n - length (bytes s))%nat with n by lia.
  destruct (bytes t !! n) as [b|] eqn:Hb; [|lia].
  destruct n as [|n]; [done|]. cbn. by replace (length (bytes s) + S n =? 0)%nat with false by lia.
Qed.

(** Slicing a string at a boundary splits its characters. *)
Lemma boundary_split s cs n :
  utf8_decode s = Some cs -> (n <= length (bytes s))%nat -> is_char_boundary s n = true ->
  exists k, utf8_decode (str_take n s) = Some (take k cs) /\
            utf8_decode (str_drop n s) = Some (drop k cs).
Proof.
  revert s n. induction cs as [|c cs IH]; intros s n Hs Hn Hb.
  - exists O. apply utf8_decode_nil in Hs as ->. by destruct n.
  - destruct n as [|n]; [exists O; split; [done|]; unfold str_drop; by rewrite drop_0, of_bytes_bytes|].
    apply utf8_decode_step in Hs as (t & -> & Hc & Ht).
    destruct (encode_char_shape c Hc) as (b & l & He & _ & Hl & _).
    assert (Hbe : bytes (of_bytes (encode_char c)) = encode_char c)
      by (apply bytes_of_bytes, encode_char_bytes; done).
    destruct (decide (S n < length (encode_char c))%nat) as [Hlt|Hge].
    { exfalso. unfold is_char_boundary in Hb. rewrite bytes_app, Hbe, lookup_app_l in Hb by done.
      rewrite He in Hb, Hlt. cbn in Hb, Hlt. destruct (l !! n) as [x|] eqn:Hx;
        [|apply lookup_ge_None in Hx; lia].
      rewrite Forall_lookup in Hl. specialize (Hl n x Hx). by rewrite Hl in Hb. }
    set (k := length (encode_char c)) in *. pose proof Hge as Hk.
    assert (Hm : exists m, S n = (k + m)%nat) by (exists (S n - k)%nat; lia). destruct Hm as [m Hm].
    rewrite Hm in *. replace k with (length (bytes (of_bytes (encode_char c)))) in Hb by (by rewrite Hbe).
    apply boundary_app in Hb.
    destruct (IH t m Ht) as (j & H1 & H2); [rewrite bytes_app, length_app, Hbe in Hn; lia|done|].
    exists (S j). unfold str_take, str_drop in *. rewrite bytes_app, Hbe.
    rewrite take_app_ge, drop_app_ge by lia. fold k. replace (k + m - k)%nat with m by lia.
    rewrite of_bytes_app, utf8_decode_encode_char by done. by rewrite H1.
Qed.

Lemma floor_boundary_spec s n :
  (floor_boundary s n <= n)%nat /\ is_char_boundary s (floor_boundary s n) = true /\
  forall m, (floor_boundary s n < m <= n)%nat -> is_char_boundary s m = false.
Proof.
  induction n as [|n IH]; cbn [floor_boundary].
  - rewrite boundary_zero. split_and!; [lia|apply boundary_zero|lia].
  - destruct (is_char_boundary s (S n)) eqn:Hb; [split_and!; [lia|done|lia]|].
    destruct IH as (H1 & H2 & H3). split_and!; [lia|done|]. intros m Hm.
    destruct (decide (m = S n)) as [->|]; [done|]. apply H3. lia.
Qed.

(** Four bytes always hold the first character, so the search finds it. *)
Lemma floor_boundary_pos s n :
  valid_utf8 s = true -> (0 < n <= length (bytes s))%nat -> (4 <= n \/ n = length (bytes s))%nat ->
  (0 < floor_boundary s n)%nat.
Proof.
  unfold valid_utf8. destruct (utf8_decode s) as [[|c cs]|] eqn:Hd; [|intros _ Hn Hc|done].
  { apply utf8_decode_nil in Hd as ->. cbn. lia. }
  destruct (floor_boundary_spec s n) as (_ & Hb & Hmax). destruct (floor_boundary s n); [|lia].
  apply utf8_decode_step in Hd as (t & -> & Hs & Ht).
  destruct (encode_char_shape c Hs) as (b & l & He & _ & _ & Hl).
  assert (Hbe : bytes (of_bytes (encode_char c)) = b :: l)
    by (rewrite <- He; apply bytes_of_bytes, encode_char_bytes; done).
  rewrite bytes_app, Hbe, length_app in Hn, Hc. cbn [length] in Hn, Hc.
  specialize (Hmax (S (length l)) ltac:(lia)). unfold is_char_boundary in Hmax.
  rewrite bytes_app, Hbe, lookup_app_r in Hmax by (cbn; lia). cbn [length] in Hmax.
  rewrite Nat.sub_diag in Hmax. destruct cs as [|c' cs].
  - apply utf8_decode_nil in Ht as ->. cbn in Hmax. rewrite length_app in Hmax. cbn in Hmax. lia.
  - apply utf8_decode_step in Ht as (u & -> & Hs' & _).
    destruct (encode_char_shape c' Hs') as (b' & l' & He' & Hb' & _ & _).
    rewrite bytes_app, bytes_of_bytes, He' in Hmax by (apply encode_char_bytes; done).
    cbn in Hmax. by rewrite Hb' in Hmax.
Qed.

Lemma valid_utf8_slices s n :
  valid_utf8 s = true ->
  (n <= length (bytes s))%nat -> is_char_boundary s n = true ->
  valid_utf8 (str_take n s) = true /\ valid_utf8 (str_drop n s) = true.
Proof.
  unfold valid_utf8. destruct (utf8_decode s) as [cs|] eqn:Hd; [|done]. intros _ Hn Hb.
  destruct (boundary_split s cs n Hd Hn Hb) as (k & -> & ->). done.
Qed.

Lemma chars_scalar s : Forall scalar (chars s).
Proof.
  unfold chars. destruct (utf8_decode s) as [cs|] eqn:Hd; [|constructor].
  by apply utf8_encode_decode in Hd as [_ H].
Qed.

Lemma chars_encode l : Forall scalar l -> chars (utf8_encode l) = l.
Proof. intros H. unfold chars. by rewrite utf8_decode_encode. Qed.
