(* ===== verification/Json.v ===== *)
(** JSON values and the codecs the program calls.

    [serde_json::Value] with its public constructors: a [Map] is a list of
    members in the map's own (sorted) iteration order with distinct keys, a
    number is an unsigned, a negative or a floating one.  Parsing, printing,
    base64, hexadecimal digests and signatures are library code: they appear as
    the operations of the classes [SerdeJson] and [Base64], and every definition
    that uses them takes an instance as an argument.

    [f64] is NaN, an infinity or a rational: the program only compares floats
    and tests them for finiteness, which the rationals decide exactly. *)

From stdpp Require Import base gmap strings list.
From Stdlib Require Import ZArith QArith Lia.
From S2P Require Import Prelude RustStr.

(** ** Floating point *)

Inductive f64 : Type :=
| NaN
| Infinite (negative : bool)
| Finite (q : Q).

Definition is_finite (x : f64) : bool := match x with Finite _ => true | _ => false end.
(** [lo <= x && x <= hi] with finite bounds: every comparison with NaN is
    false. *)
Definition in_closed (lo hi : Q) (x : f64) : bool :=
  match x with
  | Finite q => Qle_bool lo q && Qle_bool q hi
  | NaN | Infinite _ => false
  end.
Definition f64_eq (x : f64) (q : Q) : bool :=
  match x with Finite p => Qeq_bool p q | _ => false end.
(** [x <= y]. *)
Definition f64_le (x y : f64) : bool :=
  match x, y with
  | NaN, _ | _, NaN => false
  | Infinite true, _ | _, Infinite false => true
  | Infinite false, _ | _, Infinite true => false
  | Finite p, Finite q => Qle_bool p q
  end.

(** ** Values *)

Inductive Number : Type :=
| PosInt (n : Z)
| NegInt (n : Z)
| Float (x : f64).

Inductive Value : Type :=
| VNull
| VBool (b : bool)
| VNumber (n : Number)
| VString (s : string)
| VArray (l : list Value)
| VObject (members : list (string * Value)).

Abbreviation Map := (list (string * Value)).

Definition map_keys (m : Map) : list string := m.*1.
Fixpoint map_get (key : string) (m : Map) : option Value :=
  match m with
  | [] => None
  | (k, v) :: m => if decide (k = key) then Some v else map_get key m
  end.
Definition map_contains (key : string) (m : Map) : bool :=
  if map_get key m then true else false.
Definition map_remove (key : string) (m : Map) : Map :=
  filter (fun kv => kv.1 <> key) m.
(** Insertion at the key's place in the byte order. *)
Fixpoint map_insert (key : string) (v : Value) (m : Map) : Map :=
  match m with
  | [] => [(key, v)]
  | (k, w) :: m' =>
    if decide (k = key) then (key, v) :: m'
    else if decide (str_le key k) then (key, v) :: m
    else (k, w) :: map_insert key v m'
  end.

(** [Value::get] and the [as_*] projections. *)
Definition value_get (key : string) (v : Value) : option Value :=
  match v with VObject m => map_get key m | _ => None end.
Definition as_str (v : Value) : option string :=
  match v with VString s => Some s | _ => None end.
Definition as_bool (v : Value) : option bool :=
  match v with VBool b => Some b | _ => None end.
Definition as_u64 (v : Value) : option Z :=
  match v with VNumber (PosInt n) => Some n | _ => None end.
Definition as_array (v : Value) : option (list Value) :=
  match v with VArray l => Some l | _ => None end.
Definition as_object (v : Value) : option Map :=
  match v with VObject m => Some m | _ => None end.
Definition is_null (v : Value) : bool := match v with VNull => true | _ => false end.
Definition is_string (v : Value) : bool := match v with VString _ => true | _ => false end.

(** [option.filter(|v| !v.is_null())]. *)
Definition not_null (o : option Value) : option Value :=
  match o with Some VNull => None | _ => o end.

(** [PartialEq] of [serde_json::Number] and [Value]. *)
Definition number_eqb (a b : Number) : bool :=
  match a, b with
  | PosInt m, PosInt n | NegInt m, NegInt n => (m =? n)%Z
  | Float (Finite p), Float (Finite q) => Qeq_bool p q
  | Float (Infinite s), Float (Infinite t) => Bool.eqb s t
  | _, _ => false
  end.

Fixpoint value_eqb (v w : Value) : bool :=
  match v, w with
  | VNull, VNull => true
  | VBool a, VBool b => Bool.eqb a b
  | VNumber a, VNumber b => number_eqb a b
  | VString a, VString b => bool_decide (a = b)
  | VArray l, VArray k =>
    (fix all l k := match l, k with
                    | [], [] => true
                    | x :: l, y :: k => value_eqb x y && all l k
                    | _, _ => false
                    end) l k
  | VObject l, VObject k =>
    (fix all l k := match l, k with
                    | [], [] => true
                    | (i, x) :: l, (j, y) :: k => bool_decide (i = j) && value_eqb x y && all l k
                    | _, _ => false
                    end) l k
  | _, _ => false
  end.

Lemma map_get_insert_eq key v m : map_get key (map_insert key v m) = Some v.
Proof.
  induction m as [|[k w] m IH]; simpl; [by rewrite decide_True|].
  repeat (case_decide; simpl; try by rewrite ?decide_True); try done.
Qed.

Lemma map_get_remove_ne key key' m : key <> key' -> map_get key' (map_remove key m) = map_get key' m.
Proof.
  intros Hne. induction m as [|[k w] m IH]; [done|].
  unfold map_remove in *. rewrite filter_cons. simpl.
  repeat (case_decide; simpl); try done; by subst.
Qed.

Lemma map_get_remove_eq key m : map_get key (map_remove key m) = None.
Proof.
  induction m as [|[k w] m IH]; [done|]. unfold map_remove in *. rewrite filter_cons. simpl.
  repeat (case_decide; simpl); done.
Qed.

(** ** Codecs *)

Class SerdeJson : Type := {
  to_vec : Value -> option string;       (** [serde_json::to_vec] *)
  quote : string -> string;              (** [serde_json::to_string(&str)] *)
  json_from_str : string -> option Value (** [serde_json::from_str::<Value>] *)
}.

(** The same functions where the program reports their errors. *)
Class JsonText : Type := {
  json_to_string : Value -> result string string;   (** [serde_json::to_string] *)
  json_pretty : Value -> result string string;      (** [serde_json::to_string_pretty] *)
  json_parse : string -> result string Value        (** [serde_json::from_str::<Value>] *)
}.

(** [base64::engine::general_purpose::STANDARD]. *)
Class Base64 : Type := {
  b64_decode : string -> option (list N);
  b64_encode : list N -> string
}.

(** Documented behaviour of the standard engine: decoding inverts encoding. *)
Definition Base64Roundtrip (B : Base64) : Prop :=
  forall bs, Forall (fun b => (b < 256)%N) bs -> b64_decode (b64_encode bs) = Some bs.

(** ** Concrete codecs for the examples

    The simplest functions of the codecs' types: base64 as the identity on
    bytes, a printer that knows two values.  Definitions never use them. *)

Definition plain_base64 : Base64 :=
  {| b64_decode := fun s => Some (bytes s); b64_encode := of_bytes |}.

Definition plain_json : SerdeJson :=
  {| to_vec := fun v => match v with VNull => Some "null" | _ => Some "{}" end;
     quote := fun s => String (byte_of 34) (s +:+ String (byte_of 34) EmptyString);
     json_from_str := fun s => if decide (s = "null") then Some VNull
                               else if decide (s = "{}") then Some (VObject []) else None |}.

Definition plain_text : JsonText :=
  {| json_to_string := fun v => match v with VString s => Ok s | _ => Ok "{}" end;
     json_pretty := fun v => match v with VString s => Ok s | _ => Ok "{}" end;
     json_parse := fun s => if decide (s = "{}") then Ok (VObject [])
                            else Err "expected value" |}.

Lemma plain_base64_roundtrip : Base64Roundtrip plain_base64.
Proof. intros bs H. simpl. by rewrite bytes_of_bytes. Qed.
