(* ===== verification/ToolCalls.v ===== *)
(** Validation errors, tool calls and the streamed tool-call accumulator
    (crates/axiom-inference/src/lib.rs).

    [ToolCallAccumulator] receives fragments of tool calls in stream order and
    [finish]es into complete calls.  The [BTreeMap<usize, PartialToolCall>] is a
    [gmap]; its iteration order is the increasing order of its keys. *)

From stdpp Require Import base gmap strings list sorting.
From Stdlib Require Import ZArith NArith Lia ZifyBool ZifyN ZifyNat.
From S2P Require Import Prelude RustStr.

Local Open Scope Z_scope.

Definition MAX_TOOLS : Z := 128.
Definition MAX_TOOL_CALLS : Z := 128.
Definition MAX_TOOL_CALL_ID_CHARS : Z := 256.
Definition MAX_FUNCTION_NAME_CHARS : Z := 64.
Definition MAX_MESSAGE_TEXT_BYTES : Z := 4 * 1024 * 1024.
Definition MAX_TOOL_DESCRIPTION_BYTES : Z := 16384.
Definition MAX_TOOL_PARAMETERS_BYTES : Z := 131072.
Definition MAX_TOOL_ARGUMENTS_BYTES : Z := 262000.

(** ** Errors *)

Inductive ValidationErrorKind : Type :=
| Invalid | Count | Size | Unsupported | Conflict | Incomplete.

Record ValidationError : Type := {
  field : string;
  kind : ValidationErrorKind
}.

Definition invalid (f : string) : ValidationError := {| field := f; kind := Invalid |}.
Definition count (f : string) : ValidationError := {| field := f; kind := Count |}.
Definition size_error (f : string) : ValidationError := {| field := f; kind := Size |}.
Definition unsupported (f : string) : ValidationError := {| field := f; kind := Unsupported |}.
Definition conflict (f : string) : ValidationError := {| field := f; kind := Conflict |}.
Definition incomplete (f : string) : ValidationError := {| field := f; kind := Incomplete |}.

#[export] Instance ValidationErrorKind_eq_dec : EqDecision ValidationErrorKind.
Proof. solve_decision. Defined.
#[export] Instance ValidationError_eq_dec : EqDecision ValidationError.
Proof. solve_decision. Defined.

(** ** Field validators *)

Definition validate_bytes (f value : string) (maximum : Z) : result ValidationError unit :=
  if len value >? maximum then Err (size_error f) else Ok tt.

Definition validate_optional_bytes (f : string) (value : option string) (maximum : Z)
    : result ValidationError unit :=
  match value with None => Ok tt | Some value => validate_bytes f value maximum end.

(** The punctuation ["_-.$/"]. *)
Definition identifier_punct (c : N) : bool :=
  (c =? 95)%N || (c =? 45)%N || (c =? 46)%N || (c =? 36)%N || (c =? 47)%N.

Definition chars_count (s : string) : Z := Z.of_nat (length (chars s)).

Definition validate_identifier (f value : string) (maximum : Z) : result ValidationError unit :=
  if is_empty value
     || (chars_count value >? maximum)
     || existsb (fun c => is_control c
                  || negb (is_ascii_alphanumeric c || identifier_punct c)) (chars value)
  then Err (invalid f)
  else Ok tt.

Definition validate_call_id (value : string) : result ValidationError unit :=
  if is_empty value
     || (chars_count value >? MAX_TOOL_CALL_ID_CHARS)
     || existsb is_control (chars value)
  then Err (invalid "tool_call_id")
  else Ok tt.

(** ** Tool calls *)

Record FunctionCall : Type := { fc_name : string; arguments : string }.
Record ToolCall : Type := { id : string; tc_kind : string; function : FunctionCall }.

#[export] Instance FunctionCall_eq_dec : EqDecision FunctionCall.
Proof. solve_decision. Defined.
#[export] Instance ToolCall_eq_dec : EqDecision ToolCall.
Proof. solve_decision. Defined.

Definition validate_tool_call (call : ToolCall) : result ValidationError unit :=
  _ ← validate_call_id (id call);
  _ ← (if decide (tc_kind call = "function") then Ok tt
       else Err (unsupported "tool_call.type"));
  _ ← validate_identifier "tool_call.function.name" (fc_name (function call))
        MAX_FUNCTION_NAME_CHARS;
  validate_bytes "tool_call.function.arguments" (arguments (function call))
    MAX_TOOL_ARGUMENTS_BYTES.

Definition validate_tool_calls (calls : list ToolCall) : result ValidationError unit :=
  if Z.of_nat (length calls) >? MAX_TOOL_CALLS then Err (count "tool_calls")
  else for_each validate_tool_call calls.

(** ** The accumulator *)

Record ToolCallDelta : Type := {
  d_index : Z;
  d_id : option string;
  d_kind : option string;
  d_name : option string;
  d_arguments : option string
}.

Record PartialToolCall : Type := {
  p_id : option string;
  p_kind : option string;
  p_name : string;
  p_arguments : string
}.

Definition PartialToolCall_default : PartialToolCall :=
  {| p_id := None; p_kind := None; p_name := ""; p_arguments := "" |}.

Abbreviation ToolCallAccumulator := (gmap Z PartialToolCall).

(** [merge_stable]: the first fragment fixes the value, an equal repetition is
    accepted, a different one is a conflict.  Returns the destination. *)
Definition merge_stable (destination fragment : option string) (f : string)
    : result ValidationError (option string) :=
  match fragment with
  | Some fragment =>
    match destination with
    | Some existing =>
      if decide (existing = fragment) then Ok destination else Err (conflict f)
    | None => Ok (Some fragment)
    end
  | None => Ok destination
  end.

(** The four updates of one entry, in the source's order; the entry keeps the
    updates made before a failing one. *)
Definition push_entry (delta : ToolCallDelta) : M PartialToolCall ValidationError unit :=
  fun call =>
    match merge_stable (p_id call) (d_id delta) "tool_call_delta.id" with
    | Err e => (call, Err e)
    | Ok id' =>
      let call := {| p_id := id'; p_kind := p_kind call;
                     p_name := p_name call; p_arguments := p_arguments call |} in
      match merge_stable (p_kind call) (d_kind delta) "tool_call_delta.type" with
      | Err e => (call, Err e)
      | Ok kind' =>
        let call := {| p_id := p_id call; p_kind := kind';
                       p_name := p_name call +:+ default "" (d_name delta);
                       p_arguments := p_arguments call |} in
        if (if d_name delta then true else false) && (len (p_name call) >? MAX_FUNCTION_NAME_CHARS)
        then (call, Err (size_error "tool_call_delta.name")) else
        let call := {| p_id := p_id call; p_kind := p_kind call; p_name := p_name call;
                       p_arguments := p_arguments call +:+ default "" (d_arguments delta) |} in
        if (if d_arguments delta then true else false)
           && (len (p_arguments call) >? MAX_TOOL_ARGUMENTS_BYTES)
        then (call, Err (size_error "tool_call_delta.arguments")) else
        (call, Ok tt)
      end
    end.

Definition push (delta : ToolCallDelta) : M ToolCallAccumulator ValidationError unit :=
  fun calls =>
    if d_index delta >=? MAX_TOOL_CALLS then (calls, Err (count "tool_call_delta.index")) else
    let call := default PartialToolCall_default (calls !! d_index delta) in
    let '(call, r) := push_entry delta call in
    (<[d_index delta := call]> calls, r).

(** [BTreeMap::into_iter]: the entries by increasing index. *)
Definition entry_le (x y : Z * PartialToolCall) : Prop := x.1 <= y.1.
#[export] Instance entry_le_dec : RelDecision entry_le.
Proof. intros x y. unfold entry_le. apply _. Defined.
Definition entries (calls : ToolCallAccumulator) : list (Z * PartialToolCall) :=
  merge_sort entry_le (map_to_list calls).

(** The call an entry completes into, before it is validated. *)
Definition complete_entry (call : PartialToolCall) : result ValidationError ToolCall :=
  match p_id call with
  | Some id =>
    if is_empty id then Err (incomplete "tool_call_delta.id") else
    Ok {| id := id; tc_kind := default "function" (p_kind call);
          function := {| fc_name := p_name call; arguments := p_arguments call |} |}
  | None => Err (incomplete "tool_call_delta.id")
  end.

Fixpoint finish_from (expected : Z) (l : list (Z * PartialToolCall))
    : result ValidationError (list ToolCall) :=
  match l with
  | [] => Ok []
  | (index, call) :: l =>
    if negb (index =? expected) then Err (incomplete "tool_call_delta.index") else
    tool ← complete_entry call;
    _ ← validate_tool_calls [tool];
    completed ← finish_from (expected + 1) l;
    Ok (tool :: completed)
  end.

Definition finish (calls : ToolCallAccumulator) : result ValidationError (list ToolCall) :=
  finish_from 0 (entries calls).

(** ** Specifications *)

(** A well-formed identifier, byte by byte. *)
Definition identifier_ok (maximum : Z) (s : string) : Prop :=
  0 < len s <= maximum /\
  forallb (fun b => is_ascii_alphanumeric b || identifier_punct b) (bytes s) = true.

Definition call_id_ok (s : string) : Prop :=
  s <> "" /\ chars_count s <= MAX_TOOL_CALL_ID_CHARS /\ forallb (fun c => negb (is_control c)) (chars s) = true.

Definition tool_call_ok (call : ToolCall) : Prop :=
  call_id_ok (id call) /\ tc_kind call = "function"
  /\ identifier_ok MAX_FUNCTION_NAME_CHARS (fc_name (function call))
  /\ len (arguments (function call)) <= MAX_TOOL_ARGUMENTS_BYTES.

Lemma identifier_punct_ascii c : identifier_punct c = true -> (c < 128)%N.
Proof. unfold identifier_punct. lia. Qed.

Lemma identifier_char c :
  is_control c || negb (is_ascii_alphanumeric c || identifier_punct c) = false
  <-> is_ascii_alphanumeric c || identifier_punct c = true.
Proof.
  pose proof (alphanumeric_not_control c).
  destruct (is_ascii_alphanumeric c), (identifier_punct c) eqn:Hp; simpl;
    rewrite ?orb_false_r, ?orb_true_r; intuition auto.
  unfold identifier_punct, is_control in *. lia.
Qed.

Lemma identifier_byte_ascii c :
  is_ascii_alphanumeric c || identifier_punct c = true -> (c < 128)%N.
Proof.
  unfold is_ascii_alphanumeric, is_ascii_digit, is_ascii_uppercase, is_ascii_lowercase,
    identifier_punct. lia.
Qed.

Lemma existsb_negb {A} (p : A -> bool) l :
  existsb p l = false <-> forallb (fun x => negb (p x)) l = true.
Proof.
  induction l as [|x l IH]; simpl; [done|].
  rewrite orb_false_iff, andb_true_iff, IH, negb_true_iff. done.
Qed.

Lemma validate_identifier_ok f s maximum :
  valid_utf8 s = true ->
  validate_identifier f s maximum = Ok tt <-> identifier_ok maximum s.
Proof.
  intros Hv. unfold validate_identifier, identifier_ok.
  assert (Hex : existsb (fun c => is_control c
                 || negb (is_ascii_alphanumeric c || identifier_punct c)) (chars s) = false
                <-> forallb (fun c => is_ascii_alphanumeric c || identifier_punct c) (chars s) = true).
  { rewrite existsb_false, forallb_elem_of. by setoid_rewrite identifier_char. }
  transitivity (is_empty s = false /\ chars_count s <= maximum /\
     forallb (fun c => is_ascii_alphanumeric c || identifier_punct c) (chars s) = true).
  - rewrite <- Hex. case_match eqn:Hc; split_guards; [|split; [intros _|done]].
    + split; [done|]. intros (He & Hm & Hx). rewrite He, Hx in Hc. lia.
    + split_and!; [done|lia|done].
  - rewrite is_empty_len. unfold chars_count. split.
    + intros (He & Hm & Hall).
      destruct (chars_all_bytes _ _ identifier_byte_ascii Hv Hall) as [Hb Heq].
      rewrite Heq, <- len_bytes in Hm. auto.
    + intros ([He Hm] & Hall).
      rewrite (ascii_chars _ _ identifier_byte_ascii Hall), <- len_bytes. auto.
Qed.

Lemma validate_call_id_ok s : validate_call_id s = Ok tt <-> call_id_ok s.
Proof.
  unfold validate_call_id, call_id_ok. rewrite <- existsb_negb.
  pose proof (is_empty_true s) as He.
  case_match eqn:Hc; split_guards.
  - split; [done|]. intros (Hs & Hl & Hx). rewrite Hx in Hc.
    destruct (is_empty s); [naive_solver|]. simpl in Hc. lia.
  - split; [intros _|done]. split_and!; [naive_solver|lia|done].
Qed.

Lemma validate_bytes_ok f s maximum : validate_bytes f s maximum = Ok tt <-> len s <= maximum.
Proof. unfold validate_bytes. case_match; split; (done || lia). Qed.

Lemma validate_tool_call_ok call :
  valid_utf8 (fc_name (function call)) = true ->
  validate_tool_call call = Ok tt <-> tool_call_ok call.
Proof.
  intros Hv. unfold validate_tool_call, tool_call_ok.
  rewrite bind_Ok, <- validate_call_id_ok, <- (validate_identifier_ok "tool_call.function.name"),
    <- (validate_bytes_ok "tool_call.function.arguments") by done.
  setoid_rewrite bind_Ok. split.
  - intros ([] & ? & [] & Hk & Hn). case_decide; [|done].
    apply bind_Ok in Hn as ([] & ? & ?). done.
  - intros (? & Hk & Hn & ?). exists tt. split; [done|]. exists tt. rewrite decide_True by done.
    split; [done|]. rewrite Hn. done.
Qed.

Lemma validate_tool_calls_ok calls :
  Forall (fun c => valid_utf8 (fc_name (function c)) = true) calls ->
  validate_tool_calls calls = Ok tt <->
  Z.of_nat (length calls) <= MAX_TOOL_CALLS /\ Forall tool_call_ok calls.
Proof.
  intros Hv. unfold validate_tool_calls. rewrite Forall_forall in Hv.
  case_match eqn:Hc.
  - split; [done|]. intros [? _]. lia.
  - rewrite for_each_Ok, !Forall_forall. split.
    + intros H. split; [lia|]. intros c Hin. apply validate_tool_call_ok; auto.
    + intros [_ H] c Hin. apply validate_tool_call_ok; auto.
Qed.

(** ** The accumulator assembles the fragments of each index *)

Definition str_concat (l : list string) : string := foldr String.append "" l.

(** The deltas of one index, in arrival order. *)
Definition fragments (i : Z) (ds : list ToolCallDelta) : list ToolCallDelta :=
  filter (fun d => d_index d = i) ds.
Definition name_of (ds : list ToolCallDelta) : string :=
  str_concat ((fun d => default "" (d_name d)) <$> ds).
Definition arguments_of (ds : list ToolCallDelta) : string :=
  str_concat ((fun d => default "" (d_arguments d)) <$> ds).

(** Every identity a fragment carries is [v]. *)
Definition agrees (v : option string) (fs : list (option string)) : Prop :=
  Forall (fun f => match f with Some x => v = Some x | None => True end) fs.

(** What an entry [c] becomes once the fragments [ds] are pushed on [c0]. *)
Definition assembled (c0 c : PartialToolCall) (ds : list ToolCallDelta) : Prop :=
  p_name c = p_name c0 +:+ name_of ds /\
  p_arguments c = p_arguments c0 +:+ arguments_of ds /\
  agrees (p_id c) (p_id c0 :: (d_id <$> ds)) /\
  agrees (p_kind c) (p_kind c0 :: (d_kind <$> ds)) /\
  (p_id c0 = None -> Forall (eq None) (d_id <$> ds) -> p_id c = None).

Lemma merge_stable_Ok dst frag f v :
  merge_stable dst frag f = Ok v ->
  agrees v [dst; frag] /\ (dst = None -> frag = None -> v = None)
  /\ (forall x, dst = Some x -> v = Some x).
Proof.
  unfold merge_stable, agrees. intros H.
  destruct frag, dst; simplify_eq/=; try case_decide; simplify_eq;
    split_and!; repeat constructor; naive_solver.
Qed.

Lemma push_entry_Ok d c c' :
  push_entry d c = (c', Ok tt) ->
  p_name c' = p_name c +:+ default "" (d_name d) /\
  p_arguments c' = p_arguments c +:+ default "" (d_arguments d) /\
  (exists f, merge_stable (p_id c) (d_id d) f = Ok (p_id c')) /\
  (exists f, merge_stable (p_kind c) (d_kind d) f = Ok (p_kind c')).
Proof.
  unfold push_entry. intros H. repeat (case_match; simplify_eq/=); split_and!; eauto.
Qed.

Lemma agrees_step v' v dst frag f fs :
  merge_stable dst frag f = Ok v -> agrees v' (v :: fs) -> agrees v' (dst :: frag :: fs).
Proof.
  intros Hm Hv. apply merge_stable_Ok in Hm as (H2 & _ & _). unfold agrees in *.
  rewrite !Forall_cons in *. destruct H2 as (Ha & Hb & _), Hv as [Hv Hf].
  destruct dst, frag, v; naive_solver.
Qed.

Lemma push_Ok d m m' :
  push d m = (m', Ok tt) ->
  d_index d < MAX_TOOL_CALLS /\
  exists c, push_entry d (default PartialToolCall_default (m !! d_index d)) = (c, Ok tt)
            /\ m' = <[d_index d := c]> m.
Proof.
  unfold push. case_match; [done|]. destruct (push_entry _ _) as [c r] eqn:Hp.
  intros [= <- ->]. split; [lia|]. by exists c.
Qed.

Lemma assembled_step d c0 c1 c ds :
  push_entry d c0 = (c1, Ok tt) -> assembled c1 c ds -> assembled c0 c (d :: ds).
Proof.
  intros Hp (Hn & Ha & Hi & Hk & Hz).
  apply push_entry_Ok in Hp as (Hn1 & Ha1 & [fi Hi1] & [fk Hk1]). unfold assembled.
  split_and!.
  - rewrite Hn, Hn1. unfold name_of. simpl. by rewrite str_app_assoc.
  - rewrite Ha, Ha1. unfold arguments_of. simpl. by rewrite str_app_assoc.
  - simpl. by eapply agrees_step.
  - simpl. by eapply agrees_step.
  - intros H0 Hf. simpl in Hf. apply Forall_cons in Hf as [Hd Hf].
    apply merge_stable_Ok in Hi1 as (_ & Hnone & _). auto.
Qed.

Lemma assembled_refl c : assembled c c [].
Proof.
  unfold assembled, name_of, arguments_of, agrees. simpl. rewrite !str_app_nil_r.
  split_and!; try done; repeat constructor; by case_match.
Qed.

Lemma iter_push_assembles ds m0 m :
  iterM push ds m0 = (m, Ok tt) ->
  forall i, match m !! i with
            | Some c => assembled (default PartialToolCall_default (m0 !! i)) c (fragments i ds)
                        /\ (m0 !! i = None -> fragments i ds <> [])
            | None => m0 !! i = None /\ fragments i ds = []
            end.
Proof.
  revert m0. induction ds as [|d ds IH]; intros m0 Hrun i.
  - simpl in Hrun. injection Hrun as <-. destruct (m0 !! i) as [c|]; [|done].
    split; [apply assembled_refl|done].
  - cbn [iterM] in Hrun. apply M_bind_Ok in Hrun as (m1 & [] & Hp & Hrun).
    apply push_Ok in Hp as (_ & c1 & Hp & ->). specialize (IH _ Hrun i).
    unfold fragments in *. rewrite filter_cons.
    destruct (decide (d_index d = i)) as [<-|Hne].
    + rewrite lookup_insert_eq in IH. destruct (m !! d_index d) as [c|]; [|naive_solver].
      destruct IH as [IH _]. split; [|done]. by eapply assembled_step.
    + by rewrite lookup_insert_ne in IH.
Qed.

(** The entries come out by index. *)
Lemma finish_from_Ok k l tools :
  finish_from k l = Ok tools <->
  l.*1 = seqZ k (Z.of_nat (length l)) /\
  Forall2 (fun e tool => complete_entry e.2 = Ok tool /\ validate_tool_calls [tool] = Ok tt)
    l tools.
Proof.
  revert k tools. induction l as [|[j c] l IH]; intros k tools.
  - simpl. split; [intros [= <-]; split; [done|constructor] | intros [_ H]; by inversion H].
  - cbn [finish_from length fmap list_fmap]. rewrite seqZ_cons by lia.
    replace (Z.pred (Z.of_nat (S (length l)))) with (Z.of_nat (length l)) by lia.
    replace (Z.succ k) with (k + 1) by lia. simpl. destruct (j =? k) eqn:Hj; simpl.
    + apply Z.eqb_eq in Hj as ->. split.
      * intros H. apply bind_Ok in H as (tool & Hc & H). apply bind_Ok in H as ([] & Hv & H).
        apply bind_Ok in H as (ts & Hr & [= <-]). apply IH in Hr as [Hk Hl].
        split; [by f_equal|]. by constructor.
      * intros [[= Hk] Hl]. inversion Hl as [|? tool ? ts [Hc Hv] Hr]; subst. simpl in Hc.
        rewrite Hc. simpl. rewrite Hv. simpl. by rewrite (proj2 (IH _ _) (conj Hk Hr)).
    + split; [done|]. intros [[= ->] _]. lia.
Qed.

Lemma elem_of_entries m j c : (j, c) ∈ entries m <-> m !! j = Some c.
Proof. unfold entries. rewrite merge_sort_Permutation. apply elem_of_map_to_list. Qed.

(** Every successful stream of fragments completes to one call per index, in
    index order without gaps; the name and the arguments of call [i] are the
    concatenation of the fragments of index [i] in arrival order, nothing lost
    or reordered, and its identity is the one every fragment agrees on. *)
Theorem push_finish_assembles ds m tools :
  iterM push ds ∅ = (m, Ok tt) -> finish m = Ok tools ->
  (forall j, fragments j ds <> [] <-> 0 <= j < Z.of_nat (length tools)) /\
  (forall i tool, tools !! i = Some tool ->
     let fs := fragments (Z.of_nat i) ds in
     fc_name (function tool) = name_of fs /\
     arguments (function tool) = arguments_of fs /\
     agrees (Some (id tool)) (d_id <$> fs) /\
     validate_tool_call tool = Ok tt).
Proof.
  intros Hrun Hfin. pose proof (iter_push_assembles _ _ _ Hrun) as Has.
  apply finish_from_Ok in Hfin as [Hk Hl]. pose proof (Forall2_length _ _ _ Hl) as Hlen.
  split.
  - intros j. specialize (Has j). rewrite lookup_empty in Has.
    rewrite <- Hlen, <- (Z.add_0_l (Z.of_nat _)), <- elem_of_seqZ, <- Hk, list_elem_of_fmap.
    destruct (m !! j) as [c|] eqn:Hm.
    + split; [intros _|naive_solver]. exists (j, c). by rewrite elem_of_entries.
    + destruct Has as [_ Hf]. split; [done|].
      intros ([j' c] & -> & Hin). apply elem_of_entries in Hin. simpl in Hm. congruence.
  - intros i tool Ht. pose proof (Forall2_lookup_r _ _ _ _ _ Hl Ht) as ([j c] & He & Hc & Hv).
    assert (Hj : j = Z.of_nat i).
    { assert (H1 : (entries m).*1 !! i = Some j) by (rewrite list_lookup_fmap, He; done).
      rewrite Hk, lookup_seqZ in H1. lia. }
    subst j. assert (Hm : m !! Z.of_nat i = Some c).
    { apply elem_of_entries. by apply list_elem_of_lookup_2 in He. }
    specialize (Has (Z.of_nat i)). rewrite Hm, lookup_empty in Has. simpl in Has.
    destruct Has as [(Hn & Ha & Hi & _) _]. unfold complete_entry in Hc. simpl in Hc.
    destruct (p_id c) as [pid|] eqn:Hid; [|done]. destruct (is_empty pid); [done|].
    injection Hc as <-. simpl. split_and!; [done|done| |].
    + unfold agrees in *. by apply Forall_cons in Hi as [_ Hi].
    + unfold validate_tool_calls in Hv. case_match; [done|].
      apply for_each_Ok in Hv. by rewrite Forall_singleton in Hv.
Qed.

Definition delta_sample (index : Z) (id : option string) (n a : string) : ToolCallDelta :=
  {| d_index := index; d_id := id; d_kind := None; d_name := Some n; d_arguments := Some a |}.

(** Two interleaved calls. *)
Definition deltas_sample : list ToolCallDelta :=
  [ delta_sample 1 (Some "b") "wri" "{"; delta_sample 0 (Some "a") "read" "{}";
    delta_sample 1 None "te" "}" ].

Lemma push_finish_assembles_witness :
  exists (m : ToolCallAccumulator) (tools : list ToolCall),
  iterM push deltas_sample ∅ = (m, Ok tt) /\ finish m = Ok tools /\
  forall j, fragments j deltas_sample <> [] <-> 0 <= j < Z.of_nat (length tools).
Proof.
  destruct (iterM push deltas_sample ∅) as [m r] eqn:Hm.
  assert (Hr : r = Ok tt) by (change r with (snd (m, r)); rewrite <- Hm; by vm_compute).
  destruct (finish m) as [tools|e] eqn:Hf.
  2: { assert (Hx : finish (fst (iterM push deltas_sample ∅)) = Err e) by (by rewrite Hm).
       vm_compute in Hx. discriminate. }
  subst r. exists m, tools. split; [done|]. split; [done|].
  apply (push_finish_assembles deltas_sample m tools Hm Hf).
Defined.
