(* ===== verification/Content.v ===== *)
(** Uploaded files and images (crates/axiom-inference/src/attachments.rs): the
    content types, their validation against size, type and canonical-base64
    rules, and the data-URL round trip. *)

From stdpp Require Import base gmap strings list.
From Stdlib Require Import ZArith NArith Lia ZifyBool ZifyN ZifyNat.
From S2P Require Import Prelude RustStr Json ToolCalls.

Local Open Scope Z_scope.

Definition MAX_ATTACHMENTS : Z := 10.
Definition MAX_IMAGE_BYTES : Z := 5 * 1024 * 1024.
Definition MAX_GENERATED_IMAGE_BYTES : Z := 10 * 1024 * 1024.
Definition MAX_GENERATED_IMAGE_PIXELS : Z := 1536 * 1536.
Definition MAX_FILE_BYTES : Z := 10 * 1024 * 1024.
Definition MAX_ATTACHMENT_BYTES : Z := 16 * 1024 * 1024.

Definition FILE_MIME_TYPES : list string := [
  "text/plain"; "text/markdown"; "text/csv"; "text/html"; "application/json";
  "application/xml"; "application/pdf";
  "application/vnd.openxmlformats-officedocument.wordprocessingml.document";
  "application/vnd.openxmlformats-officedocument.presentationml.presentation";
  "application/vnd.openxmlformats-officedocument.spreadsheetml.sheet" ].

(** [usize::div_ceil]. *)
Definition div_ceil (a b : Z) : Z := (a + b - 1) / b.

Record FileContent : Type := { f_name : string; f_mime_type : string; f_data : string }.
Record ImageContent : Type := { i_mime_type : string; i_data : string }.

#[export] Instance FileContent_eq_dec : EqDecision FileContent.
Proof. solve_decision. Defined.
#[export] Instance ImageContent_eq_dec : EqDecision ImageContent.
Proof. solve_decision. Defined.

(** [slice::starts_with] of literal bytes. *)
Fixpoint bytes_start (p l : list N) : bool :=
  match p, l with
  | [], _ => true
  | x :: p, y :: l => (x =? y)%N && bytes_start p l
  | _ :: _, [] => false
  end.

Definition data_url (mime_type data : string) : string :=
  "data:" +:+ mime_type +:+ ";base64," +:+ data.
Definition image_data_url (i : ImageContent) : string := data_url (i_mime_type i) (i_data i).
Definition file_data_url (f : FileContent) : string := data_url (f_mime_type f) (f_data f).

(** The magic numbers [ImageContent::validate_bounded] accepts. *)
Definition image_matches (mime_type : string) (bs : list N) : bool :=
  if decide (mime_type = "image/png") then bytes_start [137; 80; 78; 71; 13; 10; 26; 10]%N bs
  else if decide (mime_type = "image/jpeg") then bytes_start [255; 216; 255]%N bs
  else if decide (mime_type = "image/webp") then
    bytes_start (bytes "RIFF") bs && bool_decide (take 4 (drop 8 bs) = bytes "WEBP")
  else if decide (mime_type = "image/gif") then
    bytes_start (bytes "GIF87a") bs || bytes_start (bytes "GIF89a") bs
  else false.

Section Codec.
Context `{B64 : Base64}.

Definition file_validate (f : FileContent) : result ValidationError unit :=
  if is_empty (f_name f)
     || (len (f_name f) >? 512)
     || existsb is_control (chars (f_name f))
     || negb (bool_decide (f_mime_type f ∈ FILE_MIME_TYPES))
     || is_empty (f_data f)
     || (len (f_data f) >? div_ceil MAX_FILE_BYTES 3 * 4)
  then Err (invalid "file.content") else
  match b64_decode (f_data f) with
  | None => Err (invalid "file.base64")
  | Some bs =>
    if (Z.of_nat (length bs) >? MAX_FILE_BYTES)
       || negb (bool_decide (b64_encode bs = f_data f))
    then Err (invalid "file.size") else Ok tt
  end.

Definition image_validate_bounded (i : ImageContent) (maximum : Z)
    : result ValidationError unit :=
  if len (i_data i) >? div_ceil maximum 3 * 4 then Err (invalid "image.size") else
  match b64_decode (i_data i) with
  | None => Err (invalid "image.base64")
  | Some bs =>
    if (Z.of_nat (length bs) >? maximum) || negb (image_matches (i_mime_type i) bs)
    then Err (invalid "image.content") else Ok tt
  end.

Definition image_validate (i : ImageContent) : result ValidationError unit :=
  image_validate_bounded i MAX_IMAGE_BYTES.

Definition from_data_url (url : string) : result ValidationError ImageContent :=
  match strip_prefix "data:" url ≫= split_once ";base64," with
  | None => Err (unsupported "image.url")
  | Some (mime_type, data) =>
    let image := {| i_mime_type := mime_type; i_data := data |} in
    _ ← image_validate image;
    mret image
  end.
End Codec.

Record ImageDimensions : Type := { width : Z; height : Z }.

Definition dimensions_validate (d : ImageDimensions) : result ValidationError unit :=
  if negb ((256 <=? width d) && (width d <=? 8192))
     || negb ((256 <=? height d) && (height d <=? 8192))
     || negb (width d mod 32 =? 0)
     || negb (height d mod 32 =? 0)
     || (width d * height d >? MAX_GENERATED_IMAGE_PIXELS)
  then Err (invalid "image.dimensions") else Ok tt.

(** ** Data URLs *)

Lemma strip_prefix_app p s : strip_prefix p (p +:+ s) = Some s.
Proof.
  induction p as [|a p IH]; [done|].
  change (strip_prefix (String a p) (String a (p +:+ s)) = Some s). simpl.
  by rewrite Ascii.eqb_refl.
Qed.

Lemma strip_prefix_Some p s t : strip_prefix p s = Some t -> s = p +:+ t.
Proof.
  revert s. induction p as [|a p IH]; intros s; simpl; [by intros [= ->]|].
  destruct s as [|b s]; [done|]. destruct (Ascii.eqb_spec a b) as [->|]; [|done].
  intros H. by rewrite (IH _ H).
Qed.

Lemma split_once_Some p s l r : split_once p s = Some (l, r) -> s = l +:+ p +:+ r.
Proof.
  revert l. induction s as [|a s IH]; intros l; simpl.
  - destruct (strip_prefix p EmptyString) eqn:Hp; [|done]. intros [= <- <-].
    by apply strip_prefix_Some in Hp.
  - destruct (strip_prefix p (String a s)) as [t|] eqn:Hp.
    + intros [= <- <-]. by apply strip_prefix_Some in Hp.
    + destruct (split_once p s) as [[l' r']|]; simpl; [|done].
      intros [= <- <-]. by rewrite (IH l').
Qed.

Lemma strip_prefix_length p s t : strip_prefix p s = Some t -> len s = len p + len t.
Proof. intros H. apply strip_prefix_Some in H as ->. apply len_app. Qed.

(** [split_once] cuts at the given place when no earlier cut exists, which is
    checked on the prefix extended by the pattern itself. *)
Fixpoint no_earlier (p l : string) : bool :=
  match l with
  | EmptyString => true
  | String a l' =>
    (if strip_prefix (String a EmptyString) p then false else true) && no_earlier p l'
  end.

Lemma split_once_app p l r :
  p <> EmptyString -> no_earlier p l = true -> split_once p (l +:+ p +:+ r) = Some (l, r).
Proof.
  intros Hp. induction l as [|a l IH].
  - intros _. change (EmptyString +:+ p +:+ r) with (p +:+ r).
    pose proof (strip_prefix_app p r) as Hs.
    destruct (p +:+ r) as [|b u] eqn:He; simpl; by rewrite Hs.
  - simpl. rewrite andb_true_iff. intros [Ha Hl].
    change (String a l +:+ p +:+ r) with (String a (l +:+ p +:+ r)).
    specialize (IH Hl). destruct p as [|b p]; [done|]. simpl in Ha. simpl.
    destruct (Ascii.eqb_spec a b) as [->|Hne]; [done|].
    destruct (Ascii.eqb_spec b a) as [->|]; [done|]. by rewrite IH.
Qed.

(** A validated image survives the trip through its data URL: what the
    client sends as an image part is read back as the same image. *)
Theorem data_url_roundtrip `{Base64} i :
  image_validate i = Ok tt -> from_data_url (image_data_url i) = Ok i.
Proof.
  intros Hv. unfold from_data_url, image_data_url, data_url.
  rewrite strip_prefix_app. simpl.
  assert (Hm : i_mime_type i ∈ ["image/png"; "image/jpeg"; "image/webp"; "image/gif"]).
  { unfold image_validate, image_validate_bounded, image_matches in Hv.
    repeat (case_match; try done); split_guards; try set_solver. }
  rewrite split_once_app; [| done |].
  - destruct i as [m d]. simpl in *. by rewrite Hv.
  - set_unfold in Hm. by destruct_or?; subst; rewrite ?Hm.
Qed.

Definition gif_sample : ImageContent :=
  {| i_mime_type := "image/gif"; i_data := of_bytes [71; 73; 70; 56; 57; 97]%N |}.

Lemma data_url_roundtrip_witness :
  @from_data_url plain_base64 (image_data_url gif_sample) = Ok gif_sample.
Proof. apply (@data_url_roundtrip plain_base64 gif_sample). by vm_compute. Defined.
