(* ===== verification/Accounting.v ===== *)
(** Usage accounting and public security evidence
    (crates/axiom-inference/src/accounting.rs and security.rs): the counters a
    provider reports as decimal strings, their validation, and the evidence
    record of a verified session. *)

From stdpp Require Import base strings list.
From Stdlib Require Import ZArith NArith Lia ZifyBool ZifyN ZifyNat.
From S2P Require Import Prelude RustStr.

Local Open Scope Z_scope.

(** ** Types *)

Inductive UsageCompleteness : Type := UsageUnknown | UsageLive | UsageFinal | UsagePartial.
Inductive InvocationState : Type := Running | Completed | InvocationFailed | InvocationCancelled.
Inductive InvocationPurpose : Type := Conversation | Title | Compaction.

#[export] Instance UsageCompleteness_eq_dec : EqDecision UsageCompleteness.
Proof. solve_decision. Defined.

Record RequestUsage : Type := {
  request_id : string;
  model_id : string;
  provider_id : string;
  context_window_tokens : option Z;
  auto_compact_threshold_tokens : option Z;
  turn_id : option string;
  purpose : InvocationPurpose;
  state : InvocationState;
  completeness : UsageCompleteness;
  input_tokens : option string;
  cached_input_tokens : option string;
  output_tokens : option string;
  reasoning_tokens : option string;
  image_pixels : option string;
  image_steps : option string;
  input_image_pixels : option string;
  cost_microusd : option string;
  settled : bool;
  response_verified : bool;
  started_at_ms : string;
  finished_at_ms : option string;
  error_code : option string;
  finish_reason : option string
}.

Inductive SecurityState : Type :=
| SecUnverified | SecVerifying | SecVerified | SecDegraded | SecRejected | SecCancelled
| SecExpired.

Record EvidenceCheck : Type := {
  check_id : string; check_label : string; check_status : string; check_passed : bool
}.
Record EvidenceClaim : Type := { claim_name : string; claim_value : string }.

Record SecurityEvidence : Type := {
  se_state : SecurityState;
  se_provider_id : string;
  se_model_id : string;
  attestation_protocol : string;
  e2ee_protocol : string;
  e2ee_encryption_version : Z;
  trust_policy_version : string;
  verified_at_unix_seconds : Z;
  attestation_generation : option Z;
  hard_expires_at_unix_seconds : option Z;
  model_key_fingerprint : string;
  tls_spki_fingerprint : option string;
  checks : list EvidenceCheck;
  provider_claims : list EvidenceClaim;
  workload_manifest : option string
}.

(** ** Counter validation *)

(** The closure [parse] of [validate_counters]: [None] is a rejection. *)
Definition parse_counter (v : option string) : option (option Z) :=
  match v with
  | None => Some None
  | Some s =>
    if negb (is_empty s) && (len s <=? 20) && forallb is_ascii_digit (bytes s)
    then Some <$> parse_digits U64_MAX s
    else None
  end.

Definition validate_counters (u : RequestUsage) : bool :=
  match parse_counter (input_tokens u), parse_counter (cached_input_tokens u),
        parse_counter (output_tokens u), parse_counter (reasoning_tokens u),
        parse_counter (cost_microusd u) with
  | Some input, Some cached, Some output, Some reasoning, Some _ =>
    (if parse_counter (image_pixels u) then true else false)
    && (if parse_counter (image_steps u) then true else false)
    && (if parse_counter (input_image_pixels u) then true else false)
    && negb match input, cached with Some i, Some c => c >? i | _, _ => false end
    && negb match output, reasoning with Some o, Some r => r >? o | _, _ => false end
  | _, _, _, _, _ => false
  end.

(** ** Rendering counters: [u64::to_string] *)

Fixpoint to_decimal_fuel (fuel : nat) (n : Z) (acc : string) : string :=
  match fuel with
  | O => acc
  | S fuel =>
    let acc := String (byte_of (Z.to_N (48 + n mod 10))) acc in
    if n <? 10 then acc else to_decimal_fuel fuel (n / 10) acc
  end.

(** A [u64] has at most 20 digits. *)
Definition to_decimal (n : Z) : string := to_decimal_fuel 20 n EmptyString.

(** ** Lemmas *)

Definition digits_from (acc : Z) (s : string) : Z :=
  foldl (fun acc c => acc * 10 + (Z.of_N c - 48)) acc (bytes s).

Lemma digits_from_cons acc a s :
  digits_from acc (String a s) = digits_from (acc * 10 + (Z.of_N (byte_val a) - 48)) s.
Proof. reflexivity. Qed.

Lemma byte_digit n : 0 <= n -> byte_val (byte_of (Z.to_N (48 + n mod 10))) = Z.to_N (48 + n mod 10).
Proof. intros. apply byte_val_of. pose proof (Z.mod_pos_bound n 10). lia. Qed.

Lemma to_decimal_fuel_spec fuel n acc :
  0 <= n < 10 ^ Z.of_nat fuel -> (0 < fuel)%nat ->
  forallb is_ascii_digit (bytes acc) = true ->
  let s := to_decimal_fuel fuel n acc in
  digits_from 0 s = digits_from n acc /\ forallb is_ascii_digit (bytes s) = true
  /\ len acc < len s <= Z.of_nat fuel + len acc.
Proof.
  revert n acc. induction fuel as [|fuel IH]; intros n acc Hn Hf Hacc; [lia|].
  cbn [to_decimal_fuel]. set (acc' := String _ acc).
  assert (Hv : byte_val (byte_of (Z.to_N (48 + n mod 10))) = Z.to_N (48 + n mod 10))
    by (apply byte_digit; lia).
  pose proof (Z.mod_pos_bound n 10 ltac:(lia)) as Hm.
  assert (Hacc' : forallb is_ascii_digit (bytes acc') = true).
  { subst acc'. cbn [bytes forallb]. rewrite Hv, Hacc. unfold is_ascii_digit. lia. }
  assert (Hlen : len acc' = len acc + 1) by (subst acc'; unfold len; simpl; lia).
  assert (Hd : forall m, m * 10 + n mod 10 = n -> digits_from m acc' = digits_from n acc).
  { intros m Hmn. subst acc'. rewrite digits_from_cons, Hv. f_equal. lia. }
  destruct (n <? 10) eqn:Hlt.
  - split_and!; [|done|lia|lia]. apply Hd. rewrite Z.mod_small; lia.
  - rewrite Nat2Z.inj_succ, Z.pow_succ_r in Hn by lia.
    destruct fuel as [|fuel]; [simpl in Hn; lia|].
    destruct (IH (n / 10) acc') as (H1 & H2 & H3); [|lia|done|].
    + split; [apply Z.div_pos; lia|]. apply Z.div_lt_upper_bound; lia.
    + split_and!; [|done|lia|lia]. rewrite H1. apply Hd.
      pose proof (Z.div_mod n 10). lia.
Qed.

Lemma to_decimal_spec n :
  in_u64 n ->
  decimal_value (to_decimal n) = n /\ forallb is_ascii_digit (bytes (to_decimal n)) = true
  /\ 0 < len (to_decimal n) <= 20.
Proof.
  unfold in_u64, U64_MAX. intros Hn.
  destruct (to_decimal_fuel_spec 20 n EmptyString) as (H1 & H2 & H3 & H4); [lia|lia|done|].
  split_and!; [exact H1|done|done|done].
Qed.

Lemma parse_counter_decimal n :
  in_u64 n -> parse_counter (Some (to_decimal n)) = Some (Some n).
Proof.
  intros Hn. destruct (to_decimal_spec n Hn) as (Hv & Hd & Hl1 & Hl2).
  unfold parse_counter, parse_digits. apply is_empty_len in Hl1. rewrite Hl1, Hd, Hv.
  unfold in_u64 in Hn. simpl. repeat (case_match; try lia); done.
Qed.

Lemma parse_counter_Some s v :
  parse_counter (Some s) = Some v <->
  0 < len s <= 20 /\ forallb is_ascii_digit (bytes s) = true
  /\ decimal_value s <= U64_MAX /\ v = Some (decimal_value s).
Proof.
  unfold parse_counter, parse_digits. rewrite <- is_empty_len.
  destruct (is_empty s) eqn:He; simpl; [naive_solver|].
  destruct (forallb is_ascii_digit (bytes s)); rewrite ?andb_false_r, ?andb_true_r; simpl;
    [|naive_solver].
  destruct (len s <=? 20) eqn:Hl; simpl; [|naive_solver lia].
  case_match; simpl; naive_solver lia.
Qed.

(** ** Specification *)

(** A counter is absent or a non-empty string of digits denoting a [u64]. *)
Definition counter_ok (v : option string) : Prop :=
  forall s, v = Some s ->
  0 < len s <= 20 /\ forallb is_ascii_digit (bytes s) = true /\ decimal_value s <= U64_MAX.

(** [part] is a part of [whole], when both are reported. *)
Definition part_of (part whole : option string) : Prop :=
  forall p w, part = Some p -> whole = Some w -> decimal_value p <= decimal_value w.

Record counters_ok (u : RequestUsage) : Prop := {
  co_each : Forall counter_ok
    [input_tokens u; cached_input_tokens u; output_tokens u; reasoning_tokens u;
     cost_microusd u; image_pixels u; image_steps u; input_image_pixels u];
  co_cached : part_of (cached_input_tokens u) (input_tokens u);
  co_reasoning : part_of (reasoning_tokens u) (output_tokens u)
}.

Lemma parse_counter_ok v :
  match parse_counter v with
  | Some r => counter_ok v /\ r = decimal_value <$> v
  | None => ~ counter_ok v
  end.
Proof.
  destruct v as [s|]; simpl; [|split; [by intros ?|done]].
  change (match parse_counter (Some s) with
          | Some r => counter_ok (Some s) /\ r = Some (decimal_value s)
          | None => ~ counter_ok (Some s) end).
  destruct (parse_counter (Some s)) as [r|] eqn:Hp.
  - apply parse_counter_Some in Hp as (? & ? & ? & ->). split; [|done].
    by intros ? [= <-].
  - intros Hok. destruct (Hok s eq_refl) as (? & ? & ?).
    by rewrite (proj2 (parse_counter_Some s (Some (decimal_value s)))) in Hp by auto.
Qed.

Lemma part_of_check part whole :
  negb match decimal_value <$> whole, decimal_value <$> part with
       | Some w, Some p => p >? w | _, _ => false end = true <-> part_of part whole.
Proof.
  unfold part_of. destruct part as [p|], whole as [w|]; simpl; try naive_solver.
  rewrite negb_true_iff. split; [intros H ? ? [= <-] [= <-]; lia|].
  intros H. specialize (H _ _ eq_refl eq_refl). lia.
Qed.

Lemma validate_counters_spec u : validate_counters u = true <-> counters_ok u.
Proof.
  transitivity (Forall counter_ok
    [input_tokens u; cached_input_tokens u; output_tokens u; reasoning_tokens u;
     cost_microusd u; image_pixels u; image_steps u; input_image_pixels u] /\
    part_of (cached_input_tokens u) (input_tokens u) /\
    part_of (reasoning_tokens u) (output_tokens u)); [|split; [by intros (?&?&?)|by intros []]].
  rewrite <- !part_of_check, !Forall_cons. unfold validate_counters.
  repeat match goal with
  | |- context [parse_counter ?v] =>
    let H := fresh "Hp" in pose proof (parse_counter_ok v) as H;
    destruct (parse_counter v); [destruct H as [? ?]; subst|naive_solver]
  end.
  rewrite andb_true_iff. rewrite Forall_nil. simpl. tauto.
Qed.

(** [validate_counters] accepts a usage report exactly when every counter is
    absent or a decimal [u64] of at most twenty digits, the cached input does
    not exceed the input, and the reasoning output does not exceed the output. *)
Theorem validate_counters_ok u : validate_counters u = true <-> counters_ok u.
Proof. apply validate_counters_spec. Qed.

(** The report of a relay that renders its own [u64] counters. *)
Definition rendered (input cached output reasoning cost : option Z) (u : RequestUsage) : Prop :=
  input_tokens u = to_decimal <$> input /\ cached_input_tokens u = to_decimal <$> cached /\
  output_tokens u = to_decimal <$> output /\ reasoning_tokens u = to_decimal <$> reasoning /\
  cost_microusd u = to_decimal <$> cost /\
  image_pixels u = None /\ image_steps u = None /\ input_image_pixels u = None.

Lemma counter_ok_decimal o : (forall n, o = Some n -> in_u64 n) -> counter_ok (to_decimal <$> o).
Proof.
  intros Ho s Hs. destruct o as [n|]; simplify_eq/=.
  specialize (Ho n eq_refl). destruct (to_decimal_spec n Ho) as (Hv & Hd & Hl).
  rewrite Hv. unfold in_u64 in Ho. split_and!; (done || lia).
Qed.

Lemma part_of_decimal p w :
  (forall n, p = Some n -> in_u64 n) -> (forall n, w = Some n -> in_u64 n) ->
  part_of (to_decimal <$> p) (to_decimal <$> w) <->
  forall a b, p = Some a -> w = Some b -> a <= b.
Proof.
  intros Hp Hw. unfold part_of. destruct p as [a|], w as [b|]; simpl; try naive_solver.
  pose proof (to_decimal_spec a (Hp a eq_refl)) as (Ha & _).
  pose proof (to_decimal_spec b (Hw b eq_refl)) as (Hb & _).
  split; intros H ? ? [= <-] [= <-].
  - rewrite <- Ha, <- Hb. by apply H.
  - rewrite Ha, Hb. by apply H.
Qed.

(** Counters printed from [u64] values never fail to parse: a rendered
    report is refused exactly for an inconsistent part, whatever the values up
    to [u64::MAX]. *)
Theorem rendered_counters_ok input cached output reasoning cost u :
  Forall (fun o => forall n, o = Some n -> in_u64 n) [input; cached; output; reasoning; cost] ->
  rendered input cached output reasoning cost u ->
  validate_counters u = true <->
  (forall c i, cached = Some c -> input = Some i -> c <= i) /\
  (forall r o, reasoning = Some r -> output = Some o -> r <= o).
Proof.
  rewrite !Forall_cons, Forall_nil.
  intros (Hi & Hc & Ho & Hr & Hk & _) (E1 & E2 & E3 & E4 & E5 & E6 & E7 & E8).
  rewrite <- (part_of_decimal cached input), <- (part_of_decimal reasoning output) by done.
  rewrite validate_counters_spec, <- E1, <- E2, <- E3, <- E4. split; [by intros []|].
  intros []. constructor; [|done..].
  rewrite E1, E2, E3, E4, E5, E6, E7, E8. rewrite !Forall_cons, Forall_nil.
  split_and!; (done || by apply counter_ok_decimal).
Qed.

Definition usage_sample : RequestUsage :=
  {| request_id := "r"; model_id := "m"; provider_id := "p"; context_window_tokens := None;
     auto_compact_threshold_tokens := None; turn_id := None; purpose := Conversation;
     state := Completed; completeness := UsageFinal;
     input_tokens := Some "18446744073709551615"; cached_input_tokens := Some "7";
     output_tokens := Some "12"; reasoning_tokens := None; image_pixels := None;
     image_steps := None; input_image_pixels := None; cost_microusd := Some "0";
     settled := true; response_verified := true; started_at_ms := "0"; finished_at_ms := None;
     error_code := None; finish_reason := None |}.

Lemma rendered_counters_ok_witness : validate_counters usage_sample = true.
Proof.
  apply (rendered_counters_ok (Some U64_MAX) (Some 7) (Some 12) None (Some 0)).
  - rewrite !Forall_cons, Forall_nil. unfold in_u64, U64_MAX.
    split_and!; try done; intros n Hn; simplify_eq; lia.
  - by vm_compute.
  - split; [intros c i [= <-] [= <-]; vm_compute; intros ?; discriminate | by intros r o [=]].
Defined.

(** A completed, unverified report. *)
Definition usage_for (request : string) : RequestUsage :=
  {| request_id := request; model_id := "m"; provider_id := "p"; context_window_tokens := None;
     auto_compact_threshold_tokens := None; turn_id := None; purpose := Conversation;
     state := Completed; completeness := UsageFinal; input_tokens := Some "10";
     cached_input_tokens := Some "7"; output_tokens := None; reasoning_tokens := None;
     image_pixels := None; image_steps := None; input_image_pixels := None;
     cost_microusd := None; settled := true; response_verified := false;
     started_at_ms := "0"; finished_at_ms := None; error_code := None; finish_reason := None |}.
