(* ===== verification/Inference.v ===== *)
(** The transport-independent inference domain (crates/axiom-inference/src/lib.rs):
    messages, tools, requests, responses, provider events, model metadata, and
    [InferenceRequest::validate] with its specification. *)

From stdpp Require Import base gmap strings list.
From Stdlib Require Import ZArith QArith NArith Lia ZifyBool ZifyN ZifyNat.
From S2P Require Import Prelude RustStr Json ToolCalls Content Accounting.

Local Open Scope Z_scope.

(** ** Image generation progress *)

Inductive ImageGenerationStage : Type := Queued | Generating | Finishing.

Definition stage_rank (s : ImageGenerationStage) : Z :=
  match s with Queued => 0 | Generating => 1 | Finishing => 2 end.

Record ImageGenerationProgress : Type := { stage : ImageGenerationStage; percent : Z }.

Definition valid_after (p : ImageGenerationProgress) (previous : option ImageGenerationProgress)
    : bool :=
  (percent p <=? 99)
  && match stage p with
     | Queued => percent p =? 0
     | Generating => true
     | Finishing => percent p =? 99
     end
  && match previous with
     | None => true
     | Some old => (stage_rank (stage old) <=? stage_rank (stage p)) && (percent old <=? percent p)
     end.

(** ** Messages and tools *)

Inductive ChatRole : Type := System | Developer | User | Assistant | Tool.

#[export] Instance ChatRole_eq_dec : EqDecision ChatRole.
Proof. solve_decision. Defined.

Record ChatMessage : Type := {
  role : ChatRole;
  content : string;
  images : list ImageContent;
  files : list FileContent;
  reasoning_content : option string;
  name : option string;
  refusal : option string;
  tool_call_id : option string;
  tool_calls : list ToolCall
}.

Definition chat_text (r : ChatRole) (s : string) : ChatMessage :=
  {| role := r; content := s; images := []; files := []; reasoning_content := None;
     name := None; refusal := None; tool_call_id := None; tool_calls := [] |}.

Record FunctionDefinition : Type := {
  fd_name : string;
  description : string;
  parameters : Value;
  strict : option bool
}.
Record ToolDefinition : Type := { td_kind : string; td_function : FunctionDefinition }.

Inductive ReasoningEffort : Type := Minimal | Low | Medium | High | ExtraHigh.

#[export] Instance ReasoningEffort_eq_dec : EqDecision ReasoningEffort.
Proof. solve_decision. Defined.

Definition effort_as_str (e : ReasoningEffort) : string :=
  match e with
  | Minimal => "minimal" | Low => "low" | Medium => "medium" | High => "high"
  | ExtraHigh => "xhigh"
  end.

Inductive ToolChoice : Type :=
| ChoiceAuto | ChoiceNone | ChoiceRequired | ChoiceNamed (choice_name : string).

Record SamplingParameters : Type := { temperature : option f64; top_p : option f64 }.

Inductive ResponseFormat : Type :=
| FormatText
| FormatJsonObject
| FormatJsonSchema (schema_name : string) (schema : Value) (schema_strict : bool).

Inductive ThinkingMode : Type := ProviderDefault | Enabled | Disabled.

#[export] Instance ThinkingMode_eq_dec : EqDecision ThinkingMode.
Proof. solve_decision. Defined.

(** ** Requests *)

Record InferenceRequest : Type := {
  model : string;
  request_id : option string;
  messages : list ChatMessage;
  tools : list ToolDefinition;
  tool_choice : ToolChoice;
  parallel_tool_calls : option bool;
  reasoning_effort : ReasoningEffort;
  thinking_mode : ThinkingMode;
  max_output_tokens : option Z;
  sampling : SamplingParameters;
  response_format : ResponseFormat;
  stream : bool
}.

Definition streaming (m : string) (ms : list ChatMessage) (ts : list ToolDefinition)
    : InferenceRequest :=
  {| model := m; request_id := None; messages := ms; tools := ts; tool_choice := ChoiceAuto;
     parallel_tool_calls := None; reasoning_effort := Medium; thinking_mode := ProviderDefault;
     max_output_tokens := None; sampling := {| temperature := None; top_p := None |};
     response_format := FormatText; stream := true |}.

Section Validate.
Context `{B64 : Base64} `{J : SerdeJson}.

(** The running total of [attachment_bytes]: the content, then every file
    (validated first), then every image. *)
Fixpoint add_files (total : Z) (l : list FileContent) : result ValidationError Z :=
  match l with
  | [] => Ok total
  | f :: l => _ ← file_validate f; add_files (saturating_add total (len (f_data f))) l
  end.
Definition add_images (total : Z) (l : list ImageContent) : Z :=
  foldl (fun t i => saturating_add t (len (i_data i))) total l.

(** The body of the [for message in &self.messages] loop. *)
Definition message_validate (m : ChatMessage) : result ValidationError unit :=
  _ ← reject_if (negb (bool_decide (files m = []))
                 && (negb (bool_decide (role m = User))
                     || (Z.of_nat (length (files m)) + Z.of_nat (length (images m))
                           >? MAX_ATTACHMENTS)))
        (invalid "message.files");
  attachment_bytes ← add_files (len (content m)) (files m);
  let attachment_bytes := add_images attachment_bytes (images m) in
  _ ← reject_if (attachment_bytes >? MAX_ATTACHMENT_BYTES) (invalid "message.attachments");
  _ ← reject_if (negb (bool_decide (images m = []))
                 && (negb (bool_decide (role m = User))
                     || (Z.of_nat (length (images m)) >? MAX_ATTACHMENTS)))
        (invalid "message.images");
  _ ← for_each image_validate (images m);
  _ ← validate_bytes "message.content" (content m) MAX_MESSAGE_TEXT_BYTES;
  _ ← validate_optional_bytes "message.reasoning_content" (reasoning_content m)
        MAX_MESSAGE_TEXT_BYTES;
  _ ← validate_optional_bytes "message.refusal" (refusal m) MAX_MESSAGE_TEXT_BYTES;
  _ ← if_some (name m) (fun n =>
        validate_identifier "message.name" n MAX_FUNCTION_NAME_CHARS);
  _ ← if_some (tool_call_id m) validate_call_id;
  validate_tool_calls (tool_calls m).

(** The body of the [for tool in &self.tools] loop. *)
Definition tool_validate (t : ToolDefinition) : result ValidationError unit :=
  _ ← reject_if (negb (bool_decide (td_kind t = "function"))) (unsupported "tool.type");
  _ ← validate_identifier "tool.function.name" (fd_name (td_function t))
        MAX_FUNCTION_NAME_CHARS;
  _ ← validate_bytes "tool.function.description" (description (td_function t))
        MAX_TOOL_DESCRIPTION_BYTES;
  ps ← ok_or (to_vec (parameters (td_function t))) (invalid "tool.function.parameters");
  reject_if (len ps >? MAX_TOOL_PARAMETERS_BYTES) (size_error "tool.function.parameters").

Definition out_of_range (hi : Q) (x : option f64) : bool :=
  match x with
  | Some x => negb (is_finite x) || negb (in_closed 0 hi x)
  | None => false
  end.

(** [if let ToolChoice::Named(name) = &self.tool_choice]. *)
Definition choice_validate (c : ToolChoice) : result ValidationError unit :=
  match c with
  | ChoiceNamed n => validate_identifier "tool_choice.name" n MAX_FUNCTION_NAME_CHARS
  | _ => Ok tt
  end.

Definition request_validate (r : InferenceRequest) : result ValidationError unit :=
  _ ← reject_if (is_blank (model r) || (len (model r) >? 256)
                 || existsb is_control (chars (model r))) (invalid "model");
  _ ← reject_if (bool_decide (messages r = [])) (count "messages");
  _ ← reject_if (Z.of_nat (length (tools r)) >? MAX_TOOLS) (count "tools");
  _ ← for_each message_validate (messages r);
  _ ← for_each tool_validate (tools r);
  _ ← choice_validate (tool_choice r);
  _ ← reject_if (bool_decide (max_output_tokens r = Some 0)) (invalid "max_output_tokens");
  _ ← reject_if (out_of_range 2 (temperature (sampling r))) (invalid "temperature");
  reject_if (out_of_range 1 (top_p (sampling r))) (invalid "top_p").

(** ** What a valid request is

    The specification has no order of checks and no saturating sums. *)

Definition attachment_total (m : ChatMessage) : Z :=
  len (content m)
  + Z.of_nat (sum_list_with (fun f => String.length (f_data f)) (files m))
  + Z.of_nat (sum_list_with (fun i => String.length (i_data i)) (images m)).

Record message_ok (m : ChatMessage) : Prop := {
  mo_user : files m <> [] \/ images m <> [] -> role m = User;
  mo_count : (files m <> [] ->
              Z.of_nat (length (files m)) + Z.of_nat (length (images m)) <= MAX_ATTACHMENTS)
             /\ Z.of_nat (length (images m)) <= MAX_ATTACHMENTS;
  mo_files : Forall (fun f => file_validate f = Ok tt) (files m);
  mo_images : Forall (fun i => image_validate i = Ok tt) (images m);
  mo_total : attachment_total m <= MAX_ATTACHMENT_BYTES;
  mo_content : len (content m) <= MAX_MESSAGE_TEXT_BYTES;
  mo_reasoning : forall s, reasoning_content m = Some s -> len s <= MAX_MESSAGE_TEXT_BYTES;
  mo_refusal : forall s, refusal m = Some s -> len s <= MAX_MESSAGE_TEXT_BYTES;
  mo_name : forall s, name m = Some s -> identifier_ok MAX_FUNCTION_NAME_CHARS s;
  mo_call_id : forall s, tool_call_id m = Some s -> call_id_ok s;
  mo_calls : Z.of_nat (length (tool_calls m)) <= MAX_TOOL_CALLS
             /\ Forall tool_call_ok (tool_calls m)
}.

Record tool_ok (t : ToolDefinition) : Prop := {
  to_kind : td_kind t = "function";
  to_name : identifier_ok MAX_FUNCTION_NAME_CHARS (fd_name (td_function t));
  to_description : len (description (td_function t)) <= MAX_TOOL_DESCRIPTION_BYTES;
  to_parameters : exists ps, to_vec (parameters (td_function t)) = Some ps
                             /\ len ps <= MAX_TOOL_PARAMETERS_BYTES
}.

Definition sampling_ok (hi : Q) (x : option f64) : Prop :=
  match x with
  | None => True
  | Some (Finite q) => (0 <= q <= hi)%Q
  | Some _ => False
  end.

Record request_ok (r : InferenceRequest) : Prop := {
  ro_model : is_blank (model r) = false /\ len (model r) <= 256
             /\ forallb (fun c => negb (is_control c)) (chars (model r)) = true;
  ro_messages : messages r <> [] /\ Forall message_ok (messages r);
  ro_tools : Z.of_nat (length (tools r)) <= MAX_TOOLS /\ Forall tool_ok (tools r);
  ro_choice : forall n, tool_choice r = ChoiceNamed n -> identifier_ok MAX_FUNCTION_NAME_CHARS n;
  ro_tokens : max_output_tokens r <> Some 0;
  ro_sampling : sampling_ok 2 (temperature (sampling r)) /\ sampling_ok 1 (top_p (sampling r))
}.

(** Rust strings are valid UTF-8; only the fields whose characters are
    inspected matter. *)
Record message_utf8 (m : ChatMessage) : Prop := {
  mu_name : forall s, name m = Some s -> valid_utf8 s = true;
  mu_calls : Forall (fun c => valid_utf8 (fc_name (function c)) = true) (tool_calls m)
}.
Record request_utf8 (r : InferenceRequest) : Prop := {
  ru_messages : Forall message_utf8 (messages r);
  ru_tools : Forall (fun t => valid_utf8 (fd_name (td_function t)) = true) (tools r);
  ru_choice : forall n, tool_choice r = ChoiceNamed n -> valid_utf8 n = true
}.

Lemma validate_optional_bytes_ok f o maximum :
  validate_optional_bytes f o maximum = Ok tt <-> forall s, o = Some s -> len s <= maximum.
Proof.
  unfold validate_optional_bytes. destruct o as [s|]; [|naive_solver].
  rewrite validate_bytes_ok. naive_solver.
Qed.

(** The saturating total exceeds the limit exactly when the true one does. *)
Lemma add_images_total total l n :
  0 <= total -> n < U64_MAX ->
  add_images total l <= n <->
  total + Z.of_nat (sum_list_with (fun i => String.length (i_data i)) l) <= n.
Proof.
  intros H0 Hn. unfold add_images. revert total H0.
  induction l as [|i l IH]; intros total H0; simpl; [lia|].
  pose proof (len_nonneg (i_data i)). unfold saturating_add at 2.
  rewrite IH by (unfold U64_MAX in *; lia). unfold len, U64_MAX in *. lia.
Qed.

Lemma add_files_ok total l n :
  0 <= total -> n < U64_MAX ->
  (exists t, add_files total l = Ok t /\ t <= n) <->
  Forall (fun f => file_validate f = Ok tt) l /\
  total + Z.of_nat (sum_list_with (fun f => String.length (f_data f)) l) <= n.
Proof.
  intros H0 Hn. revert total H0. induction l as [|f l IH]; intros total H0; simpl.
  - split; [intros (t & [= <-] & ?); split; [constructor|lia]|].
    intros [_ ?]. exists total. split; [done|lia].
  - rewrite Forall_cons. pose proof (len_nonneg (f_data f)).
    destruct (file_validate f) as [[]|e]; simpl; [|naive_solver].
    rewrite IH by (unfold saturating_add, U64_MAX; lia).
    unfold saturating_add, len, U64_MAX in *. intuition lia.
Qed.

Lemma add_files_nonneg total l t : 0 <= total -> add_files total l = Ok t -> 0 <= t.
Proof.
  revert total. induction l as [|f l IH]; intros total H0; simpl; [by intros [= <-]|].
  destruct (file_validate f); simpl; [|done]. apply IH.
  pose proof (len_nonneg (f_data f)). unfold saturating_add, U64_MAX. lia.
Qed.

Lemma message_total_ok m :
  (exists t, add_files (len (content m)) (files m) = Ok t /\
             add_images t (images m) <= MAX_ATTACHMENT_BYTES) <->
  Forall (fun f => file_validate f = Ok tt) (files m) /\ attachment_total m <= MAX_ATTACHMENT_BYTES.
Proof.
  pose proof (len_nonneg (content m)). unfold attachment_total.
  assert (Hmax : MAX_ATTACHMENT_BYTES < U64_MAX) by (vm_compute; done).
  set (k := Z.of_nat (sum_list_with (fun i => String.length (i_data i)) (images m))).
  assert (0 <= k) by (subst k; lia).
  transitivity (exists t, add_files (len (content m)) (files m) = Ok t /\
                          t <= MAX_ATTACHMENT_BYTES - k).
  - split; intros (t & Ht & Hle); exists t; (split; [done|]);
      pose proof (add_files_nonneg _ _ _ (len_nonneg _) Ht);
      rewrite add_images_total in * by done; subst k; lia.
  - rewrite add_files_ok by lia. subst k. intuition lia.
Qed.

(** Attachments belong to user messages and there are at most ten. *)
Lemma attachment_guards_ok m :
  negb (bool_decide (files m = []))
    && (negb (bool_decide (role m = User))
        || (Z.of_nat (length (files m)) + Z.of_nat (length (images m)) >? MAX_ATTACHMENTS)) = false
  /\ negb (bool_decide (images m = []))
    && (negb (bool_decide (role m = User))
        || (Z.of_nat (length (images m)) >? MAX_ATTACHMENTS)) = false <->
  (files m <> [] \/ images m <> [] -> role m = User) /\
  (files m <> [] ->
     Z.of_nat (length (files m)) + Z.of_nat (length (images m)) <= MAX_ATTACHMENTS) /\
  Z.of_nat (length (images m)) <= MAX_ATTACHMENTS.
Proof.
  unfold MAX_ATTACHMENTS. rewrite !andb_false_iff, !orb_false_iff, !negb_false_iff.
  pose proof (fun H : images m = [] => f_equal length H) as Hlen. simpl in Hlen.
  repeat case_bool_decide; intuition (try congruence; try lia).
Qed.

Lemma message_validate_ok m :
  message_utf8 m -> message_validate m = Ok tt <-> message_ok m.
Proof.
  intros [Hun Huc]. unfold message_validate.
  pose proof (if_some_Ok (name m) _ _ (fun s H =>
    validate_identifier_ok "message.name" s MAX_FUNCTION_NAME_CHARS (Hun s H))) as Hname.
  pose proof (if_some_Ok (tool_call_id m) _ _ (fun s _ => validate_call_id_ok s)) as Hcall.
  cbv beta in Hname, Hcall.
  pose proof (validate_tool_calls_ok _ Huc) as Hcalls.
  pose proof (attachment_guards_ok m) as Hguard. pose proof (message_total_ok m) as Htotal.
  rewrite bind_unit_Ok, reject_if_tt, bind_Ok. split.
  - intros (Hf & t & Ht & H).
    rewrite !bind_unit_Ok, !reject_if_tt, for_each_Ok, validate_bytes_ok,
      !validate_optional_bytes_ok, Hname, Hcall, Hcalls in H.
    destruct H as (Hsum & Hi & Hiv & Hc & Hr & Hre & Hn & Hid & Hcs).
    destruct (proj1 Hguard (conj Hf Hi)) as (Hu & Hcf & Hci).
    destruct (proj1 Htotal) as [Hfv Hle]; [exists t; split; [done|lia]|].
    constructor; auto.
  - intros [Hu [Hcf Hci] Hfv Hiv Hsum Hc Hr Hre Hn Hid Hcs].
    destruct (proj2 Hguard (conj Hu (conj Hcf Hci))) as [Hf Hi].
    destruct (proj2 Htotal (conj Hfv Hsum)) as (t & Ht & Hle).
    split; [done|]. exists t. split; [done|].
    rewrite !bind_unit_Ok, !reject_if_tt, for_each_Ok, validate_bytes_ok,
      !validate_optional_bytes_ok, Hname, Hcall, Hcalls.
    destruct Hcs. split_and!; auto; lia.
Qed.

Lemma tool_validate_ok t :
  valid_utf8 (fd_name (td_function t)) = true -> tool_validate t = Ok tt <-> tool_ok t.
Proof.
  intros Hv. unfold tool_validate.
  rewrite !bind_unit_Ok, reject_if_tt, validate_identifier_ok, validate_bytes_ok, bind_Ok by done.
  setoid_rewrite ok_or_Ok. setoid_rewrite reject_if_tt.
  rewrite negb_false_iff, bool_decide_eq_true. split.
  - intros (? & ? & ? & ps & ? & ?). constructor; [done..|]. exists ps. split; [done|lia].
  - intros [? ? ? (ps & ? & ?)]. split_and!; [done..|]. exists ps. split; [done|lia].
Qed.

Lemma sampling_range_ok hi x : out_of_range hi x = false <-> sampling_ok hi x.
Proof.
  destruct x as [[|n|q]|]; simpl; [done..| |done].
  rewrite negb_false_iff, andb_true_iff, !Qle_bool_iff. done.
Qed.

Lemma for_each_spec {A} (check : A -> result ValidationError unit) P l :
  (forall x, x ∈ l -> check x = Ok tt <-> P x) -> for_each check l = Ok tt <-> Forall P l.
Proof. intros H. rewrite for_each_Ok, !Forall_forall. naive_solver. Qed.

Lemma choice_validate_ok c :
  (forall n, c = ChoiceNamed n -> valid_utf8 n = true) ->
  choice_validate c = Ok tt <->
  forall n, c = ChoiceNamed n -> identifier_ok MAX_FUNCTION_NAME_CHARS n.
Proof.
  intros Hc. destruct c as [| | |n]; simpl; try naive_solver.
  rewrite validate_identifier_ok by auto. naive_solver.
Qed.

(** Validation accepts exactly the well-formed requests: the model name, every
    message, tool, choice and sampling parameter is in its documented range, the
    totals computed without saturation. *)
Theorem request_validate_ok r :
  request_utf8 r -> request_validate r = Ok tt <-> request_ok r.
Proof.
  intros [Hm Ht Hc]. rewrite Forall_forall in Hm. rewrite Forall_forall in Ht. unfold request_validate.
  rewrite !bind_unit_Ok, !reject_if_tt, !sampling_range_ok.
  rewrite (for_each_spec _ message_ok) by (intros; apply message_validate_ok; auto).
  rewrite (for_each_spec _ tool_ok) by (intros; apply tool_validate_ok; auto).
  rewrite choice_validate_ok by done.
  rewrite !orb_false_iff, existsb_negb, !bool_decide_eq_false. split.
  - intros (((? & ?) & ?) & ? & ? & ? & ? & ? & ? & ? & ?).
    constructor; auto; split_and?; (done || lia).
  - intros [(? & ? & ?) [? ?] [? ?] ? ? [? ?]]. split_and!; (done || lia).
Qed.
End Validate.

(** ** Responses and events *)

Record Usage : Type := { u_input_tokens : Z; u_output_tokens : Z; u_total_tokens : Z }.

Inductive FinishReason : Type :=
| Stop | Length | ToolCalls | ContentFilter | FinishCancelled | Other (reason : string).

#[export] Instance FinishReason_eq_dec : EqDecision FinishReason.
Proof. solve_decision. Defined.

Inductive ProviderSecurityState : Type :=
| Unverified | Verifying | Verified | Degraded | Outdated | SecurityFailed
| UnattestedDevelopment.

Inductive ProviderEvent : Type :=
| EvAccounting (usage : RequestUsage)
| EvSecurityState (s : ProviderSecurityState)
| EvSecurityEvidence (e : SecurityEvidence)
| EvResponseVerified
| EvStatus (connected : bool) (detail : string)
| EvTextDelta (t : string)
| EvReasoningDelta (t : string)
| EvRefusalDelta (t : string)
| EvToolCallDelta (d : ToolCallDelta)
| EvUsage (input output : Z)
| EvFinished (r : FinishReason).

Record AssistantTurn : Type := {
  at_text : string;
  at_reasoning : option string;
  at_tool_calls : list ToolCall
}.

Record InferenceResponse : Type := {
  assistant : AssistantTurn;
  ir_reasoning : option string;
  ir_refusal : option string;
  ir_usage : Usage;
  ir_finish_reason : option FinishReason
}.

(** ** Model metadata *)

Record ModelInfo : Type := {
  mi_id : string;
  mi_label : string;
  mi_short_label : string;
  mi_provider_id : string;
  mi_provider_label : string;
  mi_upstream_model : string;
  mi_provider_base_url : string;
  mi_e2ee_protocol : string;
  mi_e2ee_encryption_version : Z;
  mi_attestation_protocol : string;
  mi_context_window_tokens : Z;
  mi_max_output_tokens : Z;
  mi_input_price : option Z;
  mi_output_price : option Z;
  mi_reasoning_efforts : list ReasoningEffort;
  mi_thinking_modes : list ThinkingMode;
  mi_reasoning_replay : bool;
  mi_supports_tools : bool;
  mi_supports_parallel_tools : bool;
  mi_supports_streaming : bool;
  mi_supports_images : bool;
  mi_file_mime_types : list string;
  mi_reasoning_parameters : Map;
  mi_thinking_parameters : Map
}.

Definition AUTO_COMPACT_CONTEXT_PERCENT : Z := 85.

(** [u32::saturating_mul]. *)
Definition saturating_mul32 (a b : Z) : Z := Z.min (a * b) U32_MAX.

Definition auto_compact_threshold_tokens (m : ModelInfo) : Z :=
  saturating_mul32 (mi_context_window_tokens m) AUTO_COMPACT_CONTEXT_PERCENT / 100.

Inductive ProviderFailureKind : Type :=
| Configuration | LocalAuthentication | Authentication | InsufficientCredit | RateLimited
| ModelUnavailable | CapabilityMismatch | AttestationUnavailable | AttestationRejected
| SessionEstablishment | Encryption | Decryption | Transient | InvalidRequest
| InvalidResponse | Cancelled.

#[export] Instance ProviderFailureKind_eq_dec : EqDecision ProviderFailureKind.
Proof. solve_decision. Defined.

(** The compaction threshold is a [u32] strictly inside the context window;
    it is 85 % of the window, rounded down, for every window the product does
    not saturate (up to 50,529,027 tokens), and the same saturated value beyond. *)
Theorem auto_compact_threshold_bounds m :
  in_u32 (mi_context_window_tokens m) ->
  let t := auto_compact_threshold_tokens m in
  0 <= t /\ (0 < mi_context_window_tokens m -> t < mi_context_window_tokens m) /\
  (mi_context_window_tokens m <= 50529027 ->
     t = mi_context_window_tokens m * 85 / 100) /\
  (50529027 < mi_context_window_tokens m -> t = U32_MAX / 100).
Proof.
  unfold auto_compact_threshold_tokens, saturating_mul32, AUTO_COMPACT_CONTEXT_PERCENT,
    in_u32, U32_MAX. intros H. cbv zeta. split_and!; intros; lia.
Qed.

Definition model_sample : ModelInfo :=
  {| mi_id := "cherry"; mi_label := "c"; mi_short_label := "c"; mi_provider_id := "p";
     mi_provider_label := "p"; mi_upstream_model := "m"; mi_provider_base_url := "u";
     mi_e2ee_protocol := "e"; mi_e2ee_encryption_version := 1; mi_attestation_protocol := "a";
     mi_context_window_tokens := 1048576; mi_max_output_tokens := 0; mi_input_price := None;
     mi_output_price := None; mi_reasoning_efforts := []; mi_thinking_modes := [];
     mi_reasoning_replay := false; mi_supports_tools := false;
     mi_supports_parallel_tools := false; mi_supports_streaming := false;
     mi_supports_images := false; mi_file_mime_types := []; mi_reasoning_parameters := [];
     mi_thinking_parameters := [] |}.

Lemma auto_compact_threshold_bounds_witness :
  auto_compact_threshold_tokens model_sample = 891289 /\
  auto_compact_threshold_tokens model_sample < 1048576.
Proof.
  split; [by vm_compute|].
  destruct (auto_compact_threshold_bounds model_sample) as (_ & H & _).
  - vm_compute; split; intros ?; discriminate.
  - by apply H.
Defined.

Lemma request_validate_ok_witness :
  @request_ok plain_base64 plain_json (streaming "cherry" [chat_text User "hello"] []).
Proof.
  apply (@request_validate_ok plain_base64 plain_json).
  - constructor; [repeat constructor; done|constructor|done].
  - by vm_compute.
Defined.
