(* ===== verification/Attachments.v ===== *)
(** Prompt attachments (crates/axiom-inference/src/attachments.rs):
    [PromptAttachment], prompt validation and the chat message a prompt becomes.
    The main theorem relates the two: what [validate_stored_prompt] accepts is
    what [InferenceRequest::validate] accepts, up to the total size of the
    markers [user_message] adds. *)

From stdpp Require Import base gmap strings list.
From Stdlib Require Import ZArith NArith Lia ZifyBool ZifyN ZifyNat.
From S2P Require Import Prelude RustStr Json ToolCalls Content Inference.

Local Open Scope Z_scope.

Inductive PromptAttachment : Type :=
| AText (a_name text : string)
| AImage (a_name : string) (image : ImageContent)
| AFile (a_name : string) (file : FileContent).

Definition attachment_name (a : PromptAttachment) : string :=
  match a with AText n _ | AImage n _ | AFile n _ => n end.

Definition attachment_bytes (a : PromptAttachment) : Z :=
  match a with
  | AText _ text => len text
  | AImage _ image => len (i_data image)
  | AFile _ file => len (f_data file)
  end.

Definition is_text (a : PromptAttachment) : bool :=
  match a with AText _ _ => true | _ => false end.

Section Attachments.
Context `{B64 : Base64} `{J : SerdeJson}.

Definition attachment_validate (a : PromptAttachment) : result ValidationError unit :=
  if is_empty (attachment_name a) || (len (attachment_name a) >? 512)
     || existsb is_control (chars (attachment_name a))
  then Err (invalid "attachment.name") else
  match a with
  | AText _ text =>
    if is_empty text || (len text >? MAX_MESSAGE_TEXT_BYTES)
       || existsb (N.eqb 0) (chars text)
    then Err (invalid "attachment.text") else Ok tt
  | AImage _ image => image_validate image
  | AFile n file =>
    if negb (bool_decide (n = f_name file)) then Err (invalid "file.name")
    else file_validate file
  end.

Definition summary (a : PromptAttachment) : Value :=
  VObject [("bytes", VNumber (PosInt (attachment_bytes a)));
           ("kind", VString match a with AText _ _ => "text" | AImage _ _ => "image"
                            | AFile _ _ => "file" end);
           ("name", VString (attachment_name a))].

Definition with_content (m : ChatMessage) (c : string) : ChatMessage :=
  {| role := role m; content := c; images := images m; files := files m;
     reasoning_content := reasoning_content m; name := name m; refusal := refusal m;
     tool_call_id := tool_call_id m; tool_calls := tool_calls m |}.
Definition push_image (m : ChatMessage) (i : ImageContent) : ChatMessage :=
  {| role := role m; content := content m; images := images m ++ [i]; files := files m;
     reasoning_content := reasoning_content m; name := name m; refusal := refusal m;
     tool_call_id := tool_call_id m; tool_calls := tool_calls m |}.
Definition push_file (m : ChatMessage) (f : FileContent) : ChatMessage :=
  {| role := role m; content := content m; images := images m; files := files m ++ [f];
     reasoning_content := reasoning_content m; name := name m; refusal := refusal m;
     tool_call_id := tool_call_id m; tool_calls := tool_calls m |}.

(** What an attachment adds to the message text. *)
Definition marker (a : PromptAttachment) : string :=
  match a with
  | AText n text =>
    newline +:+ newline +:+ "[Attached file " +:+ quote n +:+ "]" +:+ newline
      +:+ text +:+ newline +:+ "[End attached file]"
  | AImage n _ => newline +:+ "[Attached image " +:+ quote n +:+ "]"
  | AFile _ _ => EmptyString
  end.

Definition attach (m : ChatMessage) (a : PromptAttachment) : ChatMessage :=
  match a with
  | AText _ _ => with_content m (content m +:+ marker a)
  | AImage _ image => push_image (with_content m (content m +:+ marker a)) image
  | AFile _ file => push_file m file
  end.

Definition user_message (text : string) (attachments : list PromptAttachment) : ChatMessage :=
  foldl attach (chat_text User text) attachments.

Fixpoint add_attachments (total : Z) (l : list PromptAttachment) : result ValidationError Z :=
  match l with
  | [] => Ok total
  | a :: l =>
    _ ← attachment_validate a; add_attachments (saturating_add total (attachment_bytes a)) l
  end.

Definition validate_stored_prompt (text : string) (attachments : list PromptAttachment)
    : result ValidationError unit :=
  _ ← reject_if ((len text >? MAX_MESSAGE_TEXT_BYTES)
                 || (is_empty (trim text) && bool_decide (attachments = [])))
        (invalid "prompt.text");
  _ ← reject_if (Z.of_nat (length attachments) >? MAX_ATTACHMENTS) (count "prompt.attachments");
  total ← add_attachments (len text) attachments;
  reject_if ((total >? MAX_ATTACHMENT_BYTES)
             || (len (content (user_message text attachments)) >? MAX_MESSAGE_TEXT_BYTES))
    (invalid "prompt.size").

Definition validate_prompt (text : string) (attachments : list PromptAttachment)
    : result ValidationError unit :=
  if existsb is_text attachments then Err (unsupported "attachment.extracted_text")
  else validate_stored_prompt text attachments.

(** ** The message a prompt becomes *)

Definition image_of (a : PromptAttachment) : option ImageContent :=
  match a with AImage _ i => Some i | _ => None end.
Definition file_of (a : PromptAttachment) : option FileContent :=
  match a with AFile _ f => Some f | _ => None end.

Lemma foldl_attach m l :
  foldl attach m l =
  {| role := role m; content := content m +:+ str_concat (marker <$> l);
     images := images m ++ omap image_of l; files := files m ++ omap file_of l;
     reasoning_content := reasoning_content m; name := name m; refusal := refusal m;
     tool_call_id := tool_call_id m; tool_calls := tool_calls m |}.
Proof.
  revert m. induction l as [|a l IH]; intros m.
  - destruct m. cbn. by rewrite str_app_nil_r, !app_nil_r.
  - cbn [foldl]. rewrite IH. destruct a as [n t|n i|n f]; cbn;
      rewrite <- ?str_app_assoc, <- ?app_assoc; reflexivity.
Qed.

Lemma user_message_fields text l :
  let m := user_message text l in
  role m = User /\ content m = text +:+ str_concat (marker <$> l) /\
  images m = omap image_of l /\ files m = omap file_of l /\
  reasoning_content m = None /\ name m = None /\ refusal m = None /\
  tool_call_id m = None /\ tool_calls m = [].
Proof. unfold user_message. rewrite foldl_attach. done. Qed.

Lemma image_file_count l :
  (length (omap image_of l) + length (omap file_of l) <= length l)%nat.
Proof. induction l as [|[n t|n i|n f] l IH]; cbn in *; lia. Qed.

Lemma add_attachments_valid t l t' :
  add_attachments t l = Ok t' -> Forall (fun a => attachment_validate a = Ok tt) l.
Proof.
  revert t. induction l as [|a l IH]; intros t H; [constructor|]. cbn in H.
  apply bind_unit_Ok in H as [? H]. constructor; eauto.
Qed.

Lemma attachment_validate_parts l :
  Forall (fun a => attachment_validate a = Ok tt) l ->
  Forall (fun i => image_validate i = Ok tt) (omap image_of l) /\
  Forall (fun f => file_validate f = Ok tt) (omap file_of l).
Proof.
  induction 1 as [|a l Ha _ [IH1 IH2]]; [split; constructor|].
  unfold attachment_validate in Ha. case_match; [done|].
  destruct a as [n t|n i|n f]; simpl; [done| |]; split; try done.
  - by constructor.
  - case_match; [done|]. by constructor.
Qed.

(** C40: A stored prompt that is accepted becomes a valid user message, unless
    the text with its attachment markers and the attachment data together
    exceed the 16 MiB limit: the prompt check counts the text without the
    markers, the message check counts it with them, and that sum is the only
    way the two can disagree. *)
Theorem prompt_message_valid text l :
  validate_stored_prompt text l = Ok tt ->
  message_validate (user_message text l) = Ok tt <->
  attachment_total (user_message text l) <= MAX_ATTACHMENT_BYTES.
Proof.
  intros H. unfold validate_stored_prompt in H.
  rewrite !bind_unit_Ok, !reject_if_tt in H. destruct H as (_ & Hn & H).
  apply bind_Ok in H as (t & Ht & H). apply reject_if_tt in H. split_guards.
  apply add_attachments_valid in Ht. apply attachment_validate_parts in Ht as [Hi Hf].
  destruct (user_message_fields text l) as (Er & Ec & Ei & Ef & E1 & E2 & E3 & E4 & E5).
  pose proof (image_file_count l) as Hcount.
  assert (Hu : message_utf8 (user_message text l)).
  { constructor; [by rewrite E2|]. by rewrite E5. }
  rewrite message_validate_ok by done. split; [by intros []|]. intros Htot.
  constructor; rewrite ?E1, ?E2, ?E3, ?E4, ?E5, ?Ei, ?Ef in *; try done; try lia.
Qed.
End Attachments.

Definition png_sample : ImageContent :=
  {| i_mime_type := "image/png";
     i_data := of_bytes [137; 80; 78; 71; 13; 10; 26; 10]%N |}.

Lemma prompt_message_valid_witness :
  let l := [AImage "a.png" png_sample] in
  @message_validate plain_base64 (@user_message plain_json "hello" l) = Ok tt.
Proof.
  intros l. apply (@prompt_message_valid plain_base64 plain_json "hello" l).
  - by vm_compute.
  - vm_compute. discriminate.
Defined.
