(* ===== verification/RuntimePolicy.v ===== *)
(** Image runtime policy (crates/axiom-inference/src/runtime_policy.rs): the
    publisher's bounded settings, [ImageRuntimePolicy::validate] and
    [ImageRuntimePolicy::dimensions] with its Euclid loop and integer square
    root.

    Arithmetic is exact in [Z]: for a [u64] [max_pixels] every intermediate
    value of [dimensions] is below 2^64 ([dimensions_no_overflow]). *)

From stdpp Require Import base gmap strings list sorting.
From Stdlib Require Import ZArith QArith NArith Lia ZifyBool ZifyN ZifyNat.
From S2P Require Import Prelude RustStr Json ToolCalls Content.

Local Open Scope Z_scope.

Record RuntimeLora : Type := {
  lora_name : string; sha256 : string; strength : f64; patches : Z
}.

Record ImageRuntimeSettings : Type := {
  default_aspect_ratio : string;
  aspect_ratios : list string;
  max_pixels : Z;
  max_references : Z;
  sampler : string;
  cfg : f64;
  sigmas : list f64;
  uncensored_models : list string;
  lora : option RuntimeLora
}.

Record ImageRuntimePolicy : Type := {
  protocol : Z;
  minimum_client : Z;
  required_features : list string;
  extensions : Map;
  image : ImageRuntimeSettings
}.

Definition bad_policy : string :=
  "Unsupported image runtime policy. Update Axiom before generating.".
Definition bad_ratio : string := "Unsupported image aspect ratio.".

(** ** Dimensions *)

(** The closure [parse] of [dimensions]. *)
Definition parse_side (s : string) : result string Z :=
  if is_empty s || (len s >? 2) || starts_with "0" s || negb (forallb is_ascii_digit (bytes s))
  then Err bad_ratio
  else ok_or (parse_digits U64_MAX s) bad_ratio.

(** [while b != 0 { (a, b) = (b, a % b) }]; the sides are below 100, so 100
    rounds are enough ([euclid_gcd]). *)
Fixpoint euclid (fuel : nat) (a b : Z) : Z :=
  match fuel with
  | O => a
  | S fuel => if b =? 0 then a else euclid fuel b (a mod b)
  end.

Definition dimensions (p : ImageRuntimePolicy) (ratio : string) : result string ImageDimensions :=
  if negb (existsb (fun r => bool_decide (r = ratio)) (aspect_ratios (image p)))
  then Err bad_ratio else
  '(ws, hs) ← ok_or (split_once ":" ratio) bad_ratio;
  w ← parse_side ws;
  h ← parse_side hs;
  if (w >? h * 4) || (h >? w * 4) then Err bad_ratio else
  let a := euclid 100 w h in
  let w := w / a in
  let h := h / a in
  let scale := Z.sqrt (max_pixels (image p) / (1024 * w * h)) in
  if (scale =? 0) || (Z.min w h * scale * 32 <? 256) then Err bad_ratio else
  if (w * scale * 32 >? U32_MAX) || (h * scale * 32 >? U32_MAX) then Err bad_ratio else
  let size := {| width := w * scale * 32; height := h * scale * 32 |} in
  _ ← map_err (fun _ => bad_ratio) (dimensions_validate size);
  Ok size.

(** ** Policy validation *)

(** [windows(2).any(|s| s[0] <= s[1])]. *)
Fixpoint any_not_decreasing (l : list f64) : bool :=
  match l with
  | x :: ((y :: _) as l') => f64_le x y || any_not_decreasing l'
  | _ => false
  end.

Section Policy.
Context `{J : SerdeJson}.

Definition settings_bad (p : ImageRuntimePolicy) : bool :=
  let i := image p in
  negb (protocol p =? 1)
  || negb (minimum_client p =? 1)
  || negb (bool_decide (required_features p = []))
  || (Z.of_nat (length (extensions p)) >? 32)
  || match to_vec (VObject (extensions p)) with Some v => len v >? 8192 | None => true end
  || match map_get "reference_uses_default_size" (extensions p) with
     | Some v => negb (if as_bool v then true else false)
     | None => false
     end
  || negb ((256 * 256 <=? max_pixels i) && (max_pixels i <=? MAX_GENERATED_IMAGE_PIXELS))
  || (max_references i >? 5)
  || bool_decide (aspect_ratios i = [])
  || (Z.of_nat (length (aspect_ratios i)) >? 32)
  || negb (bool_decide (default_aspect_ratio i ∈ aspect_ratios i))
  || negb (bool_decide (sampler i ∈ ["euler"; "heun"; "dpmpp_2m"]))
  || negb (is_finite (cfg i))
  || negb (in_closed 0 20 (cfg i))
  || negb ((2 <=? Z.of_nat (length (sigmas i))) && (Z.of_nat (length (sigmas i)) <=? 65))
  || negb match head (sigmas i) with Some x => f64_eq x 1 | None => false end
  || negb match last (sigmas i) with Some x => f64_eq x 0 | None => false end
  || existsb (fun s => negb (is_finite s) || negb (in_closed 0 1 s)) (sigmas i)
  || any_not_decreasing (sigmas i)
  || (Z.of_nat (length (uncensored_models i)) >? 32).

Fixpoint check_ratios (p : ImageRuntimePolicy) (seen : gset string) (l : list string)
    : result string unit :=
  match l with
  | [] => Ok tt
  | ratio :: l =>
    _ ← reject_if (bool_decide (ratio ∈ seen)) bad_policy;
    _ ← dimensions p ratio;
    check_ratios p ({[ratio]} ∪ seen) l
  end.

(** The bytes ["-:._"], ["-_."]. *)
Definition model_byte (b : N) : bool :=
  is_ascii_alphanumeric b || (b =? 45)%N || (b =? 58)%N || (b =? 46)%N || (b =? 95)%N.
Definition lora_byte (b : N) : bool :=
  is_ascii_alphanumeric b || (b =? 45)%N || (b =? 95)%N || (b =? 46)%N.

Fixpoint check_models (seen : gset string) (l : list string) : result string unit :=
  match l with
  | [] => Ok tt
  | m :: l =>
    _ ← reject_if (bool_decide (m ∈ seen) || (len m >? 170) || negb (contains ":" m)
                   || negb (forallb model_byte (bytes m))) bad_policy;
    check_models ({[m]} ∪ seen) l
  end.

Definition lora_bad (l : RuntimeLora) : bool :=
  (len (lora_name l) >? 122)
  || negb (ends_with ".safetensors" (lora_name l))
  || negb match head (bytes (lora_name l)) with
          | Some b => is_ascii_alphanumeric b | None => false end
  || negb (forallb lora_byte (bytes (lora_name l)))
  || negb (len (sha256 l) =? 64)
  || negb (forallb (fun b => is_ascii_hexdigit b && negb (is_ascii_uppercase b))
             (bytes (sha256 l)))
  || negb (is_finite (strength l))
  || negb (in_closed 0 2 (strength l))
  || negb ((1 <=? patches l) && (patches l <=? 4096)).

Definition policy_validate (p : ImageRuntimePolicy) : result string unit :=
  _ ← reject_if (settings_bad p) bad_policy;
  _ ← check_ratios p ∅ (aspect_ratios (image p));
  _ ← check_models ∅ (uncensored_models (image p));
  match lora (image p) with
  | Some l => reject_if (lora_bad l) bad_policy
  | None => Ok tt
  end.

Definition references_use_default_size (p : ImageRuntimePolicy) : bool :=
  default false (map_get "reference_uses_default_size" (extensions p) ≫= as_bool).

Definition uncensored (p : ImageRuntimePolicy) (m : string) : bool :=
  existsb (fun x => bool_decide (x = m)) (uncensored_models (image p)).
End Policy.

(** [ImageRuntimePolicy::default]. *)
Definition default_policy : ImageRuntimePolicy := {|
  protocol := 1; minimum_client := 1; required_features := []; extensions := [];
  image := {|
    default_aspect_ratio := "2:3";
    aspect_ratios := ["1:1"; "2:3"; "3:2"; "3:4"; "4:3"; "9:16"; "16:9"; "1:2"; "2:1"; "9:21";
                      "21:9"];
    max_pixels := MAX_GENERATED_IMAGE_PIXELS;
    max_references := 5;
    sampler := "euler";
    cfg := Finite 1;
    sigmas := Finite <$> [1; 978453 # 1000000; 95418 # 100000; 926626 # 1000000;
                          89508 # 100000; 845148 # 1000000; 704534 # 1000000;
                          414568 # 1000000; 0]%Q;
    uncensored_models := ["chutes:qwen3.8-27b"; "chutes-preview:qwen3.8-27b"];
    lora := Some {| lora_name := "uncensored.safetensors";
                    sha256 := "83aba822ad8ee10a1e836828f5088259d93bce7b5f3419b46dbc0258c2be46a9";
                    strength := Finite (9 # 10); patches := 192 |}
  |} |}.

(** ** The Euclid loop *)

Lemma euclid_gcd fuel a b :
  0 <= a -> 0 <= b < Z.of_nat fuel -> euclid fuel a b = Z.gcd a b.
Proof.
  revert a b. induction fuel as [|fuel IH]; intros a b Ha Hb; [lia|]. simpl.
  destruct (b =? 0) eqn:Hz; [apply Z.eqb_eq in Hz as ->; rewrite Z.gcd_0_r; lia|].
  rewrite IH; [|lia|pose proof (Z.mod_pos_bound a b); lia].
  rewrite Z.gcd_comm, Z.gcd_mod by lia. apply Z.gcd_comm.
Qed.

Lemma not_zero_digit a s :
  starts_with "0" (String a s) = false -> is_ascii_digit (byte_val a) = true ->
  1 <= Z.of_N (byte_val a) - 48 <= 9.
Proof.
  unfold starts_with, is_ascii_digit. cbn [strip_prefix]. intros Hp Hd.
  destruct (Ascii.eqb_spec (Ascii.ascii_of_N 48) a) as [<-|Hne]; [done|].
  assert (byte_val a <> 48%N).
  { intros Heq. apply Hne. rewrite <- (byte_of_val a), Heq. done. }
  lia.
Qed.

Lemma parse_side_Ok s n : parse_side s = Ok n -> 1 <= n <= 99 /\ n = decimal_value s.
Proof.
  unfold parse_side. intros H. case_match eqn:Hc; [done|]. split_guards.
  apply ok_or_Ok in H. unfold parse_digits in H.
  case_match; [done|]. cbv zeta in H. case_match; [|done]. injection H as <-.
  split; [|done]. unfold len in *.
  assert (Hd : forallb is_ascii_digit (bytes s) = true) by done.
  destruct s as [|a [|b [|c s]]]; [done| | |cbn [String.length] in *; lia];
    cbn [bytes forallb] in Hd; rewrite !andb_true_iff in Hd;
    pose proof (not_zero_digit a _ ltac:(eassumption) ltac:(apply Hd));
    unfold decimal_value, is_ascii_digit in *; cbn [bytes foldl]; lia.
Qed.

(** ** What an accepted ratio yields *)

(** The two sides of a ratio. *)
Definition sides (ratio : string) (w h : Z) : Prop :=
  exists ws hs, split_once ":" ratio = Some (ws, hs) /\ parse_side ws = Ok w
                /\ parse_side hs = Ok h.

(** The image fits the rules and has the exact shape [w : h]. *)
Record fits (maximum w h : Z) (d : ImageDimensions) : Prop := {
  fits_range : 256 <= width d <= 8192 /\ 256 <= height d <= 8192;
  fits_grid : width d mod 32 = 0 /\ height d mod 32 = 0;
  fits_ratio : width d * h = height d * w;
  fits_pixels : width d * height d <= Z.min maximum MAX_GENERATED_IMAGE_PIXELS
}.

(** The reduced sides: coprime, positive, and proportional to the given ones. *)
Lemma reduce_sides w h :
  1 <= w <= 99 -> 1 <= h <= 99 ->
  let g := euclid 100 w h in
  exists w' h', w = g * w' /\ h = g * h' /\ w / g = w' /\ h / g = h' /\
    0 < g /\ 1 <= w' <= 99 /\ 1 <= h' <= 99 /\ Z.gcd w' h' = 1.
Proof.
  intros Hw Hh. cbv zeta. rewrite euclid_gcd by lia. set (g := Z.gcd w h).
  assert (Hg : 0 < g).
  { pose proof (Z.gcd_nonneg w h). subst g.
    destruct (Z.eq_dec (Z.gcd w h) 0) as [E|]; [|lia]. apply Z.gcd_eq_0_l in E. lia. }
  assert (H1 : Z.gcd (w / g) (h / g) = 1) by (apply Z.gcd_div_gcd; [lia|done]).
  destruct (Z.gcd_divide_l w h) as [w' Hw'], (Z.gcd_divide_r w h) as [h' Hh'].
  fold g in Hw', Hh'. clearbody g.
  assert (Qw : w / g = w') by (subst w; apply Z.div_mul; lia).
  assert (Qh : h / g = h') by (subst h; apply Z.div_mul; lia).
  rewrite Qw, Qh in H1. exists w', h'. split_and!; try done; try lia; nia.
Qed.

Lemma sqrt_scale maximum k u :
  0 <= maximum -> 0 < u -> 0 <= k ->
  k <= Z.sqrt (maximum / u) <-> k * k * u <= maximum.
Proof.
  intros Hm Hu Hk.
  assert (Hq : k * k * u <= maximum <-> k * k <= maximum / u).
  { split; intros H.
    - apply Z.div_le_lower_bound; lia.
    - pose proof (Z.mul_div_le maximum u). nia. }
  rewrite Hq. pose proof (Z.sqrt_spec (maximum / u) ltac:(apply Z.div_pos; lia)) as [Hl Hr].
  pose proof (Z.sqrt_nonneg (maximum / u)). split; intros; nia.
Qed.

Lemma dimensions_validate_Ok d :
  dimensions_validate d = Ok tt ->
  256 <= width d <= 8192 /\ 256 <= height d <= 8192 /\ width d mod 32 = 0 /\
  height d mod 32 = 0 /\ width d * height d <= MAX_GENERATED_IMAGE_PIXELS.
Proof. unfold dimensions_validate. case_match; [done|]. intros _. lia. Qed.

(** The steps of a successful [dimensions]. *)
Lemma dimensions_Ok p ratio d :
  dimensions p ratio = Ok d ->
  exists w h g scale, sides ratio w h /\ 1 <= w <= 99 /\ 1 <= h <= 99 /\
    g = euclid 100 w h /\
    scale = Z.sqrt (max_pixels (image p) / (1024 * (w / g) * (h / g))) /\
    d = {| width := w / g * scale * 32; height := h / g * scale * 32 |} /\
    dimensions_validate d = Ok tt.
Proof.
  unfold dimensions. intros H. case_match; [done|].
  apply bind_Ok in H as ([ws hs] & Hs & H). apply ok_or_Ok in Hs.
  apply bind_Ok in H as (w & Hw & H). apply bind_Ok in H as (h & Hh & H).
  pose proof (parse_side_Ok _ _ Hw) as [? _]. pose proof (parse_side_Ok _ _ Hh) as [? _].
  case_match; [done|]. cbv zeta in H. case_match; [done|]. case_match; [done|].
  apply bind_Ok in H as ([] & Hv & H). apply map_err_Ok in Hv.
  apply Ok_inj in H. exists w, h. eexists _, _. split; [by exists ws, hs|].
  split; [lia|]. split; [lia|]. split; [reflexivity|]. split; [reflexivity|].
  split; [exact (eq_sym H)|]. rewrite <- H. exact Hv.
Qed.

(** Whatever fits with coprime sides is a multiple of the unit image, and the
    multiple is at most the square root the code takes. *)
Lemma scale_maximal maximum w' h' g k d' :
  0 <= maximum -> 0 < g -> 0 < w' -> 0 < h' -> Z.gcd w' h' = 1 ->
  k = Z.sqrt (maximum / (1024 * w' * h')) -> fits maximum (g * w') (g * h') d' ->
  width d' <= w' * k * 32.
Proof.
  intros Hm Hg Hw Hh Hco Hk [[R1 R2] [G1 G2] Hr Hp]. destruct d' as [W' H']. simpl in *.
  apply Z.mod_divide in G1 as [a ->]; [|lia]. apply Z.mod_divide in G2 as [b ->]; [|lia].
  assert (Hab : a * h' = b * w') by (apply (Z.mul_cancel_l _ _ (32 * g)); lia).
  assert (Hdiv : (w' | a)).
  { apply Z.gauss with (m := h'); [exists b; lia|done]. }
  destruct Hdiv as [c ->]. assert (b = c * h') by (apply (Z.mul_cancel_r _ _ w'); lia).
  subst b. assert (0 <= c) by nia.
  assert (Hc : c <= k) by (rewrite Hk; apply sqrt_scale; [lia|nia|lia|nia]). nia.
Qed.

Lemma dimensions_fits p ratio d :
  0 <= max_pixels (image p) -> dimensions p ratio = Ok d ->
  exists w h, sides ratio w h /\ 1 <= w /\ 1 <= h /\ fits (max_pixels (image p)) w h d /\
    (forall d', fits (max_pixels (image p)) w h d' -> width d' <= width d).
Proof.
  intros Hm H. apply dimensions_Ok in H as (w & h & g & k & Hs & Hw & Hh & Eg & Ek & Ed & Hv).
  apply dimensions_validate_Ok in Hv as (V1 & V2 & V3 & V4 & V5).
  destruct (reduce_sides w h Hw Hh) as (w' & h' & Ew & Eh & Qw & Qh & Hg & Hw' & Hh' & Hco).
  rewrite <- Eg in Ew, Eh, Qw, Qh, Hg. rewrite Qw, Qh in Ek, Ed. clear Eg Qw Qh.
  assert (Hk0 : 0 <= k) by (rewrite Ek; apply Z.sqrt_nonneg).
  assert (Hk : k * k * (1024 * w' * h') <= max_pixels (image p))
    by (apply sqrt_scale; [lia|nia|lia|lia]).
  exists w, h. split_and!; [done|lia|lia| |].
  - subst d. cbn [width height] in *. constructor; cbn [width height]; [done|done| |].
    + rewrite Ew, Eh. ring.
    + apply Z.min_glb; [|done]. lia.
  - intros d' Hd'. rewrite Ew, Eh in Hd'. subst d. cbn [width].
    apply (scale_maximal (max_pixels (image p)) w' h' g); (done || lia).
Qed.

(** No intermediate value of [dimensions] leaves [u64]: the products before the
    division, and both scaled sides, for every [u64] pixel limit. *)
Lemma dimensions_no_overflow w h maximum :
  1 <= w <= 99 -> 1 <= h <= 99 -> in_u64 maximum ->
  in_u64 (h * 4) /\ in_u64 (1024 * w * h) /\
  in_u64 (w * Z.sqrt (maximum / (1024 * w * h)) * 32).
Proof.
  unfold in_u64, U64_MAX. intros Hw Hh Hm.
  pose proof (Z.sqrt_nonneg (maximum / (1024 * w * h))).
  assert (Z.sqrt (maximum / (1024 * w * h)) <= 2 ^ 32).
  { transitivity (Z.sqrt (2 ^ 64)); [apply Z.sqrt_le_mono|by vm_compute].
    apply Z.div_le_upper_bound; nia. }
  split_and!; nia.
Qed.

(** ** What a validated policy guarantees *)

Section Guarantees.
Context `{J : SerdeJson}.

Lemma check_ratios_Ok p l seen :
  check_ratios p seen l = Ok tt <->
  NoDup l /\ Forall (fun r => r ∉ seen /\ is_ok (dimensions p r) = true) l.
Proof.
  revert seen. induction l as [|r l IH]; intros seen.
  - simpl. split; [intros _; split; constructor|done].
  - cbn [check_ratios]. rewrite bind_unit_Ok, reject_if_tt, bool_decide_eq_false, bind_Ok.
    rewrite NoDup_cons, Forall_cons. split.
    + intros (Hr & d & Hd & H). apply IH in H as [Hn Hf]. rewrite Hd.
      rewrite Forall_forall in Hf. split_and!; try done.
      * intros Hin. apply Hf in Hin as [Hin _]. set_solver.
      * apply Forall_forall. intros x Hx. apply Hf in Hx as [? ?]. set_solver.
    + intros ((Hin & Hn) & (Hr & Hd) & Hf). split; [done|].
      destruct (dimensions p r) as [d|e]; [|done]. exists d. split; [done|].
      apply IH. split; [done|]. rewrite Forall_forall in Hf |- *.
      intros x Hx. destruct (Hf x Hx). set_solver.
Qed.

Lemma policy_validate_parts p :
  policy_validate p = Ok tt ->
  settings_bad p = false /\ check_ratios p ∅ (aspect_ratios (image p)) = Ok tt.
Proof.
  unfold policy_validate. rewrite !bind_unit_Ok, reject_if_tt. by intros (? & ? & _).
Qed.

(** A validated policy has no unusable ratio: the default ratio is listed,
    no ratio is listed twice, and every listed ratio yields dimensions that lie
    on the 32-pixel grid between 256 and 8192, have exactly the requested
    shape, respect the policy's pixel limit, and are the largest such. *)
Theorem validated_ratios_usable p :
  policy_validate p = Ok tt ->
  default_aspect_ratio (image p) ∈ aspect_ratios (image p) /\
  NoDup (aspect_ratios (image p)) /\
  forall r, r ∈ aspect_ratios (image p) ->
    exists d w h, dimensions p r = Ok d /\ sides r w h /\
      fits (max_pixels (image p)) w h d /\
      (forall d', fits (max_pixels (image p)) w h d' -> width d' <= width d).
Proof.
  intros H. apply policy_validate_parts in H as [Hs Hr]. apply check_ratios_Ok in Hr as [Hn Hf].
  unfold settings_bad in Hs. cbv zeta in Hs. split_guards. split_and!; [done..|].
  intros r Hin. rewrite Forall_forall in Hf. destruct (Hf r Hin) as [_ Hd].
  destruct (dimensions p r) as [d|e] eqn:Hdim; [|done].
  assert (0 <= max_pixels (image p)) by lia.
  destruct (dimensions_fits p r d) as (w & h & ? & ? & ? & ? & ?); [done|done|].
  exists d, w, h. done.
Qed.

Lemma any_not_decreasing_false l :
  Forall (fun x => is_finite x = true) l -> any_not_decreasing l = false ->
  forall i x y, l !! i = Some (Finite x) -> l !! S i = Some (Finite y) -> (y < x)%Q.
Proof.
  induction l as [|a l IH]; intros Hf Hd i x y Hx Hy; [done|].
  apply Forall_cons in Hf as [Ha Hf]. destruct l as [|b l]; [by destruct i|].
  cbn [any_not_decreasing] in Hd. apply orb_false_iff in Hd as [Hab Hd].
  destruct i as [|i]; [|by apply (IH Hf Hd i)]. simplify_eq/=.
  apply QArith_base.Qnot_le_lt. intros Hle. apply Qle_bool_iff in Hle. congruence.
Qed.

(** The noise schedule of a validated policy is a real one: between 2 and
    65 finite values in [0, 1], starting at 1, ending at 0, every one strictly
    below its predecessor. *)
Theorem validated_sigmas_decrease p :
  policy_validate p = Ok tt ->
  let s := sigmas (image p) in
  (2 <= length s <= 65)%nat /\
  (exists x, head s = Some (Finite x) /\ (x == 1)%Q) /\
  (exists x, last s = Some (Finite x) /\ (x == 0)%Q) /\
  (forall i v, s !! i = Some v -> exists q, v = Finite q /\ (0 <= q <= 1)%Q) /\
  (forall i x y, s !! i = Some (Finite x) -> s !! S i = Some (Finite y) -> (y < x)%Q).
Proof.
  intros H. cbv zeta. apply policy_validate_parts in H as [Hs _].
  unfold settings_bad in Hs. cbv zeta in Hs. split_guards.
  match goal with H : existsb _ (sigmas _) = false |- _ => rename H into Hrange end.
  rewrite existsb_false in Hrange.
  assert (Hfin : Forall (fun x => is_finite x = true) (sigmas (image p))).
  { apply Forall_forall. intros x Hx. specialize (Hrange x Hx). split_guards. done. }
  split_and!; [lia|lia|..].
  - destruct (head _) as [[| |q]|]; try done. exists q. split; [done|]. by apply Qeq_bool_iff.
  - destruct (last _) as [[| |q]|]; try done. exists q. split; [done|]. by apply Qeq_bool_iff.
  - intros i v Hv. apply list_elem_of_lookup_2 in Hv. specialize (Hrange v Hv). split_guards.
    destruct v as [| |q]; try done. exists q. split; [done|].
    unfold in_closed in *. split_guards. by rewrite <- !Qle_bool_iff.
  - intros i x y. by apply any_not_decreasing_false.
Qed.

(** The policy compiled into the client passes its own validation. *)
Theorem default_policy_validates v :
  to_vec (VObject []) = Some v -> len v <= 8192 -> policy_validate default_policy = Ok tt.
Proof.
  intros Hv Hl. unfold policy_validate. rewrite !bind_unit_Ok, reject_if_tt. split_and!.
  - unfold settings_bad. cbv zeta. cbn [extensions default_policy]. rewrite Hv.
    replace (len v >? 8192) with false by lia. by vm_compute.
  - by vm_compute.
  - by vm_compute.
  - by vm_compute.
Qed.
End Guarantees.

Lemma default_policy_validates_witness : @policy_validate plain_json default_policy = Ok tt.
Proof. by apply (@default_policy_validates plain_json "{}"). Defined.

Lemma validated_ratios_usable_witness :
  exists d w h, dimensions default_policy "16:9" = Ok d /\ sides "16:9" w h /\
    fits MAX_GENERATED_IMAGE_PIXELS w h d /\
    (forall d', fits MAX_GENERATED_IMAGE_PIXELS w h d' -> width d' <= width d).
Proof.
  apply (@validated_ratios_usable plain_json default_policy); [by vm_compute|].
  by apply (bool_decide_unpack _); vm_compute.
Defined.

Lemma validated_sigmas_decrease_witness :
  exists x, last (sigmas (image default_policy)) = Some (Finite x) /\ (x == 0)%Q.
Proof. apply (@validated_sigmas_decrease plain_json default_policy). by vm_compute. Defined.
