(* ===== verification/Compat.v ===== *)
(** OpenAI-compatible translation (crates/axiom-openai-compat/src/lib.rs): wire
    requests, [ChatCompletionRequest::into_domain] in its lenient and strict
    modes, the names it reports, and the chunks a provider event becomes.

    Deserialization is derived serde code: the wire records are the inputs, with
    the [unsupported] maps of captured keys as the source flattens them. *)

From stdpp Require Import base gmap strings list sorting.
From Stdlib Require Import ZArith QArith NArith Lia ZifyBool ZifyN ZifyNat.
From S2P Require Import Prelude RustStr Json ToolCalls Content Accounting Inference.

Local Open Scope Z_scope.

(** ** Errors and modes *)

Record CompatError : Type := { detail : string; refused : list string }.
Definition compat_error (d : string) : CompatError := {| detail := d; refused := [] |}.
Definition unsupported_parameters (ps : list string) : CompatError :=
  {| detail := "request contains parameters this proxy does not support"; refused := ps |}.

Inductive CompatMode : Type := Lenient | Strict.
#[export] Instance CompatMode_eq_dec : EqDecision CompatMode.
Proof. solve_decision. Defined.

Definition INERT_PARAMETERS : list string := ["user"; "metadata"; "store"; "service_tier"].
Definition MAX_REPORTED_PARAMETERS : nat := 16.
Definition MAX_REPORTED_PARAMETER_LEN : nat := 64.

(** Alphanumerics and ["_-."]. *)
Definition reportable (c : N) : bool :=
  is_ascii_alphanumeric c || (c =? 95)%N || (c =? 45)%N || (c =? 46)%N.

Definition sanitize_parameter_name (n : string) : option string :=
  let cleaned := utf8_encode (take MAX_REPORTED_PARAMETER_LEN (filter reportable (chars n))) in
  if is_empty cleaned then None else Some cleaned.

(** ** Wire types *)

Record StreamOptions : Type := { include_usage : bool; so_unsupported : Map }.
Record WireFile : Type := { filename : string; file_data : string }.
Record WireImageUrl : Type := { url : string; iu_unsupported : Map }.

Inductive WireContentPart : Type :=
| PartFile (file : WireFile)
| PartText (text : string) (unsupported : Map)
| PartImageUrl (image_url : WireImageUrl) (unsupported : Map)
| PartUnsupported.

Inductive WireContent : Type :=
| ContentText (text : string)
| ContentParts (parts : list WireContentPart).

Record WireFunctionCall : Type := { wfc_name : string; wfc_arguments : string; wfc_unsupported : Map }.
Record WireToolCall : Type := {
  wtc_id : string; wtc_kind : string; wtc_function : WireFunctionCall; wtc_unsupported : Map
}.

Record WireMessage : Type := {
  wm_role : string;
  wm_content : option WireContent;
  wm_reasoning_content : option string;
  wm_name : option string;
  wm_refusal : option string;
  wm_tool_call_id : option string;
  wm_tool_calls : list WireToolCall;
  wm_unsupported : Map
}.

Record WireFunctionDefinition : Type := {
  wfd_name : string;
  wfd_description : option string;
  wfd_parameters : Value;
  wfd_strict : option bool;
  wfd_unsupported : Map
}.
Record WireTool : Type := {
  wt_kind : string; wt_function : WireFunctionDefinition; wt_unsupported : Map
}.

Record WireNamedFunction : Type := { wnf_name : string; wnf_unsupported : Map }.
Record WireNamedToolChoice : Type := {
  wnc_kind : string; wnc_function : WireNamedFunction; wnc_unsupported : Map
}.
Inductive WireToolChoice : Type :=
| WireMode (mode : string)
| WireNamed (choice : WireNamedToolChoice).

Record WireJsonSchema : Type := {
  js_name : string; js_schema : Value; js_strict : bool; js_unsupported : Map
}.
Inductive WireResponseFormat : Type :=
| WireFormatText (unsupported : Map)
| WireFormatJsonObject (unsupported : Map)
| WireFormatJsonSchema (json_schema : WireJsonSchema) (unsupported : Map).

Record ChatCompletionRequest : Type := {
  cr_model : string;
  cr_messages : list WireMessage;
  cr_tools : list WireTool;
  cr_tool_choice : option WireToolChoice;
  cr_parallel_tool_calls : option bool;
  cr_reasoning_effort : option string;
  cr_thinking_mode : ThinkingMode;
  cr_max_tokens : option Z;
  cr_max_completion_tokens : option Z;
  cr_temperature : option f64;
  cr_top_p : option f64;
  cr_response_format : option WireResponseFormat;
  cr_stream : bool;
  cr_stream_options : option StreamOptions;
  cr_n : option Z;
  cr_unsupported : Map
}.

Record TranslatedRequest : Type := { request : InferenceRequest; ignored_parameters : list string }.

(** ** Reported names *)

(** [collect_keys]: what it pushes onto [reported]. *)
Definition collect_keys (prefix : string) (fields : option Map) : list string :=
  match fields with
  | None => []
  | Some fields =>
    omap (fun key => sanitize_parameter_name (prefix +:+ "." +:+ key)) (map_keys fields)
  end.

(** [sort_unstable]; [dedup]; [truncate(MAX_REPORTED_PARAMETERS)]. *)
Definition normalize_names (l : list string) : list string :=
  take MAX_REPORTED_PARAMETERS (dedup (sort_strings l)).

Definition part_parameters (p : WireContentPart) : list string :=
  match p with
  | PartText _ u => collect_keys "messages.content" (Some u)
  | PartImageUrl i u =>
    collect_keys "messages.content" (Some u)
    ++ collect_keys "messages.content.image_url" (Some (iu_unsupported i))
  | _ => []
  end.
Definition content_parameters (c : WireContent) : list string :=
  match c with ContentParts parts => parts ≫= part_parameters | ContentText _ => [] end.

Definition call_parameters (c : WireToolCall) : list string :=
  collect_keys "messages.tool_calls" (Some (wtc_unsupported c))
  ++ collect_keys "messages.tool_calls.function" (Some (wfc_unsupported (wtc_function c))).
Definition message_parameters (m : WireMessage) : list string :=
  collect_keys "messages" (Some (wm_unsupported m))
  ++ match wm_content m with Some c => content_parameters c | None => [] end
  ++ (wm_tool_calls m ≫= call_parameters).
Definition tool_parameters (t : WireTool) : list string :=
  collect_keys "tools" (Some (wt_unsupported t))
  ++ collect_keys "tools.function" (Some (wfd_unsupported (wt_function t))).
Definition choice_parameters (c : WireToolChoice) : list string :=
  match c with
  | WireNamed c =>
    collect_keys "tool_choice" (Some (wnc_unsupported c))
    ++ collect_keys "tool_choice.function" (Some (wnf_unsupported (wnc_function c)))
  | WireMode _ => []
  end.
Definition format_parameters (f : WireResponseFormat) : list string :=
  match f with
  | WireFormatText u | WireFormatJsonObject u => collect_keys "response_format" (Some u)
  | WireFormatJsonSchema j u =>
    collect_keys "response_format" (Some u)
    ++ collect_keys "response_format.json_schema" (Some (js_unsupported j))
  end.

(** Everything [nested_parameters] pushes, before it is sorted. *)
Definition nested_names (r : ChatCompletionRequest) : list string :=
  collect_keys "stream_options" (so_unsupported <$> cr_stream_options r)
  ++ (cr_messages r ≫= message_parameters)
  ++ (cr_tools r ≫= tool_parameters)
  ++ match cr_tool_choice r with Some c => choice_parameters c | None => [] end
  ++ match cr_response_format r with Some f => format_parameters f | None => [] end.

Definition nested_parameters (r : ChatCompletionRequest) : list string :=
  normalize_names (nested_names r).

Definition is_inert (key : string) : bool := bool_decide (key ∈ INERT_PARAMETERS).
Definition classified_names (r : ChatCompletionRequest) : list string :=
  omap (fun key => if is_inert key then None else sanitize_parameter_name key)
    (map_keys (cr_unsupported r)).
Definition classify_parameters (r : ChatCompletionRequest) : list string :=
  normalize_names (classified_names r).

(** ** Translation *)

Definition role_of (r : string) : result CompatError ChatRole :=
  if decide (r = "system") then Ok System
  else if decide (r = "developer") then Ok Developer
  else if decide (r = "user") then Ok User
  else if decide (r = "assistant") then Ok Assistant
  else if decide (r = "tool") then Ok Tool
  else Err (compat_error "message role is not supported").

Definition call_into_domain (c : WireToolCall) : result CompatError ToolCall :=
  if decide (wtc_kind c = "function") then
    Ok {| id := wtc_id c; tc_kind := wtc_kind c;
          function := {| fc_name := wfc_name (wtc_function c);
                         arguments := wfc_arguments (wtc_function c) |} |}
  else Err (compat_error "tool call type is invalid").

Definition tool_into_domain (t : WireTool) : result CompatError ToolDefinition :=
  if decide (wt_kind t = "function") then
    Ok {| td_kind := wt_kind t;
          td_function := {| fd_name := wfd_name (wt_function t);
                            description := default EmptyString (wfd_description (wt_function t));
                            parameters := wfd_parameters (wt_function t);
                            strict := wfd_strict (wt_function t) |} |}
  else Err (compat_error "only function tools are supported").

Definition choice_into_domain (c : WireToolChoice) : result CompatError ToolChoice :=
  match c with
  | WireMode m =>
    if decide (m = "auto") then Ok ChoiceAuto
    else if decide (m = "none") then Ok ChoiceNone
    else if decide (m = "required") then Ok ChoiceRequired
    else Err (compat_error "tool_choice mode is not supported")
  | WireNamed c =>
    if decide (wnc_kind c = "function") then Ok (ChoiceNamed (wnf_name (wnc_function c)))
    else Err (compat_error "named tool_choice type is invalid")
  end.

Definition format_into_domain (f : WireResponseFormat) : ResponseFormat :=
  match f with
  | WireFormatText _ => FormatText
  | WireFormatJsonObject _ => FormatJsonObject
  | WireFormatJsonSchema j _ => FormatJsonSchema (js_name j) (js_schema j) (js_strict j)
  end.

Definition parse_reasoning (value : option string) : result CompatError ReasoningEffort :=
  let v := default "medium" value in
  if decide (v = "minimal") then Ok Minimal
  else if decide (v = "low") then Ok Low
  else if decide (v = "medium") then Ok Medium
  else if decide (v = "high") then Ok High
  else if decide (v = "xhigh") then Ok ExtraHigh
  else Err (compat_error "reasoning_effort is not supported").

Section Translate.
Context `{B64 : Base64} `{J : SerdeJson}.

(** The accumulators of [WireContent::into_parts]. *)
Record Parts : Type := {
  texts : list string; part_images : list ImageContent; part_files : list FileContent
}.
Definition no_parts : Parts := {| texts := []; part_images := []; part_files := [] |}.

Definition add_part (acc : Parts) (p : WireContentPart) : result CompatError Parts :=
  match p with
  | PartText t _ =>
    Ok {| texts := texts acc ++ [t]; part_images := part_images acc;
          part_files := part_files acc |}
  | PartImageUrl i _ =>
    image ← map_err (fun _ => compat_error "images must be valid inline PNG, JPEG, WebP, or GIF data URLs (up to 5 MiB each)")
              (from_data_url (url i));
    Ok {| texts := texts acc; part_images := part_images acc ++ [image];
          part_files := part_files acc |}
  | PartFile f =>
    '(mime_type, data) ← ok_or (strip_prefix "data:" (file_data f) ≫= split_once ";base64,")
                           (compat_error "files require inline base64 data URLs");
    let content := {| f_name := filename f; f_mime_type := mime_type; f_data := data |} in
    _ ← map_err (fun _ => compat_error "invalid file upload") (file_validate content);
    Ok {| texts := texts acc; part_images := part_images acc;
          part_files := part_files acc ++ [content] |}
  | PartUnsupported => Err (compat_error "message content part type is not supported")
  end.

Fixpoint add_parts (acc : Parts) (l : list WireContentPart) : result CompatError Parts :=
  match l with
  | [] => Ok acc
  | p :: l => acc ← add_part acc p; add_parts acc l
  end.

Definition into_parts (c : WireContent)
    : result CompatError (string * list ImageContent * list FileContent) :=
  match c with
  | ContentText t => Ok (t, [], [])
  | ContentParts parts =>
    acc ← add_parts no_parts parts;
    Ok (join newline (texts acc), part_images acc, part_files acc)
  end.

Definition message_into_domain (m : WireMessage) : result CompatError ChatMessage :=
  role ← role_of (wm_role m);
  '(content, images, files) ←
    match wm_content m with None => Ok (EmptyString, [], []) | Some c => into_parts c end;
  calls ← collect call_into_domain (wm_tool_calls m);
  Ok {| role := role; content := content; images := images; files := files;
        reasoning_content := wm_reasoning_content m; name := wm_name m;
        refusal := wm_refusal m; tool_call_id := wm_tool_call_id m; tool_calls := calls |}.

(** The request [into_domain] builds once the parameters are settled. *)
Definition translate (r : ChatCompletionRequest) : result CompatError InferenceRequest :=
  reasoning_effort ← parse_reasoning (cr_reasoning_effort r);
  tools ← collect tool_into_domain (cr_tools r);
  messages ← collect message_into_domain (cr_messages r);
  tool_choice ← match cr_tool_choice r with
                | None => Ok ChoiceAuto | Some c => choice_into_domain c end;
  Ok {| model := cr_model r; request_id := None; messages := messages; tools := tools;
        tool_choice := tool_choice; parallel_tool_calls := cr_parallel_tool_calls r;
        reasoning_effort := reasoning_effort; thinking_mode := cr_thinking_mode r;
        max_output_tokens := match cr_max_completion_tokens r with
                             | Some n => Some n | None => cr_max_tokens r end;
        sampling := {| temperature := cr_temperature r; top_p := cr_top_p r |};
        response_format := match cr_response_format r with
                           | None => FormatText | Some f => format_into_domain f end;
        stream := cr_stream r |}.

Definition limits_conflict (r : ChatCompletionRequest) : bool :=
  match cr_max_tokens r, cr_max_completion_tokens r with
  | Some a, Some b => negb (a =? b)
  | _, _ => false
  end.

Definition into_domain (r : ChatCompletionRequest) (mode : CompatMode)
    : result CompatError TranslatedRequest :=
  _ ← reject_if (limits_conflict r)
        (compat_error "max_tokens and max_completion_tokens conflict");
  _ ← reject_if ((if cr_stream_options r then true else false) && negb (cr_stream r))
        (compat_error "stream_options requires stream=true");
  _ ← reject_if match cr_n r with Some n => negb (n =? 1) | None => false end
        (compat_error "n must be 1: additional choices cannot be produced");
  let nested := nested_parameters r in
  let ignored := normalize_names (classify_parameters r ++ nested) in
  _ ← reject_if (bool_decide (mode = Strict)
                 && (negb (bool_decide (cr_unsupported r = []))
                     || negb (bool_decide (nested = []))))
        (unsupported_parameters
           (normalize_names
              (omap sanitize_parameter_name (map_keys (cr_unsupported r)) ++ nested)));
  req ← translate r;
  _ ← map_err (fun _ => compat_error "request fields failed validation") (request_validate req);
  Ok {| request := req; ignored_parameters := ignored |}.
End Translate.

Definition include_stream_usage (r : ChatCompletionRequest) : bool :=
  match cr_stream_options r with Some o => include_usage o | None => false end.

(** ** Responses *)

Record WireUsage : Type := { prompt_tokens : Z; completion_tokens : Z; total_tokens : Z }.
Definition wire_usage (u : Usage) : WireUsage :=
  {| prompt_tokens := u_input_tokens u; completion_tokens := u_output_tokens u;
     total_tokens := u_total_tokens u |}.

Definition finish_reason_name (r : FinishReason) : string :=
  match r with
  | Stop => "stop" | Length => "length" | ToolCalls => "tool_calls"
  | ContentFilter => "content_filter" | FinishCancelled => "cancelled" | Other v => v
  end.

Record AssistantMessage : Type := {
  am_role : string;
  am_content : option string;
  am_reasoning_content : option string;
  am_refusal : option string;
  am_tool_calls : list ToolCall
}.
Definition assistant_message (a : AssistantTurn) (reasoning refusal : option string)
    : AssistantMessage :=
  {| am_role := "assistant";
     am_content := if negb (is_empty (at_text a)) then Some (at_text a) else None;
     am_reasoning_content := reasoning; am_refusal := refusal;
     am_tool_calls := at_tool_calls a |}.

Record CompletionChoice : Type := {
  cc_index : Z; cc_message : AssistantMessage; cc_finish_reason : string
}.
Record ChatCompletion : Type := {
  cc_id : string; cc_object : string; cc_created : Z; cc_model : string;
  cc_choices : list CompletionChoice; cc_usage : WireUsage
}.
Definition completion (i m : string) (created : Z) (response : InferenceResponse)
    : ChatCompletion :=
  {| cc_id := i; cc_object := "chat.completion"; cc_created := created; cc_model := m;
     cc_choices :=
       [{| cc_index := 0;
           cc_message := assistant_message (assistant response) (ir_reasoning response)
                           (ir_refusal response);
           cc_finish_reason := match ir_finish_reason response with
                               | None => "stop" | Some r => finish_reason_name r end |}];
     cc_usage := wire_usage (ir_usage response) |}.

Record ChunkFunctionCall : Type := { cfc_name : option string; cfc_arguments : option string }.
Record ChunkToolCall : Type := {
  ctc_index : Z; ctc_id : option string; ctc_kind : option string;
  ctc_function : option ChunkFunctionCall
}.
Record ChunkDelta : Type := {
  cd_role : option string; cd_content : option string; cd_reasoning_content : option string;
  cd_refusal : option string; cd_tool_calls : list ChunkToolCall
}.
Definition ChunkDelta_default : ChunkDelta :=
  {| cd_role := None; cd_content := None; cd_reasoning_content := None; cd_refusal := None;
     cd_tool_calls := [] |}.
Record ChunkChoice : Type := {
  ch_index : Z; ch_delta : ChunkDelta; ch_finish_reason : option string
}.
Record ChatChunk : Type := {
  ck_id : string; ck_object : string; ck_created : Z; ck_model : string;
  ck_choices : list ChunkChoice; ck_usage : option WireUsage
}.

Definition chunk (i m : string) (created : Z) (delta : ChunkDelta)
    (finish : option string) (usage : option WireUsage) : ChatChunk :=
  {| ck_id := i; ck_object := "chat.completion.chunk"; ck_created := created; ck_model := m;
     ck_choices := [{| ch_index := 0; ch_delta := delta; ch_finish_reason := finish |}];
     ck_usage := usage |}.

Definition stream_start (i m : string) (created : Z) : ChatChunk :=
  chunk i m created
    {| cd_role := Some "assistant"; cd_content := None; cd_reasoning_content := None;
       cd_refusal := None; cd_tool_calls := [] |} None None.

Definition tool_chunk (i m : string) (created : Z) (d : ToolCallDelta) : ChatChunk :=
  chunk i m created
    {| cd_role := None; cd_content := None; cd_reasoning_content := None; cd_refusal := None;
       cd_tool_calls :=
         [{| ctc_index := d_index d; ctc_id := d_id d; ctc_kind := d_kind d;
             ctc_function := if (if d_name d then true else false)
                                || (if d_arguments d then true else false)
                             then Some {| cfc_name := d_name d; cfc_arguments := d_arguments d |}
                             else None |}] |} None None.

Definition stream_event (i m : string) (created : Z) (event : ProviderEvent)
    (include_usage : bool) : option ChatChunk :=
  match event with
  | EvTextDelta v =>
    Some (chunk i m created
      {| cd_role := None; cd_content := Some v; cd_reasoning_content := None;
         cd_refusal := None; cd_tool_calls := [] |} None None)
  | EvReasoningDelta v =>
    Some (chunk i m created
      {| cd_role := None; cd_content := None; cd_reasoning_content := Some v;
         cd_refusal := None; cd_tool_calls := [] |} None None)
  | EvRefusalDelta v =>
    Some (chunk i m created
      {| cd_role := None; cd_content := None; cd_reasoning_content := None;
         cd_refusal := Some v; cd_tool_calls := [] |} None None)
  | EvToolCallDelta d => Some (tool_chunk i m created d)
  | EvUsage input output =>
    if include_usage then
      Some (chunk i m created ChunkDelta_default None
              (Some {| prompt_tokens := input; completion_tokens := output;
                       total_tokens := saturating_add input output |}))
    else None
  | EvFinished r => Some (chunk i m created ChunkDelta_default (Some (finish_reason_name r)) None)
  | EvAccounting _ | EvSecurityState _ | EvSecurityEvidence _ | EvResponseVerified
  | EvStatus _ _ => None
  end.

(** [model_list]. *)
Record WireModel : Type := {
  wmo_id : string; wmo_object : string; wmo_created : Z; wmo_owned_by : string;
  wmo_context_window_tokens : Z; wmo_max_output_tokens : Z;
  wmo_reasoning_efforts : list string; wmo_supports_tools : bool;
  wmo_supports_parallel_tools : bool; wmo_supports_streaming : bool
}.
Definition model_list (models : list ModelInfo) : list WireModel :=
  (fun m =>
     {| wmo_id := mi_id m; wmo_object := "model"; wmo_created := 0;
        wmo_owned_by := mi_provider_label m;
        wmo_context_window_tokens := mi_context_window_tokens m;
        wmo_max_output_tokens := mi_max_output_tokens m;
        wmo_reasoning_efforts := effort_as_str <$> mi_reasoning_efforts m;
        wmo_supports_tools := mi_supports_tools m;
        wmo_supports_parallel_tools := mi_supports_parallel_tools m;
        wmo_supports_streaming := mi_supports_streaming m |}) <$> models.

(** ** The reported names *)

(** A name that is safe in a header: at most 64 reportable bytes, not empty. *)
Definition safe_name (s : string) : Prop :=
  0 < len s <= Z.of_nat MAX_REPORTED_PARAMETER_LEN /\ forallb reportable (bytes s) = true.

Lemma reportable_ascii c : reportable c = true -> (c < 128)%N.
Proof.
  unfold reportable, is_ascii_alphanumeric, is_ascii_digit, is_ascii_uppercase,
    is_ascii_lowercase. lia.
Qed.

Lemma utf8_encode_ascii cs : Forall (fun c => (c < 128)%N) cs -> bytes (utf8_encode cs) = cs.
Proof.
  induction 1 as [|c cs Hc _ IH]; [done|]. rewrite utf8_encode_cons, bytes_app, IH.
  unfold encode_char. assert (Hlt : (c <? 128)%N = true) by lia. rewrite Hlt.
  rewrite bytes_of_bytes; [done|]. constructor; [lia|constructor].
Qed.

Lemma sanitize_safe n s : sanitize_parameter_name n = Some s -> safe_name s.
Proof.
  unfold sanitize_parameter_name. cbv zeta. set (cs := take _ _).
  assert (Hcs : Forall (fun c => reportable c = true) cs).
  { apply Forall_take, Forall_forall. intros c Hc. apply list_elem_of_filter in Hc as [Hc _].
    by apply Is_true_true. }
  assert (Hb : bytes (utf8_encode cs) = cs).
  { apply utf8_encode_ascii. eapply Forall_impl; [exact Hcs|]. apply reportable_ascii. }
  case_match eqn:He; [done|]. intros [= <-]. unfold safe_name. rewrite Hb.
  split; [|by apply forallb_elem_of, Forall_forall].
  apply is_empty_len in He. split; [done|]. rewrite len_bytes, Hb. subst cs.
  rewrite length_take. lia.
Qed.

Lemma collect_keys_safe prefix fields : Forall safe_name (collect_keys prefix fields).
Proof.
  destruct fields as [fields|]; [|constructor]. apply Forall_forall. intros s Hs.
  apply list_elem_of_omap in Hs as (k & _ & Hk). by eapply sanitize_safe.
Qed.

Lemma Forall_bind_all {A B} (P : B -> Prop) (f : A -> list B) l :
  (forall x, Forall P (f x)) -> Forall P (l ≫= f).
Proof.
  intros H. apply Forall_forall. intros y Hy.
  apply list_elem_of_bind in Hy as (x & Hx & _). revert y Hx. by apply Forall_forall.
Qed.

Lemma nested_names_safe r : Forall safe_name (nested_names r).
Proof.
  unfold nested_names, message_parameters, tool_parameters, call_parameters.
  repeat apply Forall_app_2;
    repeat (apply Forall_bind_all; intros ?); repeat apply Forall_app_2;
    repeat (apply Forall_bind_all; intros ?); repeat apply Forall_app_2;
    try apply collect_keys_safe.
  - destruct (wm_content _) as [[t|ps]|]; [constructor| |constructor].
    apply Forall_bind_all. intros [f|t u|i u|].
    all: try (by constructor). all: cbn [part_parameters].
    + apply collect_keys_safe.
    + apply Forall_app_2; apply collect_keys_safe.
  - destruct (cr_tool_choice r) as [[m|c]|]; cbn [choice_parameters]; try (by constructor).
    apply Forall_app_2; apply collect_keys_safe.
  - destruct (cr_response_format r) as [[u|u|j u]|]; cbn [format_parameters];
      try (by constructor); try apply collect_keys_safe.
    apply Forall_app_2; apply collect_keys_safe.
Qed.

Lemma classified_names_safe r : Forall safe_name (classified_names r).
Proof.
  apply Forall_forall. intros s Hs. apply list_elem_of_omap in Hs as (k & _ & Hk).
  case_match; [done|]. by eapply sanitize_safe.
Qed.

(** Truncating the two lists of names before merging them loses nothing. *)
Lemma normalize_names_app a b :
  normalize_names (normalize_names a ++ normalize_names b) = normalize_names (a ++ b).
Proof. apply (take_sort_dedup_app str_le). Qed.

Lemma normalize_names_nil l : normalize_names l = [] <-> l = [].
Proof.
  split; [|by intros ->]. intros H. destruct l as [|x l]; [done|]. exfalso.
  unfold normalize_names, MAX_REPORTED_PARAMETERS in H. cbn [take] in H.
  pose proof (elem_of_sort_dedup str_le (x :: l) x) as [_ Hx].
  unfold sort_dedup in Hx. fold (sort_strings (x :: l)) in Hx.
  destruct (dedup (sort_strings (x :: l))); [|done]. specialize (Hx ltac:(by left)). set_solver.
Qed.

Lemma elem_of_normalize_names l x : x ∈ normalize_names l -> x ∈ l.
Proof.
  intros H. apply (elem_of_sort_dedup str_le). unfold normalize_names in H.
  change (sort_dedup str_le l) with (dedup (sort_strings l)).
  rewrite <- (take_drop MAX_REPORTED_PARAMETERS). set_solver.
Qed.

Section Compat.
Context `{B64 : Base64} `{J : SerdeJson}.

Lemma into_domain_Ok r m t :
  into_domain r m = Ok t <->
  limits_conflict r = false /\
  (cr_stream_options r <> None -> cr_stream r = true) /\
  (forall n, cr_n r = Some n -> n = 1) /\
  (m = Strict -> cr_unsupported r = [] /\ nested_names r = []) /\
  translate r = Ok (request t) /\ request_validate (request t) = Ok tt /\
  ignored_parameters t = normalize_names (classified_names r ++ nested_names r).
Proof.
  unfold into_domain. cbv zeta.
  rewrite !bind_unit_Ok, !reject_if_tt, bind_Ok.
  unfold classify_parameters, nested_parameters. rewrite normalize_names_app.
  assert (Hs : bool_decide (m = Strict)
                   && (negb (bool_decide (cr_unsupported r = []))
                       || negb (bool_decide (normalize_names (nested_names r) = []))) = false
               <-> (m = Strict -> cr_unsupported r = [] /\ nested_names r = [])).
  { rewrite <- (normalize_names_nil (nested_names r)).
    repeat case_bool_decide; simpl; naive_solver. }
  rewrite Hs.
  assert (Hn : match cr_n r with Some n => negb (n =? 1) | None => false end = false
               <-> (forall n, cr_n r = Some n -> n = 1)).
  { destruct (cr_n r) as [n|]; [|naive_solver]. rewrite negb_false_iff, Z.eqb_eq. naive_solver. }
  rewrite Hn.
  assert (Ho : (if cr_stream_options r then true else false) && negb (cr_stream r) = false
               <-> (cr_stream_options r <> None -> cr_stream r = true)).
  { destruct (cr_stream_options r), (cr_stream r); naive_solver. }
  rewrite Ho. split.
  - intros (? & ? & ? & ? & req & ? & H). apply bind_unit_Ok in H as [Hv H].
    apply map_err_Ok in Hv. injection H as <-. done.
  - intros (? & ? & ? & ? & ? & Hv & Hi). split_and!; try done. exists (request t).
    split; [done|]. rewrite Hv. cbn. destruct t. simpl in *. by rewrite Hi.
Qed.

(** The dropped parameters a translated request reports are exactly the
    sixteen smallest sanitized names among all captured non-inert keys, top-level
    and nested: sorted, without repetition, and each one a non-empty token of at
    most 64 header-safe ASCII bytes. *)
Theorem ignored_parameters_exact r m t :
  into_domain r m = Ok t ->
  ignored_parameters t =
    take MAX_REPORTED_PARAMETERS (sort_dedup str_le (classified_names r ++ nested_names r)) /\
  StronglySorted str_le (ignored_parameters t) /\ NoDup (ignored_parameters t) /\
  (length (ignored_parameters t) <= 16)%nat /\ Forall safe_name (ignored_parameters t).
Proof.
  intros H. apply into_domain_Ok in H as (_ & _ & _ & _ & _ & _ & ->).
  split; [done|]. split_and!.
  - apply sorted_take, (sort_dedup_sorted str_le).
  - apply NoDup_take, (sort_dedup_NoDup str_le).
  - unfold normalize_names, MAX_REPORTED_PARAMETERS. rewrite length_take. lia.
  - apply Forall_forall. intros s Hs. apply elem_of_normalize_names in Hs.
    revert s Hs. apply Forall_forall, Forall_app_2;
      [apply classified_names_safe | apply nested_names_safe].
Qed.

(** ** Strict mode *)

(** Every map of captured keys in a request. *)
Definition captured_maps (r : ChatCompletionRequest) : list Map :=
  [cr_unsupported r]
  ++ match cr_stream_options r with Some o => [so_unsupported o] | None => [] end
  ++ (cr_messages r ≫= fun m =>
        [wm_unsupported m]
        ++ match wm_content m with
           | Some (ContentParts ps) =>
             ps ≫= fun p => match p with
                            | PartText _ u => [u]
                            | PartImageUrl i u => [u; iu_unsupported i]
                            | _ => []
                            end
           | _ => []
           end
        ++ (wm_tool_calls m ≫= fun c => [wtc_unsupported c; wfc_unsupported (wtc_function c)]))
  ++ (cr_tools r ≫= fun t => [wt_unsupported t; wfd_unsupported (wt_function t)])
  ++ match cr_tool_choice r with
     | Some (WireNamed c) => [wnc_unsupported c; wnf_unsupported (wnc_function c)]
     | _ => []
     end
  ++ match cr_response_format r with
     | Some (WireFormatText u) | Some (WireFormatJsonObject u) => [u]
     | Some (WireFormatJsonSchema j u) => [u; js_unsupported j]
     | None => []
     end.

Definition utf8_keys (m : Map) : Prop := Forall (fun k => valid_utf8 k = true) (map_keys m).

Lemma sanitize_prefixed a p key :
  reportable (byte_val a) = true -> forallb (fun b => (b <? 128)%N) (bytes p) = true ->
  valid_utf8 key = true ->
  exists s, sanitize_parameter_name (String a p +:+ "." +:+ key) = Some s.
Proof.
  intros Ha Hp Hk. unfold sanitize_parameter_name. cbv zeta.
  assert (Hlt : (byte_val a < 128)%N) by by apply reportable_ascii.
  assert (Hdec : utf8_decode (String a p +:+ ".") = Some (bytes (String a p +:+ "."))).
  { apply utf8_decode_ascii. rewrite bytes_app. rewrite forallb_app. simpl. rewrite Hp.
    fold (byte_val a). lia. }
  rewrite str_app_assoc, chars_app; [|by unfold valid_utf8; rewrite Hdec|done].
  assert (Hch : chars (String a p +:+ ".") = byte_val a :: bytes (p +:+ "."))
    by (unfold chars; by rewrite Hdec).
  rewrite Hch. cbn [app]. rewrite filter_cons, decide_True by (by apply Is_true_true).
  set (l := filter _ _). unfold MAX_REPORTED_PARAMETER_LEN. cbn [take].
  rewrite utf8_encode_cons. unfold encode_char. assert (E : (byte_val a <? 128)%N = true) by lia.
  rewrite E. by eexists.
Qed.

Lemma collect_keys_nil a p m :
  reportable (byte_val a) = true -> forallb (fun b => (b <? 128)%N) (bytes p) = true ->
  utf8_keys m -> collect_keys (String a p) (Some m) = [] <-> m = [].
Proof.
  intros Ha Hp Hu. split; [|by intros ->]. destruct m as [|[k v] m]; [done|]. intros H.
  apply Forall_cons in Hu as [Hk _]. destruct (sanitize_prefixed a p k Ha Hp Hk) as [s Hs].
  unfold collect_keys, map_keys in H. cbn in H. by rewrite Hs in H.
Qed.
Lemma bind_nil {A C} (f : A -> list C) l : l ≫= f = [] <-> Forall (fun x => f x = []) l.
Proof.
  induction l as [|x l IH]; [split; intros; by constructor|].
  rewrite bind_cons, Forall_cons, <- IH. by rewrite app_nil.
Qed.

Definition all_nil (ms : list Map) : Prop := Forall (eq []) ms.

Lemma all_nil_app l1 l2 : all_nil (l1 ++ l2) <-> all_nil l1 /\ all_nil l2.
Proof. apply Forall_app. Qed.
Lemma all_nil_cons m l : all_nil (m :: l) <-> m = [] /\ all_nil l.
Proof. unfold all_nil. rewrite Forall_cons. naive_solver. Qed.
Lemma all_nil_nil : all_nil [] <-> True.
Proof. by split; [|constructor]. Qed.
Lemma all_nil_bind {A} (f : A -> list Map) l :
  all_nil (l ≫= f) <-> Forall (fun x => all_nil (f x)) l.
Proof.
  induction l as [|x l IH]; [split; intros; by constructor|].
  by rewrite bind_cons, all_nil_app, Forall_cons, IH.
Qed.

(** The reported names of a list of values, against their captured maps. *)
Lemma bind_names {A} (names : A -> list string) (maps : A -> list Map) l :
  Forall utf8_keys (l ≫= maps) ->
  (forall x, x ∈ l -> Forall utf8_keys (maps x) -> names x = [] <-> all_nil (maps x)) ->
  l ≫= names = [] <-> all_nil (l ≫= maps).
Proof.
  intros Hu H. rewrite bind_nil, all_nil_bind, !Forall_forall.
  assert (forall x, x ∈ l -> Forall utf8_keys (maps x)).
  { intros x Hx. rewrite Forall_forall in Hu |- *. intros m Hm. apply Hu.
    apply list_elem_of_bind. eauto. }
  split; intros Ha x Hx; apply (H x Hx); auto.
Qed.

Ltac split_utf8 :=
  repeat match goal with
  | H : Forall utf8_keys (_ ++ _) |- _ => apply Forall_app in H as [? ?]
  | H : Forall utf8_keys (_ :: _) |- _ => apply Forall_cons in H as [? ?]
  end.
Ltac names_nil :=
  cbn [app] in *; split_utf8; rewrite ?app_nil, ?all_nil_app, ?all_nil_cons, ?all_nil_nil;
  rewrite ?collect_keys_nil by done; try tauto.

Lemma nested_names_nil r :
  Forall utf8_keys (captured_maps r) ->
  cr_unsupported r = [] /\ nested_names r = [] <-> all_nil (captured_maps r).
Proof.
  unfold captured_maps, nested_names. intros Hu. split_utf8.
  rewrite !app_nil, !all_nil_app, all_nil_cons, all_nil_nil.
  rewrite <- (bind_names message_parameters), <- (bind_names tool_parameters); [|done|..|done|].
  - destruct (cr_stream_options r) as [o|], (cr_tool_choice r) as [[|c]|],
      (cr_response_format r) as [[]|]; cbn [fmap option_fmap option_map choice_parameters
      format_parameters]; split_utf8; names_nil.
  - intros t _ Ht. unfold tool_parameters. names_nil.
  - intros m _ Hm. unfold message_parameters. split_utf8.
    rewrite !app_nil, !all_nil_app, all_nil_cons, all_nil_nil.
    rewrite <- (bind_names call_parameters); [|done|].
    + destruct (wm_content m) as [[t|ps]|]; cbn [content_parameters]; [names_nil| |names_nil].
      rewrite <- (bind_names part_parameters); [names_nil|done|].
      intros [f|t u|i u|] _ Hp; cbn [part_parameters]; names_nil.
    + intros c _ Hc. unfold call_parameters. names_nil.
Qed.

(** Strict mode refuses every unknown key, wherever it is nested: it accepts
    exactly the requests lenient mode accepts that captured no key at all, with
    the same translation and nothing ignored. *)
Theorem strict_refuses_unknown r t :
  Forall utf8_keys (captured_maps r) ->
  into_domain r Strict = Ok t <->
  into_domain r Lenient = Ok t /\ Forall (eq []) (captured_maps r).
Proof.
  intros Hu. rewrite !into_domain_Ok. fold (all_nil (captured_maps r)).
  rewrite <- nested_names_nil by done. split.
  - intros (? & ? & ? & Hs & ? & ? & ?). destruct (Hs eq_refl). split_and!; done.
  - intros ((? & ? & ? & _ & ? & ? & ?) & ? & ?). split_and!; done.
Qed.
(** ** Nothing is lost in translation *)

Definition part_text (p : WireContentPart) : option string :=
  match p with PartText t _ => Some t | _ => None end.
Definition part_url (p : WireContentPart) : option string :=
  match p with PartImageUrl i _ => Some (url i) | _ => None end.
Definition part_file (p : WireContentPart) : option (string * string) :=
  match p with PartFile f => Some (filename f, file_data f) | _ => None end.

Definition wire_text (c : option WireContent) : string :=
  match c with
  | None => EmptyString
  | Some (ContentText t) => t
  | Some (ContentParts ps) => join newline (omap part_text ps)
  end.
Definition wire_parts (c : option WireContent) : list WireContentPart :=
  match c with Some (ContentParts ps) => ps | _ => [] end.

(** The chat message says what the wire message said: role, text, every image
    and file byte for byte and in order, and every call. *)
Record message_agrees (w : WireMessage) (m : ChatMessage) : Prop := {
  ma_role : role_of (wm_role w) = Ok (role m);
  ma_text : content m = wire_text (wm_content w);
  ma_images : image_data_url <$> images m = omap part_url (wire_parts (wm_content w));
  ma_files : (fun f => (f_name f, file_data_url f)) <$> files m
             = omap part_file (wire_parts (wm_content w));
  ma_known : PartUnsupported ∉ wire_parts (wm_content w);
  ma_calls : (fun c => (id c, fc_name (function c), arguments (function c))) <$> tool_calls m
             = (fun c => (wtc_id c, wfc_name (wtc_function c), wfc_arguments (wtc_function c)))
                 <$> wm_tool_calls w;
  ma_rest : reasoning_content m = wm_reasoning_content w /\ name m = wm_name w /\
            refusal m = wm_refusal w /\ tool_call_id m = wm_tool_call_id w
}.

Lemma cut_data_url u mime data :
  strip_prefix "data:" u ≫= split_once ";base64," = Some (mime, data) -> data_url mime data = u.
Proof.
  intros H. apply bind_Some in H as (t & Ht & Hs).
  apply strip_prefix_Some in Ht as ->. by apply split_once_Some in Hs as ->.
Qed.

Lemma from_data_url_inv u i : from_data_url u = Ok i -> image_data_url i = u.
Proof.
  unfold from_data_url. destruct (_ ≫= _) as [[mime data]|] eqn:Hc; [|done]. intros H.
  apply bind_unit_Ok in H as [_ H]. injection H as <-. by apply cut_data_url.
Qed.

Lemma add_part_Ok acc p acc' :
  add_part acc p = Ok acc' ->
  texts acc' = texts acc ++ omap part_text [p] /\
  image_data_url <$> part_images acc'
    = (image_data_url <$> part_images acc) ++ omap part_url [p] /\
  (fun f => (f_name f, file_data_url f)) <$> part_files acc'
    = ((fun f => (f_name f, file_data_url f)) <$> part_files acc) ++ omap part_file [p] /\
  p <> PartUnsupported.
Proof.
  destruct p as [f|t u|i u|]; cbn [add_part]; intros H; [| | |done].
  - apply bind_Ok in H as ([mime data] & Hc & H). apply ok_or_Ok, cut_data_url in Hc.
    apply bind_Ok in H as (_ & _ & H). injection H as <-. cbn.
    rewrite !app_nil_r, fmap_app. cbn. unfold file_data_url. cbn. rewrite Hc. done.
  - injection H as <-. cbn. by rewrite !app_nil_r.
  - apply bind_Ok in H as (image & Hi & H). apply map_err_Ok, from_data_url_inv in Hi.
    injection H as <-. cbn. rewrite !app_nil_r, fmap_app. cbn. by rewrite Hi.
Qed.

Lemma add_parts_Ok acc l acc' :
  add_parts acc l = Ok acc' ->
  texts acc' = texts acc ++ omap part_text l /\
  image_data_url <$> part_images acc'
    = (image_data_url <$> part_images acc) ++ omap part_url l /\
  (fun f => (f_name f, file_data_url f)) <$> part_files acc'
    = ((fun f => (f_name f, file_data_url f)) <$> part_files acc) ++ omap part_file l /\
  PartUnsupported ∉ l.
Proof.
  revert acc. induction l as [|p l IH]; intros acc.
  - cbn. intros [= <-]. rewrite !app_nil_r. split_and!; try done. set_solver.
  - cbn [add_parts]. intros H. apply bind_Ok in H as (acc1 & H1 & H).
    apply add_part_Ok in H1 as (E1 & E2 & E3 & Hp). apply IH in H as (F1 & F2 & F3 & Hl).
    change (p :: l) with ([p] ++ l). rewrite !omap_app, F1, F2, F3, E1, E2, E3.
    rewrite <- !app_assoc. split_and!; try done. set_solver.
Qed.

Lemma call_into_domain_Ok c t :
  call_into_domain c = Ok t ->
  (id t, fc_name (function t), arguments (function t))
  = (wtc_id c, wfc_name (wtc_function c), wfc_arguments (wtc_function c)).
Proof. unfold call_into_domain. case_decide; [|done]. by intros [= <-]. Qed.

Lemma Forall2_fmap_eq {A B C} (f : A -> C) (g : B -> C) l k :
  Forall2 (fun x y => f x = g y) l k -> f <$> l = g <$> k.
Proof. induction 1 as [|x y l k H _ IH]; [done|]. cbn. by rewrite H, IH. Qed.

Lemma message_into_domain_Ok w m : message_into_domain w = Ok m -> message_agrees w m.
Proof.
  unfold message_into_domain. intros H. apply bind_Ok in H as (r & Hr & H).
  apply bind_Ok in H as ([[c imgs] fs] & Hc & H). apply bind_Ok in H as (calls & Hcalls & H).
  injection H as <-. apply collect_Ok in Hcalls.
  assert (Hp : c = wire_text (wm_content w) /\
    image_data_url <$> imgs = omap part_url (wire_parts (wm_content w)) /\
    (fun f => (f_name f, file_data_url f)) <$> fs = omap part_file (wire_parts (wm_content w)) /\
    PartUnsupported ∉ wire_parts (wm_content w)).
  { destruct (wm_content w) as [[t|ps]|]; cbn in *.
    - injection Hc as <- <- <-. split_and!; try done. set_solver.
    - apply bind_Ok in Hc as (acc & Ha & Hc). injection Hc as <- <- <-.
      apply add_parts_Ok in Ha as (-> & Hi & Hf & Hn). done.
    - injection Hc as <- <- <-. split_and!; try done. set_solver. }
  destruct Hp as (? & ? & ? & ?). constructor; try done. cbn.
  symmetry. apply Forall2_fmap_eq. eapply Forall2_impl; [exact Hcalls|].
  intros x y Hxy. by apply call_into_domain_Ok in Hxy.
Qed.

(** A translated request is valid and says what the client said: the model,
    the output limit, the sampling values and the stream flag are the client's;
    every message keeps its role, its text (parts joined by newlines), and every
    image, file and tool call unchanged and in order; no unsupported content
    part was dropped. *)
Theorem into_domain_faithful r m t :
  into_domain r m = Ok t ->
  let q := request t in
  request_validate q = Ok tt /\
  model q = cr_model r /\ stream q = cr_stream r /\
  temperature (sampling q) = cr_temperature r /\ top_p (sampling q) = cr_top_p r /\
  (forall n, cr_max_completion_tokens r = Some n \/ cr_max_tokens r = Some n ->
     max_output_tokens q = Some n) /\
  Forall2 message_agrees (cr_messages r) (messages q) /\
  ((fun d => fd_name (td_function d)) <$> tools q)
    = ((fun d => wfd_name (wt_function d)) <$> cr_tools r).
Proof.
  intros H. apply into_domain_Ok in H as (Hl & _ & _ & _ & Ht & Hv & _).
  unfold translate in Ht. apply bind_Ok in Ht as (e & He & Ht).
  apply bind_Ok in Ht as (ts & Hts & Ht). apply bind_Ok in Ht as (ms & Hms & Ht).
  apply bind_Ok in Ht as (c & Hc & Ht). injection Ht as Hq. cbv zeta. rewrite <- Hq.
  split; [by rewrite Hq|]. cbn. split_and!; try done.
  - unfold limits_conflict in Hl. intros n [Hn|Hn]; rewrite Hn in *; [done|].
    destruct (cr_max_completion_tokens r) as [k|]; [|done].
    rewrite negb_false_iff in Hl. f_equal. lia.
  - apply collect_Ok in Hms. eapply Forall2_impl; [exact Hms|]. apply message_into_domain_Ok.
  - apply collect_Ok in Hts. symmetry. apply Forall2_fmap_eq.
    eapply Forall2_impl; [exact Hts|]. intros x y. cbn. unfold tool_into_domain.
    case_decide; [|done]. by intros [= <-].
Qed.
End Compat.

(** ** Streaming is faithful *)

(** What an OpenAI client reads back from one chunk. *)
Definition finish_reason_of_name (n : string) : FinishReason :=
  if decide (n = "stop") then Stop
  else if decide (n = "length") then Length
  else if decide (n = "tool_calls") then ToolCalls
  else if decide (n = "content_filter") then ContentFilter
  else if decide (n = "cancelled") then FinishCancelled
  else Other n.

Definition delta_event (d : ChunkDelta) : option ProviderEvent :=
  match cd_content d, cd_reasoning_content d, cd_refusal d, cd_tool_calls d with
  | Some t, _, _, _ => Some (EvTextDelta t)
  | None, Some t, _, _ => Some (EvReasoningDelta t)
  | None, None, Some t, _ => Some (EvRefusalDelta t)
  | None, None, None, [c] =>
    Some (EvToolCallDelta
      {| d_index := ctc_index c; d_id := ctc_id c; d_kind := ctc_kind c;
         d_name := ctc_function c ≫= cfc_name; d_arguments := ctc_function c ≫= cfc_arguments |})
  | _, _, _, _ => None
  end.

Definition event_of_chunk (c : ChatChunk) : option ProviderEvent :=
  match ck_choices c, ck_usage c with
  | [ch], Some u => Some (EvUsage (prompt_tokens u) (completion_tokens u))
  | [ch], None =>
    match ch_finish_reason ch with
    | Some n => Some (EvFinished (finish_reason_of_name n))
    | None => delta_event (ch_delta ch)
    end
  | _, _ => None
  end.

(** The events a client sees, with the finish reasons the wire can name. *)
Definition displayed (include_usage : bool) (e : ProviderEvent) : bool :=
  match e with
  | EvTextDelta _ | EvReasoningDelta _ | EvRefusalDelta _ | EvToolCallDelta _ | EvFinished _ => true
  | EvUsage _ _ => include_usage
  | _ => false
  end.
Definition nameable (e : ProviderEvent) : Prop :=
  match e with
  | EvFinished r => finish_reason_of_name (finish_reason_name r) = r
  | _ => True
  end.

Lemma stream_event_roundtrip i m created e iu :
  nameable e ->
  stream_event i m created e iu ≫= event_of_chunk = if displayed iu e then Some e else None.
Proof.
  destruct e as [| | | | |t|t|t|d|a b|r]; cbn; try done.
  - destruct d as [ix di dk dn da]. by destruct dn, da.
  - by destruct iu.
  - by intros ->.
Qed.

(** Streaming loses and reorders nothing: reading a stream's chunks back
    gives its text, reasoning, refusal and tool-call deltas, its usage (when
    requested) and its finish reason, in order; security and accounting events
    never reach the wire. *)
Theorem stream_chunks_roundtrip i m created iu es :
  Forall nameable es ->
  omap event_of_chunk (omap (fun e => stream_event i m created e iu) es)
  = filter (fun e => displayed iu e = true) es.
Proof.
  induction 1 as [|e es He _ IH]; [done|]. rewrite filter_cons.
  pose proof (stream_event_roundtrip i m created e iu He) as Hr.
  rewrite (omap_cons_eq (fun e => stream_event i m created e iu)).
  destruct (stream_event i m created e iu) as [c|]; cbn in Hr.
  - rewrite omap_cons_eq, Hr, IH. by destruct (displayed iu e).
  - rewrite IH. by destruct (displayed iu e).
Qed.

Lemma stream_chunks_roundtrip_witness :
  omap event_of_chunk
    (omap (fun e => stream_event "c" "m" 0 e false)
       [EvTextDelta "a"; EvResponseVerified; EvUsage 1 2; EvFinished (Other "odd")])
  = [EvTextDelta "a"; EvFinished (Other "odd")].
Proof.
  apply (stream_chunks_roundtrip "c" "m" 0 false
    [EvTextDelta "a"; EvResponseVerified; EvUsage 1 2; EvFinished (Other "odd")]).
  repeat constructor.
Defined.

(** ** Examples *)

Definition text_message (r t : string) : WireMessage :=
  {| wm_role := r; wm_content := Some (ContentParts [PartText t [] ; PartText t []]);
     wm_reasoning_content := None; wm_name := None; wm_refusal := None;
     wm_tool_call_id := None; wm_tool_calls := []; wm_unsupported := [] |}.

Definition wire_sample (unsupported : Map) : ChatCompletionRequest :=
  {| cr_model := "cherry"; cr_messages := [text_message "user" "hi"]; cr_tools := [];
     cr_tool_choice := None; cr_parallel_tool_calls := None; cr_reasoning_effort := Some "low";
     cr_thinking_mode := ProviderDefault; cr_max_tokens := Some 7;
     cr_max_completion_tokens := None; cr_temperature := None; cr_top_p := None;
     cr_response_format := None; cr_stream := false; cr_stream_options := None;
     cr_n := Some 1; cr_unsupported := unsupported |}.

Definition translated_sample (ignored : list string) : TranslatedRequest :=
  {| request :=
       {| model := "cherry"; request_id := None;
          messages := [chat_text User ("hi" +:+ newline +:+ "hi")]; tools := [];
          tool_choice := ChoiceAuto; parallel_tool_calls := None; reasoning_effort := Low;
          thinking_mode := ProviderDefault; max_output_tokens := Some 7;
          sampling := {| temperature := None; top_p := None |}; response_format := FormatText;
          stream := false |};
     ignored_parameters := ignored |}.

Definition unknown_sample : Map := [("seed", VNull); ("se!ed", VNull); ("user", VNull)].

Lemma empty_maps (l : list Map) :
  forallb (fun m => match m with [] => true | _ => false end) l = true ->
  Forall (eq []) l /\ Forall utf8_keys l.
Proof.
  induction l as [|[|] l IH]; cbn; [by repeat constructor| |done]. intros H.
  destruct (IH H). by split; constructor; [|done|constructor|].
Qed.

Lemma ignored_parameters_exact_witness :
  StronglySorted str_le (ignored_parameters (translated_sample ["seed"])).
Proof.
  apply (@ignored_parameters_exact plain_base64 plain_json (wire_sample unknown_sample) Lenient).
  by vm_compute.
Defined.

Lemma strict_refuses_unknown_witness :
  @into_domain plain_base64 plain_json (wire_sample []) Strict = Ok (translated_sample []).
Proof.
  apply (@strict_refuses_unknown plain_base64 plain_json (wire_sample [])).
  - apply empty_maps. by vm_compute.
  - split; [by vm_compute|]. apply empty_maps. by vm_compute.
Defined.

Lemma into_domain_faithful_witness :
  Forall2 message_agrees [text_message "user" "hi"] (messages (request (translated_sample []))).
Proof.
  apply (@into_domain_faithful plain_base64 plain_json (wire_sample []) Lenient). by vm_compute.
Defined.
