(* ===== verification/Paths.v ===== *)
(** [std::path] as the policy uses it, and the file system behind it.

    A [PathBuf] is its component sequence, which is what Rust compares, prefixes
    and walks ([Path::components] drops repeated separators and inner ["."]).
    The file system itself is a parameter: the class [FileSystem] lists the three
    queries the source makes, [CanonicalFileSystem] their documented behaviour. *)

From stdpp Require Import base strings list.
From Stdlib Require Import ZArith NArith Lia ZifyBool ZifyN ZifyNat.
From S2P Require Import Prelude RustStr.

Local Open Scope Z_scope.

Inductive component : Type := Normal (s : string) | ParentDir | CurDir.
Record Path : Type := { absolute : bool; comps : list component }.

#[export] Instance component_eq_dec : EqDecision component.
Proof. solve_decision. Defined.
#[export] Instance Path_eq_dec : EqDecision Path.
Proof. solve_decision. Defined.

(** The order of [PathBuf], component by component, as one of bytes: names end
    below every byte. *)
Definition path_rank (p : Path) : list N :=
  (if absolute p then [1; 0]%N else [])
  ++ mjoin ((fun c => match c with
                      | CurDir => [2; 0] | ParentDir => [3; 0]
                      | Normal s => 4 :: (N.succ <$> bytes s) ++ [0]
                      end%N) <$> comps p).
Definition path_leb (p q : Path) : bool := bytes_leb (path_rank p) (path_rank q).

(** [Path::file_name], [Path::parent], [Path::join], [Path::starts_with]. *)
Definition file_name (p : Path) : option string :=
  match last (comps p) with Some (Normal s) => Some s | _ => None end.
Definition parent (p : Path) : option Path :=
  match comps p with
  | [] => None
  | _ :: _ => Some {| absolute := absolute p; comps := removelast (comps p) |}
  end.
Definition path_join (p q : Path) : Path :=
  if absolute q then q
  else {| absolute := absolute p; comps := comps p ++ filter (fun c => c <> CurDir) (comps q) |}.
Definition path_push (p : Path) (name : string) : Path :=
  {| absolute := absolute p; comps := comps p ++ [Normal name] |}.

Fixpoint comps_prefix (l k : list component) : bool :=
  match l, k with
  | [], _ => true
  | x :: l, y :: k => bool_decide (x = y) && comps_prefix l k
  | _ :: _, [] => false
  end.
(** [p.starts_with(base)]. *)
Definition path_starts_with (p base : Path) : bool :=
  eqb (absolute p) (absolute base) && comps_prefix (comps base) (comps p).

Lemma comps_prefix_spec l k : comps_prefix l k = true <-> l `prefix_of` k.
Proof.
  revert k. induction l as [|x l IH]; intros k; simpl.
  - split; [intros _; apply prefix_nil|done].
  - destruct k as [|y k]; [split; [done|]; intros H; by apply prefix_nil_not in H|].
    rewrite andb_true_iff, bool_decide_eq_true, IH. split.
    + intros [-> H]. by apply prefix_cons.
    + intros H. split; [by eapply prefix_cons_inv_1|by eapply prefix_cons_inv_2].
Qed.

Lemma path_starts_with_spec p base :
  path_starts_with p base = true <->
  absolute p = absolute base /\ exists rest, comps p = comps base ++ rest.
Proof.
  unfold path_starts_with. rewrite andb_true_iff, comps_prefix_spec, eqb_true_iff. done.
Qed.

(** ** Text *)

Definition component_name (c : component) : string :=
  match c with Normal s => s | ParentDir => ".." | CurDir => "." end.
(** [Path::display] and [to_string_lossy] of a UTF-8 path. *)
Definition path_display (p : Path) : string :=
  (if absolute p then "/" else EmptyString) +:+ join "/" (component_name <$> comps p).

Definition parse_component (s : string) : option component :=
  if is_empty s then None
  else if decide (s = ".") then None
  else if decide (s = "..") then Some ParentDir
  else Some (Normal s).
(** [PathBuf::from] of a string. *)
Definition path_of_string (s : string) : Path :=
  let l := split_byte 47 s in
  if starts_with "/" s then {| absolute := true; comps := omap parse_component l |}
  else {| absolute := false;
          comps := match l with
                   | "." :: l => CurDir :: omap parse_component l
                   | _ => omap parse_component l
                   end |}.

(** ** Normalization against the file system *)

Class FileSystem : Type := {
  exists_ : Path -> bool;
  canonicalize : Path -> option Path;
  is_dir : Path -> bool
}.

Section Normalize.
Context `{FS : FileSystem}.

(** [while !ancestor.exists()]: walks up the reversed components, collecting the
    missing names. *)
Fixpoint climb (abs : bool) (rev_comps : list component) (missing : list string)
    : option (Path * list string) :=
  let ancestor := {| absolute := abs; comps := reverse rev_comps |} in
  if exists_ ancestor then Some (ancestor, missing) else
  match rev_comps with
  | [] => None
  | c :: rest =>
    climb abs rest (missing ++ match c with Normal s => [s] | _ => [] end)
  end.

Definition normalize_for_policy (p : Path) : Path :=
  if exists_ p then default p (canonicalize p) else
  match climb (absolute p) (reverse (comps p)) [] with
  | None => p
  | Some (ancestor, missing) =>
    foldl path_push (default ancestor (canonicalize ancestor)) (reverse missing)
  end.

(** ** Normal form *)

Definition is_normal (c : component) : Prop := match c with Normal _ => True | _ => False end.
(** An absolute path without ["."] and [".."]. *)
Definition clean (p : Path) : Prop := absolute p = true /\ Forall is_normal (comps p).

(** Documented behaviour of the file system: the root exists, and an existing
    path has an absolute canonical form "with all intermediate components
    normalized". *)
Record CanonicalFileSystem : Prop := {
  root_exists : exists_ {| absolute := true; comps := [] |} = true;
  canonical_clean p : exists_ p = true -> exists c, canonicalize p = Some c /\ clean c
}.

Lemma path_push_all p l : foldl path_push p l =
  {| absolute := absolute p; comps := comps p ++ (Normal <$> l) |}.
Proof.
  revert p. induction l as [|s l IH]; intros p; [destruct p; cbn; by rewrite app_nil_r|].
  cbn. rewrite IH. unfold path_push. cbn. by rewrite <- app_assoc.
Qed.

Lemma climb_exists abs rc missing anc m :
  climb abs rc missing = Some (anc, m) -> exists_ anc = true.
Proof.
  revert missing. induction rc as [|c rc IH]; intros missing; cbn [climb];
    case_match; try done; try (by intros [= <- <-]). apply IH.
Qed.

Lemma climb_total (HFS : CanonicalFileSystem) rc missing : is_Some (climb true rc missing).
Proof.
  revert missing. induction rc as [|c rc IH]; intros missing; cbn [climb].
  - change (reverse []) with (@nil component). rewrite (root_exists HFS). eauto.
  - case_match; [eauto|apply IH].
Qed.

(** Whatever the effect names, a normalized absolute path is clean: no [".."]
    is left for a prefix test to overlook. *)
Lemma normalize_for_policy_clean (HFS : CanonicalFileSystem) p :
  absolute p = true -> clean (normalize_for_policy p).
Proof.
  intros Ha. unfold normalize_for_policy. destruct (exists_ p) eqn:He.
  - destruct (canonical_clean HFS p He) as (c & -> & Hc). done.
  - rewrite Ha. destruct (climb_total HFS (reverse (comps p)) []) as [[anc m] Hcl].
    rewrite Hcl. apply climb_exists in Hcl.
    destruct (canonical_clean HFS anc Hcl) as (c & -> & Hc & Hn). cbn.
    rewrite path_push_all. split; [done|]. cbn. apply Forall_app_2; [done|].
    apply Forall_fmap, Forall_true. done.
Qed.
End Normalize.

Arguments CanonicalFileSystem : clear implicits.

(** A path below a clean directory stays below it: its components extend the
    directory's, all of them plain names. *)
Lemma clean_below p root :
  clean p -> path_starts_with p root = true ->
  exists names, comps p = comps root ++ (Normal <$> names).
Proof.
  intros [Ha Hn] Hs. apply path_starts_with_spec in Hs as (_ & rest & Hrest).
  rewrite Hrest in Hn |- *. apply Forall_app in Hn as [_ Hn]. clear Hrest.
  induction rest as [|c rest IH]; [by exists []|].
  apply Forall_cons in Hn as [Hc Hn]. destruct (IH Hn) as [names Hnames].
  apply app_inv_head in Hnames as ->. destruct c as [s| |]; try done. by exists (s :: names).
Qed.

(** ** Printing and parsing *)

(** A name that is one component. *)
Definition plain_name (s : string) : Prop :=
  s <> EmptyString /\ s <> "." /\ s <> ".." /\ Forall (fun b => b <> 47%N) (bytes s).

Lemma split_byte_plain b s :
  Forall (fun x => x <> b) (bytes s) -> split_byte b s = [s].
Proof.
  induction s as [|a s IH]; [done|]. cbn [bytes split_byte]. intros H.
  apply Forall_cons in H as [Ha Hs].
  rewrite (IH Hs). by destruct (N.eqb_spec (byte_val a) b).
Qed.

Lemma split_byte_app b s a t :
  Forall (fun x => x <> b) (bytes s) -> byte_val a = b ->
  split_byte b (s +:+ String a t) = s :: split_byte b t.
Proof.
  intros Hs Ha. induction s as [|c s IH].
  - change (split_byte b (String a t) = EmptyString :: split_byte b t). cbn [split_byte].
    by rewrite Ha, N.eqb_refl.
  - change (String c s +:+ String a t) with (String c (s +:+ String a t)).
    cbn [bytes split_byte] in *. apply Forall_cons in Hs as [Hc Hs].
    destruct (N.eqb_spec (byte_val c) b); [done|]. by rewrite (IH Hs).
Qed.

Lemma split_join_slash l :
  l <> [] -> Forall plain_name l -> split_byte 47 (join "/" l) = l.
Proof.
  intros Hne Hl. induction l as [|s l IH]; [done|].
  apply Forall_cons in Hl as [(_ & _ & _ & Hs) Hl]. destruct l as [|t l].
  - cbn. by apply split_byte_plain.
  - change (join "/" (s :: t :: l)) with (s +:+ String (byte_of 47) (join "/" (t :: l))).
    rewrite split_byte_app by (done || by rewrite byte_val_of). by rewrite IH.
Qed.

Lemma parse_plain_name s : plain_name s -> parse_component s = Some (Normal s).
Proof.
  intros (He & H1 & H2 & _). unfold parse_component.
  destruct (is_empty s) eqn:Hs; [by apply is_empty_true in Hs|].
  by rewrite !decide_False by done.
Qed.

(** A clean path of plain names survives printing. *)
Lemma path_of_display names :
  Forall plain_name names ->
  let p := {| absolute := true; comps := Normal <$> names |} in
  path_of_string (path_display p) = p.
Proof.
  intros Hn p. unfold path_display, path_of_string. cbn [absolute comps p].
  assert (E : component_name <$> (Normal <$> names) = names).
  { rewrite <- list_fmap_compose. apply list_fmap_id. }
  rewrite E. change ("/" +:+ join "/" names) with (String (byte_of 47) (join "/" names)).
  cbn [starts_with strip_prefix]. unfold p.
  change (split_byte 47 (String (byte_of 47) (join "/" names)))
    with (EmptyString :: split_byte 47 (join "/" names)).
  replace (omap parse_component (EmptyString :: split_byte 47 (join "/" names)))
    with (Normal <$> names); [done|].
  rewrite omap_cons_eq. cbn [parse_component is_empty].
  destruct (decide (names = [])) as [->|Hne]; [done|].
  rewrite split_join_slash by done. clear Hne E p.
  induction Hn as [|s l Hs _ IH]; [done|]. rewrite omap_cons_eq, parse_plain_name by done.
  cbn. by f_equal.
Qed.

(** ** A concrete file system for the examples: every path exists and its
    canonical form drops ["."] and [".."]. *)

Definition plain_fs : FileSystem :=
  {| exists_ := fun _ => true;
     canonicalize := fun p =>
       Some {| absolute := true;
               comps := omap (fun c => match c with Normal s => Some (Normal s) | _ => None end)
                          (comps p) |};
     is_dir := fun _ => false |}.

Lemma plain_fs_canonical : CanonicalFileSystem plain_fs.
Proof.
  split; [done|]. intros p _. eexists. split; [done|]. split; [done|]. cbn.
  apply Forall_forall. intros c Hc. apply list_elem_of_omap in Hc as (c' & _ & Hc).
  destruct c'; by simplify_eq.
Qed.
