(* ===== verification/AppError.v ===== *)
(** The application's error type (apps/axiomcli/src/error.rs) and the [url]
    crate's interface.

    [url::Url] is third-party code: the class [UrlLib] lists the operations the
    program calls. *)

From stdpp Require Import base strings list.
From Stdlib Require Import ZArith.
From S2P Require Import Prelude RustStr Paths Inference.

Local Open Scope Z_scope.

(** Errors of git, I/O and JSON are carried by their own display text. *)
Inductive AxiomError : Type :=
| ConfigError (s : string)
| InvalidTransition (s : string)
| SessionNotFound (s : string)
| PermissionDenied (s : string)
| ApprovalDeclined
| ApprovalRequired (s : string)
| OutsideWorkspace (p : Path)
| ProviderError (s : string)
| SecureProviderError (kind : ProviderFailureKind) (code message : string)
| ToolError (s : string)
| GitError (s : string)
| StorageError (s : string)
| ProtocolError (s : string)
| CancelledError
| IoError (s : string)
| JsonError (s : string).

Definition error_display (e : AxiomError) : string :=
  match e with
  | ConfigError s => "invalid configuration: " +:+ s
  | InvalidTransition s => "invalid state transition: " +:+ s
  | SessionNotFound s => "session not found: " +:+ s
  | PermissionDenied s => "permission denied: " +:+ s
  | ApprovalDeclined => "you declined this action; stopped without running it"
  | ApprovalRequired s => "operation requires approval: " +:+ s
  | OutsideWorkspace p => "path is outside the workspace: " +:+ path_display p
  | ProviderError s => "provider error: " +:+ s
  | SecureProviderError _ _ m => m
  | ToolError s => "tool error: " +:+ s
  | GitError s => "git error: " +:+ s
  | StorageError s => "storage error: " +:+ s
  | ProtocolError s => "protocol error: " +:+ s
  | CancelledError => "operation cancelled"
  | IoError s => s
  | JsonError s => s
  end.

Class UrlLib : Type := {
  Url : Type;
  url_parse : string -> result string Url;
  scheme : Url -> string;
  username : Url -> string;
  password : Url -> option string;
  host_str : Url -> option string;
  port : Url -> option Z;
  without_fragment : Url -> Url;
  url_to_string : Url -> string
}.

(** ** A concrete URL library for the examples *)

Definition plain_url : UrlLib :=
  {| Url := string;
     url_parse := fun s => if starts_with "https://" s then Ok s else Err "relative URL";
     scheme := fun _ => "https";
     username := fun _ => EmptyString;
     password := fun _ => None;
     host_str := fun u => Some u;
     port := fun _ => None;
     without_fragment := fun u => u;
     url_to_string := fun u => u |}.
