(* ===== verification/Policy.v ===== *)
(** The permission policy (apps/axiomcli/src/policy.rs): effects and their
    normalization, rules, session grants, and the decision a [PolicyEngine]
    takes for an effect under a permission profile.

    [Uuid::new_v4] is an argument of [approval_request].  The engine's grants
    are shared behind a lock: [apply_approval] is a state transition, [evaluate]
    reads the state. *)

From stdpp Require Import base strings list sets sorting.
From Stdlib Require Import ZArith NArith Lia ZifyBool ZifyN ZifyNat.
From S2P Require Import Prelude RustStr Accounting Paths AppError.

Local Open Scope Z_scope.

(** ** Effects *)

Inductive PermissionProfile : Type := ProfileNone | ProfileWeb | Observe | Confirm | FullAccess.
Inductive ToolAccess : Type := Interaction | Web | Image | Read | Write.

#[export] Instance PermissionProfile_eq_dec : EqDecision PermissionProfile.
Proof. solve_decision. Defined.
#[export] Instance ToolAccess_eq_dec : EqDecision ToolAccess.
Proof. solve_decision. Defined.

Definition is_exposed_to (a : ToolAccess) (p : PermissionProfile) : bool :=
  match p with
  | ProfileNone => false
  | ProfileWeb => match a with Web | Image => true | _ => false end
  | Observe => match a with Read | Interaction | Image => true | _ => false end
  | Confirm | FullAccess => true
  end.

Inductive Effect : Type :=
| ToolUse (tool_name : string) (access : ToolAccess)
| FileRead (path : Path)
| FileWrite (path : Path)
| FileDelete (path : Path)
| Process (program : string) (args : list string) (shell : bool) (cwd : Path)
    (env : list (string * string))
| RepositoryMutation (operation : string) (cwd : Path)
| Network (url : string)
| Mcp (server tool : string) (side_effecting : bool)
| ScopeChange (scope : string)
| CredentialAccess (service : string)
| PlanWrite (path : Path).

Inductive EffectClass : Type :=
| ClToolUse | ClFileRead | ClFileWrite | ClFileDelete | ClProcess | ClRepositoryMutation
| ClNetwork | ClMcp | ClScopeChange | ClCredentialAccess | ClPlanWrite.

#[export] Instance Effect_eq_dec : EqDecision Effect.
Proof. solve_decision. Defined.
#[export] Instance EffectClass_eq_dec : EqDecision EffectClass.
Proof. solve_decision. Defined.

Definition class_of (e : Effect) : EffectClass :=
  match e with
  | ToolUse _ _ => ClToolUse | FileRead _ => ClFileRead | FileWrite _ => ClFileWrite
  | FileDelete _ => ClFileDelete | Process _ _ _ _ _ => ClProcess
  | RepositoryMutation _ _ => ClRepositoryMutation | Network _ => ClNetwork
  | Mcp _ _ _ => ClMcp | ScopeChange _ => ClScopeChange
  | CredentialAccess _ => ClCredentialAccess | PlanWrite _ => ClPlanWrite
  end.

Definition class_debug (c : EffectClass) : string :=
  match c with
  | ClToolUse => "ToolUse" | ClFileRead => "FileRead" | ClFileWrite => "FileWrite"
  | ClFileDelete => "FileDelete" | ClProcess => "Process"
  | ClRepositoryMutation => "RepositoryMutation" | ClNetwork => "Network" | ClMcp => "Mcp"
  | ClScopeChange => "ScopeChange" | ClCredentialAccess => "CredentialAccess"
  | ClPlanWrite => "PlanWrite"
  end.

Definition describe_effect (e : Effect) : string :=
  match e with
  | ToolUse n _ => "use tool " +:+ n
  | FileRead p => "read " +:+ path_display p
  | FileWrite p => "write " +:+ path_display p
  | FileDelete p => "delete " +:+ path_display p
  | Process program args shell cwd env =>
    "run " +:+ (if shell then "shell " else EmptyString) +:+ program
    +:+ (if decide (args = []) then EmptyString else " " +:+ join " " args)
    +:+ " in " +:+ path_display cwd
    +:+ (if decide (env = []) then EmptyString
         else " with environment " +:+ join "," env.*1)
  | Network u => "connect to " +:+ u
  | RepositoryMutation op cwd =>
    "mutate repository with `" +:+ op +:+ "` in " +:+ path_display cwd
  | Mcp server tool side =>
    "call MCP " +:+ server +:+ "/" +:+ tool +:+ " ("
    +:+ (if side then "side effects declared" else "read-only declared") +:+ ")"
  | ScopeChange s => "expand scope: " +:+ s
  | CredentialAccess s => "access credentials for " +:+ s
  | PlanWrite p => "update plan artifact " +:+ path_display p
  end.

(** ** Rules, decisions, approvals *)

Inductive RuleAction : Type := ActionAsk | ActionDeny.
#[export] Instance RuleAction_eq_dec : EqDecision RuleAction.
Proof. solve_decision. Defined.

Record PolicyRule : Type := {
  action : RuleAction;
  rule_effect : option EffectClass;
  resource_prefix : option string;
  reason : option string
}.

Inductive DecisionKind : Type := Allow | Ask | Deny.
#[export] Instance DecisionKind_eq_dec : EqDecision DecisionKind.
Proof. solve_decision. Defined.

Record PolicyDecision : Type := {
  kind : DecisionKind;
  explanation : string;
  normalized_effect : Effect;
  session_grant_allowed : bool
}.
Definition decision (k : DecisionKind) (ex : string) (e : Effect) (g : bool) : PolicyDecision :=
  {| kind := k; explanation := ex; normalized_effect := e; session_grant_allowed := g |}.

Inductive ApprovalChoice : Type :=
| ChooseDeny | AllowOnce | AllowExactSession | AllowPrefixSession.

Record ApprovalRequest : Type := {
  request_id : string;
  ar_explanation : string;
  ar_effect : Effect;
  allow_session_grants : bool;
  suggested_prefix_scope : option string
}.

Inductive ScopedGrant : Type :=
| GrantExact (e : Effect)
| GrantFilePrefix (class : EffectClass) (path : Path)
| GrantNetworkOrigin (origin : string)
| GrantMcpServer (server : string) (side_effecting : bool).

Record PolicyEngine : Type := {
  roots : list Path;
  rules : list PolicyRule;
  grants : list ScopedGrant
}.

(** ** String tests *)

Definition has_nul (s : string) : bool := existsb (N.eqb 0) (bytes s).

Definition is_allowed_child_env_key (key : string) : bool :=
  bool_decide (key ∈ ["CI"; "RUST_BACKTRACE"; "RUST_LOG"; "NODE_ENV"; "CARGO_TERM_COLOR";
                      "NO_COLOR"]).

(** [rsplit(['/', '\\']).next()]: what follows the last separator. *)
Definition last_segment (s : string) : string :=
  let is_sep := fun b => (b =? 47)%N || (b =? 92)%N in
  of_bytes (foldl (fun acc b => if is_sep b then [] else acc ++ [b]) [] (bytes s)).

(** [str::strip_suffix]. *)
Definition strip_suffix (suffix s : string) : option string :=
  if ends_with suffix s
  then Some (of_bytes (take (String.length s - String.length suffix) (bytes s))) else None.

(** Quotes, backquote, ampersand, parentheses, semicolon and bar. *)
Definition is_quoting (c : N) : bool :=
  bool_decide (c ∈ [39; 34; 96; 38; 40; 41; 59; 124]%N).

Definition normalized_executable_name (program : string) : string :=
  let trimmed := trim_matches is_quoting (trim program) in
  let lowercase := to_ascii_lowercase (last_segment trimmed) in
  default lowercase (head (omap (fun suffix => strip_suffix suffix lowercase)
                            [".exe"; ".com"; ".cmd"; ".bat"])).

Definition invokes_shell (program : string) (args : list string) : bool :=
  if decide (program ∈ ["sh"; "bash"; "zsh"; "fish"; "dash"]) then
    existsb (fun a => let a := to_ascii_lowercase a in starts_with "-" a && contains "c" a)
      (take 2 args)
  else if decide (program = "cmd") then
    existsb (fun a => bool_decide (to_ascii_lowercase a ∈ ["/c"; "/k"])) (take 2 args)
  else if decide (program ∈ ["powershell"; "pwsh"]) then
    existsb (fun a => bool_decide (to_ascii_lowercase a ∈
               ["-c"; "-command"; "-ec"; "-encodedcommand"; "-f"; "-file"])) args
  else false.

Definition windows_script_program (program : string) : bool :=
  let basename := to_ascii_lowercase (last_segment (trim program)) in
  existsb (fun ext => ends_with ext basename) [".cmd"; ".bat"; ".ps1"].

(** [env.sort()]; [env.dedup_by(|l, r| l.0 == r.0)]. *)
Definition env_le (x y : string * string) : Prop :=
  if decide (x.1 = y.1) then str_le x.2 y.2 else str_le x.1 y.1.
#[export] Instance env_le_dec : RelDecision env_le.
Proof. intros x y. unfold env_le. destruct (decide (x.1 = y.1)); apply _. Defined.

Fixpoint dedup_by_key (last_key : option string) (l : list (string * string))
    : list (string * string) :=
  match l with
  | [] => []
  | kv :: l =>
    if decide (last_key = Some kv.1) then dedup_by_key last_key l
    else kv :: dedup_by_key (Some kv.1) l
  end.
Definition normalize_env (env : list (string * string)) : list (string * string) :=
  dedup_by_key None (merge_sort env_le env).

Definition effect_path (e : Effect) : option Path :=
  match e with
  | FileRead p | FileWrite p | FileDelete p | PlanWrite p => Some p
  | _ => None
  end.

Definition effect_matches_prefix (e : Effect) (prefix : string) : bool :=
  match e with
  | ToolUse n _ => starts_with prefix n
  | FileRead p | FileWrite p | FileDelete p | PlanWrite p =>
    path_starts_with p (path_of_string prefix)
  | Process program _ _ _ _ => starts_with prefix program
  | RepositoryMutation op _ => starts_with prefix op
  | Network u => starts_with prefix u
  | Mcp server tool _ => starts_with prefix (server +:+ "/" +:+ tool)
  | ScopeChange s => starts_with prefix s
  | CredentialAccess s => starts_with prefix s
  end.

Definition rule_matches (r : PolicyRule) (e : Effect) : bool :=
  match rule_effect r with
  | Some c => bool_decide (c = class_of e)
  | None => true
  end
  && match resource_prefix r with Some p => effect_matches_prefix e p | None => true end.

Definition rule_validate (r : PolicyRule) : result AxiomError unit :=
  _ ← reject_if match resource_prefix r with
                | Some v => is_empty v || has_nul v | None => false end
        (ConfigError "policy rule resource_prefix must be non-empty and contain no NUL");
  _ ← reject_if match reason r with Some v => is_blank v || has_nul v | None => false end
        (ConfigError "policy rule reason must be non-empty and contain no NUL");
  reject_if ((if resource_prefix r then true else false)
             && negb (if rule_effect r then true else false))
    (ConfigError "policy rules with resource_prefix must select an effect class").

(** ** Profiles *)

Definition profile_default (p : PermissionProfile) (e : Effect) : DecisionKind * string * bool :=
  match p, e with
  | ProfileNone, _ => (Deny, "tools are disabled", false)
  | _, ToolUse _ Image =>
    (Allow, "image tool requires a vision-capable model and the native image service", false)
  | _, ToolUse _ Interaction => (Allow, "the user decides whether to answer", false)
  | ProfileWeb, ToolUse _ Web | ProfileWeb, Network _ =>
    (Allow, "allowed by web-only profile", false)
  | ProfileWeb, _ => (Deny, "web profile permits only web tools", false)
  | Observe, ToolUse _ Read | Observe, FileRead _ | Observe, Mcp _ _ false =>
    (Allow, "allowed by read-only profile", false)
  | Observe, _ => (Deny, "observe profile permits only read tools", false)
  | Confirm, ToolUse _ _ => (Ask, "confirm profile requires approval for this tool", false)
  | Confirm, _ => (Allow, "tool invocation was confirmation-gated", false)
  | FullAccess, _ => (Allow, "allowed by full-access profile", false)
  end.

Definition require_allowed (d : PolicyDecision) : result AxiomError unit :=
  match kind d with
  | Allow => Ok tt
  | Ask => Err (ApprovalRequired (explanation d))
  | Deny => Err (PermissionDenied (explanation d))
  end.

(** ** The engine *)

Definition privileged_programs : list string :=
  ["sudo"; "doas"; "su"; "mount"; "umount"; "mkfs"; "shutdown"; "reboot"; "poweroff"].

Definition plans_suffix : Path := path_of_string ".axiomcli/plans".

Definition under_roots (e : PolicyEngine) (p : Path) : bool :=
  existsb (fun root => path_starts_with p root) (roots e).

Definition hard_denial (e : PolicyEngine) (eff : Effect) : option string :=
  match eff with
  | FileRead p | FileWrite p | FileDelete p =>
    if under_roots e p then None
    else Some (path_display p +:+ " is outside authorized workspace roots")
  | PlanWrite p =>
    if existsb (fun root => path_starts_with p (path_join root plans_suffix)) (roots e) then None
    else Some (path_display p +:+ " is outside the dedicated plan artifact directory")
  | Process program _ _ cwd _ =>
    if negb (under_roots e cwd)
    then Some ("process cwd " +:+ path_display cwd +:+ " is outside authorized workspace roots")
    else if decide (normalized_executable_name program ∈ privileged_programs)
    then Some ("privileged/destructive program `" +:+ program +:+ "` is hard-denied")
    else None
  | RepositoryMutation _ cwd =>
    if negb (under_roots e cwd)
    then Some ("repository mutation cwd " +:+ path_display cwd
               +:+ " is outside authorized workspace roots")
    else None
  | CredentialAccess _ =>
    Some "credential/keychain access is unavailable in this early release and hard-denied"
  | _ => None
  end.

Section Engine.
Context `{FS : FileSystem} `{U : UrlLib}.

Definition root_path : Path := {| absolute := true; comps := [] |}.

(** [self.roots[0]]: the engine always has a root ([for_workspace_with_rules]). *)
Definition first_root (e : PolicyEngine) : Path := default root_path (head (roots e)).

Definition normalize_path (e : PolicyEngine) (p : Path) : Path :=
  normalize_for_policy (if absolute p then p else path_join (first_root e) p).

Definition named (s message : string) : result AxiomError string :=
  let s := trim s in
  if is_empty s || has_nul s then Err (PermissionDenied message) else Ok s.

Definition network_ok (u : Url) : bool :=
  bool_decide (scheme u ∈ ["http"; "https"]) && is_empty (username u)
  && negb (if password u then true else false) && (if host_str u then true else false).

Definition normalize (e : PolicyEngine) (eff : Effect) : result AxiomError Effect :=
  match eff with
  | ToolUse n access =>
    n ← named n "tool name must be non-empty and NUL-free"; Ok (ToolUse n access)
  | FileRead p => Ok (FileRead (normalize_path e p))
  | FileWrite p => Ok (FileWrite (normalize_path e p))
  | FileDelete p => Ok (FileDelete (normalize_path e p))
  | Process program args shell cwd env =>
    let program := trim program in
    if is_empty program || has_nul program || existsb has_nul args
       || existsb (fun kv => negb (is_allowed_child_env_key kv.1) || has_nul kv.1 || has_nul kv.2)
            env
    then Err (PermissionDenied
                "process program/arguments/environment are invalid or not allowlisted")
    else
      let basename := normalized_executable_name program in
      Ok (Process program args
            (shell || windows_script_program program || invokes_shell basename args)
            (normalize_path e cwd) (normalize_env env))
  | RepositoryMutation op cwd =>
    op ← named op "repository mutation must have a non-empty/NUL-free operation";
    Ok (RepositoryMutation op (normalize_path e cwd))
  | Network url =>
    match url_parse url with
    | Err m => Err (PermissionDenied ("invalid network destination: " +:+ m))
    | Ok u =>
      if network_ok u then Ok (Network (url_to_string (without_fragment u)))
      else Err (PermissionDenied
                  "network destinations require an http(s) URL without embedded credentials")
    end
  | Mcp server tool side =>
    let server := trim server in
    let tool := trim tool in
    if is_empty server || is_empty tool || has_nul server || has_nul tool
    then Err (PermissionDenied "MCP server and tool names must be non-empty/NUL-free")
    else Ok (Mcp server tool side)
  | ScopeChange s =>
    s ← named s "scope changes must have a non-empty/NUL-free identity"; Ok (ScopeChange s)
  | CredentialAccess s =>
    s ← named s "credential service must be non-empty and NUL-free"; Ok (CredentialAccess s)
  | PlanWrite p => Ok (PlanWrite (normalize_path e p))
  end.

Definition network_origin (url : string) : option string :=
  match url_parse url with
  | Err _ => None
  | Ok u =>
    host ← host_str u;
    Some (scheme u +:+ "://" +:+ host
          +:+ match port u with Some p => ":" +:+ Accounting.to_decimal p | None => EmptyString end)
  end.

Definition grant_matches (g : ScopedGrant) (e : Effect) : bool :=
  match g, e with
  | GrantExact granted, requested => bool_decide (granted = requested)
  | GrantFilePrefix class path, requested =>
    bool_decide (class = class_of requested)
    && match effect_path requested with
       | Some p => path_starts_with p path | None => false
       end
  | GrantNetworkOrigin origin, Network url => bool_decide (network_origin url = Some origin)
  | GrantMcpServer server side, Mcp server' _ side' =>
    bool_decide (server = server') && eqb side side'
  | _, _ => false
  end.

Definition suggested_prefix (e : Effect) : option ScopedGrant :=
  match e with
  | FileRead p | FileWrite p | FileDelete p =>
    if is_dir p then Some (GrantFilePrefix (class_of e) p)
    else GrantFilePrefix (class_of e) <$> parent p
  | Network url => GrantNetworkOrigin <$> network_origin url
  | Mcp server _ side => Some (GrantMcpServer server side)
  | _ => None
  end.

Definition describe_grant (g : ScopedGrant) : string :=
  match g with
  | GrantExact e => "exactly " +:+ describe_effect e
  | GrantFilePrefix class path => class_debug class +:+ " within " +:+ path_display path
  | GrantNetworkOrigin origin => "network origin " +:+ origin
  | GrantMcpServer server side =>
    "MCP server " +:+ server +:+ " ("
    +:+ (if side then "side-effecting tools" else "read-only tools") +:+ ")"
  end.

Definition find_rule (a : RuleAction) (e : PolicyEngine) (eff : Effect) : option PolicyRule :=
  head (filter (fun r => action r = a)
          (filter (fun r => rule_matches r eff = true) (rules e))).

Definition restricted (p : PermissionProfile) : bool :=
  match p with ProfileNone | ProfileWeb | Observe => true | _ => false end.

(** [evaluate_with_defaults] after the effect is normalized. *)
Definition decide_normalized (e : PolicyEngine) (p : PermissionProfile) (n : Effect)
    (desktop_mcp : bool) : PolicyDecision :=
  match hard_denial e n with
  | Some why => decision Deny why n false
  | None =>
  match find_rule ActionDeny e n with
  | Some r => decision Deny (default "denied by a configured policy rule" (reason r)) n false
  | None =>
    let '(dk, dex, dg) := profile_default p n in
    if restricted p && bool_decide (dk = Deny) then decision dk dex n dg else
    match find_rule ActionAsk e n with
    | Some r =>
      decision Ask (default "approval required by a configured policy rule" (reason r)) n false
    | None =>
      if existsb (fun g => grant_matches g n) (grants e)
      then decision Allow "allowed by a narrow session grant" n true
      else if desktop_mcp then decision Ask "MCP requires approval" n true
      else decision dk dex n dg
    end
  end
  end.

Definition evaluate_with_defaults (e : PolicyEngine) (p : PermissionProfile) (eff : Effect)
    (desktop_mcp : bool) : PolicyDecision :=
  match normalize e eff with
  | Err error => decision Deny (error_display error) eff false
  | Ok n => decide_normalized e p n desktop_mcp
  end.

Definition evaluate (e : PolicyEngine) (p : PermissionProfile) (eff : Effect) : PolicyDecision :=
  evaluate_with_defaults e p eff false.

Definition evaluate_desktop_mcp (e : PolicyEngine) (eff : Effect) : PolicyDecision :=
  match eff with
  | Mcp _ _ _ => evaluate_with_defaults e Confirm eff true
  | _ => decision Deny "invalid MCP effect" eff false
  end.

(** [ApprovalRequest::new]. *)
Definition approval_request (uuid : string) (d : PolicyDecision) : ApprovalRequest :=
  {| request_id := uuid;
     ar_explanation := explanation d +:+ ": " +:+ describe_effect (normalized_effect d);
     ar_effect := normalized_effect d;
     allow_session_grants := session_grant_allowed d;
     suggested_prefix_scope :=
       if session_grant_allowed d
       then describe_grant <$> suggested_prefix (normalized_effect d) else None |}.

Definition offered_choices (r : ApprovalRequest) : list ApprovalChoice :=
  [AllowOnce] ++ (if allow_session_grants r then [AllowExactSession] else [])
  ++ (if suggested_prefix_scope r then [AllowPrefixSession] else []) ++ [ChooseDeny].

Definition ensure_grantable (e : PolicyEngine) (eff : Effect) : result AxiomError unit :=
  n ← normalize e eff;
  match hard_denial e n with
  | Some why => Err (PermissionDenied why)
  | None =>
    reject_if (existsb (fun r => rule_matches r n) (rules e))
      (PermissionDenied "configured ask/deny rules cannot be overridden by a session grant")
  end.

Definition push_grant (g : ScopedGrant) (e : PolicyEngine) : PolicyEngine :=
  {| roots := roots e; rules := rules e; grants := grants e ++ [g] |}.

Definition no_prefix_scope : AxiomError :=
  PermissionDenied "this operation has no safe predefined prefix scope".

Definition apply_approval (r : ApprovalRequest) (c : ApprovalChoice) : M PolicyEngine AxiomError unit :=
  fun e =>
  match c with
  | ChooseDeny | AllowOnce => (e, Ok tt)
  | AllowExactSession =>
    if negb (allow_session_grants r)
    then (e, Err (PermissionDenied "this configured approval cannot be converted into a session grant"))
    else match ensure_grantable e (ar_effect r) with
         | Err er => (e, Err er)
         | Ok _ => (push_grant (GrantExact (ar_effect r)) e, Ok tt)
         end
  | AllowPrefixSession =>
    if negb (allow_session_grants r)
    then (e, Err (PermissionDenied "this configured approval cannot be converted into a session grant"))
    else match ensure_grantable e (ar_effect r) with
         | Err er => (e, Err er)
         | Ok _ => match suggested_prefix (ar_effect r) with
                   | None => (e, Err no_prefix_scope)
                   | Some scope => (push_grant scope e, Ok tt)
                   end
         end
  end.

(** [normalize_rule] and [for_workspace_with_rules]. *)
Definition normalize_prefix (root : Path) (c : EffectClass) (prefix : string)
    : result AxiomError string :=
  match c with
  | ClFileRead | ClFileWrite | ClFileDelete | ClPlanWrite =>
    let p := path_of_string prefix in
    Ok (path_display (normalize_for_policy (if absolute p then p else path_join root p)))
  | ClNetwork =>
    match url_parse prefix with
    | Err m => Err (ConfigError ("invalid network policy prefix: " +:+ m))
    | Ok u =>
      if bool_decide (scheme u ∈ ["http"; "https"]) && (if host_str u then true else false)
      then Ok (url_to_string (without_fragment u))
      else Err (ConfigError "network policy prefixes require an http(s) URL")
    end
  | _ => Ok (trim prefix)
  end.

Definition normalize_rule (root : Path) (r : PolicyRule) : result AxiomError PolicyRule :=
  _ ← rule_validate r;
  match resource_prefix r, rule_effect r with
  | Some prefix, Some c =>
    normalized ← normalize_prefix root c prefix;
    if is_empty normalized
    then Err (ConfigError "normalized policy resource prefix cannot be empty")
    else Ok {| action := action r; rule_effect := rule_effect r;
               resource_prefix := Some normalized; reason := reason r |}
  | _, _ => Ok r
  end.

Definition for_workspace_with_rules (root : Path) (rs : list PolicyRule)
    : result AxiomError PolicyEngine :=
  root ← ok_or (canonicalize root) (IoError "canonicalize");
  rs ← collect (normalize_rule root) rs;
  Ok {| roots := [root]; rules := rs; grants := [] |}.
End Engine.

(** ** Authority *)

Definition authority (k : DecisionKind) : Z :=
  match k with Deny => 0 | Ask => 1 | Allow => 2 end.

Lemma authority_bounds k : 0 <= authority k <= 2.
Proof. destruct k; simpl; lia. Qed.

Lemma find_rule_Some a e n :
  is_Some (find_rule a e n) <-> exists r, r ∈ rules e /\ rule_matches r n = true /\ action r = a.
Proof.
  unfold find_rule. set (l := filter _ _).
  assert (Hl : forall r, r ∈ l <-> r ∈ rules e /\ rule_matches r n = true /\ action r = a).
  { intros r. unfold l. rewrite !list_elem_of_filter. tauto. }
  destruct l as [|r l]; simpl.
  - split; [by intros []|]. intros (r & Hr). apply Hl in Hr. set_solver.
  - split; [intros _; exists r; apply Hl; by left|eauto].
Qed.

Lemma find_rule_None a e n :
  find_rule a e n = None <-> forall r, r ∈ rules e -> rule_matches r n = true -> action r <> a.
Proof.
  pose proof (find_rule_Some a e n) as H. destruct (find_rule a e n) as [r|].
  - split; [done|]. intros Hno. destruct (proj1 H) as (r' & ? & ? & ?); [eauto|]. naive_solver.
  - split; [|done]. intros _ r Hr Hm Ha. destruct (proj2 H) as [? ?]; [|done]. eauto.
Qed.

(** Only the restricted profiles deny by default. *)
Lemma profile_default_open p n : restricted p = false -> (profile_default p n).1.1 <> Deny.
Proof.
  destruct p; try done; intros _; destruct n as [? []| | | | | | | | | |]; done.
Qed.

Section Theorems.
Context `{FS : FileSystem} `{U : UrlLib}.

Lemma first_root_eq e e' : roots e = roots e' -> first_root e = first_root e'.
Proof. unfold first_root. by intros ->. Qed.

Lemma normalize_same_roots e e' eff : roots e = roots e' -> normalize e eff = normalize e' eff.
Proof.
  intros H. assert (Hp : forall p, normalize_path e p = normalize_path e' p)
    by (intros; unfold normalize_path; by rewrite (first_root_eq e e')).
  destruct eff; cbn [normalize]; by rewrite ?Hp.
Qed.

Lemma hard_denial_same_roots e e' n : roots e = roots e' -> hard_denial e n = hard_denial e' n.
Proof. unfold hard_denial, under_roots. by intros ->. Qed.

(** What a decision's kind depends on. *)
Lemma decide_kind e p n mcp :
  kind (decide_normalized e p n mcp) =
  if hard_denial e n then Deny
  else if find_rule ActionDeny e n then Deny
  else if restricted p && bool_decide ((profile_default p n).1.1 = Deny) then Deny
  else if find_rule ActionAsk e n then Ask
  else if existsb (fun g => grant_matches g n) (grants e) then Allow
  else if mcp then Ask else (profile_default p n).1.1.
Proof.
  unfold decide_normalized. destruct (profile_default p n) as [[dk dex] dg] eqn:Hd. cbn [fst snd].
  destruct (hard_denial e n); [done|]. destruct (find_rule ActionDeny e n); [done|].
  destruct (restricted p && bool_decide (dk = Deny)) eqn:Hr.
  - apply andb_true_iff in Hr as [_ Hr]. by apply bool_decide_eq_true in Hr.
  - destruct (find_rule ActionAsk e n); [done|].
    destruct (existsb _ _); [done|]. by destruct mcp.
Qed.

Lemma evaluate_kind e p eff mcp :
  kind (evaluate_with_defaults e p eff mcp) =
  match normalize e eff with
  | Err _ => Deny
  | Ok n => kind (decide_normalized e p n mcp)
  end.
Proof. unfold evaluate_with_defaults. by destruct (normalize e eff). Qed.

Lemma decide_rules_narrow e e' p n mcp :
  roots e = roots e' -> grants e = grants e' -> rules e ⊆ rules e' ->
  authority (kind (decide_normalized e' p n mcp)) <= authority (kind (decide_normalized e p n mcp)).
Proof.
  intros Hr Hg Hs. rewrite !decide_kind, (hard_denial_same_roots e e'), Hg by done.
  assert (Hf : forall a, is_Some (find_rule a e n) -> is_Some (find_rule a e' n)).
  { intros a. rewrite !find_rule_Some. intros (r & ? & ? & ?). exists r. auto. }
  destruct (hard_denial e' n); [done|].
  pose proof (Hf ActionDeny) as Hd. pose proof (Hf ActionAsk) as Ha. clear Hf.
  destruct (find_rule ActionDeny e' n); [apply authority_bounds|].
  destruct (find_rule ActionDeny e n); [by destruct (Hd ltac:(eauto))|].
  destruct (restricted p && _) eqn:Hres; [done|].
  destruct (find_rule ActionAsk e n), (find_rule ActionAsk e' n);
    [done|by destruct (Ha ltac:(eauto))| |done].
  destruct (existsb _ _); [done|]. destruct mcp; [done|].
  destruct (restricted p) eqn:Hp.
  - cbn in Hres. apply bool_decide_eq_false in Hres. by destruct ((profile_default p n).1.1).
  - pose proof (profile_default_open p n Hp). by destruct ((profile_default p n).1.1).
Qed.

(** Rules only narrow authority: whatever rules a repository adds to a
    configuration, and wherever it puts them, no effect gets a more permissive
    decision (deny below ask below allow), under any profile and any session
    grants. *)
Theorem added_rules_only_narrow e e' p eff :
  roots e = roots e' -> grants e = grants e' -> rules e ⊆ rules e' ->
  authority (kind (evaluate e' p eff)) <= authority (kind (evaluate e p eff)) /\
  authority (kind (evaluate_desktop_mcp e' eff)) <= authority (kind (evaluate_desktop_mcp e eff)).
Proof.
  intros Hr Hg Hs.
  assert (H : forall mcp p, authority (kind (evaluate_with_defaults e' p eff mcp))
                          <= authority (kind (evaluate_with_defaults e p eff mcp))).
  { intros mcp q. rewrite !evaluate_kind, (normalize_same_roots e e') by done.
    destruct (normalize e' eff); [|done]. by apply decide_rules_narrow. }
  split; [apply H|]. destruct eff; try done. apply H.
Qed.
(** ** Containment *)

(** The path an effect acts on: a file, or the directory a process or a
    repository operation runs in. *)
Definition effect_target (e : Effect) : option Path :=
  match e with
  | FileRead p | FileWrite p | FileDelete p | PlanWrite p => Some p
  | Process _ _ _ cwd _ | RepositoryMutation _ cwd => Some cwd
  | _ => None
  end.

(** Where the policy confines such an effect. *)
Definition confines (root : Path) (e : Effect) : Path :=
  match e with PlanWrite _ => path_join root plans_suffix | _ => root end.

Lemma normalize_path_clean (HFS : CanonicalFileSystem FS) e p :
  Forall (fun r => absolute r = true) (roots e) -> clean (normalize_path e p).
Proof.
  intros Hr. apply normalize_for_policy_clean; [done|].
  destruct (absolute p) eqn:Hp; [done|]. unfold path_join. rewrite Hp. cbn.
  unfold first_root. destruct (roots e) as [|r l]; [done|]. by apply Forall_cons in Hr as [? _].
Qed.

Lemma normalize_target (HFS : CanonicalFileSystem FS) e eff n t :
  Forall (fun r => absolute r = true) (roots e) ->
  normalize e eff = Ok n -> effect_target n = Some t -> clean t.
Proof.
  intros Hr Hn Ht. pose proof (fun p => normalize_path_clean HFS e p Hr) as Hc.
  destruct eff; cbn [normalize] in Hn; try (injection Hn as <-; injection Ht as <-; apply Hc);
    unfold named in Hn; repeat (case_match; try discriminate Hn); cbn in Hn;
    injection Hn as <-; try discriminate Ht; injection Ht as <-; apply Hc.
Qed.

Lemma hard_denial_inside e n t :
  hard_denial e n = None -> effect_target n = Some t ->
  exists root, root ∈ roots e /\ path_starts_with t (confines root n) = true.
Proof.
  intros Hd Ht. unfold hard_denial, under_roots in Hd.
  destruct n; try discriminate Ht; injection Ht as <-; cbn [confines];
    repeat (case_match; try discriminate Hd); split_guards;
    match goal with H : existsb _ _ = true |- _ => by apply existsb_elem_of in H end.
Qed.

Lemma not_denied_normalized e p eff mcp :
  kind (evaluate_with_defaults e p eff mcp) <> Deny ->
  exists n, normalize e eff = Ok n /\ hard_denial e n = None /\
    evaluate_with_defaults e p eff mcp = decide_normalized e p n mcp /\
    normalized_effect (evaluate_with_defaults e p eff mcp) = n.
Proof.
  rewrite evaluate_kind. unfold evaluate_with_defaults.
  destruct (normalize e eff) as [n|er]; [|done]. intros Hk. exists n.
  split; [done|]. rewrite decide_kind in Hk. destruct (hard_denial e n) eqn:Hd; [done|].
  split_and!; try done. unfold decide_normalized. rewrite Hd.
  destruct (profile_default p n) as [[dk dex] dg]. repeat (case_match; try done).
Qed.

(** C1: Nothing outside the workspace is ever allowed or even offered for
    approval: if an effect on a file, a process or a repository is not denied,
    then whatever the profile, rules and session grants, the path it acts on is
    absolute, free of [.] and [..], and lies below a workspace root (below its
    plan directory, for plan writes). *)
Theorem effects_stay_inside (HFS : CanonicalFileSystem FS) e p eff mcp t :
  Forall (fun r => absolute r = true) (roots e) ->
  let d := evaluate_with_defaults e p eff mcp in
  kind d <> Deny -> effect_target (normalized_effect d) = Some t ->
  clean t /\
  exists root names, root ∈ roots e /\
    comps t = comps (confines root (normalized_effect d)) ++ (Normal <$> names).
Proof.
  intros Hr d Hk Ht. subst d. apply not_denied_normalized in Hk as (n & Hn & Hd & _ & Hdn).
  rewrite Hdn in Ht |- *. pose proof (normalize_target HFS e eff n t Hr Hn Ht) as Hc.
  split; [done|]. destruct (hard_denial_inside e n t Hd Ht) as (root & Hroot & Hs).
  destruct (clean_below _ _ Hc Hs) as [names Hnames]. by exists root, names.
Qed.

(** What no profile, rule or grant can open, said of the effect as it is requested. *)
Definition lies_under (root p : Path) : Prop :=
  absolute p = absolute root /\ exists names, comps p = comps root ++ names.

Definition inside_roots (e : PolicyEngine) (p : Path) : Prop :=
  exists root, root ∈ roots e /\ lies_under root (normalize_path e p).

Definition inside_plans (e : PolicyEngine) (p : Path) : Prop :=
  exists root, root ∈ roots e /\
    lies_under {| absolute := absolute root;
                  comps := comps root ++ [Normal ".axiomcli"; Normal "plans"] |} (normalize_path e p).

Definition runs_as_root (program : string) : Prop :=
  normalized_executable_name (trim program)
  ∈ ["sudo"; "doas"; "su"; "mount"; "umount"; "mkfs"; "shutdown"; "reboot"; "poweroff"].

Inductive forbidden (e : PolicyEngine) : Effect -> Prop :=
| forbid_read p : ~ inside_roots e p -> forbidden e (FileRead p)
| forbid_write p : ~ inside_roots e p -> forbidden e (FileWrite p)
| forbid_delete p : ~ inside_roots e p -> forbidden e (FileDelete p)
| forbid_plan p : ~ inside_plans e p -> forbidden e (PlanWrite p)
| forbid_directory program args shell cwd env :
    ~ inside_roots e cwd -> forbidden e (Process program args shell cwd env)
| forbid_privileged program args shell cwd env :
    runs_as_root program -> forbidden e (Process program args shell cwd env)
| forbid_repository operation cwd : ~ inside_roots e cwd -> forbidden e (RepositoryMutation operation cwd)
| forbid_credentials service : forbidden e (CredentialAccess service).

Lemma starts_lies_under p root : path_starts_with p root = true <-> lies_under root p.
Proof. apply path_starts_with_spec. Qed.

Lemma under_roots_spec e p : under_roots e (normalize_path e p) = true <-> inside_roots e p.
Proof.
  unfold under_roots, inside_roots. rewrite existsb_elem_of. by setoid_rewrite starts_lies_under.
Qed.

Lemma plans_spec e p :
  existsb (fun root => path_starts_with (normalize_path e p) (path_join root plans_suffix)) (roots e) = true
  <-> inside_plans e p.
Proof.
  unfold inside_plans. rewrite existsb_elem_of. by setoid_rewrite starts_lies_under.
Qed.

Lemma bool_false_not (b : bool) (P : Prop) : (b = true <-> P) -> (b = false <-> ~ P).
Proof. intros H. rewrite <- H. by destruct b. Qed.

(** The hard limits are exactly what is forbidden. *)
Lemma hard_denial_spec e eff n :
  normalize e eff = Ok n -> (hard_denial e n = None <-> ~ forbidden e eff).
Proof.
  intros Hn. pose proof (under_roots_spec e) as Hu. pose proof (plans_spec e) as Hp.
  destruct eff; cbn [normalize] in Hn; unfold named in Hn;
    repeat (case_match; try discriminate Hn); cbn in Hn; try discriminate Hn; injection Hn as <-; cbn [hard_denial];
    try (split; [intros _ Hf; by inversion Hf|done]).
  - specialize (Hu path). destruct (under_roots _ _) eqn:E; split; try done; intros Hf; [inversion 1; subst; tauto|].
    destruct Hf. constructor. intros H. by apply Hu in H.
  - specialize (Hu path). destruct (under_roots _ _) eqn:E; split; try done; intros Hf; [inversion 1; subst; tauto|].
    destruct Hf. constructor. intros H. by apply Hu in H.
  - specialize (Hu path). destruct (under_roots _ _) eqn:E; split; try done; intros Hf; [inversion 1; subst; tauto|].
    destruct Hf. constructor. intros H. by apply Hu in H.
  - specialize (Hu cwd). destruct (under_roots _ _) eqn:E; cbn [negb].
    + destruct (decide (normalized_executable_name (trim program) ∈ privileged_programs)) as [Hd|Hd]; split; try done.
      * intros Hf. destruct Hf. by apply forbid_privileged.
      * intros _. inversion 1; subst; [tauto|done].
    + split; [done|]. intros Hf. destruct Hf. apply forbid_directory. intros H'. by apply Hu in H'.
  - specialize (Hu cwd). destruct (under_roots _ _) eqn:E; split; try done; intros Hf; [inversion 1; subst; tauto|].
    destruct Hf. constructor. intros H'. by apply Hu in H'.
  - split; [done|]. intros Hf. destruct Hf. constructor.
  - specialize (Hp path). destruct (existsb _ _) eqn:E; split; try done; intros Hf; [inversion 1; subst; tauto|].
    destruct Hf. constructor. intros H'. by apply Hp in H'.
Qed.

Lemma forbidden_denied e eff n : normalize e eff = Ok n -> forbidden e eff -> exists why, hard_denial e n = Some why.
Proof. intros Hn Hf. destruct (hard_denial e n) eqn:Hd; [eauto|]. by apply (hard_denial_spec e eff) in Hd. Qed.

(** C2: Hard denials dominate, and deny nothing else. What is forbidden - file effects,
    working directories and plan files outside their directories, after [..] and links are
    resolved, programs that act as root, and credentials - is denied under every profile,
    every rule set and every session grant, and no session grant for it is accepted.
    What is not forbidden is not denied by a hard limit: without rules, full access
    allows it. *)
Theorem hard_denials_dominate e eff :
  (forbidden e eff ->
     (forall p mcp, kind (evaluate_with_defaults e p eff mcp) = Deny /\
        exists why, require_allowed (evaluate_with_defaults e p eff mcp) = Err (PermissionDenied why)) /\
     (forall r c, normalize e (ar_effect r) = normalize e eff -> c = AllowExactSession \/ c = AllowPrefixSession ->
        exists er, apply_approval r c e = (e, Err er))) /\
  (~ forbidden e eff -> forall n, normalize e eff = Ok n -> rules e = [] ->
     kind (evaluate e FullAccess eff) = Allow).
Proof.
  split.
  - intros Hf. split.
    + intros p mcp. assert (Hk : kind (evaluate_with_defaults e p eff mcp) = Deny).
      { unfold evaluate_with_defaults. destruct (normalize e eff) as [n|er] eqn:Hn; [|done].
        destruct (forbidden_denied e eff n Hn Hf) as [why Hd]. unfold decide_normalized. by rewrite Hd. }
      split; [done|]. unfold require_allowed. rewrite Hk. by eexists.
    + intros r c Hr Hc. assert (Hg : exists er, ensure_grantable e (ar_effect r) = Err er).
      { unfold ensure_grantable. rewrite Hr. destruct (normalize e eff) as [n|er] eqn:Hn; [|by eexists]. cbn.
        destruct (forbidden_denied e eff n Hn Hf) as [why ->]. by eexists. }
      destruct Hg as [er Hg]. unfold apply_approval.
      destruct Hc as [-> | ->]; (destruct (negb (allow_session_grants r)); [eauto|]; rewrite Hg; eauto).
  - intros Hf n Hn Hr. apply (hard_denial_spec e eff n Hn) in Hf. unfold evaluate. rewrite evaluate_kind, Hn, decide_kind, Hf.
    unfold find_rule. rewrite Hr. cbn. destruct n; by repeat case_match.
Qed.

(** ** Profiles *)

(** What the restricted profiles are for. *)
Definition profile_permits (p : PermissionProfile) (n : Effect) : bool :=
  match p, n with
  | ProfileNone, _ => false
  | ProfileWeb, ToolUse _ (Web | Image | Interaction) | ProfileWeb, Network _ => true
  | ProfileWeb, _ => false
  | Observe, ToolUse _ (Read | Image | Interaction) | Observe, FileRead _
  | Observe, Mcp _ _ false => true
  | Observe, _ => false
  | Confirm, _ | FullAccess, _ => true
  end.

Lemma profile_default_permits p n :
  bool_decide ((profile_default p n).1.1 = Deny) = negb (profile_permits p n).
Proof.
  destruct p, n as [? []| | | | | | |? ? []| | |]; reflexivity.
Qed.

(** Restricted profiles are hard intersections: under any rules and any
    session grants, an effect that is not denied is one its profile permits;
    nothing at all is permitted when tools are off, and an observing profile
    never writes, runs or connects. *)
Theorem profiles_are_intersections e p eff mcp :
  let d := evaluate_with_defaults e p eff mcp in
  kind d <> Deny -> profile_permits p (normalized_effect d) = true.
Proof.
  intros d Hk. subst d. pose proof (not_denied_normalized _ _ _ _ Hk) as (n & Hn & Hd & He & Hdn).
  rewrite Hdn. rewrite He, decide_kind, Hd, profile_default_permits in Hk.
  destruct (find_rule ActionDeny e n); [done|].
  destruct (restricted p) eqn:Hr; [|by destruct p].
  cbn in Hk. by destruct (profile_permits p n).
Qed.

(** Every tool exposed to a profile is one the profile permits. *)
Lemma exposed_is_permitted a p n : is_exposed_to a p = true -> profile_permits p (ToolUse n a) = true.
Proof. by destruct a, p. Qed.
(** ** Session grants *)

(** The engine after a session's approvals, refused or not. *)
Definition approvals (l : list (ApprovalRequest * ApprovalChoice)) (e : PolicyEngine)
    : PolicyEngine :=
  foldl (fun e rc => fst (apply_approval rc.1 rc.2 e)) e l.

(** [e'] is [e] with more grants. *)
Definition extends (e e' : PolicyEngine) : Prop :=
  roots e' = roots e /\ rules e' = rules e /\ exists gs, grants e' = grants e ++ gs.

Lemma extends_refl e : extends e e.
Proof. split_and!; try done. exists []. by rewrite app_nil_r. Qed.

Lemma extends_trans e1 e2 e3 : extends e1 e2 -> extends e2 e3 -> extends e1 e3.
Proof.
  intros (Hr & Hu & g1 & Hg1) (Hr' & Hu' & g2 & Hg2). split_and!; [congruence..|].
  exists (g1 ++ g2). by rewrite Hg2, Hg1, app_assoc.
Qed.

Lemma apply_approval_extends r c e : extends e (fst (apply_approval r c e)).
Proof.
  assert (Hp : forall g, extends e (push_grant g e)) by (intros g; split_and!; eauto).
  pose proof (extends_refl e). unfold apply_approval. destruct c; try done;
    (destruct (negb _); [done|]; destruct (ensure_grantable _ _); [|done]).
  - apply Hp.
  - destruct (suggested_prefix _); [apply Hp|done].
Qed.

Lemma approvals_extend l e : extends e (approvals l e).
Proof.
  unfold approvals. revert e. induction l as [|[r c] l IH]; intros e; [apply extends_refl|].
  cbn. eapply extends_trans; [apply apply_approval_extends|apply IH].
Qed.

Lemma existsb_app_mono {A} (f : A -> bool) l k : existsb f l = true -> existsb f (l ++ k) = true.
Proof. rewrite existsb_app. by intros ->. Qed.

Lemma no_rule_iff e n :
  find_rule ActionDeny e n = None /\ find_rule ActionAsk e n = None <->
  forall r, r ∈ rules e -> rule_matches r n = false.
Proof.
  rewrite !find_rule_None. split.
  - intros [Hd Ha] r Hin. destruct (rule_matches r n) eqn:Hm; [|done]. exfalso.
    pose proof (Hd r Hin Hm). pose proof (Ha r Hin Hm). by destruct (action r).
  - intros H. split; intros r Hin Hm; by rewrite (H r Hin) in Hm.
Qed.

Lemma extended_kind e e' p n mcp :
  extends e e' ->
  kind (decide_normalized e' p n mcp) = kind (decide_normalized e p n mcp) \/
  (kind (decide_normalized e' p n mcp) = Allow /\ hard_denial e n = None /\
   profile_permits p n = true /\ forall r, r ∈ rules e -> rule_matches r n = false).
Proof.
  intros (Hr & Hu & gs & Hg). rewrite !decide_kind, (hard_denial_same_roots e e') by done.
  assert (Hf : forall a, find_rule a e' n = find_rule a e n) by (intros; unfold find_rule; by rewrite Hu).
  rewrite !Hf, Hg, !profile_default_permits, existsb_app. destruct (hard_denial e' n); [by left|].
  destruct (find_rule ActionDeny e n) eqn:Hd; [by left|].
  destruct (restricted p && _) eqn:Hp; [by left|].
  destruct (find_rule ActionAsk e n) eqn:Ha; [by left|].
  destruct (existsb _ (grants e)); [by left|].
  destruct (existsb _ gs); [|by left]. right. cbn. split_and!; try done.
  - destruct (restricted p) eqn:Hres; [|by destruct p]. cbn in Hp. by apply negb_false_iff in Hp.
  - by apply no_rule_iff.
Qed.

(** C3: Session grants never override anything configured: after any sequence
    of approval answers, a decision is the one the engine took before, or it
    became an allow for an effect that no rule matches, that is not hard-denied
    and that the profile permits. *)
Theorem grants_never_override l e p eff mcp :
  let e' := approvals l e in
  kind (evaluate_with_defaults e' p eff mcp) = kind (evaluate_with_defaults e p eff mcp) \/
  (kind (evaluate_with_defaults e' p eff mcp) = Allow /\
   exists n, normalize e eff = Ok n /\ hard_denial e n = None /\ profile_permits p n = true /\
     forall r, r ∈ rules e -> rule_matches r n = false).
Proof.
  intros e'. pose proof (approvals_extend l e) as Hx. fold e' in Hx.
  rewrite !evaluate_kind, (normalize_same_roots e' e) by apply Hx.
  destruct (normalize e eff) as [n|er]; [|by left].
  destruct (extended_kind e e' p n mcp Hx) as [?|(? & ? & ? & ?)]; [by left|].
  right. split; [done|]. by exists n.
Qed.

(** With one session grant, the desktop entry point allows exactly what the
    grant matches and no rule does. *)
Lemma granted_mcp_kind e g eff :
  grants e = [] ->
  kind (evaluate_desktop_mcp (push_grant g e) eff) = Allow <->
  (exists s t b, eff = Mcp s t b) /\
  exists s t b, normalize e eff = Ok (Mcp s t b) /\ grant_matches g (Mcp s t b) = true /\
    forall r, r ∈ rules e -> rule_matches r (Mcp s t b) = false.
Proof.
  intros Hg. destruct eff as [| | | | | | |s t b| | |]; try (split; [done|by intros [(? & ? & ? & ?) _]]).
  change (evaluate_desktop_mcp ?e (Mcp s t b))
    with (evaluate_with_defaults e Confirm (Mcp s t b) true).
  rewrite evaluate_kind, (normalize_same_roots _ e) by done. cbn [normalize].
  destruct (_ || _); [split; [done|intros [_ (? & ? & ? & ? & _)]; done]|].
  rewrite decide_kind. cbn [hard_denial push_grant rules grants roots restricted andb]. rewrite Hg.
  assert (Hf : forall a n, find_rule a (push_grant g e) n = find_rule a e n) by done.
  rewrite !Hf. cbn [app existsb]. rewrite orb_false_r.
  set (n := Mcp _ _ _). pose proof (no_rule_iff e n) as Hno.
  transitivity (grant_matches g n = true /\ forall r, r ∈ rules e -> rule_matches r n = false).
  - rewrite <- Hno. destruct (find_rule ActionDeny e n), (find_rule ActionAsk e n),
      (grant_matches g n); naive_solver.
  - split.
    + intros [Hm Hr]. split; [by eauto|]. subst n. eexists _, _, _. done.
    + intros [_ (s' & t' & b' & [= <- <- <-] & Hm & Hr)]. done.
Qed.

(** A desktop MCP approval is exactly as wide as what was shown: granting
    the one effect of an ask for the session allows that same server, tool and
    side-effect declaration and nothing else; granting its suggested prefix
    allows the tools of the same server with the same declaration that no rule
    matches, and nothing else. *)
Theorem mcp_grants_are_narrow e uuid eff c e' :
  grants e = [] ->
  let d := evaluate_desktop_mcp e eff in
  kind d = Ask -> session_grant_allowed d = true ->
  apply_approval (approval_request uuid d) c e = (e', Ok tt) ->
  exists server tool side, normalized_effect d = Mcp server tool side /\
  match c with
  | ChooseDeny | AllowOnce => e' = e
  | AllowExactSession => forall eff',
      kind (evaluate_desktop_mcp e' eff') = Allow <->
      (exists s t b, eff' = Mcp s t b) /\ normalize e eff' = Ok (Mcp server tool side)
  | AllowPrefixSession => forall eff',
      kind (evaluate_desktop_mcp e' eff') = Allow <->
      (exists s t b, eff' = Mcp s t b) /\
      exists tool', normalize e eff' = Ok (Mcp server tool' side) /\
        forall r, r ∈ rules e -> rule_matches r (Mcp server tool' side) = false
  end.
Proof.
  intros Hg d Hk Hs Ha. subst d.
  destruct eff as [| | | | | | |server0 tool0 side0| | |]; try discriminate Hk.
  change (evaluate_desktop_mcp e (Mcp server0 tool0 side0))
    with (evaluate_with_defaults e Confirm (Mcp server0 tool0 side0) true) in *.
  destruct (not_denied_normalized e Confirm (Mcp server0 tool0 side0) true)
    as (n & Hn & Hd & He & Hne); [by rewrite Hk|].
  assert (Hm : exists s t b, n = Mcp s t b).
  { cbn [normalize] in Hn. case_match; [done|]. injection Hn as <-. eauto. }
  destruct Hm as (server & tool & side & ->). exists server, tool, side. split; [done|].
  assert (Hfree : forall r, r ∈ rules e -> rule_matches r (Mcp server tool side) = false).
  { rewrite He in Hk, Hs. unfold decide_normalized in Hk, Hs. rewrite Hd in Hk, Hs.
    destruct (find_rule ActionDeny e _) eqn:Hfd; [done|]. cbn in Hk, Hs.
    destruct (find_rule ActionAsk e _) eqn:Hfa; [done|]. by apply no_rule_iff. }
  assert (Heff : ar_effect (approval_request uuid (evaluate_with_defaults e Confirm (Mcp server0 tool0 side0) true))
                 = Mcp server tool side) by exact Hne.
  unfold apply_approval in Ha. rewrite Heff in Ha. cbn [suggested_prefix] in Ha.
  destruct c; [by injection Ha|by injection Ha| |];
    (destruct (negb _); [done|]; destruct (ensure_grantable _ _); [|done];
     apply (f_equal fst) in Ha; cbn in Ha; subst e'; intros eff';
     rewrite granted_mcp_kind by done; cbn [grant_matches]).
  - split.
    + intros (? & s & t & b & Hn' & Hm & _). apply bool_decide_eq_true in Hm.
      split; [done|]. by rewrite Hm.
    + intros (? & Hn'). split; [done|]. exists server, tool, side.
      by rewrite bool_decide_eq_true.
  - split.
    + intros (? & s & t & b & Hn' & Hm & Hr). apply andb_true_iff in Hm as [Hm1 Hm2].
      apply bool_decide_eq_true in Hm1 as <-. apply eqb_prop in Hm2 as ->.
      split; [done|by exists t].
    + intros (? & t & Hn' & Hr). split; [done|]. exists server, t, side.
      by rewrite bool_decide_true, eqb_reflx.
Qed.
End Theorems.

(** ** Child environments *)

Lemma dedup_by_key_incl k l : dedup_by_key k l ⊆ l.
Proof.
  revert k. induction l as [|kv l IH]; intros k; [done|]. cbn [dedup_by_key].
  pose proof (IH k). pose proof (IH (Some kv.1)). case_decide; set_solver.
Qed.

#[export] Instance env_le_trans : Transitive env_le.
Proof.
  intros [a u] [b v] [c w]. unfold env_le. cbn.
  destruct (decide (a = b)) as [->|Hab], (decide (b = c)) as [->|Hbc]; intros Hx Hy.
  - by etrans.
  - done.
  - by rewrite decide_False.
  - destruct (decide (a = c)) as [->|]; [|by etrans].
    exfalso. by apply Hbc, (anti_symm str_le).
Qed.
#[export] Instance env_le_total : Total env_le.
Proof.
  intros x y. unfold env_le. destruct (decide (x.1 = y.1)) as [->|Hne].
  - rewrite decide_True by done. apply (total str_le).
  - rewrite decide_False by done. apply (total str_le).
Qed.

Lemma env_le_key x y : env_le x y -> str_le x.1 y.1.
Proof. unfold env_le. case_decide as H; [rewrite H; intros; reflexivity|done]. Qed.

Lemma env_least x y : env_le x y -> x.1 = y.1 -> str_le x.2 y.2.
Proof. unfold env_le. intros H E. by rewrite decide_True in H. Qed.

(** On a sorted environment [dedup_by] keeps the least value of each key. *)
Lemma dedup_by_key_spec k l :
  StronglySorted env_le l ->
  (forall kv, kv ∈ l -> match k with Some k => str_le k kv.1 | None => True end) ->
  NoDup (dedup_by_key k l).*1 /\
  (forall kv, kv ∈ dedup_by_key k l -> k <> Some kv.1) /\
  (forall kv, kv ∈ l -> k = Some kv.1 \/ exists w, (kv.1, w) ∈ dedup_by_key k l /\ str_le w kv.2).
Proof.
  revert k. induction l as [|[a v] l IH]; intros k Hs Hk.
  - cbn. split_and!; [constructor|set_solver|set_solver].
  - apply StronglySorted_inv in Hs as [Hs Hall]. rewrite Forall_forall in Hall.
    cbn [dedup_by_key fst]. case_decide as Hd.
    + destruct (IH k Hs) as (H1 & H2 & H3); [set_solver|].
      split_and!; [done|done|]. intros kv [->|Hin]%elem_of_cons; [by left|auto].
    + destruct (IH (Some a) Hs) as (H1 & H2 & H3).
      { intros kv Hkv. by apply (env_le_key (a, v)), Hall. }
      split_and!.
      * cbn. constructor; [|done]. intros Hin. apply list_elem_of_fmap in Hin as ([a' w] & -> & Hw).
        by apply H2 in Hw.
      * intros kv [->|Hkv]%elem_of_cons; [done|]. intros ->. pose proof (H2 _ Hkv) as Hne.
        apply Hne. f_equal. apply (anti_symm str_le).
        -- apply (env_le_key (a, v)), Hall. by apply dedup_by_key_incl in Hkv.
        -- apply (Hk (a, v)). by left.
      * intros kv [->|Hkv]%elem_of_cons; right; [exists v; split; [by left|reflexivity]|].
        destruct (H3 kv Hkv) as [[= Ha]|(w & Hw & Hle)].
        -- exists v. rewrite <- Ha. split; [by left|]. by apply (env_least (a, v)); [apply Hall|].
        -- exists w. split; [by right|done].
Qed.

Section Environment.
Context `{FS : FileSystem} `{U : UrlLib}.

(** The environment of a child process is a function on the allowlist: after
    normalization no variable is repeated, every variable is an allowlisted one
    the request named, every requested variable is present, and a repeated one
    gets the least of its requested values, whatever their order. *)
Theorem child_environment e program args shell cwd env program' args' shell' cwd' env' :
  normalize e (Process program args shell cwd env) = Ok (Process program' args' shell' cwd' env') ->
  NoDup env'.*1 /\ env' ⊆ env /\
  (forall k v, (k, v) ∈ env' -> is_allowed_child_env_key k = true) /\
  (forall k v, (k, v) ∈ env -> exists w, (k, w) ∈ env' /\ str_le w v).
Proof.
  cbn [normalize]. case_match eqn:Hbad; [done|]. intros [= _ _ _ _ <-]. split_guards.
  match goal with H : existsb _ env = false |- _ => rename H into Henv end.
  rewrite existsb_false in Henv. unfold normalize_env.
  assert (Hin : forall kv, kv ∈ merge_sort env_le env <-> kv ∈ env)
    by (intros kv; by rewrite merge_sort_Permutation).
  destruct (dedup_by_key_spec None (merge_sort env_le env)) as (Hnd & _ & Hkeep);
    [apply StronglySorted_merge_sort; apply _|done|].
  assert (Hsub : dedup_by_key None (merge_sort env_le env) ⊆ env).
  { intros kv Hkv. by apply Hin, (dedup_by_key_incl None). }
  split_and!; [done|done| |].
  - intros k v Hkv. apply Hsub, Henv in Hkv. cbn in Hkv. split_guards. done.
  - intros k v Hkv. apply Hin, Hkeep in Hkv as [?|?]; done.
Qed.
End Environment.

(** ** Examples *)

Definition workspace : Path := path_of_string "/ws".
Definition engine_sample (rs : list PolicyRule) : PolicyEngine :=
  {| roots := [workspace]; rules := rs; grants := [] |}.
Definition deny_writes : PolicyRule :=
  {| action := ActionDeny; rule_effect := Some ClFileWrite; resource_prefix := Some "/ws/src";
     reason := None |}.
Definition write_sample : Effect := FileWrite (path_of_string "src/main.rs").
Definition mcp_sample : Effect := Mcp " files " "read" false.

Lemma added_rules_only_narrow_witness :
  kind (@evaluate plain_fs plain_url (engine_sample []) FullAccess write_sample) = Allow /\
  kind (@evaluate plain_fs plain_url (engine_sample [deny_writes]) FullAccess write_sample) = Deny /\
  authority (kind (@evaluate plain_fs plain_url (engine_sample [deny_writes]) FullAccess write_sample))
  <= authority (kind (@evaluate plain_fs plain_url (engine_sample []) FullAccess write_sample)).
Proof.
  split; [by vm_compute|]. split; [by vm_compute|].
  apply (@added_rules_only_narrow plain_fs plain_url (engine_sample []) (engine_sample [deny_writes])
           FullAccess write_sample); [done|done|]. apply list_subseteq_nil.
Defined.

Lemma effects_stay_inside_witness :
  let d := @evaluate_with_defaults plain_fs plain_url (engine_sample []) FullAccess write_sample false in
  kind d = Allow /\ exists root names, root ∈ [workspace] /\
    comps (path_of_string "/ws/src/main.rs") = comps root ++ (Normal <$> names).
Proof.
  split; [by vm_compute|].
  apply (@effects_stay_inside plain_fs plain_url plain_fs_canonical (engine_sample []) FullAccess
           write_sample false (path_of_string "/ws/src/main.rs")).
  - by repeat constructor.
  - by vm_compute.
  - by vm_compute.
Defined.

Lemma hard_denials_dominate_witness :
  kind (@evaluate_with_defaults plain_fs plain_url (engine_sample []) FullAccess
    (Process "/usr/bin/SUDO.exe" ["ls"] false workspace []) false) = Deny /\
  kind (@evaluate plain_fs plain_url (engine_sample []) FullAccess write_sample) = Allow.
Proof.
  split.
  - apply (@hard_denials_dominate plain_fs plain_url (engine_sample [])
      (Process "/usr/bin/SUDO.exe" ["ls"] false workspace [])).
    apply forbid_privileged. unfold runs_as_root. replace (normalized_executable_name _) with "sudo" by (by vm_compute).
    by left.
  - apply (proj2 (@hard_denials_dominate plain_fs plain_url (engine_sample []) write_sample)) with
      (n := FileWrite (path_of_string "/ws/src/main.rs")); [|by vm_compute|done].
    intros Hf. inversion Hf as [|? Ho| | | | | |]; subst. apply Ho. exists workspace. split; [by left|].
    split; [by vm_compute|]. exists [Normal "src"; Normal "main.rs"]. by vm_compute.
Defined.

Lemma profiles_are_intersections_witness :
  profile_permits ProfileWeb (ToolUse "web_search" Web) = true.
Proof.
  apply (@profiles_are_intersections plain_fs plain_url (engine_sample []) ProfileWeb
           (ToolUse "web_search" Web) false). by vm_compute.
Defined.

Definition mcp_granted : PolicyEngine := push_grant (GrantExact (Mcp "files" "read" false)) (engine_sample []).

Lemma mcp_grants_are_narrow_witness :
  kind (@evaluate_desktop_mcp plain_fs plain_url (engine_sample []) mcp_sample) = Ask /\
  exists server tool side, Mcp "files" "read" false = Mcp server tool side /\
    forall eff', kind (@evaluate_desktop_mcp plain_fs plain_url mcp_granted eff') = Allow <->
      (exists s t b, eff' = Mcp s t b) /\
      @normalize plain_fs plain_url (engine_sample []) eff' = Ok (Mcp server tool side).
Proof.
  split; [by vm_compute|].
  apply (@mcp_grants_are_narrow plain_fs plain_url (engine_sample []) "id" mcp_sample
           AllowExactSession mcp_granted); by vm_compute.
Defined.

Lemma child_environment_witness :
  exists w, ("CI", w) ∈ [("CI", "0"); ("RUST_LOG", "info")] /\ str_le w "1".
Proof.
  apply (@child_environment plain_fs plain_url (engine_sample []) "cargo" [] false workspace
    [("CI", "1"); ("RUST_LOG", "info"); ("CI", "0")] "cargo" [] false workspace).
  - by vm_compute.
  - set_solver.
Defined.
