(* ===== verification/Steering.v ===== *)
(** Turn-scoped steering input (apps/axiomcli/src/steering.rs): the inbox a user
    writes to while a turn runs.

    The state behind the mutex is a record; every method is one atomic step on
    it, so any interleaving of front ends and of the turn loop is a sequence of
    steps.  A oneshot channel is its number; [sent] holds the channels that
    received their acknowledgement. *)

From stdpp Require Import base gmap strings list.
From Stdlib Require Import ZArith Lia ZifyBool ZifyN ZifyNat.
From S2P Require Import Prelude RustStr Paths AppError.

Local Open Scope Z_scope.

Definition MAX_STEERING_BYTES : Z := 64 * 1024.
Definition MAX_PENDING : nat := 32.
Definition MAX_TURN_INPUT_BYTES : Z := 256 * 1024.

Record SteeringMessage : Type := { sm_id : string; sm_text : string }.
Record Submission : Type := { text : string; applied : bool; waiters : list nat }.
Record State : Type := {
  closed : bool;
  bytes_used : Z;
  pending : list SteeringMessage;
  submissions : gmap string Submission;
  channels : nat;
  sent : list nat
}.
Record TurnSteering : Type := { turn_id : string; state : State }.

Definition new (t : string) : TurnSteering :=
  {| turn_id := t;
     state := {| closed := false; bytes_used := 0; pending := []; submissions := ∅;
                 channels := 0; sent := [] |} |}.

Definition with_state (t : TurnSteering) (s : State) : TurnSteering :=
  {| turn_id := turn_id t; state := s |}.

(** [oneshot::channel()]: a fresh channel. *)
Definition open_channel (s : State) : State :=
  {| closed := closed s; bytes_used := bytes_used s; pending := pending s;
     submissions := submissions s; channels := S (channels s); sent := sent s |}.
Definition send (c : nat) (s : State) : State :=
  {| closed := closed s; bytes_used := bytes_used s; pending := pending s;
     submissions := submissions s; channels := channels s; sent := c :: sent s |}.
Definition set_submissions (m : gmap string Submission) (s : State) : State :=
  {| closed := closed s; bytes_used := bytes_used s; pending := pending s;
     submissions := m; channels := channels s; sent := sent s |}.

Definition invalid_input : AxiomError :=
  InvalidTransition "invalid steering input or stale turn ID".
Definition reused_id : AxiomError :=
  InvalidTransition "steering ID was reused with different input".
Definition too_many_retries : AxiomError := InvalidTransition "too many steering retries".
Definition not_accepting : AxiomError :=
  InvalidTransition "turn is no longer accepting steering".
Definition inbox_full : AxiomError := InvalidTransition "steering inbox is full".

(** [submit] returns the receiver's channel. *)
Definition submit (expected id txt : string) : M TurnSteering AxiomError nat := fun t =>
  if negb (bool_decide (expected = turn_id t)) || is_empty id || (len id >? 128)
     || is_blank txt || (len txt >? MAX_STEERING_BYTES)
  then (t, Err invalid_input) else
  let rx := channels (state t) in
  let s := open_channel (state t) in
  match submissions s !! id with
  | Some previous =>
    if negb (bool_decide (text previous = txt)) then (with_state t s, Err reused_id)
    else if applied previous then (with_state t (send rx s), Ok rx)
    else if (length (waiters previous) <? MAX_PENDING)%nat then
      (with_state t (set_submissions
         (<[id := {| text := text previous; applied := applied previous;
                     waiters := waiters previous ++ [rx] |}]> (submissions s)) s), Ok rx)
    else (with_state t s, Err too_many_retries)
  | None =>
    if closed s then (with_state t s, Err not_accepting)
    else if (MAX_PENDING <=? length (pending s))%nat
            || (saturating_add (bytes_used s) (len txt) >? MAX_TURN_INPUT_BYTES)
    then (with_state t s, Err inbox_full)
    else
      (with_state t
         {| closed := closed s; bytes_used := bytes_used s + len txt;
            pending := pending s ++ [{| sm_id := id; sm_text := txt |}];
            submissions := <[id := {| text := txt; applied := false; waiters := [rx] |}]>
                             (submissions s);
            channels := channels s; sent := sent s |}, Ok rx)
  end.

Definition has_pending (t : TurnSteering) : bool := negb (bool_decide (length (pending (state t)) = 0%nat)).

Definition take_pending (t : TurnSteering) : TurnSteering * list SteeringMessage :=
  let s := state t in
  (with_state t
     {| closed := closed s; bytes_used := bytes_used s; pending := [];
        submissions := submissions s; channels := channels s; sent := sent s |}, pending s).

Definition acknowledge (id : string) (t : TurnSteering) : TurnSteering :=
  let s := state t in
  match submissions s !! id with
  | None => t
  | Some input =>
    with_state t
      {| closed := closed s; bytes_used := bytes_used s; pending := pending s;
         submissions := <[id := {| text := text input; applied := true; waiters := [] |}]>
                          (submissions s);
         channels := channels s; sent := waiters input ++ sent s |}
  end.

Definition set_closed (s : State) : State :=
  {| closed := true; bytes_used := bytes_used s; pending := pending s;
     submissions := submissions s; channels := channels s; sent := sent s |}.

Definition finish_if_empty (t : TurnSteering) : TurnSteering * bool :=
  if has_pending t then (t, false) else (with_state t (set_closed (state t)), true).

(** [close]: the [while let Some(input) = pending.pop_front()] loop. *)
Definition close (t : TurnSteering) : TurnSteering :=
  let s := set_closed (state t) in
  with_state t
    {| closed := true; bytes_used := bytes_used s; pending := [];
       submissions := foldl (fun m input => delete (sm_id input) m) (submissions s) (pending s);
       channels := channels s; sent := sent s |}.

(** ** Runs *)

Inductive op : Type :=
| OpSubmit (expected id txt : string)
| OpTake
| OpAcknowledge (id : string)
| OpFinishIfEmpty
| OpClose.

(** The inbox with the history of what happened to it: the messages accepted and
    the messages handed to the turn, in order, the ids acknowledged, and which
    id each channel was opened for. *)
Record World : Type := {
  inbox : TurnSteering;
  accepted : list SteeringMessage;
  taken : list SteeringMessage;
  acknowledged : list string;
  opened : list (nat * string)
}.

Definition start (t : string) : World :=
  {| inbox := new t; accepted := []; taken := []; acknowledged := []; opened := [] |}.

Definition step (w : World) (o : op) : World :=
  match o with
  | OpSubmit expected id txt =>
    let '(t', r) := submit expected id txt (inbox w) in
    match r with
    | Err _ => {| inbox := t'; accepted := accepted w; taken := taken w;
                  acknowledged := acknowledged w; opened := opened w |}
    | Ok rx =>
      {| inbox := t';
         accepted := accepted w ++
           match submissions (state (inbox w)) !! id with
           | Some _ => [] | None => [{| sm_id := id; sm_text := txt |}] end;
         taken := taken w; acknowledged := acknowledged w;
         opened := (rx, id) :: opened w |}
    end
  | OpTake =>
    let '(t', l) := take_pending (inbox w) in
    {| inbox := t'; accepted := accepted w; taken := taken w ++ l;
       acknowledged := acknowledged w; opened := opened w |}
  | OpAcknowledge id =>
    {| inbox := acknowledge id (inbox w); accepted := accepted w; taken := taken w;
       acknowledged := id :: acknowledged w; opened := opened w |}
  | OpFinishIfEmpty =>
    {| inbox := fst (finish_if_empty (inbox w)); accepted := accepted w; taken := taken w;
       acknowledged := acknowledged w; opened := opened w |}
  | OpClose =>
    {| inbox := close (inbox w); accepted := accepted w; taken := taken w;
       acknowledged := acknowledged w; opened := opened w |}
  end.

Definition run (w : World) (ops : list op) : World := foldl step w ops.

Definition total_text (l : list SteeringMessage) : Z :=
  foldr (fun m acc => len (sm_text m) + acc) 0 l.

(** ** The invariant *)

Record inv (w : World) : Prop := {
  inv_pending : (length (pending (state (inbox w))) <= MAX_PENDING)%nat;
  inv_bytes : bytes_used (state (inbox w)) = total_text (accepted w)
              /\ total_text (accepted w) <= MAX_TURN_INPUT_BYTES;
  inv_waiters : forall i s, submissions (state (inbox w)) !! i = Some s ->
                (length (waiters s) <= MAX_PENDING)%nat;
  inv_fifo : closed (state (inbox w)) = false ->
             accepted w = taken w ++ pending (state (inbox w));
  inv_prefix : exists dropped, accepted w = taken w ++ pending (state (inbox w)) ++ dropped;
  inv_nodup : NoDup (sm_id <$> accepted w);
  inv_known : forall m, m ∈ accepted w -> closed (state (inbox w)) = false ->
              exists s, submissions (state (inbox w)) !! sm_id m = Some s /\ text s = sm_text m;
  inv_applied : forall i s, submissions (state (inbox w)) !! i = Some s -> applied s = true ->
                i ∈ acknowledged w;
  inv_waiting : forall i s c, submissions (state (inbox w)) !! i = Some s -> c ∈ waiters s ->
                (c, i) ∈ opened w;
  inv_sent : forall c, c ∈ sent (state (inbox w)) ->
             exists i, (c, i) ∈ opened w /\ i ∈ acknowledged w
}.

Lemma total_text_app l k : total_text (l ++ k) = total_text l + total_text k.
Proof. induction l as [|m l IH]; simpl; lia. Qed.

Lemma inv_start t : inv (start t).
Proof.
  constructor; cbn; try done; try lia; try (by exists []); try constructor; try lia;
    intros; try set_solver.
Qed.

Lemma inv_take w : inv w -> inv (step w OpTake).
Proof.
  intros [Hp Hb Hw Hf [d Hd] Hn Hk Ha Hwt Hs]. constructor; cbn; try done.
  - lia.
  - intros Hc. rewrite app_nil_r. by apply Hf.
  - exists d. by rewrite <- app_assoc.
Qed.

Lemma inv_acknowledge w i : inv w -> inv (step w (OpAcknowledge i)).
Proof.
  intros [Hp Hb Hw Hf Hd Hn Hk Ha Hwt Hs]. unfold step, acknowledge.
  destruct (submissions (state (inbox w)) !! i) as [input|] eqn:Hi.
  - constructor; cbn; try done.
    + intros j s. rewrite lookup_insert. case_decide; [intros [= <-]; cbn; lia|apply Hw].
    + intros m Hm Hc. destruct (Hk m Hm Hc) as (s & Hs1 & Hs2). rewrite lookup_insert.
      case_decide as Heq; [|eauto]. rewrite <- Heq, Hi in Hs1. injection Hs1 as <-. eauto.
    + intros j s. rewrite lookup_insert. case_decide as Heq.
      * subst. intros _ _. by left.
      * intros Hj Hap. right. by eapply Ha.
    + intros j s c. rewrite lookup_insert. case_decide; [intros [= <-]; cbn; set_solver|].
      intros. by eapply Hwt.
    + intros c Hc. apply elem_of_app in Hc as [Hc|Hc].
      * exists i. split; [by eapply Hwt|by left].
      * destruct (Hs c Hc) as (j & ? & ?). exists j. split; [done|by right].
  - constructor; cbn; try done.
    + intros j s Hj Hap. right. by eapply Ha.
    + intros c Hc. destruct (Hs c Hc) as (j & ? & ?). exists j. split; [done|by right].
Qed.

Lemma inv_finish w : inv w -> inv (step w OpFinishIfEmpty).
Proof.
  intros [Hp Hb Hw Hf Hd Hn Hk Ha Hwt Hs]. unfold step, finish_if_empty.
  destruct (has_pending (inbox w)); constructor; cbn; try done.
Qed.

Lemma foldl_delete_Some (l : list SteeringMessage) (m : gmap string Submission) i s :
  foldl (fun m input => delete (sm_id input) m) m l !! i = Some s -> m !! i = Some s.
Proof.
  revert m. induction l as [|x l IH]; intros m H; [done|]. apply IH in H.
  rewrite lookup_delete in H. by case_decide.
Qed.

Lemma inv_close w : inv w -> inv (step w OpClose).
Proof.
  intros [Hp Hb Hw Hf [d Hd] Hn Hk Ha Hwt Hs]. unfold step, close.
  constructor; cbn; try done; try lia.
  - intros i s H. apply foldl_delete_Some in H. by eapply Hw.
  - by exists (pending (state (inbox w)) ++ d).
  - intros i s H. apply foldl_delete_Some in H. by apply Ha.
  - intros i s c H. apply foldl_delete_Some in H. by apply Hwt.
Qed.

(** The outcomes of [submit]. *)
Inductive submitted (t : TurnSteering) (i txt : string) : TurnSteering -> result AxiomError nat -> Prop :=
| sub_rejected e : submitted t i txt t (Err e)
| sub_refused e : submitted t i txt (with_state t (open_channel (state t))) (Err e)
| sub_applied p :
    submissions (state t) !! i = Some p -> text p = txt -> applied p = true ->
    submitted t i txt (with_state t (send (channels (state t)) (open_channel (state t))))
      (Ok (channels (state t)))
| sub_retry p :
    submissions (state t) !! i = Some p -> text p = txt -> applied p = false ->
    (length (waiters p) < MAX_PENDING)%nat ->
    submitted t i txt
      (with_state t (set_submissions
         (<[i := {| text := text p; applied := applied p;
                    waiters := waiters p ++ [channels (state t)] |}]> (submissions (state t)))
         (open_channel (state t))))
      (Ok (channels (state t)))
| sub_accepted :
    submissions (state t) !! i = None -> closed (state t) = false ->
    (length (pending (state t)) < MAX_PENDING)%nat ->
    bytes_used (state t) + len txt <= MAX_TURN_INPUT_BYTES ->
    submitted t i txt
      (with_state t
         {| closed := false; bytes_used := bytes_used (state t) + len txt;
            pending := pending (state t) ++ [{| sm_id := i; sm_text := txt |}];
            submissions := <[i := {| text := txt; applied := false;
                                     waiters := [channels (state t)] |}]> (submissions (state t));
            channels := S (channels (state t)); sent := sent (state t) |})
      (Ok (channels (state t))).

Lemma submit_submitted expected i txt t :
  submitted t i txt (fst (submit expected i txt t)) (snd (submit expected i txt t)).
Proof.
  unfold submit. destruct (_ || _); [constructor|]. cbv zeta. cbn [submissions open_channel].
  destruct (submissions (state t) !! i) as [p|] eqn:Hi.
  - destruct (bool_decide (text p = txt)) eqn:Ht; cbn [negb]; [|constructor].
    apply bool_decide_eq_true in Ht. destruct (applied p) eqn:Ha; [by econstructor|].
    destruct (_ <? _)%nat eqn:Hl; [|constructor]. cbn [fst snd].
    rewrite <- Ha. apply Nat.ltb_lt in Hl. by apply (sub_retry t i txt p).
  - cbn [open_channel closed bytes_used pending submissions channels sent].
    destruct (closed (state t)) eqn:Hc; [constructor|].
    destruct (_ || _) eqn:Hf; [constructor|]. apply orb_false_iff in Hf as [Hf1 Hf2].
    apply Nat.leb_gt in Hf1. apply sub_accepted; try done.
    apply (saturating_add_le _ _ MAX_TURN_INPUT_BYTES); [by vm_compute|lia].
Qed.

Lemma inv_submit w expected i txt : inv w -> inv (step w (OpSubmit expected i txt)).
Proof.
  intros [Hp Hb Hw Hf Hd Hn Hk Ha Hwt Hs]. cbn [step].
  pose proof (submit_submitted expected i txt (inbox w)) as Hsub.
  destruct (submit expected i txt (inbox w)) as [t' r]. cbn in Hsub.
  destruct Hsub as [e|e|p Hi Ht Hap|p Hi Ht Hap Hlen|Hi Hc Hlen Hbytes].
  - by constructor.
  - by constructor.
  - rewrite Hi, app_nil_r. constructor; cbn; try done.
    + intros j s c Hj Hin. right. by eapply Hwt.
    + intros c [->|Hin]%elem_of_cons.
      * exists i. split; [by left|by eapply Ha].
      * destruct (Hs c Hin) as (j & ? & ?). exists j. split; [by right|done].
  - rewrite Hi, app_nil_r. constructor; cbn; try done.
    + intros j s. rewrite lookup_insert. case_decide; [|by apply Hw].
      intros [= <-]. cbn. rewrite length_app. cbn. lia.
    + intros m Hm Hc. destruct (Hk m Hm Hc) as (s & Hs1 & Hs2). rewrite lookup_insert.
      case_decide as Heq; [|eauto]. rewrite <- Heq, Hi in Hs1. injection Hs1 as <-. eauto.
    + intros j s. rewrite lookup_insert. case_decide; [|by apply Ha].
      intros [= <-]. cbn. by rewrite Hap.
    + intros j s c. rewrite lookup_insert. case_decide as Heq.
      * subst j. intros [= <-]. cbn. rewrite elem_of_app, list_elem_of_singleton.
        intros [Hin| ->]; [right; by eapply Hwt|by left].
      * intros Hj Hin. right. by eapply Hwt.
    + intros c Hin. destruct (Hs c Hin) as (j & ? & ?). exists j. split; [by right|done].
  - rewrite Hi. pose proof (Hf Hc) as Hacc. destruct Hb as [Hb1 Hb2]. constructor; cbn.
    + rewrite length_app. cbn. lia.
    + rewrite total_text_app. cbn. lia.
    + intros j s. rewrite lookup_insert. case_decide; [|by apply Hw].
      intros [= <-]. cbn. unfold MAX_PENDING. lia.
    + intros _. by rewrite Hacc, app_assoc.
    + exists []. by rewrite Hacc, app_nil_r, app_assoc.
    + rewrite fmap_app. apply NoDup_app. split_and!; [done| |apply NoDup_singleton].
      intros x Hx. cbn. rewrite list_elem_of_singleton. intros ->.
      apply list_elem_of_fmap in Hx as (m & Hmi & Hm). destruct (Hk m Hm Hc) as (s & Hs1 & _).
      congruence.
    + intros m Hm _. rewrite lookup_insert. apply elem_of_app in Hm as [Hm|Hm].
      * destruct (Hk m Hm Hc) as (s & Hs1 & Hs2). case_decide; [congruence|eauto].
      * apply list_elem_of_singleton in Hm as ->. rewrite decide_True by done. eauto.
    + intros j s. rewrite lookup_insert. case_decide; [by intros [= <-]|by apply Ha].
    + intros j s c. rewrite lookup_insert. case_decide as Heq.
      * subst j. intros [= <-]. cbn. rewrite list_elem_of_singleton. intros ->. by left.
      * intros Hj Hin. right. by eapply Hwt.
    + intros c Hin. destruct (Hs c Hin) as (j & ? & ?). exists j. split; [by right|done].
Qed.

Lemma inv_step w o : inv w -> inv (step w o).
Proof.
  destruct o; auto using inv_submit, inv_take, inv_acknowledge, inv_finish, inv_close.
Qed.

Lemma inv_run w ops : inv w -> inv (run w ops).
Proof.
  unfold run. revert w. induction ops as [|o ops IH]; intros w Hw; [done|].
  cbn. by apply IH, inv_step.
Qed.

(** ** What the turn loop relies on *)

(** Steering is delivered exactly once and in order: in every interleaving
    of submissions, takes, acknowledgements and closings, no accepted id is
    delivered twice, the messages handed to the turn are the accepted ones in
    acceptance order, and while the inbox is open the accepted messages are
    exactly the delivered and the pending ones. *)
Theorem steering_exactly_once t ops :
  let w := run (start t) ops in
  NoDup (sm_id <$> taken w) /\ (exists rest, accepted w = taken w ++ rest) /\
  (closed (state (inbox w)) = false -> accepted w = taken w ++ pending (state (inbox w))).
Proof.
  intros w. destruct (inv_run _ ops (inv_start t)) as [_ _ _ Hf [d Hd] Hn _ _ _ _].
  fold w in Hf, Hd, Hn. split_and!; [|by exists (pending (state (inbox w)) ++ d)|done].
  rewrite Hd, fmap_app in Hn. by apply NoDup_app in Hn as [? _].
Qed.

(** A turn that ends because its inbox is empty has lost no input: when
    [finish_if_empty] succeeds on an open inbox every accepted message was
    handed over, and from then on nothing more is ever accepted or delivered. *)
Theorem finish_loses_nothing t ops later :
  let w := run (start t) ops in
  closed (state (inbox w)) = false -> snd (finish_if_empty (inbox w)) = true ->
  accepted w = taken w /\
  let w' := run (step w OpFinishIfEmpty) later in
  accepted w' = accepted w /\ taken w' = taken w.
Proof.
  intros w Hc Hfin. destruct (inv_run _ ops (inv_start t)) as [_ _ _ Hf _ _ _ _ _ _].
  fold w in Hf. unfold finish_if_empty in Hfin. destruct (has_pending (inbox w)) eqn:Hpend; [done|].
  assert (Hemp : pending (state (inbox w)) = []).
  { unfold has_pending in Hpend. split_guards. by apply nil_length_inv. }
  split; [rewrite (Hf Hc), Hemp; by rewrite app_nil_r|]. cbv zeta.
  set (w1 := step w OpFinishIfEmpty).
  assert (H1 : closed (state (inbox w1)) = true /\ pending (state (inbox w1)) = [] /\
               accepted w1 = accepted w /\ taken w1 = taken w).
  { unfold w1, step, finish_if_empty. by rewrite Hpend. }
  clearbody w1. clear Hpend Hfin Hf. unfold run. revert w1 H1.
  induction later as [|o later IH]; intros w1 (Hcl & Hpe & Hac & Hta); [done|]. cbn [foldl].
  apply IH. destruct o as [ex i txt| |i| |]; cbn [step].
  - pose proof (submit_submitted ex i txt (inbox w1)) as Hsub.
    destruct (submit ex i txt (inbox w1)) as [t' r]. cbn in Hsub.
    destruct Hsub as [e|e|p Hi|p Hi|]; cbn; try done; rewrite ?Hi, ?app_nil_r; try done. congruence.
  - cbn. rewrite Hpe, app_nil_r. done.
  - unfold acknowledge. by case_match.
  - unfold finish_if_empty. destruct (has_pending _); [done|]. done.
  - done.
Qed.

(** The inbox is bounded and honest: at every moment at most 32 messages are
    pending, at most 256 KiB were accepted over the turn, at most 32 retries wait
    on one id, and a waiting client is told its input was applied only after the
    turn acknowledged the id that client submitted. *)
Theorem steering_bounded t ops :
  let w := run (start t) ops in
  (length (pending (state (inbox w))) <= 32)%nat /\
  total_text (accepted w) <= 256 * 1024 /\
  (forall i s, submissions (state (inbox w)) !! i = Some s -> (length (waiters s) <= 32)%nat) /\
  (forall c, c ∈ sent (state (inbox w)) -> exists i, (c, i) ∈ opened w /\ i ∈ acknowledged w).
Proof.
  intros w. destruct (inv_run _ ops (inv_start t)) as [Hp [_ Hb] Hw _ _ _ _ _ _ Hs]. done.
Qed.

Lemma finish_loses_nothing_witness :
  let w := run (start "t") [OpSubmit "t" "a" "hello"; OpTake] in
  accepted w = taken w.
Proof.
  apply (finish_loses_nothing "t" [OpSubmit "t" "a" "hello"; OpTake] []); by vm_compute.
Defined.
