(* ===== verification/Planning.v ===== *)
(** Plan artifacts (apps/axiomcli/src/planning.rs): the plan state machine, its
    revisions and its comments.

    [save], [load] and [list] are file I/O; the checks they make on a plan and
    on its identifier are modelled.  [Uuid::new_v4] is an argument. *)

From stdpp Require Import base strings list sets relations.
From Stdlib Require Import ZArith NArith Lia ZifyBool ZifyN ZifyNat.
From S2P Require Import Prelude RustStr Accounting Paths AppError.

Local Open Scope Z_scope.

Inductive PlanState : Type := Draft | Proposed | RevisionRequested | Approved | Abandoned.
#[export] Instance PlanState_eq_dec : EqDecision PlanState.
Proof. solve_decision. Defined.

Definition state_debug (s : PlanState) : string :=
  match s with
  | Draft => "Draft" | Proposed => "Proposed" | RevisionRequested => "RevisionRequested"
  | Approved => "Approved" | Abandoned => "Abandoned"
  end.

Record PlanComment : Type := { pc_id : string; start_line : Z; end_line : Z; pc_text : string }.

Record PlanArtifact : Type := {
  plan_id : string;
  revision : Z;
  plan_state : PlanState;
  markdown : string;
  comments : list PlanComment
}.

Definition new_plan (uuid md : string) : PlanArtifact :=
  {| plan_id := uuid; revision := 1; plan_state := Draft; markdown := md; comments := [] |}.

Definition set_state (p : PlanArtifact) (s : PlanState) : PlanArtifact :=
  {| plan_id := plan_id p; revision := revision p; plan_state := s; markdown := markdown p;
     comments := comments p |}.

Definition transition_allowed (from target : PlanState) : bool :=
  match from, target with
  | Draft, Proposed | Proposed, Approved => true
  | Draft, Abandoned | Proposed, Abandoned | RevisionRequested, Abandoned => true
  | _, _ => false
  end.

Definition transition (target : PlanState) : M PlanArtifact AxiomError unit := fun p =>
  if negb (transition_allowed (plan_state p) target)
  then (p, Err (InvalidTransition ("plan cannot transition from " +:+ state_debug (plan_state p)
                                   +:+ " to " +:+ state_debug target)))
  else (set_state p target, Ok tt).

Definition propose : M PlanArtifact AxiomError unit := transition Proposed.
Definition approve : M PlanArtifact AxiomError unit := transition Approved.
Definition abandon : M PlanArtifact AxiomError unit := transition Abandoned.

(** [str::lines().count()]: a final newline does not open another line. *)
Definition line_count (s : string) : Z :=
  let l := split_byte 10 s in
  Z.of_nat (length l) - (if bool_decide (last l = Some EmptyString) then 1 else 0).

Definition comment (uuid : string) (first final : Z) (text : string)
    : M PlanArtifact AxiomError unit := fun p =>
  let count := Z.max (line_count (markdown p)) 1 in
  if is_blank text || (first =? 0) || (final <? first) || (final >? count)
  then (p, Err (InvalidTransition "plan comment range is invalid"))
  else ({| plan_id := plan_id p; revision := revision p; plan_state := plan_state p;
           markdown := markdown p;
           comments := comments p ++ [{| pc_id := uuid; start_line := first; end_line := final;
                                         pc_text := text |}] |}, Ok tt).

Definition request_revision (uuid : string) (first final : Z) (text : string)
    : M PlanArtifact AxiomError unit := fun p =>
  if negb (bool_decide (plan_state p = Proposed))
  then (p, Err (InvalidTransition "only a proposed plan can receive a revision request"))
  else match comment uuid first final text p with
       | (p, Err e) => (p, Err e)
       | (p, Ok _) => (set_state p RevisionRequested, Ok tt)
       end.

Definition validate_markdown (md : string) : result AxiomError unit :=
  if is_blank md then Err (InvalidTransition "plan markdown cannot be empty")
  else if len md >? 1024 * 1024
  then Err (InvalidTransition "plan markdown exceeds the 1 MiB development limit")
  else Ok tt.

Definition revise (expected : Z) (md : string) : M PlanArtifact AxiomError unit := fun p =>
  if negb (revision p =? expected)
  then (p, Err (InvalidTransition ("stale plan revision: expected " +:+ to_decimal expected
                                   +:+ ", current " +:+ to_decimal (revision p))))
  else if bool_decide (plan_state p = Approved \/ plan_state p = Abandoned)
  then (p, Err (InvalidTransition "terminal plan cannot be revised"))
  else match validate_markdown md with
       | Err e => (p, Err e)
       | Ok _ => ({| plan_id := plan_id p; revision := saturating_add (revision p) 1;
                     plan_state := Draft; markdown := md; comments := comments p |}, Ok tt)
       end.

(** The identifier check of [load], and the path the policy is asked about. *)
Definition load_id_ok (id : string) : bool :=
  forallb (fun c => is_ascii_alphanumeric c || (c =? 45)%N) (chars id).
Definition plan_file_name (id : option string) : string := default "new-plan" id +:+ ".json".
Definition policy_path (workspace : Path) (id : option string) : Path :=
  path_push (path_join workspace (path_of_string ".axiomcli/plans")) (plan_file_name id).

(** ** The machine *)

Inductive plan_op : Type :=
| OpPropose | OpApprove | OpAbandon
| OpRequestRevision (uuid : string) (first final : Z) (text : string)
| OpRevise (expected : Z) (md : string)
| OpComment (uuid : string) (first final : Z) (text : string).

Definition exec (o : plan_op) : M PlanArtifact AxiomError unit :=
  match o with
  | OpPropose => propose
  | OpApprove => approve
  | OpAbandon => abandon
  | OpRequestRevision u a b t => request_revision u a b t
  | OpRevise r md => revise r md
  | OpComment u a b t => comment u a b t
  end.

(** One operation, refused or not. *)
Inductive plan_step : PlanArtifact -> PlanArtifact -> Prop :=
| plan_step_exec o p : plan_step p (fst (exec o p)).

Definition terminal (s : PlanState) : bool :=
  match s with Approved | Abandoned => true | _ => false end.

(** What an operation can do to a plan. *)
Lemma exec_cases o p :
  let p' := fst (exec o p) in
  let r := snd (exec o p) in
  plan_id p' = plan_id p /\
  ((markdown p' = markdown p /\ revision p' = revision p /\
    (plan_state p' = plan_state p \/
     transition_allowed (plan_state p) (plan_state p') = true \/
     (plan_state p = Proposed /\ plan_state p' = RevisionRequested))) \/
   (exists md, o = OpRevise (revision p) md /\ r = Ok tt /\ markdown p' = md /\
      plan_state p' = Draft /\ terminal (plan_state p) = false /\
      revision p' = saturating_add (revision p) 1 /\ validate_markdown md = Ok tt)).
Proof.
  assert (Ht : forall t, let p' := fst (transition t p) in
    plan_id p' = plan_id p /\ markdown p' = markdown p /\ revision p' = revision p /\
    (plan_state p' = plan_state p \/ transition_allowed (plan_state p) (plan_state p') = true)).
  { intros t. unfold transition. destruct (transition_allowed (plan_state p) t) eqn:Ha; cbn;
      split_and!; auto. }
  assert (Hc : forall u a b t, let p' := fst (comment u a b t p) in
    plan_id p' = plan_id p /\ markdown p' = markdown p /\ revision p' = revision p /\
    plan_state p' = plan_state p).
  { intros u a b t. unfold comment. destruct (_ || _); done. }
  destruct o as [| | |u a b t|r md|u a b t]; cbn [exec].
  - destruct (Ht Proposed) as (? & ? & ? & ?). tauto.
  - destruct (Ht Approved) as (? & ? & ? & ?). tauto.
  - destruct (Ht Abandoned) as (? & ? & ? & ?). tauto.
  - unfold request_revision. case_bool_decide as Hp; cbn [negb]; [|cbn; tauto].
    specialize (Hc u a b t). destruct (comment u a b t p) as [p' [[]|e]]; cbn in *; tauto.
  - unfold revise. destruct (revision p =? r) eqn:Hr; cbn [negb]; [|cbn; tauto].
    apply Z.eqb_eq in Hr as <-. case_bool_decide as Hterm; [cbn; tauto|].
    destruct (validate_markdown md) as [[]|e] eqn:Hv; [|cbn; tauto].
    cbn. split; [done|]. right. exists md. split_and!; try done.
    destruct (plan_state p); try done; exfalso; tauto.
  - destruct (Hc u a b t) as (? & ? & ? & ?). tauto.
Qed.

Lemma terminal_no_transition s t : terminal s = true -> transition_allowed s t = false.
Proof. by destruct s. Qed.

Lemma plan_step_terminal p p' :
  plan_step p p' -> terminal (plan_state p) = true ->
  plan_state p' = plan_state p /\ markdown p' = markdown p /\ revision p' = revision p.
Proof.
  intros [o q] Ht. destruct (exec_cases o q) as [_ [(? & ? & [Hs|[Hs|[Hs _]]])|H]].
  - done.
  - by rewrite terminal_no_transition in Hs.
  - by rewrite Hs in Ht.
  - destruct H as (md & _ & _ & _ & _ & Hnt & _). congruence.
Qed.

(** Approval is final: once a plan is approved or abandoned, no sequence of
    operations changes its state, its text or its revision. *)
Theorem terminal_plans_are_final p p' :
  rtc plan_step p p' -> terminal (plan_state p) = true ->
  plan_state p' = plan_state p /\ markdown p' = markdown p /\ revision p' = revision p.
Proof.
  induction 1 as [p|p q p' Hstep _ IH]; intros Ht; [done|].
  destruct (plan_step_terminal _ _ Hstep Ht) as (Hs & Hm & Hr).
  rewrite Hs, Hm, Hr in IH. by apply IH.
Qed.

(** A run with the text that was last proposed. *)
Inductive plan_run : PlanArtifact -> option string -> Prop :=
| run_new uuid md : plan_run (new_plan uuid md) None
| run_step p shown o p' r :
    plan_run p shown -> exec o p = (p', r) ->
    plan_run p' match o, r with
                | OpPropose, Ok _ => Some (markdown p')
                | _, _ => shown
                end.

Definition run_inv (p : PlanArtifact) (shown : option string) : Prop :=
  1 <= revision p <= U64_MAX /\
  (plan_state p = Proposed \/ plan_state p = RevisionRequested \/ plan_state p = Approved ->
   shown = Some (markdown p)).

Lemma transition_run target p p' r :
  transition target p = (p', r) ->
  (r = Ok tt /\ transition_allowed (plan_state p) target = true /\ p' = set_state p target) \/
  (is_ok r = false /\ p' = p).
Proof.
  unfold transition. destruct (transition_allowed _ _) eqn:Ha; cbn;
    intros [= <- <-]; [by left|by right].
Qed.

Definition shown_state (s : PlanState) : Prop :=
  s = Proposed \/ s = RevisionRequested \/ s = Approved.

(** Only [propose] puts a plan in front of the user. *)
Lemma shown_before o p p' r :
  exec o p = (p', r) -> shown_state (plan_state p') ->
  shown_state (plan_state p) \/ (o = OpPropose /\ r = Ok tt).
Proof.
  unfold shown_state. destruct o as [| | |u a b t|e md|u a b t]; cbn [exec]; intros H Hs.
  - apply transition_run in H as [(-> & _ & _)|[_ ->]]; [by right|by left].
  - apply transition_run in H as [(_ & Ha & _)|[_ ->]]; [|by left].
    left. destruct (plan_state p); naive_solver.
  - apply transition_run in H as [(_ & Ha & ->)|[_ ->]]; [|by left]. cbn in Hs. naive_solver.
  - unfold request_revision in H. left. case_bool_decide as Hp; [by left|].
    cbn in H. by injection H as <- _.
  - left. unfold revise in H. destruct (negb _); [by injection H as <- _|].
    case_bool_decide; [by injection H as <- _|].
    destruct (validate_markdown md); injection H as <- _; [|done]. cbn in Hs. naive_solver.
  - left. unfold comment in H. destruct (_ || _); injection H as <- _; done.
Qed.

Lemma plan_run_inv p shown : plan_run p shown -> run_inv p shown.
Proof.
  induction 1 as [uuid md|p shown o p' r _ [Hr Hs] He].
  - split; [cbn; unfold U64_MAX; lia|cbn; naive_solver].
  - pose proof (exec_cases o p) as Hc. rewrite He in Hc. cbn in Hc.
    destruct Hc as [_ [(Hm & Hrev & _)|(md & -> & -> & _ & Hd & _ & Hrev & _)]].
    + split; [lia|]. rewrite Hm. intros Hp'.
      destruct (shown_before o p p' r He Hp') as [Hp|[-> ->]]; [|done].
      rewrite (Hs Hp). by destruct o, r.
    + split; [unfold saturating_add, U64_MAX in *; lia|]. rewrite Hd. naive_solver.
Qed.

(** What is approved is what was shown: in every run, the text of a plan that
    is proposed, sent back for revision or approved is the text at its last
    successful proposal; revising it returns it to a draft. *)
Theorem approved_text_was_proposed p shown :
  plan_run p shown -> plan_state p = Approved -> shown = Some (markdown p).
Proof. intros H Ha. apply (plan_run_inv p shown H). by right; right. Qed.

(** Revisions are optimistic: [revise] succeeds only on the current revision
    of a live plan with an acceptable text, then it installs exactly that text
    as the next revision (u64 saturating) of a draft; otherwise the plan is
    untouched. *)
Theorem revise_optimistic expected md p :
  let p' := fst (revise expected md p) in
  match snd (revise expected md p) with
  | Ok _ => expected = revision p /\ terminal (plan_state p) = false /\
            0 < len md <= 1024 * 1024 /\ markdown p' = md /\ plan_state p' = Draft /\
            plan_id p' = plan_id p /\ comments p' = comments p /\
            (revision p < U64_MAX -> revision p' = revision p + 1)
  | Err _ => p' = p
  end.
Proof.
  unfold revise. destruct (revision p =? expected) eqn:Hr; cbn [negb]; [|done].
  case_bool_decide as Ht; [done|]. destruct (validate_markdown md) as [[]|e] eqn:Hv; [|done].
  cbn. unfold validate_markdown in Hv. destruct (is_blank md) eqn:Hb; [done|].
  destruct (len md >? 1024 * 1024) eqn:Hl; [done|]. pose proof (len_nonneg md).
  assert (Hne : is_empty md = false) by (by destruct md).
  apply is_empty_len in Hne. apply Z.eqb_eq in Hr. split_and!; try done; try lia.
  - destruct (plan_state p); try done; exfalso; tauto.
  - unfold saturating_add. lia.
Qed.

Definition plan_sample : PlanArtifact :=
  {| plan_id := "p"; revision := 2; plan_state := Approved; markdown := "two";
     comments := [] |}.

Lemma approved_text_was_proposed_witness :
  plan_run plan_sample (Some "two") /\ Some "two" = Some (markdown plan_sample).
Proof.
  assert (H : plan_run plan_sample (Some "two")).
  { apply (run_step (set_state plan_sample Proposed) (Some "two") OpApprove plan_sample (Ok tt)); [|done].
    apply (run_step (set_state plan_sample Draft) None OpPropose (set_state plan_sample Proposed) (Ok tt)); [|done].
    apply (run_step (new_plan "p" "one") None (OpRevise 1 "two") (set_state plan_sample Draft) (Ok tt)); [|by vm_compute].
    constructor. }
  split; [exact H|]. by apply (approved_text_was_proposed plan_sample (Some "two") H).
Defined.

Lemma terminal_plans_are_final_witness :
  plan_state (fst (exec (OpRevise 2 "three") plan_sample)) = Approved.
Proof.
  apply (terminal_plans_are_final plan_sample); [|done]. apply rtc_once, plan_step_exec.
Defined.
