(* ===== verification/SecureError.v ===== *)
(** Failures of the secure client (crates/axiom-secure-client/src/error.rs) and
    the classification of remote failures (relay/client.rs and catalog.rs):
    HTTP statuses, allowlisted error codes and stream failures become errors
    whose text is always one of the client's own constants.

    The derived deserializer of the error envelope is an argument of
    [error_for_status_body]: its result is the [option PublicErrorEnvelope]. *)

From stdpp Require Import base strings list sets.
From Stdlib Require Import ZArith Lia ZifyBool.
From S2P Require Import Prelude RustStr Json ToolCalls Accounting Inference.

Local Open Scope Z_scope.

Definition INSUFFICIENT_CREDIT_MESSAGE : string :=
  "Insufficient balance. Top up your Axiom balance to continue.".

Definition balance_detail (k : ProviderFailureKind) (detail : string) : string :=
  match k with InsufficientCredit => INSUFFICIENT_CREDIT_MESSAGE | _ => detail end.

Inductive SecureErrorCode : Type :=
| CConfiguration | CAuthentication | CInsufficientCredit | CRateLimited | CTrialCapacity
| CModelUnavailable | CCapabilityMismatch | CAttestationUnavailable | CAttestationRejected
| COutdatedTee | CAttestationExpired | CAttestationKeyChanged | CProtocolUnsupported
| CSessionNotAccepted | CReceiptUnavailable | CInvalidRequest | CInvalidResponse | CCancelled
| CTransient | CStreamTimeout | CResponseTooLarge | CProviderDisconnected.

#[export] Instance SecureErrorCode_eq_dec : EqDecision SecureErrorCode.
Proof. solve_decision. Defined.

Definition code_as_str (c : SecureErrorCode) : string :=
  match c with
  | CConfiguration => "CONFIGURATION_ERROR"
  | CAuthentication => "AUTHENTICATION_FAILED"
  | CInsufficientCredit => "INSUFFICIENT_CREDIT"
  | CRateLimited => "RATE_LIMITED"
  | CTrialCapacity => "TRIAL_CAPACITY"
  | CModelUnavailable => "MODEL_UNAVAILABLE"
  | CCapabilityMismatch => "CAPABILITY_MISMATCH"
  | CAttestationUnavailable => "ATTESTATION_UNAVAILABLE"
  | CAttestationRejected => "ATTESTATION_REJECTED"
  | COutdatedTee => "PROVIDER_TDX_OUT_OF_DATE"
  | CAttestationExpired => "ATTESTATION_EXPIRED"
  | CAttestationKeyChanged => "ATTESTATION_KEY_CHANGED"
  | CProtocolUnsupported => "PROTOCOL_UNSUPPORTED"
  | CSessionNotAccepted => "SESSION_NOT_ACCEPTED"
  | CReceiptUnavailable => "RECEIPT_UNAVAILABLE"
  | CInvalidRequest => "INVALID_REQUEST"
  | CInvalidResponse => "INVALID_RESPONSE"
  | CCancelled => "CANCELLED"
  | CTransient => "TRANSIENT_FAILURE"
  | CStreamTimeout => "STREAM_TIMEOUT"
  | CResponseTooLarge => "RESPONSE_TOO_LARGE"
  | CProviderDisconnected => "PROVIDER_DISCONNECTED"
  end.

Record SecureClientError : Type := {
  err_kind : ProviderFailureKind;
  err_code : SecureErrorCode;
  safe_detail : string;
  retryable : bool;
  retry_at : option Z
}.

#[export] Instance SecureClientError_eq_dec : EqDecision SecureClientError.
Proof. solve_decision. Defined.

Definition default_code (k : ProviderFailureKind) : SecureErrorCode :=
  match k with
  | Configuration => CConfiguration
  | LocalAuthentication | Authentication => CAuthentication
  | InsufficientCredit => CInsufficientCredit
  | RateLimited => CRateLimited
  | ModelUnavailable => CModelUnavailable
  | CapabilityMismatch => CCapabilityMismatch
  | AttestationUnavailable | SessionEstablishment => CAttestationUnavailable
  | AttestationRejected => CAttestationRejected
  | Encryption | InvalidRequest => CInvalidRequest
  | Decryption | InvalidResponse => CInvalidResponse
  | Transient => CTransient
  | Cancelled => CCancelled
  end.

Definition default_retryable (k : ProviderFailureKind) : bool :=
  match k with
  | RateLimited | AttestationUnavailable | SessionEstablishment | Transient => true
  | _ => false
  end.

Definition new_error (k : ProviderFailureKind) (detail : string) : SecureClientError :=
  {| err_kind := k; err_code := default_code k; safe_detail := balance_detail k detail;
     retryable := default_retryable k; retry_at := None |}.

Definition with_code (k : ProviderFailureKind) (c : SecureErrorCode) (detail : string) (retry : bool)
    : SecureClientError :=
  {| err_kind := k; err_code := c; safe_detail := balance_detail k detail; retryable := retry;
     retry_at := None |}.

Definition with_retry_at (e : SecureClientError) (at_ : option Z) : SecureClientError :=
  {| err_kind := err_kind e; err_code := err_code e; safe_detail := safe_detail e;
     retryable := retryable e; retry_at := at_ |}.

Definition requires_reattest_and_reencrypt (e : SecureClientError) : bool :=
  bool_decide (err_code e = CAttestationKeyChanged).

Definition configuration_error (d : string) : SecureClientError := new_error Configuration d.
Definition catalog_error (d : string) : SecureClientError := new_error InvalidResponse d.
Definition capability_error (d : string) : SecureClientError := new_error CapabilityMismatch d.
Definition cancelled_error : SecureClientError := new_error Cancelled "operation cancelled".
Definition attestation_error (d : string) : SecureClientError := new_error AttestationRejected d.
Definition session_error (d : string) : SecureClientError := new_error SessionEstablishment d.

(** ** HTTP statuses (catalog.rs) *)

Definition error_for_status (status : Z) : SecureClientError :=
  if (status =? 401) || (status =? 403) then new_error Authentication "Axiom authentication failed"
  else if status =? 402 then new_error InsufficientCredit INSUFFICIENT_CREDIT_MESSAGE
  else if status =? 404 then new_error ModelUnavailable "selected model is unavailable"
  else if (status =? 408) || (status =? 425) || ((500 <=? status) && (status <=? 504))
  then new_error Transient "Axiom service is temporarily unavailable"
  else if status =? 429
  then new_error RateLimited "Axiom is rate limited. Wait before trying again."
  else if (status =? 400) || (status =? 409) || (status =? 415) || (status =? 422)
  then new_error InvalidRequest "Axiom rejected the request contract"
  else new_error InvalidResponse "Axiom returned an unexpected status".

(** ** Error bodies (relay/client.rs) *)

Record PublicErrorDetail : Type := {
  pe_code : option string; retry_at_unix_seconds : option Z
}.
Record PublicErrorEnvelope : Type := { pe_detail : option PublicErrorDetail }.

Definition envelope_code (public : option PublicErrorEnvelope) : option string :=
  d ← public ≫= pe_detail; pe_code d.

Definition rejected_codes : list string :=
  ["PROVIDER_TDX_REJECTED"; "PROVIDER_GPU_ATTESTATION_REJECTED";
   "PROVIDER_TLS_BINDING_REJECTED"; "ATTESTATION_REJECTED"; "PROVIDER_ATTESTATION_REJECTED"].

Definition error_for_code (status : Z) (public : option PublicErrorEnvelope) (code : string)
    : SecureClientError :=
  if decide (code = "concurrent_stream_limit" /\ status = 429) then
    new_error RateLimited
      "Too many requests are already active for this account. Wait for a reply or stop a running request, then try again."
  else if decide (code = "trial_capacity" /\ status = 503) then
    with_retry_at
      (with_code RateLimited CTrialCapacity
         "Free trials are currently at capacity. Please try again later." true)
      (d ← public ≫= pe_detail; retry_at_unix_seconds d)
  else if decide (code = "ATTESTATION_KEY_CHANGED") then
    with_code AttestationRejected CAttestationKeyChanged
      "provider attestation key changed before inference" true
  else if decide (code = "ATTESTATION_EXPIRED") then
    with_code AttestationUnavailable CAttestationExpired "provider attestation lease expired" true
  else if decide (code = "ATTESTATION_UNAVAILABLE" \/ code = "PROVIDER_ATTESTATION_UNAVAILABLE") then
    with_code AttestationUnavailable CAttestationUnavailable
      "provider attestation is temporarily unavailable" true
  else if decide (code = "PROVIDER_TDX_OUT_OF_DATE") then
    with_code AttestationRejected COutdatedTee
      "The provider's Intel TDX environment is OutOfDate and requires security updates." false
  else if decide (code ∈ rejected_codes) then
    attestation_error
      "The provider's security evidence failed verification. See verification diagnostics."
  else if decide (code = "PROTOCOL_UNSUPPORTED") then
    with_code CapabilityMismatch CProtocolUnsupported "provider protocol is not supported" false
  else if decide (code = "SESSION_NOT_ACCEPTED") then
    with_code SessionEstablishment CSessionNotAccepted
      "provider worker session was not accepted" true
  else if decide (code = "RECEIPT_UNAVAILABLE") then
    with_code InvalidResponse CReceiptUnavailable "provider response receipt is unavailable" true
  else error_for_status status.

Definition error_for_status_body (status : Z) (public : option PublicErrorEnvelope)
    : SecureClientError :=
  match envelope_code public with
  | Some code => error_for_code status public code
  | None => error_for_status status
  end.

Definition stream_failure (code : option string) : SecureClientError :=
  if decide (code = Some "insufficient_credit" \/ code = Some "INSUFFICIENT_CREDIT") then
    new_error InsufficientCredit INSUFFICIENT_CREDIT_MESSAGE
  else
    let '(c, detail) :=
      if decide (code = Some "ATTESTATION_KEY_CHANGED") then
        (CAttestationKeyChanged, "The worker changed before inference. Verify a new session.")
      else if decide (code = Some "response_too_large") then
        (CResponseTooLarge, "The model response exceeded the response size budget.")
      else if decide (code = Some "provider_timeout") then
        (CStreamTimeout, "The provider stopped responding. Please retry.")
      else if decide (code = Some "provider_disconnected") then
        (CProviderDisconnected, "The provider connection was interrupted.")
      else (CTransient, "The provider could not finish this response. Please retry.") in
    with_code Transient c detail true.

(** ** Accounting lookups (relay/client.rs, [accounting]) *)

Definition request_ids_ok (ids : list string) : bool :=
  (Z.of_nat (length ids) <=? 100)
  && forallb (fun i => (len i =? 32)
                       && forallb (fun b => is_ascii_hexdigit b && negb (is_ascii_uppercase b))
                            (bytes i)) ids.

(** The [any] over the records, with the set of ids seen so far. *)
Fixpoint records_bad (ids seen : list string) (l : list RequestUsage) : bool :=
  match l with
  | [] => false
  | u :: l =>
    negb (bool_decide (Accounting.request_id u ∈ ids)) || negb (validate_counters u)
    || response_verified u || bool_decide (Accounting.request_id u ∈ seen)
    || records_bad ids (Accounting.request_id u :: seen) l
  end.

(** [accounting] with the exchange itself as the argument [fetch]. *)
Definition accounting (fetch : list string -> result SecureClientError (list RequestUsage))
    (ids : list string) : result SecureClientError (list RequestUsage) :=
  if bool_decide (ids = []) then Ok []
  else if negb (request_ids_ok ids) then Err (configuration_error "invalid accounting lookup IDs")
  else
    l ← fetch ids;
    if (Z.of_nat (length l) >? Z.of_nat (length ids)) || records_bad ids [] l
    then Err (catalog_error "invalid accounting response identity") else Ok l.

(** ** Remote text never reaches the user *)

Definition status_details : list string :=
  ["Axiom authentication failed"; INSUFFICIENT_CREDIT_MESSAGE; "selected model is unavailable";
   "Axiom service is temporarily unavailable"; "Axiom is rate limited. Wait before trying again.";
   "Axiom rejected the request contract"; "Axiom returned an unexpected status"].
Definition body_details : list string := status_details ++
  ["Too many requests are already active for this account. Wait for a reply or stop a running request, then try again.";
   "Free trials are currently at capacity. Please try again later.";
   "provider attestation key changed before inference"; "provider attestation lease expired";
   "provider attestation is temporarily unavailable";
   "The provider's Intel TDX environment is OutOfDate and requires security updates.";
   "The provider's security evidence failed verification. See verification diagnostics.";
   "provider protocol is not supported"; "provider worker session was not accepted";
   "provider response receipt is unavailable"].

Lemma error_for_status_facts status :
  let e := error_for_status status in
  safe_detail e ∈ status_details /\ err_code e = default_code (err_kind e) /\
  retryable e = default_retryable (err_kind e) /\ retry_at e = None.
Proof.
  unfold error_for_status. repeat case_match; cbn; split_and!; try done;
    apply (bool_decide_unpack _); by vm_compute.
Qed.

Lemma status_no_reattest status :
  requires_reattest_and_reencrypt (error_for_status status) = false.
Proof.
  unfold requires_reattest_and_reencrypt. apply bool_decide_eq_false.
  destruct (error_for_status_facts status) as (_ & -> & _). by destruct (err_kind _).
Qed.

(** A remote failure can only choose among the client's own messages: whatever
    the status and the body, the text shown is one of seventeen constants, and a
    retry time is reported only for the trial-capacity answer. *)
Theorem remote_text_is_never_shown status public :
  let e := error_for_status_body status public in
  safe_detail e ∈ body_details /\
  (retry_at e <> None -> err_code e = CTrialCapacity /\ status = 503).
Proof.
  cbv zeta. destruct (error_for_status_facts status) as (Hd & _ & _ & Hr).
  assert (Hs : safe_detail (error_for_status status) ∈ body_details)
    by (apply elem_of_app; by left).
  unfold error_for_status_body. destruct (envelope_code public) as [code|].
  2: { split; [exact Hs|]. intros Hra. by destruct Hra. }
  unfold error_for_code. repeat case_decide;
    (split; [first [exact Hs | apply (bool_decide_unpack _); vm_compute; exact I]|]; intros Hra;
     first [by destruct Hra | exfalso; apply Hra; reflexivity
           | split; [reflexivity|match goal with H : _ /\ status = 503 |- _ => apply H end]]).
Qed.

(** Only an explicit key change asks for a new attestation: the client
    re-attests and re-encrypts after a failed exchange exactly when the allowlisted
    code says so, whatever the status; and a failure for lack of credit always
    shows the top-up text and is never retried. *)
Theorem reattest_only_on_key_change status public code :
  (requires_reattest_and_reencrypt (error_for_status_body status public) = true <->
   envelope_code public = Some "ATTESTATION_KEY_CHANGED") /\
  (requires_reattest_and_reencrypt (stream_failure code) = true <->
   code = Some "ATTESTATION_KEY_CHANGED") /\
  (forall e, e = error_for_status_body status public \/ e = stream_failure code ->
   err_kind e = InsufficientCredit ->
   safe_detail e = INSUFFICIENT_CREDIT_MESSAGE /\ retryable e = false).
Proof.
  split_and!.
  - pose proof (status_no_reattest status) as Hs. unfold error_for_status_body.
    destruct (envelope_code public) as [c|]; [|rewrite Hs; done]. unfold error_for_code.
    repeat case_decide; subst; rewrite ?Hs; cbn; naive_solver.
  - unfold stream_failure. repeat case_decide; subst; cbn; naive_solver.
  - intros e [-> | ->] Hk.
    + destruct (error_for_status_facts status) as (Hd & _ & Hr & _).
      assert (Hsk : err_kind (error_for_status status) = InsufficientCredit ->
        safe_detail (error_for_status status) = INSUFFICIENT_CREDIT_MESSAGE /\
        retryable (error_for_status status) = false).
      { intros E. split; [|by rewrite Hr, E].
        unfold error_for_status in *. repeat case_match; try done. }
      revert Hk. unfold error_for_status_body.
      destruct (envelope_code public) as [c|]; [|exact Hsk]. unfold error_for_code.
      repeat case_decide; first [exact Hsk | intros Hk; discriminate Hk].
    + revert Hk. unfold stream_failure.
      repeat case_decide; first [intros Hk; discriminate Hk | intros _; split; reflexivity].
Qed.

(** A usage report the relay returns is about the caller's own requests: at
    most one well-formed record per requested id, none for another id, and none
    that claims a verified response, which only local verification establishes. *)
Theorem accounting_records_bound fetch ids l :
  accounting fetch ids = Ok l ->
  NoDup (Accounting.request_id <$> l) /\
  (forall u, u ∈ l -> Accounting.request_id u ∈ ids /\ validate_counters u = true /\
     response_verified u = false).
Proof.
  unfold accounting. case_bool_decide; [intros [= <-]; split; [constructor|set_solver]|].
  destruct (negb _); [done|]. intros H'. apply bind_Ok in H' as (l' & _ & H').
  destruct (_ || _) eqn:Hb; [done|]. injection H' as ->. apply orb_false_iff in Hb as [_ Hb].
  assert (Hgen : forall seen, records_bad ids seen l = false ->
    NoDup (Accounting.request_id <$> l) /\
    (forall u, u ∈ l -> Accounting.request_id u ∉ seen /\ Accounting.request_id u ∈ ids /\
       validate_counters u = true /\ response_verified u = false)).
  { clear Hb. induction l as [|u l IH]; intros seen Hs; [split; [constructor|set_solver]|].
    cbn [records_bad] in Hs. apply orb_false_iff in Hs as [Hs Hrest]. split_guards.
    destruct (IH _ Hrest) as [Hn Hl]. cbn. split.
    - constructor; [|done]. intros Hin. apply list_elem_of_fmap in Hin as (v & Hv & Hin).
      destruct (Hl v Hin) as [Hns _]. rewrite Hv in *. set_solver.
    - intros v [->|Hv]%elem_of_cons; [done|]. destruct (Hl v Hv) as (? & ? & ? & ?).
      split_and!; try done. set_solver. }
  destruct (Hgen [] Hb) as [Hn Hl]. split; [done|]. intros u Hu. by destruct (Hl u Hu).
Qed.

Definition usage_id : string := "0123456789abcdef0123456789abcdef".
Definition usage_record : RequestUsage := usage_for usage_id.

Lemma accounting_records_bound_witness :
  accounting (fun _ => Ok [usage_record]) [usage_id] = Ok [usage_record] /\
  NoDup [usage_id].
Proof.
  split; [by vm_compute|].
  apply (accounting_records_bound (fun _ => Ok [usage_record]) [usage_id] [usage_record]).
  by vm_compute.
Defined.
