(* ===== verification/TrustPolicy.v ===== *)
(** Signed trust policies (crates/axiom-secure-client/src/security.rs and the
    policy half of client.rs): verification of a signed document, the rollback
    journal, the refresh of the cached policy, and what happens when refreshes
    overlap.

    Parsing of the envelope, hexadecimal decoding, canonical serialization and
    Ed25519 are library code: the class [PolicyCrypto].  The clock, the HTTP
    exchange and the success of file writes are arguments of the steps. *)

From stdpp Require Import base strings list sets relations.
From Stdlib Require Import ZArith NArith Lia ZifyBool ZifyN.
From S2P Require Import Prelude RustStr ToolCalls Inference SecureError.

Local Open Scope Z_scope.

Definition POLICY_SIGNING_KEY_HEX : string :=
  "ba3609d6b3164683e1fa9ff70471b893c165cd6f59a4b6c19e5e6b4b89ccf766".

Record TrustPolicy : Type := {
  sequence : Z;
  version : string;
  expires_at_unix_seconds : Z;
  accepted_intel_statuses : list string;
  require_nvidia_verified : bool;
  require_model_binding : bool;
  require_live_tls_binding : bool;
  nvidia_anchor_sha256 : list string
}.

#[export] Instance TrustPolicy_eq_dec : EqDecision TrustPolicy.
Proof. solve_decision. Defined.

Record SignedPolicyDocument : Type := {
  d_schema_version : Z;
  d_sequence : Z;
  d_version : string;
  d_issued_at : Z;
  d_not_before : Z;
  d_expires_at : Z;
  d_statuses : list string;
  d_nvidia : bool;
  d_model_binding : bool;
  d_live_tls : bool;
  d_anchors : list string
}.
Record SignedPolicyEnvelope : Type := { env_policy : SignedPolicyDocument; env_signature : string }.

Class PolicyCrypto : Type := {
  VerifyingKey : Type;
  Signature : Type;
  parse_envelope : string -> option SignedPolicyEnvelope;
  hex_decode : string -> option (list N);
  key_from_bytes : list N -> option VerifyingKey;
  signature_from_slice : list N -> option Signature;
  canonical : SignedPolicyDocument -> option string;
  verify_strict : VerifyingKey -> string -> Signature -> bool
}.

Definition is_valid_at (p : TrustPolicy) (now : Z) : bool := expires_at_unix_seconds p >? now.

Definition fingerprint_ok (f : string) : bool :=
  (len f =? 64)
  && forallb (fun b => is_ascii_hexdigit b && negb (is_ascii_uppercase b)) (bytes f).

Definition policy_of (d : SignedPolicyDocument) : TrustPolicy :=
  {| sequence := d_sequence d; version := d_version d; expires_at_unix_seconds := d_expires_at d;
     accepted_intel_statuses := d_statuses d; require_nvidia_verified := d_nvidia d;
     require_model_binding := d_model_binding d; require_live_tls_binding := d_live_tls d;
     nvidia_anchor_sha256 := d_anchors d |}.

Definition document_bad (d : SignedPolicyDocument) (minimum now : Z) (permit_expired : bool) : bool :=
  negb (d_schema_version d =? 2)
  || (d_sequence d <? minimum)
  || (d_issued_at d >? now)
  || (d_not_before d >? now)
  || (negb permit_expired && (d_expires_at d <=? now))
  || (d_not_before d >? d_expires_at d)
  || negb (bool_decide (d_statuses d = ["UpToDate"]))
  || negb (d_nvidia d)
  || negb (d_model_binding d)
  || negb (d_live_tls d)
  || bool_decide (d_anchors d = [])
  || existsb (fun f => negb (fingerprint_ok f)) (d_anchors d)
  || is_blank (d_version d).

Record PersistedTrustPolicy : Type := { highest_sequence : Z; signed_policy : string }.
Abbreviation Journal := (option PersistedTrustPolicy).

Section Verify.
Context `{C : PolicyCrypto}.

(** The signature check of [from_signed_json_inner]. *)
Definition verified_document (input : string) : result SecureClientError SignedPolicyDocument :=
  envelope ← ok_or (parse_envelope input) (configuration_error "trust policy schema is invalid");
  public_key ← ok_or (hex_decode POLICY_SIGNING_KEY_HEX)
                 (configuration_error "trust policy key is invalid");
  public_key ← (if (length public_key =? 32)%nat then Ok public_key
                else Err (configuration_error "trust policy key is invalid"));
  key ← ok_or (key_from_bytes public_key) (configuration_error "trust policy key is invalid");
  signature ← ok_or (hex_decode (env_signature envelope) ≫= signature_from_slice)
                (configuration_error "trust policy signature is invalid");
  text ← ok_or (canonical (env_policy envelope)) (configuration_error "trust policy is invalid");
  if verify_strict key text signature then Ok (env_policy envelope)
  else Err (configuration_error "trust policy signature is invalid").

Definition from_signed_json_inner (input : string) (minimum now : Z) (permit_expired : bool)
    : result SecureClientError TrustPolicy :=
  document ← verified_document input;
  if document_bad document minimum now permit_expired
  then Err (configuration_error "trust policy is expired, rolled back, or weakens mandatory checks")
  else Ok (policy_of document).

Definition from_signed_json (input : string) (minimum now : Z) : result SecureClientError TrustPolicy :=
  from_signed_json_inner input minimum now false.


(** ** The rollback journal *)


(** The outcome of the file operations: nothing was written, the temporary file
    was renamed over the journal but the directory could not be synced, or all
    went well. *)
Inductive FileOutcome : Type := FileFails | FileUnsynced | FileWritten.

(** [persist_policy], under the file lock: the journal it leaves.  [fits] is the
    outcome of the size check. *)
Definition persist_policy (io : FileOutcome) (fits : bool) (signed : string) (p : TrustPolicy)
    : M Journal SecureClientError unit := fun journal =>
  let not_committed :=
    configuration_error "trust policy rollback journal could not be committed" in
  if match journal with Some j => highest_sequence j >? sequence p | None => false end
  then (journal, Err (configuration_error "trust policy rollback was rejected"))
  else if negb fits
  then (journal, Err (configuration_error "trust policy cache exceeds its configured bound"))
  else
    let written := Some {| highest_sequence := sequence p; signed_policy := signed |} in
    match io with
    | FileFails => (journal, Err not_committed)
    | FileUnsynced => (written, Err not_committed)
    | FileWritten => (written, Ok tt)
    end.

(** ** The cached policy *)

Record CachedTrustPolicy : Type := { policy : TrustPolicy; refreshed_at : option Z }.
Record Client : Type := { cached : CachedTrustPolicy; journal : Journal; has_path : bool }.

Definition with_cached (c : Client) (p : CachedTrustPolicy) : Client :=
  {| cached := p; journal := journal c; has_path := has_path c |}.
Definition with_journal (c : Client) (j : Journal) : Client :=
  {| cached := cached c; journal := j; has_path := has_path c |}.

(** What the world answers to one call: the unix time, the instant, the text the
    relay sent (or its failure), cancellation, and the file outcomes. *)
Record Answer : Type := {
  now : Z; instant : Z; wire : result SecureClientError (list N); cancelled : bool;
  io : FileOutcome; fits : bool
}.

Definition fresh_enough (interval : Z) (c : CachedTrustPolicy) (a : Answer) : bool :=
  is_valid_at (policy c) (now a)
  && match refreshed_at c with Some t => instant a - t <? interval | None => false end.

(** The candidate a reply yields against the policy read before it. *)
Definition check_candidate (current : TrustPolicy) (a : Answer)
    : result SecureClientError (string * TrustPolicy) :=
  bs ← wire a;
  signed ← ok_or (from_utf8 bs) (configuration_error "trust policy encoding is invalid");
  candidate ← from_signed_json signed (sequence current) (now a);
  if (sequence candidate =? sequence current) && negb (bool_decide (candidate = current))
  then Err (configuration_error "trust policy sequence equivocation was rejected")
  else Ok (signed, candidate).

(** The persistence of an upgrade. *)
Definition persist_upgrade (current : TrustPolicy) (signed : string) (candidate : TrustPolicy)
    (a : Answer) (c : Client) : Client * result SecureClientError unit :=
  if (sequence candidate >? sequence current) && has_path c then
    let '(j, r) := persist_policy (io a) (fits a) signed candidate (journal c) in
    (with_journal c j, r)
  else (c, Ok tt).

Definition commit (candidate : TrustPolicy) (a : Answer) (c : Client) : Client :=
  with_cached c {| policy := candidate; refreshed_at := Some (instant a) |}.

(** The [refresh] block, run without interruption. *)
Definition refresh (a : Answer) : M Client SecureClientError TrustPolicy := fun c =>
  match check_candidate (policy (cached c)) a with
  | Err e => (c, Err e)
  | Ok (signed, candidate) =>
    match persist_upgrade (policy (cached c)) signed candidate a c with
    | (c, Err e) => (c, Err e)
    | (c, Ok _) => (commit candidate a c, Ok candidate)
    end
  end.

(** The fallback to the last known good policy. *)
Definition fall_back (e : SecureClientError) (a : Answer) : M Client SecureClientError TrustPolicy :=
  fun c =>
  if cancelled a then (c, Err cancelled_error)
  else if is_valid_at (policy (cached c)) (now a)
  then (with_cached c {| policy := policy (cached c); refreshed_at := Some (instant a) |},
        Ok (policy (cached c)))
  else (c, Err e).

Definition trust_policy (interval : Z) (a : Answer) : M Client SecureClientError TrustPolicy :=
  fun c =>
  if fresh_enough interval (cached c) a then (c, Ok (policy (cached c)))
  else match refresh a c with
       | (c, Ok p) => (c, Ok p)
       | (c, Err e) => fall_back e a c
       end.
(** ** What a verified policy guarantees *)

(** The mandatory rules of any usable policy. *)
Record strict_policy (p : TrustPolicy) : Prop := {
  sp_statuses : accepted_intel_statuses p = ["UpToDate"];
  sp_nvidia : require_nvidia_verified p = true;
  sp_model : require_model_binding p = true;
  sp_tls : require_live_tls_binding p = true;
  sp_anchors : nvidia_anchor_sha256 p <> [] /\
               Forall (fun f => fingerprint_ok f = true) (nvidia_anchor_sha256 p)
}.

(** The publisher signed the document the policy comes from. *)
Definition signed_by_publisher (input : string) (p : TrustPolicy) : Prop :=
  exists envelope key_bytes key bs signature text,
    parse_envelope input = Some envelope /\
    hex_decode POLICY_SIGNING_KEY_HEX = Some key_bytes /\ key_from_bytes key_bytes = Some key /\
    hex_decode (env_signature envelope) = Some bs /\ signature_from_slice bs = Some signature /\
    canonical (env_policy envelope) = Some text /\ verify_strict key text signature = true /\
    p = policy_of (env_policy envelope).

Lemma from_signed_json_inner_Ok input minimum t permit p :
  from_signed_json_inner input minimum t permit = Ok p ->
  signed_by_publisher input p /\ strict_policy p /\ minimum <= sequence p /\
  (permit = false -> is_valid_at p t = true).
Proof.
  unfold from_signed_json_inner, verified_document. intros H.
  apply bind_Ok in H as (d & Hd & H).
  apply bind_Ok in Hd as (env & He & Hd). apply bind_Ok in Hd as (kb & Hkb & Hd).
  apply bind_Ok in Hd as (kb' & Hkb' & Hd). apply bind_Ok in Hd as (key & Hk & Hd).
  apply bind_Ok in Hd as (sg & Hs & Hd). apply bind_Ok in Hd as (text & Ht & Hd).
  apply ok_or_Ok in He, Hkb, Hk, Hs, Ht.
  destruct (length kb =? 32)%nat; [|done]. apply Ok_inj in Hkb' as <-.
  destruct (verify_strict key text sg) eqn:Hv; [|done]. apply Ok_inj in Hd as <-.
  destruct (document_bad _ _ _ _) eqn:Hb; [done|]. apply Ok_inj in H as <-.
  apply bind_Some in Hs as (bs & Hbs & Hsig).
  unfold document_bad in Hb. split_guards. split_and!.
  - exists env, kb, key, bs, sg, text. done.
  - constructor; try done. split; [done|]. apply Forall_forall. intros f Hf.
    match goal with H : existsb _ _ = false |- _ => rewrite existsb_false in H; apply H in Hf end.
    by apply negb_false_iff in Hf.
  - cbn. lia.
  - intros ->. unfold is_valid_at. cbn. destruct (d_expires_at _ <=? t) eqn:E; [done|]. lia.
Qed.

(** C32: A policy is accepted only if the publisher's key signed exactly its
    document, it is not expired at the time of the check, it is not older than
    the required sequence, and it weakens none of the mandatory checks: the only
    accepted Intel status is UpToDate, NVIDIA verification, model binding and
    live TLS binding are required, and every anchor is a lower-case SHA-256. *)
Theorem accepted_policy_is_signed_and_strict input minimum t p :
  from_signed_json input minimum t = Ok p ->
  signed_by_publisher input p /\ strict_policy p /\ minimum <= sequence p /\
  is_valid_at p t = true.
Proof. intros H. apply from_signed_json_inner_Ok in H as (? & ? & ? & ?). auto. Qed.

Lemma check_candidate_Ok current a signed p :
  check_candidate current a = Ok (signed, p) ->
  signed_by_publisher signed p /\ strict_policy p /\ is_valid_at p (now a) = true /\
  sequence current <= sequence p /\ (sequence p = sequence current -> p = current).
Proof.
  unfold check_candidate. intros H. apply bind_Ok in H as (bs & _ & H).
  apply bind_Ok in H as (s & _ & H). apply bind_Ok in H as (q & Hq & H).
  apply from_signed_json_inner_Ok in Hq as (? & ? & ? & Hval).
  destruct (_ && _) eqn:He; [done|]. apply Ok_inj in H as [= -> ->].
  split_and!; auto. intros Heq. rewrite Heq, Z.eqb_refl in He. cbn in He.
  apply negb_false_iff in He. by apply bool_decide_eq_true in He.
Qed.

(** [new] is a later policy than [old], or the same one. *)
Definition newer (old new : TrustPolicy) : Prop :=
  sequence old <= sequence new /\ (sequence new = sequence old -> new = old).

Lemma newer_refl p : newer p p.
Proof. split; [lia|done]. Qed.

Lemma persist_upgrade_cached current signed p a c :
  cached (fst (persist_upgrade current signed p a c)) = cached c.
Proof.
  unfold persist_upgrade. destruct (_ && _); [|done]. by destruct (persist_policy _ _ _ _ _).
Qed.

Lemma refresh_Ok a c c' p :
  refresh a c = (c', Ok p) ->
  policy (cached c') = p /\ newer (policy (cached c)) p /\ strict_policy p /\
  is_valid_at p (now a) = true.
Proof.
  unfold refresh. destruct (check_candidate _ a) as [[signed q]|e] eqn:Hc; [|done].
  apply check_candidate_Ok in Hc as (? & ? & ? & ? & ?).
  destruct (persist_upgrade _ _ _ _ _) as [c1 [[]|e]]; [|done]. intros [= <- <-]. cbn.
  by split_and!.
Qed.

Lemma refresh_Err a c c' e : refresh a c = (c', Err e) -> cached c' = cached c.
Proof.
  unfold refresh. destruct (check_candidate _ a) as [[signed q]|e']; [|by intros [= <- _]].
  pose proof (persist_upgrade_cached (policy (cached c)) signed q a c) as Hp.
  destruct (persist_upgrade _ _ _ _ _) as [c1 [[]|e']]; [done|]. by intros [= <- _].
Qed.

(** Calls that do not overlap never roll a client back: a call leaves the
    cached policy the same or installs one of a higher sequence (never another
    policy of the same sequence), and every policy it returns is the cached one
    and valid at the time of the call, even when the relay is down, lies, or the
    journal cannot be written. *)
Theorem trust_policy_never_rolls_back interval a c c' r :
  trust_policy interval a c = (c', r) ->
  newer (policy (cached c)) (policy (cached c')) /\
  (forall p, r = Ok p -> p = policy (cached c') /\ is_valid_at p (now a) = true).
Proof.
  unfold trust_policy. pose proof (newer_refl (policy (cached c))) as Hnr.
  destruct (fresh_enough interval (cached c) a) eqn:Hf.
  - intros [= <- <-]. split; [done|]. intros p [= <-]. unfold fresh_enough in Hf.
    by apply andb_true_iff in Hf as [? _].
  - destruct (refresh a c) as [c1 [p|e]] eqn:Hr.
    + intros [= <- <-]. apply refresh_Ok in Hr as (-> & ? & _ & ?).
      split; [done|]. by intros q [= <-].
    + apply refresh_Err in Hr. unfold fall_back. rewrite Hr.
      destruct (cancelled a); [intros [= <- <-]; by rewrite Hr|].
      destruct (is_valid_at _ _) eqn:Hv; intros [= <- <-]; cbn.
      * split; [done|]. by intros q [= <-].
      * by rewrite Hr.
Qed.
(** ** Overlapping calls

    [trust_policy] awaits between reading the current policy, committing the
    journal (under the file lock) and taking the write lock, so two calls on one
    client interleave at those points. *)

Inductive Stage : Type := Checked | Journaled.
Record Task : Type := {
  task_stage : Stage; answer : Answer; seen : TrustPolicy; task_signed : string;
  candidate : TrustPolicy
}.
Record World : Type := { client : Client; tasks : list Task }.

Inductive overlap_step : World -> World -> Prop :=
| ov_check w a signed p :
    check_candidate (policy (cached (client w))) a = Ok (signed, p) ->
    overlap_step w
      {| client := client w;
         tasks := {| task_stage := Checked; answer := a; seen := policy (cached (client w));
                     task_signed := signed; candidate := p |} :: tasks w |}
| ov_persist w l t k c r :
    tasks w = l ++ t :: k -> task_stage t = Checked ->
    persist_upgrade (seen t) (task_signed t) (candidate t) (answer t) (client w) = (c, r) ->
    overlap_step w
      {| client := c;
         tasks := match r with
                  | Ok _ => l ++ {| task_stage := Journaled; answer := answer t; seen := seen t;
                                    task_signed := task_signed t; candidate := candidate t |} :: k
                  | Err _ => l ++ k
                  end |}
| ov_commit w l t k :
    tasks w = l ++ t :: k -> task_stage t = Journaled ->
    overlap_step w {| client := commit (candidate t) (answer t) (client w); tasks := l ++ k |}.

Definition journal_sequence (j : Journal) : Z :=
  match j with Some j => highest_sequence j | None => 0 end.

(** The journal and every candidate come from the publisher. *)
Definition journal_ok (j : Journal) : Prop :=
  forall e, j = Some e ->
  exists p, signed_by_publisher (signed_policy e) p /\ sequence p = highest_sequence e.

Definition world_inv (w : World) : Prop :=
  journal_ok (journal (client w)) /\
  Forall (fun t => signed_by_publisher (task_signed t) (candidate t) /\
                   0 <= sequence (candidate t)) (tasks w) /\
  0 <= sequence (policy (cached (client w))).




End Verify.

(** ** A concrete publisher *)

Definition document_sample (n : Z) : SignedPolicyDocument :=
  {| d_schema_version := 2; d_sequence := n; d_version := "v"; d_issued_at := 1;
     d_not_before := 1; d_expires_at := 100; d_statuses := ["UpToDate"]; d_nvidia := true;
     d_model_binding := true; d_live_tls := true;
     d_anchors := ["2df8907cf4d6c277b855d407ec178a649930a8e73f7294e8fce66e6ee27c5175"] |}.

(** Documents named by one digit, every signature good. *)
Definition plain_crypto : PolicyCrypto :=
  {| VerifyingKey := unit;
     Signature := unit;
     parse_envelope := fun s =>
       n ← parse_digits 9 s; Some {| env_policy := document_sample n; env_signature := "aa" |};
     hex_decode := fun s => Some (take 32 (bytes s));
     key_from_bytes := fun _ => Some tt;
     signature_from_slice := fun _ => Some tt;
     canonical := fun d => Some "document";
     verify_strict := fun _ _ _ => true |}.

Definition answer_sample (text : string) (t : Z) : Answer :=
  {| now := 50; instant := t; wire := Ok (bytes text); cancelled := false; io := FileWritten;
     fits := true |}.
Definition client_sample (n : Z) (path : bool) : Client :=
  {| cached := {| policy := policy_of (document_sample n); refreshed_at := None |};
     journal := None; has_path := path |}.

Lemma accepted_policy_is_signed_and_strict_witness :
  @from_signed_json plain_crypto "3" 2 50 = Ok (policy_of (document_sample 3)) /\
  strict_policy (policy_of (document_sample 3)).
Proof.
  split; [by vm_compute|].
  apply (@accepted_policy_is_signed_and_strict plain_crypto "3" 2 50). by vm_compute.
Defined.

Lemma trust_policy_never_rolls_back_witness :
  newer (policy_of (document_sample 3)) (policy_of (document_sample 4)).
Proof.
  apply (@trust_policy_never_rolls_back plain_crypto 300 (answer_sample "4" 7) (client_sample 3 true)
    {| cached := {| policy := policy_of (document_sample 4); refreshed_at := Some 7 |};
       journal := Some {| highest_sequence := 4; signed_policy := "4" |}; has_path := true |}
    (Ok (policy_of (document_sample 4)))).
  by vm_compute.
Defined.

(** The interleaving of two refreshes of one client at sequence 3: the first
    reads the reply with sequence 4, the second reads sequence 5 and commits,
    then the first commits. *)
Definition race_task (n : Z) (text : string) (t : Z) (s : Stage) : Task :=
  {| task_stage := s; answer := answer_sample text t; seen := policy_of (document_sample 3);
     task_signed := text; candidate := policy_of (document_sample n) |}.
Definition race_world (cached_ : TrustPolicy) (t : option Z) (j : Journal) (ts : list Task) : World :=
  {| client := {| cached := {| policy := cached_; refreshed_at := t |}; journal := j;
                  has_path := true |};
     tasks := ts |}.
Definition race_journal (n : Z) (text : string) : Journal :=
  Some {| highest_sequence := n; signed_policy := text |}.

Lemma race_run :
  let p3 := policy_of (document_sample 3) in
  let p4 := policy_of (document_sample 4) in
  let p5 := policy_of (document_sample 5) in
  let middle := race_world p5 (Some 8) (race_journal 5 "5") [race_task 4 "4" 7 Journaled] in
  rtc (@overlap_step plain_crypto) (race_world p3 None None []) middle /\
  @overlap_step plain_crypto middle (race_world p4 (Some 7) (race_journal 5 "5") []).
Proof.
  intros p3 p4 p5 middle. split; [|exact (ov_commit middle [] (race_task 4 "4" 7 Journaled) [] eq_refl eq_refl)].
  eapply rtc_l; [apply (ov_check _ (answer_sample "4" 7) "4" p4); by vm_compute|].
  eapply rtc_l; [apply (ov_persist _ [] (race_task 4 "4" 7 Checked) []
    (client (race_world p3 None (race_journal 4 "4") [])) (Ok tt)); by vm_compute|].
  eapply rtc_l; [apply (ov_check _ (answer_sample "5" 8) "5" p5); by vm_compute|].
  eapply rtc_l; [apply (ov_persist _ [] (race_task 5 "5" 8 Checked) [race_task 4 "4" 7 Journaled]
    (client (race_world p3 None (race_journal 5 "5") [])) (Ok tt)); by vm_compute|].
  eapply rtc_l; [by apply (ov_commit _ [] (race_task 5 "5" 8 Journaled) [race_task 4 "4" 7 Journaled])|].
  apply rtc_refl.
Qed.

(** Overlapping calls can roll the cached policy back: since the candidate is
    checked against a policy read before the write lock is taken, and not again
    under it, an interleaving of two refreshes replaces a committed policy of
    sequence 5 by one of sequence 4, with the journal at 5. *)
Theorem overlapping_refreshes_roll_back :
  exists (C : PolicyCrypto) w w' w'',
    rtc overlap_step w w' /\ overlap_step w' w'' /\ world_inv w /\ tasks w = [] /\
    sequence (policy (cached (client w''))) < sequence (policy (cached (client w'))) /\
    journal_sequence (journal (client w')) = 5.
Proof.
  destruct race_run as [Hrun Hstep]. exists plain_crypto. eexists _, _, _.
  split; [exact Hrun|]. split; [exact Hstep|]. split_and!; try done.
Qed.

