(* ===== verification/Sse.v ===== *)
(** The relay's event stream (crates/axiom-secure-client/src/relay/sse.rs, with
    the payloads of relay/dto.rs and the deadline of relay/deadline.rs).

    The typed deserializers of the payloads are library code (class
    [RelayCodec]).  [feed] returns the decoder it leaves also on the error path.
    The receipt of a completed response arrives as numbered chunks that the
    decoder reassembles. *)

From stdpp Require Import base strings list sets.
From Stdlib Require Import ZArith NArith Lia ZifyBool ZifyN ZifyNat.
From S2P Require Import Prelude RustStr Json ToolCalls Accounting Inference SecureError.

Local Open Scope Z_scope.

(** ** Payloads (dto.rs) *)

Definition MAX_CIPHERTEXT_HEX_CHARS : Z := 40 * 1024 * 1024 + 1024.
Definition MIN_CIPHERTEXT_HEX_CHARS : Z := 144.

(** [CiphertextHex::new]. *)
Definition ciphertext_new (value : string) : result SecureClientError string :=
  if (len value <? MIN_CIPHERTEXT_HEX_CHARS) || (len value >? MAX_CIPHERTEXT_HEX_CHARS)
     || negb (len value mod 2 =? 0) || negb (forallb is_ascii_hexdigit (bytes value))
  then Err (new_error InvalidResponse "relay ciphertext is invalid") else Ok value.

Record RelayUsage : Type := {
  ru_prompt_tokens : option Z; ru_completion_tokens : option Z; ru_total_tokens : option Z;
  ru_cached_prompt_tokens : option Z
}.
Record EncryptedFunctionCallDelta : Type := {
  encrypted_name : option string; encrypted_arguments : option string
}.
Record EncryptedToolCallDelta : Type := {
  et_index : Z; et_id : option string; et_kind : option string;
  et_function : option EncryptedFunctionCallDelta
}.
Record CreatedPayload : Type := { cp_run_id : string; inference_encryption : string }.
Record DeltaPayload : Type := {
  dp_run_id : string;
  encrypted_delta : option string;
  encrypted_reasoning_delta : option string;
  encrypted_refusal_delta : option string;
  encrypted_tool_calls : list EncryptedToolCallDelta;
  dp_sequence : Z;
  response_id : option string;
  content_field : option string;
  reasoning_field : option string;
  refusal_field : option string
}.
Record CompletedPayload : Type := {
  mp_run_id : string; usage : RelayUsage; mp_finish_reason : string; proof : option Value
}.
Record RunPayload : Type := { rp_run_id : string }.
Record CancelledPayload : Type := { xp_run_id : string; xp_reason : option string }.
Record FailedPayload : Type := { fp_run_id : string; fp_error : string; fp_code : option string }.

(** A receipt chunk, the local struct [Part] of [accept_line]. *)
Record Part : Type := { part_run_id : string; part_index : Z; part_data : string }.

Class RelayCodec : Type := {
  decode_created : string -> option CreatedPayload;
  decode_accounting : string -> option RequestUsage;
  decode_delta : string -> option DeltaPayload;
  decode_completed : string -> option CompletedPayload;
  decode_run : string -> option RunPayload;
  decode_cancelled : string -> option CancelledPayload;
  decode_failed : string -> option FailedPayload;
  decode_part : string -> option Part
}.

Inductive RelayEvent : Type :=
| RunCreated (p : CreatedPayload)
| RelayAccounting (u : RequestUsage)
| Finalizing (p : RunPayload)
| Delta (p : DeltaPayload)
| MessageCompleted (p : CompletedPayload)
| RunCompleted (p : RunPayload)
| RelayCancelled (p : CancelledPayload)
| RelayFailed (p : FailedPayload).

(** ** The decoder *)

Record SseDecoder : Type := {
  event_limit : Z;
  stream_limit : Z;
  total_bytes : Z;
  event_bytes : Z;
  line : list N;
  event_name : option string;
  data : list string;
  proof_run_id : option string;
  proof_parts : Z;
  proof_body : string
}.

Definition new_decoder (event_limit stream_limit : Z) : SseDecoder :=
  {| event_limit := event_limit; stream_limit := stream_limit; total_bytes := 0;
     event_bytes := 0; line := []; event_name := None; data := []; proof_run_id := None;
     proof_parts := 0; proof_body := EmptyString |}.

Definition too_large : SecureClientError :=
  with_code InvalidResponse CResponseTooLarge "Response exceeded the allowed size." false.
Definition invalid_sse (detail : string) : SecureClientError := new_error InvalidResponse detail.

Definition with_total (d : SseDecoder) (n : Z) : SseDecoder :=
  {| event_limit := event_limit d; stream_limit := stream_limit d; total_bytes := n;
     event_bytes := event_bytes d; line := line d; event_name := event_name d; data := data d;
     proof_run_id := proof_run_id d; proof_parts := proof_parts d; proof_body := proof_body d |}.
Definition with_line (d : SseDecoder) (l : list N) (n : Z) : SseDecoder :=
  {| event_limit := event_limit d; stream_limit := stream_limit d; total_bytes := total_bytes d;
     event_bytes := n; line := l; event_name := event_name d; data := data d;
     proof_run_id := proof_run_id d; proof_parts := proof_parts d; proof_body := proof_body d |}.
Definition with_fields (d : SseDecoder) (n : option string) (l : list string) : SseDecoder :=
  {| event_limit := event_limit d; stream_limit := stream_limit d; total_bytes := total_bytes d;
     event_bytes := event_bytes d; line := line d; event_name := n; data := l;
     proof_run_id := proof_run_id d; proof_parts := proof_parts d; proof_body := proof_body d |}.
Definition with_proof (d : SseDecoder) (r : option string) (n : Z) (b : string) : SseDecoder :=
  {| event_limit := event_limit d; stream_limit := stream_limit d; total_bytes := total_bytes d;
     event_bytes := event_bytes d; line := line d; event_name := event_name d; data := data d;
     proof_run_id := r; proof_parts := n; proof_body := b |}.

Definition MAX_PROOF_BODY : Z := (32 * 1024 * 1024 / 3 + 1) * 4.

(** The proof object of a completed payload, replaced. *)
Definition with_payload_proof (p : CompletedPayload) (m : Map) : CompletedPayload :=
  {| mp_run_id := mp_run_id p; usage := usage p; mp_finish_reason := mp_finish_reason p;
     proof := Some (VObject m) |}.

Section Decoder.
Context `{RC : RelayCodec}.

Definition schema_error : SecureClientError := invalid_sse "relay SSE event schema is invalid".

Definition decode_as {A} (decode : string -> option A) (variant : A -> RelayEvent) (text : string)
    : result SecureClientError (option RelayEvent) :=
  p ← ok_or (decode text) schema_error; Ok (Some (variant p)).

Definition parse_event (n text : string) : result SecureClientError (option RelayEvent) :=
  if decide (n = "run.created") then decode_as decode_created RunCreated text
  else if decide (n = "run.accounting") then decode_as decode_accounting RelayAccounting text
  else if decide (n = "message.encrypted_delta") then decode_as decode_delta Delta text
  else if decide (n = "message.encrypted_completed")
  then decode_as decode_completed MessageCompleted text
  else if decide (n = "run.completed") then decode_as decode_run RunCompleted text
  else if decide (n = "run.finalizing") then decode_as decode_run Finalizing text
  else if decide (n = "run.cancelled") then decode_as decode_cancelled RelayCancelled text
  else if decide (n = "run.failed") then decode_as decode_failed RelayFailed text
  else Ok None.

(** One receipt chunk. *)
Definition accept_part (part : Part) : M SseDecoder SecureClientError unit := fun d =>
  if is_empty (part_run_id part)
     || (len (part_run_id part) >? 256)
     || negb (part_index part =? proof_parts d)
     || is_empty (part_data part)
     || (len (part_data part) >? 256 * 1024)
     || (saturating_add (len (proof_body d)) (len (part_data part)) >? MAX_PROOF_BODY)
     || match proof_run_id d with Some r => negb (bool_decide (r = part_run_id part)) | None => false end
  then (d, Err (invalid_sse "receipt chunk sequence or size is invalid"))
  else (with_proof d (Some (part_run_id part)) (proof_parts d + 1) (proof_body d +:+ part_data part),
        Ok tt).

(** The terminal event: takes the reassembled body when its proof counts it. *)
Definition complete_message (p : CompletedPayload) : M SseDecoder SecureClientError CompletedPayload :=
  fun d =>
  match proof p ≫= as_object with
  | Some m =>
    let count := map_get "response_body_chunk_count" m in
    let m := map_remove "response_body_chunk_count" m in
    if (0 <? proof_parts d) || (if count then true else false) then
      if negb (bool_decide (count ≫= as_u64 = Some (proof_parts d)))
         || (proof_parts d =? 0)
         || negb (bool_decide (proof_run_id d = Some (mp_run_id p)))
         || map_contains "response_body_base64" m
      then (d, Err (invalid_sse "incomplete or duplicated receipt chunks"))
      else (with_proof d None 0 EmptyString,
            Ok (with_payload_proof p
                  (map_insert "response_body_base64" (VString (proof_body d)) m)))
    else (d, Ok (with_payload_proof p m))
  | None =>
    if 0 <? proof_parts d
    then (d, Err (invalid_sse "receipt chunks have no terminal proof")) else (d, Ok p)
  end.

(** A complete event of the stream. *)
Definition dispatch (n text : string) : M SseDecoder SecureClientError (list RelayEvent) := fun d =>
  if decide (n = "message.proof_chunk") then
    match decode_part text with
    | None => (d, Err (invalid_sse "invalid receipt chunk"))
    | Some part => match accept_part part d with
                   | (d, Ok _) => (d, Ok [])
                   | (d, Err e) => (d, Err e)
                   end
    end
  else match parse_event n text with
       | Err e => (d, Err e)
       | Ok None => (d, Ok [])
       | Ok (Some (MessageCompleted p)) =>
         match complete_message p d with
         | (d, Ok p) => (d, Ok [MessageCompleted p])
         | (d, Err e) => (d, Err e)
         end
       | Ok (Some event) => (d, Ok [event])
       end.

Definition accept_field (l : string) : M SseDecoder SecureClientError (list RelayEvent) := fun d =>
  let '(field, value) := default (l, EmptyString) (split_once ":" l) in
  let value := default value (strip_prefix " " value) in
  if decide (field = "event") then
    match event_name d with
    | None => (with_fields d (Some value) (data d), Ok [])
    | Some _ => (d, Err (invalid_sse "relay SSE event name is duplicated"))
    end
  else if decide (field = "data") then (with_fields d (event_name d) (data d ++ [value]), Ok [])
  else (d, Ok []).

Definition accept_line (raw : list N) : M SseDecoder SecureClientError (list RelayEvent) := fun d =>
  match from_utf8 raw with
  | None => (d, Err (invalid_sse "relay SSE control data is not UTF-8"))
  | Some l =>
    if is_empty l then
      if bool_decide (event_name d = None) && bool_decide (data d = [])
      then (with_line d (line d) 0, Ok [])
      else
        let n := default "message" (event_name d) in
        if bool_decide (data d = [])
        then (with_fields d None (data d), Err (invalid_sse "relay SSE event data is missing"))
        else dispatch n (join newline (data d)) (with_line (with_fields d None []) (line d) 0)
    else if starts_with ":" l then (d, Ok [])
    else accept_field l d
  end.

(** [line.pop()] of a final carriage return. *)
Definition strip_cr (l : list N) : list N :=
  if bool_decide (last l = Some 13%N) then removelast l else l.

Definition feed_byte (b : N) : M SseDecoder SecureClientError (list RelayEvent) := fun d =>
  let full := line d ++ [b] in
  if saturating_add (event_bytes d) (Z.of_nat (length full)) >? event_limit d
  then (with_line d full (event_bytes d), Err too_large)
  else if (b =? 10)%N then
    let l := strip_cr (line d) in
    accept_line l (with_line d [] (saturating_add (event_bytes d) (Z.of_nat (length l) + 1)))
  else (with_line d full (event_bytes d), Ok []).

Fixpoint feed_bytes (bs : list N) : M SseDecoder SecureClientError (list RelayEvent) := fun d =>
  match bs with
  | [] => (d, Ok [])
  | b :: bs =>
    match feed_byte b d with
    | (d, Err e) => (d, Err e)
    | (d, Ok events) =>
      match feed_bytes bs d with
      | (d, Err e) => (d, Err e)
      | (d, Ok more) => (d, Ok (events ++ more))
      end
    end
  end.

Definition feed (bs : list N) : M SseDecoder SecureClientError (list RelayEvent) := fun d =>
  match checked_add (total_bytes d) (Z.of_nat (length bs)) with
  | None => (d, Err too_large)
  | Some total =>
    let d := with_total d total in
    if total >? stream_limit d then (d, Err too_large) else feed_bytes bs d
  end.

Definition finish (d : SseDecoder) : result SecureClientError unit :=
  if bool_decide (line d = []) && bool_decide (event_name d = None) && bool_decide (data d = [])
     && (event_bytes d =? 0) && (proof_parts d =? 0)
  then Ok tt else Err (invalid_sse "relay SSE stream ended inside an event").
End Decoder.

(** ** The stream deadline (deadline.rs), in milliseconds of a monotone clock *)

Record StreamDeadline : Type := { deadline : Z; stage : string; finalizing : bool }.

Definition new_deadline (now : Z) : StreamDeadline :=
  {| deadline := now + 300000; stage := "first model response"; finalizing := false |}.

Definition observe (now : Z) (event : RelayEvent) (s : StreamDeadline) : StreamDeadline :=
  match event with
  | Delta _ =>
    if finalizing s then s
    else {| deadline := now + 90000; stage := "model progress"; finalizing := finalizing s |}
  | Finalizing _ | MessageCompleted _ =>
    if finalizing s then s
    else {| deadline := now + 60000; stage := "final response receipt"; finalizing := true |}
  | _ => s
  end.

Definition deadline_error (s : StreamDeadline) : SecureClientError :=
  with_code Transient CStreamTimeout
    (if decide (stage s = "first model response")
     then "Timed out waiting for the model to start responding."
     else if decide (stage s = "final response receipt")
     then "Timed out waiting for the final response receipt."
     else "The provider stopped responding.") true.

(** ** Chunking does not matter *)

Section Properties.
Context `{RC : RelayCodec}.

(** Feeding a list of network chunks. *)
Fixpoint feeds (chunks : list (list N)) : M SseDecoder SecureClientError (list RelayEvent) := fun d =>
  match chunks with
  | [] => (d, Ok [])
  | c :: chunks =>
    match feed c d with
    | (d, Err e) => (d, Err e)
    | (d, Ok events) =>
      match feeds chunks d with
      | (d, Err e) => (d, Err e)
      | (d, Ok more) => (d, Ok (events ++ more))
      end
    end
  end.

(** The byte counter of the stream does not influence decoding. *)
Definition framed {A} (n : Z) (x : SseDecoder * A) : SseDecoder * A := (with_total x.1 n, x.2).

Lemma accept_part_framed n p d : accept_part p (with_total d n) = framed n (accept_part p d).
Proof. unfold accept_part. cbn [proof_parts proof_body proof_run_id with_total]. by destruct (_ || _). Qed.

Lemma complete_message_framed n p d :
  complete_message p (with_total d n) = framed n (complete_message p d).
Proof.
  unfold complete_message. cbn [proof_parts proof_body proof_run_id with_total].
  destruct (proof p ≫= as_object) as [m|]; [|by destruct (0 <? proof_parts d)].
  destruct (_ || _); [|done]. by destruct (_ || _).
Qed.

Lemma dispatch_framed n e text d : dispatch e text (with_total d n) = framed n (dispatch e text d).
Proof.
  unfold dispatch. destruct (decide (e = _)).
  - destruct (decode_part text) as [p|]; [|done]. rewrite accept_part_framed. unfold framed.
    by destruct (accept_part p d) as [d' [[]|]].
  - destruct (parse_event e text) as [[[]|]|]; try done.
    rewrite complete_message_framed. unfold framed. by destruct (complete_message p d) as [d' []].
Qed.

Lemma accept_field_framed n l d : accept_field l (with_total d n) = framed n (accept_field l d).
Proof.
  unfold accept_field. destruct (default _ _) as [f v]. cbn [event_name data with_total].
  destruct (decide _); [by destruct (event_name d)|]. by destruct (decide _).
Qed.

Lemma accept_line_framed n l d : accept_line l (with_total d n) = framed n (accept_line l d).
Proof.
  unfold accept_line. destruct (from_utf8 l) as [s|]; [|done].
  destruct (is_empty s).
  - cbn [event_name data line with_total]. destruct (_ && _); [done|].
    destruct (bool_decide (data d = [])); [done|].
    exact (dispatch_framed n _ _ (with_line (with_fields d None []) (line d) 0)).
  - destruct (starts_with ":" s); [done|]. apply accept_field_framed.
Qed.

Lemma feed_byte_framed n b d : feed_byte b (with_total d n) = framed n (feed_byte b d).
Proof.
  unfold feed_byte. cbn [line event_bytes event_limit with_total]. destruct (_ >? _); [done|].
  destruct (b =? 10)%N; [|done]. exact (accept_line_framed n _ (with_line d [] _)).
Qed.

Lemma feed_bytes_framed n bs d : feed_bytes bs (with_total d n) = framed n (feed_bytes bs d).
Proof.
  revert d. induction bs as [|b bs IH]; intros d; [done|]. cbn [feed_bytes].
  rewrite feed_byte_framed. unfold framed at 1. destruct (feed_byte b d) as [d1 [evs|e]]; [|done].
  cbn [fst snd]. rewrite IH. unfold framed. by destruct (feed_bytes bs d1) as [d2 []].
Qed.

(** Decoding leaves the limits and the counter alone. *)
Definition same_limits (d d' : SseDecoder) : Prop :=
  event_limit d' = event_limit d /\ stream_limit d' = stream_limit d /\
  total_bytes d' = total_bytes d.

Lemma accept_part_limits p d : same_limits d (fst (accept_part p d)).
Proof. unfold accept_part. by destruct (_ || _). Qed.

Lemma complete_message_limits p d : same_limits d (fst (complete_message p d)).
Proof.
  unfold complete_message. destruct (proof p ≫= as_object) as [m|].
  - destruct (_ || _); [|done]. by destruct (_ || _).
  - by destruct (0 <? proof_parts d).
Qed.

Lemma dispatch_limits e text d : same_limits d (fst (dispatch e text d)).
Proof.
  unfold dispatch. destruct (decide (e = _)).
  - destruct (decode_part text) as [p|]; [|done]. pose proof (accept_part_limits p d) as H.
    by destruct (accept_part p d) as [d' [[]|]].
  - destruct (parse_event e text) as [[[]|]|]; try done.
    pose proof (complete_message_limits p d) as H. by destruct (complete_message p d) as [d' []].
Qed.

Lemma accept_line_limits l d : same_limits d (fst (accept_line l d)).
Proof.
  unfold accept_line, accept_field. destruct (from_utf8 l) as [s|]; [|done]. destruct (is_empty s).
  - destruct (_ && _); [done|]. destruct (bool_decide (data d = [])); [done|].
    apply (dispatch_limits _ _ (with_line (with_fields d None []) (line d) 0)).
  - destruct (starts_with ":" s); [done|]. destruct (default _ _) as [f v].
    destruct (decide _); [by destruct (event_name d)|]. by destruct (decide _).
Qed.

Lemma feed_byte_limits b d : same_limits d (fst (feed_byte b d)).
Proof.
  unfold feed_byte. destruct (_ >? _); [done|]. destruct (b =? 10)%N; [|done].
  apply (accept_line_limits _ (with_line d [] _)).
Qed.

Lemma feed_bytes_limits bs d : same_limits d (fst (feed_bytes bs d)).
Proof.
  revert d. induction bs as [|b bs IH]; intros d; [done|]. cbn [feed_bytes].
  pose proof (feed_byte_limits b d) as H1. destruct (feed_byte b d) as [d1 [evs|e]]; [|done].
  specialize (IH d1). destruct (feed_bytes bs d1) as [d2 [|]]; cbn in *; unfold same_limits in *;
    naive_solver congruence.
Qed.

Lemma feed_bytes_app a b d :
  feed_bytes (a ++ b) d =
  match feed_bytes a d with
  | (d, Err e) => (d, Err e)
  | (d, Ok events) => match feed_bytes b d with
                      | (d, Err e) => (d, Err e)
                      | (d, Ok more) => (d, Ok (events ++ more))
                      end
  end.
Proof.
  revert d. induction a as [|x a IH]; intros d; cbn [app feed_bytes].
  - by destruct (feed_bytes b d) as [d1 []].
  - destruct (feed_byte x d) as [d1 [evs|e]]; [|done]. rewrite IH.
    destruct (feed_bytes a d1) as [d2 [evs2|e]]; [|done].
    destruct (feed_bytes b d2) as [d3 [evs3|e]]; [|done]. by rewrite app_assoc.
Qed.

Lemma feed_Ok bs d d' events :
  feed bs d = (d', Ok events) <->
  let n := total_bytes d + Z.of_nat (length bs) in
  n <= U64_MAX /\ n <= stream_limit d /\ feed_bytes bs (with_total d n) = (d', Ok events).
Proof.
  unfold feed, checked_add. cbv zeta. destruct (_ <=? U64_MAX) eqn:Hu; [|naive_solver lia].
  cbn [stream_limit with_total]. destruct (_ >? stream_limit d) eqn:Hs; naive_solver lia.
Qed.

Lemma with_total_total d n m : with_total (with_total d n) m = with_total d m.
Proof. reflexivity. Qed.

Lemma feed_app a b d d' events :
  feed (a ++ b) d = (d', Ok events) <->
  exists d1 e1 e2, feed a d = (d1, Ok e1) /\ feed b d1 = (d', Ok e2) /\ events = e1 ++ e2.
Proof.
  setoid_rewrite feed_Ok. cbv zeta. rewrite length_app, feed_bytes_app, !feed_bytes_framed.
  pose proof (feed_bytes_limits a d) as (Hl1 & Hl2 & Hl3).
  destruct (feed_bytes a d) as [d1 [e1|e]]; cbn [fst snd framed] in *.
  2: { split; [by intros (_ & _ & ?)|]. by intros (? & ? & ? & (_ & _ & ?) & _). }
  unfold framed at 1. cbn [fst snd]. rewrite feed_bytes_framed.
  split.
  - intros (Hu & Hs & H). exists (with_total d1 (total_bytes d + Z.of_nat (length a))), e1.
    destruct (feed_bytes b d1) as [d2 [e2|e]] eqn:Hb; [|done]. cbn in H. injection H as <- <-.
    exists e2. cbn [total_bytes stream_limit with_total]. rewrite with_total_total, feed_bytes_framed, Hb, Hl2.
    unfold framed. cbn. split_and!; try done; try lia. f_equal. f_equal. lia.
  - intros (d3 & e3 & e2 & (Hu1 & Hs1 & H1) & (Hu2 & Hs2 & H2) & ->).
    injection H1 as <- <-. cbn [total_bytes stream_limit with_total] in *.
    rewrite with_total_total, feed_bytes_framed in H2. rewrite Hl2 in Hs2.
    destruct (feed_bytes b d1) as [d2 [e2'|e]]; [|done]. unfold framed in *. cbn in *.
    injection H2 as <- <-. split_and!; try lia. f_equal. f_equal. lia.
Qed.

Lemma with_total_same d : with_total d (total_bytes d + 0) = d.
Proof. destruct d. unfold with_total. cbn. f_equal. lia. Qed.

Lemma feed_nil d :
  total_bytes d <= stream_limit d -> total_bytes d <= U64_MAX -> feed [] d = (d, Ok []).
Proof.
  intros Hs Hu. unfold feed, checked_add. cbn [length].
  replace (total_bytes d + Z.of_nat 0 <=? U64_MAX) with true by lia. cbn [stream_limit with_total].
  replace (total_bytes d + Z.of_nat 0 >? stream_limit d) with false by lia.
  cbn [feed_bytes]. by rewrite with_total_same.
Qed.

Lemma feed_total bs d d' events :
  feed bs d = (d', Ok events) ->
  total_bytes d' <= stream_limit d' /\ total_bytes d' <= U64_MAX /\
  event_limit d' = event_limit d /\ stream_limit d' = stream_limit d.
Proof.
  intros H. apply feed_Ok in H as (Hu & Hs & H).
  pose proof (feed_bytes_limits bs (with_total d (total_bytes d + Z.of_nat (length bs)))) as Hl.
  rewrite H in Hl. destruct Hl as (H1 & H2 & H3). cbn in *. rewrite H1, H2, H3. done.
Qed.

(** Network chunking is invisible: feeding the stream in any chunks succeeds
    exactly when feeding it whole does, with the same events in the same order
    and the same decoder afterwards. *)
Theorem chunking_is_invisible chunks d d' events :
  total_bytes d <= stream_limit d -> total_bytes d <= U64_MAX ->
  feeds chunks d = (d', Ok events) <-> feed (mjoin chunks) d = (d', Ok events).
Proof.
  revert d events. induction chunks as [|c chunks IH]; intros d events Hs Hu.
  - cbn [feeds]. change (mjoin []) with (@nil N). by rewrite feed_nil.
  - change (mjoin (c :: chunks)) with (c ++ mjoin chunks). rewrite feed_app. cbn [feeds].
    destruct (feed c d) as [d1 [e1|e]] eqn:Hc; [|naive_solver].
    destruct (feed_total _ _ _ _ Hc) as (Hs1 & Hu1 & _ & _). specialize (IH d1).
    split.
    + destruct (feeds chunks d1) as [d2 [e2|e]]; [|done]. intros [= <- <-].
      exists d1, e1, e2. split_and!; try done. by apply IH.
    + intros (d1' & e1' & e2 & [= <- <-] & H2 & ->). apply IH in H2; [|done|done]. by rewrite H2.
Qed.
End Properties.

(** ** Examples *)

(** A codec that reads a receipt chunk as two bytes, its run and its index,
    before its data, and a completed payload as a run and a chunk count. *)
Definition tiny_codec : RelayCodec := {|
  decode_created := fun _ => None; decode_accounting := fun _ => None; decode_delta := fun _ => None;
  decode_completed := fun s =>
    match s with
    | String r (String k _) =>
      Some {| mp_run_id := String r EmptyString;
              usage := {| ru_prompt_tokens := None; ru_completion_tokens := None;
                          ru_total_tokens := None; ru_cached_prompt_tokens := None |};
              mp_finish_reason := "stop";
              proof := Some (VObject [("response_body_chunk_count",
                                       VNumber (PosInt (Z.of_N (byte_val k) - 48)))]) |}
    | _ => None
    end;
  decode_run := fun _ => None; decode_cancelled := fun _ => None; decode_failed := fun _ => None;
  decode_part := fun s =>
    match s with
    | String r (String k s) =>
      Some {| part_run_id := String r EmptyString; part_index := Z.of_N (byte_val k) - 48;
              part_data := s |}
    | _ => None
    end
|}.

(** One receipt chunk, then the response that announces it. *)
Definition wire_sample : list N :=
  mjoin ((fun l => bytes l ++ [10%N]) <$>
    ["event: message.proof_chunk"; "data: r0QUJD"; EmptyString;
     "event: message.encrypted_completed"; "data: r1"; EmptyString]).

Lemma chunking_is_invisible_witness :
  exists d' events,
  @feeds tiny_codec [take 50 wire_sample; []; drop 50 wire_sample] (new_decoder 1000 10000)
  = (d', Ok events) /\ length events = 1%nat.
Proof.
  eexists _, _. split.
  - apply (@chunking_is_invisible tiny_codec); [vm_compute; discriminate|vm_compute; discriminate|].
    vm_compute. reflexivity.
  - reflexivity.
Defined.
