(* ===== verification/Receipts.v ===== *)
(** What the relay's decoder of [Sse] promises on whole streams: its memory stays
    inside the limits it was made with, a well-formed stream of frames is
    dispatched frame by frame, and the receipt a completed response carries is
    the concatenation of exactly the chunks announced for it. *)

From stdpp Require Import base strings list sets.
From Stdlib Require Import ZArith NArith Lia ZifyBool ZifyN ZifyNat.
From S2P Require Import Prelude RustStr Json ToolCalls Content Accounting Inference SecureError Sse.

Local Open Scope Z_scope.

(** ** Frames, as a server writes them *)

(** An event: its name and the lines of its data. *)
Record Frame : Type := { frame_name : string; frame_lines : list string }.

Definition encode_line (l : string) : list N := bytes l ++ [10%N].
Definition frame_text_lines (f : Frame) : list string :=
  ("event: " +:+ frame_name f) :: (String.append "data: " <$> frame_lines f) ++ [EmptyString].
Definition encode_frame (f : Frame) : list N := mjoin (encode_line <$> frame_text_lines f).
Definition frame_event (f : Frame) : string * string := (frame_name f, join newline (frame_lines f)).

(** A line that can be sent: valid text without a line feed or a final carriage
    return. *)
Definition line_ok (l : string) : Prop :=
  valid_utf8 l = true /\ 10%N ∉ bytes l /\ last (bytes l) <> Some 13%N.

Record frame_ok (limit : Z) (f : Frame) : Prop := {
  fk_name : line_ok (frame_name f);
  fk_lines : Forall line_ok (frame_lines f);
  fk_data : frame_lines f <> [];
  fk_size : Z.of_nat (length (encode_frame f)) <= limit
}.

(** Between two events. *)
Record idle (d : SseDecoder) : Prop := {
  id_line : line d = []; id_bytes : event_bytes d = 0; id_name : event_name d = None;
  id_data : data d = []
}.

Section Frames.
Context `{RC : RelayCodec}.

(** Dispatching a list of events. *)
Fixpoint dispatches (es : list (string * string)) : M SseDecoder SecureClientError (list RelayEvent) :=
  fun d =>
  match es with
  | [] => (d, Ok [])
  | (n, text) :: es =>
    match dispatch n text d with
    | (d, Err e) => (d, Err e)
    | (d, Ok events) =>
      match dispatches es d with
      | (d, Err e) => (d, Err e)
      | (d, Ok more) => (d, Ok (events ++ more))
      end
    end
  end.

(** ** Lines *)

Lemma feed_plain bs d :
  10%N ∉ bs -> event_bytes d + Z.of_nat (length (line d) + length bs) <= event_limit d ->
  event_limit d <= U64_MAX ->
  feed_bytes bs d = (with_line d (line d ++ bs) (event_bytes d), Ok []).
Proof.
  revert d. induction bs as [|b bs IH]; intros d Hn Hl Hu.
  - destruct d. cbn. by rewrite app_nil_r.
  - rewrite not_elem_of_cons in Hn. destruct Hn as [Hb Hn]. cbn [feed_bytes length] in *.
    unfold feed_byte. rewrite length_app. cbn [length].
    rewrite saturating_add_exact by lia. replace (_ >? _) with false by lia.
    rewrite (proj2 (N.eqb_neq b 10)) by congruence.
    rewrite IH; cbn [with_line line event_bytes event_limit]; rewrite ?length_app; cbn [length];
      [|done|lia|done].
    cbn. by rewrite <- app_assoc.
Qed.

Lemma strip_cr_plain l : last l <> Some 13%N -> strip_cr l = l.
Proof. intros H. unfold strip_cr. by rewrite bool_decide_eq_false_2. Qed.

Lemma feed_line l d :
  line_ok l -> line d = [] -> event_bytes d + len l + 1 <= event_limit d ->
  0 <= event_bytes d -> event_limit d <= U64_MAX ->
  feed_bytes (encode_line l) d =
  accept_line (bytes l) (with_line d [] (event_bytes d + len l + 1)).
Proof.
  intros (Hv & Hn & Hc) Hd Hl Hb Hu. pose proof (len_bytes l) as Hlen.
  unfold encode_line. rewrite feed_bytes_app, feed_plain by (rewrite ?Hd; cbn [length]; (done || lia)).
  rewrite Hd. cbn [feed_bytes app]. unfold feed_byte. cbn [with_line line event_bytes event_limit].
  rewrite length_app. cbn [length].
  rewrite !saturating_add_exact by (rewrite ?strip_cr_plain by done; lia).
  replace (_ >? _) with false by lia. cbn [N.eqb Pos.eqb].
  rewrite strip_cr_plain by done.
  replace (event_bytes d + (Z.of_nat (length (bytes l)) + 1)) with (event_bytes d + len l + 1) by lia.
  change (with_line (with_line d (bytes l) (event_bytes d)) [] (event_bytes d + len l + 1))
    with (with_line d [] (event_bytes d + len l + 1)).
  destruct (accept_line _ _) as [d' [evs|e]]; cbn; [by rewrite app_nil_r|done].
Qed.

Lemma from_utf8_bytes l : valid_utf8 l = true -> from_utf8 (bytes l) = Some l.
Proof. unfold from_utf8, valid_utf8. rewrite of_bytes_bytes. by destruct (utf8_decode l). Qed.

(** ** Frames *)

Lemma line_ok_prefix p l :
  valid_utf8 p = true -> 10%N ∉ bytes p -> last (bytes p) <> Some 13%N -> p <> EmptyString ->
  line_ok l -> line_ok (p +:+ l).
Proof.
  intros Hv Hn Hc Hp (Hv' & Hn' & Hc'). split_and!.
  - by apply valid_utf8_app.
  - rewrite bytes_app, not_elem_of_app. done.
  - rewrite bytes_app, last_app. by destruct (last (bytes l)).
Qed.

Lemma accept_event_line n d :
  valid_utf8 n = true -> event_name d = None ->
  accept_line (bytes ("event: " +:+ n)) d = (with_fields d (Some n) (data d), Ok []).
Proof.
  intros Hv Hn. unfold accept_line. rewrite from_utf8_bytes by (by apply valid_utf8_app).
  change (is_empty ("event: " +:+ n)) with false.
  change (starts_with ":" ("event: " +:+ n)) with false. cbv iota.
  unfold accept_field. change (split_once ":" ("event: " +:+ n)) with (Some ("event", " " +:+ n)).
  cbn [default from_option]. unfold Datatypes.id. cbv iota beta. rewrite strip_prefix_app. cbn [from_option].
  rewrite decide_True by done. by rewrite Hn.
Qed.

Lemma accept_data_line x d :
  valid_utf8 x = true ->
  accept_line (bytes ("data: " +:+ x)) d = (with_fields d (event_name d) (data d ++ [x]), Ok []).
Proof.
  intros Hv. unfold accept_line. rewrite from_utf8_bytes by (by apply valid_utf8_app).
  change (is_empty ("data: " +:+ x)) with false.
  change (starts_with ":" ("data: " +:+ x)) with false. cbv iota.
  unfold accept_field. change (split_once ":" ("data: " +:+ x)) with (Some ("data", " " +:+ x)).
  cbn [default from_option]. unfold Datatypes.id. cbv iota beta. rewrite strip_prefix_app. cbn [from_option].
  by rewrite decide_False, decide_True by done.
Qed.

Lemma length_encode_line l : Z.of_nat (length (encode_line l)) = len l + 1.
Proof. unfold encode_line. rewrite length_app, len_bytes. cbn. lia. Qed.

(** The data lines, once the decoder is inside an event. *)
Lemma feed_data_lines ls d :
  Forall line_ok ls -> line d = [] -> 0 <= event_bytes d -> event_limit d <= U64_MAX ->
  let bs := mjoin (encode_line <$> (String.append "data: " <$> ls)) in
  event_bytes d + Z.of_nat (length bs) <= event_limit d ->
  feed_bytes bs d =
  (with_line (with_fields d (event_name d) (data d ++ ls)) [] (event_bytes d + Z.of_nat (length bs)),
   Ok []).
Proof.
  intros Hls. revert d. induction Hls as [|x ls Hx _ IH]; intros d Hd Hb Hu; cbv zeta; intros Hl.
  - destruct d. cbn in *. subst. by rewrite app_nil_r, Z.add_0_r.
  - cbn [fmap list_fmap] in *. change (mjoin (?a :: ?l)) with (a ++ mjoin l) in *.
    rewrite length_app in *. pose proof (length_encode_line ("data: " +:+ x)) as Hlen.
    assert (Hok : line_ok ("data: " +:+ x)).
    { apply line_ok_prefix; [done| |done..]. vm_compute. set_solver. }
    rewrite feed_bytes_app, feed_line by (done || lia).
    rewrite accept_data_line by apply Hx.
    rewrite IH; cbn [with_fields with_line line event_bytes event_limit]; [|done|lia|done|lia].
    unfold with_line, with_fields. cbn [event_limit stream_limit total_bytes event_bytes event_name data proof_run_id proof_parts proof_body app].
    rewrite <- app_assoc. do 2 f_equal. lia.
Qed.

Lemma feed_frame f d :
  idle d -> frame_ok (event_limit d) f -> event_limit d <= U64_MAX ->
  feed_bytes (encode_frame f) d = dispatch (frame_name f) (join newline (frame_lines f)) d.
Proof.
  intros [Hl Hb Hn Hd] [Hfn Hfl Hfd Hsz] Hu.
  unfold encode_frame, frame_text_lines in *. cbn [fmap list_fmap] in *.
  change (mjoin (?a :: ?l)) with (a ++ mjoin l) in *. rewrite fmap_app, join_app in *.
  rewrite !length_app in Hsz. change (mjoin (encode_line <$> [EmptyString])) with [10%N] in *.
  cbn [length] in Hsz. pose proof (length_encode_line ("event: " +:+ frame_name f)) as Hlen.
  assert (Hok : line_ok ("event: " +:+ frame_name f)).
  { apply line_ok_prefix; [done| |done..]. vm_compute. set_solver. }
  rewrite feed_bytes_app, feed_line by (done || lia). rewrite accept_event_line by (apply Hfn || done).
  rewrite feed_bytes_app, feed_data_lines
    by (cbn [with_fields with_line line event_bytes event_limit]; (done || lia)).
  cbn [with_fields with_line line event_bytes event_limit data event_name]. rewrite Hd.
  change ([] ++ frame_lines f) with (frame_lines f).
  set (d1 := with_line _ _ _).
  change [10%N] with (encode_line EmptyString). rewrite feed_line; subst d1;
    cbn [with_fields with_line line event_bytes event_limit];
    [| |done|change (len EmptyString) with 0; lia|lia|done].
  2: { split_and!; [done|set_solver|done]. }
  unfold accept_line. change (from_utf8 (bytes EmptyString)) with (Some EmptyString).
  cbn [is_empty event_name data with_fields with_line line].
  rewrite bool_decide_eq_false_2 by done. rewrite bool_decide_eq_false_2 by done. cbn [andb default from_option].
  unfold Datatypes.id.
  match goal with |- context [dispatch _ _ (with_line ?a ?b ?c)] => replace (with_line a b c) with d end.
  2: { destruct d. cbn in *. by subst. }
  destruct (dispatch _ _ d) as [d' [evs|e]]; cbn; by rewrite ?app_nil_r.
Qed.

(** Dispatching only touches the receipt. *)
Lemma dispatch_idle n text d : idle d -> idle (dispatch n text d).1.
Proof.
  intros [H1 H2 H3 H4]. unfold dispatch, accept_part, complete_message.
  repeat first [case_match; simplify_eq/= | by constructor].
Qed.

Lemma dispatches_limits es d :
  event_limit (dispatches es d).1 = event_limit d.
Proof.
  revert d. induction es as [|[n text] es IH]; intros d; [done|]. cbn [dispatches].
  pose proof (dispatch_limits n text d) as [Hl _]. destruct (dispatch n text d) as [d1 [e1|]]; [|done].
  specialize (IH d1). destruct (dispatches es d1) as [d2 []]; cbn in *; congruence.
Qed.

Lemma feed_frames fs d :
  idle d -> Forall (frame_ok (event_limit d)) fs -> event_limit d <= U64_MAX ->
  feed_bytes (mjoin (encode_frame <$> fs)) d = dispatches (frame_event <$> fs) d.
Proof.
  intros Hi Hf Hu. revert d Hi Hf Hu. induction fs as [|f fs IH]; intros d Hi Hf Hu; [done|].
  apply Forall_cons in Hf as [Hf Hfs]. cbn [fmap list_fmap dispatches].
  change (mjoin (?a :: ?l)) with (a ++ mjoin l). rewrite feed_bytes_app, feed_frame by done.
  unfold frame_event at 1. pose proof (dispatch_idle (frame_name f) (join newline (frame_lines f)) d Hi) as Hd.
  pose proof (dispatch_limits (frame_name f) (join newline (frame_lines f)) d) as [Hl _].
  destruct (dispatch _ _ d) as [d1 [e1|e]]; cbn in *; [|done]. rewrite IH by (rewrite ?Hl; done). done.
Qed.

(** A well-formed stream is read frame by frame: feeding the bytes of any
    frames, comments aside, dispatches exactly their events in order, with the
    data lines joined by line feeds, and fails exactly where a dispatch fails. *)
Theorem frames_are_dispatched fs d :
  idle d -> Forall (frame_ok (event_limit d)) fs -> event_limit d <= U64_MAX ->
  stream_limit d <= U64_MAX ->
  let bs := mjoin (encode_frame <$> fs) in
  let total := total_bytes d + Z.of_nat (length bs) in
  total <= stream_limit d ->
  feed bs d = dispatches (frame_event <$> fs) (with_total d total).
Proof.
  intros Hi Hf Hu Hs bs total Ht. unfold feed. fold total.
  replace (checked_add _ _) with (Some total) by (symmetry; apply checked_add_Some; subst total; lia).
  cbn [stream_limit with_total]. replace (total >? stream_limit d) with false by lia.
  apply feed_frames; [|done|done]. destruct Hi. by constructor.
Qed.

(** ** Receipts *)

(** The chunks received since the last completed response. *)
Definition pending_step (ps : list Part) (e : string * string) : list Part :=
  if decide (e.1 = "message.proof_chunk") then ps ++ option_list (decode_part e.2)
  else if decide (e.1 = "message.encrypted_completed") then [] else ps.
Definition pending (es : list (string * string)) : list Part := foldl pending_step [] es.

(** What the decoder knows of the chunks [ps]. *)
Record holds (ps : list Part) (d : SseDecoder) : Prop := {
  ho_parts : proof_parts d = Z.of_nat (length ps);
  ho_body : proof_body d = str_concat (part_data <$> ps);
  ho_index : part_index <$> ps = seqZ 0 (Z.of_nat (length ps));
  ho_run : Forall (fun p => proof_run_id d = Some (part_run_id p)) ps
}.

Lemma str_concat_snoc l x : str_concat (l ++ [x]) = str_concat l +:+ x.
Proof.
  unfold str_concat. induction l as [|y l IH]; cbn; [by rewrite str_app_nil_r|].
  by rewrite IH, str_app_assoc.
Qed.

Lemma accept_part_holds p ps d d' :
  accept_part p d = (d', Ok tt) -> holds ps d -> holds (ps ++ [p]) d'.
Proof.
  unfold accept_part. case_match eqn:Hg; [done|]. intros [= <-] [H1 H2 H3 H4].
  repeat (apply orb_false_iff in Hg as [Hg ?]). constructor; cbn [with_proof proof_parts proof_body proof_run_id].
  - rewrite length_app. cbn. lia.
  - rewrite fmap_app, H2. cbn. by rewrite str_concat_snoc.
  - rewrite fmap_app, length_app, H3. cbn [length].
    rewrite Nat2Z.inj_add, seqZ_app by lia. f_equal. change (Z.of_nat 1) with 1. unfold seqZ. change (seq 0 (Z.to_nat 1)) with [0%nat]. cbn [fmap list_fmap]. f_equal. lia.
  - apply Forall_app. split; [|by repeat constructor].
    eapply Forall_impl; [done|]. intros q Hq. cbn in Hq. rewrite Hq in *.
    match goal with H : negb (bool_decide _) = false |- _ =>
      apply negb_false_iff, bool_decide_eq_true in H; by rewrite H end.
Qed.

Lemma map_contains_false k m : map_contains k m = false -> map_get k m = None.
Proof. unfold map_contains. by destruct (map_get k m). Qed.

(** What a completed response carries, given the chunks [ps] before it. *)
Definition receipt_of (ps : list Part) (p p' : CompletedPayload) : Prop :=
  mp_run_id p' = mp_run_id p /\ usage p' = usage p /\ mp_finish_reason p' = mp_finish_reason p /\
  match ps with
  | [] => proof p' = proof p
          /\ forall m, proof p = Some (VObject m) -> map_get "response_body_chunk_count" m = None
  | _ =>
    Forall (fun q => part_run_id q = mp_run_id p) ps /\
    part_index <$> ps = seqZ 0 (Z.of_nat (length ps)) /\
    exists m m', proof p = Some (VObject m) /\ proof p' = Some (VObject m') /\
      map_get "response_body_chunk_count" m = Some (VNumber (PosInt (Z.of_nat (length ps)))) /\
      map_get "response_body_base64" m = None /\
      map_get "response_body_base64" m' = Some (VString (str_concat (part_data <$> ps)))
  end.

Lemma map_remove_absent key m : map_get key m = None -> map_remove key m = m.
Proof.
  induction m as [|[k v] m IH]; [done|]. unfold map_remove in *. rewrite filter_cons. simpl.
  case_decide; [done|]. intros Hm. rewrite decide_True by done. by rewrite IH.
Qed.

Lemma complete_message_holds p p' ps d d' :
  complete_message p d = (d', Ok p') -> holds ps d -> holds [] d' /\ receipt_of ps p p'.
Proof.
  unfold complete_message. intros H [H1 H2 H3 H4].
  assert (Hnil : proof_parts d = 0 -> ps = []) by (destruct ps; cbn in *; [done|lia]).
  destruct (proof p) as [v|] eqn:Hp; [destruct v as [| | | | |m]|]; cbn [mbind option_bind as_object] in H.
  6: {
    destruct (map_get "response_body_chunk_count" m) as [c|] eqn:Hc.
    - rewrite orb_true_r in H. case_match eqn:Hg; [done|]. injection H as <- <-.
      repeat (apply orb_false_iff in Hg as [Hg ?]).
      apply negb_false_iff, bool_decide_eq_true in Hg.
      match goal with H : negb (bool_decide _) = false |- _ =>
        apply negb_false_iff, bool_decide_eq_true in H; rename H into Hr end.
      split; [by constructor|]. split_and!; [done..|].
      destruct ps as [|q ps]; [cbn in *; lia|]. split_and!.
      + eapply Forall_impl; [done|]. intros x Hx. cbn in Hx. congruence.
      + done.
      + eexists m, _. split_and!; [done|reflexivity| | |].
        * rewrite Hc. rewrite <- H1. destruct c as [| |[]| | |]; cbn in Hg; congruence.
        * rewrite <- (map_get_remove_ne "response_body_chunk_count") by done.
          match goal with H : map_contains _ _ = false |- _ => by apply map_contains_false in H end.
        * rewrite map_get_insert_eq. by rewrite H2.
    - rewrite orb_false_r in H. destruct (0 <? proof_parts d) eqn:Hz; [done|].
      injection H as <- <-. assert (ps = []) as -> by (apply Hnil; lia). split; [by constructor|].
      unfold receipt_of. cbn. rewrite map_remove_absent by done. split_and!; naive_solver. }
  all: destruct (0 <? proof_parts d) eqn:Hz; [done|]; injection H as <- <-;
    assert (ps = []) as -> by (apply Hnil; lia); (split; [by constructor|]); unfold receipt_of;
    split_and!; try done; intros m Hm; congruence.
Qed.

Lemma dispatch_completed text d :
  dispatch "message.encrypted_completed" text d =
  match decode_completed text with
  | None => (d, Err schema_error)
  | Some p => match complete_message p d with
              | (d, Ok p) => (d, Ok [MessageCompleted p])
              | (d, Err e) => (d, Err e)
              end
  end.
Proof.
  unfold dispatch. rewrite decide_False by done. unfold parse_event.
  rewrite !decide_False, decide_True by done. unfold decode_as. by destruct (decode_completed text).
Qed.

Lemma parse_event_completed n text p :
  parse_event n text = Ok (Some (MessageCompleted p)) -> n = "message.encrypted_completed".
Proof.
  unfold parse_event, decode_as. repeat case_decide; try done;
    match goal with |- context [ok_or ?o _] => by destruct o end.
Qed.

Lemma dispatch_holds n text ps d d' out :
  dispatch n text d = (d', Ok out) -> holds ps d -> holds (pending_step ps (n, text)) d'.
Proof.
  intros H Hh. unfold pending_step. cbn [fst snd].
  destruct (decide (n = "message.encrypted_completed")) as [->|Hn].
  - rewrite decide_False by done. rewrite dispatch_completed in H.
    destruct (decode_completed text) as [p|]; [|done].
    destruct (complete_message p d) as [d1 [p'|]] eqn:Hc; [|done]. injection H as <- _.
    eapply complete_message_holds; eauto.
  - unfold dispatch in H. destruct (decide (n = "message.proof_chunk")).
    + destruct (decode_part text) as [p|]; [|done].
      destruct (accept_part p d) as [d1 [[]|]] eqn:Hc; [|done]. injection H as <- _.
      eapply accept_part_holds; eauto.
    + destruct (parse_event n text) as [[[]|]|] eqn:Hp; try (by injection H as <- _); try done.
      by apply parse_event_completed in Hp.
Qed.

Lemma dispatches_holds es ps d d' out :
  dispatches es d = (d', Ok out) -> holds ps d -> holds (foldl pending_step ps es) d'.
Proof.
  revert ps d out. induction es as [|[n text] es IH]; intros ps d out H Hh.
  - injection H as <- _. done.
  - cbn [dispatches foldl] in *. destruct (dispatch n text d) as [d1 [e1|]] eqn:Hd; [|done].
    destruct (dispatches es d1) as [d2 [e2|]] eqn:Hds; [|done]. injection H as <- _.
    eapply IH; [done|]. eapply dispatch_holds; eauto.
Qed.

(** C35: A receipt is whole or refused: whatever events came before, a completed
    response is delivered only when the chunks since the previous one are all of
    its own run, numbered from zero without gap, and as many as its proof
    announces, and its proof then carries exactly their concatenation; a
    response that announces none arrives with its proof untouched. *)
Theorem receipts_are_whole el sl es d out text d' p' :
  dispatches es (new_decoder el sl) = (d, Ok out) ->
  dispatch "message.encrypted_completed" text d = (d', Ok [MessageCompleted p']) ->
  exists p, decode_completed text = Some p /\ receipt_of (pending es) p p'.
Proof.
  intros Hes H. assert (Hh : holds (pending es) d).
  { eapply dispatches_holds; [done|]. by constructor. }
  rewrite dispatch_completed in H. destruct (decode_completed text) as [p|]; [|done].
  destruct (complete_message p d) as [d1 [p1|]] eqn:Hc; [|done]. injection H as <- <-.
  exists p. split; [done|]. eapply complete_message_holds; eauto.
Qed.

(** ** Memory *)

(** The bytes of the event under construction. *)
Definition held (d : SseDecoder) : Z :=
  match event_name d with Some n => len n | None => 0 end
  + foldr Z.add 0 (len <$> data d).

(** Between two bytes. *)
Record within (d : SseDecoder) : Prop := {
  wi_line : event_bytes d + Z.of_nat (length (line d)) <= event_limit d;
  wi_held : 0 <= held d <= event_bytes d;
  wi_body : len (proof_body d) <= MAX_PROOF_BODY
}.
(** Also after a refused byte. *)
Definition within_one (d : SseDecoder) : Prop :=
  held d + Z.of_nat (length (line d)) <= event_limit d + 1
  /\ len (proof_body d) <= MAX_PROOF_BODY.

Lemma within_within_one d : within d -> within_one d.
Proof. intros [H1 H2 H3]. split; [lia|done]. Qed.

Lemma accept_part_within p d : within d -> within (accept_part p d).1.
Proof.
  intros [H1 H2 H3]. unfold accept_part. case_match eqn:Hg; [done|].
  do 2 apply orb_false_iff in Hg as [Hg ?]. constructor; cbn; [done|done|].
  rewrite len_app. assert (saturating_add (len (proof_body d)) (len (part_data p)) <= MAX_PROOF_BODY) by lia.
  apply saturating_add_le; [done|done].
Qed.

Lemma complete_message_within p d : within d -> within (complete_message p d).1.
Proof.
  intros [H1 H2 H3]. unfold complete_message.
  repeat first [case_match; simplify_eq/= | by constructor].
Qed.

Lemma dispatch_within n text d : within d -> within (dispatch n text d).1.
Proof.
  intros Hw. unfold dispatch. destruct (decide (n = _)).
  - destruct (decode_part text) as [p|]; [|done]. apply (accept_part_within p) in Hw.
    by destruct (accept_part p d) as [d1 [[]|]].
  - destruct (parse_event n text) as [[[]|]|]; try done.
    match goal with p : CompletedPayload |- _ => apply (complete_message_within p) in Hw;
      by destruct (complete_message p d) as [d1 []] end.
Qed.

Lemma split_once_len p l x y : split_once p l = Some (x, y) -> len x + len y <= len l.
Proof. intros H. apply split_once_Some in H as ->. rewrite !len_app. pose proof (len_nonneg p). lia. Qed.

Lemma strip_prefix_len p s : len (default s (strip_prefix p s)) <= len s.
Proof.
  destruct (strip_prefix p s) eqn:H; cbn; [|done]. apply strip_prefix_length in H.
  pose proof (len_nonneg p). lia.
Qed.

Lemma len_of_bytes l : len (of_bytes l) = Z.of_nat (length l).
Proof. unfold len. f_equal. induction l; cbn; congruence. Qed.

Lemma foldr_add_start l a : foldr Z.add a l = foldr Z.add 0 l + a.
Proof. induction l as [|x l IH]; cbn; lia. Qed.

(** A line costs at most its length. *)
Lemma accept_line_within raw d :
  within (with_line d (line d) (event_bytes d - Z.of_nat (length raw))) ->
  event_bytes d + Z.of_nat (length (line d)) <= event_limit d ->
  within (accept_line raw d).1.
Proof.
  intros [H1 H2 H3] Hl. cbn [with_line event_bytes line event_limit proof_body] in *.
  assert (H2' : 0 <= held d <= event_bytes d) by (unfold held in *; cbn in *; lia).
  assert (Hsame : within d) by (by constructor).
  unfold accept_line. destruct (from_utf8 raw) as [l|] eqn:Hu; [|done].
  assert (Hlen : len l = Z.of_nat (length raw)).
  { unfold from_utf8 in Hu. destruct (utf8_decode _); [|done]. injection Hu as <-.
    rewrite len_of_bytes. done. }
  destruct (is_empty l).
  - destruct (bool_decide _ && bool_decide _) eqn:Hb.
    + apply andb_true_iff in Hb as [Hn Hd]. apply bool_decide_eq_true in Hn, Hd.
      constructor; cbn; [lia| |done]. unfold held. cbn. rewrite Hn, Hd. cbn. lia.
    + destruct (bool_decide (data d = [])) eqn:Hd.
      * apply bool_decide_eq_true in Hd. constructor; cbn; [done| |done].
        unfold held in *. cbn. rewrite Hd in *. cbn in *. lia.
      * apply dispatch_within. constructor; cbn; [lia| |done]. unfold held. cbn. lia.
  - destruct (starts_with ":" l); [done|]. unfold accept_field.
    destruct (default _ _) as [f v] eqn:Hs.
    assert (Hv : len v <= len l).
    { destruct (split_once ":" l) as [[x y]|] eqn:Hso; cbn in Hs; injection Hs as <- <-.
      - apply split_once_len in Hso. pose proof (len_nonneg x). lia.
      - apply len_nonneg. }
    pose proof (strip_prefix_len " " v) as Hv'. cbv zeta.
    set (value := default v (strip_prefix " " v)) in *. pose proof (len_nonneg value).
    destruct (decide (f = _)); [destruct (event_name d) eqn:Hn; [done|]|destruct (decide (f = _)); [|done]].
    + constructor; cbn; [done| |done]. unfold held in *. cbn in *. rewrite Hn in *. lia.
    + constructor; cbn; [done| |done]. unfold held in *. cbn in *.
      rewrite fmap_app, foldr_app. cbn. rewrite foldr_add_start. lia.
Qed.

Lemma strip_cr_length l : (length (strip_cr l) <= length l)%nat.
Proof.
  unfold strip_cr. case_bool_decide as Hl; [|done]. rewrite removelast_firstn_len, length_firstn. lia.
Qed.

Lemma feed_byte_within b d :
  within d -> event_limit d < U64_MAX ->
  let r := feed_byte b d in within_one r.1 /\ (is_ok r.2 = true -> within r.1).
Proof.
  intros Hw Hu. pose proof Hw as [H1 H2 H3]. cbv zeta. unfold feed_byte. rewrite length_app. cbn [length].
  destruct (_ >? _) eqn:Hg.
  - split; [|done]. split; cbn; [|done]. unfold held in *. cbn. rewrite length_app. cbn. lia.
  - assert (Hg' : saturating_add (event_bytes d) (Z.of_nat (length (line d) + 1)) <= event_limit d) by lia.
    apply saturating_add_le in Hg'; [|done].
    pose proof (strip_cr_length (line d)) as Hs. destruct (b =? 10)%N.
    + rewrite saturating_add_exact by lia.
      assert (Hw' : within (accept_line (strip_cr (line d))
        (with_line d [] (event_bytes d + (Z.of_nat (length (strip_cr (line d))) + 1)))).1).
      { apply accept_line_within; [|cbn; lia].
        constructor; cbn; [lia| |done]. unfold held in *. cbn. lia. }
      split; [by apply within_within_one|done].
    + assert (Hw' : within (with_line d (line d ++ [b]) (event_bytes d))).
      { constructor; cbn; [rewrite length_app; cbn; lia| |done]. unfold held in *. cbn. lia. }
      split; [by apply within_within_one|done].
Qed.

Lemma feed_bytes_within bs d :
  within d -> event_limit d < U64_MAX ->
  let r := feed_bytes bs d in within_one r.1 /\ (is_ok r.2 = true -> within r.1).
Proof.
  revert d. induction bs as [|b bs IH]; intros d Hw Hu; cbv zeta.
  - split; [by apply within_within_one|done].
  - cbn [feed_bytes]. pose proof (feed_byte_within b d Hw Hu) as [H1 H2].
    pose proof (feed_byte_limits b d) as [Hl _].
    destruct (feed_byte b d) as [d1 [e1|e]]; [|done]. cbn in *. rewrite <- Hl in Hu.
    specialize (IH d1 (H2 eq_refl) Hu) as [H3 H4]. by destruct (feed_bytes bs d1) as [d2 []].
Qed.

Lemma feed_within bs d :
  within d -> event_limit d < U64_MAX ->
  let r := feed bs d in within_one r.1 /\ (is_ok r.2 = true -> within r.1).
Proof.
  intros Hw Hu. cbv zeta. unfold feed. destruct (checked_add _ _) as [n|].
  - assert (Hw' : within (with_total d n)) by (destruct Hw; by constructor).
    cbv zeta. destruct (n >? _); [split; [by apply within_within_one|done]|].
    by apply feed_bytes_within.
  - split; [by apply within_within_one|done].
Qed.

Lemma feed_event_limit bs d : event_limit (feed bs d).1 = event_limit d.
Proof.
  unfold feed. destruct (checked_add _ _) as [n|]; [|done]. cbv zeta. destruct (_ >? _); [done|].
  apply (feed_bytes_limits bs (with_total d n)).
Qed.

(** The decoder's memory is bounded by its limits, whatever the relay sends
    and however the stream is cut: after any chunks, accepted or refused, the
    unfinished line and the event under construction together take at most one
    byte more than the event limit, and the receipt at most its 42.7 MiB. *)
Theorem sse_memory_is_bounded el sl chunks :
  0 <= el < U64_MAX ->
  let d := (feeds chunks (new_decoder el sl)).1 in
  held d + Z.of_nat (length (line d)) <= el + 1 /\ len (proof_body d) <= 44739244.
Proof.
  intros Hel. assert (Hgen : forall chunks d, within d -> event_limit d = el ->
    within_one (feeds chunks d).1 /\ event_limit (feeds chunks d).1 = el).
  { clear chunks. induction chunks as [|c chunks IH]; intros d Hw Hl.
    - split; [by apply within_within_one|done].
    - cbn [feeds]. pose proof (feed_within c d Hw ltac:(lia)) as [H1 H2].
      pose proof (feed_event_limit c d) as H3. destruct (feed c d) as [d1 [e1|e]]; cbn in *; [|by rewrite H3].
      destruct (IH d1 (H2 eq_refl)) as [H4 H5]; [congruence|].
      by destruct (feeds chunks d1) as [d2 []]. }
  destruct (Hgen chunks (new_decoder el sl)) as [[H1 H2] H3]; [|done|].
  - constructor; cbn; [lia|unfold held; cbn; lia|done].
  - cbv zeta. rewrite H3 in H1. split; [done|]. exact H2.
Qed.
End Frames.

(** ** The deadline *)

Definition is_delta (e : RelayEvent) : bool := match e with Delta _ => true | _ => false end.
Definition is_final (e : RelayEvent) : bool :=
  match e with Finalizing _ | MessageCompleted _ => true | _ => false end.

(** The deadline after the events, each with the time it arrived at. *)
Definition watch (start : Z) (es : list (Z * RelayEvent)) : StreamDeadline :=
  foldl (fun s e => observe e.1 e.2 s) (new_deadline start) es.

Lemma watch_finalizing es s :
  finalizing s = true -> foldl (fun s e => observe e.1 e.2 s) s es = s.
Proof.
  intros H. induction es as [|[t e] es IH]; [done|]. cbn.
  assert (observe t e s = s) as -> by (by destruct e; cbn; rewrite ?H). done.
Qed.

Lemma watch_quiet es s :
  Forall (fun e => is_delta e.2 = false /\ is_final e.2 = false) es ->
  foldl (fun s e => observe e.1 e.2 s) s es = s.
Proof. induction 1 as [|[t e] es [H1 H2] _ IH]; [done|]. cbn in *. by destruct e. Qed.

Lemma watch_open es start :
  Forall (fun e => is_final e.2 = false) es -> finalizing (watch start es) = false.
Proof.
  unfold watch. assert (Hg : forall s, finalizing s = false ->
    Forall (fun e => is_final e.2 = false) es ->
    finalizing (foldl (fun s e => observe e.1 e.2 s) s es) = false).
  { induction es as [|[t e] es IH]; intros s Hs Hf; [done|]. apply Forall_cons in Hf as [He Hf].
    cbn. apply IH; [|done]. cbn in He. by destruct e; cbn; rewrite ?Hs. }
  by apply Hg.
Qed.

(** A stalled stream is always cut: metadata, usage reports and repeated
    terminal events never move the deadline.  It is five minutes from the start,
    or 90 seconds from the latest model progress, and from the first terminal
    event on exactly 60 seconds, whatever follows. *)
Theorem stalls_are_cut start before t e after :
  (forall quiet, Forall (fun e => is_delta e.2 = false /\ is_final e.2 = false) quiet ->
     deadline (watch start quiet) = start + 300000) /\
  (Forall (fun e => is_final e.2 = false) before ->
   (is_delta e = true -> Forall (fun e => is_delta e.2 = false /\ is_final e.2 = false) after ->
      deadline (watch start (before ++ (t, e) :: after)) = t + 90000) /\
   (is_final e = true -> deadline (watch start (before ++ (t, e) :: after)) = t + 60000)).
Proof.
  split.
  - intros quiet Hq. unfold watch. by rewrite watch_quiet.
  - intros Hb. pose proof (watch_open before start Hb) as Hf. unfold watch in *. rewrite foldl_app.
    cbn [foldl fst snd]. split.
    + intros He Ha. rewrite watch_quiet by done. destruct e; try done. cbn. by rewrite Hf.
    + intros He. rewrite watch_finalizing; destruct e; try done; cbn; by rewrite Hf.
Qed.

(** ** Examples *)

Definition frames_sample : list Frame :=
  [ {| frame_name := "message.proof_chunk"; frame_lines := ["r0QUJD"] |};
    {| frame_name := "message.proof_chunk"; frame_lines := ["r1REVG"] |};
    {| frame_name := "message.encrypted_completed"; frame_lines := ["r2"] |} ].

Definition stream_sample : list N := mjoin (encode_frame <$> frames_sample).

Lemma line_ok_dec l :
  valid_utf8 l && bool_decide (10%N ∉ bytes l) && bool_decide (last (bytes l) <> Some 13%N) = true ->
  line_ok l.
Proof. rewrite !andb_true_iff, !bool_decide_eq_true. intros [[? ?] ?]. done. Qed.

Lemma frames_are_dispatched_witness :
  @feed tiny_codec stream_sample (new_decoder 1000 10000)
  = @dispatches tiny_codec (frame_event <$> frames_sample)
      (with_total (new_decoder 1000 10000) (Z.of_nat (length stream_sample))).
Proof.
  apply (@frames_are_dispatched tiny_codec frames_sample (new_decoder 1000 10000)).
  - by constructor.
  - repeat constructor; cbn [frame_name frame_lines]; try done;
      try (apply line_ok_dec; by vm_compute); try (vm_compute; discriminate);
      apply line_ok_dec; by vm_compute.
  - vm_compute. discriminate.
  - vm_compute. discriminate.
  - vm_compute. discriminate.
Defined.

Lemma receipts_are_whole_witness :
  exists p p', receipt_of (@pending tiny_codec (take 2 (frame_event <$> frames_sample))) p p' /\
  (proof p' ≫= value_get "response_body_base64") = Some (VString "QUJDREVG").
Proof.
  destruct (@receipts_are_whole tiny_codec 1000 10000 (take 2 (frame_event <$> frames_sample))
    (@dispatches tiny_codec (take 2 (frame_event <$> frames_sample)) (new_decoder 1000 10000)).1 []
    "r2" (new_decoder 1000 10000)
    {| mp_run_id := "r";
       usage := {| ru_prompt_tokens := None; ru_completion_tokens := None;
                   ru_total_tokens := None; ru_cached_prompt_tokens := None |};
       mp_finish_reason := "stop";
       proof := Some (VObject [("response_body_base64", VString "QUJDREVG")]) |}) as (p & _ & H).
  - by vm_compute.
  - by vm_compute.
  - exists p. eexists. split; [exact H|]. by vm_compute.
Defined.

Lemma sse_memory_is_bounded_witness :
  len (proof_body (@feeds tiny_codec [take 100 stream_sample] (new_decoder 1000 10000)).1) <= 44739244.
Proof. apply (@sse_memory_is_bounded tiny_codec 1000 10000). unfold U64_MAX. lia. Defined.

Lemma stalls_are_cut_witness :
  let run := {| rp_run_id := "r" |} in
  deadline (watch 0 [(5, RunCompleted run); (70000, Finalizing run); (120000, Finalizing run)])
  = 130000.
Proof.
  intros run.
  destruct (stalls_are_cut 0 [(5, RunCompleted run)] 70000 (Finalizing run) [(120000, Finalizing run)])
    as [_ H].
  apply H; repeat constructor.
Defined.
