(* ===== verification/Endpoint.v ===== *)
(** Where the secure client may connect (crates/axiom-secure-client/src/config.rs
    and http.rs): the endpoint policy, public addresses, the client that is
    pinned to resolved addresses, and bounded response bodies.

    [url::Url] is library code (classes [UrlLib] and [UrlOrigin]); the resolver,
    the CA file and the response chunks are arguments.  [IpAddr] and its parser
    belong to the standard library and are modelled. *)

From stdpp Require Import base strings list sets.
From Stdlib Require Import ZArith NArith Lia ZifyBool ZifyN ZifyNat.
From S2P Require Import Prelude RustStr Inference Paths AppError SecureError.

Local Open Scope Z_scope.

(** ** Addresses *)

(** The octets of an IPv4 address, the eight segments of an IPv6 address. *)
Inductive IpAddr : Type :=
| V4 (a b c d : Z)
| V6 (segments : list Z).

#[export] Instance IpAddr_eq_dec : EqDecision IpAddr.
Proof. solve_decision. Defined.

Definition octet (n : Z) : Prop := 0 <= n < 256.

(** *** [str::parse::<IpAddr>] *)

(** The digits at the head of the input, and the rest. *)
Fixpoint read_digits (radix : Z) (l : list N) : list Z * list N :=
  match l with
  | [] => ([], [])
  | c :: l' =>
    let v := if is_ascii_digit c then Z.of_N c - 48
             else if is_ascii_lowercase c then Z.of_N c - 87
             else if is_ascii_uppercase c then Z.of_N c - 55 else 99 in
    if v <? radix then let '(ds, rest) := read_digits radix l' in (v :: ds, rest) else ([], l)
  end.

Definition read_number (radix : Z) (max_digits : nat) (zero_prefix : bool) (bound : Z) (l : list N)
    : option (Z * list N) :=
  let '(ds, rest) := read_digits radix l in
  let v := foldl (fun acc d => acc * radix + d) 0 ds in
  if bool_decide (ds = []) || (max_digits <? length ds)%nat || (bound <? v)
     || (negb zero_prefix && bool_decide (head ds = Some 0) && (1 <? length ds)%nat)
  then None else Some (v, rest).

Definition read_given (c : N) (l : list N) : option (list N) :=
  match l with x :: l => if (x =? c)%N then Some l else None | [] => None end.

Definition read_octet (l : list N) : option (Z * list N) := read_number 10 3 false 255 l.

Definition read_ipv4 (l : list N) : option (Z * Z * Z * Z * list N) :=
  '(a, l) ← read_octet l; l ← read_given 46 l;
  '(b, l) ← read_octet l; l ← read_given 46 l;
  '(c, l) ← read_octet l; l ← read_given 46 l;
  '(d, l) ← read_octet l; Some (a, b, c, d, l).

(** [read_separator(':', index, _)]. *)
Definition after_separator (first : bool) (l : list N) : option (list N) :=
  if first then Some l else read_given 58 l.

(** [read_groups] with room for [limit] groups: the groups read, whether they end
    in an embedded IPv4 address, and the rest. *)
Fixpoint read_groups (first : bool) (limit : nat) (l : list N) : list Z * bool * list N :=
  match limit with
  | O => ([], false, l)
  | S limit' =>
    match (if (0 <? limit')%nat then after_separator first l ≫= read_ipv4 else None) with
    | Some (a, b, c, d, rest) => ([a * 256 + b; c * 256 + d], true, rest)
    | None =>
      match after_separator first l ≫= read_number 16 4 true 65535 with
      | None => ([], false, l)
      | Some (g, rest) =>
        let '(gs, v4, rest) := read_groups false limit' rest in (g :: gs, v4, rest)
      end
    end
  end.

Definition read_ipv6 (l : list N) : option (list Z * list N) :=
  let '(heads, v4, l) := read_groups true 8 l in
  if (length heads =? 8)%nat then Some (heads, l)
  else if v4 then None
  else
    l ← read_given 58 l; l ← read_given 58 l;
    let '(tails, _, l) := read_groups true (7 - length heads) l in
    Some (heads ++ replicate (8 - length heads - length tails) 0 ++ tails, l).

Definition parse_ip (s : string) : option IpAddr :=
  match read_ipv4 (bytes s) with
  | Some (a, b, c, d, rest) => if bool_decide (rest = []) then Some (V4 a b c d) else None
  | None =>
    '(segments, rest) ← read_ipv6 (bytes s);
    if bool_decide (rest = []) then Some (V6 segments) else None
  end.

(** *** The predicates of [Ipv4Addr] and [Ipv6Addr] *)

Definition v4_is_private (a b : Z) : bool :=
  (a =? 10) || ((a =? 172) && (16 <=? b) && (b <=? 31)) || ((a =? 192) && (b =? 168)).
Definition v4_is_documentation (a b c : Z) : bool :=
  ((a =? 192) && (b =? 0) && (c =? 2)) || ((a =? 198) && (b =? 51) && (c =? 100))
  || ((a =? 203) && (b =? 0) && (c =? 113)).
Definition v6_segment (i : nat) (s : list Z) : Z := default 0 (s !! i).

Definition is_public_address (address : IpAddr) : bool :=
  match address with
  | V4 a b c d =>
    negb (v4_is_private a b
          || (a =? 127)
          || ((a =? 169) && (b =? 254))
          || ((a =? 255) && (b =? 255) && (c =? 255) && (d =? 255))
          || v4_is_documentation a b c
          || ((a =? 0) && (b =? 0) && (c =? 0) && (d =? 0))
          || ((224 <=? a) && (a <=? 239))
          || (a =? 0)
          || ((a =? 100) && ((64 <=? b) && (b <=? 127)))
          || ((a =? 192) && (b =? 0) && (c =? 0))
          || ((a =? 198) && ((18 <=? b) && (b <=? 19)))
          || (240 <=? a))
  | V6 s =>
    negb (bool_decide (s = [0; 0; 0; 0; 0; 0; 0; 1])
          || bool_decide (s = [0; 0; 0; 0; 0; 0; 0; 0])
          || (Z.land (v6_segment 0 s) 65024 =? 64512)
          || (Z.land (v6_segment 0 s) 65472 =? 65152)
          || (Z.land (v6_segment 0 s) 65280 =? 65280)
          || ((v6_segment 0 s =? 8193) && (v6_segment 1 s =? 3512)))
  end.

(** ** Configuration *)

Record SecureClientLimits : Type := {
  model_catalog_bytes : Z; trust_policy_bytes : Z; attestation_report_bytes : Z;
  attestation_quote_bytes : Z; nvidia_evidence_bytes : Z; nvidia_jwt_bytes : Z;
  nvidia_jwks_bytes : Z; intel_collateral_bytes : Z; relay_error_bytes : Z;
  relay_response_bytes : Z; relay_sse_event_bytes : Z; relay_stream_bytes : Z;
  serialized_relay_request_bytes : Z
}.

Definition default_limits : SecureClientLimits :=
  {| model_catalog_bytes := 4 * 1024 * 1024; trust_policy_bytes := 128 * 1024;
     attestation_report_bytes := 16 * 1024 * 1024; attestation_quote_bytes := 256 * 1024;
     nvidia_evidence_bytes := 1024 * 1024; nvidia_jwt_bytes := 256 * 1024;
     nvidia_jwks_bytes := 1024 * 1024; intel_collateral_bytes := 2 * 1024 * 1024;
     relay_error_bytes := 4 * 1024; relay_response_bytes := 96 * 1024 * 1024;
     relay_sse_event_bytes := 48 * 1024 * 1024; relay_stream_bytes := 128 * 1024 * 1024;
     serialized_relay_request_bytes := 64 * 1024 * 1024 |}.

Record EndpointPolicy : Type := {
  require_https : bool; reject_local_addresses : bool; allow_redirects : bool
}.
Definition default_endpoint_policy : EndpointPolicy :=
  {| require_https := true; reject_local_addresses := true; allow_redirects := false |}.

(** The operator's consent for outdated platforms, for one provider only. *)
Definition accept_outdated_tee_for_provider (provider : string)
    : M bool SecureClientError unit := fun accept =>
  if negb (bool_decide (provider = "near"))
  then (accept, Err (configuration_error "this provider has no supported outdated-TEE exception"))
  else (true, Ok tt).
Definition accepts_outdated_tcb (accept : bool) (provider : string) : bool :=
  bool_decide (provider = "near") && accept.

(** What else the client asks the [url] crate. *)
Class UrlOrigin `{UrlLib} : Type := {
  same_origin : Url -> Url -> bool;
  port_or_known_default : Url -> option Z
}.

Section Urls.
Context `{U : UrlLib}.

Definition validate_provider_url (p : EndpointPolicy) (value : string)
    : result SecureClientError Url :=
  match url_parse value with
  | Err _ => Err (catalog_error "provider URL is invalid")
  | Ok url =>
    if require_https p && negb (bool_decide (scheme url = "https"))
    then Err (catalog_error "provider URL must use HTTPS")
    else if negb (is_empty (username url)) || (if password url then true else false)
    then Err (catalog_error "provider URL must not include credentials")
    else if reject_local_addresses p then
      if bool_decide (host_str url = Some "localhost")
      then Err (catalog_error "provider URL must not target localhost")
      else match parse_ip (default EmptyString (host_str url)) with
           | Some address =>
             if is_public_address address then Ok url
             else Err (catalog_error "provider URL must use a public address")
           | None => Ok url
           end
    else Ok url
  end.

Definition loopback_https (url : Url) : bool :=
  bool_decide (scheme url = "https")
  && bool_decide (host_str url ∈ [Some "localhost"; Some "127.0.0.1"; Some "[::1]"])
  && is_empty (username url) && negb (if password url then true else false).

(** What opening and reading the CA file gives. *)
Inductive CaFile : Type :=
| CannotOpen
| CannotRead
| Contents (bs : list N).

(** [valid] is the X.509 parser's answer: exactly one certificate. *)
Definition read_local_ca (origin : Url) (file : option CaFile) (valid : list N -> bool)
    : result SecureClientError (option (list N)) :=
  match file with
  | None => Ok None
  | Some contents =>
    if negb (loopback_https origin)
    then Err (configuration_error "local relay CA requires a loopback HTTPS API")
    else match contents with
         | CannotOpen => Err (configuration_error "local relay CA is unavailable")
         | CannotRead => Err (configuration_error "local relay CA is unreadable")
         | Contents pem =>
           let pem := take (64 * 1024 + 1) pem in
           if (Z.of_nat (length pem) >? 64 * 1024) || negb (valid pem)
           then Err (configuration_error "invalid local relay CA") else Ok (Some pem)
         end
  end.

(** A [BTreeSet<SocketAddr>] holds each address once, in the order of
    [SocketAddr]: IPv4 first, then by address, then by port. *)
Definition address_key (x : IpAddr * Z) : list Z :=
  match x.1 with
  | V4 a b c d => [4; a; b; c; d; x.2]
  | V6 segments => 6 :: segments ++ [x.2]
  end.

Fixpoint key_leb (k l : list Z) : bool :=
  match k, l with
  | [], _ => true
  | _ :: _, [] => false
  | x :: k, y :: l => (x <? y) || ((x =? y) && key_leb k l)
  end.

Definition address_le (x y : IpAddr * Z) : Prop := key_leb (address_key x) (address_key y) = true.

#[export] Instance address_le_dec : RelDecision address_le.
Proof. intros x y. unfold address_le. apply _. Defined.

(** The resolver's answer within 15 seconds. *)
Inductive Lookup : Type :=
| LookupTimedOut
| LookupFailed
| Resolved (addresses : list (IpAddr * Z)).

(** What the client builder is told; [c_timeout] is in milliseconds, beside the
    connection timeout of 15 seconds. *)
Record Client : Type := {
  c_host : string;
  c_addresses : list (IpAddr * Z);
  c_redirects : nat;
  c_proxy : bool;
  c_connect_timeout : Z;
  c_timeout : option Z;
  c_tls_info : bool;
  c_ca : option (list N)
}.

(** What the network and the TLS library answer: the resolver, whether a PEM file
    loads as a certificate, and whether the configured client can be built. *)
Record Environment : Type := {
  lookup_host : string -> Z -> Lookup;
  from_pem : list N -> bool;
  buildable : Client -> bool
}.

Definition resolve_addresses (env : Environment) (host : string) (port : Z)
    : result SecureClientError (list (IpAddr * Z)) :=
  match parse_ip host with
  | Some ip => Ok [(ip, port)]
  | None =>
    match lookup_host env host port with
    | LookupTimedOut => Err (session_error "endpoint DNS resolution timed out")
    | LookupFailed => Err (session_error "endpoint DNS resolution failed")
    | Resolved addresses => Ok (sort_dedup address_le addresses)
    end
  end.

Definition pinned_client_inner `{UO : !UrlOrigin} (env : Environment) (url : Url)
    (p : EndpointPolicy) (timeout : option Z) (expose_tls_info : bool) (ca : option (list N))
    : result SecureClientError Client :=
  host ← ok_or (host_str url) (catalog_error "endpoint URL has no host");
  port ← ok_or (port_or_known_default url) (catalog_error "endpoint URL has no usable port");
  addresses ← resolve_addresses env host port;
  if bool_decide (addresses = [])
     || (reject_local_addresses p && existsb (fun a => negb (is_public_address a.1)) addresses)
  then Err (session_error "endpoint resolved to a disallowed address")
  else
  let client :=
    {| c_host := host; c_addresses := addresses;
       c_redirects := if allow_redirects p then 3%nat else 0%nat; c_proxy := false;
       c_connect_timeout := 15000; c_timeout := timeout; c_tls_info := expose_tls_info;
       c_ca := ca |} in
  _ ← reject_if (match ca with Some pem => negb (from_pem env pem) | None => false end)
        (configuration_error "invalid local relay CA");
  _ ← reject_if (negb (buildable env client)) (session_error "HTTP client construction failed");
  Ok client.

Definition relay_client `{UO : !UrlOrigin} (env : Environment) (base : Url) (p : EndpointPolicy)
    (file : option CaFile) (valid : list N -> bool) (url : Url) (timeout : option Z)
    : result SecureClientError Client :=
  if negb (same_origin url base) then Err (configuration_error "relay origin changed") else
  let p := if loopback_https base
           then {| require_https := require_https p; reject_local_addresses := false;
                   allow_redirects := allow_redirects p |} else p in
  ca ← read_local_ca base file valid;
  pinned_client_inner env url p timeout false ca.

Definition pinned_client `{UO : !UrlOrigin} (env : Environment) (url : Url) (p : EndpointPolicy)
    (timeout : option Z) (expose_tls_info : bool) : result SecureClientError Client :=
  pinned_client_inner env url p timeout expose_tls_info None.
End Urls.

(** ** Bodies *)

(** [None] is a chunk that failed to arrive. *)
Fixpoint read_body (limit : Z) (body : list N) (chunks : list (option (list N)))
    : result SecureClientError (list N) :=
  match chunks with
  | [] => Ok body
  | None :: _ => Err (session_error "remote response body failed")
  | Some chunk :: chunks =>
    if saturating_add (Z.of_nat (length body)) (Z.of_nat (length chunk)) >? limit
    then Err (session_error "remote response exceeds the configured limit")
    else read_body limit (body ++ chunk) chunks
  end.

Definition bounded_body (content_length : option Z) (limit : Z) (chunks : list (option (list N)))
    : result SecureClientError (list N) :=
  match content_length with
  | Some n => if n >? limit then Err (session_error "remote response exceeds the configured limit")
              else read_body limit [] chunks
  | None => read_body limit [] chunks
  end.

(** ** Public addresses *)

Definition v4_value (a b c d : Z) : Z := ((a * 256 + b) * 256 + c) * 256 + d.

(** The blocks no provider may use, as prefixes of 32-bit addresses. *)
Definition special_v4 : list (Z * Z) :=
  [ (v4_value 0 0 0 0, 8); (v4_value 10 0 0 0, 8); (v4_value 100 64 0 0, 10);
    (v4_value 127 0 0 0, 8); (v4_value 169 254 0 0, 16); (v4_value 172 16 0 0, 12);
    (v4_value 192 0 0 0, 24); (v4_value 192 0 2 0, 24); (v4_value 192 168 0 0, 16);
    (v4_value 198 18 0 0, 15); (v4_value 198 51 100 0, 24); (v4_value 203 0 113 0, 24);
    (v4_value 224 0 0 0, 4); (v4_value 240 0 0 0, 4) ].

Definition in_block (n : Z) (block : Z * Z) : Prop :=
  block.1 <= n < block.1 + 2 ^ (32 - block.2).

Section Blocks.
Context (a b c d : Z) (Ha : octet a) (Hb : octet b) (Hc : octet c) (Hd : octet d).

Local Lemma in_block_first p n k :
  2 ^ (32 - k) = n * 16777216 ->
  in_block (v4_value a b c d) (v4_value p 0 0 0, k) <-> p <= a < p + n.
Proof.
  unfold in_block, octet, v4_value in *. cbn [fst snd]. intros ->. lia.
Qed.

Local Lemma in_block_second p q n k :
  2 ^ (32 - k) = n * 65536 -> octet q -> q + n <= 256 ->
  in_block (v4_value a b c d) (v4_value p q 0 0, k) <-> a = p /\ q <= b < q + n.
Proof.
  unfold in_block, octet, v4_value in *. cbn [fst snd]. intros ->. lia.
Qed.

Local Lemma in_block_third p q r :
  octet q -> octet r ->
  in_block (v4_value a b c d) (v4_value p q r 0, 24) <-> a = p /\ b = q /\ c = r.
Proof.
  unfold in_block, octet, v4_value in *. cbn [fst snd]. change (2 ^ (32 - 24)) with 256. lia.
Qed.

(** Membership in a special block, octet by octet. *)
Lemma special_v4_octets :
  Forall (fun k => ~ in_block (v4_value a b c d) k) special_v4 <->
  ~ (a = 0) /\ ~ (a = 10) /\ ~ (a = 100 /\ 64 <= b < 128) /\ ~ (a = 127) /\
  ~ (a = 169 /\ b = 254) /\ ~ (a = 172 /\ 16 <= b < 32) /\ ~ (a = 192 /\ b = 0 /\ c = 0) /\
  ~ (a = 192 /\ b = 0 /\ c = 2) /\ ~ (a = 192 /\ b = 168) /\ ~ (a = 198 /\ 18 <= b < 20) /\
  ~ (a = 198 /\ b = 51 /\ c = 100) /\ ~ (a = 203 /\ b = 0 /\ c = 113) /\ ~ (224 <= a).
Proof.
  unfold special_v4. rewrite !Forall_cons.
  rewrite !(in_block_first _ 1) by done. rewrite (in_block_first 224 16), (in_block_first 240 16) by done.
  rewrite (in_block_second 100 64 64), (in_block_second 169 254 1), (in_block_second 172 16 16),
    (in_block_second 192 168 1), (in_block_second 198 18 2) by (unfold octet; (done || lia)).
  rewrite !in_block_third by (unfold octet; lia).
  assert (Hr : forall p, p <= a < p + 1 <-> a = p) by lia. rewrite !Hr.
  assert (Hs : forall p, p <= b < p + 1 <-> b = p) by lia. rewrite !Hs.
  assert (Ht : ~ (224 <= a) <-> ~ (224 <= a < 224 + 16) /\ ~ (240 <= a < 240 + 16))
    by (unfold octet in *; lia).
  rewrite Ht. intuition.
Qed.
End Blocks.

Lemma andb_false_not (x y : bool) : x && y = false <-> ~ (x = true /\ y = true).
Proof. destruct x, y; naive_solver. Qed.

Lemma between_spec lo hi n : (lo <=? n) && (n <=? hi) = true <-> lo <= n < hi + 1.
Proof. lia. Qed.

(** An IPv4 address counts as public exactly when its 32-bit value lies in none
    of the fourteen special-purpose blocks: this-network, private, shared,
    loopback, link-local, protocol, documentation, benchmark, multicast and
    reserved space. *)
Theorem public_v4_is_outside_special_blocks a b c d :
  octet a -> octet b -> octet c -> octet d ->
  is_public_address (V4 a b c d) = true <-> Forall (fun k => ~ in_block (v4_value a b c d) k) special_v4.
Proof.
  intros Ha Hb Hc Hd. rewrite special_v4_octets by done.
  assert (Ht : (224 <=? a) && (a <=? 239) = false /\ (240 <=? a) = false <-> ~ 224 <= a).
  { lia. }
  unfold is_public_address, v4_is_private, v4_is_documentation.
  rewrite negb_true_iff, !orb_false_iff.
  rewrite !andb_false_not, !andb_true_iff, !Z.eqb_neq, !Z.eqb_eq, !Z.leb_le, Z.leb_gt. clear Ht.
  assert (H255 : 224 <= a \/ ~ (((a = 255 /\ b = 255) /\ c = 255) /\ d = 255)) by lia.
  assert (H0 : a = 0 \/ ~ (((a = 0 /\ b = 0) /\ c = 0) /\ d = 0)) by lia.
  assert (H224 : 224 <= a <-> (224 <= a /\ a <= 239) \/ 240 <= a) by lia.
  assert (Hlt : forall n m, n < m <-> ~ m <= n) by lia.
  assert (Hr : forall n m k, n <= m < k <-> n <= m /\ m <= k - 1) by lia.
  rewrite !Hr, Hlt, H224 in *. cbn [Z.sub Z.add Z.opp Z.pos_sub Pos.pred_double Pos.pred]. tauto.
Qed.

(** ** Provider URLs *)

(** What the default policy demands of a provider URL. *)
Record provider_url_ok `{UrlLib} (u : Url) : Prop := {
  po_scheme : scheme u = "https";
  po_username : username u = EmptyString;
  po_password : password u = None;
  po_host : host_str u <> Some "localhost";
  po_address : forall ip, parse_ip (default EmptyString (host_str u)) = Some ip ->
                 is_public_address ip = true
}.

(** The default endpoint policy accepts exactly the HTTPS URLs without
    credentials whose host is neither localhost nor the literal of an address
    that is not public, and returns the URL it parsed. *)
Theorem provider_urls_are_checked `{UrlLib} value u :
  validate_provider_url default_endpoint_policy value = Ok u <->
  url_parse value = Ok u /\ provider_url_ok u.
Proof.
  unfold validate_provider_url. destruct (url_parse value) as [v|]; [|naive_solver].
  cbn [require_https reject_local_addresses default_endpoint_policy andb].
  assert (Hok : provider_url_ok v <->
    negb (bool_decide (scheme v = "https")) = false /\
    negb (is_empty (username v)) || (if password v then true else false) = false /\
    bool_decide (host_str v = Some "localhost") = false /\
    match parse_ip (default EmptyString (host_str v)) with
    | Some ip => is_public_address ip = true | None => True end).
  { rewrite negb_false_iff, bool_decide_eq_true, orb_false_iff, negb_false_iff, is_empty_true,
      bool_decide_eq_false. split.
    - intros [? ? Hp ? Ha]. rewrite Hp. split_and!; try done.
      destruct (parse_ip _) as [ip|]; [|done]. by apply Ha.
    - intros (? & (? & Hp) & ? & Ha). constructor; try done; [by destruct (password v)|].
      intros ip Hip. by rewrite Hip in Ha. }
  destruct (negb (bool_decide (scheme v = "https"))); [naive_solver|].
  destruct (negb (is_empty _) || _); [naive_solver|].
  destruct (bool_decide (host_str v = Some "localhost")); [naive_solver|].
  destruct (parse_ip _) as [ip|]; [destruct (is_public_address ip)|]; naive_solver.
Qed.

Lemma read_octet_bracket l : read_octet (91%N :: l) = None.
Proof. reflexivity. Qed.

(** The [url] crate writes IPv6 hosts in brackets, which is not an address. *)
Lemma parse_ip_bracket s : parse_ip (String (byte_of 91) s) = None.
Proof. reflexivity. Qed.

(** The literal check never sees an IPv6 address: the [url] crate renders IPv6
    hosts in brackets, and a bracketed host parses as no address, so every HTTPS
    URL with one is accepted, loopback and private ranges included; and an IPv4
    address mapped into IPv6 counts as public. *)
Theorem ipv6_literals_are_not_checked `{UrlLib} value u s :
  url_parse value = Ok u -> scheme u = "https" -> username u = EmptyString -> password u = None ->
  host_str u = Some (String (byte_of 91) s) ->
  validate_provider_url default_endpoint_policy value = Ok u /\
  parse_ip "::ffff:127.0.0.1" = Some (V6 [0; 0; 0; 0; 0; 65535; 32512; 1]) /\
  is_public_address (V6 [0; 0; 0; 0; 0; 65535; 32512; 1]) = true.
Proof.
  intros Hu Hs Hn Hp Hh. split; [|split; by vm_compute].
  unfold validate_provider_url. rewrite Hu, Hs, Hn, Hp, Hh.
  cbn [default from_option require_https reject_local_addresses default_endpoint_policy].
  unfold id. rewrite parse_ip_bracket. rewrite (bool_decide_eq_true_2 ("https" = "https")) by done.
  by rewrite bool_decide_eq_false_2.
Qed.

(** ** Pinned clients *)

Lemma pinned_client_Ok `{UO : UrlOrigin} env url p timeout tls ca c :
  pinned_client_inner env url p timeout tls ca = Ok c ->
  c_addresses c <> [] /\ c_proxy c = false /\ c_ca c = ca /\
  (allow_redirects p = false -> c_redirects c = 0%nat) /\
  (reject_local_addresses p = true -> Forall (fun a => is_public_address a.1 = true) (c_addresses c)) /\
  exists host port, host_str url = Some host /\ port_or_known_default url = Some port /\
    c_host c = host /\ resolve_addresses env host port = Ok (c_addresses c).
Proof.
  unfold pinned_client_inner. intros Hc.
  apply bind_Ok in Hc as (host & Hh & Hc). apply bind_Ok in Hc as (port & Hport & Hc).
  apply bind_Ok in Hc as (addresses & Hr & Hc). case_match eqn:Hg; [done|].
  apply orb_false_iff in Hg as [Hne Hpub]. cbv zeta in Hc.
  apply bind_unit_Ok in Hc as [_ Hc]. apply bind_unit_Ok in Hc as [_ Hc]. injection Hc as <-. cbn.
  apply ok_or_Ok in Hh, Hport. apply bool_decide_eq_false in Hne. split_and!; try done.
  - intros ->. done.
  - intros Hl. rewrite Hl in Hpub. cbn in Hpub. rewrite existsb_false in Hpub.
    apply Forall_forall. intros a Ha. specialize (Hpub a Ha). by apply negb_false_iff in Hpub.
  - by exists host, port.
Qed.

(** What is pinned is what was resolved: the literal address, or exactly the
    addresses the resolver gave. *)
Lemma resolve_addresses_Ok env host port l :
  resolve_addresses env host port = Ok l ->
  (exists ip, parse_ip host = Some ip /\ l = [(ip, port)]) \/
  exists answer, lookup_host env host port = Resolved answer /\ forall a, a ∈ l <-> a ∈ answer.
Proof.
  unfold resolve_addresses. destruct (parse_ip host) as [ip|]; [intros [= <-]; left; by exists ip|].
  destruct (lookup_host env host port) as [| |answer]; [done|done|]. intros [= <-]. right.
  exists answer. split; [done|]. intros a. apply elem_of_sort_dedup.
Qed.

(** The client never connects to an address that is not public: a client is
    built only for the relay's own origin, uses no proxy, follows no redirect the
    policy does not allow, is pinned to exactly the literal or resolved addresses
    of the URL's host, and these are all public, unless the configured relay is
    itself a loopback HTTPS service, which is also the only case in which an extra
    certificate authority is trusted. *)
Theorem relay_clients_are_pinned `{UO : UrlOrigin} env base p file valid url timeout c :
  relay_client env base p file valid url timeout = Ok c ->
  same_origin url base = true /\ c_addresses c <> [] /\ c_proxy c = false /\
  (allow_redirects p = false -> c_redirects c = 0%nat) /\
  host_str url = Some (c_host c) /\
  ((exists ip n, parse_ip (c_host c) = Some ip /\ c_addresses c = [(ip, n)]) \/
   exists n answer, lookup_host env (c_host c) n = Resolved answer /\
     forall a, a ∈ c_addresses c <-> a ∈ answer) /\
  (loopback_https base = false ->
     c_ca c = None /\
     (reject_local_addresses p = true ->
        Forall (fun a => is_public_address a.1 = true) (c_addresses c))).
Proof.
  unfold relay_client. intros Hc. destruct (same_origin url base); [|done]. cbn [negb] in Hc.
  apply bind_Ok in Hc as (ca & Hca & Hc).
  apply pinned_client_Ok in Hc as (Ha & Hp & Hcc & Hr & Hpub & host & n & Hh & _ & <- & Hres).
  split_and!; try done.
  - intros Hf. apply Hr. by destruct (loopback_https base).
  - apply resolve_addresses_Ok in Hres as [(ip & ? & ?)|(answer & ? & ?)];
      [left; by exists ip, n|right; by exists n, answer].
  - intros Hl. rewrite Hl in *. split; [|done]. rewrite Hcc. unfold read_local_ca in Hca.
    destruct file as [contents|]; [|congruence]. by rewrite Hl in Hca.
Qed.

(** ** Bodies *)

Lemma read_body_Ok limit body chunks r :
  limit < U64_MAX ->
  read_body limit body chunks = Ok r <->
  exists bs, chunks = Some <$> bs /\ r = body ++ mjoin bs /\
    (bs <> [] -> Z.of_nat (length r) <= limit).
Proof.
  intros Hl. revert body. induction chunks as [|[chunk|] chunks IH]; intros body; cbn [read_body].
  - split.
    + intros [= <-]. exists []. split_and!; [done| |done]. cbn. by rewrite app_nil_r.
    + intros ([|] & ? & -> & _); [|done]. cbn. by rewrite app_nil_r.
  - split.
    + destruct (_ >? limit) eqn:Hs; [done|]. rewrite IH. intros (bs & -> & -> & Hbs).
      exists (chunk :: bs). split_and!; [done| |].
      * change (mjoin (chunk :: bs)) with (chunk ++ mjoin bs). by rewrite app_assoc.
      * intros _. destruct bs as [|b bs].
        -- cbn. rewrite app_nil_r, length_app.
           assert (saturating_add (Z.of_nat (length body)) (Z.of_nat (length chunk)) <= limit) by lia.
           pose proof (saturating_add_le (Z.of_nat (length body)) (Z.of_nat (length chunk)) limit Hl). lia.
        -- by apply Hbs.
    + intros (bs & Hbs & -> & Hle). destruct bs as [|b bs]; [done|]. injection Hbs as -> ->.
      specialize (Hle ltac:(done)). change (mjoin (b :: bs)) with (b ++ mjoin bs) in *.
      rewrite !length_app in Hle. rewrite saturating_add_exact by lia.
      replace (_ >? limit) with false by lia. apply IH. exists bs. split_and!; [done| |].
      * by rewrite app_assoc.
      * intros _. rewrite !length_app. lia.
  - split; [done|]. by intros ([|] & ? & _).
Qed.

(** A response body is whole or refused, and never larger than its limit:
    reading succeeds exactly when every chunk arrived, the chunks together fit
    the limit and the announced length does not exceed it, and returns their
    concatenation. *)
Theorem bodies_are_bounded length_header limit chunks r :
  0 <= limit < U64_MAX ->
  bounded_body length_header limit chunks = Ok r <->
  (forall n, length_header = Some n -> n <= limit) /\
  exists bs, chunks = Some <$> bs /\ r = mjoin bs /\ Z.of_nat (length r) <= limit.
Proof.
  intros Hl. unfold bounded_body.
  assert (Hr : read_body limit [] chunks = Ok r <->
    exists bs, chunks = Some <$> bs /\ r = mjoin bs /\ Z.of_nat (length r) <= limit).
  { rewrite read_body_Ok by lia. split; intros (bs & -> & -> & Hb); exists bs; split_and!; try done.
    destruct bs; [cbn; lia|by apply Hb]. }
  destruct length_header as [n|]; [|rewrite Hr; naive_solver].
  destruct (n >? limit) eqn:Hn; [|rewrite Hr; naive_solver lia].
  split; [done|]. intros [H _]. specialize (H n eq_refl). lia.
Qed.

(** ** Examples *)

Definition plain_origin : @UrlOrigin plain_url :=
  {| same_origin := fun u v => bool_decide (u = v); port_or_known_default := fun _ => Some 443 |}.

Lemma public_v4_is_outside_special_blocks_witness :
  is_public_address (V4 8 8 8 8) = true /\
  Forall (fun k => ~ in_block (v4_value 8 8 8 8) k) special_v4.
Proof.
  split; [reflexivity|].
  apply (public_v4_is_outside_special_blocks 8 8 8 8); [unfold octet; lia..|reflexivity].
Defined.

(** A URL library whose only URL has an IPv6 host. *)
Definition loopback6_url : UrlLib :=
  {| Url := unit; url_parse := fun _ => Ok tt; scheme := fun _ => "https";
     username := fun _ => EmptyString; password := fun _ => None;
     host_str := fun _ => Some "[::1]"; port := fun _ => None; without_fragment := fun u => u;
     url_to_string := fun _ => "https://[::1]/" |}.

Lemma ipv6_literals_are_not_checked_witness :
  @validate_provider_url loopback6_url default_endpoint_policy "https://[::1]/" = Ok tt.
Proof.
  apply (@ipv6_literals_are_not_checked loopback6_url "https://[::1]/" tt "::1]"); reflexivity.
Defined.

Definition relay_sample : Client :=
  {| c_host := "https://relay"; c_addresses := [(V4 8 8 4 4, 443); (V4 8 8 8 8, 443)];
     c_redirects := 0%nat; c_proxy := false; c_connect_timeout := 15000; c_timeout := Some 5000;
     c_tls_info := false; c_ca := None |}.

(** The resolver names an address twice. *)
Definition two_addresses : Environment :=
  {| lookup_host := fun _ _ => Resolved [(V4 8 8 8 8, 443); (V4 8 8 4 4, 443); (V4 8 8 8 8, 443)];
     from_pem := fun _ => false; buildable := fun _ => true |}.

Lemma relay_clients_are_pinned_witness :
  Forall (fun a => is_public_address a.1 = true) (c_addresses relay_sample).
Proof.
  apply (@relay_clients_are_pinned plain_url plain_origin two_addresses "https://relay"
           default_endpoint_policy None (fun _ => false) "https://relay" (Some 5000) relay_sample);
    by vm_compute.
Defined.

Lemma bodies_are_bounded_witness :
  bounded_body (Some 3) 3 [Some [1%N; 2%N]; Some []; Some [3%N]] = Ok [1%N; 2%N; 3%N].
Proof.
  apply (bodies_are_bounded (Some 3) 3); [unfold U64_MAX; lia|]. split.
  - intros n [= <-]. lia.
  - exists [[1%N; 2%N]; []; [3%N]]. split_and!; [reflexivity|reflexivity|vm_compute; discriminate].
Defined.
