(* ===== verification/Catalog.v ===== *)
(** The model catalog of the secure client (crates/axiom-secure-client/src/catalog.rs,
    the provider registry of provider.rs, and the cache of client.rs).

    The relay's catalog is untrusted JSON: the derived deserializer of an entry is
    library code (class [CatalogCodec]).  A provider engine is the record of its
    trait's synchronous methods.  The clock and the HTTP exchange are arguments. *)

From stdpp Require Import base gmap strings list sets.
From Stdlib Require Import ZArith NArith Lia ZifyBool ZifyN ZifyNat.
From S2P Require Import Prelude RustStr Json ToolCalls Inference Paths AppError SecureError Endpoint.

Local Open Scope Z_scope.

(** ** Provider engines (provider.rs) *)

Record ProviderContract : Type := {
  pc_protocol : string; pc_version : Z; pc_attestation : string
}.
#[export] Instance ProviderContract_eq_dec : EqDecision ProviderContract.
Proof. solve_decision. Defined.

(** The trait [SecureProvider], as far as the catalog calls it. *)
Record SecureProvider : Type := {
  provider_id : string;
  supports : ModelInfo -> result SecureClientError unit;
  supports_contract : string -> Z -> string -> bool;
  populate_capabilities : ModelInfo -> ModelInfo
}.

Abbreviation ProviderRegistry := (gmap string SecureProvider).

Definition not_unique : SecureClientError :=
  configuration_error "provider IDs must be non-empty and unique".

Fixpoint register (registry : ProviderRegistry) (providers : list SecureProvider)
    : result SecureClientError ProviderRegistry :=
  match providers with
  | [] => Ok registry
  | p :: providers =>
    if is_blank (provider_id p) || bool_decide (is_Some (registry !! provider_id p))
    then Err not_unique else register (<[provider_id p := p]> registry) providers
  end.

(** [ProviderRegistry::new]. *)
Definition registry_new (providers : list SecureProvider) : result SecureClientError ProviderRegistry :=
  register ∅ providers.

Definition resolve (registry : ProviderRegistry) (m : ModelInfo)
    : result SecureClientError SecureProvider :=
  match registry !! mi_provider_id m with
  | None => Err (capability_error "model provider is not supported")
  | Some p => _ ← supports p m; Ok p
  end.

Definition validate_model (registry : ProviderRegistry) (m : ModelInfo)
    : result SecureClientError ModelInfo :=
  p ← resolve registry m; Ok (populate_capabilities p m).

Definition contract_supported (p : SecureProvider) (c : ProviderContract) : bool :=
  supports_contract p (pc_protocol c) (pc_version c) (pc_attestation c).

Definition select_contract (registry : ProviderRegistry) (id : string) (cs : list ProviderContract)
    : option ProviderContract :=
  p ← registry !! id; head (filter (fun c => contract_supported p c = true) cs).

(** ** Entries (catalog.rs) *)

Definition MAX_MODELS : Z := 512.
Definition MAX_E2EE_CONTRACTS_PER_MODEL : Z := 8.
Definition MAX_REASONING_EFFORTS_PER_MODEL : Z := 16.
Definition MAX_MODEL_TOKENS : Z := 16 * 1024 * 1024.
Definition MAX_MODEL_PRICE : Z := 1000000000000.

Record CatalogE2eeContract : Type := {
  ac_protocol : string; ac_version : Z; ac_attestation : string; preferred : bool;
  retire_after_unix_seconds : option Z
}.

Record CatalogModel : Type := {
  relay_contract_version : Z;
  cm_id : string; cm_label : string; cm_short_label : string; cm_model : string;
  cm_base_url : string; cm_provider : string; cm_provider_label : string;
  cm_e2ee_protocol : string; cm_e2ee_encryption_version : Z; cm_attestation_protocol : string;
  cm_context_window_tokens : Z; cm_max_output_tokens : Z;
  cm_input_price : option Z; cm_output_price : option Z;
  cm_reasoning_efforts : list string; cm_thinking_modes : list ThinkingMode;
  cm_reasoning_replay : bool; cm_supports_tools : bool; cm_supports_parallel_tools : bool;
  cm_supports_images : bool; cm_file_mime_types : list string;
  cm_reasoning_parameters : Map; cm_thinking_parameters : Map;
  e2ee_contracts : list CatalogE2eeContract
}.

(** [serde_json::from_value::<CatalogModel>]. *)
Class CatalogCodec : Type := { decode_entry : Value -> option CatalogModel }.

(** The punctuation ["_.:-"]. *)
Definition catalog_punct (c : N) : bool := (c =? 95)%N || (c =? 46)%N || (c =? 58)%N || (c =? 45)%N.

Definition valid_identifier (value : string) (limit : Z) : bool :=
  negb (is_empty value || (len value >? limit)
        || existsb (fun c => negb (is_ascii_alphanumeric c || catalog_punct c)) (chars value)).

Definition valid_text (value : string) (limit : Z) : bool :=
  negb (is_blank value || (len value >? limit) || existsb is_control (chars value)).

Definition parse_reasoning_effort (value : string) : option ReasoningEffort :=
  if decide (value = "minimal") then Some Minimal
  else if decide (value = "low") then Some Low
  else if decide (value = "medium") then Some Medium
  else if decide (value = "high") then Some High
  else if decide (value = "xhigh") then Some ExtraHigh else None.

(** The loop over [supported_reasoning_efforts]: nothing when the entry is
    invalid. *)
Fixpoint parse_efforts (seen : list ReasoningEffort) (l : list string)
    : option (list ReasoningEffort) :=
  match l with
  | [] => Some []
  | effort :: l =>
    if (len effort >? 32) || existsb is_control (chars effort) then None else
    match parse_reasoning_effort effort with
    | None => parse_efforts seen l
    | Some e => if decide (e ∈ seen) then None
                else es ← parse_efforts (e :: seen) l; Some (e :: es)
    end
  end.

(** ** Contracts *)

Definition top_level (m : CatalogModel) : ProviderContract :=
  {| pc_protocol := cm_e2ee_protocol m; pc_version := cm_e2ee_encryption_version m;
     pc_attestation := cm_attestation_protocol m |}.
Definition contract_of (c : CatalogE2eeContract) : ProviderContract :=
  {| pc_protocol := ac_protocol c; pc_version := ac_version c; pc_attestation := ac_attestation c |}.

(** The loop's variables. *)
Record Negotiation : Type := {
  seen : list ProviderContract; top_level_advertised : bool; preferred_contracts : Z;
  candidates : list ProviderContract
}.
Definition negotiation_start : Negotiation :=
  {| seen := []; top_level_advertised := false; preferred_contracts := 0; candidates := [] |}.

Definition active (now : Z) (c : CatalogE2eeContract) : bool :=
  match retire_after_unix_seconds c with None => true | Some t => t >? now end.

(** One advertised contract. *)
Definition negotiate (m : CatalogModel) (now : Z) (s : Negotiation) (c : CatalogE2eeContract)
    : option Negotiation :=
  let contract := contract_of c in
  if negb (valid_identifier (ac_protocol c) 64) || negb (valid_identifier (ac_attestation c) 64)
     || (ac_version c =? 0)
     || bool_decide (retire_after_unix_seconds c = Some 0)
     || bool_decide (contract ∈ seen s)
  then None else
  let is_top_level := bool_decide (contract = top_level m) in
  let count := if preferred c then preferred_contracts s + 1 else preferred_contracts s in
  if preferred c && (negb is_top_level || (count >? 1)) then None else
  Some {| seen := contract :: seen s;
          top_level_advertised := top_level_advertised s || is_top_level;
          preferred_contracts := count;
          candidates :=
            if active now c
            then if is_top_level then contract :: candidates s else candidates s ++ [contract]
            else candidates s |}.

Fixpoint negotiate_all (m : CatalogModel) (now : Z) (s : Negotiation) (l : list CatalogE2eeContract)
    : option Negotiation :=
  match l with
  | [] => Some s
  | c :: l => s ← negotiate m now s c; negotiate_all m now s l
  end.

(** [now] is missing when the clock is before the epoch. *)
Definition contract_candidates (m : CatalogModel) (now : option Z) : option (list ProviderContract) :=
  match e2ee_contracts m with
  | [] => Some [top_level m]
  | l =>
    if Z.of_nat (length l) >? MAX_E2EE_CONTRACTS_PER_MODEL then None else
    now ← now;
    s ← negotiate_all m now negotiation_start l;
    if top_level_advertised s then Some (candidates s) else None
  end.

(** ** Validation *)

Definition price_ok (n : Z) : bool := (0 <? n) && (n <=? MAX_MODEL_PRICE).
Definition prices_ok (m : CatalogModel) : bool :=
  match cm_input_price m, cm_output_price m with
  | None, None => true
  | Some i, Some o => price_ok i && price_ok o
  | _, _ => false
  end.

Definition limits_ok (m : CatalogModel) : bool :=
  negb ((cm_context_window_tokens m =? 0) || (cm_max_output_tokens m =? 0)
        || (cm_context_window_tokens m >? MAX_MODEL_TOKENS)
        || (cm_max_output_tokens m >? cm_context_window_tokens m)).

Definition metadata_valid (m : CatalogModel) : bool :=
  valid_text (cm_label m) 200 && valid_text (cm_short_label m) 100 && valid_text (cm_model m) 256
  && valid_text (cm_provider_label m) 100 && valid_identifier (cm_e2ee_protocol m) 64
  && valid_identifier (cm_attestation_protocol m) 64.

Definition old_backend : SecureClientError :=
  capability_error "The backend does not support this client's inference contract. Update the backend before sending messages.".
Definition duplicate_id : SecureClientError :=
  catalog_error "model catalog contains a duplicate model ID".

Section Catalog.
Context `{CC : CatalogCodec} `{U : UrlLib}.

(** The model an entry describes, before the engine fills in capabilities. *)
Definition model_of (m : CatalogModel) (c : ProviderContract) (url : Url) (es : list ReasoningEffort)
    : ModelInfo :=
  {| mi_id := cm_id m; mi_label := cm_label m; mi_short_label := cm_short_label m;
     mi_provider_id := cm_provider m; mi_provider_label := cm_provider_label m;
     mi_upstream_model := cm_model m; mi_provider_base_url := url_to_string url;
     mi_e2ee_protocol := pc_protocol c; mi_e2ee_encryption_version := pc_version c;
     mi_attestation_protocol := pc_attestation c;
     mi_context_window_tokens := cm_context_window_tokens m;
     mi_max_output_tokens := cm_max_output_tokens m;
     mi_input_price := cm_input_price m; mi_output_price := cm_output_price m;
     mi_reasoning_efforts := es; mi_thinking_modes := cm_thinking_modes m;
     mi_reasoning_replay := cm_reasoning_replay m; mi_supports_tools := cm_supports_tools m;
     mi_supports_parallel_tools := cm_supports_parallel_tools m; mi_supports_streaming := false;
     mi_supports_images := cm_supports_images m; mi_file_mime_types := cm_file_mime_types m;
     mi_reasoning_parameters := cm_reasoning_parameters m;
     mi_thinking_parameters := cm_thinking_parameters m |}.

(** The checks of an entry whose identifier is new: nothing when it is
    quarantined, an error when the whole catalog is refused. *)
Definition check_entry (registry : ProviderRegistry) (p : EndpointPolicy) (now : option Z)
    (m : CatalogModel) : result SecureClientError (option ModelInfo) :=
  if negb (valid_identifier (cm_provider m) 64) then Ok None
  else if negb (bool_decide (is_Some (registry !! cm_provider m))) then Ok None
  else if negb (metadata_valid m) then Ok None
  else match contract_candidates m now ≫= select_contract registry (cm_provider m) with
  | None => Ok None
  | Some contract =>
    if negb (limits_ok m) then Ok None
    else if negb (prices_ok m) then Ok None
    else if negb (relay_contract_version m =? 2) then Err old_backend
    else if Z.of_nat (length (cm_reasoning_efforts m)) >? MAX_REASONING_EFFORTS_PER_MODEL then Ok None
    else match parse_efforts [] (cm_reasoning_efforts m) with
    | None => Ok None
    | Some efforts =>
      url ← validate_provider_url p (cm_base_url m);
      match validate_model registry (model_of m contract url efforts) with
      | Err _ => Ok None
      | Ok model => Ok (Some model)
      end
    end
  end.

Fixpoint check_entries (registry : ProviderRegistry) (p : EndpointPolicy) (now : option Z)
    (ids : list string) (wire : list Value) : result SecureClientError (list ModelInfo) :=
  match wire with
  | [] => Ok []
  | raw :: wire =>
    match decode_entry raw with
    | None => check_entries registry p now ids wire
    | Some m =>
      if negb (valid_identifier (cm_id m) 80) then check_entries registry p now ids wire
      else if decide (cm_id m ∈ ids) then Err duplicate_id
      else
        checked ← check_entry registry p now m;
        rest ← check_entries registry p now (cm_id m :: ids) wire;
        Ok (option_list checked ++ rest)
    end
  end.

Definition validate_models (registry : ProviderRegistry) (p : EndpointPolicy) (now : option Z)
    (wire : list Value) : result SecureClientError (list ModelInfo) :=
  if bool_decide (wire = []) || (Z.of_nat (length wire) >? MAX_MODELS)
  then Err (catalog_error "model catalog has an invalid number of entries")
  else
    output ← check_entries registry p now [] wire;
    if bool_decide (output = [])
    then Err (capability_error "model catalog contains no providers supported by this client")
    else Ok output.
End Catalog.

(** ** The cached catalog (client.rs) *)

(** Locally configured models join the catalog's; a catalog entry of the same
    identifier wins. *)
Fixpoint add_configured (models configured : list ModelInfo) : list ModelInfo :=
  match configured with
  | [] => models
  | m :: configured =>
    add_configured (if existsb (fun item => bool_decide (mi_id item = mi_id m)) models
                    then models else models ++ [m]) configured
  end.

Definition merge_catalog (fetched : result SecureClientError (list ModelInfo))
    (configured : list ModelInfo) : result SecureClientError (list ModelInfo) :=
  match fetched with
  | Ok models => Ok (add_configured models configured)
  | Err e => if negb (bool_decide (configured = [])) && negb (bool_decide (err_kind e = Cancelled))
             then Ok configured else Err e
  end.

Record CachedCatalog : Type := { fetched_at : Z; cached_models : list ModelInfo }.

(** [accept_catalog] at time [now] of the monotone clock. *)
Definition accept_catalog (now max_stale : Z) (r : result SecureClientError (list ModelInfo))
    : M (option CachedCatalog) SecureClientError (list ModelInfo) := fun cache =>
  match r with
  | Ok models => (Some {| fetched_at := now; cached_models := models |}, Ok models)
  | Err e =>
    if negb (bool_decide (err_kind e = Transient)) then (None, Err e)
    else match cache with
         | Some c => if now - fetched_at c <=? max_stale then (cache, Ok (cached_models c))
                     else (cache, Err e)
         | None => (cache, Err e)
         end
  end.

Definition models (now max_stale : Z) (fetched : result SecureClientError (list ModelInfo))
    (configured : list ModelInfo) : M (option CachedCatalog) SecureClientError (list ModelInfo) :=
  accept_catalog now max_stale (merge_catalog fetched configured).

(** ** Negotiation *)

(** What the loop knows after the contracts [done]. *)
Record negotiated (m : CatalogModel) (now : Z) (done : list CatalogE2eeContract) (s : Negotiation)
    : Prop := {
  ne_seen : seen s = reverse (contract_of <$> done);
  ne_nodup : NoDup (contract_of <$> done);
  ne_top : top_level_advertised s = true <-> top_level m ∈ contract_of <$> done;
  ne_candidates : forall c, c ∈ candidates s <->
                    exists a, a ∈ done /\ contract_of a = c /\ active now a = true;
  ne_first : top_level m ∈ candidates s -> head (candidates s) = Some (top_level m)
}.

Lemma negotiated_start m now : negotiated m now [] negotiation_start.
Proof.
  constructor; cbn.
  - done.
  - constructor.
  - split; [done|]. intros H. by apply not_elem_of_nil in H.
  - intros c. split; [intros H; by apply not_elem_of_nil in H|].
    intros (a & H & _). by apply not_elem_of_nil in H.
  - intros H. by apply not_elem_of_nil in H.
Qed.

Lemma negotiate_Some m now d s c s' :
  negotiate m now s c = Some s' -> negotiated m now d s -> negotiated m now (d ++ [c]) s'.
Proof.
  unfold negotiate. case_match eqn:Hg; [done|]. case_match; [done|]. intros [= <-] [H1 H2 H3 H4 H5].
  repeat (apply orb_false_iff in Hg as [Hg ?]).
  match goal with H : bool_decide (contract_of c ∈ _) = false |- _ =>
    apply bool_decide_eq_false in H; rewrite H1, elem_of_reverse in H; rename H into Hnew end.
  constructor; cbn [seen top_level_advertised candidates].
  - by rewrite fmap_app, reverse_app, H1.
  - rewrite fmap_app. apply NoDup_app. split_and!; [done| |apply NoDup_singleton].
    intros x Hx Hc. apply list_elem_of_singleton in Hc as ->. done.
  - rewrite orb_true_iff, H3, bool_decide_eq_true, fmap_app, elem_of_app.
    cbn. rewrite list_elem_of_singleton. naive_solver.
  - intros x. destruct (active now c) eqn:Ha.
    + assert (Hx : x ∈ (if bool_decide (contract_of c = top_level m)
                       then contract_of c :: candidates s else candidates s ++ [contract_of c])
                  <-> x = contract_of c \/ x ∈ candidates s).
      { case_bool_decide; set_solver. }
      rewrite Hx, H4. split.
      * intros [->|(a & Hin & Hc & Hact)]; [exists c|exists a]; set_solver.
      * intros (a & Hin & Hc & Hact). apply elem_of_app in Hin as [Hin|Hin].
        -- right. by exists a.
        -- apply list_elem_of_singleton in Hin as ->. by left.
    + rewrite H4. split.
      * intros (a & Hin & Hc & Hact). exists a. set_solver.
      * intros (a & Hin & Hc & Hact). apply elem_of_app in Hin as [Hin|Hin]; [by exists a|].
        apply list_elem_of_singleton in Hin as ->. congruence.
  - destruct (active now c); [|done]. case_bool_decide as Htop; [by rewrite Htop|].
    intros Hin. apply elem_of_app in Hin as [Hin|Hin].
    + specialize (H5 Hin). by destruct (candidates s).
    + apply list_elem_of_singleton in Hin. congruence.
Qed.

Lemma negotiate_all_Some m now l d s s' :
  negotiate_all m now s l = Some s' -> negotiated m now d s -> negotiated m now (d ++ l) s'.
Proof.
  revert d s. induction l as [|c l IH]; intros d s H Hs; cbn [negotiate_all] in H.
  - injection H as <-. by rewrite app_nil_r.
  - apply bind_Some in H as (s1 & Hc & H).
    specialize (IH (d ++ [c]) s1 H (negotiate_Some _ _ _ _ _ _ Hc Hs)). by rewrite <- app_assoc in IH.
Qed.

(** Contract negotiation offers exactly what is advertised and not retired:
    an entry's candidates are its own contract when it advertises no list, and
    otherwise the advertised contracts, all different and its own among them,
    less those whose retirement has passed, its own first. *)
Theorem candidates_are_advertised m now cs :
  contract_candidates m now = Some cs ->
  (e2ee_contracts m = [] /\ cs = [top_level m]) \/
  exists t, now = Some t /\ NoDup (contract_of <$> e2ee_contracts m) /\
    top_level m ∈ contract_of <$> e2ee_contracts m /\
    Z.of_nat (length (e2ee_contracts m)) <= MAX_E2EE_CONTRACTS_PER_MODEL /\
    (forall c, c ∈ cs <-> exists a, a ∈ e2ee_contracts m /\ contract_of a = c /\ active t a = true) /\
    (top_level m ∈ cs -> head cs = Some (top_level m)).
Proof.
  unfold contract_candidates. intros H.
  destruct (e2ee_contracts m) as [|a l] eqn:Hl; [left; by injection H as <-|].
  right. destruct (_ >? _) eqn:Hn; [done|].
  apply bind_Some in H as (t & -> & H). apply bind_Some in H as (s & Hs & H).
  destruct (top_level_advertised s) eqn:Ht; [|done]. injection H as <-.
  pose proof (negotiate_all_Some _ _ _ _ _ _ Hs (negotiated_start m t)) as [_ H2 H3 H4 H5].
  exists t. split_and!; [done|done|by apply H3|lia|exact H4|exact H5].
Qed.

(** ** The models of a catalog *)

Section CatalogProofs.
Context `{CC : CatalogCodec} `{U : UrlLib}.

(** What a model that is shown has passed. *)
Record usable (registry : ProviderRegistry) (p : EndpointPolicy) (now : option Z)
    (m : CatalogModel) (model : ModelInfo) : Prop := {
  us_identity : valid_identifier (cm_id m) 80 = true;
  us_limits : 0 <> cm_context_window_tokens m /\ 0 <> cm_max_output_tokens m /\
              cm_max_output_tokens m <= cm_context_window_tokens m <= MAX_MODEL_TOKENS;
  us_prices : (cm_input_price m = None /\ cm_output_price m = None) \/
              exists i o, cm_input_price m = Some i /\ cm_output_price m = Some o /\
                0 < i <= MAX_MODEL_PRICE /\ 0 < o <= MAX_MODEL_PRICE;
  us_contract_version : relay_contract_version m = 2;
  us_engine : exists engine cs c url es,
    registry !! cm_provider m = Some engine /\
    contract_candidates m now = Some cs /\ c ∈ cs /\ contract_supported engine c = true /\
    validate_provider_url p (cm_base_url m) = Ok url /\
    supports engine (model_of m c url es) = Ok tt /\
    model = populate_capabilities engine (model_of m c url es)
}.

Lemma limits_ok_spec m :
  limits_ok m = true <->
  0 <> cm_context_window_tokens m /\ 0 <> cm_max_output_tokens m /\
  cm_max_output_tokens m <= cm_context_window_tokens m <= MAX_MODEL_TOKENS.
Proof. unfold limits_ok. lia. Qed.

Lemma prices_ok_spec m :
  prices_ok m = true ->
  (cm_input_price m = None /\ cm_output_price m = None) \/
  exists i o, cm_input_price m = Some i /\ cm_output_price m = Some o /\
    0 < i <= MAX_MODEL_PRICE /\ 0 < o <= MAX_MODEL_PRICE.
Proof.
  unfold prices_ok, price_ok.
  destruct (cm_input_price m) as [i|], (cm_output_price m) as [o|]; try done; [|by left].
  intros H. right. exists i, o. split_and!; try done; lia.
Qed.

Lemma select_contract_Some registry id cs c :
  select_contract registry id cs = Some c ->
  exists p, registry !! id = Some p /\ c ∈ cs /\ contract_supported p c = true.
Proof.
  unfold select_contract. intros H. apply bind_Some in H as (p & Hp & H). exists p.
  assert (Hc : c ∈ filter (fun c => contract_supported p c = true) cs).
  { destruct (filter _ cs); [done|]. injection H as ->. by left. }
  apply list_elem_of_filter in Hc as [? ?]. done.
Qed.

Lemma validate_model_Ok registry model model' :
  validate_model registry model = Ok model' <->
  exists p, registry !! mi_provider_id model = Some p /\ supports p model = Ok tt /\
    model' = populate_capabilities p model.
Proof.
  unfold validate_model, resolve. destruct (registry !! _) as [p|]; [|naive_solver].
  destruct (supports p model) as [[]|e] eqn:Hs; cbn; [naive_solver|]. split; [done|].
  intros (? & [= <-] & ? & ?). congruence.
Qed.

Lemma check_entry_usable registry p now m model :
  valid_identifier (cm_id m) 80 = true ->
  check_entry registry p now m = Ok (Some model) -> usable registry p now m model.
Proof.
  intros Hid. unfold check_entry.
  destruct (negb (valid_identifier (cm_provider m) 64)); [done|].
  destruct (negb (bool_decide _)); [done|]. destruct (negb (metadata_valid m)); [done|].
  destruct (contract_candidates m now ≫= _) as [c|] eqn:Hc; [|done].
  destruct (limits_ok m) eqn:Hl; [|done]. cbn [negb].
  destruct (prices_ok m) eqn:Hp; [|done]. cbn [negb].
  destruct (relay_contract_version m =? 2) eqn:Hv; [|done]. cbn [negb].
  destruct (_ >? MAX_REASONING_EFFORTS_PER_MODEL); [done|].
  destruct (parse_efforts [] _) as [es|]; [|done]. intros H.
  apply bind_Ok in H as (url & Hu & H).
  destruct (validate_model _ _) as [model'|] eqn:Hm; [|done]. injection H as ->.
  apply bind_Some in Hc as (cs & Hcs & Hc).
  apply select_contract_Some in Hc as (engine & He & Hin & Hs).
  apply validate_model_Ok in Hm as (engine' & He' & Hsup & ->). cbn in He'.
  rewrite He in He'. injection He' as <-.
  constructor; [done|by apply limits_ok_spec|by apply prices_ok_spec|lia|].
  exists engine, cs, c, url, es. split_and!; done.
Qed.

Lemma check_entries_usable registry p now ids wire output :
  check_entries registry p now ids wire = Ok output ->
  exists entries, entries `sublist_of` omap decode_entry wire /\
    NoDup (cm_id <$> entries) /\ (forall m, m ∈ entries -> cm_id m ∉ ids) /\
    Forall2 (usable registry p now) entries output.
Proof.
  revert ids output. induction wire as [|raw wire IH]; intros ids output H; cbn [check_entries] in H.
  - injection H as <-. exists []. split_and!; [constructor|constructor|set_solver|constructor].
  - cbn [omap list_omap]. destruct (decode_entry raw) as [m|]; [|by apply IH].
    destruct (valid_identifier (cm_id m) 80) eqn:Hid; cbn [negb] in H.
    2: { apply IH in H as (es & H1 & H2 & H3 & H4). exists es. split_and!; try done. by constructor. }
    destruct (decide (cm_id m ∈ ids)) as [|Hnew]; [done|].
    apply bind_Ok in H as (checked & Hc & H). apply bind_Ok in H as (rest & Hr & H).
    injection H as <-. apply IH in Hr as (es & H1 & H2 & H3 & H4).
    destruct checked as [model|]; cbn [option_list app].
    + exists (m :: es). split_and!.
      * by constructor.
      * cbn. constructor; [|done]. intros Hin. apply list_elem_of_fmap in Hin as (m' & Hm & Hin).
        specialize (H3 _ Hin). set_solver.
      * intros x Hx. apply elem_of_cons in Hx as [->|Hx]; [done|]. specialize (H3 _ Hx). set_solver.
      * constructor; [by apply check_entry_usable|done].
    + exists es. split_and!; [by constructor|done| |done].
      intros x Hx. specialize (H3 _ Hx). set_solver.
Qed.

(** Every model the client shows is one it can use safely: the shown models
    are those of distinct entries of the catalog, in order, each with sane limits
    and prices, a validated provider URL, and a contract that the entry offers
    and the local engine both supports and accepts for that model; nothing the
    relay sends can add a contract the engine does not implement. *)
Theorem catalog_models_are_usable registry p now wire output :
  validate_models registry p now wire = Ok output ->
  output <> [] /\ Z.of_nat (length output) <= MAX_MODELS /\
  exists entries, entries `sublist_of` omap decode_entry wire /\ NoDup (cm_id <$> entries) /\
    Forall2 (usable registry p now) entries output.
Proof.
  unfold validate_models. case_match eqn:Hg; [done|]. intros H.
  apply bind_Ok in H as (out & Ho & H). case_bool_decide; [done|]. injection H as <-.
  apply check_entries_usable in Ho as (es & H1 & H2 & _ & H4). split_and!; [done| |by exists es].
  apply orb_false_iff in Hg as [_ Hg]. rewrite <- (Forall2_length _ _ _ H4).
  apply sublist_length in H1.
  assert (length (omap decode_entry wire) <= length wire)%nat; [|lia].
  clear. induction wire as [|r wire IH]; [done|]. cbn in *. destruct (decode_entry r); cbn; lia.
Qed.
End CatalogProofs.

(** ** The cache *)

Abbreviation Fetch := (Z * result SecureClientError (list ModelInfo))%type.

(** The cache after a history of fetches, each at its time. *)
Definition cache_after (max_stale : Z) (history : list Fetch) : option CachedCatalog :=
  foldl (fun c f => (accept_catalog f.1 max_stale f.2 c).1) None history.

Definition transient (f : Fetch) : Prop :=
  match f.2 with Ok _ => False | Err e => err_kind e = Transient end.

Lemma accept_transient now max_stale e c :
  err_kind e = Transient -> (accept_catalog now max_stale (Err e) c).1 = c.
Proof.
  intros He. unfold accept_catalog. rewrite bool_decide_eq_true_2 by done. cbn [negb].
  destruct c as [c|]; [|done]. by destruct (_ <=? _).
Qed.

(** The cache holds the latest success when only transient failures followed. *)
Lemma cache_after_spec max_stale history t ms :
  cache_after max_stale history = Some {| fetched_at := t; cached_models := ms |} <->
  exists before after, history = before ++ (t, Ok ms) :: after /\ Forall transient after.
Proof.
  unfold cache_after. revert t ms. induction history as [|[now r] history IH] using rev_ind; intros t ms.
  - cbn. split; [done|]. intros ([|] & ? & ? & _); done.
  - rewrite foldl_app. cbn [foldl fst snd]. destruct r as [models0|e].
    + cbn. split.
      * intros [= <- <-]. by exists history, [].
      * intros (before & after & Heq & Hf). destruct after as [|x after _] using rev_ind.
        -- apply app_inj_tail in Heq as [_ [= <- <-]]. done.
        -- rewrite app_comm_cons, app_assoc in Heq. apply app_inj_tail in Heq as [_ <-].
           apply Forall_app in Hf as [_ Hf]. by rewrite Forall_singleton in Hf.
    + destruct (decide (err_kind e = Transient)) as [He|He].
      * rewrite accept_transient by done. rewrite IH. split.
        -- intros (before & after & -> & Hf). exists before, (after ++ [(now, Err e)]).
           split; [by rewrite <- app_assoc|]. apply Forall_app. split; [done|]. by apply Forall_singleton.
        -- intros (before & after & Heq & Hf). destruct after as [|x after _] using rev_ind.
           ++ apply app_inj_tail in Heq as [_ [=]].
           ++ rewrite app_comm_cons, app_assoc in Heq. apply app_inj_tail in Heq as [-> <-].
              apply Forall_app in Hf as [Hf _]. by exists before, after.
      * unfold accept_catalog. rewrite bool_decide_eq_false_2 by done. cbn. split; [done|].
        intros (before & after & Heq & Hf). destruct after as [|x after _] using rev_ind.
        -- apply app_inj_tail in Heq as [_ [=]].
        -- rewrite app_comm_cons, app_assoc in Heq. apply app_inj_tail in Heq as [_ <-].
           apply Forall_app in Hf as [_ Hf]. by rewrite Forall_singleton in Hf.
Qed.

(** A withdrawn catalog never comes back: after any history of fetches, a call
    answers with models exactly when its own fetch succeeded with them, or failed
    transiently while the latest success had those models, was followed by
    transient failures only, and is not older than the staleness limit. *)
Theorem stale_catalogs_are_bounded max_stale history now r ms :
  (accept_catalog now max_stale r (cache_after max_stale history)).2 = Ok ms <->
  r = Ok ms \/
  exists e t before after, r = Err e /\ err_kind e = Transient /\
    history = before ++ (t, Ok ms) :: after /\ Forall transient after /\ now - t <= max_stale.
Proof.
  destruct r as [ms'|e].
  - cbn. split; [intros [= ->]; by left|]. intros [[= ->]|(e & ? & ? & ? & [=] & _)]. done.
  - unfold accept_catalog. case_bool_decide as He; cbn [negb].
    2: { cbn. split; [done|]. intros [[=]|(e' & ? & ? & ? & [= <-] & ? & _)]. done. }
    destruct (cache_after max_stale history) as [[t ms']|] eqn:Hc.
    + cbn [fetched_at cached_models]. split.
      * destruct (now - t <=? max_stale) eqn:Ht; [|done]. cbn. intros [= ->]. right.
        apply cache_after_spec in Hc as (b & a & -> & Ha). exists e, t, b, a. split_and!; (done || lia).
      * intros [[=]|(e' & t' & b & a & [= <-] & _ & Hh & Ha & Ht)].
        assert (Hc' : cache_after max_stale history = Some {| fetched_at := t'; cached_models := ms |})
          by (apply cache_after_spec; by exists b, a).
        rewrite Hc in Hc'. injection Hc' as -> ->. by replace (now - t' <=? max_stale) with true by lia.
    + split; [done|]. intros [[=]|(e' & t' & b & a & [= <-] & _ & Hh & Ha & Ht)].
      assert (Hc' : cache_after max_stale history = Some {| fetched_at := t'; cached_models := ms |})
        by (apply cache_after_spec; by exists b, a). congruence.
Qed.

(** Configured models only fill gaps. *)
Lemma add_configured_spec models configured :
  exists extra, add_configured models configured = models ++ extra /\
    extra `sublist_of` configured /\
    (NoDup (mi_id <$> models) -> NoDup (mi_id <$> models ++ extra)) /\
    (forall m, m ∈ configured -> mi_id m ∈ mi_id <$> models ++ extra).
Proof.
  revert models. induction configured as [|m configured IH]; intros models; cbn [add_configured].
  - exists []. rewrite app_nil_r. split_and!; [done|constructor|done|].
    intros m Hm. by apply not_elem_of_nil in Hm.
  - destruct (existsb _ models) eqn:He.
    + destruct (IH models) as (extra & -> & H1 & H2 & H3). exists extra.
      split_and!; [done|by constructor|done|]. intros x Hx.
      apply elem_of_cons in Hx as [->|Hx]; [|by apply H3].
      apply existsb_elem_of in He as (item & Hin & Heq). apply bool_decide_eq_true in Heq.
      rewrite <- Heq, fmap_app. apply elem_of_app. left. by apply list_elem_of_fmap_2.
    + destruct (IH (models ++ [m])) as (extra & -> & H1 & H2 & H3). exists (m :: extra).
      rewrite <- app_assoc in *. cbn [app] in *. split_and!; [done|by constructor| |].
      * intros Hnd. apply H2. rewrite fmap_app. apply NoDup_app. split_and!; [done| |apply NoDup_singleton].
        intros i Hi Hm. apply list_elem_of_singleton in Hm as ->.
        apply list_elem_of_fmap in Hi as (item & Heq & Hin).
        rewrite existsb_false in He. specialize (He item Hin). by apply bool_decide_eq_false in He.
      * intros x Hx. apply elem_of_cons in Hx as [->|Hx]; [|by apply H3].
        apply list_elem_of_fmap_2. set_solver.
Qed.

(** ** Examples *)

Definition near_engine : SecureProvider :=
  {| provider_id := "near"; supports := fun _ => Ok tt;
     supports_contract := fun p v a => bool_decide (p = "near-v2") && (v =? 2);
     populate_capabilities := fun m => m |}.

Definition advertised (p : string) (v : Z) (pref : bool) (retire : option Z) : CatalogE2eeContract :=
  {| ac_protocol := p; ac_version := v; ac_attestation := "tdx"; preferred := pref;
     retire_after_unix_seconds := retire |}.

Definition entry_sample (id : string) : CatalogModel :=
  {| relay_contract_version := 2; cm_id := id; cm_label := "Model"; cm_short_label := "M";
     cm_model := "upstream"; cm_base_url := "https://model.example/v1"; cm_provider := "near";
     cm_provider_label := "NEAR"; cm_e2ee_protocol := "near-v3"; cm_e2ee_encryption_version := 3;
     cm_attestation_protocol := "tdx"; cm_context_window_tokens := 1000;
     cm_max_output_tokens := 100; cm_input_price := None; cm_output_price := None;
     cm_reasoning_efforts := ["low"; "unknown"; "high"]; cm_thinking_modes := [];
     cm_reasoning_replay := false; cm_supports_tools := true; cm_supports_parallel_tools := false;
     cm_supports_images := false; cm_file_mime_types := []; cm_reasoning_parameters := [];
     cm_thinking_parameters := [];
     e2ee_contracts := [advertised "near-v1" 1 false (Some 5); advertised "near-v2" 2 false None;
                        advertised "near-v3" 3 true None] |}.

(** Entries named by strings; everything else is malformed. *)
Definition named_codec : CatalogCodec :=
  {| decode_entry := fun v => match v with VString s => Some (entry_sample s) | _ => None end |}.

Definition model_sample' : ModelInfo :=
  model_of (U := plain_url) (entry_sample "m")
    {| pc_protocol := "near-v2"; pc_version := 2; pc_attestation := "tdx" |}
    ("https://model.example/v1" : @Url plain_url) [Low; High].

Lemma candidates_are_advertised_witness :
  contract_candidates (entry_sample "m") (Some 10)
  = Some [ {| pc_protocol := "near-v3"; pc_version := 3; pc_attestation := "tdx" |};
           {| pc_protocol := "near-v2"; pc_version := 2; pc_attestation := "tdx" |} ] /\
  NoDup (contract_of <$> e2ee_contracts (entry_sample "m")).
Proof.
  split; [by vm_compute|].
  destruct (candidates_are_advertised (entry_sample "m") (Some 10)
    [ {| pc_protocol := "near-v3"; pc_version := 3; pc_attestation := "tdx" |};
      {| pc_protocol := "near-v2"; pc_version := 2; pc_attestation := "tdx" |} ])
    as [[H _]|(t & _ & H & _)]; [by vm_compute|discriminate|exact H].
Defined.

Lemma catalog_models_are_usable_witness :
  exists entries, entries `sublist_of` [entry_sample "m"] /\
    Forall2 (@usable plain_url {["near" := near_engine]} default_endpoint_policy (Some 10))
      entries [model_sample'].
Proof.
  destruct (@catalog_models_are_usable named_codec plain_url {["near" := near_engine]}
    default_endpoint_policy (Some 10) [VNull; VString "m"] [model_sample'])
    as (_ & _ & entries & H1 & _ & H2).
  - by vm_compute.
  - exists entries. split; [exact H1|exact H2].
Defined.
