(* ===== verification/Lease.v ===== *)
(** Attestation leases and the cache of verified material
    (crates/axiom-secure-client/src/lease.rs).

    A lease binds the key the backend attests to the key this client verified
    itself.  Verified material is reused only for the very same model and policy,
    until its hard expiry.  The cache's maps are behind locks: each method is one
    atomic step.  Hexadecimal decoding and SHA-256 are library code (class
    [KeyDigest]); the clock is an argument. *)

From stdpp Require Import base gmap strings list sets.
From Stdlib Require Import ZArith QArith NArith Lia ZifyBool ZifyN ZifyNat.
From S2P Require Import Prelude RustStr Json ToolCalls Inference SecureError TrustPolicy.

Local Open Scope Z_scope.

(** ** Equality of models *)

(** Derived [PartialEq] of [ModelInfo], field by field. *)
Definition model_eqb (a b : ModelInfo) : bool :=
  bool_decide (mi_id a = mi_id b) && bool_decide (mi_label a = mi_label b)
  && bool_decide (mi_short_label a = mi_short_label b)
  && bool_decide (mi_provider_id a = mi_provider_id b)
  && bool_decide (mi_provider_label a = mi_provider_label b)
  && bool_decide (mi_upstream_model a = mi_upstream_model b)
  && bool_decide (mi_provider_base_url a = mi_provider_base_url b)
  && bool_decide (mi_e2ee_protocol a = mi_e2ee_protocol b)
  && (mi_e2ee_encryption_version a =? mi_e2ee_encryption_version b)
  && bool_decide (mi_attestation_protocol a = mi_attestation_protocol b)
  && (mi_context_window_tokens a =? mi_context_window_tokens b)
  && (mi_max_output_tokens a =? mi_max_output_tokens b)
  && bool_decide (mi_input_price a = mi_input_price b)
  && bool_decide (mi_output_price a = mi_output_price b)
  && bool_decide (mi_reasoning_efforts a = mi_reasoning_efforts b)
  && bool_decide (mi_thinking_modes a = mi_thinking_modes b)
  && Bool.eqb (mi_reasoning_replay a) (mi_reasoning_replay b)
  && Bool.eqb (mi_supports_tools a) (mi_supports_tools b)
  && Bool.eqb (mi_supports_parallel_tools a) (mi_supports_parallel_tools b)
  && Bool.eqb (mi_supports_streaming a) (mi_supports_streaming b)
  && Bool.eqb (mi_supports_images a) (mi_supports_images b)
  && bool_decide (mi_file_mime_types a = mi_file_mime_types b)
  && value_eqb (VObject (mi_reasoning_parameters a)) (VObject (mi_reasoning_parameters b))
  && value_eqb (VObject (mi_thinking_parameters a)) (VObject (mi_thinking_parameters b)).

(** ** Leases *)

Record ProviderKeyLease : Type := {
  pl_model_id : string; pl_model : string; pl_base_url : string; pl_provider : string;
  pl_attestation_protocol : string; pl_encryption_version : Z; pl_e2ee_protocol : string;
  pl_model_public_key : string; pl_verified : bool; pl_attestation_generation : Z;
  pl_model_key_fingerprint : string; pl_keyset_digest : option string;
  pl_response_signing_address : option string; pl_response_signing_key_fingerprint : option string;
  pl_hard_expires_at : Z
}.

Record AttestationBinding : Type := {
  generation : Z; model_key_fingerprint : string; keyset_digest : option string;
  hard_expires_at_unix_seconds : Z
}.

Class KeyDigest : Type := {
  hex_decode : string -> option (list N);     (** [hex::decode] *)
  sha256_hex : list N -> string               (** [hex::encode(Sha256::digest(..))] *)
}.

Definition invalid_key : SecureClientError := attestation_error "attested model key is invalid".

Definition normalize_key (value : string) : result SecureClientError string :=
  let value := default (trim value) (strip_prefix "0x" (trim value)) in
  if negb (len value =? 64) || negb (forallb is_ascii_hexdigit (bytes value))
  then Err invalid_key else Ok (to_ascii_lowercase value).

Section Leases.
Context `{KD : KeyDigest}.

Definition key_fingerprint (key : string) : result SecureClientError string :=
  normalized ← normalize_key key;
  bs ← ok_or (hex_decode normalized) invalid_key;
  Ok (sha256_hex bs).

(** The byte of ["/"]. *)
Definition without_slash (s : string) : string := trim_end_byte 47 s.

(** [AttestationBinding::verify] at time [now]. *)
Definition verify (now : Z) (wire : ProviderKeyLease) (m : ModelInfo) (locally_verified : string)
    : result SecureClientError AttestationBinding :=
  local_key ← normalize_key locally_verified;
  relay_key ← normalize_key (pl_model_public_key wire);
  fingerprint ← key_fingerprint local_key;
  if negb (bool_decide (pl_model_id wire = mi_id m))
     || negb (bool_decide (pl_model wire = mi_upstream_model m))
     || negb (bool_decide (pl_provider wire = mi_provider_id m))
     || negb (bool_decide (pl_attestation_protocol wire = mi_attestation_protocol m))
     || negb (bool_decide (pl_e2ee_protocol wire = mi_e2ee_protocol m))
     || negb (pl_encryption_version wire =? mi_e2ee_encryption_version m)
     || negb (bool_decide (without_slash (pl_base_url wire) = without_slash (mi_provider_base_url m)))
     || negb (pl_verified wire)
     || negb (bool_decide (relay_key = local_key))
     || negb (bool_decide (pl_model_key_fingerprint wire = fingerprint))
     || (pl_attestation_generation wire =? 0)
  then Err (attestation_error "backend attestation lease does not match local provider evidence")
  else if pl_hard_expires_at wire <=? now
  then Err (with_code AttestationUnavailable CAttestationExpired
              "backend attestation lease is expired" true)
  else Ok {| generation := pl_attestation_generation wire; model_key_fingerprint := fingerprint;
             keyset_digest := pl_keyset_digest wire;
             hard_expires_at_unix_seconds := pl_hard_expires_at wire |}.
End Leases.

(** ** Verified material *)

Section Cache.
Context {T : Type}.

Record CachedMaterial : Type := {
  ca_model : ModelInfo; ca_policy : TrustPolicy; ca_expires_at : Z; ca_material : T
}.

Abbreviation Entries := (gmap string CachedMaterial).

Definition get (now : Z) (m : ModelInfo) (p : TrustPolicy) (entries : Entries) : option T :=
  cached ← entries !! mi_id m;
  if (ca_expires_at cached >? now) && model_eqb (ca_model cached) m
     && bool_decide (ca_policy cached = p)
  then Some (ca_material cached) else None.

Definition insert_material (now : Z) (m : ModelInfo) (p : TrustPolicy) (material : T)
    (provider_hard_expiry maximum_ttl : Z) (entries : Entries) : Entries :=
  <[mi_id m := {| ca_model := m; ca_policy := p;
                  ca_expires_at := Z.min provider_hard_expiry (saturating_add now maximum_ttl);
                  ca_material := material |}]> entries.

Definition invalidate (model_id : string) (entries : Entries) : Entries := delete model_id entries.

(** The steps of any number of tasks on one cache. *)
Inductive cache_op : Type :=
| OpInsert (now : Z) (m : ModelInfo) (p : TrustPolicy) (material : T) (hard_expiry ttl : Z)
| OpInvalidate (model_id : string).

Definition cache_step (entries : Entries) (o : cache_op) : Entries :=
  match o with
  | OpInsert now m p material expiry ttl => insert_material now m p material expiry ttl entries
  | OpInvalidate id => invalidate id entries
  end.
Definition cache_run (ops : list cache_op) : Entries := foldl cache_step ∅ ops.

Definition touches (id : string) (o : cache_op) : Prop :=
  match o with
  | OpInsert _ m _ _ _ _ => mi_id m = id
  | OpInvalidate id' => id' = id
  end.
End Cache.

(** ** What a lease binds *)

(** A normalized key: 64 lowercase hexadecimal digits. *)
Definition key_ok (k : string) : Prop :=
  len k = 64 /\ forallb (fun b => is_ascii_hexdigit b && negb (is_ascii_uppercase b)) (bytes k) = true.

Lemma bytes_lowercase s :
  bytes (to_ascii_lowercase s) = (fun c => if is_ascii_uppercase c then (c + 32)%N else c) <$> bytes s.
Proof.
  unfold to_ascii_lowercase. apply bytes_of_bytes. apply Forall_fmap, Forall_forall.
  intros c Hc. cbn. assert (c < 256)%N.
  { revert Hc. induction s as [|a s IH]; cbn; [by intros ?%not_elem_of_nil|].
    intros [->|Hc]%elem_of_cons; [apply byte_val_lt|by apply IH]. }
  unfold is_ascii_uppercase. destruct (_ && _) eqn:Hu; lia.
Qed.

Lemma lowercase_hex c :
  is_ascii_hexdigit c = true ->
  let d := if is_ascii_uppercase c then (c + 32)%N else c in
  is_ascii_hexdigit d && negb (is_ascii_uppercase d) = true.
Proof.
  unfold is_ascii_hexdigit, is_ascii_uppercase, is_ascii_digit. cbv zeta. intros H.
  destruct ((65 <=? c)%N && (c <=? 90)%N) eqn:Hu; lia.
Qed.

Lemma normalize_key_ok v k : normalize_key v = Ok k -> key_ok k.
Proof.
  unfold normalize_key. set (w := default (trim v) _). case_match eqn:Hg; [done|]. intros [= <-].
  apply orb_false_iff in Hg as [Hl Hh]. apply negb_false_iff in Hl, Hh. unfold key_ok.
  rewrite len_bytes, bytes_lowercase, length_fmap, <- len_bytes. split; [lia|].
  rewrite forallb_elem_of in *. intros c Hc. apply list_elem_of_fmap in Hc as (x & -> & Hx).
  by apply lowercase_hex, Hh.
Qed.

(** What a lease must say for its model. *)
Record lease_matches (wire : ProviderKeyLease) (m : ModelInfo) : Prop := {
  lm_id : pl_model_id wire = mi_id m;
  lm_model : pl_model wire = mi_upstream_model m;
  lm_provider : pl_provider wire = mi_provider_id m;
  lm_attestation : pl_attestation_protocol wire = mi_attestation_protocol m;
  lm_protocol : pl_e2ee_protocol wire = mi_e2ee_protocol m;
  lm_version : pl_encryption_version wire = mi_e2ee_encryption_version m;
  lm_url : without_slash (pl_base_url wire) = without_slash (mi_provider_base_url m);
  lm_verified : pl_verified wire = true;
  lm_generation : pl_attestation_generation wire <> 0
}.

Section LeaseProofs.
Context `{KD : KeyDigest}.

(** A lease is accepted exactly when it is about this model and contract, is
    verified, carries the key this client verified itself (up to an 0x prefix
    and letter case) with that key's own fingerprint, has a generation, and has
    not expired; the binding then says that fingerprint and that expiry. *)
Theorem leases_bind_the_local_key now wire m local b :
  verify now wire m local = Ok b <->
  lease_matches wire m /\ now < pl_hard_expires_at wire /\
  (exists k, key_ok k /\ normalize_key local = Ok k /\ normalize_key (pl_model_public_key wire) = Ok k /\
     key_fingerprint k = Ok (pl_model_key_fingerprint wire)) /\
  b = {| generation := pl_attestation_generation wire;
         model_key_fingerprint := pl_model_key_fingerprint wire;
         keyset_digest := pl_keyset_digest wire;
         hard_expires_at_unix_seconds := pl_hard_expires_at wire |}.
Proof.
  unfold verify. split.
  - intros H. apply bind_Ok in H as (k & Hk & H). apply bind_Ok in H as (r & Hr & H).
    apply bind_Ok in H as (f & Hf & H). case_match eqn:Hg; [done|]. case_match eqn:He; [done|].
    injection H as <-. repeat (apply orb_false_iff in Hg as [Hg ?]).
    repeat match goal with
    | H : negb _ = false |- _ => apply negb_false_iff in H
    | H : bool_decide _ = true |- _ => apply bool_decide_eq_true in H
    end.
    subst r. subst f. split_and!; [constructor; try done; lia|lia| |done].
    exists k. split_and!; try done. by eapply normalize_key_ok.
  - intros ([] & He & (k & Hok & Hl & Hr & Hf) & ->). rewrite Hl. cbn. rewrite Hr. cbn. rewrite Hf. cbn.
    rewrite !bool_decide_eq_true_2 by done. cbn.
    replace (pl_encryption_version wire =? mi_e2ee_encryption_version m) with true by lia.
    replace (pl_attestation_generation wire =? 0) with false by lia.
    replace (pl_hard_expires_at wire <=? now) with false by lia. by rewrite lm_verified0.
Qed.
End LeaseProofs.

(** ** What the cache returns *)

Lemma model_eqb_fields a b :
  model_eqb a b = true ->
  mi_id a = mi_id b /\ mi_provider_id a = mi_provider_id b /\
  mi_upstream_model a = mi_upstream_model b /\ mi_provider_base_url a = mi_provider_base_url b /\
  mi_e2ee_protocol a = mi_e2ee_protocol b /\
  mi_e2ee_encryption_version a = mi_e2ee_encryption_version b /\
  mi_attestation_protocol a = mi_attestation_protocol b.
Proof.
  unfold model_eqb. intros H. repeat (apply andb_true_iff in H as [H ?]).
  repeat match goal with H : bool_decide _ = true |- _ => apply bool_decide_eq_true in H end.
  split_and!; (done || lia).
Qed.

Section CacheProofs.
Context {T : Type}.

(** The entry of an identifier is its latest insertion, if nothing touched it since. *)
Lemma cache_run_lookup (ops : list (@cache_op T)) id c :
  cache_run ops !! id = Some c <->
  exists before after now m p material expiry ttl,
    ops = before ++ OpInsert now m p material expiry ttl :: after /\
    Forall (fun o => ~ touches id o) after /\ mi_id m = id /\
    c = {| ca_model := m; ca_policy := p;
           ca_expires_at := Z.min expiry (saturating_add now ttl); ca_material := material |}.
Proof.
  unfold cache_run. revert c. induction ops as [|o ops IH] using rev_ind; intros c.
  - cbn. rewrite lookup_empty. split; [done|]. intros ([|] & ? & ? & ? & ? & ? & ? & ? & ? & _); done.
  - rewrite foldl_app. cbn [foldl]. assert (Hdec : touches id o \/ ~ touches id o).
    { destruct o as [? m ? ? ? ?|i]; cbn;
        [destruct (decide (mi_id m = id))|destruct (decide (i = id))]; auto. }
    split.
    + intros H. destruct Hdec as [Ht|Ht].
      * destruct o as [now m p material expiry ttl|i]; cbn in *; subst id.
        -- unfold insert_material in H. rewrite lookup_insert_eq in H. injection H as <-.
           exists ops, [], now, m, p, material, expiry, ttl. split_and!; done.
        -- unfold invalidate in H. by rewrite lookup_delete_eq in H.
      * assert (H' : foldl cache_step ∅ ops !! id = Some c).
        { destruct o as [now m p material expiry ttl|i]; cbn in *.
          - unfold insert_material in H. by rewrite lookup_insert_ne in H.
          - unfold invalidate in H. by rewrite lookup_delete_ne in H. }
        apply IH in H' as (b & a & now & m & p & material & expiry & ttl & -> & Ha & Hid & ->).
        exists b, (a ++ [o]), now, m, p, material, expiry, ttl. split_and!; try done.
        -- by rewrite <- app_assoc.
        -- apply Forall_app. split; [done|]. by apply Forall_singleton.
    + intros (b & a & now & m & p & material & expiry & ttl & Heq & Ha & Hid & ->).
      destruct a as [|x a _] using rev_ind.
      * apply app_inj_tail in Heq as [-> ->]. cbn. unfold insert_material. subst id.
        by rewrite lookup_insert_eq.
      * rewrite app_comm_cons, app_assoc in Heq. apply app_inj_tail in Heq as [-> <-].
        apply Forall_app in Ha as [Ha Hx]. rewrite Forall_singleton in Hx.
        assert (H' : foldl cache_step ∅ (b ++ OpInsert now m p material expiry ttl :: a) !! id
          = Some {| ca_model := m; ca_policy := p;
                    ca_expires_at := Z.min expiry (saturating_add now ttl); ca_material := material |}).
        { apply IH. exists b, a, now, m, p, material, expiry, ttl. done. }
        destruct o as [now' m' p' material' expiry' ttl'|i]; cbn in *.
        -- unfold insert_material. by rewrite lookup_insert_ne.
        -- unfold invalidate. by rewrite lookup_delete_ne.
Qed.

(** Verified material is reused only where it was verified: however tasks
    interleave insertions and invalidations, a lookup returns exactly the
    material of the latest insertion for that identifier, made for an equal
    model and the same policy, before the provider's hard expiry and the maximum
    age, and not touched since. *)
Theorem verified_material_is_current now m p material (ops : list (@cache_op T)) :
  get now m p (cache_run ops) = Some material <->
  exists before after t m' expiry ttl,
    ops = before ++ OpInsert t m' p material expiry ttl :: after /\
    Forall (fun o => ~ touches (mi_id m) o) after /\
    model_eqb m' m = true /\ now < expiry /\ now < saturating_add t ttl.
Proof.
  unfold get. split.
  - intros H. apply bind_Some in H as (c & Hc & H). case_match eqn:Hg; [|done]. injection H as <-.
    apply andb_true_iff in Hg as [Hg Hp]. apply andb_true_iff in Hg as [He Hm].
    apply bool_decide_eq_true in Hp.
    apply cache_run_lookup in Hc as (b & a & t & m' & p' & mat & expiry & ttl & -> & Ha & Hid & ->).
    cbn in *. subst p'. exists b, a, t, m', expiry, ttl. split_and!; (done || lia).
  - intros (b & a & t & m' & expiry & ttl & -> & Ha & Hm & H1 & H2).
    assert (Hl : cache_run (b ++ OpInsert t m' p material expiry ttl :: a) !! mi_id m
      = Some {| ca_model := m'; ca_policy := p;
                ca_expires_at := Z.min expiry (saturating_add t ttl); ca_material := material |}).
    { apply cache_run_lookup. exists b, a, t, m', p, material, expiry, ttl. split_and!; try done.
      by apply model_eqb_fields in Hm as [? _]. }
    rewrite Hl. cbn. rewrite Hm, bool_decide_eq_true_2 by done.
    by replace (Z.min expiry (saturating_add t ttl) >? now) with true by lia.
Qed.
End CacheProofs.

(** ** Examples *)

Definition zeros_key : string := of_bytes (replicate 64 48%N).

(** Keys are decoded as text and digested to a constant. *)
Definition plain_digest : KeyDigest :=
  {| hex_decode := fun s => Some (bytes s); sha256_hex := fun _ => "digest" |}.

Definition lease_sample : ProviderKeyLease :=
  {| pl_model_id := "cherry"; pl_model := "m"; pl_base_url := "u/"; pl_provider := "p";
     pl_attestation_protocol := "a"; pl_encryption_version := 1; pl_e2ee_protocol := "e";
     pl_model_public_key := "0x" +:+ zeros_key; pl_verified := true;
     pl_attestation_generation := 4; pl_model_key_fingerprint := "digest";
     pl_keyset_digest := None; pl_response_signing_address := None;
     pl_response_signing_key_fingerprint := None; pl_hard_expires_at := 100 |}.

Example lease_sample_verifies :
  @verify plain_digest 99 lease_sample
    {| mi_id := "cherry"; mi_label := "c"; mi_short_label := "c"; mi_provider_id := "p";
       mi_provider_label := "p"; mi_upstream_model := "m"; mi_provider_base_url := "u";
       mi_e2ee_protocol := "e"; mi_e2ee_encryption_version := 1; mi_attestation_protocol := "a";
       mi_context_window_tokens := 1; mi_max_output_tokens := 1; mi_input_price := None;
       mi_output_price := None; mi_reasoning_efforts := []; mi_thinking_modes := [];
       mi_reasoning_replay := false; mi_supports_tools := false;
       mi_supports_parallel_tools := false; mi_supports_streaming := false;
       mi_supports_images := false; mi_file_mime_types := []; mi_reasoning_parameters := [];
       mi_thinking_parameters := [] |} zeros_key
  = Ok {| generation := 4; model_key_fingerprint := "digest"; keyset_digest := None;
          hard_expires_at_unix_seconds := 100 |}.
Proof. by vm_compute. Qed.
