(* ===== verification/Release.v ===== *)
(** Signed releases and the update feed (crates/axiom-update-client/src/manifest.rs
    and lib.rs).

    serde, base64, hexadecimal, SHA-256 and Ed25519 are library code ([SerdeJson],
    [Base64], [KeyDigest], [ReleaseCodec]); an error of a library is [External].
    [accept_sequence] runs under an exclusive file lock, so it is one atomic step
    on the file of the accepted release. *)

From stdpp Require Import base countable gmap strings list sets sorting.
From Stdlib Require Import ZArith QArith NArith Lia ZifyBool ZifyN ZifyNat.
From S2P Require Import Prelude RustStr Json Accounting Lease.

Local Open Scope Z_scope.

Definition MAX_FEED_BYTES : Z := 128 * 1024.
Definition MAX_ARTIFACT_BYTES : Z := 2 * 1024 * 1024 * 1024.

Record Artifact : Type := {
  a_name : string; product : string; platform : string; arch : string; format : string;
  a_bytes : Z; sha256 : string; a_url : string; github_url : string
}.
Record ReleaseSignature : Type := { key_id : string; sig_value : string }.
Record Release : Type := {
  schema_version : Z; version : string; r_revision : string; r_sequence : Z; signing : string;
  downloads : list Artifact; cli_downloads : list Artifact; signature : option ReleaseSignature
}.

#[export] Instance Artifact_eq_dec : EqDecision Artifact.
Proof. solve_decision. Defined.
#[export] Instance ReleaseSignature_eq_dec : EqDecision ReleaseSignature.
Proof. solve_decision. Defined.
#[export] Instance Release_eq_dec : EqDecision Release.
Proof. solve_decision. Defined.

#[export] Instance Artifact_countable : Countable Artifact.
Proof.
  refine (inj_countable'
    (fun f => (a_name f, product f, platform f, arch f, format f, a_bytes f, sha256 f, a_url f,
               github_url f))
    (fun t => let '(a, b, c, d, e, f, g, h, i) := t in
              {| a_name := a; product := b; platform := c; arch := d; format := e; a_bytes := f;
                 sha256 := g; a_url := h; github_url := i |}) _).
  by intros [].
Defined.
#[export] Instance ReleaseSignature_countable : Countable ReleaseSignature.
Proof.
  refine (inj_countable' (fun s => (key_id s, sig_value s))
                         (fun t => {| key_id := t.1; sig_value := t.2 |}) _).
  by intros [].
Defined.
#[export] Instance Release_countable : Countable Release.
Proof.
  refine (inj_countable'
    (fun r => (schema_version r, version r, r_revision r, r_sequence r, signing r, downloads r,
               cli_downloads r, signature r))
    (fun t => let '(a, b, c, d, e, f, g, h) := t in
              {| schema_version := a; version := b; r_revision := c; r_sequence := d; signing := e;
                 downloads := f; cli_downloads := g; signature := h |}) _).
  by intros [].
Defined.

Inductive Failure : Type :=
| Refused (message : string)
| External.

(** [anyhow::ensure!]. *)
Definition ensure (b : bool) (message : string) : result Failure unit :=
  reject_if (negb b) (Refused message).
Definition external {A} (o : option A) : result Failure A := ok_or o External.

(** ** Versions *)

Definition version_part (s : string) : result Failure Z :=
  _ ← ensure (negb (is_empty s) && (len s <=? 9) && forallb is_ascii_digit (bytes s)
              && ((len s =? 1) || negb (starts_with "0" s))) "Invalid release version";
  external (parse_digits U32_MAX s).

Definition version_parts (v : string) : result Failure (list Z) :=
  let parts := split_byte 46 v in
  _ ← ensure (length parts =? 3)%nat "Invalid release version";
  collect version_part parts.

(** The order of arrays. *)
Fixpoint parts_le (a b : list Z) : bool :=
  match a, b with
  | [], _ => true
  | _ :: _, [] => false
  | x :: a, y :: b => (x <? y) || ((x =? y) && parts_le a b)
  end.

(** ** Manifests *)

Definition lower_hex (value : string) (length : Z) : bool :=
  (len value =? length)
  && forallb (fun c => is_ascii_digit c || ((97 <=? c)%N && (c <=? 102)%N)) (bytes value).

Definition allowed_formats (prod plat : string) : list string :=
  if decide (plat = "mac") then ["pkg"]
  else if decide (plat = "win") then ["exe"]
  else if decide (prod = "desktop" /\ plat = "linux") then ["AppImage"; "deb"; "pacman"]
  else if decide (prod = "cli" /\ plat = "linux") then ["sh"] else [].

Definition name_format (name : string) : string :=
  if ends_with ".pkg.tar.xz" name || ends_with ".pkg.tar.zst" name then "pacman"
  else default EmptyString (last (split_byte 46 name)).

Definition marker (name a : string) : bool :=
  contains ("-" +:+ a +:+ ".") name || contains ("-" +:+ a +:+ "-") name.

Definition name_arch (name : string) : string :=
  if marker name "universal" then "universal"
  else if marker name "arm64" then "arm64"
  else if existsb (marker name) ["x64"; "x86_64"; "amd64"] then "x64" else EmptyString.

Definition name_byte (c : N) : bool :=
  is_ascii_alphanumeric c || (c =? 46)%N || (c =? 95)%N || (c =? 45)%N.

Definition schema_arch_ok (schema : Z) (f : Artifact) : bool :=
  if schema =? 3
  then if decide (platform f = "linux") then bool_decide (arch f = "x64")
       else bool_decide (arch f = "universal")
  else bool_decide (arch f ∈ ["x64"; "arm64"]).

Definition cdn_url (version name : string) : string :=
  "https://cdn.axiom.stream/downloads/" +:+ version +:+ "/" +:+ name.
Definition release_page_url (version name : string) : string :=
  "https://github.com/astrea-foundation/axiom-releases/releases/download/v"
  +:+ version +:+ "/" +:+ name.

Definition artifact_ok (r : Release) (prod : string) (f : Artifact) : bool :=
  bool_decide (product f = prod)
  && (len (a_name f) <=? 200)
  && match head (bytes (a_name f)) with Some c => is_ascii_alphanumeric c | None => false end
  && forallb name_byte (bytes (a_name f))
  && contains ("-" +:+ version r +:+ "-") (a_name f)
  && schema_arch_ok (schema_version r) f
  && bool_decide (name_arch (a_name f) = arch f)
  && bool_decide (name_format (a_name f) ∈ allowed_formats prod (platform f))
  && bool_decide (format f = name_format (a_name f))
  && (0 <? a_bytes f) && (a_bytes f <=? MAX_ARTIFACT_BYTES)
  && lower_hex (sha256 f) 64
  && bool_decide (a_url f = cdn_url (version r) (a_name f))
  && bool_decide (github_url f = release_page_url (version r) (a_name f)).

(** The key of [seen]. *)
Definition slot (prod : string) (f : Artifact) : string * string * string * string :=
  (prod, platform f, arch f, format f).

Fixpoint check_artifacts (r : Release) (seen : list (string * string * string * string))
    (files : list (string * Artifact)) : result Failure unit :=
  match files with
  | [] => Ok tt
  | (prod, f) :: files =>
    _ ← ensure (artifact_ok r prod f && negb (bool_decide (slot prod f ∈ seen)))
          "Invalid release artifact";
    check_artifacts r (slot prod f :: seen) files
  end.

Definition files_of (r : Release) : list (string * Artifact) :=
  (pair "desktop" <$> downloads r) ++ (pair "cli" <$> cli_downloads r).

Definition header_ok (r : Release) : bool :=
  ((schema_version r =? 2) || (schema_version r =? 3))
  && (0 <? r_sequence r) && (r_sequence r <=? 9007199254740991)
  && lower_hex (r_revision r) 40
  && bool_decide (signing r ∈ ["signed"; "unsigned"])
  && negb (bool_decide (downloads r = []))
  && (Z.of_nat (length (downloads r)) + Z.of_nat (length (cli_downloads r)) <=? 100).

(** Derived (de)serialization and the cryptography of releases. *)
Class ReleaseCodec : Type := {
  decode_release : list N -> option Release;         (** [serde_json::from_slice] *)
  encode_release : Release -> list N;                (** [serde_json::to_vec] *)
  write_scalar : Value -> string;                    (** [serde_json::to_writer] *)
  signature_shape : list N -> bool;                  (** [Signature::from_slice] *)
  verifying_key : list N -> bool;                    (** [VerifyingKey::from_bytes] *)
  verify_strict : list N -> string -> list N -> bool (** key, payload, signature *)
}.

Section Manifest.
Context `{RC : ReleaseCodec} `{B64 : Base64} `{J : SerdeJson} `{KD : KeyDigest}.

Definition signature_check (r : Release) : result Failure unit :=
  match signature r with
  | Some s =>
    if decide (signing r = "signed") then
      if lower_hex (key_id s) 16 then
        decoded ← external (b64_decode (sig_value s));
        ensure (length decoded =? 64)%nat "Invalid release signature"
      else Err (Refused "Invalid release signature")
    else Err (Refused "Missing release signature")
  | None => if decide (signing r = "unsigned") then Ok tt
            else Err (Refused "Missing release signature")
  end.

Definition parse_release (bs : list N) : result Failure Release :=
  _ ← ensure (Z.of_nat (length bs) <=? MAX_FEED_BYTES) "Release feed is too large";
  r ← external (decode_release bs);
  _ ← ensure (header_ok r) "Invalid release manifest";
  _ ← version_parts (version r);
  _ ← signature_check r;
  _ ← check_artifacts r [] (files_of r);
  Ok r.

(** [serde_json::to_value] of a release, members in key order. *)
Definition artifact_value (f : Artifact) : Value :=
  VObject [("arch", VString (arch f)); ("bytes", VNumber (PosInt (a_bytes f)));
           ("format", VString (format f)); ("githubUrl", VString (github_url f));
           ("name", VString (a_name f)); ("platform", VString (platform f));
           ("product", VString (product f)); ("sha256", VString (sha256 f));
           ("url", VString (a_url f))].
Definition signature_value (s : ReleaseSignature) : Value :=
  VObject [("keyId", VString (key_id s)); ("value", VString (sig_value s))].
Definition release_members (r : Release) : Map :=
  [("cliDownloads", VArray (artifact_value <$> cli_downloads r));
   ("downloads", VArray (artifact_value <$> downloads r));
   ("revision", VString (r_revision r));
   ("schemaVersion", VNumber (PosInt (schema_version r)));
   ("sequence", VNumber (PosInt (r_sequence r)))]
  ++ match signature r with Some s => [("signature", signature_value s)] | None => [] end
  ++ [("signing", VString (signing r)); ("version", VString (version r))].
Definition release_value (r : Release) : Value := VObject (release_members r).

(** [canonical_json]: objects with their keys in byte order. *)
Definition member_le (x y : string * string) : Prop := str_le x.1 y.1.
#[export] Instance member_le_dec : RelDecision member_le.
Proof. intros x y. unfold member_le. apply _. Defined.

Fixpoint canonical_json (v : Value) : string :=
  match v with
  | VObject m =>
    let members := (fix go (m : Map) : list (string * string) :=
                      match m with [] => [] | (k, v) :: m => (k, canonical_json v) :: go m end) m in
    "{" +:+ join "," ((fun kv => quote kv.1 +:+ ":" +:+ kv.2) <$> merge_sort member_le members)
    +:+ "}"
  | VArray l =>
    "[" +:+ join "," ((fix go (l : list Value) : list string :=
                         match l with [] => [] | v :: l => canonical_json v :: go l end) l) +:+ "]"
  | _ => write_scalar v
  end.

(** The bytes that are signed. *)
Definition signed_payload (r : Release) : string :=
  canonical_json (VObject (map_remove "signature" (release_members r))).

Definition key_matches (id : string) (key : list N) : bool :=
  (length key =? 32)%nat && starts_with id (sha256_hex key).

Definition trusted_key (trusted_keys id : string) : option (list N) :=
  head (filter (fun key => key_matches id key = true)
          (omap (fun h => hex_decode (trim h)) (split_byte 44 trusted_keys))).

Definition verify_release (r : Release) (trusted_keys : string) : result Failure unit :=
  _ ← ensure (bool_decide (signing r = "signed")) "Automatic updates require a signed release";
  s ← ok_or (signature r) (Refused "Missing release signature");
  key ← ok_or (trusted_key trusted_keys (key_id s))
          (Refused "This build does not trust the update signing key");
  decoded ← external (b64_decode (sig_value s));
  _ ← (if signature_shape decoded then Ok tt else Err External);
  _ ← (if verifying_key key then Ok tt else Err External);
  ensure (verify_strict key (signed_payload r) decoded) "Invalid update signature".

(** ** The accepted feed (lib.rs) *)

(** What the file operations do.  [DirectoryFails]: the directory or the lock is refused.
    [Reached looked read persisted]: [path.exists()] could look at the file (its failure
    counts as no file), [std::fs::read] could read it, and the release replaced it. *)
Inductive Io : Type := DirectoryFails | Reached (looked read persisted : bool).

(** What is checked against: nothing when there is no file, or none to be seen. *)
Definition remembered (looked read : bool) (file : option (list N)) : result Failure (option (list N)) :=
  if negb looked then Ok None else
  match file with
  | Some bs => if read then Ok (Some bs) else Err External
  | None => Ok None
  end.

Definition older : Failure := Refused "Refusing an older update feed".
Definition changed : Failure := Refused "An immutable release changed".

(** The checks against the file's release. *)
Definition check_previous (trusted_keys : string) (r : Release) (bs : list N) : result Failure unit :=
  previous ← parse_release bs;
  _ ← verify_release previous trusted_keys;
  _ ← reject_if (r_sequence r <? r_sequence previous) older;
  new ← version_parts (version r);
  old ← version_parts (version previous);
  _ ← reject_if (negb (parts_le old new)) older;
  reject_if (((r_sequence r =? r_sequence previous) || bool_decide (version r = version previous))
             && negb (value_eqb (release_value r) (release_value previous))) changed.

Definition accept_sequence (trusted_keys : string) (r : Release) (io : Io)
    : M (option (list N)) Failure unit := fun file =>
  match verify_release r trusted_keys with
  | Err e => (file, Err e)
  | Ok _ =>
    match io with
    | DirectoryFails => (file, Err External)
    | Reached looked read persisted =>
      match previous ← remembered looked read file;
            match previous with Some bs => check_previous trusted_keys r bs | None => Ok tt end with
      | Err e => (file, Err e)
      | Ok _ => if persisted then (Some (encode_release r), Ok tt) else (file, Err External)
      end
    end
  end.
End Manifest.

(** ** Versions are canonical *)

Lemma split_byte_nonempty b s : split_byte b s <> [].
Proof. induction s as [|a s IH]; cbn; [done|]. case_match; [done|]. by destruct (split_byte b s). Qed.

Lemma join_cons sep x l : l <> [] -> join sep (x :: l) = x +:+ sep +:+ join sep l.
Proof. by destruct l. Qed.

Lemma join_extend sep a x l : join sep (String a x :: l) = String a (join sep (x :: l)).
Proof. by destruct l. Qed.

Lemma join_split_byte b s :
  join (String (byte_of b) EmptyString) (split_byte b s) = s.
Proof.
  induction s as [|a s IH]; [done|]. cbn [split_byte].
  destruct (byte_val a =? b)%N eqn:Ha.
  - apply N.eqb_eq in Ha as <-. rewrite byte_of_val in *.
    rewrite join_cons by apply split_byte_nonempty. by rewrite IH.
  - pose proof (split_byte_nonempty b s). destruct (split_byte b s) as [|x l]; [done|].
    by rewrite join_extend, IH.
Qed.

Definition is_digits (s : string) : Prop := forallb is_ascii_digit (bytes s) = true.

Lemma digits_bounds s a :
  is_digits s -> a * 10 ^ len s <= digits_from a s < (a + 1) * 10 ^ len s.
Proof.
  unfold is_digits. revert a. induction s as [|c s IH]; intros a H; [change (len EmptyString) with 0; change (digits_from a EmptyString) with a; rewrite Z.pow_0_r; lia|].
  cbn [bytes forallb] in H. apply andb_true_iff in H as [Hc H]. rewrite digits_from_cons.
  specialize (IH (a * 10 + (Z.of_N (byte_val c) - 48)) H).
  assert (Hl : len (String c s) = 1 + len s) by (unfold len; cbn; lia).
  rewrite Hl, Z.pow_add_r by (pose proof (len_nonneg s); lia).
  unfold is_ascii_digit in Hc. change (10 ^ 1) with 10.
  set (p := 10 ^ len s) in *. assert (0 <= p) by (apply Z.pow_nonneg; lia).
  set (v := Z.of_N (byte_val c) - 48) in *. assert (0 <= v <= 9) by (subst v; lia). clearbody p v. nia.
Qed.

Lemma digits_inj_length s t a b :
  len s = len t -> is_digits s -> is_digits t -> digits_from a s = digits_from b t -> a = b /\ s = t.
Proof.
  unfold is_digits. revert t a b. induction s as [|c s IH]; intros [|d t] a b Hl Hs Ht H.
  - done.
  - unfold len in Hl. cbn in Hl. lia.
  - unfold len in Hl. cbn in Hl. lia.
  - cbn [bytes forallb] in Hs, Ht. apply andb_true_iff in Hs as [Hc Hs], Ht as [Hd Ht].
    rewrite !digits_from_cons in H. apply IH in H as [H ->]; [|unfold len in *; cbn in *; lia|done|done].
    unfold is_ascii_digit in *. assert (byte_val c = byte_val d /\ a = b) as [Hcd ->] by lia.
    split; [done|]. f_equal. rewrite <- (byte_of_val c), <- (byte_of_val d). by rewrite Hcd.
Qed.

Lemma version_part_Ok s n :
  version_part s = Ok n ->
  is_digits s /\ 0 < len s /\ (len s = 1 \/ 10 ^ (len s - 1) <= n) /\ n = digits_from 0 s /\ n < 10 ^ len s.
Proof.
  unfold version_part, ensure, external. rewrite bind_unit_Ok, reject_if_tt, negb_false_iff, ok_or_Ok.
  intros [H Hp]. rewrite !andb_true_iff, negb_true_iff, is_empty_len in H.
  destruct H as [[[He Hl] Hd] Hz]. unfold parse_digits in Hp. rewrite Hd in Hp.
  destruct (is_empty s); [done|]. cbn [negb orb] in Hp. case_match; [|done]. injection Hp as <-.
  change (decimal_value s) with (digits_from 0 s). pose proof (digits_bounds s 0 Hd).
  split_and!; try done; try lia. apply orb_true_iff in Hz as [Hz|Hz]; [left; lia|].
  destruct s as [|c s]; [change (len EmptyString) with 0 in He; lia|].
  assert (Hl' : len (String c s) = 1 + len s) by (unfold len; cbn; lia).
  rewrite Hl'. replace (1 + len s - 1) with (len s) by lia. right.
  cbn [bytes forallb] in Hd. apply andb_true_iff in Hd as [Hc Hd]. rewrite digits_from_cons.
  pose proof (digits_bounds s (0 * 10 + (Z.of_N (byte_val c) - 48)) Hd) as [Hlow _].
  assert (Hne : byte_val c <> 48%N).
  { intros Hc0. apply negb_true_iff in Hz. unfold starts_with in Hz. cbn in Hz.
    rewrite <- (byte_of_val c), Hc0 in Hz. done. }
  unfold is_ascii_digit in Hc. set (p := 10 ^ len s) in *.
  assert (0 <= p) by (apply Z.pow_nonneg; lia). nia.
Qed.

Lemma version_part_inj s t n : version_part s = Ok n -> version_part t = Ok n -> s = t.
Proof.
  intros Hs Ht. apply version_part_Ok in Hs as (Hs & Hs0 & Hsl & Hsn & Hsu).
  apply version_part_Ok in Ht as (Ht & Ht0 & Htl & Htn & Htu).
  eapply digits_inj_length; [|done|done|by rewrite <- Hsn, <- Htn].
  destruct (Z.lt_trichotomy (len s) (len t)) as [Hlt|[Heq|Hlt]]; [|done|]; exfalso.
  - pose proof (Z.pow_le_mono_r 10 (len s) (len t - 1) ltac:(lia) ltac:(lia)). lia.
  - pose proof (Z.pow_le_mono_r 10 (len t) (len s - 1) ltac:(lia) ltac:(lia)). lia.
Qed.

(** Equal versions are written the same. *)
Lemma version_parts_inj v w p : version_parts v = Ok p -> version_parts w = Ok p -> v = w.
Proof.
  unfold version_parts. rewrite !bind_unit_Ok. intros [_ Hv] [_ Hw].
  rewrite collect_Ok in Hv, Hw.
  assert (Heq : split_byte 46 v = split_byte 46 w).
  { revert p Hv Hw. generalize (split_byte 46 v) (split_byte 46 w). intros l k p Hv. revert k.
    induction Hv as [|x n l p Hx _ IH]; intros k Hk; inversion Hk as [|y n' k' p' Hy Hk' E1 E2]; subst; [done|].
    f_equal; [by eapply version_part_inj|by apply IH]. }
  rewrite <- (join_split_byte 46 v), <- (join_split_byte 46 w). by rewrite Heq.
Qed.

Lemma parts_le_refl a : parts_le a a = true.
Proof. induction a as [|x a IH]; [done|]. cbn. rewrite IH. lia. Qed.

Lemma parts_le_trans a b c : parts_le a b = true -> parts_le b c = true -> parts_le a c = true.
Proof.
  revert b c. induction a as [|x a IH]; intros [|y b] [|z c]; cbn; try done.
  rewrite !orb_true_iff, !andb_true_iff. intros H1 H2.
  destruct H1 as [H1|[H1 H1']], H2 as [H2|[H2 H2']]; [left; lia..|].
  right. split; [lia|by eapply IH].
Qed.

Lemma parts_le_antisym a b : parts_le a b = true -> parts_le b a = true -> a = b.
Proof.
  revert b. induction a as [|x a IH]; intros [|y b]; cbn; try done.
  rewrite !orb_true_iff, !andb_true_iff. intros [H1|[H1 H1']] [H2|[H2 H2']]; try lia.
  f_equal; [lia|by apply IH].
Qed.

(** ** Equal serializations *)

Lemma value_eqb_string a b : value_eqb (VString a) (VString b) = bool_decide (a = b).
Proof. reflexivity. Qed.

Lemma value_eqb_object (l k : Map) :
  value_eqb (VObject l) (VObject k) =
  match l, k with
  | [], [] => true
  | (i, x) :: l, (j, y) :: k => bool_decide (i = j) && value_eqb x y && value_eqb (VObject l) (VObject k)
  | _, _ => false
  end.
Proof. by destruct l as [|[i x] l], k as [|[j y] k]. Qed.

Lemma value_eqb_array l k :
  value_eqb (VArray l) (VArray k) =
  match l, k with
  | [], [] => true
  | x :: l, y :: k => value_eqb x y && value_eqb (VArray l) (VArray k)
  | _, _ => false
  end.
Proof. by destruct l, k. Qed.

Lemma value_eqb_int m n : value_eqb (VNumber (PosInt m)) (VNumber (PosInt n)) = (m =? n).
Proof. reflexivity. Qed.

Ltac values :=
  rewrite ?value_eqb_object, ?value_eqb_string, ?value_eqb_int, ?andb_true_iff, ?andb_false_iff,
    ?bool_decide_eq_true, ?Z.eqb_eq.

Lemma artifact_value_inj f g : value_eqb (artifact_value f) (artifact_value g) = true <-> f = g.
Proof.
  unfold artifact_value. repeat progress values. split; [|intros ->; naive_solver].
  intros H. destruct f, g. cbn in *. naive_solver.
Qed.

Lemma artifacts_value_inj l k :
  value_eqb (VArray (artifact_value <$> l)) (VArray (artifact_value <$> k)) = true <-> l = k.
Proof.
  revert k. induction l as [|f l IH]; intros [|g k]; cbn [fmap list_fmap];
    rewrite value_eqb_array; [done..|].
  rewrite andb_true_iff, artifact_value_inj, IH. naive_solver.
Qed.

Lemma signature_value_inj s t : value_eqb (signature_value s) (signature_value t) = true <-> s = t.
Proof.
  unfold signature_value. repeat progress values. destruct s, t. cbn. naive_solver.
Qed.

Lemma release_value_inj r q : value_eqb (release_value r) (release_value q) = true <-> r = q.
Proof.
  unfold release_value, release_members. cbn [app].
  destruct r as [r1 r2 r3 r4 r5 r6 r7 r8], q as [q1 q2 q3 q4 q5 q6 q7 q8].
  cbn [schema_version version r_revision r_sequence signing downloads cli_downloads signature].
  destruct r8 as [s|], q8 as [t|]; cbn [app]; repeat progress values;
    rewrite ?artifacts_value_inj, ?signature_value_inj.
  all: split; [intros H; decompose [and] H; first [discriminate|congruence]|].
  all: intros H; first [discriminate H|injection H; intros; subst; tauto].
Qed.

(** ** The update feed *)

Section Feed.
Context `{RC : ReleaseCodec} `{B64 : Base64} `{J : SerdeJson} `{KD : KeyDigest}.

(** Documented behaviour of serde's derived implementations: what is written is
    read back. *)
Definition CodecRoundtrip : Prop := forall r, decode_release (encode_release r) = Some r.

(** [r] may follow [q] in the feed. *)
Record follows (q r : Release) : Prop := {
  fo_sequence : r_sequence q <= r_sequence r;
  fo_version : exists p p', version_parts (version q) = Ok p /\ version_parts (version r) = Ok p' /\
                 parts_le p p' = true;
  fo_immutable : r_sequence q = r_sequence r \/ version q = version r -> q = r
}.

#[export] Instance follows_trans : Transitive follows.
Proof.
  intros a b c [H1 (p & q & Hp & Hq & H2) H3] [H4 (q' & r & Hq' & Hr & H5) H6].
  rewrite Hq in Hq'. injection Hq' as <-. constructor.
  - lia.
  - exists p, r. split_and!; try done. by eapply parts_le_trans.
  - intros [Hs|Hv].
    + rewrite H3 by (left; lia). apply H6. left. lia.
    + rewrite Hv, Hr in Hp. injection Hp as <-.
      assert (Hpq : r = q) by (by apply parts_le_antisym). subst q.
      assert (Hb : version a = version b) by (rewrite Hv; by eapply version_parts_inj).
      rewrite H3 by (by right). apply H6. right. congruence.
Qed.

Lemma parse_release_decoded bs r : parse_release bs = Ok r -> decode_release bs = Some r.
Proof.
  unfold parse_release, external. rewrite bind_unit_Ok. intros [_ H].
  apply bind_Ok in H as (r' & Hd & H). apply ok_or_Ok in Hd. rewrite !bind_unit_Ok in H.
  destruct H as (_ & H). apply bind_Ok in H as (v & _ & H). rewrite !bind_unit_Ok in H.
  destruct H as (_ & _ & [= <-]). done.
Qed.

Lemma check_previous_follows keys r q :
  CodecRoundtrip -> check_previous keys r (encode_release q) = Ok tt -> follows q r.
Proof.
  intros Hrt H. unfold check_previous in H. apply bind_Ok in H as (q' & Hq & H).
  apply parse_release_decoded in Hq. rewrite Hrt in Hq. injection Hq as <-.
  rewrite !bind_unit_Ok, reject_if_tt in H. destruct H as (_ & Hs & H).
  apply bind_Ok in H as (p' & Hp' & H). apply bind_Ok in H as (p & Hp & H).
  rewrite bind_unit_Ok, !reject_if_tt, negb_false_iff in H. destruct H as (Hle & Hi).
  constructor; [lia|by exists p, p'|].
  intros Heq. symmetry. apply release_value_inj. apply andb_false_iff in Hi as [Hi|Hi].
  - apply orb_false_iff in Hi as [H1 H2]. apply bool_decide_eq_false in H2. destruct Heq; [lia|congruence].
  - by apply negb_false_iff in Hi.
Qed.

Abbreviation Attempt := (Release * Io)%type.

(** The file and the accepted releases after a list of attempts. *)
Definition attempt (keys : string) (s : option (list N) * list Release) (a : Attempt)
    : option (list N) * list Release :=
  let '(file, r) := accept_sequence keys a.1 a.2 s.1 in
  (file, if is_ok r then s.2 ++ [a.1] else s.2).
Definition attempts (keys : string) (l : list Attempt) : option (list N) * list Release :=
  foldl (attempt keys) (None, []) l.

(** [path.exists()] tells whether there is a file. *)
Definition looks (io : Io) : bool := match io with Reached looked _ _ => looked | DirectoryFails => true end.

Lemma accept_sequence_cases keys r io file file' res :
  accept_sequence keys r io file = (file', res) ->
  (res <> Ok tt /\ file' = file) \/
  (res = Ok tt /\ file' = Some (encode_release r) /\ verify_release r keys = Ok tt /\
   (looks io = true -> match file with Some bs => check_previous keys r bs = Ok tt | None => True end)).
Proof.
  unfold accept_sequence. destruct (verify_release r keys) as [[]|e]; [|intros [= <- <-]; by left].
  destruct io as [|looked read persisted]; [intros [= <- <-]; by left|]. unfold remembered.
  destruct looked, file as [bs|], read; cbn;
    try destruct (check_previous keys r bs) as [[]|e]; try destruct persisted; intros [= <- <-];
    try (by left); by right.
Qed.

(** What the file knows of the accepted releases. *)
Definition feed_inv (L : Prop) (keys : string) (s : option (list N) * list Release) : Prop :=
  s.1 = encode_release <$> last s.2 /\ (L -> StronglySorted follows s.2) /\
  Forall (fun r => verify_release r keys = Ok tt) s.2.

Lemma attempt_inv (L : Prop) keys s a :
  CodecRoundtrip -> (L -> looks a.2 = true) -> feed_inv L keys s -> feed_inv L keys (attempt keys s a).
Proof.
  intros Hrt Hlook (Hf & Hs & Hv). unfold attempt.
  destruct (accept_sequence keys a.1 a.2 s.1) as [file' res] eqn:Ha.
  apply accept_sequence_cases in Ha as [[Hr ->]|(-> & -> & Hver & Hc)].
  - destruct res as [[]|e]; [done|]. by split_and!.
  - cbn [is_ok]. unfold feed_inv. cbn [fst snd]. rewrite last_snoc. split_and!; [done| |].
    + intros l0. specialize (Hs l0). specialize (Hc (Hlook l0)).
      apply StronglySorted_app_2; [|done|repeat constructor].
      intros x y Hx Hy. apply list_elem_of_singleton in Hy as ->.
      rewrite Hf in Hc. destruct (last s.2) as [q|] eqn:Hl.
      * cbn in Hc. apply (check_previous_follows _ _ _ Hrt) in Hc.
        apply last_Some in Hl as (l & Hl). rewrite Hl in Hx, Hs.
        apply elem_of_app in Hx as [Hx|Hx]; [|by apply list_elem_of_singleton in Hx as ->].
        etransitivity; [|done]. eapply StronglySorted_app_1_elem_of; [done|done|by left].
      * apply last_None in Hl. rewrite Hl in Hx. by apply not_elem_of_nil in Hx.
    + apply Forall_app. split; [done|]. by apply Forall_singleton.
Qed.

(** C34: The update feed remembers what it accepted: whatever releases are offered, and
    however the other file operations fail, every accepted release is signed by a trusted
    key, and while the look at the remembered file ([path.exists()]) does not fail, later
    ones never have a smaller sequence or version, and two that share a sequence or a
    version are the same release. (A look that fails counts as no file, so the checks are
    left out; [unseen_feeds_roll_back] follows one. The release that is written is read
    back as it was, which serde_json documents.) *)
Theorem update_feed_never_rolls_back keys l file accepted before r between q after :
  CodecRoundtrip ->
  attempts keys l = (file, accepted) ->
  accepted = before ++ r :: between ++ q :: after ->
  (Forall (fun a => looks a.2 = true) l -> follows r q) /\
  verify_release r keys = Ok tt /\ verify_release q keys = Ok tt.
Proof.
  intros Hrt Hl Hacc.
  assert (Hinv : feed_inv (Forall (fun a => looks a.2 = true) l) keys (attempts keys l)).
  { unfold attempts. set (L := Forall _ _).
    assert (Hlook : L -> Forall (fun a => looks a.2 = true) l) by done. clearbody L. clear Hl.
    assert (Hstart : feed_inv L keys (None, [])) by (split_and!; [done|constructor|constructor]).
    revert Hstart Hlook. generalize (@None (list N), @nil Release). induction l as [|a l IH]; intros s Hs Hlook; [done|].
    cbn. apply IH; [apply attempt_inv|]; [done| |done|]; intros x; specialize (Hlook x); by inversion Hlook. }
  rewrite Hl in Hinv. destruct Hinv as (_ & Hs & Hv). cbn in Hs, Hv. subst accepted. split.
  - intros Hlook. specialize (Hs Hlook). eapply (StronglySorted_app_1_elem_of _ (before ++ [r]) (between ++ q :: after)); [|set_solver..].
    by rewrite <- app_assoc.
  - rewrite Forall_forall in Hv. split; apply Hv; set_solver.
Qed.

(** ** Manifests and signatures *)

(** A published file is what its release says. *)
Record artifact_exact (r : Release) (prod : string) (f : Artifact) : Prop := {
  ax_product : product f = prod;
  ax_name : len (a_name f) <= 200 /\ forallb name_byte (bytes (a_name f)) = true;
  ax_url : a_url f = cdn_url (version r) (a_name f);
  ax_github : github_url f = release_page_url (version r) (a_name f);
  ax_hash : lower_hex (sha256 f) 64 = true;
  ax_size : 0 < a_bytes f <= MAX_ARTIFACT_BYTES;
  ax_arch : arch f = name_arch (a_name f);
  ax_format : format f = name_format (a_name f) /\ format f ∈ allowed_formats prod (platform f)
}.

Lemma artifact_ok_exact r prod f : artifact_ok r prod f = true -> artifact_exact r prod f.
Proof.
  unfold artifact_ok. intros H. repeat (apply andb_true_iff in H as [H ?]).
  repeat match goal with H : bool_decide _ = true |- _ => apply bool_decide_eq_true in H end.
  constructor; try done; try lia; split; first [done|lia|congruence].
Qed.

Lemma check_artifacts_Ok r seen files :
  check_artifacts r seen files = Ok tt ->
  Forall (fun pf => artifact_exact r pf.1 pf.2 /\ slot pf.1 pf.2 ∉ seen) files /\
  NoDup ((fun pf => slot pf.1 pf.2) <$> files).
Proof.
  revert seen. induction files as [|[prod f] files IH]; intros seen H; cbn [check_artifacts] in H.
  - split; constructor.
  - unfold ensure in H. rewrite bind_unit_Ok, reject_if_tt, negb_false_iff, andb_true_iff, negb_true_iff,
      bool_decide_eq_false in H. destruct H as ([Ha Hn] & H). apply IH in H as [H1 H2].
    split.
    + constructor; [split; [by apply artifact_ok_exact|done]|].
      eapply Forall_impl; [done|]. cbn. intros x [Hx Hs]. split; [done|]. intros Hin. apply Hs. by right.
    + cbn. constructor; [|done]. intros Hin. apply list_elem_of_fmap in Hin as ([p g] & Heq & Hin).
      rewrite Forall_forall in H1. destruct (H1 _ Hin) as [_ Hs]. cbn [fst snd] in *. apply Hs.
      rewrite <- Heq. left.
Qed.

(** A parsed release can only send the client to its own downloads: every file
    has the exact CDN and release-page URL of its version and name, a plain file
    name, a digest and a bounded size, the architecture and format its name
    says, and no two files fill the same slot. *)
Theorem parsed_releases_are_exact bs r :
  parse_release bs = Ok r ->
  Z.of_nat (length bs) <= MAX_FEED_BYTES /\ header_ok r = true /\
  (exists p, version_parts (version r) = Ok p) /\
  Forall (fun pf => artifact_exact r pf.1 pf.2) (files_of r) /\
  NoDup ((fun pf => slot pf.1 pf.2) <$> files_of r).
Proof.
  intros H. unfold parse_release, ensure, external in H.
  rewrite bind_unit_Ok, reject_if_tt, negb_false_iff in H. destruct H as [Hl H].
  apply bind_Ok in H as (r' & _ & H). rewrite bind_unit_Ok, reject_if_tt, negb_false_iff in H.
  destruct H as [Hh H]. apply bind_Ok in H as (p & Hp & H). rewrite !bind_unit_Ok in H.
  destruct H as (_ & Hc & [= <-]). apply check_artifacts_Ok in Hc as [H1 H2].
  split_and!; [lia|done|by exists p| |done].
  eapply Forall_impl; [done|]. by intros pf [? _].
Qed.

(** An update is installed only when one of the compiled-in keys signed its
    canonical form: verification succeeds exactly when the release is signed, a
    trusted 32-byte key has the digest the signature names, and the first such
    key verifies the signature over the canonical JSON without the signature. *)
Theorem verified_releases_are_signed r keys :
  verify_release r keys = Ok tt <->
  signing r = "signed" /\
  exists s key sig, signature r = Some s /\ trusted_key keys (key_id s) = Some key /\
    key_matches (key_id s) key = true /\ b64_decode (sig_value s) = Some sig /\
    signature_shape sig = true /\ verifying_key key = true /\
    verify_strict key (canonical_json (VObject (map_remove "signature" (release_members r)))) sig = true.
Proof.
  unfold verify_release, ensure, external. rewrite bind_unit_Ok, reject_if_tt, negb_false_iff, bool_decide_eq_true.
  split.
  - intros [Hs H]. split; [done|]. apply bind_Ok in H as (s & Hsig & H). apply ok_or_Ok in Hsig.
    apply bind_Ok in H as (key & Hk & H). apply ok_or_Ok in Hk.
    apply bind_Ok in H as (sig & Hd & H). apply ok_or_Ok in Hd.
    rewrite !bind_unit_Ok, reject_if_tt, negb_false_iff in H. destruct H as (H1 & H2 & H3).
    exists s, key, sig. destruct (signature_shape sig), (verifying_key key); try done.
    split_and!; try done. unfold trusted_key in Hk.
    assert (Hin : key ∈ filter (fun k => key_matches (key_id s) k = true)
        (omap (fun h => hex_decode (trim h)) (split_byte 44 keys))).
    { destruct (filter _ _); [done|]. injection Hk as ->. by left. }
    by apply list_elem_of_filter in Hin as [? _].
  - intros (Hs & s & key & sig & H1 & H2 & _ & H4 & H5 & H6 & H7). split; [done|].
    apply bind_Ok. exists s. split; [by rewrite H1|].
    apply bind_Ok. exists key. split; [by rewrite H2|].
    apply bind_Ok. exists sig. split; [by rewrite H4|].
    rewrite !bind_unit_Ok, reject_if_tt, negb_false_iff. by rewrite H5, H6.
Qed.
End Feed.

(** ** Examples *)

Definition artifact_sample : Artifact :=
  {| a_name := "axiom-1.2.3-x64.deb"; product := "desktop"; platform := "linux"; arch := "x64";
     format := "deb"; a_bytes := 9; sha256 := of_bytes (replicate 64 97%N);
     a_url := "https://cdn.axiom.stream/downloads/1.2.3/axiom-1.2.3-x64.deb";
     github_url := "https://github.com/astrea-foundation/axiom-releases/releases/download/v1.2.3/axiom-1.2.3-x64.deb" |}.

Definition release_sample (sequence : Z) : Release :=
  {| schema_version := 2; version := "1.2.3"; r_revision := of_bytes (replicate 40 48%N);
     r_sequence := sequence; signing := "signed"; downloads := [artifact_sample];
     cli_downloads := [];
     signature := Some {| key_id := of_bytes (replicate 16 48%N);
                          sig_value := of_bytes (replicate 64 48%N) |} |}.

(** Every release is a number, so a file of one number holds it; every signature
    verifies. *)
Definition sample_codec : ReleaseCodec :=
  {| decode_release := fun bs => match bs with [N.pos p] => decode p | _ => None end;
     encode_release := fun r => [N.pos (encode r)]; write_scalar := fun _ => "0";
     signature_shape := fun _ => true; verifying_key := fun _ => true;
     verify_strict := fun _ _ _ => true |}.

Lemma sample_codec_roundtrip : @CodecRoundtrip sample_codec.
Proof. intros r. apply decode_encode. Qed.

Definition sample_digest : KeyDigest :=
  {| hex_decode := fun _ => Some (replicate 32 1%N);
     sha256_hex := fun _ => of_bytes (replicate 64 48%N) |}.

Lemma sample_parses :
  @parse_release sample_codec plain_base64 (@encode_release sample_codec (release_sample 7))
  = Ok (release_sample 7).
Proof.
  unfold parse_release. rewrite bind_unit_Ok. split; [reflexivity|].
  apply bind_Ok. exists (release_sample 7). split; [by rewrite sample_codec_roundtrip|]. by vm_compute.
Qed.

Lemma sample_verifies n :
  @verify_release sample_codec plain_base64 plain_json sample_digest (release_sample n) "key" = Ok tt.
Proof. reflexivity. Qed.

Lemma sample_follows :
  @check_previous sample_codec plain_base64 plain_json sample_digest "key" (release_sample 7)
    (@encode_release sample_codec (release_sample 7)) = Ok tt.
Proof.
  unfold check_previous. apply bind_Ok. exists (release_sample 7). split; [exact sample_parses|].
  by vm_compute.
Qed.

Lemma parsed_releases_are_exact_witness :
  Forall (fun pf => artifact_exact (release_sample 7) pf.1 pf.2) (files_of (release_sample 7)).
Proof.
  apply (@parsed_releases_are_exact sample_codec plain_base64
           (@encode_release sample_codec (release_sample 7)) (release_sample 7)).
  exact sample_parses.
Defined.

(** The release is accepted, offered again without being written, and again. *)
Lemma update_feed_never_rolls_back_witness :
  follows (release_sample 7) (release_sample 7).
Proof.
  apply (@update_feed_never_rolls_back sample_codec plain_base64 plain_json sample_digest "key"
    [(release_sample 7, Reached true true true); (release_sample 6, DirectoryFails);
     (release_sample 7, Reached true true false); (release_sample 7, Reached true true true)]
    (Some (@encode_release sample_codec (release_sample 7)))
    [release_sample 7; release_sample 7] [] (release_sample 7) [] (release_sample 7) []).
  - exact sample_codec_roundtrip.
  - unfold attempts, foldl, attempt, accept_sequence. cbn [fst snd].
    repeat progress (unfold remembered; rewrite ?sample_verifies; cbn [negb mbind result_bind];
      rewrite ?sample_follows; cbn [fst snd is_ok]; cbv beta iota).
    reflexivity.
  - reflexivity.
  - by repeat constructor.
Defined.

(** When the look at the remembered release fails, an older one replaces it. *)
Example unseen_feeds_roll_back :
  exists file, @attempts sample_codec plain_base64 plain_json sample_digest "key"
    [(release_sample 7, Reached true true true); (release_sample 6, Reached false true true)]
    = (file, [release_sample 7; release_sample 6]).
Proof. by eexists. Qed.
