(* ===== verification/Kernel.v ===== *)
(** The application kernel (apps/axiomcli/src/app.rs): the commands front ends
    dispatch, the events a session's journal records, the session state machine
    behind both, and the restoration of a session from its journal.

    A UUID is its text.  The clock is an argument: [now n] is the time of the
    event of sequence [n].  The kernel is behind a lock, so [apply], [record] and
    [install_restore] are atomic steps. *)

From stdpp Require Import base gmap strings list sorting.
From Stdlib Require Import ZArith NArith Lia ZifyBool ZifyN ZifyNat.
From S2P Require Import Prelude RustStr Json ToolCalls Content Accounting Inference Attachments Paths AppError Policy Models.

Local Open Scope Z_scope.

(** ** Data *)

Inductive Origin : Type := Tui | Acp | Headless | TestOrigin.

Inductive DesktopAgentPermission : Type := ApproveCommands | AgentFullAccess.
Record DesktopAgentSettings : Type := {
  da_enabled : bool;
  da_permission : DesktopAgentPermission;
  da_working_directory : string;
  da_default_working_directory : string;
  da_uses_default_directory : bool;
  da_revision : Z
}.

Definition for_desktop_agent (s : DesktopAgentSettings) : PermissionProfile :=
  if negb (da_enabled s) then ProfileWeb
  else match da_permission s with ApproveCommands => Confirm | AgentFullAccess => FullAccess end.

Inductive SessionLifecycle : Type :=
| Ready | Running | WaitingForApproval | WaitingForAnswer | Closed.

#[export] Instance Origin_eq_dec : EqDecision Origin.
Proof. solve_decision. Defined.
#[export] Instance SessionLifecycle_eq_dec : EqDecision SessionLifecycle.
Proof. solve_decision. Defined.

Inductive SecurityStatus : Type :=
| StUnverified | StVerifying | StUnattestedDevelopment | StVerified | StDegraded | StOutdated
| StFailed.

Inductive TaskStatus : Type := Pending | InProgress | Completed.
Record TaskItem : Type := { task_id : string; task_title : string; task_status : TaskStatus }.
Record FileDiff : Type := {
  fdiff_path : Path; fdiff_old_text : option string; fdiff_new_text : string
}.
Record QuestionSpec : Type := {
  q_id : string; q_prompt : string; q_options : list string; q_multiple : bool; q_required : bool
}.
Record QuestionRequest : Type := { q_request_id : string; questions : list QuestionSpec }.

Record ContextUsage : Type := {
  cu_input_tokens : Z;
  cu_output_tokens : Z;
  cu_model_id : string;
  cu_reported_at : string;
  cu_context_window_tokens : option Z;
  cu_auto_compact_threshold_tokens : option Z
}.

Record GeneratedImage : Type := {
  gi_request_id : string; gi_data : string; gi_mime_type : string; gi_width : Z; gi_height : Z;
  gi_sha256 : string; gi_source_image_ids : list string; gi_chat_model_id : option string;
  gi_evidence : SecurityEvidence; gi_usage : RequestUsage
}.

Inductive AppEvent : Type :=
| AppSteeringApplied (turn client_item txt : string)
| AppSessionCreated (cwd : Path) (origin : Origin) (profile : PermissionProfile)
| AppSessionResumed (cwd : Path) (origin : Origin) (profile : PermissionProfile)
| AppPromptAccepted (turn txt : string) (attachments : list PromptAttachment)
| AppTurnStarted (turn : string)
| AppTextDelta (turn txt : string)
| AppReasoningDelta (turn txt : string)
| AppUsageUpdated (input output : Z)
| AppContextUsageUpdated (usage : ContextUsage)
| AppRequestUsageUpdated (usage : RequestUsage)
| AppProgressUpdated (message : string) (completed total : option Z)
| AppTaskListUpdated (items : list TaskItem)
| AppToolProposed (turn call name : string) (arguments : Value)
| AppPermissionRequired (request explanation : string) (effect : Value) (choices : list string)
| AppPermissionResolved (request : string) (allowed : bool) (choice : option string)
| AppToolStarted (call name : string)
| AppToolOutput (call content : string) (truncated : bool)
| AppImageGenerated (call : string) (image : GeneratedImage)
| AppImageGenerationProgress (call : string) (progress : ImageGenerationProgress)
| AppToolCompleted (call : string) (success : bool)
| AppWorkspaceChanged (paths : list Path)
| AppDiffAvailable (call diff : string) (truncated : bool) (files : list FileDiff)
| AppQuestionAsked (question prompt : string) (options : list string)
| AppQuestionAnswered (question : string) (answers : list string)
| AppQuestionsAsked (request : QuestionRequest)
| AppQuestionsAnswered (request : string) (answers : list (string * list string))
| AppQuestionsFailed (request reason : string)
| AppPlanProposed (plan : string) (revision : Z) (markdown : string)
| AppPlanReviewed (plan : string) (revision : Z) (decision : string)
| AppBackgroundTaskChanged (task state : string)
| AppPermissionProfileChanged (profile : PermissionProfile)
| AppDesktopAgentConfigured (settings : DesktopAgentSettings)
| AppModelChanged (model : string)
| AppThinkingLevelChanged (level : ThinkingLevel)
| AppContextCompacted (summary : string) (messages_before : Z)
| AppProviderStatusChanged (connected : bool) (detail : string)
| AppSecurityStatusChanged (state : SecurityStatus)
| AppSecurityEvidenceUpdated (evidence : SecurityEvidence)
| AppResponseVerified (turn : string)
| AppWarningRaised (message : string)
| AppTurnCompleted (turn : string)
| AppTurnCancelled (turn : string)
| AppErrorRaised (turn : option string) (message : string)
| AppSessionClosed.

Inductive AppCommand : Type :=
| CmdCreateSession (session : string) (cwd : Path) (origin : Origin) (profile : PermissionProfile)
| CmdResumeSession (session : string) (cwd : Path) (origin : Origin) (profile : PermissionProfile)
| CmdSubmitPrompt (session turn txt : string) (attachments : list PromptAttachment)
| CmdStartImageGeneration (session turn : string)
| CmdCancelTurn (session turn : string)
| CmdFinishTurn (session turn : string)
| CmdFailTurn (session turn message : string)
| CmdChangePermissionProfile (session : string) (profile : PermissionProfile)
| CmdConfigureDesktopAgent (session : string) (settings : DesktopAgentSettings)
| CmdChangeModel (session model : string)
| CmdChangeModelSettings (session model : string) (thinking : ThinkingLevel) (reset : bool)
| CmdChangeThinkingLevel (session : string) (level : ThinkingLevel)
| CmdRecordContextCompaction (session summary : string) (messages_before : Z)
| CmdCloseSession (session : string).

Definition command_session (c : AppCommand) : string :=
  match c with
  | CmdCreateSession s _ _ _ | CmdResumeSession s _ _ _ | CmdSubmitPrompt s _ _ _
  | CmdStartImageGeneration s _ | CmdCancelTurn s _ | CmdFinishTurn s _ | CmdFailTurn s _ _
  | CmdChangePermissionProfile s _ | CmdConfigureDesktopAgent s _ | CmdChangeModel s _
  | CmdChangeModelSettings s _ _ _ | CmdChangeThinkingLevel s _
  | CmdRecordContextCompaction s _ _ | CmdCloseSession s => s
  end.

Record CommandEnvelope : Type := {
  ce_correlation : string; ce_origin : Origin; ce_cancelled : bool; ce_command : AppCommand
}.

Record EventEnvelope : Type := {
  ev_schema_version : Z;
  ev_sequence : Z;
  ev_occurred_at : string;
  ev_correlation : string;
  ev_origin : Origin;
  ev_session : string;
  ev_event : AppEvent
}.

Record SessionState : Type := {
  ss_id : string;
  ss_cwd : Path;
  ss_origin : Origin;
  ss_profile : PermissionProfile;
  ss_lifecycle : SessionLifecycle;
  ss_active_turn : option string;
  ss_terminal_turns : gset string;
  ss_pending_permission : option string;
  ss_pending_question : option string
}.

Record Kernel : Type := { sessions : gmap string SessionState; next_sequence : Z }.

Definition empty_kernel : Kernel := {| sessions := ∅; next_sequence := 0 |}.

(** ** Updates of a session *)

Definition new_session (id : string) (cwd : Path) (origin : Origin) (profile : PermissionProfile)
    : SessionState :=
  {| ss_id := id; ss_cwd := cwd; ss_origin := origin; ss_profile := profile;
     ss_lifecycle := Ready; ss_active_turn := None; ss_terminal_turns := ∅;
     ss_pending_permission := None; ss_pending_question := None |}.

Definition with_lifecycle (s : SessionState) (l : SessionLifecycle) (turn : option string)
    (permission question : option string) : SessionState :=
  {| ss_id := ss_id s; ss_cwd := ss_cwd s; ss_origin := ss_origin s; ss_profile := ss_profile s;
     ss_lifecycle := l; ss_active_turn := turn; ss_terminal_turns := ss_terminal_turns s;
     ss_pending_permission := permission; ss_pending_question := question |}.

Definition with_scope (s : SessionState) (cwd : Path) (profile : PermissionProfile) : SessionState :=
  {| ss_id := ss_id s; ss_cwd := cwd; ss_origin := ss_origin s; ss_profile := profile;
     ss_lifecycle := ss_lifecycle s; ss_active_turn := ss_active_turn s;
     ss_terminal_turns := ss_terminal_turns s; ss_pending_permission := ss_pending_permission s;
     ss_pending_question := ss_pending_question s |}.

Definition end_turn (s : SessionState) (turn : string) : SessionState :=
  {| ss_id := ss_id s; ss_cwd := ss_cwd s; ss_origin := ss_origin s; ss_profile := ss_profile s;
     ss_lifecycle := Ready; ss_active_turn := None;
     ss_terminal_turns := {[turn]} ∪ ss_terminal_turns s;
     ss_pending_permission := None; ss_pending_question := None |}.

Definition start_turn (s : SessionState) (turn : string) : SessionState :=
  with_lifecycle s Running (Some turn) (ss_pending_permission s) (ss_pending_question s).

Definition with_sessions (k : Kernel) (m : gmap string SessionState) : Kernel :=
  {| sessions := m; next_sequence := next_sequence k |}.

(** [format!("{:?}", lifecycle)]. *)
Definition lifecycle_debug (l : SessionLifecycle) : string :=
  match l with
  | Ready => "Ready" | Running => "Running" | WaitingForApproval => "WaitingForApproval"
  | WaitingForAnswer => "WaitingForAnswer" | Closed => "Closed"
  end.

Definition kind_debug (k : ValidationErrorKind) : string :=
  match k with
  | Invalid => "Invalid" | Count => "Count" | Size => "Size" | Unsupported => "Unsupported"
  | Conflict => "Conflict" | Incomplete => "Incomplete"
  end.

(** [ValidationError]'s [Display]. *)
Definition validation_display (e : ValidationError) : string :=
  kind_debug (ToolCalls.kind e) +:+ " inference field: " +:+ field e.

(** ** Commands *)

(** [session_mut]: the operation on a loaded session. *)
Definition on_session {A} (id : string) (f : M SessionState AxiomError A) : M Kernel AxiomError A :=
  fun k =>
  match sessions k !! id with
  | None => (k, Err (SessionNotFound id))
  | Some s => let '(s', r) := f s in (with_sessions k (<[id := s']> (sessions k)), r)
  end.

(** A change that needs an idle session. *)
Definition when_ready {A} (why : string) (f : M SessionState AxiomError A)
    : M SessionState AxiomError A := fun s =>
  if negb (bool_decide (ss_lifecycle s = Ready)) then (s, Err (InvalidTransition why)) else f s.

Definition put {A} (s' : SessionState) (a : A) : SessionState * result AxiomError A := (s', Ok a).

Definition in_turn (l : SessionLifecycle) : bool :=
  match l with Running | WaitingForApproval | WaitingForAnswer => true | _ => false end.

Definition finish_active (turn : string) : M SessionState AxiomError unit := fun s =>
  if negb (bool_decide (ss_active_turn s = Some turn)) || negb (in_turn (ss_lifecycle s))
  then (s, Err (InvalidTransition ("turn " +:+ turn +:+ " is not active")))
  else (end_turn s turn, Ok tt).

Definition add_session (id cwd_error : string) (s : SessionState) (events : list AppEvent)
    : M Kernel AxiomError (list AppEvent) := fun k =>
  match sessions k !! id with
  | Some _ => (k, Err (InvalidTransition ("session " +:+ id +:+ cwd_error)))
  | None => (with_sessions k (<[id := s]> (sessions k)), Ok events)
  end.

Definition bad_model_id (m : string) : bool := is_blank m || existsb is_whitespace (chars m).
Definition model_id_error : AxiomError :=
  InvalidTransition "model ID must be a non-empty value without whitespace".

Definition ends (id turn : string) (event : AppEvent) : M Kernel AxiomError (list AppEvent) :=
  _ ← on_session id (finish_active turn); mret [event].

Section Commands.
Context `{B64 : Base64} `{J : SerdeJson}.

Definition submit_prompt (turn txt : string) (attachments : list PromptAttachment)
    : M SessionState AxiomError (list AppEvent) := fun s =>
  if negb (bool_decide (ss_lifecycle s = Ready))
  then (s, Err (InvalidTransition
          ("session is " +:+ lifecycle_debug (ss_lifecycle s) +:+ ", not ready")))
  else if bool_decide (turn ∈ ss_terminal_turns s)
  then (s, Err (InvalidTransition
          ("turn " +:+ turn +:+ " is already terminal and cannot run again")))
  else put (start_turn s turn) [AppPromptAccepted turn txt attachments; AppTurnStarted turn].

Definition start_image_generation (turn : string) : M SessionState AxiomError (list AppEvent) :=
  fun s =>
  if negb (bool_decide (ss_lifecycle s = Ready)) || bool_decide (turn ∈ ss_terminal_turns s)
  then (s, Err (InvalidTransition "image generation requires an idle session and a fresh turn"))
  else put (start_turn s turn) [AppTurnStarted turn].

Definition configure_desktop_agent (settings : DesktopAgentSettings)
    : M SessionState AxiomError (list AppEvent) :=
  when_ready "Agent settings may change only while the thread is idle" (fun s =>
    put (with_scope s (path_of_string (da_working_directory settings)) (for_desktop_agent settings))
      [AppDesktopAgentConfigured settings]).

Definition change_profile (profile : PermissionProfile) : M SessionState AxiomError (list AppEvent) :=
  when_ready "permission profile may change only while the session is ready" (fun s =>
    put (with_scope s (ss_cwd s) profile) [AppPermissionProfileChanged profile]).

(** The match of [Kernel::apply]. *)
Definition command_events (c : AppCommand) : M Kernel AxiomError (list AppEvent) :=
  match c with
  | CmdCreateSession id cwd origin profile =>
    add_session id " already exists" (new_session id cwd origin profile)
      [AppSessionCreated cwd origin profile; AppSecurityStatusChanged StUnverified]
  | CmdResumeSession id cwd origin profile =>
    add_session id " is already loaded" (new_session id cwd origin profile)
      [AppSessionResumed cwd origin profile]
  | CmdSubmitPrompt id turn txt attachments =>
    _ ← @lift Kernel _ _ (map_err (fun e => InvalidTransition (validation_display e))
                (validate_prompt txt attachments));
    on_session id (submit_prompt turn txt attachments)
  | CmdStartImageGeneration id turn => on_session id (start_image_generation turn)
  | CmdCancelTurn id turn => ends id turn (AppTurnCancelled turn)
  | CmdFinishTurn id turn => ends id turn (AppTurnCompleted turn)
  | CmdFailTurn id turn message => ends id turn (AppErrorRaised (Some turn) message)
  | CmdConfigureDesktopAgent id settings => on_session id (configure_desktop_agent settings)
  | CmdChangePermissionProfile id profile => on_session id (change_profile profile)
  | CmdChangeModel id m =>
    _ ← @lift Kernel _ _ (reject_if (bad_model_id m) model_id_error);
    on_session id (when_ready "model may change only while the session is ready" (fun s =>
      put s [AppModelChanged m]))
  | CmdChangeModelSettings id m thinking reset =>
    _ ← @lift Kernel _ _ (reject_if (bad_model_id m) model_id_error);
    on_session id (when_ready "model settings may change only while the session is ready" (fun s =>
      put s ([AppThinkingLevelChanged thinking]
             ++ (if reset then [AppSecurityStatusChanged StUnverified] else [])
             ++ [AppModelChanged m])))
  | CmdChangeThinkingLevel id level =>
    on_session id (when_ready "thinking level may change only while the session is ready" (fun s =>
      put s [AppThinkingLevelChanged level]))
  | CmdRecordContextCompaction id summary before =>
    _ ← @lift Kernel _ _ (reject_if (is_blank summary)
                (InvalidTransition "compaction summary cannot be empty"));
    on_session id (when_ready "context may be compacted only while the session is ready" (fun s =>
      put s [AppContextCompacted summary before]))
  | CmdCloseSession id =>
    on_session id (when_ready "session must be ready before it can close" (fun s =>
      put (with_lifecycle s Closed (ss_active_turn s) (ss_pending_permission s)
             (ss_pending_question s)) [AppSessionClosed]))
  end.

(** [Kernel::envelope]; sequences stay below [2^64]. *)
Definition envelope (now : Z -> string) (session correlation : string) (origin : Origin)
    (e : AppEvent) (k : Kernel) : Kernel * EventEnvelope :=
  let n := next_sequence k + 1 in
  ({| sessions := sessions k; next_sequence := n |},
   {| ev_schema_version := 1; ev_sequence := n; ev_occurred_at := now n;
      ev_correlation := correlation; ev_origin := origin; ev_session := session; ev_event := e |}).

Fixpoint envelopes (now : Z -> string) (session correlation : string) (origin : Origin)
    (l : list AppEvent) (k : Kernel) : Kernel * list EventEnvelope :=
  match l with
  | [] => (k, [])
  | e :: l =>
    let '(k, x) := envelope now session correlation origin e k in
    let '(k, xs) := envelopes now session correlation origin l k in (k, x :: xs)
  end.

Definition apply (now : Z -> string) (r : CommandEnvelope)
    : M Kernel AxiomError (list EventEnvelope) := fun k =>
  if ce_cancelled r then (k, Err CancelledError) else
  match command_events (ce_command r) k with
  | (k, Err e) => (k, Err e)
  | (k, Ok events) =>
    let '(k, xs) := envelopes now (command_session (ce_command r)) (ce_correlation r)
                      (ce_origin r) events k in (k, Ok xs)
  end.
End Commands.

(** ** Recorded events *)

(** The checks and transitions of [Kernel::record]'s match. *)
Definition observe_event (event : AppEvent) : M SessionState AxiomError unit := fun s =>
  let running := bool_decide (ss_lifecycle s = Running) in
  let awaits l pending id := bool_decide (ss_lifecycle s = l) && bool_decide (pending = Some id) in
  let fail why := (s, Err (InvalidTransition why)) in
  let ask l permission question :=
    (with_lifecycle s l (ss_active_turn s) permission question, Ok tt) in
  match event with
  | AppSteeringApplied turn _ _ =>
    if negb (bool_decide (ss_active_turn s = Some turn)) || negb running
    then fail "steering requires the active running turn" else (s, Ok tt)
  | AppPermissionRequired request _ _ _ =>
    if negb running then fail "permission can be requested only during a running turn"
    else ask WaitingForApproval (Some request) (ss_pending_question s)
  | AppPermissionResolved request _ _ =>
    if negb (awaits WaitingForApproval (ss_pending_permission s) request)
    then fail ("permission " +:+ request +:+ " is not pending")
    else ask Running None (ss_pending_question s)
  | AppQuestionAsked question _ _ =>
    if negb running then fail "question can be asked only during a running turn"
    else ask WaitingForAnswer (ss_pending_permission s) (Some question)
  | AppQuestionsAsked request =>
    if negb running || bool_decide (questions request = [])
    then fail "structured questions require a running turn and a non-empty request"
    else ask WaitingForAnswer (ss_pending_permission s) (Some (q_request_id request))
  | AppQuestionAnswered question answers =>
    if bool_decide (answers = [])
       || negb (awaits WaitingForAnswer (ss_pending_question s) question)
    then fail ("question " +:+ question +:+ " is not pending or has no answer")
    else ask Running (ss_pending_permission s) None
  | AppQuestionsAnswered request _ | AppQuestionsFailed request _ =>
    if negb (awaits WaitingForAnswer (ss_pending_question s) request)
    then fail ("question request " +:+ request +:+ " is not pending")
    else ask Running (ss_pending_permission s) None
  | _ => (s, Ok tt)
  end.

Definition record (now : Z -> string) (session correlation : string) (origin : Origin)
    (event : AppEvent) : M Kernel AxiomError EventEnvelope := fun k =>
  match on_session session (observe_event event) k with
  | (k, Err e) => (k, Err e)
  | (k, Ok _) => let '(k, x) := envelope now session correlation origin event k in (k, Ok x)
  end.

(** ** Restoration *)

Definition precedes {A} (what : string) (o : option SessionState) (f : SessionState -> A)
    : result AxiomError A :=
  match o with
  | Some s => Ok (f s)
  | None => Err (InvalidTransition (what +:+ " session creation"))
  end.

Definition replay_event (o : option SessionState) (id : string) (event : AppEvent)
    : result AxiomError (option SessionState) :=
  match event with
  | AppSessionCreated cwd origin profile | AppSessionResumed cwd origin profile =>
    Ok (match o with None => Some (new_session id cwd origin profile) | Some _ => o end)
  | AppTurnStarted turn =>
    Some <$> precedes "turn precedes" o (fun s =>
      with_lifecycle s Running (Some turn) (ss_pending_permission s) (ss_pending_question s))
  | AppPermissionRequired request _ _ _ =>
    Some <$> precedes "permission precedes" o (fun s =>
      with_lifecycle s WaitingForApproval (ss_active_turn s) (Some request) (ss_pending_question s))
  | AppPermissionResolved _ _ _ =>
    Ok ((fun s => with_lifecycle s Running (ss_active_turn s) None (ss_pending_question s)) <$> o)
  | AppQuestionAsked question _ _ =>
    Some <$> precedes "question precedes" o (fun s =>
      with_lifecycle s WaitingForAnswer (ss_active_turn s) (ss_pending_permission s) (Some question))
  | AppQuestionsAsked request =>
    Some <$> precedes "questions precede" o (fun s =>
      with_lifecycle s WaitingForAnswer (ss_active_turn s) (ss_pending_permission s)
        (Some (q_request_id request)))
  | AppQuestionAnswered _ _ | AppQuestionsAnswered _ _ | AppQuestionsFailed _ _ =>
    Ok ((fun s => with_lifecycle s Running (ss_active_turn s) (ss_pending_permission s) None) <$> o)
  | AppTurnCompleted turn | AppTurnCancelled turn | AppErrorRaised (Some turn) _ =>
    Ok ((fun s => end_turn s turn) <$> o)
  | AppDesktopAgentConfigured settings =>
    Ok ((fun s => with_scope s (path_of_string (da_working_directory settings))
                    (for_desktop_agent settings)) <$> o)
  | AppPermissionProfileChanged profile => Ok ((fun s => with_scope s (ss_cwd s) profile) <$> o)
  | AppSessionClosed =>
    Ok ((fun s => with_lifecycle s Closed (ss_active_turn s) (ss_pending_permission s)
                    (ss_pending_question s)) <$> o)
  | _ => Ok o
  end.

Record RestoreProjection : Type := {
  rp_id : string; rp_state : option SessionState; rp_max_sequence : Z
}.

Definition new_projection (events : list EventEnvelope) : result AxiomError RestoreProjection :=
  first ← ok_or (head events) (InvalidTransition "cannot restore an empty event stream");
  Ok {| rp_id := ev_session first; rp_state := None; rp_max_sequence := 0 |}.

Definition replay (p : RestoreProjection) (x : EventEnvelope) : result AxiomError RestoreProjection :=
  if negb (bool_decide (ev_session x = rp_id p))
  then Err (InvalidTransition "restore stream contains multiple sessions") else
  s ← replay_event (rp_state p) (rp_id p) (ev_event x);
  Ok {| rp_id := rp_id p; rp_state := s; rp_max_sequence := Z.max (rp_max_sequence p) (ev_sequence x) |}.

Fixpoint replay_all (p : RestoreProjection) (l : list EventEnvelope)
    : result AxiomError RestoreProjection :=
  match l with [] => Ok p | x :: l => p ← replay p x; replay_all p l end.

(** In-flight work is never resumed: a restored session is idle. *)
Definition idle (s : SessionState) : SessionState := with_lifecycle s Ready None None None.

Definition finish_projection (p : RestoreProjection) : result AxiomError (SessionState * Z) :=
  s ← ok_or (rp_state p) (InvalidTransition "restore stream has no session creation");
  Ok (idle s, rp_max_sequence p).

Definition install_restore (id : string) (s : SessionState) (max_sequence : Z) (k : Kernel) : Kernel :=
  {| sessions := <[id := s]> (sessions k); next_sequence := Z.max (next_sequence k) max_sequence |}.

Definition restore_from_events (events : list EventEnvelope) : M Kernel AxiomError SessionState :=
  fun k =>
  match p ← new_projection events; p ← replay_all p events; r ← finish_projection p; Ok (rp_id p, r) with
  | Err e => (k, Err e)
  | Ok (id, (s, n)) => (install_restore id s n k, Ok s)
  end.

(** ** The runtime *)

Section Runtime.
Context `{B64 : Base64} `{J : SerdeJson}.

(** [Runtime::dispatch]: the origin of a command on a session is the session's. *)
Definition dispatch (now : Z -> string) (correlation : string) (c : AppCommand)
    : M Kernel AxiomError (list EventEnvelope) := fun k =>
  let origin :=
    match c with
    | CmdCreateSession _ _ origin _ | CmdResumeSession _ _ origin _ => origin
    | _ => match sessions k !! command_session c with Some s => ss_origin s | None => TestOrigin end
    end in
  apply now {| ce_correlation := correlation; ce_origin := origin; ce_cancelled := false;
               ce_command := c |} k.

Definition emit (now : Z -> string) (correlation session : string) (event : AppEvent)
    : M Kernel AxiomError EventEnvelope := fun k =>
  match sessions k !! session with
  | None => (k, Err (SessionNotFound session))
  | Some s => record now session correlation (ss_origin s) event k
  end.
End Runtime.

(** ** The transitions of one session *)

(** Events that concern no session state. *)
Definition quiet (e : AppEvent) : bool :=
  match e with
  | AppSessionCreated _ _ _ | AppSessionResumed _ _ _ | AppTurnStarted _
  | AppPermissionRequired _ _ _ _ | AppPermissionResolved _ _ _ | AppQuestionAsked _ _ _
  | AppQuestionsAsked _ | AppQuestionAnswered _ _ | AppQuestionsAnswered _ _
  | AppQuestionsFailed _ _ | AppTurnCompleted _ | AppTurnCancelled _ | AppErrorRaised (Some _) _
  | AppDesktopAgentConfigured _ | AppPermissionProfileChanged _ | AppSessionClosed => false
  | _ => true
  end.

(** What a turn's end is recorded as. *)
Definition terminal_of (e : AppEvent) : option string :=
  match e with
  | AppTurnCompleted t | AppTurnCancelled t | AppErrorRaised (Some t) _ => Some t
  | _ => None
  end.

(** The state machine of a loaded session: what a successful command does. *)
Inductive session_change (s : SessionState) : SessionState -> list AppEvent -> Prop :=
| change_start turn es :
    ss_lifecycle s = Ready -> turn ∉ ss_terminal_turns s -> Forall (fun e => quiet e = true) es ->
    session_change s (start_turn s turn) (es ++ [AppTurnStarted turn])
| change_end turn e :
    ss_active_turn s = Some turn -> in_turn (ss_lifecycle s) = true -> terminal_of e = Some turn ->
    session_change s (end_turn s turn) [e]
| change_agent settings :
    ss_lifecycle s = Ready ->
    session_change s (with_scope s (path_of_string (da_working_directory settings))
                        (for_desktop_agent settings)) [AppDesktopAgentConfigured settings]
| change_permissions profile :
    ss_lifecycle s = Ready ->
    session_change s (with_scope s (ss_cwd s) profile) [AppPermissionProfileChanged profile]
| change_nothing es :
    ss_lifecycle s = Ready -> Forall (fun e => quiet e = true) es -> session_change s s es
| change_close :
    ss_lifecycle s = Ready ->
    session_change s (with_lifecycle s Closed (ss_active_turn s) (ss_pending_permission s)
                        (ss_pending_question s)) [AppSessionClosed].

(** What a recorded event does. *)
Inductive session_event (s : SessionState) : SessionState -> AppEvent -> Prop :=
| event_note e : quiet e = true -> session_event s s e
| event_other e :
    (** A command's event, recorded as if it were the turn's own. *)
    quiet e = false -> observe_event e s = (s, Ok tt) -> session_event s s e
| event_ask l permission question e :
    ss_lifecycle s = Running ->
    (l = WaitingForApproval /\ is_Some permission /\ question = ss_pending_question s /\
       (exists r x f c, e = AppPermissionRequired r x f c /\ permission = Some r)) \/
    (l = WaitingForAnswer /\ is_Some question /\ permission = ss_pending_permission s /\
       ((exists q p o, e = AppQuestionAsked q p o /\ question = Some q) \/
        (exists r, e = AppQuestionsAsked r /\ question = Some (q_request_id r)))) ->
    session_event s (with_lifecycle s l (ss_active_turn s) permission question) e
| event_answer permission question e :
    (ss_lifecycle s = WaitingForApproval /\ permission = None /\ question = ss_pending_question s /\
       exists r a c, e = AppPermissionResolved r a c) \/
    (ss_lifecycle s = WaitingForAnswer /\ question = None /\ permission = ss_pending_permission s /\
       ((exists q l, e = AppQuestionAnswered q l) \/ (exists q l, e = AppQuestionsAnswered q l) \/
        (exists q r, e = AppQuestionsFailed q r))) ->
    session_event s (with_lifecycle s Running (ss_active_turn s) permission question) e.

Lemma on_session_Ok {A} id (f : M SessionState AxiomError A) k k' a :
  on_session id f k = (k', Ok a) <->
  exists s s', sessions k !! id = Some s /\ f s = (s', Ok a) /\
               k' = with_sessions k (<[id := s']> (sessions k)).
Proof.
  unfold on_session. destruct (sessions k !! id) as [s|]; [|naive_solver].
  destruct (f s) as [s' r] eqn:Hf. split.
  - intros [= <- ->]. by exists s, s'.
  - intros (? & ? & [= <-] & H & ->). rewrite Hf in H. by injection H as -> ->.
Qed.

Lemma when_ready_Ok {A} why (f : M SessionState AxiomError A) s s' a :
  when_ready why f s = (s', Ok a) <-> ss_lifecycle s = Ready /\ f s = (s', Ok a).
Proof. unfold when_ready. case_bool_decide; cbn; naive_solver. Qed.

Lemma lift_Ok {S E A B} (m : result E A) (f : A -> M S E B) s s' b :
  (a ← lift m; f a) s = (s', Ok b) <-> exists a, m = Ok a /\ f a s = (s', Ok b).
Proof. unfold mbind, M_bind, lift. destruct m; naive_solver. Qed.

(** A created session is new; its events describe it. *)
Definition opens (id : string) (s : SessionState) (es : list AppEvent) : Prop :=
  exists cwd origin profile rest, s = new_session id cwd origin profile /\
    (es = AppSessionCreated cwd origin profile :: rest \/
     es = AppSessionResumed cwd origin profile :: rest) /\ Forall (fun e => quiet e = true) rest.

Section Steps.
Context `{B64 : Base64} `{J : SerdeJson}.

Lemma command_events_Ok c k k' es :
  command_events c k = (k', Ok es) ->
  let id := command_session c in
  exists s', k' = with_sessions k (<[id := s']> (sessions k)) /\
    ((sessions k !! id = None /\ opens id s' es) \/
     exists s, sessions k !! id = Some s /\ session_change s s' es).
Proof.
  assert (Hadd : forall id why s evs,
    add_session id why s evs k = (k', Ok es) -> sessions k !! id = None /\
    k' = with_sessions k (<[id := s]> (sessions k)) /\ es = evs).
  { intros id why s evs. unfold add_session. destruct (sessions k !! id); [done|]. by intros [= <- <-]. }
  assert (Hends : forall id t e, ends id t e k = (k', Ok es) -> terminal_of e = Some t ->
    exists s', k' = with_sessions k (<[id := s']> (sessions k)) /\
      exists s, sessions k !! id = Some s /\ session_change s s' es).
  { intros id t e H He. unfold ends in H. apply M_bind_Ok in H as (k1 & [] & H & [= <- <-]).
    apply on_session_Ok in H as (s & s' & Hs & H & ->). unfold finish_active in H.
    case_match eqn:Hg; [done|]. injection H as <-. apply orb_false_iff in Hg as [Hg1 Hg2].
    apply negb_false_iff in Hg1, Hg2. apply bool_decide_eq_true in Hg1.
    exists (end_turn s t). split; [done|]. exists s. split; [done|]. by constructor. }
  assert (Hready : forall id why f,
    on_session id (when_ready why f) k = (k', Ok es) ->
    (forall s s', ss_lifecycle s = Ready -> f s = (s', Ok es) -> session_change s s' es) ->
    exists s', k' = with_sessions k (<[id := s']> (sessions k)) /\
      exists s, sessions k !! id = Some s /\ session_change s s' es).
  { intros id why f H Hf. apply on_session_Ok in H as (s & s' & Hs & H & ->).
    apply when_ready_Ok in H as [Hr H]. eauto 6. }
  intros H. destruct c; cbn [command_events command_session] in *.
  1,2: apply Hadd in H as (Hn & -> & ->); eexists; split; [done|]; left; split; [done|];
       do 4 eexists; split_and!; [done|by auto|repeat constructor].
  1: apply lift_Ok in H as (? & _ & H).
  1,2: apply on_session_Ok in H as (s & s' & Hs & H & ->);
       exists s'; split; [done|]; right; exists s; split; [done|].
  1,2: unfold submit_prompt, start_image_generation in H; repeat case_match; try done;
       injection H as <- <-;
       repeat match goal with
       | H : _ || _ = false |- _ => apply orb_false_iff in H as [? ?]
       | H : negb _ = false |- _ => apply negb_false_iff in H
       | H : bool_decide _ = true |- _ => apply bool_decide_eq_true in H
       | H : bool_decide _ = false |- _ => apply bool_decide_eq_false in H
       end.
  - apply (change_start s turn [AppPromptAccepted turn txt attachments]); first [done | repeat constructor].
  - apply (change_start s turn []); first [done | constructor].
  - destruct (Hends _ _ _ H eq_refl) as (s' & ? & ?). eauto.
  - destruct (Hends _ _ _ H eq_refl) as (s' & ? & ?). eauto.
  - destruct (Hends _ _ _ H eq_refl) as (s' & ? & ?). eauto.
  - destruct (Hready _ _ _ H) as (s' & ? & ?); [|by eauto]. intros ? ? ? [= <- <-]. by constructor.
  - destruct (Hready _ _ _ H) as (s' & ? & ?); [|by eauto]. intros ? ? ? [= <- <-]. by constructor.
  - apply lift_Ok in H as (? & _ & H). destruct (Hready _ _ _ H) as (s' & ? & ?); [|by eauto].
    intros ? ? ? [= <- <-]. constructor; [done|repeat constructor].
  - apply lift_Ok in H as (? & _ & H). destruct (Hready _ _ _ H) as (s' & ? & ?); [|by eauto].
    intros ? ? ? [= <- <-]. constructor; [done|]. destruct reset; repeat constructor.
  - destruct (Hready _ _ _ H) as (s' & ? & ?); [|by eauto].
    intros ? ? ? [= <- <-]. constructor; [done|repeat constructor].
  - apply lift_Ok in H as (? & _ & H). destruct (Hready _ _ _ H) as (s' & ? & ?); [|by eauto].
    intros ? ? ? [= <- <-]. constructor; [done|repeat constructor].
  - destruct (Hready _ _ _ H) as (s' & ? & ?); [|by eauto]. intros ? ? ? [= <- <-]. by constructor.
Qed.
End Steps.

Lemma observe_event_Ok e s s' : observe_event e s = (s', Ok tt) -> session_event s s' e.
Proof.
  intros H. destruct (quiet e) eqn:Hq.
  { assert (s' = s) as -> by (destruct e; try done; cbn in H; repeat case_match; by injection H).
    by constructor. }
  destruct e; try done; cbn in H;
    try (injection H as <-; apply event_other; [done|by destruct s]).
  all: repeat case_match; try done; injection H as <-;
    repeat match goal with
    | H : _ || _ = false |- _ => apply orb_false_iff in H as [? ?]
    | H : _ && _ = true |- _ => apply andb_true_iff in H as [? ?]
    | H : negb _ = false |- _ => apply negb_false_iff in H
    | H : bool_decide _ = true |- _ => apply bool_decide_eq_true in H
    end; try (apply event_other; done).
  - apply event_ask; [done|]. left. split_and!; [done|by eexists|done|by do 4 eexists].
  - apply event_answer. left. split_and!; [done..|by do 3 eexists].
  - apply event_ask; [done|]. right. split_and!; [done|by eexists|done|left; by do 3 eexists].
  - apply event_answer. right. split_and!; [done..|left; by do 2 eexists].
  - apply event_ask; [done|]. right. split_and!; [done|by eexists|done|right; by eexists].
  - apply event_answer. right. split_and!; [done..|right; left; by do 2 eexists].
  - apply event_answer. right. split_and!; [done..|right; right; by do 2 eexists].
Qed.

(** ** The invariant of a loaded session *)

(** The lifecycle says exactly what is pending. *)
Record session_ok (id : string) (s : SessionState) : Prop := {
  so_id : ss_id s = id;
  so_turn : is_Some (ss_active_turn s) <-> in_turn (ss_lifecycle s) = true;
  so_permission : is_Some (ss_pending_permission s) <-> ss_lifecycle s = WaitingForApproval;
  so_question : is_Some (ss_pending_question s) <-> ss_lifecycle s = WaitingForAnswer;
  so_fresh : forall t, ss_active_turn s = Some t -> t ∉ ss_terminal_turns s
}.
Definition kernel_ok (k : Kernel) : Prop := map_Forall session_ok (sessions k).

Lemma is_Some_None_iff {A} (o : option A) : ~ is_Some o <-> o = None.
Proof. destruct o; split; [|done| |]; (intros H; try done; by destruct H || exfalso; eauto). Qed.

Lemma new_session_ok id cwd origin profile : session_ok id (new_session id cwd origin profile).
Proof. constructor; cbn; try done; split; (done || by intros [? [=]]). Qed.

Lemma ready_ok id s :
  session_ok id s -> ss_lifecycle s = Ready ->
  ss_active_turn s = None /\ ss_pending_permission s = None /\ ss_pending_question s = None.
Proof.
  intros [_ Ht Hp Hq _] Hr. rewrite Hr in *.
  destruct (ss_active_turn s), (ss_pending_permission s), (ss_pending_question s); try done;
    exfalso; (discriminate (proj1 Ht ltac:(done)) || discriminate (proj1 Hp ltac:(done)) ||
              discriminate (proj1 Hq ltac:(done))).
Qed.

Lemma session_change_ok id s s' es : session_ok id s -> session_change s s' es -> session_ok id s'.
Proof.
  intros Hs Hc. pose proof (so_id _ _ Hs). destruct Hc; try done;
    try (destruct (ready_ok _ _ Hs) as (Ha & Hp & Hq); [done|]).
  - constructor; cbn; rewrite ?Hp, ?Hq; try done; [split; [by intros [? [=]]|done]..|].
    by intros t [= <-].
  - constructor; cbn; try done; split; (done || by intros [? [=]]).
  - destruct Hs; by constructor.
  - destruct Hs; by constructor.
  - constructor; cbn; rewrite ?Ha, ?Hp, ?Hq; try done; split; (done || by intros [? [=]]).
Qed.

Lemma session_event_ok id s s' e : session_ok id s -> session_event s s' e -> session_ok id s'.
Proof.
  intros Hs He. pose proof (so_id _ _ Hs). destruct He as [| |l p q e Hr H1|p q e H1]; try done.
  - assert (Ht : is_Some (ss_active_turn s)) by (apply (so_turn _ _ Hs); by rewrite Hr).
    destruct Hs as [_ _ Hp Hq Hf]. rewrite Hr in Hp, Hq.
    destruct H1 as [(-> & H1 & -> & _)|(-> & H1 & -> & _)]; constructor; cbn; try done;
      split; first [done | by intros ?%Hp | by intros ?%Hq].
  - destruct Hs as [_ Ht Hp Hq Hf].
    destruct H1 as [(Hl & -> & -> & _)|(Hl & -> & -> & _)]; rewrite Hl in *; cbn in *;
      constructor; cbn; try done; try (split; [by intros [? [=]]|done]).
    + split; [|done]. intros Hx. by apply Hq in Hx.
    + split; [|done]. intros Hx. by apply Hp in Hx.
Qed.

Lemma replay_event_id o id e o' :
  (forall s, o = Some s -> ss_id s = id) -> replay_event o id e = Ok o' ->
  forall s, o' = Some s -> ss_id s = id.
Proof.
  intros Ho H s ->. destruct o as [s0|]; [specialize (Ho s0 eq_refl)|];
    destruct e; cbn in H; repeat case_match; try done; by injection H as <-.
Qed.

Lemma replay_all_id p l p' :
  (forall s, rp_state p = Some s -> ss_id s = rp_id p) -> replay_all p l = Ok p' ->
  rp_id p' = rp_id p /\ forall s, rp_state p' = Some s -> ss_id s = rp_id p'.
Proof.
  revert p. induction l as [|x l IH]; intros p Hp; cbn; [by intros [= <-]|].
  intros H. apply bind_Ok in H as (q & Hq & H). unfold replay in Hq. case_match; [done|].
  apply bind_Ok in Hq as (s & Hs & [= <-]). apply IH in H; [done|]. cbn.
  by apply (replay_event_id (rp_state p) _ (ev_event x)).
Qed.

Lemma restore_Ok events k k' s :
  restore_from_events events k = (k', Ok s) <->
  exists p, (p ← new_projection events; replay_all p events) = Ok p /\
    exists s0, rp_state p = Some s0 /\ s = idle s0 /\
      k' = install_restore (rp_id p) s (rp_max_sequence p) k.
Proof.
  unfold restore_from_events. destruct (new_projection events) as [p0|]; cbn; [|naive_solver].
  destruct (replay_all p0 events) as [p|]; cbn; [|naive_solver].
  unfold finish_projection. destruct (rp_state p) as [s0|] eqn:Hp; cbn; [|naive_solver].
  split; [intros [= <- <-]|intros (? & [= <-] & s1 & Hs & -> & ->)].
  - exists p. split; [done|]. by exists s0.
  - rewrite Hp in Hs. by injection Hs as <-.
Qed.

Lemma restore_ok events k k' r :
  kernel_ok k -> restore_from_events events k = (k', r) -> kernel_ok k'.
Proof.
  intros Hk H. destruct r as [s|e].
  - apply restore_Ok in H as (p & Hp & s0 & Hs0 & -> & ->).
    apply bind_Ok in Hp as (p0 & Hp0 & Hp). unfold new_projection in Hp0.
    apply bind_Ok in Hp0 as (x & _ & [= <-]).
    apply replay_all_id in Hp as [_ Hid]; [|done]. apply map_Forall_insert_2; [|done].
    specialize (Hid _ Hs0). constructor; cbn; try done; split; (done || by intros [? [=]]).
  - unfold restore_from_events in H. repeat case_match; try done. by injection H as <-.
Qed.

(** ** Runs of the program

    Processes come and go, the journal stays.  A command creates or resumes only a
    session the journal does not know (its identifier is a fresh UUID); what a turn
    records itself is never a command's own event; a new process loads a session
    by restoring its journal. *)

Definition command_event (e : AppEvent) : bool :=
  match e with
  | AppSessionCreated _ _ _ | AppSessionResumed _ _ _ | AppTurnStarted _ | AppTurnCompleted _
  | AppTurnCancelled _ | AppErrorRaised (Some _) _ | AppDesktopAgentConfigured _
  | AppPermissionProfileChanged _ | AppSessionClosed => true
  | _ => false
  end.

Definition opening (c : AppCommand) : bool :=
  match c with CmdCreateSession _ _ _ _ | CmdResumeSession _ _ _ _ => true | _ => false end.

Definition journal_of (id : string) (j : list EventEnvelope) : list EventEnvelope :=
  filter (fun x => ev_session x = id) j.

Record Process : Type := { kernel : Kernel; journal : list EventEnvelope }.

Section Runs.
Context `{B64 : Base64} `{J : SerdeJson}.

Inductive process_step (w : Process) : Process -> Prop :=
| step_command now r k xs :
    apply now r (kernel w) = (k, Ok xs) ->
    (opening (ce_command r) = true -> journal_of (command_session (ce_command r)) (journal w) = []) ->
    process_step w {| kernel := k; journal := journal w ++ xs |}
| step_refused now r k e :
    apply now r (kernel w) = (k, Err e) ->
    process_step w {| kernel := k; journal := journal w |}
| step_record now id c o e k x :
    record now id c o e (kernel w) = (k, Ok x) -> command_event e = false ->
    process_step w {| kernel := k; journal := journal w ++ [x] |}
| step_unrecorded now id c o e k err :
    record now id c o e (kernel w) = (k, Err err) ->
    process_step w {| kernel := k; journal := journal w |}
| step_crash : process_step w {| kernel := empty_kernel; journal := journal w |}
| step_restore id k r :
    restore_from_events (journal_of id (journal w)) (kernel w) = (k, r) ->
    process_step w {| kernel := k; journal := journal w |}.
End Runs.

(** ** Replaying events *)

Fixpoint replay_events (o : option SessionState) (id : string) (l : list AppEvent)
    : result AxiomError (option SessionState) :=
  match l with [] => Ok o | e :: l => o ← replay_event o id e; replay_events o id l end.

Lemma replay_events_app o id a b :
  replay_events o id (a ++ b) = (o ← replay_events o id a; replay_events o id b).
Proof.
  revert o. induction a as [|e a IH]; intros o; cbn; [done|].
  destruct (replay_event o id e); cbn; [apply IH|done].
Qed.

Lemma replay_all_events id p l :
  Forall (fun x => ev_session x = id) l -> rp_id p = id ->
  replay_all p l =
  (s ← replay_events (rp_state p) id (ev_event <$> l);
   Ok {| rp_id := id; rp_state := s;
         rp_max_sequence := foldl (fun n x => Z.max n (ev_sequence x)) (rp_max_sequence p) l |}).
Proof.
  intros Hl. revert p. induction Hl as [|x l Hx Hl IH]; intros p Hp; cbn.
  { rewrite <- Hp. by destruct p. }
  unfold replay. rewrite Hx, Hp, bool_decide_eq_true_2 by done. cbn.
  destruct (replay_event (rp_state p) id (ev_event x)) as [o|]; cbn; [|done].
  rewrite IH by done. done.
Qed.

Lemma restore_journal id l k s :
  l <> [] -> Forall (fun x => ev_session x = id) l ->
  replay_events None id (ev_event <$> l) = Ok (Some s) ->
  restore_from_events l k =
  (install_restore id (idle s) (foldl (fun n x => Z.max n (ev_sequence x)) 0 l) k, Ok (idle s)).
Proof.
  intros Hne Hl Hr. destruct l as [|x l]; [done|].
  pose proof Hl as Hx. apply Forall_cons in Hx as [Hx _].
  apply restore_Ok. eexists {| rp_id := id; rp_state := Some s; rp_max_sequence := _ |}.
  split; [|by exists s]. apply bind_Ok. eexists. split; [done|]. rewrite Hx.
  rewrite (replay_all_events id) by done. cbn [rp_state rp_max_sequence]. by rewrite Hr.
Qed.

(** ** The protocol of turns

    A monitor of a journal: a turn starts only before it ended, and ends only
    once, after it started. *)

Definition turn_step (st : gset string * gset string) (e : AppEvent)
    : option (gset string * gset string) :=
  let '(started, ended) := st in
  match e with
  | AppTurnStarted t => if bool_decide (t ∈ ended) then None else Some ({[t]} ∪ started, ended)
  | AppTurnCompleted t | AppTurnCancelled t | AppErrorRaised (Some t) _ =>
    if bool_decide (t ∈ started) && negb (bool_decide (t ∈ ended))
    then Some (started, {[t]} ∪ ended) else None
  | _ => Some st
  end.
Fixpoint monitor (st : gset string * gset string) (l : list AppEvent)
    : option (gset string * gset string) :=
  match l with [] => Some st | e :: l => st ← turn_step st e; monitor st l end.

Lemma monitor_app st a b : monitor st (a ++ b) = (st ← monitor st a; monitor st b).
Proof.
  revert st. induction a as [|e a IH]; intros st; cbn; [done|].
  destruct (turn_step st e); cbn; [apply IH|done].
Qed.

Lemma quiet_replay id s l :
  Forall (fun e => quiet e = true) l -> replay_events (Some s) id l = Ok (Some s).
Proof. induction 1 as [|e l He _ IH]; [done|]. cbn. destruct e; try done; by destruct turn. Qed.

Lemma quiet_monitor st l : Forall (fun e => quiet e = true) l -> monitor st l = Some st.
Proof.
  induction 1 as [|e l He _ IH]; [done|]. destruct st.
  cbn. destruct e; try done; by destruct turn.
Qed.

(** ** Journals and sessions agree *)

Lemma idle_fields s' s :
  idle s' = idle s ->
  ss_id s' = ss_id s /\ ss_cwd s' = ss_cwd s /\ ss_origin s' = ss_origin s /\
  ss_profile s' = ss_profile s /\ ss_terminal_turns s' = ss_terminal_turns s.
Proof. unfold idle, with_lifecycle. by intros [= -> -> -> -> ->]. Qed.

Ltac idle_eq H :=
  apply idle_fields in H as (? & ? & ? & ? & ?);
  unfold idle, with_lifecycle, start_turn, end_turn, with_scope; cbn; congruence.

Lemma change_replay id s' s s2 es :
  idle s' = idle s -> session_change s s2 es ->
  exists s2', replay_events (Some s') id es = Ok (Some s2') /\ idle s2' = idle s2.
Proof.
  intros Hi Hc. destruct Hc as [t es Hr Ht Hq|t e Ha Hl He|settings Hr|p Hr|es Hr Hq|Hr].
  - rewrite replay_events_app, quiet_replay by done. eexists. split; [done|]. idle_eq Hi.
  - exists (end_turn s' t). split; [|idle_eq Hi]. destruct e; try done; cbn in He.
    + by injection He as ->.
    + by injection He as ->.
    + destruct turn; [by injection He as ->|done].
  - eexists. split; [done|]. idle_eq Hi.
  - eexists. split; [done|]. idle_eq Hi.
  - exists s'. by rewrite quiet_replay.
  - eexists. split; [done|]. idle_eq Hi.
Qed.

Lemma event_replay id s' s s2 e :
  idle s' = idle s -> session_event s s2 e -> command_event e = false ->
  exists s2', replay_events (Some s') id [e] = Ok (Some s2') /\ idle s2' = idle s2.
Proof.
  intros Hi He Hc. assert (H2 : idle s2 = idle s) by (destruct He; done).
  assert (H : exists s2', replay_events (Some s') id [e] = Ok (Some s2') /\ idle s2' = idle s').
  { destruct e; try done; try (eexists; split; done). destruct turn; [done|]. eexists; split; done. }
  destruct H as (s2' & H & E). exists s2'. split; [done|]. congruence.
Qed.

Lemma change_monitor id s s2 es started :
  session_ok id s -> session_change s s2 es ->
  (forall t, ss_active_turn s = Some t -> t ∈ started) ->
  exists started', monitor (started, ss_terminal_turns s) es = Some (started', ss_terminal_turns s2) /\
    (forall t, ss_active_turn s2 = Some t -> t ∈ started').
Proof.
  intros Hs Hc Ha. destruct Hc as [t es Hr Ht Hq|t e Ht Hl He|settings Hr|p Hr|es Hr Hq|Hr].
  - exists ({[t]} ∪ started). rewrite monitor_app, quiet_monitor by done. cbn.
    rewrite bool_decide_eq_false_2 by done. split; [done|]. intros t' [= <-]. set_solver.
  - exists started. specialize (Ha t Ht). pose proof (so_fresh _ _ Hs t Ht).
    assert (Hm : turn_step (started, ss_terminal_turns s) e
                 = Some (started, {[t]} ∪ ss_terminal_turns s)).
    { destruct e; try done; cbn in He; try destruct turn; try done; injection He as ->; cbn;
        by rewrite bool_decide_eq_true_2, bool_decide_eq_false_2. }
    cbn [monitor]. rewrite Hm. split; [done|]. by intros ? [=].
  - by exists started.
  - by exists started.
  - exists started. by rewrite quiet_monitor.
  - by exists started.
Qed.

Lemma event_monitor s s2 e started :
  session_event s s2 e -> command_event e = false ->
  monitor (started, ss_terminal_turns s) [e] = Some (started, ss_terminal_turns s2) /\
  ss_active_turn s2 = ss_active_turn s.
Proof.
  intros He Hc. assert (H2 : ss_terminal_turns s2 = ss_terminal_turns s /\
    ss_active_turn s2 = ss_active_turn s) by (destruct He; done). destruct H2 as [-> ->].
  split; [|done]. destruct e; try done. by destruct turn.
Qed.

(** What the journal of a session says: it replays to [s], in sequence order,
    along the protocol of turns. *)
Record journal_ok (id : string) (l : list EventEnvelope) (s : SessionState) (started : gset string)
    : Prop := {
  jo_session : Forall (fun x => ev_session x = id) l;
  jo_replay : replay_events None id (ev_event <$> l) = Ok (Some s);
  jo_order : StronglySorted (fun x y => ev_sequence x < ev_sequence y) l;
  jo_monitor : monitor (∅, ∅) (ev_event <$> l) = Some (started, ss_terminal_turns s)
}.

(** A loaded session is the one its journal replays to, its lifecycle aside. *)
Record loaded_ok (k : Kernel) (s : SessionState) (l : list EventEnvelope) (s' : SessionState)
    (started : gset string) : Prop := {
  lo_idle : idle s' = idle s;
  lo_bound : Forall (fun x => ev_sequence x <= next_sequence k) l;
  lo_active : forall t, ss_active_turn s = Some t -> t ∈ started
}.

Record process_ok (w : Process) : Prop := {
  po_kernel : kernel_ok (kernel w);
  po_journal : forall id, journal_of id (journal w) = [] \/
    exists s' started, journal_ok id (journal_of id (journal w)) s' started /\
      forall s, sessions (kernel w) !! id = Some s ->
        loaded_ok (kernel w) s (journal_of id (journal w)) s' started;
  po_loaded : forall id, is_Some (sessions (kernel w) !! id) -> journal_of id (journal w) <> [];
  po_positive : 0 <= next_sequence (kernel w)
}.

(** *** Envelopes *)

Lemma envelopes_spec now id c o l k k' xs :
  envelopes now id c o l k = (k', xs) ->
  sessions k' = sessions k /\ next_sequence k <= next_sequence k' /\ ev_event <$> xs = l /\
  Forall (fun x => ev_session x = id /\ next_sequence k < ev_sequence x <= next_sequence k') xs /\
  StronglySorted (fun x y => ev_sequence x < ev_sequence y) xs.
Proof.
  revert k k' xs. induction l as [|e l IH]; intros k k' xs; cbn.
  - intros [= <- <-]. split_and!; (done || lia || constructor).
  - destruct (envelopes now id c o l _) as [k1 ys] eqn:He. intros [= <- <-].
    apply IH in He as (Hs & Hn & Hl & Hf & Ho). cbn in *. split_and!.
    + done.
    + lia.
    + by rewrite Hl.
    + constructor; [split; [done|cbn; lia]|]. eapply Forall_impl; [exact Hf|]. cbn. intros x [? ?]. split; [done|lia].
    + constructor; [done|]. eapply Forall_impl; [exact Hf|]. cbn. intros x [_ ?]. lia.
Qed.

Lemma journal_of_app id a b : journal_of id (a ++ b) = journal_of id a ++ journal_of id b.
Proof. apply filter_app. Qed.

Lemma journal_of_same id xs : Forall (fun x => ev_session x = id) xs -> journal_of id xs = xs.
Proof.
  induction 1 as [|x xs Hx _ IH]; [done|]. unfold journal_of in *. by rewrite filter_cons_True, IH.
Qed.

Lemma journal_of_other id id' xs :
  Forall (fun x => ev_session x = id) xs -> id <> id' -> journal_of id' xs = [].
Proof.
  induction 1 as [|x xs Hx _ IH]; intros Hne; [done|]. unfold journal_of in *.
  rewrite filter_cons_False by congruence. auto.
Qed.

Lemma sorted_app {A} (R : relation A) a b :
  StronglySorted R a -> StronglySorted R b -> (forall x y, x ∈ a -> y ∈ b -> R x y) ->
  StronglySorted R (a ++ b).
Proof.
  intros Ha Hb Hab. induction Ha as [|x a Ha IH Hx]; [done|]. cbn. constructor.
  - apply IH. intros y z Hy Hz. apply Hab; [by right|done].
  - apply Forall_app. split; [done|]. apply Forall_forall. intros y Hy. apply Hab; [left|done].
Qed.

(** *** Extending the journal *)

(** New events of one session: a session that was opened, or a loaded one that moved
    from [s] to [s2] while the events replay from [s'] to [s2']. *)
Lemma extend_process w id s2 xs n :
  process_ok w -> session_ok id s2 -> next_sequence (kernel w) <= n -> xs <> [] ->
  Forall (fun x => ev_session x = id /\ next_sequence (kernel w) < ev_sequence x <= n) xs ->
  StronglySorted (fun x y => ev_sequence x < ev_sequence y) xs ->
  (exists s2' started, journal_ok id (journal_of id (journal w) ++ xs) s2' started /\
     idle s2' = idle s2 /\ (forall t, ss_active_turn s2 = Some t -> t ∈ started)) ->
  Forall (fun x => ev_sequence x <= n) (journal_of id (journal w)) ->
  process_ok {| kernel := {| sessions := <[id := s2]> (sessions (kernel w)); next_sequence := n |};
                journal := journal w ++ xs |}.
Proof.
  intros [Hk Hj Hl Hp] Hs Hn Hne Hxs Ho (s2' & started & Hjo & Hi & Ha) Hb.
  assert (Hid : Forall (fun x => ev_session x = id) xs)
    by (eapply Forall_impl; [exact Hxs|]; by intros ? [? _]).
  constructor; cbn [kernel journal sessions next_sequence].
  - by apply map_Forall_insert_2.
  - intros id'. rewrite journal_of_app. destruct (decide (id = id')) as [<-|Hd].
    + rewrite (journal_of_same id xs) by done. right. exists s2', started. split; [done|].
      intros s. rewrite lookup_insert_eq. intros [= <-]. constructor; [done| |done].
      cbn. apply Forall_app. split; [done|]. eapply Forall_impl; [exact Hxs|]. cbn. intros ? [_ ?]. lia.
    + rewrite (journal_of_other id id' xs), app_nil_r by done.
      destruct (Hj id') as [|(s' & st & H1 & H2)]; [by left|]. right. exists s', st. split; [done|].
      intros s. rewrite lookup_insert_ne by done. intros Hs'. destruct (H2 s Hs') as [E B A].
      constructor; [done| |done]. eapply Forall_impl; [exact B|]. cbn. lia.
  - intros id'. rewrite journal_of_app. destruct (decide (id = id')) as [<-|Hd].
    + intros _. rewrite (journal_of_same id xs) by done. by intros [_ ?]%app_eq_nil.
    + rewrite (journal_of_other id id' xs), app_nil_r, lookup_insert_ne by done. apply Hl.
  - lia.
Qed.

(** The journal of a loaded session, extended by events that fit it. *)
Lemma extend_journal w id s s2 xs s' started s2' started2 :
  process_ok w -> sessions (kernel w) !! id = Some s ->
  journal_ok id (journal_of id (journal w)) s' started ->
  loaded_ok (kernel w) s (journal_of id (journal w)) s' started ->
  Forall (fun x => ev_session x = id /\ next_sequence (kernel w) < ev_sequence x) xs ->
  StronglySorted (fun x y => ev_sequence x < ev_sequence y) xs ->
  replay_events (Some s') id (ev_event <$> xs) = Ok (Some s2') -> idle s2' = idle s2 ->
  monitor (started, ss_terminal_turns s) (ev_event <$> xs) = Some (started2, ss_terminal_turns s2) ->
  journal_ok id (journal_of id (journal w) ++ xs) s2' started2.
Proof.
  intros Hw Hs [J1 J2 J3 J4] [L1 L2 L3] Hxs Ho Hr Hi Hm.
  apply idle_fields in L1 as (_ & _ & _ & _ & Et). apply idle_fields in Hi as (_ & _ & _ & _ & Et2).
  constructor.
  - apply Forall_app. split; [done|]. eapply Forall_impl; [exact Hxs|]. by intros ? [? _].
  - rewrite fmap_app, replay_events_app, J2. done.
  - apply sorted_app; [done|done|]. intros x y Hx Hy. rewrite Forall_forall in L2, Hxs.
    specialize (L2 x Hx). destruct (Hxs y Hy) as [_ ?]. lia.
  - rewrite fmap_app, monitor_app, J4, Et. cbn. by rewrite Et2.
Qed.

Lemma loaded_journal w id s :
  process_ok w -> sessions (kernel w) !! id = Some s ->
  exists s' started, journal_ok id (journal_of id (journal w)) s' started /\
    loaded_ok (kernel w) s (journal_of id (journal w)) s' started.
Proof.
  intros Hw Hs. destruct (po_journal _ Hw id) as [H|(s' & st & H1 & H2)].
  - exfalso. by eapply (po_loaded _ Hw id).
  - exists s', st. auto.
Qed.

(** *** Every step keeps the invariant *)

Lemma fmap_nonempty {A B} (f : A -> B) l k : f <$> l = k -> k <> [] -> l <> [].
Proof. by intros <- H ->. Qed.

Lemma session_change_nonempty s s' es :
  session_change s s' es -> es <> [] \/ (s' = s /\ es = []).
Proof. destruct 1 as [? []| | | |[]|]; auto. Qed.

Lemma kernel_unchanged k id s :
  sessions k !! id = Some s -> with_sessions k (<[id := s]> (sessions k)) = k.
Proof. intros H. unfold with_sessions. rewrite insert_id by done. by destruct k. Qed.

Section Preservation.
Context `{B64 : Base64} `{J : SerdeJson}.

Lemma apply_Ok now r k k' xs :
  apply now r k = (k', Ok xs) ->
  exists k1 es, command_events (ce_command r) k = (k1, Ok es) /\
    envelopes now (command_session (ce_command r)) (ce_correlation r) (ce_origin r) es k1 = (k', xs).
Proof.
  unfold apply. destruct (ce_cancelled r); [done|].
  destruct (command_events (ce_command r) k) as [k1 [es|e]] eqn:Hc; [|done].
  destruct (envelopes _ _ _ _ _ _) as [k2 ys] eqn:He. intros [= <- <-]. by exists k1, es.
Qed.

Lemma process_command now r w k xs :
  process_ok w -> apply now r (kernel w) = (k, Ok xs) ->
  (opening (ce_command r) = true -> journal_of (command_session (ce_command r)) (journal w) = []) ->
  process_ok {| kernel := k; journal := journal w ++ xs |}.
Proof.
  intros Hw H Hopen. apply apply_Ok in H as (k1 & es & Hc & He).
  pose proof (command_events_Ok _ _ _ _ Hc) as (s2 & -> & Hs). cbv zeta in Hs.
  set (id := command_session (ce_command r)) in *.
  apply envelopes_spec in He as (Hks & Hn & Hl & Hf & Ho). cbn [sessions next_sequence with_sessions] in *.
  assert (Hk : k = {| sessions := <[id := s2]> (sessions (kernel w)); next_sequence := next_sequence k |})
    by (destruct k; cbn in *; by subst).
  destruct Hs as [[Hnone Hopens]|(s & Hs & Hch)].
  - destruct Hopens as (cwd & origin & profile & rest & -> & Hes & Hq).
    assert (Hj : journal_of id (journal w) = []).
    { apply Hopen. destruct (ce_command r) eqn:Er; try done; exfalso; subst id; cbn in *;
        unfold ends, on_session, mbind, M_bind, lift in Hc; rewrite Hnone in Hc;
        repeat case_match; done. }
    rewrite Hk. apply extend_process; try done.
    + apply new_session_ok.
    + destruct xs; [|done]. destruct Hes as [-> | ->]; done.
    + exists (new_session id cwd origin profile), ∅. split_and!; [|done|by intros ? [=]].
      rewrite Hj. cbn [app]. constructor; [|rewrite Hl|done|rewrite Hl].
      * eapply Forall_impl; [exact Hf|]. by intros ? [? _].
      * destruct Hes as [-> | ->]; cbn; by rewrite quiet_replay.
      * destruct Hes as [-> | ->]; cbn; by rewrite quiet_monitor.
    + rewrite Hj. constructor.
  - destruct (session_change_nonempty _ _ _ Hch) as [Hne|[-> ->]].
    + destruct (loaded_journal w id s Hw Hs) as (s' & started & Hjo & Hlo).
      pose proof (po_kernel _ Hw id s Hs) as Hok.
      destruct (change_replay id s' s s2 es (lo_idle _ _ _ _ _ Hlo) Hch) as (s2' & Hr & Hi).
      destruct (change_monitor id s s2 es started Hok Hch (lo_active _ _ _ _ _ Hlo)) as (st2 & Hm & Ha).
      rewrite Hk. apply extend_process; try done.
      * by eapply session_change_ok.
      * by eapply fmap_nonempty.
      * exists s2', st2. split_and!; [|done|done]. eapply extend_journal; try done; try (by rewrite Hl).
        eapply Forall_impl; [exact Hf|]. cbn. intros ? (? & ? & _). done.
      * eapply Forall_impl; [exact (lo_bound _ _ _ _ _ Hlo)|]. cbn. lia.
    + destruct xs; [|done]. rewrite app_nil_r. rewrite insert_id in Hk by done.
      destruct Hw as [H1 H2 H3 H4]. rewrite Hk. constructor; cbn; try done; [|lia].
      intros id'. destruct (H2 id') as [|(s' & st & J1 & J2)]; [by left|]. right. exists s', st.
      split; [done|]. intros s0 Hs0. destruct (J2 s0 Hs0) as [E B A]. constructor; [done| |done].
      eapply Forall_impl; [exact B|]. cbn. lia.
Qed.

Lemma process_record now id c o e w k x :
  process_ok w -> record now id c o e (kernel w) = (k, Ok x) -> command_event e = false ->
  process_ok {| kernel := k; journal := journal w ++ [x] |}.
Proof.
  intros Hw H Hce. unfold record in H. destruct (on_session id _ _) as [k1 [[]|err]] eqn:Hon; [|done].
  apply on_session_Ok in Hon as (s & s2 & Hs & Hev & ->). apply observe_event_Ok in Hev.
  cbn in H. injection H as <- <-.
  destruct (loaded_journal w id s Hw Hs) as (s' & started & Hjo & Hlo).
  pose proof (po_kernel _ Hw id s Hs) as Hok.
  destruct (event_replay id s' s s2 e (lo_idle _ _ _ _ _ Hlo) Hev Hce) as (s2' & Hr & Hi).
  destruct (event_monitor s s2 e started Hev Hce) as [Hm Ha].
  apply extend_process; try done; cbn [ev_sequence ev_session].
  - by eapply session_event_ok.
  - lia.
  - apply Forall_singleton. cbn. split; [done|lia].
  - repeat constructor.
  - exists s2', started. split_and!; [|done|rewrite Ha; apply (lo_active _ _ _ _ _ Hlo)].
    eapply extend_journal; [done|done|done|done| | |exact Hr|done|exact Hm].
    + apply Forall_singleton. cbn. split; [done|lia].
    + repeat constructor.
  - eapply Forall_impl; [exact (lo_bound _ _ _ _ _ Hlo)|]. cbn. lia.
Qed.

(** *** What a refused operation leaves *)

Lemma on_session_Err {A} id (f : M SessionState AxiomError A) k k' e :
  (forall s s' e, f s = (s', Err e) -> s' = s) ->
  on_session id f k = (k', Err e) -> k' = k.
Proof.
  intros Hf. unfold on_session. destruct (sessions k !! id) as [s|] eqn:Hs; [|by intros [= <-]].
  destruct (f s) as [s' r] eqn:He. intros [= <- ->]. rewrite (Hf s s' e He). by apply kernel_unchanged.
Qed.

Lemma when_ready_Err {A} why (f : M SessionState AxiomError A) s s' e :
  (forall s s' e, f s = (s', Err e) -> s' = s) -> when_ready why f s = (s', Err e) -> s' = s.
Proof. unfold when_ready. case_bool_decide; cbn; [eauto|by intros _ [= <-]]. Qed.

Lemma lift_Err {S E A B} (m : result E A) (f : A -> M S E B) s s' e :
  (forall a s' e, f a s = (s', Err e) -> s' = s) -> (a ← lift m; f a) s = (s', Err e) -> s' = s.
Proof. unfold mbind, M_bind, lift. destruct m; [eauto|by intros _ [= <-]]. Qed.

Lemma finish_active_Err t s s' e : finish_active t s = (s', Err e) -> s' = s.
Proof. unfold finish_active. case_match; [by intros [= <-]|done]. Qed.

Lemma ends_Err id t e0 k k' e : ends id t e0 k = (k', Err e) -> k' = k.
Proof.
  unfold ends. rewrite M_bind_run. destruct (on_session id (finish_active t) k) as [k1 [a|e1]] eqn:H; [done|].
  intros [= <- <-]. eapply on_session_Err; [|exact H]. apply finish_active_Err.
Qed.

Lemma command_events_Err c k k' e : command_events c k = (k', Err e) -> k' = k.
Proof.
  destruct c; cbn [command_events]; try apply ends_Err;
    try (unfold add_session; case_match; [by intros [= <-]|done]);
    try (apply lift_Err; intros _ k1 e1); try apply on_session_Err;
    intros s s' e0; try apply when_ready_Err; try done;
    unfold submit_prompt, start_image_generation; repeat case_match; by intros [= <-].
Qed.

Lemma observe_event_Err ev s s' e : observe_event ev s = (s', Err e) -> s' = s.
Proof. destruct ev; cbn; try done; repeat case_match; try done; by intros [= <-]. Qed.

Lemma apply_Err now r k k' e : apply now r k = (k', Err e) -> k' = k.
Proof.
  unfold apply. destruct (ce_cancelled r); [by intros [= <-]|].
  destruct (command_events _ k) as [k1 [es|e1]] eqn:H; [|intros [= <- _]; by eapply command_events_Err].
  by destruct (envelopes _ _ _ _ _ _).
Qed.

Lemma record_Err now id c o ev k k' e : record now id c o ev k = (k', Err e) -> k' = k.
Proof.
  unfold record. destruct (on_session _ _ k) as [k1 [a|e1]] eqn:H; [by destruct (envelope _ _ _ _ _ _)|].
  intros [= <- _]. eapply on_session_Err; [|exact H]. apply observe_event_Err.
Qed.

Lemma restore_Err l k k' e : restore_from_events l k = (k', Err e) -> k' = k.
Proof. unfold restore_from_events. repeat case_match; try done. by intros [= <-]. Qed.

(** *** Restoring a session *)

Lemma foldl_max_bound l n :
  n <= foldl (fun n x => Z.max n (ev_sequence x)) n l /\
  Forall (fun x => ev_sequence x <= foldl (fun n x => Z.max n (ev_sequence x)) n l) l.
Proof.
  revert n. induction l as [|x l IH]; intros n; cbn; [split; [lia|constructor]|].
  destruct (IH (Z.max n (ev_sequence x))) as [H1 H2]. split; [lia|]. constructor; [lia|done].
Qed.

Lemma process_restore id w k r :
  process_ok w -> restore_from_events (journal_of id (journal w)) (kernel w) = (k, r) ->
  process_ok {| kernel := k; journal := journal w |}.
Proof.
  intros Hw H. destruct (po_journal _ Hw id) as [Hn|(s' & st & Hjo & Hlo)].
  - rewrite Hn in H. injection H as <- <-. by destruct w.
  - pose proof (restore_ok _ _ _ _ (po_kernel _ Hw) H) as Hk.
    assert (Hne : journal_of id (journal w) <> []).
    { intros E. pose proof (jo_replay _ _ _ _ Hjo) as Hr. by rewrite E in Hr. }
    rewrite (restore_journal id _ _ s') in H by (done || apply Hjo). injection H as <- <-.
    destruct (foldl_max_bound (journal_of id (journal w)) 0) as [H0 Hb].
    destruct Hw as [_ H2 H3 H4]. constructor; cbn; [done| | |lia].
    + intros id'. destruct (decide (id = id')) as [<-|Hd].
      * right. exists s', st. split; [done|]. intros s. rewrite lookup_insert_eq. intros [= <-].
        constructor; [done| |by intros ? [=]]. eapply Forall_impl; [exact Hb|]. cbn. lia.
      * destruct (H2 id') as [|(s0 & st0 & J1 & J2)]; [by left|]. right. exists s0, st0.
        split; [done|]. intros s. rewrite lookup_insert_ne by done. intros Hs.
        destruct (J2 s Hs) as [E B A]. constructor; [done| |done].
        eapply Forall_impl; [exact B|]. cbn. lia.
    + intros id'. destruct (decide (id = id')) as [<-|Hd]; [done|].
      rewrite lookup_insert_ne by done. apply H3.
Qed.

Definition first_process : Process := {| kernel := empty_kernel; journal := [] |}.

Lemma process_step_ok w w' : process_ok w -> process_step w w' -> process_ok w'.
Proof.
  intros Hw H. destruct H as [now r k xs H Ho|now r k e H|now id c o e k x H Hc|now id c o e k err H| |id k r H].
  - by eapply process_command.
  - apply apply_Err in H as ->. by destruct w.
  - by eapply process_record.
  - apply record_Err in H as ->. by destruct w.
  - destruct Hw as [_ H2 _ _]. constructor; cbn; [by intros ? ?| |by intros ? [? ?]|lia].
    intros id. destruct (H2 id) as [|(s' & st & J1 & _)]; [by left|]. right. exists s', st.
    split; [done|]. by intros s.
  - by eapply process_restore.
Qed.

Lemma reachable_ok w : rtc process_step first_process w -> process_ok w.
Proof.
  intros H. assert (H0 : process_ok first_process).
  { constructor; cbn; [by intros ? ?|by left|by intros ? [? ?]|lia]. }
  induction H as [|w1 w2 w3 Hs _ IH]; [done|]. apply IH. by eapply process_step_ok.
Qed.

(** ** Properties *)

(** C26: The state of every session is consistent, whatever the kernel is asked:
    a turn is active exactly while it runs or waits, a permission is pending
    exactly while one is awaited, and so is a question, and the active turn has
    not ended.  Commands, recorded events of any kind and restorations of any
    stream keep this, whether they succeed or fail. *)
Theorem sessions_stay_consistent k :
  kernel_ok k ->
  (forall now r, kernel_ok (apply now r k).1) /\
  (forall now id c o e, kernel_ok (record now id c o e k).1) /\
  (forall l, kernel_ok (restore_from_events l k).1).
Proof.
  intros Hk. split_and!.
  - intros now r. destruct (apply now r k) as [k' [xs|e]] eqn:H; cbn; [|by apply apply_Err in H as ->].
    apply apply_Ok in H as (k1 & es & Hc & He). apply envelopes_spec in He as (Hs & _).
    apply command_events_Ok in Hc as (s2 & -> & Hs2). unfold kernel_ok. rewrite Hs. cbn.
    apply map_Forall_insert_2; [|done].
    destruct Hs2 as [[_ (cwd & o & p & rest & -> & _)]|(s & Hl & Hc)]; [apply new_session_ok|].
    eapply session_change_ok; [|exact Hc]. by apply (Hk _ s).
  - intros now id c o e. unfold record. destruct (on_session id _ k) as [k1 [[]|err]] eqn:H.
    + apply on_session_Ok in H as (s & s2 & Hs & Hev & ->). apply observe_event_Ok in Hev. cbn.
      apply map_Forall_insert_2; [|done]. eapply session_event_ok; [|exact Hev]. by apply (Hk _ s).
    + apply on_session_Err in H as ->; [done|]. apply observe_event_Err.
  - intros l. destruct (restore_from_events l k) as [k' r] eqn:H. by eapply restore_ok.
Qed.

(** A refused command, a refused event and a refused restoration change
    nothing. *)
Theorem refusals_change_nothing k k' e :
  (exists now r, apply now r k = (k', Err e)) \/
  (exists now id c o ev, record now id c o ev k = (k', Err e)) \/
  (exists l, restore_from_events l k = (k', Err e)) ->
  k' = k.
Proof.
  intros [(now & r & H)|[(now & id & c & o & ev & H)|(l & H)]];
    [by eapply apply_Err|by eapply record_Err|by eapply restore_Err].
Qed.


End Preservation.

(** ** Examples *)

Definition no_clock (n : Z) : string := "2026-08-22".
Definition command_sample (c : AppCommand) : CommandEnvelope :=
  {| ce_correlation := "c"; ce_origin := TestOrigin; ce_cancelled := false; ce_command := c |}.
Definition cwd_sample : Path := path_of_string "/tmp/example".
Definition permission_sample : AppEvent := AppPermissionRequired "r" "why" VNull ["allow_once"].

Definition plain_apply (c : AppCommand) (k : Kernel) : Kernel * result AxiomError (list EventEnvelope) :=
  @apply plain_base64 plain_json no_clock (command_sample c) k.

Definition after (c : AppCommand) (w : Process) : Process :=
  match plain_apply c (kernel w) with
  | (k, Ok xs) => {| kernel := k; journal := journal w ++ xs |}
  | (k, Err _) => {| kernel := k; journal := journal w |}
  end.

Definition created : Process := after (CmdCreateSession "s" cwd_sample Headless Confirm) first_process.
Definition prompted : Process := after (CmdSubmitPrompt "s" "t" "hello" []) created.

Lemma after_step c w :
  (opening c = true -> journal_of (command_session c) (journal w) = []) ->
  @process_step plain_base64 plain_json w (after c w).
Proof.
  intros Ho. unfold after. destruct (plain_apply c (kernel w)) as [k [xs|e]] eqn:H;
    [by eapply (step_command _ no_clock (command_sample c))|
     by eapply (step_refused _ no_clock (command_sample c))].
Qed.


Lemma sessions_stay_consistent_witness :
  kernel_ok (plain_apply (CmdSubmitPrompt "s" "t" "hello" []) (kernel created)).1.
Proof.
  assert (H : kernel_ok (kernel created)).
  { apply (po_kernel created), (@reachable_ok plain_base64 plain_json), rtc_once. by apply after_step. }
  exact (proj1 (@sessions_stay_consistent plain_base64 plain_json (kernel created) H)
           no_clock (command_sample (CmdSubmitPrompt "s" "t" "hello" []))).
Defined.

Lemma refusals_change_nothing_witness :
  (plain_apply (CmdFinishTurn "s" "u") (kernel prompted)).1 = kernel prompted.
Proof.
  apply (@refusals_change_nothing plain_base64 plain_json (kernel prompted) _
           (InvalidTransition "turn u is not active")).
  left. exists no_clock, (command_sample (CmdFinishTurn "s" "u")). by vm_compute.
Defined.


