(* ===== verification/Images.v ===== *)
(** The images of a conversation (apps/axiomcli/src/image_tool.rs): the catalog of
    uploaded and generated images that tools name by identifier.

    A catalog is the map behind its lock, and each method one step on it; the lock
    is never poisoned.  SHA-256 and hexadecimal are [KeyDigest], base64 is
    [Base64], serde_json is [JsonText]; the image crate, which reads, scales and writes
    pixels, is [ImageLib]. *)

From stdpp Require Import base gmap strings list fin_maps.
From Stdlib Require Import ZArith NArith Lia ZifyBool ZifyN ZifyNat.
From S2P Require Import Prelude RustStr Json ToolCalls Content Accounting Inference Attachments AppError Lease Kernel.

Local Open Scope Z_scope.

Inductive ImageOrigin : Type := Uploaded | Generated | Edited.

Definition origin_str (o : ImageOrigin) : string :=
  match o with Uploaded => "uploaded" | Generated => "generated" | Edited => "edited" end.

Record LocalImage : Type := {
  li_id : string; li_name : string; li_origin : ImageOrigin; li_position : Z;
  li_source_image_ids : list string; li_image : ImageContent
}.

Abbreviation ImageCatalog := (gmap string LocalImage).

Definition MAX_CATALOG_IMAGES : Z := 256.
Definition MAX_CATALOG_BYTES : Z := 64 * 1024 * 1024.

(** [images.values().map(|a| a.image.data.len()).sum::<usize>()]. *)
Definition catalog_bytes (c : ImageCatalog) : Z :=
  map_fold (fun _ a n => len (i_data (li_image a)) + n) 0 c.

Definition ensure_output_capacity (c : ImageCatalog) : result AxiomError unit :=
  if (Z.of_nat (size c) >=? MAX_CATALOG_IMAGES) || (catalog_bytes c + 14000000 >? MAX_CATALOG_BYTES)
  then Err (ToolError "This conversation has reached its local image limit. Start a new thread before generating another image.")
  else Ok tt.

Definition placed (a : LocalImage) (n : Z) : LocalImage :=
  {| li_id := li_id a; li_name := li_name a; li_origin := li_origin a; li_position := n;
     li_source_image_ids := li_source_image_ids a; li_image := li_image a |}.

Definition valid_image_id (id : string) : bool :=
  (len id =? 36) && starts_with "img_" id
  && forallb (fun b => is_ascii_digit b || ((97 <=? b) && (b <=? 102))%N) (drop 4 (bytes id)).

Section Catalog.
Context `{B64 : Base64} `{KD : KeyDigest} `{JT : JsonText}.

Definition insert_image (a : LocalImage) : M ImageCatalog AxiomError string := fun c =>
  match image_validate_bounded (li_image a)
          (match li_origin a with Uploaded => MAX_IMAGE_BYTES | _ => MAX_GENERATED_IMAGE_BYTES end) with
  | Err e => (c, Err (ProtocolError (validation_display e)))
  | Ok _ =>
    match c !! li_id a with
    | Some previous =>
      if negb (bool_decide (li_image previous = li_image a))
      then (c, Err (StorageError "image identity changed")) else (c, Ok (li_id a))
    | None =>
      if (Z.of_nat (size c) >=? MAX_CATALOG_IMAGES)
         || (catalog_bytes c + len (i_data (li_image a)) >? MAX_CATALOG_BYTES)
      then (c, Err (ToolError "This conversation has reached its local image limit. Start a new thread for more images."))
      else (<[li_id a := placed a (Z.of_nat (size c) + 1)]> c, Ok (li_id a))
    end
  end.

(** The identity an upload's identifier is the digest of. *)
Definition upload_identity (session turn : string) (index : nat) (image : ImageContent) : Value :=
  VArray [VString "axiom-local-image-v1"; VString session; VString turn;
          VNumber (PosInt (Z.of_nat index)); VString (i_data image)].

Definition upload_id (identity : string) : string :=
  "img_" +:+ str_take 32 (sha256_hex (bytes identity)).

Definition add_upload (session turn : string) (x : nat * PromptAttachment)
    : M ImageCatalog AxiomError unit := fun c =>
  match x.2 with
  | AImage n image =>
    match image_validate image with
    | Err e => (c, Err (ProtocolError (validation_display e)))
    | Ok _ =>
      match json_to_string (upload_identity session turn x.1 image) with
      | Err e => (c, Err (JsonError e))
      | Ok identity =>
        match insert_image {| li_id := upload_id identity; li_name := n; li_origin := Uploaded;
                              li_position := 0; li_source_image_ids := []; li_image := image |} c with
        | (c, Ok _) => (c, Ok tt)
        | (c, Err e) => (c, Err e)
        end
      end
    end
  | _ => (c, Ok tt)
  end.

Definition add_uploads (session turn : string) (attachments : list PromptAttachment)
    : M ImageCatalog AxiomError unit :=
  iterM (add_upload session turn) (imap pair attachments).

Definition bad_generated (g : GeneratedImage) : bool :=
  negb (len (gi_request_id g) =? 32)
  || negb (forallb (fun b => is_ascii_hexdigit b && negb (is_ascii_uppercase b)) (bytes (gi_request_id g)))
  || negb (Accounting.response_verified (gi_usage g)) || negb (settled (gi_usage g)).

Definition add_generated (g : GeneratedImage) : M ImageCatalog AxiomError string := fun c =>
  if bad_generated g then (c, Err (StorageError "verified generated image required")) else
  match b64_decode (gi_data g) with
  | None => (c, Err (StorageError "invalid image bytes"))
  | Some raw =>
    if negb (bool_decide (sha256_hex raw = gi_sha256 g))
    then (c, Err (StorageError "image hash differs")) else
    insert_image {| li_id := "img_" +:+ gi_request_id g; li_name := "Axiom image";
                    li_origin := if bool_decide (gi_source_image_ids g = []) then Generated else Edited;
                    li_position := 0; li_source_image_ids := gi_source_image_ids g;
                    li_image := {| i_mime_type := gi_mime_type g; i_data := gi_data g |} |} c
  end.

Definition resolve_image (id : string) (c : ImageCatalog) : result AxiomError LocalImage :=
  ok_or (c !! id) (ToolError "Image is not available in this conversation. Use an image ID from this thread or attach the image here.").

Definition position_le (a b : LocalImage) : bool := li_position a <=? li_position b.

Definition manifest_entry (a : LocalImage) : Value :=
  VObject [("image_id", VString (li_id a)); ("name", VString (li_name a));
           ("origin", VString (origin_str (li_origin a)));
           ("position", VNumber (PosInt (li_position a)));
           ("source_image_ids", VArray (VString <$> li_source_image_ids a))].

(** The values of a [BTreeMap] come in the order of their keys. *)
Definition key_le (x y : string * LocalImage) : bool := bytes_leb (bytes x.1) (bytes y.1).

Definition manifest (c : ImageCatalog) : result AxiomError string :=
  map_err JsonError (json_to_string (VArray (manifest_entry <$>
    Models.sort_by position_le (snd <$> Models.sort_by key_le (map_to_list c))))).
End Catalog.

(** ** Copies for viewing *)

(** The image crate: formats by media type, the size a decoder announces within the
    limits on width, height and memory, the upright raster, scaling and PNG. *)
Class ImageLib : Type := {
  Raster : Type;
  known_format : string -> bool;
  open_image : Z -> Z -> Z -> string -> list N -> option (Z * Z);
  decode_upright : string -> list N -> option Raster;
  raster_size : Raster -> Z * Z;
  resize_exact : Z -> Z -> Raster -> Raster;
  write_png : Raster -> option (list N)
}.

Definition MAX_VIEWED_PIXELS : Z := 1048576.

(** The side of a copy: both sides shrink by the same factor. *)
Definition vision_side (side divisor : Z) : option Z :=
  let n := side * 1024 / divisor in
  if n <=? U32_MAX then Some (Z.max n 1) else None.

(** [None]: the copy keeps its size. *)
Definition vision_size (w h : Z) : option (option (Z * Z)) :=
  let pixels := w * h in
  if pixels >? MAX_VIEWED_PIXELS then
    let root := Z.sqrt pixels in
    let divisor := root + (if root * root <? pixels then 1 else 0) in
    w' ← vision_side w divisor; h' ← vision_side h divisor; Some (Some (w', h'))
  else Some None.

Section Viewing.
Context `{B64 : Base64} `{IL : ImageLib}.

Definition vision_copy (source : ImageContent) : result AxiomError ImageContent :=
  let invalid := ToolError "This image could not be decoded for viewing." in
  raw ← ok_or (b64_decode (i_data source)) invalid;
  if negb (known_format (i_mime_type source)) then Err invalid else
  size ← ok_or (open_image 8192 8192 (128 * 1024 * 1024) (i_mime_type source) raw) invalid;
  if size.1 * size.2 >? 16 * 1024 * 1024 then Err (ToolError "This image exceeds the viewing size limit.") else
  raster ← ok_or (decode_upright (i_mime_type source) raw) invalid;
  scaled ← ok_or (vision_size (raster_size raster).1 (raster_size raster).2) invalid;
  let raster := match scaled with Some (w, h) => resize_exact w h raster | None => raster end in
  output ← ok_or (write_png raster) invalid;
  let image := {| i_mime_type := "image/png"; i_data := b64_encode output |} in
  _ ← map_err (fun _ => invalid) (image_validate image);
  Ok image.

(** [ImageCatalog::view], not cancelled. *)
Definition view_image (id : string) (c : ImageCatalog) : result AxiomError ImageContent :=
  source ← resolve_image id c; vision_copy (li_image source).

Lemma vision_copy_valid source image :
  vision_copy source = Ok image -> image_validate image = Ok tt /\ i_mime_type image = "image/png".
Proof.
  unfold vision_copy. intros (raw & _ & H)%bind_Ok. destruct (negb _); [done|].
  apply bind_Ok in H as (size & _ & H). destruct (_ >? _); [done|].
  apply bind_Ok in H as (raster & _ & H). apply bind_Ok in H as (scaled & _ & H).
  apply bind_Ok in H as (output & _ & H). apply bind_Ok in H as ([] & Hv & H). injection H as <-.
  split; [|done]. by destruct (image_validate _) as [[]|].
Qed.
End Viewing.

(** A copy has at most 2^20 pixels and is never larger than the image; the sizes the
    decoder admits are always scaled. *)
Lemma vision_size_small w h :
  1 <= w <= 8192 -> 1 <= h <= 8192 ->
  match vision_size w h with
  | Some (Some (w', h')) => 1 <= w' <= w /\ 1 <= h' <= h /\ w' * h' <= MAX_VIEWED_PIXELS
  | Some None => w * h <= MAX_VIEWED_PIXELS
  | None => False
  end.
Proof.
  intros Hw Hh. unfold vision_size, MAX_VIEWED_PIXELS. destruct (Z.gtb_spec (w * h) 1048576) as [Hp|Hp]; [|lia].
  set (d := Z.sqrt (w * h) + _).
  assert (Hd : w * h <= d * d /\ 1024 <= d).
  { unfold d. pose proof (Z.sqrt_spec (w * h) ltac:(lia)) as [H1 H2].
    assert (1024 <= Z.sqrt (w * h)) by (apply Z.sqrt_le_square; lia).
    destruct (Z.ltb_spec (Z.sqrt (w * h) * Z.sqrt (w * h)) (w * h)); lia. }
  destruct Hd as [Hd1 Hd2]. clearbody d.
  assert (Hside : forall n, 1 <= n <= 8192 -> exists n', vision_side n d = Some n' /\ 1 <= n' <= n /\
    (n' = 1 \/ n' * d <= n * 1024)).
  { intros n Hn. unfold vision_side. pose proof (Z.mul_div_le (n * 1024) d ltac:(lia)) as Hle.
    assert (n * 1024 / d <= n) by (apply Z.div_le_upper_bound; nia).
    assert (0 <= n * 1024 / d) by (apply Z.div_pos; lia).
    rewrite (proj2 (Z.leb_le _ _)) by (unfold U32_MAX; lia). eexists. split; [done|]. lia. }
  destruct (Hside w Hw) as (w' & -> & Hw' & Ew). destruct (Hside h Hh) as (h' & -> & Hh' & Eh). cbn.
  split_and!; try lia. destruct Ew as [->|Ew]; [lia|]. destruct Eh as [->|Eh]; [lia|].
  assert ((w' * d) * (h' * d) <= (w * 1024) * (h * 1024)) by (apply Z.mul_le_mono_nonneg; nia). nia.
Qed.

(** ** The invariant of a catalog *)

(** Bounded in number and size; entries are filed under their identifier and
    numbered without gaps. *)
Record catalog_ok (c : ImageCatalog) : Prop := {
  co_count : Z.of_nat (size c) <= MAX_CATALOG_IMAGES;
  co_bytes : catalog_bytes c <= MAX_CATALOG_BYTES;
  co_ids : map_Forall (fun id a => li_id a = id) c;
  co_positions : map_Forall (fun _ a => 1 <= li_position a <= Z.of_nat (size c)) c;
  co_distinct : forall i j a b, c !! i = Some a -> c !! j = Some b ->
    li_position a = li_position b -> i = j
}.

Lemma catalog_ok_empty : catalog_ok ∅.
Proof. constructor; [done|done|apply map_Forall_empty..|by intros i j a b ?%lookup_empty_Some]. Qed.

Lemma catalog_bytes_insert id a c :
  c !! id = None -> catalog_bytes (<[id := a]> c) = len (i_data (li_image a)) + catalog_bytes c.
Proof. intros H. unfold catalog_bytes. rewrite map_fold_insert_L; [done| |done]. intros. lia. Qed.

Section CatalogProofs.
Context `{B64 : Base64} `{KD : KeyDigest} `{JT : JsonText}.

Lemma insert_image_ok a c :
  catalog_ok c ->
  catalog_ok (insert_image a c).1 /\ c ⊆ (insert_image a c).1 /\
  forall id, (insert_image a c).2 = Ok id ->
    id = li_id a /\ exists b, (insert_image a c).1 !! id = Some b /\ li_image b = li_image a.
Proof.
  intros Hc. unfold insert_image. destruct (image_validate_bounded _ _); [|by split_and!].
  destruct (c !! li_id a) as [previous|] eqn:Hp.
  - case_bool_decide as He; cbn; split_and!; try done. intros id [= <-]. eauto.
  - destruct (_ || _) eqn:Hg; [by split_and!|]. cbn [fst snd]. destruct Hc as [H1 H2 H3 H4 H5].
    assert (Hs : size (<[li_id a := placed a (Z.of_nat (size c) + 1)]> c) = S (size c))
      by (by apply map_size_insert_None).
    split_and!.
    + constructor.
      * rewrite Hs. lia.
      * rewrite catalog_bytes_insert by done. cbn. lia.
      * by apply map_Forall_insert_2.
      * rewrite Hs. apply map_Forall_insert_2; [cbn; lia|]. intros i x Hi. specialize (H4 i x Hi).
        cbn in H4. lia.
      * intros i j x y [[<- <-]|[Hi Hx]]%lookup_insert_Some [[<- <-]|[Hj Hy]]%lookup_insert_Some Heq;
          [done|specialize (H4 _ _ Hy)|specialize (H4 _ _ Hx)|by eapply H5]; cbn in *; lia.
    + by apply insert_subseteq.
    + intros id [= <-]. split; [done|]. eexists. by rewrite lookup_insert_eq.
Qed.

Lemma add_upload_ok session turn x c :
  catalog_ok c -> catalog_ok (add_upload session turn x c).1 /\ c ⊆ (add_upload session turn x c).1.
Proof.
  intros Hc. unfold add_upload. destruct x.2; try done. destruct (image_validate _); [|done].
  destruct (json_to_string _) as [identity|]; [|done].
  set (img := {| li_id := _ |}). destruct (insert_image_ok img c Hc) as (H1 & H2 & _).
  by destruct (insert_image img c) as [c' [|]].
Qed.

Lemma add_generated_ok g c :
  catalog_ok c -> catalog_ok (add_generated g c).1 /\ c ⊆ (add_generated g c).1.
Proof.
  intros Hc. unfold add_generated. destruct (bad_generated g); [done|].
  destruct (b64_decode _); [|done]. destruct (negb _); [done|].
  set (img := {| li_id := _ |}). by destruct (insert_image_ok img c Hc) as (H1 & H2 & _).
Qed.
End CatalogProofs.

(** ** Runs *)

Inductive image_op : Type :=
| OpUploads (session turn : string) (attachments : list PromptAttachment)
| OpGenerated (g : GeneratedImage).

Section Runs.
Context `{B64 : Base64} `{KD : KeyDigest} `{JT : JsonText}.

Definition image_step (c : ImageCatalog) (o : image_op) : ImageCatalog :=
  match o with
  | OpUploads session turn attachments => (add_uploads session turn attachments c).1
  | OpGenerated g => (add_generated g c).1
  end.

Lemma image_step_ok c o : catalog_ok c -> catalog_ok (image_step c o) /\ c ⊆ image_step c o.
Proof.
  intros Hc. destruct o as [session turn attachments|g]; [|by apply add_generated_ok].
  apply (iterM_invariant (fun c' : ImageCatalog => catalog_ok c' /\ c ⊆ c')); [|done].
  intros x c' [H1 H2]. destruct (add_upload_ok session turn x c' H1). split; [done|by etrans].
Qed.

Lemma image_run_ok l : forall c, catalog_ok c ->
  catalog_ok (foldl image_step c l) /\ c ⊆ foldl image_step c l.
Proof.
  induction l as [|o l IH]; intros c Hc; [done|]. cbn. destruct (image_step_ok c o Hc) as [H1 H2].
  destruct (IH _ H1). split; [done|by etrans].
Qed.

(** Whatever is uploaded or generated, and whatever of it is refused, a
    conversation's catalog holds at most 256 images and 64 MiB of image data, files
    every image under its own identifier, numbers them by distinct positions from 1
    to their number, and never changes or forgets an image it took. *)
Theorem images_keep_their_identity l l' :
  catalog_ok (foldl image_step ∅ l) /\ foldl image_step ∅ l ⊆ foldl image_step ∅ (l ++ l').
Proof.
  destruct (image_run_ok l ∅ catalog_ok_empty) as [H _]. split; [done|].
  rewrite foldl_app. by apply image_run_ok.
Qed.
End Runs.
