(* ===== verification/Title.v ===== *)
(** Titles of conversations (apps/axiomcli/src/session_title.rs, [session_title]):
    the label derived from a prompt or from a model's answer.

    A string is worked on as its characters; only the truncation counts bytes. *)

From stdpp Require Import base list strings.
From Stdlib Require Import ZArith NArith Lia ZifyBool ZifyN ZifyNat.
From S2P Require Import Prelude RustStr.

(** [str::split] by a predicate: never empty. *)
Fixpoint split_chars (p : N -> bool) (l : list N) : list (list N) :=
  match l with
  | [] => [[]]
  | c :: l =>
    if p c then [] :: split_chars p l
    else match split_chars p l with [] => [[c]] | x :: r => (c :: x) :: r end
  end.

(** [str::split_whitespace]. *)
Definition split_whitespace (l : list N) : list (list N) :=
  filter (fun w => w <> []) (split_chars is_whitespace l).

Definition strip_return (l : list N) : list N :=
  match reverse l with c :: r => if (c =? 13)%N then reverse r else l | [] => [] end.

(** [str::lines]: a final newline opens no line, and a carriage return before the
    end of the text ends none. *)
Definition str_lines (l : list N) : list (list N) :=
  let pieces := split_chars (N.eqb 10) l in
  (strip_return <$> removelast pieces)
  ++ match last pieces with Some [] | None => [] | Some rest => [rest] end.

Fixpoint join_words (l : list (list N)) : list N :=
  match l with [] => [] | [w] => w | w :: l => w ++ 32%N :: join_words l end.

Definition title_mark (c : N) : bool := bool_decide (c ∈ [34; 39; 96; 35; 42; 95; 91; 93]%N).
Definition title_end (c : N) : bool := bool_decide (c ∈ [46; 44; 58; 59; 33; 63; 45; 8212]%N).

(** [str::trim_end_matches]. *)
Definition trim_end_chars (p : N -> bool) (l : list N) : list N := reverse (drop_while p (reverse l)).

Definition first_line (prompt : string) : list N :=
  default [] (List.find (fun l => negb (bool_decide (trim_chars is_whitespace l = [])))
                (str_lines (chars prompt))).

Definition title_words (prompt : string) : list (list N) :=
  take 8 (split_whitespace (trim_chars title_mark (trim_chars is_whitespace
    (filter (fun c => is_control c = false) (first_line prompt))))).

Definition cut_title (title : string) : string :=
  str_take (floor_boundary title (Nat.min (length (bytes title)) 80)) title.

Definition finish_title (l : list N) : list N :=
  trim_chars is_whitespace (trim_end_chars title_end (trim_chars is_whitespace l)).

Definition session_title (prompt : string) : string :=
  let title := cut_title (utf8_encode (join_words (title_words prompt))) in
  match finish_title (chars title) with [] => "Conversation" | l => utf8_encode l end.

(** ** Words *)

Fixpoint words_from (inside : bool) (l : list N) : nat :=
  match l with
  | [] => 0
  | c :: l => if is_whitespace c then words_from false l
              else (if inside then 0 else 1) + words_from true l
  end.

Lemma split_words l :
  length (split_whitespace l) = words_from false l /\
  length (filter (fun w => w <> []) (tail (split_chars is_whitespace l))) = words_from true l /\
  split_chars is_whitespace l <> [].
Proof.
  unfold split_whitespace. induction l as [|c l (H1 & H2 & H3)]; [by split_and!|]. cbn [split_chars words_from].
  destruct (is_whitespace c).
  - rewrite filter_cons, decide_False by auto. by cbn [tail].
  - destruct (split_chars is_whitespace l) as [|x r]; [done|]. cbn [tail] in *.
    rewrite filter_cons, decide_True by done. cbn [length]. by rewrite H2.
Qed.

Lemma words_inside l : words_from true l <= words_from false l <= S (words_from true l).
Proof. induction l as [|c l IH]; cbn [words_from]; [lia|]. destruct (is_whitespace c); lia. Qed.

Lemma words_prefix x y : forall b, words_from b x <= words_from b (x ++ y).
Proof.
  induction x as [|c x IH]; intros b; cbn [app words_from]; [lia|].
  destruct (is_whitespace c); [apply IH|]. pose proof (IH true). lia.
Qed.

Lemma words_suffix x y : words_from false y <= words_from false (x ++ y).
Proof.
  induction x as [|c x IH]; [done|]. cbn [app words_from]. destruct (is_whitespace c); [done|].
  pose proof (words_inside (x ++ y)). lia.
Qed.

Lemma words_app_space w l :
  Forall (fun c => is_whitespace c = false) w -> forall b,
  words_from b (w ++ 32%N :: l) = words_from b w + words_from false l.
Proof.
  induction 1 as [|c w Hc _ IH]; intros b; cbn [app words_from]; [done|]. rewrite Hc, IH. lia.
Qed.

Lemma words_one w : Forall (fun c => is_whitespace c = false) w -> words_from true w = 0.
Proof. induction 1 as [|c w Hc _ IH]; cbn [words_from]; [done|]. by rewrite Hc. Qed.

Lemma words_join l :
  Forall (Forall (fun c => is_whitespace c = false)) l -> words_from false (join_words l) <= length l.
Proof.
  induction 1 as [|w l Hw Hl IH]; [done|]. cbn [join_words length]. pose proof (words_inside w).
  rewrite words_one in H by done.
  destruct l as [|w' l]; [lia|]. rewrite words_app_space by done. lia.
Qed.

Lemma split_chars_free p l : Forall (Forall (fun c => p c = false)) (split_chars p l).
Proof.
  induction l as [|c l IH]; cbn [split_chars]; [by repeat constructor|].
  destruct (p c) eqn:Hc; [by constructor|]. destruct (split_chars p l); [by repeat constructor|].
  apply Forall_cons in IH as [H1 H2]. by repeat constructor.
Qed.

Lemma split_chars_from (P : N -> Prop) p l : Forall P l -> Forall (Forall P) (split_chars p l).
Proof.
  induction 1 as [|c l Hc _ IH]; cbn [split_chars]; [by repeat constructor|].
  destruct (p c); [by constructor|]. destruct (split_chars p l); [by repeat constructor|].
  apply Forall_cons in IH as [H1 H2]. by repeat constructor.
Qed.

(** ** Parts of a list of characters *)

Definition slice_of (l' l : list N) : Prop := exists a b, l = a ++ l' ++ b.

#[local] Instance slice_trans : Transitive slice_of.
Proof. intros x y z (a & b & ->) (a' & b' & ->). exists (a' ++ a), (b ++ b'). by rewrite <- !app_assoc. Qed.

Lemma drop_while_suffix p l : exists a, l = a ++ drop_while p l.
Proof.
  induction l as [|c l [a IH]]; cbn [drop_while]; [by exists []|].
  destruct (p c); [exists (c :: a); cbn; by f_equal|by exists []].
Qed.

Lemma trim_end_slice p l : slice_of (trim_end_chars p l) l.
Proof.
  unfold trim_end_chars. destruct (drop_while_suffix p (reverse l)) as [a Ha]. exists [], (reverse a).
  apply (f_equal reverse) in Ha. by rewrite reverse_involutive, reverse_app in Ha.
Qed.

Lemma trim_slice p l : slice_of (trim_chars p l) l.
Proof.
  transitivity (drop_while p l); [apply trim_end_slice|].
  destruct (drop_while_suffix p l) as [a Ha]. exists a, []. by rewrite app_nil_r.
Qed.

Lemma slice_words l' l : slice_of l' l -> words_from false l' <= words_from false l.
Proof. intros (a & b & ->). etransitivity; [apply words_prefix|apply words_suffix]. Qed.

Lemma slice_Forall (P : N -> Prop) l' l : slice_of l' l -> Forall P l -> Forall P l'.
Proof. intros (a & b & ->) [_ [H _]%Forall_app]%Forall_app. done. Qed.

Lemma finish_slice l : slice_of (finish_title l) l.
Proof. unfold finish_title. etransitivity; [apply trim_slice|]. etransitivity; [apply trim_end_slice|apply trim_slice]. Qed.

(** ** Titles *)

(** A label: some characters, on one line, at most eight words. *)
Definition label (l : list N) : Prop :=
  Forall scalar l /\ Forall (fun c => is_control c = false) l /\ words_from false l <= 8.

Lemma slice_label l' l : slice_of l' l -> label l -> label l'.
Proof.
  intros Hs (H1 & H2 & H3). split_and!; [by eapply slice_Forall..|].
  etransitivity; [by apply slice_words|done].
Qed.

Lemma join_words_Forall (P : N -> Prop) l : P 32%N -> Forall (Forall P) l -> Forall P (join_words l).
Proof.
  intros Hs. induction 1 as [|w l Hw Hl IH]; [done|]. cbn [join_words].
  destruct l; [done|]. apply Forall_app. split; [done|]. by constructor.
Qed.

Lemma filter_Forall {A} (P Q : A -> Prop) `{!forall x, Decision (Q x)} l : Forall P l -> Forall P (filter Q l).
Proof. intros Hl. rewrite Forall_forall in Hl |- *. intros x [_ Hx]%list_elem_of_filter. by apply Hl. Qed.

Lemma lines_from (P : N -> Prop) l : Forall P l -> Forall (Forall P) (str_lines l).
Proof.
  intros Hl. unfold str_lines.
  assert (Hp : Forall (Forall P) (split_chars (N.eqb 10) l)) by (by apply split_chars_from).
  apply Forall_app. split.
  - apply Forall_fmap. rewrite removelast_firstn_len.
    eapply Forall_impl; [by apply Forall_take|]. intros x Hx. cbn. unfold strip_return.
    destruct (reverse x) as [|c r] eqn:Hr; [constructor|]. destruct (c =? 13)%N; [|done].
    apply (f_equal reverse) in Hr. rewrite reverse_involutive, reverse_cons in Hr. subst x.
    by apply Forall_app in Hx as [Hx _].
  - destruct (last _) as [[|c rest]|] eqn:E; [constructor| |constructor].
    apply last_Some in E as [l0 E]. rewrite E in Hp. by apply Forall_app in Hp as [_ Hp].
Qed.

Lemma title_words_label prompt : label (join_words (title_words prompt)).
Proof.
  assert (Hl : Forall scalar (first_line prompt)).
  { unfold first_line. destruct (List.find _ _) as [l|] eqn:Hf; [|constructor].
    apply List.find_some in Hf as [Hf _]. pose proof (lines_from scalar (chars prompt) (chars_scalar _)) as H.
    rewrite Forall_forall in H. apply H, list_elem_of_In, Hf. }
  unfold title_words. set (safe := filter _ (first_line prompt)).
  assert (Hs : Forall (fun c => scalar c /\ is_control c = false) safe).
  { apply Forall_forall. intros c [Hc Hin]%list_elem_of_filter. split; [|done].
    rewrite Forall_forall in Hl. by apply Hl. }
  set (line := trim_chars title_mark _).
  assert (Hline : Forall (fun c => scalar c /\ is_control c = false) line).
  { unfold line. do 2 (eapply slice_Forall; [apply trim_slice|]). exact Hs. }
  assert (Hw : Forall (Forall (fun c => scalar c /\ is_control c = false)) (take 8 (split_whitespace line))).
  { apply Forall_take. unfold split_whitespace. apply filter_Forall. by apply split_chars_from. }
  assert (Hj : Forall (fun c => scalar c /\ is_control c = false) (join_words (take 8 (split_whitespace line)))).
  { apply join_words_Forall; [|done]. split; [|done]. unfold scalar. lia. }
  split_and!; [by eapply Forall_impl; [exact Hj|]; intros ? [? ?]..|].
  etransitivity; [apply words_join|rewrite length_take; lia].
  apply Forall_take. unfold split_whitespace. apply filter_Forall, split_chars_free.
Qed.

Lemma bytes_encode l : Forall scalar l -> bytes (utf8_encode l) = mjoin (encode_char <$> l).
Proof.
  intros H. apply bytes_of_bytes. induction H as [|c l Hc _ IH]; [done|]. cbn.
  apply Forall_app. by split; [apply encode_char_bytes|].
Qed.

Lemma slice_bytes l' l :
  slice_of l' l -> Forall scalar l ->
  (length (bytes (utf8_encode l')) <= length (bytes (utf8_encode l)))%nat.
Proof.
  intros Hs H. pose proof (slice_Forall _ _ _ Hs H). rewrite !bytes_encode by done.
  destruct Hs as (a & b & ->). rewrite !fmap_app, !join_app, !length_app. lia.
Qed.

Lemma cut_title_label title :
  valid_utf8 title = true -> label (chars title) ->
  valid_utf8 (cut_title title) = true /\ label (chars (cut_title title)) /\
  (length (bytes (cut_title title)) <= 80)%nat.
Proof.
  intros Hv Hl. unfold cut_title. set (n := Nat.min _ 80).
  destruct (floor_boundary_spec title n) as (H1 & H2 & _).
  unfold valid_utf8 in Hv. destruct (utf8_decode title) as [cs|] eqn:Hd; [|done].
  destruct (boundary_split title cs (floor_boundary title n) Hd ltac:(lia) H2) as (k & Hk & _).
  split_and!.
  - unfold valid_utf8. by rewrite Hk.
  - unfold chars in *. rewrite Hk, Hd in *. cbn in *. eapply slice_label; [|exact Hl]. exists [], (drop k cs).
    by rewrite take_drop.
  - rewrite bytes_str_take, length_take. lia.
Qed.

(** A title is a label of one to eighty bytes, whatever it is derived from: text
    without control characters, at most eight words. *)
Theorem session_title_ok prompt :
  let title := session_title prompt in
  valid_utf8 title = true /\ (0 < len title <= 80)%Z /\
  Forall (fun c => is_control c = false) (chars title) /\
  length (split_whitespace (chars title)) <= 8.
Proof.
  cbv zeta. unfold session_title. set (whole := utf8_encode _).
  pose proof (title_words_label prompt) as Hw.
  assert (Hv : valid_utf8 whole = true).
  { unfold valid_utf8, whole. by rewrite utf8_decode_encode by apply Hw. }
  assert (Hc : label (chars whole)) by (unfold whole; by rewrite chars_encode by apply Hw).
  destruct (cut_title_label whole Hv Hc) as (Hv' & Hc' & Hn).
  pose proof (finish_slice (chars (cut_title whole))) as Hs.
  pose proof (slice_label _ _ Hs Hc') as (H1 & H2 & H3).
  pose proof (slice_bytes _ _ Hs (proj1 Hc')) as Hb.
  unfold valid_utf8 in Hv'. destruct (utf8_decode (cut_title whole)) as [cs|] eqn:Hd; [|done].
  destruct (utf8_encode_decode _ _ Hd) as [He _].
  assert (Hcs : chars (cut_title whole) = cs) by (unfold chars; by rewrite Hd). rewrite Hcs in *.
  rewrite He in Hb. destruct (finish_title cs) as [|c l]; [split_and!; vm_compute; repeat constructor; by intros|].
  rewrite chars_encode, (proj1 (split_words (c :: l))) by done. split_and!; [| | |done|done].
  - unfold valid_utf8. by rewrite utf8_decode_encode.
  - apply Forall_cons in H1 as [Hs1 Hs2]. rewrite len_bytes, bytes_encode by (by constructor).
    destruct (encode_char_shape c Hs1) as (x & y & E & _). cbn. rewrite E. cbn [app length]. lia.
  - rewrite len_bytes. lia.
Qed.

Example title_example :
  session_title ("  # Fix the parser: it loops on `#` comments for ever and ever." +:+ newline +:+ "Please.")
  = "Fix the parser: it loops on `#` comments".
Proof. by vm_compute. Qed.
