(* ===== verification/Disk.v ===== *)
(** [std::fs] on Linux, as the workspace uses it: a disk is a finite map from
    canonical names to nodes, a path is resolved through its directories and
    symbolic links, and a call may fail at any moment.

    Before a call takes effect, other processes may have changed the disk, and the
    system may refuse the call: that is its [Event].  Permissions are the bits
    [chmod] sets; a call they forbid is one that fails.  [Uuid::new_v4] is a stream. *)

From stdpp Require Import base gmap strings list.
From Stdlib Require Import ZArith NArith Lia ZifyBool ZifyN ZifyNat.
From S2P Require Import Prelude RustStr Paths.

Local Open Scope Z_scope.

Inductive Node : Type :=
| NFile (data : list N) (mode : Z)
| NDir
| NLink (target : Path)
| NSpecial.

(** Names from the root, whose own entry is implicit. *)
Abbreviation Key := (list string).
Abbreviation Disk := (gmap Key Node).

Definition node (d : Disk) (k : Key) : option Node :=
  match k with [] => Some NDir | _ => d !! k end.

#[export] Instance Normal_inj : Inj eq eq Normal.
Proof. by intros ? ? [=]. Qed.

Definition of_key (k : Key) : Path := {| absolute := true; comps := Normal <$> k |}.

Definition ENOENT : string := "No such file or directory (os error 2)".
Definition EEXIST : string := "File exists (os error 17)".
Definition ENOTDIR : string := "Not a directory (os error 20)".
Definition EISDIR : string := "Is a directory (os error 21)".
Definition EINVAL : string := "Invalid argument (os error 22)".
Definition ENOTEMPTY : string := "Directory not empty (os error 39)".
Definition ELOOP : string := "Too many levels of symbolic links (os error 40)".

(** ** Resolution *)

(** The kernel follows at most forty links. *)
Definition MAX_LINKS : nat := 40.

Fixpoint walk (links : nat) (d : Disk) : Key -> list component -> result string Key :=
  fix go (cur : Key) (todo : list component) : result string Key :=
  match todo with
  | [] => Ok cur
  | CurDir :: rest => go cur rest
  | ParentDir :: rest => go (removelast cur) rest
  | Normal s :: rest =>
    match node d (cur ++ [s]) with
    | None => Err ENOENT
    | Some (NLink target) =>
      match links with
      | O => Err ELOOP
      | S links => walk links d (if absolute target then [] else cur) (comps target ++ rest)
      end
    | Some NDir => go (cur ++ [s]) rest
    | Some _ => match rest with [] => Ok (cur ++ [s]) | _ => Err ENOTDIR end
    end
  end.

(** The state a process sees.  [ev_moves]: where the file that was at a key is after the
    change, if it has a name still; open files follow it. *)
Record Event : Type := {
  ev_change : Disk -> Disk;
  ev_moves : Key -> option Key;
  ev_fault : option string;
  ev_written : nat
}.
Record Fs : Type := {
  fs_disk : Disk;
  fs_cwd : Key;
  fs_umask : Z;
  fs_agenda : list Event;
  fs_uuid : nat -> string;
  fs_drawn : nat
}.

Definition with_disk (w : Fs) (d : Disk) : Fs :=
  {| fs_disk := d; fs_cwd := fs_cwd w; fs_umask := fs_umask w; fs_agenda := fs_agenda w;
     fs_uuid := fs_uuid w; fs_drawn := fs_drawn w |}.
Definition with_agenda (w : Fs) (l : list Event) : Fs :=
  {| fs_disk := fs_disk w; fs_cwd := fs_cwd w; fs_umask := fs_umask w; fs_agenda := l;
     fs_uuid := fs_uuid w; fs_drawn := fs_drawn w |}.
Definition with_drawn (w : Fs) (n : nat) : Fs :=
  {| fs_disk := fs_disk w; fs_cwd := fs_cwd w; fs_umask := fs_umask w; fs_agenda := fs_agenda w;
     fs_uuid := fs_uuid w; fs_drawn := n |}.

Definition start (w : Fs) (p : Path) : Key := if absolute p then [] else fs_cwd w.

(** [Path::canonicalize] and what [Path::exists] follows. *)
Definition resolve (w : Fs) (p : Path) : result string Key :=
  walk MAX_LINKS (fs_disk w) (start w p) (comps p).

Definition canonical (w : Fs) (p : Path) : result string Path := of_key <$> resolve w p.

Definition path_exists (w : Fs) (p : Path) : bool := is_ok (resolve w p).

Definition path_node (w : Fs) (p : Path) : option Node :=
  match resolve w p with Ok k => node (fs_disk w) k | Err _ => None end.

(** The entry a path names, its last link not followed. *)
Definition entry (w : Fs) (p : Path) : result string Key :=
  match last (comps p) with
  | Some (Normal s) =>
    dir ← walk MAX_LINKS (fs_disk w) (start w p) (removelast (comps p));
    match node (fs_disk w) dir with Some NDir => Ok (dir ++ [s]) | _ => Err ENOTDIR end
  | _ => resolve w p
  end.

(** [std::fs::symlink_metadata]. *)
Definition link_metadata (w : Fs) (p : Path) : result string Node :=
  k ← entry w p; ok_or (node (fs_disk w) k) ENOENT.

(** ** Calls *)

Definition next_event (w : Fs) : Fs * option Event :=
  match fs_agenda w with
  | [] => (w, None)
  | e :: l => (with_disk (with_agenda w l) (ev_change e (fs_disk w)), Some e)
  end.

Definition call {A} (f : Fs -> result string (Disk * A)) : M Fs string A := fun w =>
  match next_event w with
  | (w, Some {| ev_fault := Some m |}) => (w, Err m)
  | (w, _) => match f w with Ok (d, a) => (with_disk w d, Ok a) | Err m => (w, Err m) end
  end.

Definition below (k : Key) (k' : Key) : bool := bool_decide (k `prefix_of` k').

Definition is_node_dir (n : Node) : bool := match n with NDir => true | _ => false end.

(** The entries below [src], under [dst] instead of what was there. *)
Definition move_tree (src dst : Key) (d : Disk) : Disk :=
  list_to_map ((fun x : Key * Node => (if below src x.1 then dst ++ drop (length src) x.1 else x.1, x.2))
                 <$> List.filter (fun x : Key * Node => negb (bool_decide (x.1 = dst))) (map_to_list d)).

(** [std::fs::rename]. *)
Definition rename_keys (src dst : Key) (d : Disk) : result string Disk :=
  match node d src with
  | None => Err ENOENT
  | Some n =>
    if bool_decide (src = dst) then Ok d else
    match n, node d dst with
    | NDir, Some NDir =>
      if below src dst then Err EINVAL
      else if existsb (fun x => below dst x.1 && negb (bool_decide (x.1 = dst))) (map_to_list d)
      then Err ENOTEMPTY else Ok (move_tree src dst d)
    | NDir, Some _ => Err ENOTDIR
    | NDir, None => if below src dst then Err EINVAL else Ok (move_tree src dst d)
    | _, Some NDir => Err EISDIR
    | _, _ => Ok (<[dst := n]> (delete src d))
    end
  end.

Definition fs_rename (p q : Path) : M Fs string unit :=
  call (fun w => src ← entry w p; dst ← entry w q;
                 d ← rename_keys src dst (fs_disk w); Ok (d, tt)).

(** [std::fs::remove_file]. *)
Definition fs_remove_file (p : Path) : M Fs string unit :=
  call (fun w => k ← entry w p;
    match node (fs_disk w) k with
    | None => Err ENOENT
    | Some NDir => Err EISDIR
    | Some _ => Ok (delete k (fs_disk w), tt)
    end).

(** [OpenOptions::create_new]: the key stands for the open file. *)
Definition fs_create_new (p : Path) : M Fs string Key :=
  call (fun w => k ← entry w p;
    match node (fs_disk w) k with
    | Some _ => Err EEXIST
    | None => Ok (<[k := NFile [] (Z.land 438 (Z.lnot (fs_umask w)))]> (fs_disk w), k)
    end).

Definition append_to (k : Key) (data : list N) (d : Disk) : Disk :=
  match d !! k with Some (NFile old mode) => <[k := NFile (old ++ data) mode]> d | _ => d end.

(** [File::write_all]: a call that fails may have written a part. *)
Definition fs_write_all (k : Key) (data : list N) : M Fs string unit := fun w =>
  match next_event w with
  | (w, Some {| ev_fault := Some m; ev_written := n |}) =>
    (with_disk w (append_to k (take n data) (fs_disk w)), Err m)
  | (w, _) => (with_disk w (append_to k data (fs_disk w)), Ok tt)
  end.

Definition fs_sync_all (k : Key) : M Fs string unit := call (fun w => Ok (fs_disk w, tt)).

(** [std::fs::set_permissions]. *)
Definition fs_set_permissions (p : Path) (mode : Z) : M Fs string unit :=
  call (fun w => k ← resolve w p;
    Ok (match fs_disk w !! k with
        | Some (NFile data _) => <[k := NFile data mode]> (fs_disk w)
        | _ => fs_disk w
        end, tt)).

(** An open file: where it is now, and what it is now. *)
Record Handle : Type := { h_key : option Key; h_node : Node }.

(** [open] with [O_NOFOLLOW]. *)
Definition fs_open (p : Path) : M Fs string Handle :=
  call (fun w => k ← entry w p;
    match node (fs_disk w) k with
    | None => Err ENOENT
    | Some (NLink _) => Err ELOOP
    | Some n => Ok (fs_disk w, {| h_key := Some k; h_node := n |})
    end).

(** What other processes do to an open file when they change the disk to [d]: it moves, it
    loses its name, its contents change. *)
Definition moved (e : Event) (d : Disk) (h : Handle) : Handle :=
  match h_key h ≫= ev_moves e with
  | Some k => {| h_key := Some k; h_node := default (h_node h) (node d k) |}
  | None => {| h_key := None; h_node := h_node h |}
  end.

(** A call on an open file. *)
Definition on_handle {A} (f : Fs -> Handle -> result string A) (h : Handle) : M Fs string (Handle * A) := fun w =>
  match next_event w with
  | (w, None) => (w, a ← f w h; Ok (h, a))
  | (w, Some e) =>
    let h := moved e (fs_disk w) h in
    (w, match ev_fault e with Some m => Err m | None => a ← f w h; Ok (h, a) end)
  end.

(** What becomes of a disk and an open file through some events. *)
Fixpoint since (l : list Event) (d : Disk) (h : Handle) : Disk * Handle :=
  match l with
  | [] => (d, h)
  | e :: l => since l (ev_change e d) (moved e (ev_change e d) h)
  end.

(** [/proc/self/fd/N], canonicalized as one call: the path of the open file, resolved.
    A file that has lost its name is refused; the name [x (deleted)] that the system
    gives it, which another file may have, is not modelled. *)
Definition fs_real_path : Handle -> M Fs string (Handle * Path) :=
  on_handle (fun w h => match h_key h with Some k => canonical w (of_key k) | None => Err ENOENT end).

(** [File::metadata]. *)
Definition fs_metadata : Handle -> M Fs string (Handle * Node) := on_handle (fun _ h => Ok (h_node h)).

(** [File::read_to_end], as one call. *)
Definition fs_read_to_end : Handle -> M Fs string (Handle * list N) :=
  on_handle (fun _ h => match h_node h with NFile data _ => Ok data | _ => Err EISDIR end).

(** [Uuid::new_v4]. *)
Definition new_uuid {E} : M Fs E string := fun w =>
  (with_drawn w (S (fs_drawn w)), Ok (fs_uuid w (fs_drawn w))).

(** ** Resolved names *)

(** Every directory above, and including, [k] is one. *)
Definition chain (d : Disk) (k : Key) : Prop := forall k', k' `prefix_of` k -> node d k' = Some NDir.

Lemma prefix_of_snoc {A} (k' k : list A) x : k' `prefix_of` k ++ [x] -> k' `prefix_of` k \/ k' = k ++ [x].
Proof.
  intros [l E]. destruct l as [|y l _] using rev_ind; [right; by rewrite app_nil_r in E|].
  rewrite app_assoc in E. apply app_inj_tail in E as [-> _]. left. by exists l.
Qed.

Lemma chain_nil d : chain d [].
Proof. intros k' ->%prefix_nil_inv. done. Qed.

Lemma chain_snoc d k s : chain d k -> node d (k ++ [s]) = Some NDir -> chain d (k ++ [s]).
Proof. intros Hc Hs k' [H| ->]%prefix_of_snoc; [by apply Hc|done]. Qed.

Lemma chain_prefix d k k' : chain d k -> k' `prefix_of` k -> chain d k'.
Proof. intros Hc Hk k2 H. apply Hc. by etransitivity. Qed.

Lemma removelast_prefix {A} (k : list A) : removelast k `prefix_of` k.
Proof.
  destruct k as [|x k _] using rev_ind; [done|]. rewrite removelast_last. by apply prefix_app_r.
Qed.

Lemma chain_removelast d k : chain d k -> chain d (removelast k).
Proof. intros Hc. eapply chain_prefix; [done|apply removelast_prefix]. Qed.

Lemma chain_mono d d' k :
  (forall k', d !! k' = Some NDir -> d' !! k' = Some NDir) -> chain d k -> chain d' k.
Proof. intros Hd Hc k' Hk. specialize (Hc k' Hk). destruct k'; [done|]. by apply Hd. Qed.

Lemma node_snoc d k s : node d (k ++ [s]) = d !! (k ++ [s]).
Proof. by destruct k. Qed.

(** Names that resolve to themselves: directories, and their other entries. *)
Definition settled (d : Disk) (k : Key) : Prop :=
  chain d k \/
  exists dir s n, k = dir ++ [s] /\ chain d dir /\ d !! k = Some n /\ n <> NDir /\ forall p, n <> NLink p.

Lemma walk_settled d links : forall todo cur r,
  chain d cur -> walk links d cur todo = Ok r -> settled d r.
Proof.
  induction links as [links IH] using lt_wf_ind.
  induction todo as [|c todo IHt]; intros cur r Hc.
  { destruct links; intros [= <-]; by left. }
  destruct c as [s| |].
  - destruct (node d (cur ++ [s])) as [[data mode| |target|]|] eqn:Hn.
    + destruct links; cbn; rewrite Hn; (destruct todo; [|done]); intros [= <-]; right;
        rewrite node_snoc in Hn; (eexists _, _, _; split_and!; [done..|]; by intros ?).
    + assert (E : walk links d cur (Normal s :: todo) = walk links d (cur ++ [s]) todo)
        by (destruct links; cbn; by rewrite Hn).
      rewrite E. apply IHt. by apply chain_snoc.
    + destruct links as [|links]; cbn; rewrite Hn; [done|]. apply IH; [lia|].
      destruct (absolute target); [apply chain_nil|done].
    + destruct links; cbn; rewrite Hn; (destruct todo; [|done]); intros [= <-]; right;
        rewrite node_snoc in Hn; (eexists _, _, _; split_and!; [done..|]; by intros ?).
    + destruct links; cbn; by rewrite Hn.
  - assert (E : walk links d cur (ParentDir :: todo) = walk links d (removelast cur) todo) by (by destruct links).
    rewrite E. apply IHt. by apply chain_removelast.
  - assert (E : walk links d cur (CurDir :: todo) = walk links d cur todo) by (by destruct links).
    rewrite E. by apply IHt.
Qed.

Lemma walk_chain d links : forall rest cur,
  chain d (cur ++ rest) -> walk links d cur (Normal <$> rest) = Ok (cur ++ rest).
Proof.
  induction rest as [|s rest IH]; intros cur Hc.
  { rewrite app_nil_r. by destruct links. }
  assert (Hn : node d (cur ++ [s]) = Some NDir).
  { apply Hc. apply prefix_app, prefix_cons, prefix_nil. }
  replace (cur ++ s :: rest) with ((cur ++ [s]) ++ rest) in * by (by rewrite <- app_assoc).
  rewrite <- (IH (cur ++ [s])) by done. destruct links; cbn; by rewrite Hn.
Qed.

(** Directories are walked through. *)
Lemma walk_through links d todo cur rest : chain d (cur ++ rest) ->
  walk links d cur ((Normal <$> rest) ++ todo) = walk links d (cur ++ rest) todo.
Proof.
  revert cur. induction rest as [|x rest IH]; intros cur H; [by rewrite app_nil_r|].
  assert (Hx : node d (cur ++ [x]) = Some NDir).
  { apply H. apply prefix_app, prefix_cons, prefix_nil. }
  replace (cur ++ x :: rest) with ((cur ++ [x]) ++ rest) in * by (by rewrite <- app_assoc).
  rewrite <- (IH (cur ++ [x])) by done. destruct links; cbn; by rewrite Hx.
Qed.

Lemma of_key_snoc k s : comps (of_key (k ++ [s])) = (Normal <$> k) ++ [Normal s].
Proof. cbn. by rewrite fmap_app. Qed.

Lemma entry_of_key w dir s : chain (fs_disk w) dir -> entry w (of_key (dir ++ [s])) = Ok (dir ++ [s]).
Proof.
  intros Hc. unfold entry. rewrite of_key_snoc, last_snoc, removelast_last.
  change (start w (of_key (dir ++ [s]))) with (@nil string).
  rewrite walk_chain by done. cbn. by rewrite (Hc dir).
Qed.

Lemma resolve_of_key w k : settled (fs_disk w) k -> resolve w (of_key k) = Ok k.
Proof.
  intros [Hc|(dir & s & n & -> & Hc & Hn & Hd & Hl)]; unfold resolve.
  - by apply (walk_chain _ _ k []).
  - rewrite of_key_snoc. change (start w (of_key (dir ++ [s]))) with (@nil string).
    rewrite (walk_through _ _ [Normal s] [] dir) by done. cbn [app]. unfold MAX_LINKS. cbn. rewrite node_snoc, Hn. destruct n as [| |p|]; try done. by destruct (Hl p).
Qed.

Lemma path_of_key_starts k root : path_starts_with (of_key k) (of_key root) = true -> root `prefix_of` k.
Proof.
  intros (_ & rest & E)%path_starts_with_spec. cbn in E.
  apply fmap_app_inv in E as (a & b & Ha & _ & ->). apply (inj (fmap Normal)) in Ha as ->. by exists b.
Qed.

(** ** Open files *)

Lemma since_app l1 : forall l2 d h, since (l1 ++ l2) d h = let '(d, h) := since l1 d h in since l2 d h.
Proof. induction l1 as [|e l1 IH]; intros l2 d h; [done|]. cbn. apply IH. Qed.

(** Each call sees the file as the events since the last one left it. *)
Lemma on_handle_Ok {A} (f : Fs -> Handle -> result string A) h w w' h' a :
  on_handle f h w = (w', Ok (h', a)) ->
  exists l, fs_agenda w = l ++ fs_agenda w' /\ since l (fs_disk w) h = (fs_disk w', h') /\ f w' h' = Ok a.
Proof.
  unfold on_handle, next_event. destruct (fs_agenda w) as [|e l] eqn:El.
  - destruct (f w h) as [a'|m] eqn:Ef; [|done]. intros [= <- <- <-]. exists []. split_and!; [by rewrite El|done..].
  - destruct (ev_fault e); [done|].
    destruct (f _ _) as [a'|m] eqn:Ef; [|done]. intros [= <- <- <-]. by exists [e].
Qed.

Lemma settled_node d k : settled d k -> is_Some (node d k).
Proof.
  intros [Hc|(dir & s & n & -> & _ & Hn & _)]; [exists NDir; by apply Hc|]. exists n. by rewrite node_snoc.
Qed.

(** A name of an open file that resolves to itself shows the file. *)
Lemma on_handle_shown {A} (f : Fs -> Handle -> result string A) h w w' h' a k :
  (forall k0, h_key h = Some k0 -> node (fs_disk w) k0 = Some (h_node h)) ->
  on_handle f h w = (w', Ok (h', a)) -> h_key h' = Some k -> settled (fs_disk w') k ->
  node (fs_disk w') k = Some (h_node h').
Proof.
  intros H0 (l & _ & Hs & _)%on_handle_Ok Hk Hset. destruct (settled_node _ _ Hset) as [n Hn].
  destruct l as [|e l] using rev_ind; [injection Hs as Hd <-; rewrite <- Hd; by apply H0|clear IHl].
  rewrite since_app in Hs. destruct (since l _ _) as [d h1]. cbn in Hs. injection Hs as Hd Hh. rewrite Hd in Hh.
  unfold moved in Hh. destruct (h_key h1 ≫= ev_moves e) as [k1|]; subst h'; [|done].
  cbn in *. injection Hk as ->. by rewrite Hn.
Qed.

Lemma fs_open_shown p w w' h k :
  fs_open p w = (w', Ok h) -> h_key h = Some k -> node (fs_disk w') k = Some (h_node h).
Proof.
  unfold fs_open, call. destruct (next_event w) as [w1 o].
  assert (Hf : forall w2, (let f w := k ← entry w p; match node (fs_disk w) k with None => Err ENOENT
      | Some (NLink _) => Err ELOOP | Some n => Ok (fs_disk w, {| h_key := Some k; h_node := n |}) end in
      match f w2 with Ok (d, a) => (with_disk w2 d, Ok a) | Err m => (w2, Err m) end) = (w', Ok h) ->
    h_key h = Some k -> node (fs_disk w') k = Some (h_node h)).
  { intros w2. cbn beta zeta. destruct (entry w2 p) as [k0|]; [|done]. cbn.
    destruct (node (fs_disk w2) k0) as [n|] eqn:En; [|done]. destruct n; intros [= <- <-] [= <-]; done. }
  destruct o as [[c mv [m|] num]|]; [done|by apply (Hf w1)..].
Qed.
