(* ===== verification/Workspace.v ===== *)
(** The workspace (apps/axiomcli/src/workspace.rs, [Workspace]): paths confined to
    its root, bounded reads and searches, and patches applied as transactions.

    Files are those of [Disk].  Third-party code is an argument: [LineDiff] is the
    [similar] crate, [Walker] the [ignore] and [globset] crates; [KeyDigest] has
    SHA-256.  Calls are those of the Linux build. *)

From stdpp Require Import base gmap strings list sorting.
From Stdlib Require Import ZArith NArith Lia ZifyBool ZifyN ZifyNat.
From S2P Require Import Prelude RustStr Accounting Paths AppError Disk Lease Models.

Local Open Scope Z_scope.

Inductive ChangeTag : Type := TagEqual | TagDelete | TagInsert.

Class LineDiff : Type := { line_changes : string -> string -> list (ChangeTag * string) }.

(** Relative to the disk: the entries below a directory, ignored ones included or
    not, with their paths and the metadata of those that have one (a file, its
    size); the matcher of a pattern. *)
Class Walker : Type := {
  walk_tree : Disk -> Path -> bool -> list (Path * option (bool * Z));
  read_dir : Disk -> Key -> list string;
  glob_matcher : string -> result string (Path -> bool);
  to_lowercase : string -> string
}.

Record FileRead : Type := {
  fr_path : Path; fr_content : string; fr_start_line : Z; fr_end_line : Z;
  fr_sha256 : string; fr_truncated : bool; fr_size_bytes : Z
}.

Record ContextRange : Type := {
  cr_path : Path; cr_start_line : Z; cr_end_line : Z; cr_content : string;
  cr_sha256 : string; cr_score : Z
}.

Record PatchOutcome : Type := {
  po_path : Path; po_old_sha256 : option string; po_new_sha256 : string; po_diff : string
}.

Inductive EditIntent : Type :=
| EditCreate (path : Path) (content : string) (mode : option Z)
| EditUpdate (path : Path) (expected_sha256 content : string) (preserve_line_endings : bool)
| EditDelete (path : Path) (expected_sha256 : string).

Record StructuredEditOutcome : Type := {
  seo_operation : string; seo_path : Path;
  seo_old_sha256 : option string; seo_new_sha256 : option string
}.

Record PatchTransactionOutcome : Type := {
  pto_edits : list StructuredEditOutcome; pto_changed_paths : list Path;
  pto_diff : string; pto_diff_truncated : bool; pto_warnings : list string
}.

Inductive PreparedOperation : Type := OpCreate | OpUpdate | OpDelete.

Record PreparedEdit : Type := {
  pe_operation : PreparedOperation; pe_path : Path; pe_relative : Path;
  pe_expected : option string; pe_old : option string; pe_new : option string;
  pe_staged : option Path; pe_backup : option Path; pe_installed : bool; pe_diff : string
}.

#[export] Instance PreparedOperation_eq_dec : EqDecision PreparedOperation.
Proof. solve_decision. Defined.

Definition tool_error {A} (s : string) : result AxiomError A := Err (ToolError s).

(** The [?] on a call of the file system. *)
Definition io {A} (m : M Fs string A) : M Fs AxiomError A := fun w =>
  let '(w, r) := m w in (w, map_err IoError r).

(** ** Text *)

(** [truncate_utf8]: the text, and whether it was cut. *)
Definition truncate_utf8 (input : string) (max_bytes : Z) : string * bool :=
  if len input <=? max_bytes then (input, false)
  else (str_take (floor_boundary input (Z.to_nat max_bytes)) input, true).

Fixpoint count_crlf (s : string) : nat :=
  match s with
  | String a (String b _ as s') =>
    (if (byte_val a =? 13)%N && (byte_val b =? 10)%N then 1 else 0) + count_crlf s'
  | _ => 0
  end%nat.

Definition count_byte (b : N) (s : string) : nat := length (List.filter (N.eqb b) (bytes s)).

(** [new.replace("\r\n", "\n")]. *)
Fixpoint crlf_to_lf (s : string) : string :=
  match s with
  | String a s' =>
    match s' with
    | String b s'' =>
      if (byte_val a =? 13)%N && (byte_val b =? 10)%N then String b (crlf_to_lf s'')
      else String a (crlf_to_lf s')
    | EmptyString => String a EmptyString
    end
  | EmptyString => EmptyString
  end.

(** [.replace('\n', "\r\n")]. *)
Fixpoint lf_to_crlf (s : string) : string :=
  match s with
  | String a s =>
    if (byte_val a =? 10)%N then String (byte_of 13) (String a (lf_to_crlf s)) else String a (lf_to_crlf s)
  | EmptyString => EmptyString
  end.

Definition preserve_newlines (old new : string) : string :=
  if (0 <? count_crlf old)%nat && (count_crlf old =? count_byte 10 old)%nat
  then lf_to_crlf (crlf_to_lf new) else new.

(** [old_content.matches(old).count()], for a non-empty pattern. *)
Fixpoint count_matches (fuel : nat) (p s : string) : nat :=
  match fuel with
  | O => O
  | S fuel => match split_once p s with Some (_, rest) => S (count_matches fuel p rest) | None => O end
  end.
Definition matches (p s : string) : nat := count_matches (S (String.length s)) p s.

(** [old_content.replacen(old, new, 1)]. *)
Definition replace_first (p new s : string) : string :=
  match split_once p s with Some (l, r) => l +:+ new +:+ r | None => s end.

Definition looks_binary (bytes : list N) : bool :=
  bool_decide (0%N ∈ bytes)
  || (negb (bool_decide (bytes = []))
      && (Z.of_nat (length bytes)
          <? 20 * Z.of_nat (length (List.filter (fun b => ((b <? 32) || (b =? 127))%N
                                     && negb ((b =? 10) || (b =? 13) || (b =? 9))%N) bytes)))).

Definition with_file_name (p : Path) (name : string) : Path :=
  {| absolute := absolute p;
     comps := (match file_name p with Some _ => removelast (comps p) | None => comps p end) ++ [Normal name] |}.

Definition artifact_name (stem purpose uuid : string) : string :=
  "." +:+ stem +:+ ".axiomcli-" +:+ purpose +:+ "-" +:+ uuid.

Definition sibling_artifact {E} (p : Path) (purpose : string) : M Fs E Path :=
  uuid ← new_uuid; mret (with_file_name p (artifact_name (default "edit" (file_name p)) purpose uuid)).

Definition ensure_patch_content_budget (bytes max_bytes : Z) : result AxiomError unit :=
  reject_if (max_bytes <? bytes)
    (ToolError ("patch content exceeds the " +:+ to_decimal max_bytes +:+ "-byte transaction budget")).

Definition MAX_EDITS : Z := 100.
Definition MAX_CONTENT_BYTES : Z := 8 * 1024 * 1024.
Definition MAX_INSPECT_BYTES : Z := 8 * 1024 * 1024.

Section Workspace.
Context `{KD : KeyDigest} `{LD : LineDiff} `{WK : Walker}.
Variable root : Path.

Definition digest (data : list N) : string := sha256_hex data.

Definition mark (t : ChangeTag) : string :=
  match t with TagDelete => "-" | TagInsert => "+" | TagEqual => " " end.

Definition unified_diff (old new : string) : string :=
  foldr (fun x text => mark x.1 +:+ x.2 +:+ text) EmptyString (line_changes old new).

Definition file_diff (p : Path) (old new : option string) : string :=
  "--- " +:+ match old with Some _ => "a/" +:+ path_display p | None => "/dev/null" end
  +:+ newline +:+ "+++ " +:+ match new with Some _ => "b/" +:+ path_display p | None => "/dev/null" end
  +:+ newline +:+ unified_diff (default EmptyString old) (default EmptyString new).

(** ** Paths *)

Definition candidate (input : Path) : result AxiomError Path :=
  if existsb (fun c => bool_decide (c = ParentDir)) (comps input) then Err (OutsideWorkspace input)
  else Ok (path_join root input).

Definition ensure_inside (p : Path) : result AxiomError Path :=
  if path_starts_with p root then Ok p else Err (OutsideWorkspace p).

(** [path.strip_prefix(&self.root).unwrap_or(path)]. *)
Definition relative (p : Path) : Path :=
  if path_starts_with p root
  then {| absolute := false; comps := drop (length (comps root)) (comps p) |} else p.

Definition resolve_existing (w : Fs) (input : Path) : result AxiomError Path :=
  c ← candidate input; p ← map_err IoError (canonical w c); ensure_inside p.

Definition resolve_for_write (w : Fs) (input : Path) : result AxiomError Path :=
  c ← candidate input;
  if path_exists w c then resolve_existing w c else
  up ← ok_or (parent c) (OutsideWorkspace c);
  up ← map_err IoError (canonical w up);
  up ← ensure_inside up;
  name ← ok_or (file_name c) (OutsideWorkspace c);
  Ok (path_push up name).

(** ** Files *)

(** [open_verified]: the file that was opened is inside, whatever the path. *)
Definition open_verified (p : Path) : M Fs AxiomError Handle :=
  file ← io (fs_open p);
  x ← io (fs_real_path file);
  if path_starts_with x.2 root then mret x.1 else throw (OutsideWorkspace x.2).

(** The bytes and permissions of a regular file within the budget. *)
Definition read_edit_target (p : Path) (max_bytes : Z) : M Fs AxiomError (list N * Z) :=
  file ← open_verified p;
  x ← io (fs_metadata file);
  match x.2 with
  | NFile now mode =>
    if max_bytes <? Z.of_nat (length now)
    then throw (ToolError ("edit target exceeds the " +:+ to_decimal max_bytes
                           +:+ "-byte transaction budget: " +:+ path_display p))
    else y ← io (fs_read_to_end x.1); mret (y.2, mode)
  | _ => throw (ToolError ("edit target is not a regular file: " +:+ path_display p))
  end.

Definition without_bom (data : list N) : list N :=
  match data with 239 :: 187 :: 191 :: rest => rest | _ => data end%N.

Definition read (input : Path) (start_line max_lines max_bytes : Z) : M Fs AxiomError FileRead :=
  w ← gets id;
  p ← lift (resolve_existing w input);
  file ← open_verified p;
  x ← io (fs_metadata file);
  match x.2 with
  | NFile now mode =>
    if MAX_INSPECT_BYTES <? Z.of_nat (length now)
    then throw (ToolError ("large file omitted: " +:+ path_display (relative p) +:+ " is "
      +:+ to_decimal (Z.of_nat (length now)) +:+ " bytes (limit " +:+ to_decimal MAX_INSPECT_BYTES
      +:+ "); inspect metadata or select a smaller source file"))
    else
    y ← io (fs_read_to_end x.1);
    let data := y.2 in
    if existsb (N.eqb 0) (take 8192 data)
    then throw (ToolError ("binary file cannot be read as text: " +:+ path_display (relative p)))
    else
    full ← lift (ok_or (from_utf8 (without_bom data))
                   (ToolError ("text file is not valid UTF-8: " +:+ path_display (relative p))));
    let start_line := Z.max start_line 1 in
    let l := take (Z.to_nat (saturating_add max_lines 1)) (drop (Z.to_nat (start_line - 1)) (lines full)) in
    let '(content, cut) := truncate_utf8 (join newline (take (Z.to_nat max_lines) l)) max_bytes in
    mret {| fr_path := relative p; fr_content := content; fr_start_line := start_line;
            fr_end_line := saturating_add start_line
                             (saturating_sub (Z.of_nat (length (lines content))) 1);
            fr_sha256 := digest data;
            fr_truncated := (max_lines <? Z.of_nat (length l)) || cut;
            fr_size_bytes := Z.of_nat (length now) |}
  | _ => throw (ToolError ("special file cannot be read: " +:+ path_display (relative p)))
  end.

(** ** Listing and searching *)

Definition list_entries (input : Path) (max_entries : Z) : M Fs AxiomError (list Path) := fun w =>
  (w, p ← resolve_existing w input;
      k ← map_err IoError (resolve w p);
      match node (fs_disk w) k with
      | Some NDir =>
        Ok (relative <$> sort_by path_leb
              (path_push p <$> take (Z.to_nat max_entries) (read_dir (fs_disk w) k)))
      | _ => Err (IoError ENOTDIR)
      end).

(** Not the root itself, and nothing below [.git]. *)
Definition glob_hit (matcher : Path -> bool) (p : Path) : bool :=
  negb (bool_decide (comps p = []))
  && negb (path_starts_with p {| absolute := false; comps := [Normal ".git"] |}) && matcher p.

(** The first hit is kept even when none is asked for. *)
Definition glob (pattern : string) (max_entries : Z) (include_ignored : bool)
    : M Fs AxiomError (list Path) := fun w =>
  (w, if is_blank pattern then tool_error "glob pattern cannot be empty" else
      matcher ← map_err (fun e => ToolError ("invalid glob pattern: " +:+ e)) (glob_matcher pattern);
      Ok (sort_by path_leb (take (Z.to_nat (Z.max max_entries 1))
            (List.filter (glob_hit matcher)
               (relative <$> (walk_tree (fs_disk w) root include_ignored).*1))))).

Definition readable_entry (limit : Z) (x : Path * option (bool * Z)) : bool :=
  match x.2 with Some (is_file, size) => is_file && (size <=? limit) | None => false end.

Definition numbered (l : list string) : list (Z * string) := imap (fun i s => (Z.of_nat i + 1, s)) l.

Definition line_hit (p : Path) (x : Z * string) : string :=
  path_display p +:+ ":" +:+ to_decimal x.1 +:+ ":" +:+ trim x.2.

(** [Err] of a read skips the file. *)
Definition attempt {S E A} (m : M S E A) : M S E (option A) := fun s =>
  let '(s, r) := m s in (s, Ok (ok r)).

Fixpoint search_entries (query : string) (max_matches max_file_bytes : Z)
    (l : list (Path * option (bool * Z))) (found : list string) : M Fs AxiomError (list string) :=
  match l with
  | [] => mret found
  | x :: l =>
    if max_matches <=? Z.of_nat (length found) then mret found else
    if negb (readable_entry max_file_bytes x)
    then search_entries query max_matches max_file_bytes l found else
    o ← attempt (read (relative x.1) 1 100000 max_file_bytes);
    match o with
    | None => search_entries query max_matches max_file_bytes l found
    | Some r =>
      let hits := line_hit (relative x.1)
                    <$> List.filter (fun y => contains query y.2) (numbered (lines (fr_content r))) in
      search_entries query max_matches max_file_bytes l
        (take (Z.to_nat max_matches) (found ++ hits))
    end
  end.

Definition search (query : string) (max_matches max_file_bytes : Z) : M Fs AxiomError (list string) :=
  if is_empty query then throw (ToolError "search query cannot be empty") else
  w ← gets id;
  search_entries query max_matches max_file_bytes (walk_tree (fs_disk w) root false) [].

(** *** Context *)

Definition slice {A} (start stop : nat) (l : list A) : list A := take (stop - start) (drop start l).

Definition hits (needle : string) (l : list string) : list nat :=
  omap (fun x : nat * string => if contains needle (to_lowercase x.2) then Some x.1 else None) (imap pair l).

Definition context_of (needle : string) (p : Path) (r : FileRead) : option ContextRange :=
  let l := lines (fr_content r) in
  match hits needle l, last (hits needle l) with
  | first :: _, Some final =>
    let start := (first - 3)%nat in
    let stop := Nat.min (final + 4) (length l) in
    let bonus := if contains needle (to_lowercase (path_display p)) then 25 else 0 in
    Some {| cr_path := p; cr_start_line := Z.of_nat start + 1; cr_end_line := Z.of_nat stop;
            cr_content := join newline (slice start stop l); cr_sha256 := fr_sha256 r;
            cr_score := saturating_add (Z.min (Z.of_nat (length (hits needle l)) * 10) U64_MAX) bonus |}
  | _, _ => None
  end.

Fixpoint context_candidates (needle : string) (l : list (Path * option (bool * Z)))
    : M Fs AxiomError (list ContextRange) :=
  match l with
  | [] => mret []
  | x :: l =>
    if negb (readable_entry (2 * 1024 * 1024) x) then context_candidates needle l else
    o ← attempt (read (relative x.1) 1 100000 (2 * 1024 * 1024));
    rest ← context_candidates needle l;
    mret (option_list (o ≫= context_of needle (relative x.1)) ++ rest)
  end.

Definition better_context (a b : ContextRange) : bool :=
  (cr_score b <? cr_score a)
  || ((cr_score a =? cr_score b) && path_leb (cr_path a) (cr_path b)).

Definition cut_context (c : ContextRange) (text : string) : ContextRange :=
  {| cr_path := cr_path c; cr_start_line := cr_start_line c;
     cr_end_line := saturating_add (cr_start_line c)
                      (saturating_sub (Z.of_nat (length (lines text))) 1);
     cr_content := text; cr_sha256 := cr_sha256 c; cr_score := cr_score c |}.

Fixpoint retain_contexts (max_bytes retained : Z) (l : list ContextRange) : list ContextRange :=
  match l with
  | [] => []
  | c :: l =>
    let remaining := saturating_sub max_bytes retained in
    if remaining =? 0 then [] else
    let '(text, cut) := truncate_utf8 (cr_content c) remaining in
    cut_context c text
    :: if (cut : bool) then [] else retain_contexts max_bytes (saturating_add retained (len text)) l
  end.

Definition select_context (query : string) (max_files max_bytes : Z)
    : M Fs AxiomError (list ContextRange) :=
  if is_blank query then throw (ToolError "context query cannot be empty") else
  w ← gets id;
  l ← context_candidates (to_lowercase query) (walk_tree (fs_disk w) root false);
  mret (retain_contexts max_bytes 0 (take (Z.to_nat max_files) (sort_by better_context l))).

(** ** Patches *)

(** [stage_content]: the new content beside its target. *)
Definition write_staged (staged : Path) (content : list N) (permissions mode : option Z) : M Fs AxiomError unit :=
  file ← io (fs_create_new staged);
  _ ← io (fs_write_all file content);
  _ ← io (fs_sync_all file);
  _ ← match permissions with Some p => io (fs_set_permissions staged p) | None => mret tt end;
  match mode with Some m => io (fs_set_permissions staged m) | None => mret tt end.

(** [let _ = remove_file(..)]. *)
Definition try_remove (p : Path) : M Fs AxiomError unit := fun w =>
  let '(w, _) := fs_remove_file p w in (w, Ok tt).

Definition write_or_remove (staged : Path) (content : list N) (permissions mode : option Z)
    : M Fs AxiomError Path := fun w =>
  match write_staged staged content permissions mode w with
  | (w, Ok _) => (w, Ok staged)
  | (w, Err e) => let '(w, _) := try_remove staged w in (w, Err e)
  end.

Definition stage_content (p : Path) (content : list N) (permissions mode : option Z)
    : M Fs AxiomError Path :=
  staged ← sibling_artifact p "stage"; write_or_remove staged content permissions mode.

Definition prepared (op : PreparedOperation) (p : Path) (expected old new : option string)
    (staged : option Path) (diff : string) : PreparedEdit :=
  {| pe_operation := op; pe_path := p; pe_relative := relative p; pe_expected := expected;
     pe_old := old; pe_new := new; pe_staged := staged; pe_backup := None;
     pe_installed := false; pe_diff := diff |}.

(** The old text of an edit that expects [expected], its digest and permissions. *)
Definition expected_target (p : Path) (expected what stale : string) : M Fs AxiomError (string * string * Z) :=
  x ← read_edit_target p MAX_CONTENT_BYTES;
  let old_sha256 := digest x.1 in
  if negb (bool_decide (expected = old_sha256))
  then throw (ToolError ("stale " +:+ stale +:+ ": expected " +:+ expected +:+ ", found " +:+ old_sha256))
  else
  text ← lift (ok_or (from_utf8 x.1)
                 (ToolError ("structured " +:+ what +:+ " require a UTF-8 target")));
  mret (text, old_sha256, x.2).

(** [prepare_edit]: the edit and the bytes the patch writes so far. *)
Definition prepare_create (p : Path) (content : string) (mode : option Z) (total : Z)
    : M Fs AxiomError (PreparedEdit * Z) :=
  if match mode with Some m => 511 <? m | None => false end
  then throw (ToolError "create mode must be between 0000 and 0777") else
  let total := saturating_add total (len content) in
  _ ← lift (ensure_patch_content_budget total MAX_CONTENT_BYTES);
  w ← gets id;
  p ← lift (resolve_for_write w p);
  if is_ok (link_metadata w p)
  then throw (ToolError ("create target already exists: " +:+ path_display (relative p))) else
  staged ← stage_content p (bytes content) None mode;
  mret (prepared OpCreate p None None (Some (digest (bytes content))) (Some staged)
          (file_diff (relative p) None (Some content)), total).

Definition prepare_update (p : Path) (expected content : string) (preserve : bool) (total : Z)
    : M Fs AxiomError (PreparedEdit * Z) :=
  w ← gets id;
  p ← lift (resolve_existing w p);
  x ← expected_target p expected "updates" "edit";
  let old_text := x.1.1 in
  let content := if preserve then preserve_newlines old_text content else content in
  let total := saturating_add total (len content) in
  _ ← lift (ensure_patch_content_budget total MAX_CONTENT_BYTES);
  staged ← stage_content p (bytes content) (Some x.2) None;
  mret (prepared OpUpdate p (Some expected) (Some x.1.2)
          (Some (digest (bytes content))) (Some staged)
          (file_diff (relative p) (Some old_text) (Some content)), total).

Definition prepare_delete (p : Path) (expected : string) (total : Z)
    : M Fs AxiomError (PreparedEdit * Z) :=
  w ← gets id;
  p ← lift (resolve_existing w p);
  x ← expected_target p expected "deletes" "delete";
  mret (prepared OpDelete p (Some expected) (Some x.1.2) None None
          (file_diff (relative p) (Some x.1.1) None), total).

Definition prepare_edit (e : EditIntent) (total : Z) : M Fs AxiomError (PreparedEdit * Z) :=
  match e with
  | EditCreate p content mode => prepare_create p content mode total
  | EditUpdate p expected content preserve => prepare_update p expected content preserve total
  | EditDelete p expected => prepare_delete p expected total
  end.

(** [cleanup_staged]. *)
Definition cleanup_staged (l : list PreparedEdit) : M Fs AxiomError unit :=
  iterM (fun e => match pe_staged e with Some p => try_remove p | None => mret tt end) l.

Definition discard {A} (l : list PreparedEdit) (e : AxiomError) : M Fs AxiomError A := fun w =>
  let '(w, _) := cleanup_staged l w in (w, Err e).

(** Every edit is prepared, and names another file, or what was staged goes. *)
Fixpoint prepare_all (l : list EditIntent) (acc : list PreparedEdit) (total : Z)
    : M Fs AxiomError (list PreparedEdit) :=
  match l with
  | [] => mret acc
  | e :: l => fun w =>
    match prepare_edit e total w with
    | (w, Err x) => discard acc x w
    | (w, Ok (item, total)) =>
      if bool_decide (pe_path item ∈ pe_path <$> acc)
      then discard (acc ++ [item])
             (ToolError ("patch contains duplicate target " +:+ path_display (pe_relative item))) w
      else prepare_all l (acc ++ [item]) total w
    end
  end.

Definition pe_with (e : PreparedEdit) (staged backup : option Path) (installed : bool) : PreparedEdit :=
  {| pe_operation := pe_operation e; pe_path := pe_path e; pe_relative := pe_relative e;
     pe_expected := pe_expected e; pe_old := pe_old e; pe_new := pe_new e; pe_staged := staged;
     pe_backup := backup; pe_installed := installed; pe_diff := pe_diff e |}.

(** What one edit knows of itself while it is committed. *)
Abbreviation Committing := (M (Fs * PreparedEdit) AxiomError).

Definition on_disk {A} (m : M Fs AxiomError A) : Committing A := fun s =>
  let '(w, r) := m s.1 in ((w, s.2), r).

Definition install (e : PreparedEdit) : Committing unit :=
  match pe_staged e with
  | Some staged =>
    _ ← on_disk (io (fs_rename staged (pe_path e)));
    modify (fun s => (s.1, pe_with s.2 None (pe_backup s.2) true))
  | None => mret tt
  end.

Definition commit_create : Committing unit :=
  s ← gets id;
  if is_ok (link_metadata s.1 (pe_path s.2))
  then throw (ToolError ("create conflict: " +:+ path_display (pe_relative s.2) +:+ " now exists"))
  else install s.2.

Definition set_aside : Committing unit :=
  s ← gets id;
  current ← on_disk (read_edit_target (pe_path s.2) MAX_CONTENT_BYTES);
  let found := digest current.1 in
  if negb (bool_decide (pe_expected s.2 = Some found))
  then throw (ToolError ("stale edit during commit for " +:+ path_display (pe_relative s.2)
    +:+ ": expected " +:+ default "(missing)" (pe_expected s.2) +:+ ", found " +:+ found)) else
  backup ← on_disk (sibling_artifact (pe_path s.2) "backup");
  _ ← on_disk (io (fs_rename (pe_path s.2) backup));
  modify (fun s => (s.1, pe_with s.2 (pe_staged s.2) (Some backup) (pe_installed s.2))).

Definition commit_edit : Committing unit :=
  s ← gets id;
  match pe_operation s.2 with
  | OpCreate => commit_create
  | OpUpdate => _ ← set_aside; install s.2
  | OpDelete => set_aside
  end.

Fixpoint commit_all (l : list PreparedEdit) (w : Fs)
    : Fs * list PreparedEdit * result AxiomError unit :=
  match l with
  | [] => (w, [], Ok tt)
  | e :: l =>
    match commit_edit (w, e) with
    | ((w, e), Err x) => (w, e :: l, Err x)
    | ((w, e), Ok _) => let '(w, l, r) := commit_all l w in (w, e :: l, r)
    end
  end.

(** [rollback_prepared] of one edit. *)
Definition restore_backup (e : PreparedEdit) (w : Fs) : Fs * list string :=
  match pe_backup e with
  | Some backup =>
    if path_exists w backup then
      match fs_rename backup (pe_path e) w with
      | (w, Err x) => (w, ["restore " +:+ path_display (pe_path e) +:+ " from "
                           +:+ path_display backup +:+ ": " +:+ x])
      | (w, Ok _) => (w, [])
      end
    else (w, [])
  | None => (w, [])
  end.

Definition drop_staged (e : PreparedEdit) (w : Fs) : Fs :=
  match pe_staged e with Some staged => (fs_remove_file staged w).1 | None => w end.

Definition rollback_rest (e : PreparedEdit) (w : Fs) : Fs * list string :=
  let '(w, errors) := restore_backup e w in (drop_staged e w, errors).

Definition rollback_edit (e : PreparedEdit) (w : Fs) : Fs * list string :=
  if pe_installed e && path_exists w (pe_path e)
  then match fs_remove_file (pe_path e) w with
       | (w, Err x) => (w, ["remove " +:+ path_display (pe_path e) +:+ ": " +:+ x])
       | (w, Ok _) => rollback_rest e w
       end
  else rollback_rest e w.

(** From the last edit to the first. *)
Fixpoint rollback_prepared (l : list PreparedEdit) (w : Fs) : Fs * list string :=
  match l with
  | [] => (w, [])
  | e :: l =>
    let '(w, errors) := rollback_prepared l w in
    let '(w, more) := rollback_edit e w in (w, errors ++ more)
  end.

Definition remove_backup (x : Fs * list string) (e : PreparedEdit) : Fs * list string :=
  match pe_backup e with
  | Some backup =>
    match fs_remove_file backup x.1 with
    | (w, Err m) => (w, x.2 ++ ["committed edit but could not remove backup "
                                +:+ path_display backup +:+ ": " +:+ m])
    | (w, Ok _) => (w, x.2)
    end
  | None => x
  end.

Definition remove_backups (l : list PreparedEdit) (w : Fs) : Fs * list string :=
  foldl remove_backup (w, []) l.

Definition operation_name (op : PreparedOperation) : string :=
  match op with OpCreate => "create" | OpUpdate => "update" | OpDelete => "delete" end.

Definition edit_outcome (e : PreparedEdit) : StructuredEditOutcome :=
  {| seo_operation := operation_name (pe_operation e); seo_path := pe_relative e;
     seo_old_sha256 := pe_old e; seo_new_sha256 := pe_new e |}.

Definition patch_outcome (l : list PreparedEdit) (max_diff_bytes : Z) (warnings : list string)
    : PatchTransactionOutcome :=
  let '(diff, cut) := truncate_utf8 (join newline (pe_diff <$> l)) max_diff_bytes in
  {| pto_edits := edit_outcome <$> l; pto_changed_paths := pe_relative <$> l;
     pto_diff := diff; pto_diff_truncated := cut; pto_warnings := warnings |}.

(** The error of a patch that was rolled back. *)
Definition rollback_error (e : AxiomError) (errors : list string) : AxiomError :=
  match errors with
  | [] => e
  | _ => ToolError (error_display e +:+ "; rollback needs manual recovery: " +:+ join "; " errors)
  end.

Definition apply_prepared (l : list PreparedEdit) (max_diff_bytes : Z)
    : M Fs AxiomError PatchTransactionOutcome := fun w =>
  match commit_all l w with
  | (w, l, Err e) =>
    let '(w, errors) := rollback_prepared l w in (w, Err (rollback_error e errors))
  | (w, l, Ok _) =>
    let '(w, warnings) := remove_backups l w in (w, Ok (patch_outcome l max_diff_bytes warnings))
  end.

Definition apply_structured_patch (edits : list EditIntent) (max_diff_bytes : Z)
    : M Fs AxiomError PatchTransactionOutcome :=
  if bool_decide (edits = []) || (MAX_EDITS <? Z.of_nat (length edits))
  then throw (ToolError ("a patch must contain between 1 and " +:+ to_decimal MAX_EDITS +:+ " edits"))
  else l ← prepare_all edits [] 0; apply_prepared l max_diff_bytes.

(** ** Replacements *)

Definition replacement_source (p : Path) (old : string) (expected : option string)
    : M Fs AxiomError (string * option string) :=
  w ← gets id;
  if path_exists w p then
    x ← read_edit_target p MAX_CONTENT_BYTES;
    let sha := digest x.1 in
    if match expected with Some e => negb (bool_decide (e = sha)) | None => false end
    then throw (ToolError ("stale edit: expected " +:+ default EmptyString expected +:+ ", found " +:+ sha))
    else text ← lift (ok_or (from_utf8 x.1) (ToolError "cannot edit a non-UTF-8 file")); mret (text, Some sha)
  else if negb (is_empty old) then throw (ToolError "new file replacement must use an empty old string")
  else mret (EmptyString, None).

Definition replaced (content old new : string) : result AxiomError string :=
  if is_empty old then
    if is_empty content then Ok new
    else tool_error "empty replacement is allowed only for a new/empty file"
  else
  let count := matches old content in
  if negb (bool_decide (count = 1%nat))
  then tool_error ("replacement must match exactly once; found "
                   +:+ to_decimal (Z.of_nat count) +:+ " matches")
  else Ok (replace_first old new content).

Definition apply_replacement (input : Path) (old new : string) (expected : option string)
    : M Fs AxiomError PatchOutcome :=
  w ← gets id;
  p ← lift (resolve_for_write w input);
  x ← replacement_source p old expected;
  content ← lift (replaced x.1 old new);
  let rel := relative p in
  _ ← apply_structured_patch
        [match x.2 with
         | Some sha => EditUpdate rel sha content false
         | None => EditCreate rel content None
         end] (128 * 1024);
  mret {| po_path := rel; po_old_sha256 := x.2; po_new_sha256 := digest (bytes content);
          po_diff := unified_diff x.1 content |}.
End Workspace.

(** [Workspace::new]. *)
Definition workspace_new (w : Fs) (p : Path) : result AxiomError Path :=
  k ← map_err IoError (resolve w p);
  match node (fs_disk w) k with
  | Some NDir => Ok (of_key k)
  | _ => Err (ConfigError ("workspace is not a directory: " +:+ path_display (of_key k)))
  end.

(** [Workspace::discover]: the nearest directory above with a [.git] entry. *)
Definition discover_root (w : Fs) (k : Key) : Key :=
  default k (List.find (fun a => path_exists w (path_push (of_key a) ".git"))
               (reverse ((fun n => take n k) <$> seq 0 (S (length k))))).

Definition discover (w : Fs) (p : Path) : result AxiomError Path :=
  k ← map_err IoError (resolve w p);
  dir ← match node (fs_disk w) k with
        | Some NDir => Ok k
        | _ => match k with
               | [] => Err (ConfigError "workspace path has no parent")
               | _ => Ok (removelast k)
               end
        end;
  workspace_new w (of_key (discover_root w dir)).
