(* ===== verification/WorkspaceEdits.v ===== *)
(** Committing a patch and going back: what one edit does to the disk, what a list of
    them does, and where every file is when a call of the system fails in between.

    A prepared edit owns the name of its target and of its staged and backup files
    ([area]); a step on one edit leaves the names of the others alone. *)

From stdpp Require Import base gmap strings list.
From Stdlib Require Import ZArith NArith Lia ZifyBool ZifyN ZifyNat.
From S2P Require Import Prelude RustStr Accounting Content Paths AppError Disk Lease Workspace.

Local Open Scope Z_scope.

(** ** A disk of our own *)

(** Only this process changes the disk. *)
Definition idle (e : Event) : Prop := (forall d, ev_change e d = d) /\ forall k, ev_moves e k = Some k.
Definition quiet (w : Fs) : Prop := Forall idle (fs_agenda w).

(** The same state up to the calls still to come. *)
Record same (w w' : Fs) : Prop := {
  same_disk : fs_disk w' = fs_disk w;
  same_cwd : fs_cwd w' = fs_cwd w;
  same_umask : fs_umask w' = fs_umask w;
  same_uuid : fs_uuid w' = fs_uuid w;
  same_drawn : fs_drawn w' = fs_drawn w;
  same_quiet : quiet w -> quiet w'
}.

Lemma same_refl w : same w w.
Proof. by constructor. Qed.

Lemma same_trans w1 w2 w3 : same w1 w2 -> same w2 w3 -> same w1 w3.
Proof. intros [] []. constructor; try congruence. tauto. Qed.

#[export] Hint Resolve same_refl : axiom.

Lemma resolve_same w w' p : same w w' -> resolve w' p = resolve w p.
Proof. intros []. unfold resolve, start. by rewrite same_disk0, same_cwd0. Qed.

Lemma entry_same w w' p : same w w' -> entry w' p = entry w p.
Proof. intros Hs. unfold entry. rewrite (resolve_same _ _ _ Hs). destruct Hs. unfold start. by rewrite same_disk0, same_cwd0. Qed.

Lemma next_event_quiet w w' o : quiet w -> next_event w = (w', o) -> same w w'.
Proof.
  unfold next_event, quiet. destruct (fs_agenda w) as [|e l] eqn:E; intros Hq [= <- <-]; [apply same_refl|].
  apply Forall_cons in Hq as [[He _] Hl]. constructor; cbn; done.
Qed.

(** A call fails and changes nothing, or does what it does. *)
Lemma call_cases {A} (f : Fs -> result string (Disk * A)) w w' r :
  quiet w -> call f w = (w', r) ->
  exists w1, same w w1 /\
    ((exists m, r = Err m /\ w' = w1) \/
     (exists d a, f w1 = Ok (d, a) /\ w' = with_disk w1 d /\ r = Ok a)).
Proof.
  unfold call. intros Hq. destruct (next_event w) as [w1 o] eqn:E.
  pose proof (next_event_quiet _ _ _ Hq E) as Hs. intros H. exists w1. split; [done|].
  destruct o as [[c mv [m|] n]|]; [left; exists m; by simplify_eq|..];
    (destruct (f w1) as [[d a]|m]; simplify_eq; [right; by exists d, a|left; by exists m]).
Qed.

Lemma io_cases {A} (m : M Fs string A) w w' r :
  io m w = (w', r) ->
  exists r0, m w = (w', r0) /\ match r0 with Ok a => r = Ok a | Err x => r = Err (IoError x) end.
Proof. unfold io. destruct (m w) as [w1 [a|x]]; intros [= <- <-]; eexists; by split. Qed.

Lemma io_Ok {A} (m : M Fs string A) w w' a : io m w = (w', Ok a) -> m w = (w', Ok a).
Proof. intros (r & -> & Hr)%io_cases. destruct r; [by injection Hr as <-|done]. Qed.

Lemma rename_cases p q w w' r :
  quiet w -> fs_rename p q w = (w', r) ->
  (exists m, r = Err m /\ same w w') \/
  (exists src dst d, entry w p = Ok src /\ entry w q = Ok dst /\
     rename_keys src dst (fs_disk w) = Ok d /\ same (with_disk w d) w' /\ r = Ok tt).
Proof.
  intros Hq (w1 & Hs & [(m & -> & ->)|(d & u & Hf & -> & ->)])%call_cases; [|right|done].
  { left; eauto. }
  apply bind_Ok in Hf as (src & Hsrc & Hf). apply bind_Ok in Hf as (dst & Hdst & Hf).
  apply bind_Ok in Hf as (d' & Hd & Hf). injection Hf as -> <-.
  rewrite !(entry_same _ _ _ Hs) in *. rewrite (same_disk _ _ Hs) in Hd.
  exists src, dst, d. split_and!; try done. destruct Hs. by constructor.
Qed.

Lemma remove_cases p w w' r :
  quiet w -> fs_remove_file p w = (w', r) ->
  (exists m, r = Err m /\ same w w') \/
  (exists k n, entry w p = Ok k /\ node (fs_disk w) k = Some n /\ n <> NDir /\
     same (with_disk w (delete k (fs_disk w))) w' /\ r = Ok tt).
Proof.
  intros Hq (w1 & Hs & [(m & -> & ->)|(d & u & Hf & -> & ->)])%call_cases; [|right|done].
  { left; eauto. }
  apply bind_Ok in Hf as (k & Hk & Hf).
  rewrite (entry_same _ _ _ Hs) in Hk. rewrite (same_disk _ _ Hs) in Hf.
  destruct (node (fs_disk w) k) as [n|] eqn:Hn; [|done].
  exists k, n. destruct n; simplify_eq; split_and!; try done; destruct Hs; by constructor.
Qed.

Lemma open_cases p w w' r :
  quiet w -> fs_open p w = (w', r) ->
  same w w' /\
  ((exists m, r = Err m) \/
   exists k n, r = Ok {| h_key := Some k; h_node := n |} /\ entry w p = Ok k /\ node (fs_disk w) k = Some n /\
     forall t, n <> NLink t).
Proof.
  intros Hq (w1 & Hs & [(m & -> & ->)|(d & u & Hf & -> & ->)])%call_cases; [..|done].
  { split; [done|]. eauto. }
  apply bind_Ok in Hf as (k & Hk & Hf).
  rewrite (entry_same _ _ _ Hs) in Hk. rewrite (same_disk _ _ Hs) in Hf.
  destruct (node (fs_disk w) k) as [n|] eqn:Hn; [|done]. destruct n; simplify_eq;
  (split; [destruct Hs; by constructor|]; right; by eexists _, _).
Qed.

Definition at_key (w : Fs) (h : Handle) : Prop := exists k, h_key h = Some k /\ node (fs_disk w) k = Some (h_node h).

(** An open file stays where and what it is. *)
Lemma on_handle_cases {A} (f : Fs -> Handle -> result string A) h w w' r :
  quiet w -> at_key w h -> on_handle f h w = (w', r) ->
  same w w' /\ (is_err r \/ exists a, r = Ok (h, a) /\ f w' h = Ok a).
Proof.
  unfold on_handle. intros Hq (k & Hk & Hn). destruct (next_event w) as [w1 o] eqn:E.
  pose proof (next_event_quiet _ _ _ Hq E) as Hs.
  assert (Hf : forall e, o = Some e -> moved e (fs_disk w1) h = h).
  { intros e ->. unfold next_event, quiet in *. destruct (fs_agenda w) as [|e' l]; [done|]. injection E as <- <-.
    apply Forall_cons in Hq as [[Hc Hm] _]. unfold moved. rewrite Hk. cbn. rewrite Hm, Hc, Hn. cbn. destruct h; cbn in *; by subst. }
  intros H. destruct o as [e|]; [rewrite (Hf e eq_refl) in H; destruct (ev_fault e) as [m|]|].
  - injection H as <- <-. split; [done|by left].
  - injection H as <- <-. split; [done|]. destruct (f w1 h) as [a|m] eqn:Ef; [right; by exists a|by left].
  - injection H as <- <-. split; [done|]. destruct (f w1 h) as [a|m] eqn:Ef; [right; by exists a|by left].
Qed.

Lemma at_key_same w w' h : same w w' -> at_key w h -> at_key w' h.
Proof. intros Hs (k & H). exists k. by rewrite (same_disk _ _ Hs). Qed.

(** The entry of an absolute path is a name that resolves to itself, when it is no link. *)
Lemma entry_settled w p k n :
  absolute p = true -> entry w p = Ok k -> node (fs_disk w) k = Some n -> (forall t, n <> NLink t) ->
  settled (fs_disk w) k.
Proof.
  intros Ha He Hn Hl. unfold entry, resolve, start in He. rewrite Ha in He.
  destruct (last (comps p)) as [[s| |]|]; try (eapply walk_settled; [apply chain_nil|exact He]).
  apply bind_Ok in He as (dir & Hd & He). destruct (node (fs_disk w) dir) as [[| | |]|] eqn:Hdir; try done.
  injection He as <-. assert (Hc : chain (fs_disk w) dir).
  { destruct (walk_settled _ _ _ _ _ (chain_nil _) Hd) as [Hc|(d0 & s0 & n0 & -> & _ & Hn0 & Hnd & _)]; [done|].
    rewrite node_snoc in Hdir. congruence. }
  destruct n as [data mode| |t|]; [|left; by apply chain_snoc|by destruct (Hl t)|];
    right; eexists dir, s, _; rewrite node_snoc in Hn; by split_and!.
Qed.

(** ** Drawn identifiers *)

Definition purposes : list string := ["stage"; "backup"].

Lemma purpose_cases p : p ∈ purposes -> p = "stage" \/ p = "backup".
Proof. unfold purposes. set_solver. Qed.

(** [k] is not a name a later identifier will make. *)
Definition known_name (w : Fs) (s : string) : Prop :=
  forall stem purpose n, purpose ∈ purposes -> (fs_drawn w <= n)%nat -> s <> artifact_name stem purpose (fs_uuid w n).
Definition known (w : Fs) (k : Key) : Prop := match last k with Some s => known_name w s | None => True end.

Lemma known_snoc w k s : known w (k ++ [s]) <-> known_name w s.
Proof. unfold known. by rewrite last_snoc. Qed.

Lemma known_name_later w w' s :
  fs_uuid w' = fs_uuid w -> (fs_drawn w <= fs_drawn w')%nat -> known_name w s -> known_name w' s.
Proof. intros Hu Hd H stem purpose n Hp Hn. rewrite Hu. apply H; [done|lia]. Qed.

Lemma known_later w w' k :
  fs_uuid w' = fs_uuid w -> (fs_drawn w <= fs_drawn w')%nat -> known w k -> known w' k.
Proof. unfold known. intros Hu Hd. destruct (last k); [by apply known_name_later|done]. Qed.

(** An identifier has no period, and is never drawn twice. *)
Definition no_period (s : string) : Prop := 46%N ∉ bytes s.
Definition uuids_ok (w : Fs) : Prop := (forall n, no_period (fs_uuid w n)) /\ Inj eq eq (fs_uuid w).

Lemma after_last {A} (x : A) l1 l2 a b : x ∉ a -> x ∉ b -> l1 ++ x :: a = l2 ++ x :: b -> a = b.
Proof.
  intros Ha Hb. revert l2. induction l1 as [|y l1 IH]; intros [|z l2] E; cbn in E.
  - by injection E.
  - injection E as -> ->. destruct Ha. set_solver.
  - injection E as -> <-. destruct Hb. set_solver.
  - injection E as _ E. by eapply IH.
Qed.

Lemma artifact_inj stem purpose uuid stem' purpose' uuid' :
  purpose ∈ purposes -> purpose' ∈ purposes -> no_period uuid -> no_period uuid' ->
  artifact_name stem purpose uuid = artifact_name stem' purpose' uuid' -> uuid = uuid'.
Proof.
  intros Hp Hp' H1 H2 E. apply (f_equal bytes) in E. unfold artifact_name in E. rewrite !bytes_app in E.
  assert (Hdot : forall q u, q ∈ purposes -> no_period u ->
    46%N ∉ bytes "axiomcli-" ++ bytes q ++ bytes "-" ++ bytes u).
  { intros q u Hq Hu. rewrite !not_elem_of_app.
    destruct (purpose_cases q Hq) as [->| ->]; (split_and!; [..|exact Hu]); by apply (bool_decide_unpack _). }
  change (bytes ".axiomcli-") with (46%N :: bytes "axiomcli-") in E. rewrite !app_assoc in E.
  rewrite <- !(app_assoc (bytes "." ++ _)) in E. cbn [app] in E.
  apply after_last in E; [|rewrite <- !app_assoc; by apply Hdot..].
  rewrite <- !app_assoc in E. apply app_inv_head in E. apply bytes_inj.
  destruct (purpose_cases _ Hp) as [->| ->], (purpose_cases _ Hp') as [->| ->]; cbn in E; by simplify_eq.
Qed.

Lemma new_uuid_known w stem purpose :
  purpose ∈ purposes -> uuids_ok w ->
  known_name (with_drawn w (S (fs_drawn w))) (artifact_name stem purpose (fs_uuid w (fs_drawn w))).
Proof.
  intros Hp [Hl Hi] stem' purpose' n Hp' Hn E. cbn in Hn. apply artifact_inj in E; [|done|done|apply Hl..].
  apply Hi in E. lia.
Qed.

Lemma purposes_in : "stage" ∈ purposes /\ "backup" ∈ purposes.
Proof. split; [by left|right; by left]. Qed.

(** What holds at every moment: no file has a name still to be drawn. *)
Record good (w : Fs) : Prop := {
  good_quiet : quiet w;
  good_uuids : uuids_ok w;
  good_known : forall k n, fs_disk w !! k = Some n -> known w k
}.

(** [w'] comes after [w], and changes only what [touched] names. *)
Record later (touched : Key -> Prop) (w w' : Fs) : Prop := {
  later_good : good w';
  later_uuid : fs_uuid w' = fs_uuid w;
  later_drawn : (fs_drawn w <= fs_drawn w')%nat;
  later_cwd : fs_cwd w' = fs_cwd w;
  later_umask : fs_umask w' = fs_umask w;
  later_frame : forall k, known w k -> ~ touched k -> fs_disk w' !! k = fs_disk w !! k;
  later_dirs : forall k, fs_disk w !! k = Some NDir -> fs_disk w' !! k = Some NDir
}.

Lemma later_same T w w' : good w -> same w w' -> later T w w'.
Proof.
  intros [Hq Hu Hk] []. constructor; try congruence; try lia.
  - constructor; [auto| |]. { unfold uuids_ok in *. by rewrite same_uuid0. }
    intros k n. rewrite same_disk0. intros H%Hk. by apply (known_later w); [..|lia|].
Qed.

Lemma later_trans T w1 w2 w3 : later T w1 w2 -> later T w2 w3 -> later T w1 w3.
Proof.
  intros [G1 U1 D1 C1 M1 F1 R1] [G2 U2 D2 C2 M2 F2 R2]. constructor; try congruence; try lia; auto.
  intros k Hk Ht. rewrite F2, F1; [done..| |done]. by apply (known_later w1).
Qed.

Lemma later_weaken (T T' : Key -> Prop) w w' :
  (forall k, T k -> T' k) -> later T w w' -> later T' w w'.
Proof. intros H []. constructor; auto. Qed.

(** A step that leaves the disk [d]. *)
Lemma later_disk (T : Key -> Prop) w w' d :
  good w -> same (with_disk w d) w' ->
  (forall k, known w k -> ~ T k -> d !! k = fs_disk w !! k) ->
  (forall k, fs_disk w !! k = Some NDir -> d !! k = Some NDir) ->
  (forall k n, d !! k = Some n -> known w k) -> later T w w'.
Proof.
  intros [Hq Hu Hk] [] Hf Hd Hn. cbn in *. constructor; try congruence; try lia.
  - constructor; [auto| |]. { unfold uuids_ok in *. by rewrite same_uuid0. }
    intros k n. rewrite same_disk0. intros H%Hn. by apply (known_later w); [..|lia|].
  - intros k Hk0 Ht. rewrite same_disk0. auto.
  - intros k. rewrite same_disk0. auto.
Qed.

Lemma later_drawn_one T w : good w -> later T w (with_drawn w (S (fs_drawn w))).
Proof.
  intros [Hq Hu Hk]. constructor; cbn; try done; try lia.
  constructor; try done. intros k n H%Hk. by apply (known_later w); cbn; [..|lia|].
Qed.

(** ** Names of an edit *)

Definition key_of (p : Path) : Key := omap (fun c => match c with Normal s => Some s | _ => None end) (comps p).

Lemma key_of_key k : key_of (of_key k) = k.
Proof. unfold key_of, of_key. cbn. induction k as [|s k IH]; [done|]. cbn. by f_equal. Qed.

Lemma of_key_inj k k' : of_key k = of_key k' -> k = k'.
Proof. intros H%(f_equal key_of). by rewrite !key_of_key in H. Qed.

Definition own (e : PreparedEdit) : list Key :=
  key_of <$> (option_list (pe_staged e) ++ option_list (pe_backup e)).
Definition target (e : PreparedEdit) : Key := key_of (pe_path e).
Definition area (e : PreparedEdit) : list Key := target e :: own e.

Definition beside (dir : Key) (o : option Path) : Prop := forall p, o = Some p -> exists a, p = of_key (dir ++ [a]).

(** The edit's files are entries of the directory [dir]. *)
Record housed (d : Disk) (dir : Key) (name : string) (e : PreparedEdit) : Prop := {
  housed_path : pe_path e = of_key (dir ++ [name]);
  housed_chain : chain d dir;
  housed_staged : beside dir (pe_staged e);
  housed_backup : beside dir (pe_backup e)
}.

Lemma housed_later T w w' dir name e :
  later T w w' -> housed (fs_disk w) dir name e -> housed (fs_disk w') dir name e.
Proof. intros Hl []. constructor; try done. eapply chain_mono; [apply (later_dirs _ _ _ Hl)|done]. Qed.

Lemma with_file_name_key dir name a : with_file_name (of_key (dir ++ [name])) a = of_key (dir ++ [a]).
Proof.
  unfold with_file_name, file_name. rewrite of_key_snoc, last_snoc, removelast_last.
  unfold of_key. cbn. by rewrite fmap_app.
Qed.

Definition is_file (o : option Node) : Prop := exists data mode, o = Some (NFile data mode).

(** Where the file [o] that an edit found is now. *)
Definition tracks (o : option Node) (d : Disk) (e : PreparedEdit) : Prop :=
  match pe_backup e, pe_installed e with
  | None, false => d !! target e = o
  | None, true => o = None /\ is_file (d !! target e)
  | Some b, false => d !! target e = None /\ d !! key_of b = o /\ is_file o
  | Some b, true => is_file (d !! target e) /\ d !! key_of b = o /\ is_file o
  end.

Lemma tracks_frame o d d' e :
  (forall k, k ∈ area e -> d' !! k = d !! k) -> tracks o d e -> tracks o d' e.
Proof.
  intros Hf. unfold tracks. rewrite (Hf (target e)) by (by left).
  destruct (pe_backup e) as [b|] eqn:Hb; [|done]. rewrite (Hf (key_of b)); [done|].
  right. unfold own. rewrite Hb. apply list_elem_of_fmap. exists b. split; [done|]. apply elem_of_app; right; by left.
Qed.

(** An edit before its commit. *)
Record pristine (w : Fs) (e : PreparedEdit) : Prop := {
  pristine_housed : exists dir name, housed (fs_disk w) dir name e;
  pristine_nodup : NoDup (area e);
  pristine_known : Forall (known w) (area e);
  pristine_backup : pe_backup e = None;
  pristine_installed : pe_installed e = false;
  pristine_staged : match pe_staged e with
                    | Some p => pe_operation e <> OpDelete /\ is_file (fs_disk w !! key_of p)
                    | None => pe_operation e = OpDelete
                    end
}.

Lemma pristine_later T w w' e :
  later T w w' -> (forall k, k ∈ area e -> ~ T k) -> pristine w e -> pristine w' e.
Proof.
  intros Hl Ht [(dir & name & Hh) Hn Hk Hb Hi Hs]. constructor; try done.
  - exists dir, name. by eapply housed_later.
  - eapply Forall_impl; [exact Hk|]. intros k.
    apply known_later; [apply (later_uuid _ _ _ Hl)|apply (later_drawn _ _ _ Hl)].
  - destruct (pe_staged e) as [p|] eqn:Hp; [|done]. destruct Hs as [Ho Hf]. split; [done|].
    assert (Hin : key_of p ∈ area e).
    { right. unfold own. rewrite Hp. by left. }
    rewrite (later_frame _ _ _ Hl); [done| |by apply Ht]. rewrite Forall_forall in Hk. by apply Hk.
Qed.

(** ** One edit *)

Lemma rename_file src dst d n :
  d !! src = Some n -> n <> NDir -> src <> [] -> dst <> [] -> d !! dst = None ->
  rename_keys src dst d = Ok (<[dst := n]> (delete src d)).
Proof.
  intros Hs Hn Hs0 Hd0 Hd. unfold rename_keys.
  assert (Es : node d src = Some n) by (by destruct src).
  assert (Ed : node d dst = None) by (by destruct dst). rewrite Es, Ed.
  rewrite bool_decide_eq_false_2 by congruence. by destruct n.
Qed.

Lemma snoc_not_nil {A} (l : list A) x : l ++ [x] <> [].
Proof. by destruct l. Qed.

(** Moving a file to a free name beside it. *)
Lemma move_cases w w' dir a b n r (T : Key -> Prop) :
  good w -> chain (fs_disk w) dir -> fs_disk w !! (dir ++ [a]) = Some n -> is_file (Some n) ->
  fs_disk w !! (dir ++ [b]) = None -> known w (dir ++ [b]) -> T (dir ++ [a]) -> T (dir ++ [b]) ->
  io (fs_rename (of_key (dir ++ [a])) (of_key (dir ++ [b]))) w = (w', r) ->
  (is_err r /\ same w w') \/
  (r = Ok tt /\ fs_disk w' = <[dir ++ [b] := n]> (delete (dir ++ [a]) (fs_disk w)) /\
   fs_drawn w' = fs_drawn w /\ later T w w').
Proof.
  intros Hg Hc Ha (data & mode & [= ->]) Hb Hkb Ta Tb (r0 & Hrun & Hr)%io_cases.
  apply rename_cases in Hrun as [(m & -> & Hs)|(src & dst & d & E1 & E2 & Hd & Hs & ->)]; [..|apply Hg].
  { left. by subst r. }
  right. split; [done|]. rewrite !entry_of_key in E1, E2 by done. injection E1 as <-. injection E2 as <-.
  erewrite rename_file in Hd; [|done|done|apply snoc_not_nil..|done]. injection Hd as <-.
  split; [apply Hs|]. split; [apply Hs|]. eapply later_disk; [done..| | |].
  - intros k _ Hk. by rewrite lookup_insert_ne, lookup_delete_ne by (intros <-; tauto).
  - intros k Hk. rewrite lookup_insert_ne, lookup_delete_ne by congruence. done.
  - intros k n' [[<- _]|[_ H]]%lookup_insert_Some; [done|]. apply lookup_delete_Some in H as [_ H].
    by eapply Hg.
Qed.

Lemma on_disk_run {A} (m : M Fs AxiomError A) w e : on_disk m (w, e) = let '(w', r) := m w in ((w', e), r).
Proof. done. Qed.

Definition committing_unchanged (w : Fs) (e : PreparedEdit) (s : Fs * PreparedEdit) : Prop :=
  s.2 = e /\ fs_disk s.1 = fs_disk w /\ later (fun _ => False) w s.1.

Section Edits.
Context `{KD : KeyDigest} `{LD : LineDiff} `{WK : Walker}.
Variable rk : Key.
#[local] Abbreviation root := (of_key rk).

Lemma open_verified_cases p w w' r :
  quiet w -> absolute p = true -> open_verified root p w = (w', r) ->
  same w w' /\
  (is_err r \/ exists k n, r = Ok {| h_key := Some k; h_node := n |} /\ entry w p = Ok k /\
     node (fs_disk w) k = Some n /\ rk `prefix_of` k).
Proof.
  intros Hq Ha [(h & w1 & Hx & H)|(e & Hx & ->)]%M_bind_cases;
    apply io_cases in Hx as (r0 & Hx & Hr); (apply open_cases in Hx as [Hs Hx]; [|done]); [|by split; [|left]].
  destruct r0 as [x|]; [|done]. injection Hr as <-. destruct Hx as [[m [=]]|(k & n & [= ->] & He & Hn & Hl)].
  assert (Hat : at_key w1 {| h_key := Some k; h_node := n |}) by (exists k; by rewrite (same_disk _ _ Hs)).
  apply M_bind_cases in H as [([h' q] & w2 & Hx & H)|(e & Hx & ->)];
    apply io_cases in Hx as (r0 & Hx & Hr); (apply on_handle_cases in Hx as [Hs2 Hx]; [|by apply Hs|done]);
    [|split; [by eapply same_trans|by left]].
  destruct r0 as [x|]; [|done]. injection Hr as <-. destruct Hx as [[]|(q' & [= -> ->] & Hq')].
  cbn [fst snd h_key] in *. assert (Hq2 : q' = of_key k).
  { unfold canonical in Hq'. rewrite (resolve_same w w2), resolve_of_key in Hq'.
    - by injection Hq' as <-.
    - by eapply entry_settled.
    - by eapply same_trans. }
  subst q'. destruct (path_starts_with _ _) eqn:Hp; injection H as <- <-; (split; [by eapply same_trans|]); [right|by left].
  exists k, n. split_and!; try done. by apply path_of_key_starts.
Qed.

Lemma read_edit_target_cases p max w w' r :
  quiet w -> absolute p = true -> read_edit_target root p max w = (w', r) ->
  same w w' /\
  (is_err r \/ exists k data mode, r = Ok (data, mode) /\ entry w p = Ok k /\
     node (fs_disk w) k = Some (NFile data mode) /\ rk `prefix_of` k).
Proof.
  intros Hq Ha [(h & w1 & Hx & H)|(e & Hx & ->)]%M_bind_cases;
    (apply open_verified_cases in Hx as [Hs Hx]; [|done..]); [|by split; [|left]].
  destruct Hx as [[]|(k & n & [= ->] & He & Hn & Hp)].
  assert (Hat : at_key w1 {| h_key := Some k; h_node := n |}) by (exists k; by rewrite (same_disk _ _ Hs)).
  apply M_bind_cases in H as [([h' n'] & w2 & Hx & H)|(e & Hx & ->)];
    apply io_cases in Hx as (r0 & Hx & Hr); (apply on_handle_cases in Hx as [Hs2 Hx]; [|by apply Hs|done]);
    [|split; [by eapply same_trans|by left]].
  destruct r0 as [x|]; [|done]. injection Hr as <-. destruct Hx as [[]|(n1 & [= -> ->] & [= ->])].
  cbn [fst snd h_node] in H. destruct n1 as [data mode| | |];
    try (injection H as <- <-; split; [by eapply same_trans|by left]).
  cbv beta iota in H. destruct (max <? _); [injection H as <- <-; split; [by eapply same_trans|by left]|].
  apply M_bind_cases in H as [([h2 data2] & w3 & Hx & H)|(e & Hx & ->)];
    apply io_cases in Hx as (r0 & Hx & Hr);
    (apply on_handle_cases in Hx as [Hs3 Hx]; [|by apply Hs2, Hs|by eapply at_key_same]);
    [|split; [by eapply same_trans; [|eapply same_trans]|by left]].
  destruct r0 as [x|]; [|done]. injection Hr as <-. destruct Hx as [[]|(d1 & [= -> ->] & [= ->])].
  injection H as <- <-. split; [by eapply same_trans; [|eapply same_trans]|]. right. by exists k, d1, mode.
Qed.

Lemma sibling_run {E} dir name purpose w :
  sibling_artifact (E := E) (of_key (dir ++ [name])) purpose w =
  (with_drawn w (S (fs_drawn w)),
   Ok (of_key (dir ++ [artifact_name name purpose (fs_uuid w (fs_drawn w))]))).
Proof.
  unfold sibling_artifact. rewrite M_bind_run. cbn.
  assert (E0 : file_name (of_key (dir ++ [name])) = Some name).
  { unfold file_name. by rewrite of_key_snoc, last_snoc. }
  rewrite E0. cbn. by rewrite with_file_name_key.
Qed.

Lemma not_known_drawn w dir stem purpose :
  purpose ∈ purposes -> ~ known w (dir ++ [artifact_name stem purpose (fs_uuid w (fs_drawn w))]).
Proof. intros Hp. rewrite known_snoc. intros H. by eapply H. Qed.

(** The file of an edit is moved to a fresh name, or nothing happens. *)
Lemma set_aside_cases w e dir name w' e' r :
  good w -> housed (fs_disk w) dir name e -> set_aside root (w, e) = ((w', e'), r) ->
  (is_err r /\ e' = e /\ fs_disk w' = fs_disk w /\ later (fun _ => False) w w') \/
  (r = Ok tt /\ exists a data mode,
     let b := dir ++ [a] in let t := dir ++ [name] in
     e' = pe_with e (pe_staged e) (Some (of_key b)) (pe_installed e) /\
     ~ known w b /\ known w' b /\ fs_disk w !! t = Some (NFile data mode) /\
     pe_expected e = Some (digest data) /\ rk `prefix_of` t /\
     fs_disk w' = <[b := NFile data mode]> (delete t (fs_disk w)) /\ later (fun k => k = t) w w').
Proof.
  intros Hg Hh H. pose proof (housed_path _ _ _ _ Hh) as Hp. pose proof (housed_chain _ _ _ _ Hh) as Hc.
  assert (Hsame : forall w1, same w w1 -> fs_disk w1 = fs_disk w /\ later (fun _ => False) w w1).
  { intros w1 Hs. split; [by apply Hs|by apply later_same]. }
  unfold set_aside in H. rewrite M_bind_run in H. cbn [gets] in H.
  apply M_bind_cases in H as [((data & mode) & [w1 e1] & Hx & H)|(x & Hx & ->)];
    rewrite on_disk_run in Hx; cbn [fst snd] in Hx;
    (destruct (read_edit_target root (pe_path (id (w, e)).2) MAX_CONTENT_BYTES w) as [w2 r2] eqn:Er);
    injection Hx as -> <- ->; apply read_edit_target_cases in Er as [Hs Er]; try apply Hg; try (cbn [id snd]; by rewrite Hp).
  2:{ left. split; [done|]. split; [done|]. by apply Hsame. }
  destruct Er as [[]|(k & data' & mode' & [= <- <-] & He & Hn & Hpre)].
  cbn [id snd] in He. rewrite Hp, entry_of_key in He by done. injection He as <-. rewrite node_snoc in Hn.
  cbn [fst snd id] in H. destruct (bool_decide _) eqn:Hexp; cbn [negb] in H;
    [|injection H as <- <- <-; left; split; [done|]; split; [done|]; by apply Hsame].
  apply bool_decide_eq_true in Hexp.
  rewrite M_bind_run, on_disk_run in H. cbn [fst snd id] in H. rewrite Hp, sibling_run in H. cbv beta iota zeta in H.
  set (a := artifact_name name "backup" (fs_uuid w1 (fs_drawn w1))) in *.
  set (w2 := with_drawn w1 (S (fs_drawn w1))) in *.
  assert (G1 : good w1) by (eapply later_good, Hsame; done).
  assert (L2 : later (fun _ => False) w w2).
  { eapply later_trans; [by apply Hsame|]. by apply later_drawn_one. }
  assert (Hd2 : fs_disk w2 = fs_disk w) by (by apply Hs).
  assert (Hka : ~ known w (dir ++ [a])).
  { unfold a. rewrite (same_uuid _ _ Hs), (same_drawn _ _ Hs). apply not_known_drawn, purposes_in. }
  assert (Hnone : fs_disk w2 !! (dir ++ [a]) = None).
  { rewrite Hd2. destruct (fs_disk w !! (dir ++ [a])) eqn:E; [|done]. destruct Hka. by eapply Hg. }
  assert (Hkn : known w2 (dir ++ [a])).
  { rewrite known_snoc. apply new_uuid_known; [apply purposes_in|apply G1]. }
  apply M_bind_cases in H as [([] & [w3 e3] & Hx & H)|(x & Hx & ->)];
    rewrite on_disk_run in Hx; cbn [fst snd] in Hx;
    (destruct (io (fs_rename _ _) w2) as [w4 r4] eqn:Em); injection Hx as -> <- ->;
    (eapply (move_cases _ _ dir name a _ _ (fun k => k = dir ++ [name] \/ k = dir ++ [a])) in Em;
      [|apply L2|by rewrite Hd2|by rewrite Hd2|by eexists _, _|done|done|by left|by right]);
    destruct Em as [[He Hs4]|(Hr & Hd4 & Hdr & Hl4)]; try done.
  - injection H as <- <- <-. right. split; [done|]. exists a, data, mode. cbn [snd].
    split_and!; [done|done| |done|exact Hexp|done|by rewrite <- Hd2|].
    + apply (known_later w2); [apply (later_uuid _ _ _ Hl4)|apply (later_drawn _ _ _ Hl4)|done].
    + destruct Hl4 as [K1 K2 K3 K4 K5 K6 K7]. destruct L2 as [J1 J2 J3 J4 J5 J6 J7].
      constructor; [done|congruence|lia|congruence..| |by auto].
      intros k Hk Ht. rewrite K6; [by auto| |].
      * by apply (known_later w).
      * intros [?| ->]; [done|]. done.
  - left. split; [done|]. split; [done|]. split; [rewrite (same_disk _ _ Hs4); done|].
    eapply later_trans; [exact L2|]. by apply later_same, Hs4; apply L2.
Qed.

(** The staged file takes the free name of its target. *)
Lemma install_cases e0 w e dir name p w' e' r :
  good w -> housed (fs_disk w) dir name e -> pe_path e0 = pe_path e -> pe_staged e0 = Some p ->
  pe_staged e = Some p -> is_file (fs_disk w !! key_of p) -> fs_disk w !! (dir ++ [name]) = None ->
  known w (dir ++ [name]) -> install e0 (w, e) = ((w', e'), r) ->
  (is_err r /\ e' = e /\ fs_disk w' = fs_disk w /\ later (fun _ => False) w w') \/
  (r = Ok tt /\ e' = pe_with e None (pe_backup e) true /\ exists n, fs_disk w !! key_of p = Some n /\
     fs_disk w' = <[dir ++ [name] := n]> (delete (key_of p) (fs_disk w)) /\
     later (fun k => k = dir ++ [name] \/ k = key_of p) w w').
Proof.
  intros Hg Hh Hp0 Hs0 Hs Hf Hnone Hk H. unfold install in H. rewrite Hs0, Hp0, (housed_path _ _ _ _ Hh) in H.
  destruct (housed_staged _ _ _ _ Hh p Hs) as [a ->]. rewrite key_of_key in Hf |- *.
  destruct Hf as (data & mode & Hf).
  apply M_bind_cases in H as [([] & [w3 e3] & Hx & H)|(x & Hx & ->)];
    rewrite on_disk_run in Hx; cbn [fst snd] in Hx;
    (destruct (io (fs_rename _ _) w) as [w4 r4] eqn:Em); injection Hx as -> <- ->;
    (eapply (move_cases _ _ dir a name _ _ (fun k => k = dir ++ [name] \/ k = dir ++ [a])) in Em;
      [|done|apply (housed_chain _ _ _ _ Hh)|done|by eexists _, _|done|done|by right|by left]);
    destruct Em as [[He Hs4]|(Hr & Hd4 & Hdr & Hl4)]; try done.
  - injection H as <- <- <-. right. split_and!; [done..|]. exists (NFile data mode). done.
  - left. split_and!; [done..|by apply Hs4|by apply later_same].
Qed.

(** The commit changes what an edit knows of its files, nothing else. *)
Definition kept (e e' : PreparedEdit) : Prop := exists staged backup installed, e' = pe_with e staged backup installed.

Lemma kept_refl e : kept e e.
Proof. exists (pe_staged e), (pe_backup e), (pe_installed e). by destruct e. Qed.

Lemma kept_path e e' : kept e e' -> pe_path e' = pe_path e.
Proof. by intros (? & ? & ? & ->). Qed.

Lemma kept_outcome e e' : kept e e' -> edit_outcome e' = edit_outcome e /\ pe_relative e' = pe_relative e.
Proof. by intros (? & ? & ? & ->). Qed.

(** What committing [e] does, whether it succeeds or not. *)
Record committing (w : Fs) (e : PreparedEdit) (w' : Fs) (e' : PreparedEdit) : Prop := {
  committing_later : later (fun k => k ∈ area e) w w';
  committing_tracks : tracks (fs_disk w !! target e) (fs_disk w') e';
  committing_kept : kept e e';
  committing_housed : exists dir name, housed (fs_disk w') dir name e';
  committing_nodup : NoDup (area e');
  committing_known : Forall (known w') (area e');
  committing_fresh : forall k, k ∈ area e' -> k ∈ area e \/ ~ known w k
}.

Lemma committing_nothing w e w' :
  pristine w e -> fs_disk w' = fs_disk w -> later (fun _ => False) w w' -> committing w e w' e.
Proof.
  intros Hp Hd Hl. pose proof (pristine_later _ _ _ e Hl (fun _ _ f => f) Hp) as Hp'. destruct Hp' as [H1 H2 H3 H4 H5 H6].
  constructor; try done.
  - by eapply later_weaken; [|exact Hl].
  - unfold tracks. by rewrite H4, H5, Hd.
  - apply kept_refl.
  - by left.
Qed.

Lemma target_housed d dir name e : housed d dir name e -> target e = dir ++ [name].
Proof. intros Hh. unfold target. by rewrite (housed_path _ _ _ _ Hh), key_of_key. Qed.

Lemma area_pristine w e : pristine w e -> area e = target e :: (key_of <$> option_list (pe_staged e)).
Proof. intros []. unfold area, own. by rewrite pristine_backup0, app_nil_r. Qed.

Lemma commit_create_committing w e w' e' r :
  good w -> pristine w e -> pe_operation e = OpCreate -> commit_create (w, e) = ((w', e'), r) ->
  committing w e w' e' /\
  (r = Ok tt -> fs_disk w !! target e = None /\ pe_staged e' = None /\ pe_backup e' = None /\
     fs_disk w' !! target e = pe_staged e ≫= fun p => fs_disk w !! key_of p).
Proof.
  intros Hg Hp Ho H. pose proof (area_pristine _ _ Hp) as Ha.
  pose proof Hp as [(dir & name & Hh) Hn Hk Hb Hi Hs].
  pose proof (target_housed _ _ _ _ Hh) as Ht. pose proof (housed_path _ _ _ _ Hh) as Hpath.
  unfold commit_create in H. rewrite M_bind_run in H. cbn [gets id] in H. cbn [fst snd] in H.
  unfold link_metadata in H. rewrite Hpath, entry_of_key in H by apply (housed_chain _ _ _ _ Hh).
  cbn [mbind result_bind] in H. rewrite node_snoc, <- Ht in H.
  destruct (fs_disk w !! target e) as [n|] eqn:Hnone; cbn [ok_or is_ok] in H.
  { injection H as <- <- <-. split; [|done]. apply committing_nothing; [done..|]. by apply later_same; [|apply same_refl]. }
  destruct (pe_staged e) as [p|] eqn:Hst; [|congruence]. destruct Hs as [_ Hf].
  cbn [option_list] in Ha. rewrite Ha in Hn, Hk.
  assert (Ht' : known w (dir ++ [name])) by (apply Forall_cons in Hk as [Hk _]; by rewrite <- Ht).
  apply (install_cases e w e dir name p) in H; [|done..|by rewrite <- Ht|done].
  destruct H as [(He & -> & Hd & Hl)|(-> & -> & n & Hp1 & Hd & Hl)].
  { split; [by apply committing_nothing|by intros ->]. }
  rewrite <- Ht in Hd, Hl.
  assert (Hd' : fs_disk w' !! target e = Some n) by (by rewrite Hd, lookup_insert_eq).
  assert (Ea : area (pe_with e None (pe_backup e) true) = [target e]).
  { unfold area, own. cbn. by rewrite Hb. }
  split; [|intros _; cbn; by rewrite Hp1, Hb]. constructor.
  - eapply later_weaken; [|exact Hl]. intros k [->| ->]; rewrite Ha; set_solver.
  - unfold tracks. cbn. rewrite Hb, Hnone. split; [done|]. unfold target. cbn. fold (target e). rewrite Hd'.
    destruct Hf as (data & mode & Hf). exists data, mode. congruence.
  - by eexists _, _, _.
  - exists dir, name. eapply housed_later in Hh; [|exact Hl]. destruct Hh. constructor; try done; cbn; by rewrite ?Hb.
  - rewrite Ea. apply NoDup_singleton.
  - rewrite Ea. apply Forall_cons in Hk as [Hk _]. constructor; [|done].
    eapply known_later; [apply Hl..|done].
  - rewrite Ea. intros k ->%list_elem_of_singleton. left. rewrite Ha. by left.
Qed.

(** The edit with its target moved to the backup [b]. *)
Lemma aside_committing w e w' dir name a data mode :
  let b := dir ++ [a] in let t := dir ++ [name] in
  let e' := pe_with e (pe_staged e) (Some (of_key b)) (pe_installed e) in
  pristine w e -> housed (fs_disk w) dir name e -> ~ known w b -> known w' b ->
  fs_disk w !! t = Some (NFile data mode) ->
  fs_disk w' = <[b := NFile data mode]> (delete t (fs_disk w)) -> later (fun k => k = t) w w' ->
  committing w e w' e' /\ fs_disk w' !! t = None.
Proof.
  intros b t e' Hp Hh Hb Hb' Hd Hd' Hl. pose proof Hp as [_ Hn Hk Hbk Hi _].
  pose proof (target_housed _ _ _ _ Hh) as Ht. pose proof (area_pristine _ _ Hp) as Ha.
  assert (Ea : area e' = area e ++ [b]).
  { unfold area, own, e'. cbn [pe_with pe_staged pe_backup]. rewrite Hbk, app_nil_r, fmap_app.
    change (key_of <$> option_list (Some (of_key b))) with [key_of (of_key b)]. by rewrite key_of_key. }
  assert (Hnb : b ∉ area e) by (intros Hin; rewrite Forall_forall in Hk; by apply Hb, Hk).
  assert (Hne : b <> t) by (intros ->; apply Hnb; rewrite Ha, Ht; by left).
  assert (Hnone : fs_disk w' !! t = None) by (by rewrite Hd', lookup_insert_ne, lookup_delete_eq by done).
  split; [constructor|done].
  - eapply later_weaken; [|exact Hl]. intros k ->. rewrite Ha, Ht. by left.
  - unfold tracks. change (pe_backup e') with (Some (of_key b)). change (pe_installed e') with (pe_installed e).
    rewrite Hi. change (target e') with (target e). rewrite Ht, key_of_key. fold t.
    rewrite Hnone, Hd', lookup_insert_eq, Hd. split_and!; [done..|by eexists _, _].
  - by eexists _, _, _.
  - exists dir, name. eapply housed_later in Hh; [|exact Hl]. destruct Hh. constructor; try done.
    intros p [= <-]. by exists a.
  - rewrite Ea. apply NoDup_app. split_and!; [done| |apply NoDup_singleton].
    intros k Hin ->%list_elem_of_singleton. done.
  - rewrite Ea. apply Forall_app. split; [|by constructor].
    eapply Forall_impl; [exact Hk|]. intros k. by apply known_later; [apply (later_uuid _ _ _ Hl)|apply (later_drawn _ _ _ Hl)].
  - rewrite Ea. intros k [?| ->%list_elem_of_singleton]%elem_of_app; [by left|by right].
Qed.

(** What an edit that was committed leaves. *)
Definition landed (w w' : Fs) (e e' : PreparedEdit) : Prop :=
  pe_staged e' = None /\
  let staged := pe_staged e ≫= fun p => fs_disk w !! key_of p in
  match pe_operation e with
  | OpCreate => fs_disk w !! target e = None /\ pe_backup e' = None /\ fs_disk w' !! target e = staged
  | OpUpdate | OpDelete =>
    (exists data mode, fs_disk w !! target e = Some (NFile data mode) /\ pe_expected e = Some (digest data)) /\
    is_Some (pe_backup e') /\ fs_disk w' !! target e = staged
  end.

Lemma later_known T w w' k : later T w w' -> known w k -> known w' k.
Proof. intros Hl. apply known_later; [apply (later_uuid _ _ _ Hl)|apply (later_drawn _ _ _ Hl)]. Qed.

(** The staged file follows its target to the backup. *)
Lemma replace_committing w e w1 e1 w' e' r p :
  good w -> pristine w e -> pe_staged e = Some p -> committing w e w1 e1 ->
  pe_staged e1 = Some p -> pe_installed e1 = false -> is_Some (pe_backup e1) ->
  fs_disk w1 !! target e = None -> fs_disk w1 !! key_of p = fs_disk w !! key_of p -> is_file (fs_disk w !! key_of p) ->
  install e (w1, e1) = ((w', e'), r) ->
  committing w e w' e' /\
  (r = Ok tt -> pe_staged e' = None /\ is_Some (pe_backup e') /\ fs_disk w' !! target e = fs_disk w !! key_of p).
Proof.
  intros Hg Hp Hs [Cl Ct Ckp (dir & name & Ch) Cn Ck Cf] Hs1 Hi1 [b Hb1] Hnone Heq Hf H.
  pose proof (target_housed _ _ _ _ Ch) as Ht. pose proof (kept_path _ _ Ckp) as Cp.
  assert (Ht1 : target e1 = target e) by (unfold target; by rewrite Cp).
  assert (Htk : known w1 (target e)).
  { eapply later_known; [exact Cl|]. destruct Hp as [_ _ Hk _ _ _]. by apply Forall_cons in Hk as [Hk _]. }
  apply (install_cases e w1 e1 dir name p) in H;
    [|apply Cl|done|by rewrite Cp|done|done|by rewrite Heq|by rewrite <- Ht, Ht1|by rewrite <- Ht, Ht1].
  destruct H as [(He & -> & Hd & Hl)|(-> & -> & n & Hp1 & Hd & Hl)].
  - split; [|by intros ->]. constructor; try done.
    + eapply later_trans; [exact Cl|]. by eapply later_weaken; [|exact Hl].
    + eapply tracks_frame; [|exact Ct]. intros k _. by rewrite Hd.
    + exists dir, name. by eapply housed_later.
    + eapply Forall_impl; [exact Ck|]. intros k. by eapply later_known.
  - rewrite <- Ht, Ht1 in Hd, Hl.
    assert (Ea : area e1 = target e :: key_of p :: [key_of b]).
    { unfold area, own. by rewrite Ht1, Hs1, Hb1. }
    assert (Ea' : area (pe_with e1 None (pe_backup e1) true) = [target e; key_of b]).
    { unfold area, own. cbn. rewrite Hb1. cbn. f_equal. done. }
    rewrite Ea in Cn, Ck, Cf. apply NoDup_cons in Cn as [N1 N2]. apply NoDup_cons in N2 as [N2 _].
    assert (Hd' : fs_disk w' !! target e = Some n) by (by rewrite Hd, lookup_insert_eq).
    split; [|intros _; cbn; split_and!; [done|by eexists|congruence]].
    constructor.
    + eapply later_trans; [exact Cl|]. eapply later_weaken; [|exact Hl].
      intros k [->| ->]; rewrite (area_pristine _ _ Hp), Hs; cbn; set_solver.
    + unfold tracks in *. cbn [pe_with pe_backup pe_installed]. rewrite Hb1, Hi1 in *. destruct Ct as (_ & Cb & Cfile).
      change (target (pe_with e1 None (Some b) true)) with (target e1). rewrite Ht1.
      split_and!; [|rewrite Hd, lookup_insert_ne, lookup_delete_ne by set_solver; done|done].
      rewrite Hd', <- Hp1, Heq. done.
    + destruct Ckp as (? & ? & ? & ->). by eexists _, _, _.
    + exists dir, name. eapply housed_later in Ch; [|exact Hl]. destruct Ch. by constructor.
    + rewrite Ea'. apply NoDup_cons. split; [set_solver|apply NoDup_singleton].
    + rewrite Ea'. apply Forall_cons in Ck as [K1 K2]. apply Forall_cons in K2 as [_ K2].
      constructor; [by eapply later_known|]. eapply Forall_impl; [exact K2|]. intros k. by eapply later_known.
    + rewrite Ea'. intros k Hin. apply Cf. set_solver.
Qed.

(** Setting the target aside, as part of a commit. *)
Lemma set_aside_committing w e w' e' r :
  good w -> pristine w e -> set_aside root (w, e) = ((w', e'), r) ->
  committing w e w' e' /\
  (r = Ok tt -> pe_staged e' = pe_staged e /\ pe_installed e' = false /\ is_Some (pe_backup e') /\
     fs_disk w' !! target e = None /\
     (forall p, pe_staged e = Some p -> fs_disk w' !! key_of p = fs_disk w !! key_of p) /\
     exists data mode, fs_disk w !! target e = Some (NFile data mode) /\ pe_expected e = Some (digest data)).
Proof.
  intros Hg Hp H. pose proof Hp as [(dir & name & Hh) _ Hk _ Hi _].
  apply (set_aside_cases _ _ dir name) in H; [|done..].
  destruct H as [(He & -> & Hd & Hl)|(-> & a & data & mode & -> & Hb & Hb' & Ht & Hexp & Hpre & Hd & Hl)].
  { split; [by apply committing_nothing|by intros ->]. }
  destruct (aside_committing w e w' dir name a data mode) as [Hc Hnone]; [done..|].
  rewrite <- (target_housed _ _ _ _ Hh) in *. split; [done|]. intros _. cbn.
  split_and!; [done..|by eexists|done| |by exists data, mode].
  intros p Hs. assert (Hin : key_of p ∈ area e) by (rewrite (area_pristine _ _ Hp), Hs; set_solver).
  pose proof (pristine_nodup _ _ Hp) as Hn. rewrite (area_pristine _ _ Hp), Hs in Hn.
  apply NoDup_cons in Hn as [Hn _]. rewrite Forall_forall in Hk. apply Hl; [by apply Hk|].
  intros E. rewrite <- E in Hn. set_solver.
Qed.

Lemma commit_edit_committing w e w' e' r :
  good w -> pristine w e -> commit_edit root (w, e) = ((w', e'), r) ->
  committing w e w' e' /\ (r = Ok tt -> landed w w' e e').
Proof.
  intros Hg Hp H. unfold commit_edit in H. rewrite M_bind_run in H. cbn [gets id] in H. cbn [snd] in H.
  unfold landed. pose proof (pristine_staged _ _ Hp) as Hst. destruct (pe_operation e) eqn:Ho.
  - destruct (commit_create_committing _ _ _ _ _ Hg Hp Ho H) as [Hc Hr]. split; [done|].
    intros Hok. destruct (Hr Hok) as (? & ? & ? & ?). done.
  - destruct (pe_staged e) as [p|] eqn:Hs; [|done]. destruct Hst as [_ Hf].
    apply M_bind_cases in H as [([] & [w1 e1] & Hx & H)|(x & Hx & ->)];
      apply set_aside_committing in Hx as [Hc Hr]; try done.
    destruct (Hr eq_refl) as (Hs1 & Hi1 & Hb1 & Hnone & Hpk & Hold). rewrite Hs in Hs1.
    destruct (replace_committing w e w1 e1 w' e' r p) as [Hc' Hr']; auto.
    split; [done|]. intros Hok. destruct (Hr' Hok) as (? & ? & ?). done.
  - destruct (pe_staged e) as [p|] eqn:Hs; [by destruct Hst|].
    apply set_aside_committing in H as [Hc Hr]; [|done..]. split; [done|].
    intros Hok. destruct (Hr Hok) as (Hs1 & Hi1 & Hb1 & Hnone & Hpk & Hold). rewrite Hs in Hs1. done.
Qed.

(** ** All edits *)

Definition areas (l : list PreparedEdit) : list Key := mjoin (area <$> l).

Lemma areas_cons e l : areas (e :: l) = area e ++ areas l.
Proof. done. Qed.

(** Edits whose files are their own. *)
Definition apart (l : list PreparedEdit) : Prop := NoDup (areas l).

Lemma area_in_areas e l k : e ∈ l -> k ∈ area e -> k ∈ areas l.
Proof. intros He Hk. unfold areas. apply list_elem_of_join. exists (area e). split; [done|]. by apply list_elem_of_fmap_2. Qed.

(** Committing a list: each edit reaches some state of its commit, and says where
    the file it found is. *)
Record committing_all (w : Fs) (l : list PreparedEdit) (w' : Fs) (l' : list PreparedEdit) : Prop := {
  all_later : later (fun k => k ∈ areas l) w w';
  all_tracks : Forall2 (fun e e' => tracks (fs_disk w !! target e) (fs_disk w') e' /\ kept e e' /\
                          exists dir name, housed (fs_disk w') dir name e') l l';
  all_apart : apart l';
  all_known : Forall (known w') (areas l');
  all_fresh : forall k, k ∈ areas l' -> k ∈ areas l \/ ~ known w k
}.

Lemma areas_pristine w l : Forall (pristine w) l -> Forall (known w) (areas l).
Proof.
  intros Hl. unfold areas. apply Forall_join, Forall_fmap. eapply Forall_impl; [exact Hl|]. intros e [].
  done.
Qed.

Lemma Forall2_in_l {A B} (P Q : A -> B -> Prop) l k :
  (forall x y, x ∈ l -> P x y -> Q x y) -> Forall2 P l k -> Forall2 Q l k.
Proof.
  intros H Hl. induction Hl as [|x y l k Hp Hl IH]; constructor; [apply H; [by left|done]|].
  apply IH. intros x' y' Hx. apply H. by right.
Qed.

Lemma Forall2_in_r {A B} (P Q : A -> B -> Prop) l k :
  (forall x y, y ∈ k -> P x y -> Q x y) -> Forall2 P l k -> Forall2 Q l k.
Proof.
  intros H Hl. induction Hl as [|x y l k Hp Hl IH]; constructor; [apply H; [by left|done]|].
  apply IH. intros x' y' Hy. apply H. by right.
Qed.

Lemma all_nothing w l : good w -> Forall (pristine w) l -> apart l -> committing_all w l w l.
Proof.
  intros Hg Hp Ha. constructor; [by apply later_same, same_refl| |done|by apply areas_pristine|by left].
  clear Ha. induction Hp as [|e l He Hl IH]; constructor; [|done].
  pose proof He as [Hh _ _ Hb Hi _]. unfold tracks. rewrite Hb, Hi. split_and!; [done|apply kept_refl|done].
Qed.

(** Keys of one edit are left alone by the steps of the others. *)
Lemma apart_not_in e l k : apart (e :: l) -> k ∈ area e -> k ∉ areas l.
Proof. unfold apart. rewrite areas_cons. intros (_ & H & _)%NoDup_app. apply H. Qed.

Lemma committing_others w e w1 e1 l :
  Forall (pristine w) l -> apart (e :: l) -> committing w e w1 e1 ->
  Forall (pristine w1) l /\ (forall e', e' ∈ l -> fs_disk w1 !! target e' = fs_disk w !! target e').
Proof.
  intros Hp Ha [Cl _ _ _ _ _ _]. rewrite Forall_forall in Hp.
  assert (Hno : forall e', e' ∈ l -> forall k, k ∈ area e' -> k ∉ area e).
  { intros e' He' k Hk Hk'. eapply apart_not_in; [done..|]. by eapply area_in_areas. }
  split.
  - apply Forall_forall. intros e' He'. eapply pristine_later; [exact Cl| |by apply Hp]. by apply Hno.
  - intros e' He'. apply (later_frame _ _ _ Cl).
    + specialize (Hp e' He'). pose proof (pristine_known _ _ Hp) as Hk. by apply Forall_cons in Hk as [Hk _].
    + apply (Hno e'); [done|by left].
Qed.

Lemma committing_cons w e l w1 e1 w' l' :
  pristine w e -> Forall (pristine w) l -> apart (e :: l) -> committing w e w1 e1 ->
  committing_all w1 l w' l' -> committing_all w (e :: l) w' (e1 :: l').
Proof.
  intros He Hl Ha Hc [Al At Aa Ak Af].
  destruct (committing_others w e w1 e1 l) as [_ Hsame]; [done..|]. destruct Hc as [Cl Ct Cp Ch Cn Ck Cf].
  assert (Hout : forall k, k ∈ area e1 -> k ∉ areas l).
  { intros k [Hk|Hk]%Cf Hin; [by eapply apart_not_in|]. apply Hk.
    pose proof (areas_pristine w l Hl) as Hkn. rewrite Forall_forall in Hkn. by apply Hkn. }
  assert (Hframe : forall k, k ∈ area e1 -> fs_disk w' !! k = fs_disk w1 !! k).
  { intros k Hk. apply (later_frame _ _ _ Al); [|by apply Hout]. rewrite Forall_forall in Ck. by apply Ck. }
  constructor.
  - eapply later_trans; (eapply later_weaken; [|done]); intros k Hk; rewrite areas_cons; set_solver.
  - constructor.
    + split_and!; [by eapply tracks_frame|done|]. destruct Ch as (dir & name & Ch). exists dir, name.
      by eapply housed_later.
    + eapply Forall2_in_l; [|exact At]. intros x y Hx (H1 & H2 & H3). by rewrite Hsame in H1.
  - unfold apart. rewrite areas_cons. apply NoDup_app. split_and!; [done| |done].
    intros k Hk [Hin|Hin]%Af; [by eapply Hout|]. apply Hin. rewrite Forall_forall in Ck. by apply Ck.
  - rewrite areas_cons. apply Forall_app. split; [|done]. eapply Forall_impl; [exact Ck|].
    intros k. by eapply later_known.
  - intros k. rewrite !areas_cons, !elem_of_app. intros [[?|?]%Cf|[?|Hk]%Af]; auto.
    right. intros Hk'. apply Hk. by eapply later_known.
Qed.

(** What happened to [e] outlives the steps of the others. *)
Lemma landed_later w w1 w' e e1 l :
  pristine w e -> Forall (pristine w) l -> apart (e :: l) -> committing w e w1 e1 ->
  later (fun k => k ∈ areas l) w1 w' -> landed w w1 e e1 -> landed w w' e e1.
Proof.
  intros He Hl Ha Hc Hlt. unfold landed.
  assert (Ht : fs_disk w' !! target e = fs_disk w1 !! target e).
  { pose proof (pristine_known _ _ He) as Hk. apply Forall_cons in Hk as [Hk _].
    apply (later_frame _ _ _ Hlt); [eapply later_known; [apply Hc|done]|].
    eapply apart_not_in; [done|by left]. }
  by rewrite Ht.
Qed.

Lemma landed_before w w1 w' e e' (l : list PreparedEdit) : pristine w e -> e ∈ l ->
  (forall e', e' ∈ l -> fs_disk w1 !! target e' = fs_disk w !! target e') ->
  (forall p, pe_staged e = Some p -> fs_disk w1 !! key_of p = fs_disk w !! key_of p) ->
  landed w1 w' e e' -> landed w w' e e'.
Proof.
  intros He Hin Ht Hs. unfold landed. rewrite (Ht e Hin).
  destruct (pe_staged e) as [p|]; [|done]. cbn. by rewrite (Hs p).
Qed.

Lemma commit_all_committing l : forall w w' l' r,
  good w -> Forall (pristine w) l -> apart l -> commit_all root l w = (w', l', r) ->
  committing_all w l w' l' /\ (r = Ok tt -> Forall2 (landed w w') l l').
Proof.
  induction l as [|e l IH]; intros w w' l' r Hg Hp Ha H.
  { injection H as <- <- <-. split; [by apply all_nothing|by constructor]. }
  apply Forall_cons in Hp as [He Hl]. cbn in H.
  destruct (commit_edit root (w, e)) as [[w1 e1] r1] eqn:E1.
  apply commit_edit_committing in E1 as [Hc Hr1]; [|done..].
  assert (Ha' : apart l) by (unfold apart in *; rewrite areas_cons in Ha; by apply NoDup_app in Ha as (_ & _ & ?)).
  destruct (committing_others w e w1 e1 l) as [Hl1 Hsame]; [done..|].
  assert (G1 : good w1) by (eapply later_good, Hc).
  destruct r1 as [[]|x].
  - destruct (commit_all root l w1) as [[w2 l2] r2] eqn:E2. injection H as <- <- <-.
    apply IH in E2 as [Hall Hr2]; [|done..]. split; [by eapply committing_cons|].
    intros ->. constructor; [by eapply landed_later, Hr1; [..|apply Hall|]|].
    eapply Forall2_in_l; [|by apply Hr2]. intros x y Hx Hland.
    assert (Hpx : pristine w x) by (rewrite Forall_forall in Hl; by apply Hl).
    eapply landed_before; [done..| |done]. intros p Hp.
    assert (Hin : key_of p ∈ area x) by (rewrite (area_pristine _ _ Hpx), Hp; set_solver).
    apply Hc.
    + pose proof (pristine_known _ _ Hpx) as Hk. rewrite Forall_forall in Hk. by apply Hk.
    + intros Hin'. eapply apart_not_in; [done..|]. by eapply area_in_areas.
  - injection H as <- <- <-. split; [|done]. eapply committing_cons; [done..|]. by apply all_nothing.
Qed.

(** ** Going back *)

Lemma file_settled d dir name n : chain d dir -> d !! (dir ++ [name]) = Some n -> is_file (Some n) -> settled d (dir ++ [name]).
Proof. intros Hc Hd (data & mode & [= ->]). right. eexists _, _, _. split_and!; [done..|]. by intros p. Qed.

Lemma file_exists w dir name n :
  chain (fs_disk w) dir -> fs_disk w !! (dir ++ [name]) = Some n -> is_file (Some n) ->
  path_exists w (of_key (dir ++ [name])) = true.
Proof. intros Hc Hd Hf. unfold path_exists. rewrite resolve_of_key; [done|]. by eapply file_settled. Qed.

(** Removing a file of the directory. *)
Lemma remove_file_cases w w' dir a r :
  good w -> chain (fs_disk w) dir -> fs_remove_file (of_key (dir ++ [a])) w = (w', r) ->
  later (fun k => k = dir ++ [a]) w w' /\
  ((is_err r /\ fs_disk w' = fs_disk w) \/ (r = Ok tt /\ fs_disk w' = delete (dir ++ [a]) (fs_disk w))).
Proof.
  intros Hg Hc Hr. apply remove_cases in Hr as [(m & -> & Hs)|(k & n & He & Hn & Hd & Hs & ->)]; [..|apply Hg].
  { split; [by apply later_same|]. left. split; [done|]. apply Hs. }
  rewrite entry_of_key in He by done. injection He as <-. rewrite node_snoc in Hn.
  split; [|right; split; [done|apply Hs]]. eapply later_disk; [done..| | |].
  - intros k _ Hk. by rewrite lookup_delete_ne by (intros <-; tauto).
  - intros k Hk. rewrite lookup_delete_ne by congruence. done.
  - intros k n' [_ H]%lookup_delete_Some. by eapply Hg.
Qed.

Lemma own_in e p : pe_staged e = Some p \/ pe_backup e = Some p -> key_of p ∈ own e.
Proof.
  intros H. unfold own. apply list_elem_of_fmap_2. apply elem_of_app. destruct H as [-> | ->]; [left|right]; by left.
Qed.

Lemma target_in d dir name e : housed d dir name e -> dir ++ [name] ∈ area e.
Proof. intros Hh. rewrite <- (target_housed _ _ _ _ Hh). by left. Qed.

Lemma drop_staged_later w dir name e :
  good w -> housed (fs_disk w) dir name e -> NoDup (area e) -> Forall (known w) (area e) ->
  later (fun k => k ∈ area e) w (drop_staged e w) /\
  fs_disk (drop_staged e w) !! target e = fs_disk w !! target e.
Proof.
  intros Hg Hh Hn Hk. unfold drop_staged. destruct (pe_staged e) as [p|] eqn:Hs.
  2:{ split; [by apply later_same, same_refl|done]. }
  pose proof (own_in e p (or_introl Hs)) as Hin. apply NoDup_cons in Hn as [Hn _].
  destruct (housed_staged _ _ _ _ Hh p Hs) as [a ->]. rewrite key_of_key in Hin.
  destruct (fs_remove_file _ w) as [w1 r] eqn:E. apply (remove_file_cases _ _ dir a) in E as [Hl _]; [|done|apply Hh].
  split.
  - eapply later_weaken; [|exact Hl]. intros k ->. by right.
  - apply (later_frame _ _ _ Hl); [by apply Forall_cons in Hk as [Hk _]|]. intros E. by rewrite E in Hn.
Qed.

Lemma restore_backup_restores w dir name e w' errors o :
  good w -> housed (fs_disk w) dir name e -> NoDup (area e) -> Forall (known w) (area e) ->
  match pe_backup e with
  | Some b => fs_disk w !! target e = None /\ fs_disk w !! key_of b = o /\ is_file o
  | None => fs_disk w !! target e = o
  end ->
  restore_backup e w = (w', errors) ->
  later (fun k => k ∈ area e) w w' /\ (errors = [] -> fs_disk w' !! target e = o).
Proof.
  intros Hg Hh Hn Hk Ht H. unfold restore_backup in H. destruct (pe_backup e) as [b|] eqn:Hb.
  2:{ injection H as <- <-. split; [by apply later_same, same_refl|done]. }
  pose proof (own_in e b (or_intror Hb)) as Hin.
  destruct (housed_backup _ _ _ _ Hh b Hb) as [a ->]. rewrite key_of_key in Hin, Ht.
  destruct Ht as (Ht & Hbo & Hf). pose proof Hf as (data & mode & E). rewrite E in Hbo, Hf.
  rewrite (file_exists w dir a _ (housed_chain _ _ _ _ Hh) Hbo Hf), (housed_path _ _ _ _ Hh) in H.
  rewrite (target_housed _ _ _ _ Hh) in *.
  destruct (fs_rename _ _ w) as [w1 r] eqn:Er.
  assert (Hio : io (fs_rename (of_key (dir ++ [a])) (of_key (dir ++ [name]))) w = (w1, map_err IoError r)).
  { unfold io. by rewrite Er. }
  assert (Hkt : known w (dir ++ [name])).
  { apply Forall_cons in Hk as [Hk _]. by rewrite (target_housed _ _ _ _ Hh) in Hk. }
  apply (move_cases _ _ dir a name (NFile data mode) _ (fun k => k ∈ area e)) in Hio;
    [|done|apply Hh|done..|by right|by eapply target_in].
  destruct Hio as [[He Hs]|(Hr & Hd & _ & Hl)].
  - destruct r as [|x]; [done|]. injection H as <- <-. split; [by apply later_same|done].
  - destruct r as [|x]; [|done]. injection H as <- <-. split; [done|]. intros _. by rewrite Hd, lookup_insert_eq, E.
Qed.

Lemma rollback_rest_restores w dir name e w' errors o :
  good w -> housed (fs_disk w) dir name e -> NoDup (area e) -> Forall (known w) (area e) ->
  match pe_backup e with
  | Some b => fs_disk w !! target e = None /\ fs_disk w !! key_of b = o /\ is_file o
  | None => fs_disk w !! target e = o
  end ->
  rollback_rest e w = (w', errors) ->
  later (fun k => k ∈ area e) w w' /\ (errors = [] -> fs_disk w' !! target e = o).
Proof.
  intros Hg Hh Hn Hk Ht H. unfold rollback_rest in H. destruct (restore_backup e w) as [w1 errs] eqn:E.
  injection H as <- <-. eapply restore_backup_restores in E as [Hl Hr]; [|done..].
  assert (Hk1 : Forall (known w1) (area e)).
  { eapply Forall_impl; [exact Hk|]. intros k. by eapply later_known. }
  destruct (drop_staged_later w1 dir name e) as [Hl2 Heq]; [apply Hl|by eapply housed_later|done..|].
  split; [by eapply later_trans|]. intros He. by rewrite Heq, Hr.
Qed.

Lemma rollback_edit_restores w dir name e w' errors o :
  good w -> housed (fs_disk w) dir name e -> NoDup (area e) -> Forall (known w) (area e) ->
  tracks o (fs_disk w) e -> rollback_edit e w = (w', errors) ->
  later (fun k => k ∈ area e) w w' /\ (errors = [] -> fs_disk w' !! target e = o).
Proof.
  intros Hg Hh Hn Hk Ht H. unfold rollback_edit in H. unfold tracks in Ht.
  destruct (pe_installed e) eqn:Hi; cbn [andb] in H.
  2:{ eapply rollback_rest_restores in H; [done..|]. by destruct (pe_backup e). }
  rewrite (housed_path _ _ _ _ Hh) in H.
  assert (Hf : is_file (fs_disk w !! target e)) by (destruct (pe_backup e); naive_solver).
  pose proof Hf as (data & mode & Et). rewrite Et in Hf. rewrite (target_housed _ _ _ _ Hh) in Et.
  rewrite (file_exists w dir name _ (housed_chain _ _ _ _ Hh) Et Hf) in H.
  destruct (fs_remove_file _ w) as [w1 r] eqn:Er.
  apply (remove_file_cases _ _ dir name) in Er; [|done|apply Hh].
  destruct Er as [Hl [[He Hd]|[-> Hd]]].
  { destruct r as [|x]; [done|]. injection H as <- <-. split; [|done].
    eapply later_weaken; [|exact Hl]. intros k ->. by eapply target_in. }
  assert (Hl' : later (fun k => k ∈ area e) w w1).
  { eapply later_weaken; [|exact Hl]. intros k ->. by eapply target_in. }
  assert (Hd1 : fs_disk w1 !! target e = None).
  { by rewrite Hd, (target_housed _ _ _ _ Hh), lookup_delete_eq. }
  eapply (rollback_rest_restores w1 dir name e w' errors o) in H as [Hl2 Hr]; [|apply Hl|by eapply housed_later|done| |].
  - split; [by eapply later_trans|done].
  - eapply Forall_impl; [exact Hk|]. intros k. by eapply later_known.
  - destruct (pe_backup e) as [b|] eqn:Hb; [|rewrite Hd1; by destruct Ht].
    destruct Ht as (_ & Hbo & Hfo). split_and!; [done| |done].
    rewrite Hd, lookup_delete_ne; [done|]. intros E. apply NoDup_cons in Hn as [Hn _]. apply Hn.
    rewrite (target_housed _ _ _ _ Hh), E. apply own_in. by right.
Qed.

(** An edit whose state is known, with the file its target had. *)
Definition tracked (w : Fs) (o : option Node) (e : PreparedEdit) : Prop :=
  tracks o (fs_disk w) e /\ exists dir name, housed (fs_disk w) dir name e.

Lemma rollback_all_restores l : forall os w w' errors,
  good w -> Forall2 (tracked w) os l -> apart l -> Forall (known w) (areas l) ->
  rollback_prepared l w = (w', errors) ->
  later (fun k => k ∈ areas l) w w' /\
  (errors = [] -> Forall2 (fun o e => fs_disk w' !! target e = o) os l).
Proof.
  induction l as [|e l IH]; intros os w w' errors Hg Ht Ha Hk H.
  { injection H as <- <-. apply Forall2_nil_inv_r in Ht as ->. split; [by apply later_same, same_refl|by constructor]. }
  apply Forall2_cons_inv_r in Ht as (o & os' & [Hto Hh] & Hts & ->). cbn in H.
  destruct (rollback_prepared l w) as [w1 errs] eqn:E1. destruct (rollback_edit e w1) as [w2 more] eqn:E2.
  injection H as <- <-. unfold apart in Ha. rewrite areas_cons in Ha, Hk.
  apply NoDup_app in Ha as (Na & Hd & Nl). apply Forall_app in Hk as [Ke Kl].
  apply (IH os') in E1 as [Hl1 Hr1]; [|done..]. destruct Hh as (dir & name & Hh). 
  assert (Ke1 : Forall (known w1) (area e)).
  { eapply Forall_impl; [exact Ke|]. intros k. by eapply later_known. }
  eapply (rollback_edit_restores w1 dir name e w2 more o) in E2 as [Hl2 Hr2];
    [|apply Hl1|by eapply housed_later|done|done|].
  2:{ eapply tracks_frame; [|exact Hto]. intros k Hin. apply (later_frame _ _ _ Hl1); [|by apply Hd].
      rewrite Forall_forall in Ke. by apply Ke. }
  split.
  - eapply later_trans; (eapply later_weaken; [|done]); intros k; rewrite areas_cons; set_solver.
  - intros [-> ->]%app_eq_nil. specialize (Hr1 eq_refl). specialize (Hr2 eq_refl). constructor; [done|].
    eapply Forall2_in_r; [|exact Hr1]. intros o' e' He' <-.
    assert (Hin : target e' ∈ areas l) by (eapply area_in_areas; [done|by left]).
    apply (later_frame _ _ _ Hl2); [|intros Hin'; by eapply Hd].
    eapply later_known; [done|]. rewrite Forall_forall in Kl. by apply Kl.
Qed.

Lemma later_then T T' w1 w2 w3 :
  later T w1 w2 -> later T' w2 w3 -> (forall k, known w1 k -> T' k -> T k) -> later T w1 w3.
Proof.
  intros [G1 U1 D1 C1 M1 F1 R1] [G2 U2 D2 C2 M2 F2 R2] HT.
  constructor; [done|congruence|lia|congruence..| |by auto].
  intros k Hk Ht. rewrite F2, F1; [done..| |by auto]. by apply (known_later w1).
Qed.

Definition needs_recovery (x : AxiomError) : Prop :=
  exists e errors, errors <> [] /\
    x = ToolError (error_display e +:+ "; rollback needs manual recovery: " +:+ join "; " errors).

Lemma remove_backups_later l : forall w warnings w' warnings',
  good w -> Forall (fun e => exists dir name, housed (fs_disk w) dir name e) l ->
  foldl remove_backup (w, warnings) l = (w', warnings') ->
  later (fun k => k ∈ mjoin (own <$> l)) w w'.
Proof.
  induction l as [|e l IH]; intros w ws w' ws' Hg Hh H; cbn [foldl] in H.
  { injection H as <- <-. by apply later_same, same_refl. }
  apply Forall_cons in Hh as [(dir & name & He) Hl]. cbn [fst snd] in H.
  assert (Hstep : forall w1 ws1, later (fun k => k ∈ own e) w w1 ->
    foldl remove_backup (w1, ws1) l = (w', ws') -> later (fun k => k ∈ mjoin (own <$> (e :: l))) w w').
  { intros w1 ws1 Hl1 Hf. eapply IH in Hf; [|apply Hl1|].
    - eapply later_trans; (eapply later_weaken; [|done]); intros k; cbn; set_solver.
    - eapply Forall_impl; [exact Hl|]. intros x (dir' & name' & Hx). exists dir', name'. by eapply housed_later. }
  unfold remove_backup at 2 in H. destruct (pe_backup e) as [b|] eqn:Hb.
  - pose proof (own_in e b (or_intror Hb)) as Hin. destruct (housed_backup _ _ _ _ He b Hb) as [a ->].
    rewrite key_of_key in Hin. cbn [fst snd] in H. destruct (fs_remove_file _ w) as [w1 r] eqn:E.
    apply (remove_file_cases _ _ dir a) in E as [Hl1 _]; [|done|apply He].
    assert (Hl1' : later (fun k => k ∈ own e) w w1) by (eapply later_weaken; [|exact Hl1]; by intros k ->).
    destruct r; by eapply Hstep.
  - eapply (Hstep w); [by apply later_same, same_refl|done].
Qed.

Lemma own_in_areas l k : k ∈ mjoin (own <$> l) -> k ∈ areas l.
Proof.
  induction l as [|e l IH]; [done|]. rewrite areas_cons. unfold area. cbn. set_solver.
Qed.

Lemma targets_known w l : Forall (pristine w) l -> Forall (known w) (target <$> l).
Proof. intros H. apply Forall_fmap. eapply Forall_impl; [exact H|]. intros e [_ _ Hk _ _ _]. by apply Forall_cons in Hk as [Hk _]. Qed.

Lemma patch_outcome_of l n ws :
  pto_edits (patch_outcome l n ws) = edit_outcome <$> l /\
  pto_changed_paths (patch_outcome l n ws) = pe_relative <$> l.
Proof. unfold patch_outcome. by destruct (truncate_utf8 _ _). Qed.

Lemma apart_target l e : apart l -> e ∈ l -> target e ∉ mjoin (own <$> l).
Proof.
  unfold apart. induction l as [|x l IH]; [by intros _ ?%not_elem_of_nil|].
  rewrite areas_cons. intros (Hx & Hd & Hl)%NoDup_app [->|He]%elem_of_cons; cbn; rewrite elem_of_app.
  - intros [Hin|Hin%own_in_areas]; [by apply NoDup_cons in Hx as [Hx _]|]. eapply Hd; [|exact Hin]. by left.
  - intros [Hin|Hin]; [|by apply IH]. eapply (Hd (target e)); [unfold area; set_solver|].
    eapply area_in_areas; [done|by left].
Qed.

(** Every edit of [l] has its state in [l1]. *)
Lemma all_tracks_target w l w1 l1 e :
  committing_all w l w1 l1 -> e ∈ l -> exists e1, e1 ∈ l1 /\ target e1 = target e.
Proof.
  intros [_ At _ _ _] He. apply list_elem_of_lookup in He as [i Hi].
  destruct (Forall2_lookup_l _ _ _ _ _ At Hi) as (e1 & Hi1 & _ & Hk & _). exists e1.
  split; [by eapply list_elem_of_lookup_2|]. unfold target. by rewrite (kept_path _ _ Hk).
Qed.

Lemma all_kept w l w1 l1 :
  committing_all w l w1 l1 -> edit_outcome <$> l1 = edit_outcome <$> l /\ pe_relative <$> l1 = pe_relative <$> l.
Proof.
  intros [_ At _ _ _]. induction At as [|e e1 l l1 (_ & Hk & _) _ [IH1 IH2]]; [done|].
  destruct (kept_outcome _ _ Hk) as [E1 E2]. cbn. by rewrite E1, E2, IH1, IH2.
Qed.

Lemma all_tracked w l w1 l1 :
  committing_all w l w1 l1 -> Forall2 (tracked w1) ((fun e => fs_disk w !! target e) <$> l) l1.
Proof.
  intros [_ At _ _ _]. apply Forall2_fmap_l. eapply Forall2_impl; [exact At|]. intros e e1 (? & _ & ?). by split.
Qed.

(** Prepared edits are applied all, or none is. *)
Lemma apply_prepared_cases l n w w' r :
  good w -> Forall (pristine w) l -> apart l -> apply_prepared root l n w = (w', r) ->
  later (fun k => k ∈ areas l) w w' /\
  match r with
  | Ok o => (exists l', Forall2 (landed w w') l l') /\ pto_edits o = edit_outcome <$> l /\
            pto_changed_paths o = pe_relative <$> l
  | Err x => needs_recovery x \/ (forall e, e ∈ l -> fs_disk w' !! target e = fs_disk w !! target e)
  end.
Proof.
  intros Hg Hp Ha H. unfold apply_prepared in H. destruct (commit_all root l w) as [[w1 l1] r1] eqn:Ec.
  apply commit_all_committing in Ec as [Hall Hr]; [|done..]. pose proof Hall as [Al At Aa Ak Af].
  assert (Hin : forall k, known w k -> k ∈ areas l1 -> k ∈ areas l) by (intros k Hk [?|?]%Af; done).
  destruct r1 as [[]|x].
  - destruct (remove_backups l1 w1) as [w2 ws] eqn:Er. injection H as <- <-.
    apply remove_backups_later in Er; [|apply Al|].
    2:{ clear -At. induction At as [|e e' l l' (_ & _ & He) _ IH]; by constructor. }
    split; [eapply later_then; [done..|]; intros k Hk Hk'; apply Hin; [done|by apply own_in_areas]|].
    destruct (patch_outcome_of l1 n ws) as [-> ->]. destruct (all_kept _ _ _ _ Hall) as [-> ->].
    split; [|done]. exists l1. eapply Forall2_in_l; [|by apply Hr]. intros e e1 He Hland.
    unfold landed in *. rewrite (later_frame _ _ _ Er); [done|..].
    + eapply later_known; [exact Al|]. pose proof (targets_known w l Hp) as Hk.
      rewrite Forall_forall in Hk. apply Hk. by apply list_elem_of_fmap_2.
    + destruct (all_tracks_target _ _ _ _ _ Hall He) as (e2 & He2 & <-). by apply apart_target.
  - destruct (rollback_prepared l1 w1) as [w2 errors] eqn:Er. injection H as <- <-.
    eapply rollback_all_restores in Er as [Hl Hback]; [|apply Al|by apply all_tracked|done..].
    split; [eapply later_then; [done..|]; intros k Hk Hk'; by apply Hin|].
    destruct errors as [|m ms]; [right|left; by exists x, (m :: ms)].
    specialize (Hback eq_refl). apply Forall2_fmap_l in Hback. intros e He.
    apply list_elem_of_lookup in He as [i Hi].
    destruct (Forall2_lookup_l _ _ _ _ _ Hback Hi) as (e1 & Hi1 & <-).
    destruct (Forall2_lookup_lr _ _ _ _ _ _ At Hi Hi1) as (_ & Hk & _).
    unfold target. by rewrite (kept_path _ _ Hk).
Qed.

End Edits.
