(* ===== verification/WorkspaceTheorems.v ===== *)
(** Patches are transactions: what a patch leaves on disk when it succeeds, when it
    fails, and where it can write at all, whatever call of the system fails. *)

From stdpp Require Import base gmap strings list.
From Stdlib Require Import ZArith NArith Lia ZifyBool ZifyN ZifyNat.
From S2P Require Import Prelude RustStr Accounting Content Paths AppError Disk Lease Workspace WorkspaceEdits.

Local Open Scope Z_scope.

Section Patches.
Context `{KD : KeyDigest} `{LD : LineDiff} `{WK : Walker}.
Variable rk : Key.
#[local] Abbreviation root := (of_key rk).

(** ** Staging *)

Lemma entry_of_settled w dir a :
  settled (fs_disk w) dir ->
  (chain (fs_disk w) dir /\ entry w (of_key (dir ++ [a])) = Ok (dir ++ [a])) \/
  is_err (entry w (of_key (dir ++ [a]))).
Proof.
  intros Hs. pose proof (resolve_of_key w dir Hs) as Hr.
  destruct Hs as [Hc|(d & s & n & -> & Hc & Hn & Hd & Hl)]; [left; split; [done|by apply entry_of_key]|right].
  unfold entry. rewrite of_key_snoc, last_snoc, removelast_last.
  change (walk MAX_LINKS (fs_disk w) (start w (of_key ((d ++ [s]) ++ [a]))) (Normal <$> d ++ [s]))
    with (resolve w (of_key (d ++ [s]))).
  rewrite Hr. cbn. rewrite node_snoc, Hn. by destruct n.
Qed.

(** [w] with the file [n] added at [k]. *)
Definition wrote (w1 : Fs) (k : Key) (n : Node) (w : Fs) : Prop :=
  same (with_disk w1 (<[k := n]> (fs_disk w1))) w.

Lemma create_cases w dir a w' r :
  quiet w -> settled (fs_disk w) dir -> io (fs_create_new (of_key (dir ++ [a]))) w = (w', r) ->
  (is_err r /\ same w w') \/
  (r = Ok (dir ++ [a]) /\ chain (fs_disk w) dir /\ fs_disk w !! (dir ++ [a]) = None /\
   wrote w (dir ++ [a]) (NFile [] (Z.land 438 (Z.lnot (fs_umask w)))) w').
Proof.
  intros Hq Hd (r0 & Hx & Hr)%io_cases.
  apply call_cases in Hx as (w1 & Hs & [(m & -> & ->)|(d & k & Hf & -> & ->)]); [by subst r; left|right|done].
  apply bind_Ok in Hf as (k' & Hk & Hf). rewrite (entry_same _ _ _ Hs) in Hk.
  destruct (entry_of_settled w dir a Hd) as [[Hc He]|He]; [|by rewrite Hk in He].
  rewrite He in Hk. injection Hk as <-. rewrite (same_disk _ _ Hs), (same_umask _ _ Hs), node_snoc in Hf.
  destruct (fs_disk w !! (dir ++ [a])) as [n|] eqn:Hn; [done|]. injection Hf as <- <-. subst r.
  split_and!; [done..|]. unfold wrote. destruct Hs. by constructor.
Qed.

Lemma append_inserted k n data mode d :
  append_to k data (<[k := NFile n mode]> d) = <[k := NFile (n ++ data) mode]> d.
Proof. unfold append_to. by rewrite lookup_insert_eq, insert_insert_eq. Qed.

Lemma write_cases w1 k data mode content w w' r :
  quiet w -> wrote w1 k (NFile data mode) w -> io (fs_write_all k content) w = (w', r) ->
  (r = Ok tt /\ wrote w1 k (NFile (data ++ content) mode) w') \/
  (is_err r /\ exists part, wrote w1 k (NFile part mode) w').
Proof.
  intros Hq Hw (r0 & Hx & Hr)%io_cases. unfold fs_write_all in Hx.
  destruct (next_event w) as [w2 o] eqn:E. apply next_event_quiet in E as Hs; [|done].
  pose proof (same_trans _ _ _ Hw Hs) as Hw2. pose proof (same_disk _ _ Hw2) as Hd. cbn in Hd.
  assert (Hput : forall c, wrote w1 k (NFile (data ++ c) mode) (with_disk w2 (append_to k c (fs_disk w2)))).
  { intros c. rewrite Hd, append_inserted. unfold wrote. destruct Hw2. by constructor. }
  destruct o as [[c mv [m|] n]|]; injection Hx as <- <-; subst r; [right; split; [done|by eexists]|left; done..].
Qed.

Lemma sync_cases k w w' r : quiet w -> io (fs_sync_all k) w = (w', r) -> same w w'.
Proof.
  intros Hq (r0 & Hx & _)%io_cases. apply call_cases in Hx as (w1 & Hs & [(m & _ & ->)|(d & u & [= <- _] & -> & _)]); [done| |done].
  destruct Hs. by constructor.
Qed.

Lemma permissions_cases w1 dir a data mode m w w' r :
  quiet w -> chain (fs_disk w1) dir -> fs_disk w1 !! (dir ++ [a]) = None ->
  wrote w1 (dir ++ [a]) (NFile data mode) w ->
  io (fs_set_permissions (of_key (dir ++ [a])) m) w = (w', r) ->
  (r = Ok tt /\ wrote w1 (dir ++ [a]) (NFile data m) w') \/
  (is_err r /\ wrote w1 (dir ++ [a]) (NFile data mode) w').
Proof.
  intros Hq Hc Hn Hw (r0 & Hx & Hr)%io_cases.
  apply call_cases in Hx as (w2 & Hs & [(x & -> & ->)|(d & u & Hf & -> & ->)]); [subst r; right; split; [done|by eapply same_trans]|left|done].
  pose proof (same_trans _ _ _ Hw Hs) as Hw2. pose proof (same_disk _ _ Hw2) as Hd. cbn in Hd.
  rewrite resolve_of_key in Hf.
  2:{ rewrite Hd. eapply file_settled; [|by rewrite lookup_insert_eq|by eexists _, _].
      eapply chain_mono; [|exact Hc]. intros k Hk. rewrite lookup_insert_ne; [done|by intros <-; rewrite Hn in Hk]. }
  cbn [mbind result_bind] in Hf. rewrite Hd, lookup_insert_eq in Hf. injection Hf as <- <-. subst r.
  split; [done|]. rewrite insert_insert_eq. unfold wrote. destruct Hw2. by constructor.
Qed.

Definition final_mode (w : Fs) (permissions mode : option Z) : Z :=
  default (default (Z.land 438 (Z.lnot (fs_umask w))) permissions) mode.

Lemma write_staged_cases w dir a content permissions mode w' r :
  quiet w -> settled (fs_disk w) dir ->
  write_staged (of_key (dir ++ [a])) content permissions mode w = (w', r) ->
  (r = Ok tt /\ chain (fs_disk w) dir /\ fs_disk w !! (dir ++ [a]) = None /\
   wrote w (dir ++ [a]) (NFile content (final_mode w permissions mode)) w') \/
  (is_err r /\ (same w w' \/ (chain (fs_disk w) dir /\ fs_disk w !! (dir ++ [a]) = None /\
                              exists data m, wrote w (dir ++ [a]) (NFile data m) w'))).
Proof.
  intros Hq Hd H. assert (Hqw : forall k n w2, wrote w k n w2 -> quiet w2) by (intros k n w2 Hw; by apply Hw).
  unfold write_staged in H. apply M_bind_cases in H as [(k & w1 & E & H)|(x & E & ->)];
    apply (create_cases _ dir a) in E as [[He Hs]|(Hk & Hc & Hn & Hw)]; try done; [injection Hk as ->|right; split; [done|by left]].
  apply M_bind_cases in H as [([] & w2 & E & H)|(x & E & ->)];
    apply (write_cases w _ [] _ _ _ _ _ (Hqw _ _ _ Hw) Hw) in E as [[Hr Hw2]|[He [part Hw2]]]; try done;
    [|right; split; [done|right; split_and!; [done..|by eexists _, _]]].
  assert (Hfail : forall x data m, wrote w (dir ++ [a]) (NFile data m) w' -> r = Err x ->
    is_err r /\ (same w w' \/ (chain (fs_disk w) dir /\ fs_disk w !! (dir ++ [a]) = None /\
                              exists data m, wrote w (dir ++ [a]) (NFile data m) w'))).
  { intros x data m Hx ->. split; [done|]. right. split_and!; [done..|by eexists _, _]. }
  apply M_bind_cases in H as [(u & w3 & E & H)|(x & E & ->)]; apply sync_cases in E; try (by eapply Hqw);
    pose proof (same_trans _ _ _ Hw2 E) as Hw3; [|right; by eapply Hfail].
  apply M_bind_cases in H as [(u' & w4 & E' & H)|(x & E' & ->)].
  2:{ right. destruct permissions as [p|]; [|done].
      apply (permissions_cases w _ _ _ _ _ _ _ _ (Hqw _ _ _ Hw3) Hc Hn Hw3) in E' as [[? _]|[_ Hw4]]; [done|by eapply Hfail]. }
  assert (Hw4 : wrote w (dir ++ [a]) (NFile content (default (Z.land 438 (Z.lnot (fs_umask w))) permissions)) w4).
  { destruct permissions as [p|]; [|by injection E' as <- <-].
    by apply (permissions_cases w _ _ _ _ _ _ _ _ (Hqw _ _ _ Hw3) Hc Hn Hw3) in E' as [[_ Hw4]|[? _]]. }
  destruct mode as [m|]; [|injection H as <- <-; left; by split_and!].
  apply (permissions_cases w _ _ _ _ _ _ _ _ (Hqw _ _ _ Hw4) Hc Hn Hw4) in H as [[-> Hw5]|[He Hw5]];
    [left; by split_and!|]. right. destruct r; [done|]. by eapply Hfail.
Qed.

(** [w] is [w0] with files under drawn names. *)
Record staging (w0 w : Fs) : Prop := {
  staging_later : later (fun _ => False) w0 w;
  staging_files : forall k n, fs_disk w !! k = Some n -> known w0 k \/ is_file (Some n)
}.

Lemma staging_refl w : good w -> staging w w.
Proof. intros Hg. split; [by apply later_same, same_refl|]. intros k n H. left. by eapply Hg. Qed.

Lemma staging_same w0 w w' : staging w0 w -> same w w' -> staging w0 w'.
Proof.
  intros [Hl Hf] Hs. split.
  - eapply later_trans; [exact Hl|]. by apply later_same; [apply Hl|].
  - intros k n. rewrite (same_disk _ _ Hs). apply Hf.
Qed.

Lemma staging_drawn w0 w : staging w0 w -> staging w0 (with_drawn w (S (fs_drawn w))).
Proof.
  intros [Hl Hf]. split; [|done]. eapply later_trans; [exact Hl|]. apply later_drawn_one, Hl.
Qed.

Lemma staging_wrote w0 w1 w' k data mode :
  staging w0 w1 -> known w1 k -> fs_disk w1 !! k = None -> ~ known w0 k ->
  wrote w1 k (NFile data mode) w' -> staging w0 w'.
Proof.
  intros [Hl Hf] Hk Hn Hnk Hw. pose proof Hl as [Gl _ _ _ _ _ _].
  assert (Hl1 : later (fun k' => k' = k) w1 w').
  { eapply later_disk; [done|exact Hw|..].
    - intros k' _ Hne. by rewrite lookup_insert_ne.
    - intros k' Hd. rewrite lookup_insert_ne; [done|]. intros <-. by rewrite Hn in Hd.
    - intros k' n [[<- _]|[_ Hd]]%lookup_insert_Some; [done|]. by eapply Gl. }
  split.
  - destruct Hl as [G1 U1 D1 C1 M1 F1 R1], Hl1 as [G2 U2 D2 C2 M2 F2 R2].
    constructor; [done|congruence|lia|congruence..| |by auto].
    intros k' Hk' _. rewrite F2; [apply F1; [done|by intros []]|by apply (known_later w0)|]. by intros ->.
  - intros k' n. rewrite (same_disk _ _ Hw). cbn. intros [[<- <-]|[_ Hd]]%lookup_insert_Some; [right; by eexists _, _|by apply Hf].
Qed.

Lemma later_unknown T w0 w k : later T w0 w -> ~ known w k -> ~ known w0 k.
Proof. intros Hl Hk Hk0. apply Hk. by eapply later_known. Qed.

(** A file was staged beside its target, or the stage is gone. *)
Lemma stage_content_cases w0 w dir name content permissions mode w' r :
  staging w0 w -> settled (fs_disk w) dir ->
  stage_content (of_key (dir ++ [name])) content permissions mode w = (w', r) ->
  staging w0 w' /\
  (is_err r \/ exists a, let k := dir ++ [a] in
     r = Ok (of_key k) /\ chain (fs_disk w) dir /\ ~ known w k /\ known w' k /\
     fs_disk w' !! k = Some (NFile content (final_mode w permissions mode)) /\
     forall k', k' <> k -> fs_disk w' !! k' = fs_disk w !! k').
Proof.
  intros Hst Hd H. unfold stage_content in H. rewrite M_bind_run, sibling_run in H.
  set (a := artifact_name name "stage" (fs_uuid w (fs_drawn w))) in *.
  set (w1 := with_drawn w (S (fs_drawn w))) in *.
  pose proof (staging_drawn _ _ Hst) as Hst1. fold w1 in Hst1.
  pose proof Hst as [Hlw _]. pose proof Hlw as [Gw _ _ _ _ _ _].
  assert (Hq : quiet w1) by apply Gw.
  assert (Hnk : ~ known w (dir ++ [a])) by apply not_known_drawn, purposes_in.
  assert (Hk1 : known w1 (dir ++ [a])) by (rewrite known_snoc; apply new_uuid_known; [apply purposes_in|apply Gw]).
  assert (Hwrote : forall data m w2, fs_disk w1 !! (dir ++ [a]) = None ->
    wrote w1 (dir ++ [a]) (NFile data m) w2 -> staging w0 w2).
  { intros data m w2 Hn Hw. eapply staging_wrote; [done..|by eapply later_unknown|done]. }
  unfold write_or_remove in H. destruct (write_staged _ _ _ _ w1) as [w2 r2] eqn:E.
  apply write_staged_cases in E as [(-> & Hc & Hn & Hw)|[He Hcase]]; [| |done|done].
  - injection H as <- <-. split; [by eapply Hwrote|]. right. exists a. split_and!; try done.
    + eapply known_later; [by apply (same_uuid _ _ Hw)| |exact Hk1]. by rewrite (same_drawn _ _ Hw).
    + rewrite (same_disk _ _ Hw). cbn. by rewrite lookup_insert_eq.
    + intros k' Hne. rewrite (same_disk _ _ Hw). cbn. by rewrite lookup_insert_ne.
  - destruct r2 as [|x]; [done|]. unfold try_remove in H.
    destruct (fs_remove_file _ w2) as [w3 r3] eqn:Er. injection H as <- <-. split; [|by left].
    assert (Hst2 : staging w0 w2).
    { destruct Hcase as [Hs|(Hc & Hn & data & m & Hw)]; [by eapply staging_same|by eapply Hwrote]. }
    apply remove_cases in Er as [(m & -> & Hs)|(k & n & Hk & Hn & _ & Hs & ->)]; [by eapply staging_same| |apply Hst2].
    destruct Hcase as [Hs2|(Hc & Hn1 & data & m & Hw)].
    + rewrite (entry_same _ _ _ Hs2) in Hk. destruct (entry_of_settled w1 dir a Hd) as [[Hc He']|He']; [|by rewrite Hk in He'].
      rewrite He' in Hk. injection Hk as <-. rewrite (same_disk _ _ Hs2), node_snoc in Hn.
      destruct Hnk. by eapply Gw.
    + assert (Hc2 : chain (fs_disk w2) dir).
      { rewrite (same_disk _ _ Hw). eapply chain_mono; [|exact Hc]. intros k' Hk'. cbn.
        rewrite lookup_insert_ne; [done|]. intros <-. by rewrite Hn1 in Hk'. }
      rewrite entry_of_key in Hk by done. injection Hk as <-. eapply staging_same; [exact Hst1|].
      clearbody w1. pose proof Hw as [W1 W2 W3 W4 W5 W6]. destruct Hs as [S1 S2 S3 S4 S5 S6]. cbn in *.
      constructor; [|congruence..|intros Hq1; by apply S6, W6].
      rewrite S1, W1. by apply delete_insert_id.
Qed.

(** ** Names that were there before *)

Definition names (P : string -> Prop) (l : list component) : Prop :=
  Forall (fun c => match c with Normal s => P s | _ => True end) l.

Lemma names_keys P k : names P (Normal <$> k) <-> Forall P k.
Proof. unfold names. apply Forall_fmap. Qed.

Lemma walk_same (P : string -> Prop) d d' links : forall todo cur,
  (forall k, Forall P k -> d' !! k = d !! k) -> (forall k p, d !! k = Some (NLink p) -> names P (comps p)) ->
  Forall P cur -> names P todo ->
  walk links d' cur todo = walk links d cur todo /\
  forall r, walk links d cur todo = Ok r -> Forall P r.
Proof.
  intros todo cur Hd Hlinks. revert todo cur.
  assert (Hnode : forall k, Forall P k -> node d' k = node d k) by (intros [|s k] Hk; [done|by apply Hd]).
  induction links as [links IH] using lt_wf_ind. induction todo as [|c todo IHt]; intros cur Hc Ht.
  { destruct links; cbn; split; [done|by intros r [= <-]|done|by intros r [= <-]]. }
  apply Forall_cons in Ht as [Hs Ht]. destruct c as [s| |].
  - assert (Hcs : Forall P (cur ++ [s])) by (apply Forall_app; split; [done|by constructor]).
    specialize (Hnode (cur ++ [s]) Hcs).
    destruct (node d (cur ++ [s])) as [[data mode| |p|]|] eqn:E.
    + destruct links; cbn; rewrite Hnode, E; (destruct todo; split; [done|by intros r [= <-]|done..]).
    + assert (E' : forall d0, node d0 (cur ++ [s]) = Some NDir ->
        walk links d0 cur (Normal s :: todo) = walk links d0 (cur ++ [s]) todo)
        by (intros d0 H0; destruct links; cbn; by rewrite H0).
      rewrite !E' by congruence. by apply IHt.
    + destruct links as [|links]; cbn; rewrite Hnode, E; [by split|].
      rewrite node_snoc in E. apply IH; [lia|destruct (absolute p); [constructor|done]|].
      apply Forall_app. split; [by eapply Hlinks|done].
    + destruct links; cbn; rewrite Hnode, E; (destruct todo; split; [done|by intros r [= <-]|done..]).
    + destruct links; cbn; rewrite Hnode, E; by split.
  - assert (E : forall d0, walk links d0 cur (ParentDir :: todo) = walk links d0 (removelast cur) todo) by (by destruct links).
    rewrite !E. apply IHt; [|done]. rewrite removelast_firstn_len. by apply Forall_take.
  - assert (E : forall d0, walk links d0 cur (CurDir :: todo) = walk links d0 cur todo) by (by destruct links).
    rewrite !E. by apply IHt.
Qed.

#[local] Opaque walk.

Definition intent_path (i : EditIntent) : Path :=
  match i with EditCreate p _ _ | EditUpdate p _ _ _ | EditDelete p _ => p end.

(** The identifiers to be drawn occur nowhere: in no link, in no path. *)
Record unguessed (w : Fs) (l : list Path) : Prop := {
  unguessed_links : forall k p, fs_disk w !! k = Some (NLink p) -> names (known_name w) (comps p);
  unguessed_root : Forall (known_name w) rk;
  unguessed_paths : Forall (fun p => names (known_name w) (comps p)) l
}.

Lemma names_known_key w k : Forall (known_name w) k -> known w k.
Proof.
  intros Hk. unfold known. destruct (last k) as [s|] eqn:E; [|done]. apply last_Some in E as [l ->].
  apply Forall_app in Hk as [_ Hk]. by apply Forall_cons in Hk as [Hk _].
Qed.

Lemma staging_frame w0 w k : staging w0 w -> Forall (known_name w0) k -> fs_disk w !! k = fs_disk w0 !! k.
Proof. intros [Hl _] Hk. apply (later_frame _ _ _ Hl); [by apply names_known_key|by intros []]. Qed.

Lemma resolve_staging w0 w l p :
  staging w0 w -> unguessed w0 l -> absolute p = true -> names (known_name w0) (comps p) ->
  resolve w p = resolve w0 p /\ forall k, resolve w0 p = Ok k -> Forall (known_name w0) k.
Proof.
  intros Hs [Hl _ _] Ha Hn. unfold resolve, start. rewrite Ha.
  apply walk_same; [|done|constructor|done]. intros k. by apply staging_frame.
Qed.

Lemma candidate_names w l p c :
  unguessed w l -> names (known_name w) (comps p) -> candidate root p = Ok c ->
  absolute c = true /\ names (known_name w) (comps c).
Proof.
  intros [_ Hr _] Hp. unfold candidate. destruct (existsb _ _); [done|]. intros [= <-].
  unfold path_join. destruct (absolute p) eqn:Ha; [done|]. split; [done|]. cbn. apply Forall_app.
  split; [by apply names_keys|]. apply Forall_forall.
  intros x [_ Hx]%list_elem_of_filter. unfold names in Hp. rewrite Forall_forall in Hp. by apply Hp.
Qed.

Lemma of_key_push k s : path_push (of_key k) s = of_key (k ++ [s]).
Proof. unfold path_push, of_key. cbn. by rewrite fmap_app. Qed.

Lemma resolve_settled w p k : absolute p = true -> resolve w p = Ok k -> settled (fs_disk w) k.
Proof.
  unfold resolve, start. intros -> H. exact (walk_settled _ MAX_LINKS (comps p) [] k (chain_nil _) H).
Qed.

Lemma resolve_existing_staging w0 w l p :
  staging w0 w -> unguessed w0 l -> names (known_name w0) (comps p) ->
  resolve_existing root w p = resolve_existing root w0 p /\
  forall q, resolve_existing root w0 p = Ok q ->
    exists k, q = of_key k /\ settled (fs_disk w) k /\ Forall (known_name w0) k /\ rk `prefix_of` k.
Proof.
  intros Hs Hu Hp. unfold resolve_existing. destruct (candidate root p) as [c|x] eqn:Ec;
    cbn [mbind result_bind]; [|by split].
  destruct (candidate_names _ _ _ _ Hu Hp Ec) as [Ha Hn].
  destruct (resolve_staging _ _ _ c Hs Hu Ha Hn) as [E Hk]. cbn [mbind result_bind]. unfold canonical.
  rewrite E. split; [done|]. destruct (resolve w0 c) as [k|x] eqn:Er; [|done]. cbn.
  intros q. unfold ensure_inside. destruct (path_starts_with (of_key k) root) eqn:Hin; [|done].
  intros [= <-]. exists k. split_and!; [done| |by apply Hk|by apply path_of_key_starts].
  by eapply resolve_settled.
Qed.

Lemma removelast_names P l : names P l -> names P (removelast l).
Proof. intros Hl. unfold names. rewrite removelast_firstn_len. by apply Forall_take. Qed.

Lemma resolve_for_write_staging w0 w l p :
  staging w0 w -> unguessed w0 l -> names (known_name w0) (comps p) ->
  resolve_for_write root w p = resolve_for_write root w0 p /\
  forall q, resolve_for_write root w0 p = Ok q ->
    exists k, q = of_key k /\ Forall (known_name w0) k /\ rk `prefix_of` k /\
      (settled (fs_disk w) k \/ exists up name, k = up ++ [name] /\ settled (fs_disk w) up).
Proof.
  intros Hs Hu Hp. unfold resolve_for_write. destruct (candidate root p) as [c|x] eqn:Ec;
    cbn [mbind result_bind]; [|by split].
  destruct (candidate_names _ _ _ _ Hu Hp Ec) as [Ha Hn].
  destruct (resolve_staging _ _ _ c Hs Hu Ha Hn) as [E Hk]. cbn [mbind result_bind]. unfold path_exists. rewrite E.
  destruct (is_ok (resolve w0 c)) eqn:Hex.
  { destruct (resolve_existing_staging w0 w l c Hs Hu Hn) as [Ee He]. split; [done|].
    intros q (k & Hq & H1 & H2 & H3)%He. exists k. split_and!; [done..|by left]. }
  unfold parent. destruct (comps c) as [|c0 cs] eqn:Ecs;
    cbn [ok_or mbind result_bind]; [split; [reflexivity|intros q; discriminate]|]. rewrite <- Ecs in *.
  set (up := {| absolute := absolute c; comps := removelast (comps c) |}).
  destruct (resolve_staging _ _ _ up Hs Hu) as [Eu Hku]; [done|by apply removelast_names|].
  unfold canonical. rewrite Eu. split; [reflexivity|].
  destruct (resolve w0 up) as [k|x] eqn:Er; cbn [fmap result_fmap map_err mbind result_bind]; [|intros q [=]].
  intros q. unfold ensure_inside. destruct (path_starts_with (of_key k) root) eqn:Hin;
    cbn [mbind result_bind]; [|intros [=]].
  unfold file_name. set (o := last (comps c)). assert (El : last (comps c) = o) by reflexivity. clearbody o.
  destruct o as [[s| |]|]; cbn [ok_or mbind result_bind]; [|intros [=]..]. intros [= <-].
  exists (k ++ [s]). split_and!.
  - apply of_key_push.
  - apply Forall_app. split; [apply Hku; reflexivity|]. constructor; [|constructor]. apply last_Some in El as [l' El].
    rewrite El in Hn. apply Forall_app in Hn as [_ Hn]. apply Forall_cons in Hn as [Hn _]. exact Hn.
  - apply path_of_key_starts in Hin. etransitivity; [exact Hin|]. apply prefix_app_r. reflexivity.
  - right. exists k, s. split; [reflexivity|]. eapply resolve_settled; [|exact Eu]. exact Ha.
Qed.

Lemma settled_metadata w k : settled (fs_disk w) k -> is_ok (link_metadata w (of_key k)) = true.
Proof.
  intros Hs. unfold link_metadata. destruct k as [|s k _] using rev_ind; [done|].
  destruct Hs as [Hc|(dir & s' & n & [-> ->]%app_inj_tail & Hc & Hn & _ & _)].
  - rewrite entry_of_key by (eapply chain_prefix; [done|by apply prefix_app_r]). cbn. by rewrite (Hc (k ++ [s])).
  - rewrite entry_of_key by done. cbn. by rewrite node_snoc, Hn.
Qed.

Lemma staging_trans w0 w1 w2 : staging w0 w1 -> staging w1 w2 -> staging w0 w2.
Proof.
  intros [L1 F1] [L2 F2]. split; [by eapply later_trans|]. intros k n H. destruct (F2 k n H) as [Hk|?]; [|by right].
  apply F1. rewrite <- H. symmetry. apply (later_frame _ _ _ L2); [done|by intros []].
Qed.

(** ** Preparing *)

Definition staged_node (w : Fs) (e : PreparedEdit) : option Node :=
  pe_staged e ≫= fun p => fs_disk w !! key_of p.

(** The prepared edit [e] is what [i] asks for, with [o] as its new file. *)
Definition wants (w0 : Fs) (i : EditIntent) (e : PreparedEdit) (o : option Node) : Prop :=
  let t := target e in
  match i with
  | EditCreate p content mode =>
    pe_operation e = OpCreate /\ resolve_for_write root w0 p = Ok (of_key t) /\
    fs_disk w0 !! t = None /\ o = Some (NFile (bytes content) (final_mode w0 None mode)) /\
    pe_old e = None /\ pe_new e = Some (digest (bytes content))
  | EditUpdate p expected content preserve =>
    pe_operation e = OpUpdate /\ resolve_existing root w0 p = Ok (of_key t) /\
    exists data mode text, fs_disk w0 !! t = Some (NFile data mode) /\ from_utf8 data = Some text /\
      expected = digest data /\
      let new := if preserve then preserve_newlines text content else content in
      o = Some (NFile (bytes new) mode) /\ pe_old e = Some (digest data) /\ pe_new e = Some (digest (bytes new))
  | EditDelete p expected =>
    pe_operation e = OpDelete /\ resolve_existing root w0 p = Ok (of_key t) /\
    (exists data mode, fs_disk w0 !! t = Some (NFile data mode) /\ expected = digest data /\
       pe_old e = Some (digest data)) /\ o = None /\ pe_new e = None
  end.

Record ready (w0 w : Fs) (i : EditIntent) (e : PreparedEdit) : Prop := {
  ready_pristine : pristine w e;
  ready_inside : rk `prefix_of` target e;
  ready_names : Forall (known_name w0) (target e);
  ready_relative : pe_relative e = relative root (pe_path e);
  ready_path : pe_path e = of_key (target e);
  ready_wants : wants w0 i e (staged_node w e)
}.

Lemma ready_pristine_of w dir name e a n :
  good w -> pe_path e = of_key (dir ++ [name]) -> pe_backup e = None -> pe_installed e = false ->
  chain (fs_disk w) dir -> known w (dir ++ [name]) ->
  pe_staged e = Some (of_key (dir ++ [a])) -> pe_operation e <> OpDelete ->
  fs_disk w !! (dir ++ [a]) = Some n -> is_file (Some n) -> dir ++ [a] <> dir ++ [name] ->
  known w (dir ++ [a]) -> pristine w e.
Proof.
  intros Hg Hp Hb Hi Hc Hk Hs Ho Hn Hf Hne Hka.
  assert (Ea : area e = [dir ++ [name]; dir ++ [a]]).
  { unfold area, own, target. rewrite Hp, Hs, Hb, key_of_key.
    change (option_list (Some (of_key (dir ++ [a]))) ++ option_list None) with [of_key (dir ++ [a])].
    by rewrite fmap_cons, key_of_key. }
  constructor; [| | |done|done|].
  - exists dir, name. constructor; [done|done| |by rewrite Hb]. intros p. rewrite Hs. intros [= <-]. by exists a.
  - rewrite Ea. apply NoDup_cons. split; [set_solver|apply NoDup_singleton].
  - rewrite Ea. by repeat constructor.
  - rewrite Hs, key_of_key. split; [done|]. rewrite Hn. done.
Qed.

Lemma prepare_create_cases w0 w l p content mode total w' r :
  staging w0 w -> unguessed w0 l -> names (known_name w0) (comps p) ->
  prepare_create root p content mode total w = (w', r) ->
  staging w w' /\
  (is_err r \/ exists e total', r = Ok (e, total') /\ ready w0 w' (EditCreate p content mode) e /\
     forall k, k ∈ own e -> ~ known w k).
Proof.
  intros Hst Hu Hn H. pose proof Hst as [Hl Hfiles]. pose proof (later_good _ _ _ Hl) as Hg.
  assert (Hsame : staging w w) by (by apply staging_refl).
  unfold prepare_create in H. destruct (match mode with Some m => 511 <? m | None => false end);
    [injection H as <- <-; split; [done|by left]|].
  apply M_bind_cases in H as [([] & w1 & E & H)|(x & E & ->)]; unfold lift in E; injection E as <- E;
    [|split; [done|by left]].
  rewrite M_bind_run in H. cbn [gets id] in H.
  destruct (resolve_for_write_staging w0 w l p Hst Hu Hn) as [Ew Hw].
  apply M_bind_cases in H as [(q & w1 & Eq & H)|(x & Eq & ->)]; unfold lift in Eq; injection Eq as <- Eq;
    [|split; [done|by left]].
  rewrite Ew in Eq. destruct (Hw q Eq) as (k & -> & Hk & Hpre & Hcase). clear Ew Hw.
  destruct (is_ok (link_metadata w (of_key k))) eqn:Hm; [injection H as <- <-; split; [exact Hsame|left; exact I]|].
  destruct Hcase as [Hset|(dir & name & -> & Hset)]; [rewrite settled_metadata in Hm; [discriminate Hm|exact Hset]|].
  apply M_bind_cases in H as [(staged & w1 & Es & H)|(x & Es & ->)];
    apply (stage_content_cases w w dir name) in Es as [Hst' Hs]; try done;
    [|split; [done|by left]].
  destruct Hs as [[]|(a & [= ->] & Hc & Hna & Hka & Hd & Hframe)].
  injection H as <- <-. split; [done|right]. eexists _, _. split; [reflexivity|].
  assert (Hnone : fs_disk w !! (dir ++ [name]) = None).
  { unfold link_metadata in Hm. rewrite entry_of_key in Hm by done. cbn in Hm. rewrite node_snoc in Hm.
    by destruct (fs_disk w !! (dir ++ [name])). }
  assert (Hkn : known w (dir ++ [name])).
  { eapply later_known; [exact Hl|]. by apply names_known_key. }
  split.
  - assert (Et : target (prepared root OpCreate (of_key (dir ++ [name])) None None (Some (digest (bytes content)))
        (Some (of_key (dir ++ [a]))) (file_diff (relative root (of_key (dir ++ [name]))) None (Some content)))
        = dir ++ [name]) by (unfold target; apply key_of_key).
    constructor; rewrite ?Et; try done.
    + eapply (ready_pristine_of _ dir name _ a); try done; [apply Hst'| |by eapply later_known, Hkn; apply Hst'|by eexists _, _|].
      * eapply chain_mono; [apply (later_dirs _ _ _ (staging_later _ _ Hst'))|done].
      * by intros E'; rewrite E' in Hna.
    + unfold wants. rewrite Et. split_and!; try done.
      * rewrite <- (staging_frame w0 w) by done. done.
      * unfold staged_node. cbn [prepared pe_staged mbind option_bind]. rewrite key_of_key, Hd. unfold final_mode. by rewrite (later_umask _ _ _ Hl).
  - intros k' [p' [-> Hin]]%list_elem_of_fmap. cbn in Hin. apply list_elem_of_singleton in Hin as ->.
    by rewrite key_of_key.
Qed.

Lemma settled_file w k k' data mode :
  settled (fs_disk w) k -> entry w (of_key k) = Ok k' -> node (fs_disk w) k' = Some (NFile data mode) ->
  exists dir name, k = dir ++ [name] /\ k' = k /\ chain (fs_disk w) dir /\ fs_disk w !! k = Some (NFile data mode).
Proof.
  intros Hs He Hn. destruct k as [|s dir _] using rev_ind; [injection He as <-; done|].
  exists dir, s. assert (Hc : chain (fs_disk w) dir).
  { destruct Hs as [Hc|(d & s' & n & [-> ->]%app_inj_tail & Hc & _)]; [|done].
    eapply chain_prefix; [exact Hc|]. by apply prefix_app_r. }
  rewrite entry_of_key in He by done. injection He as <-. by rewrite node_snoc in Hn.
Qed.

Lemma expected_target_cases k expected what stale w w' r :
  quiet w -> settled (fs_disk w) k -> expected_target root (of_key k) expected what stale w = (w', r) ->
  same w w' /\
  (is_err r \/ exists dir name data mode text,
     r = Ok (text, digest data, mode) /\ k = dir ++ [name] /\ chain (fs_disk w) dir /\
     fs_disk w !! k = Some (NFile data mode) /\ expected = digest data /\ from_utf8 data = Some text).
Proof.
  intros Hq Hs H. unfold expected_target in H.
  apply M_bind_cases in H as [((data & mode) & w1 & E & H)|(x & E & ->)];
    apply read_edit_target_cases in E as [Hsame E]; try done;  [|split; [done|by left]].
  destruct E as [[]|(k' & data' & mode' & [= <- <-] & He & Hn & _)].
  destruct (settled_file _ _ _ _ _ Hs He Hn) as (dir & name & -> & -> & Hc & Hd).
  cbn [fst snd] in H. destruct (bool_decide (expected = digest data)) eqn:Hx; cbn [negb] in H;
    [|injection H as <- <-; split; [done|by left]].
  apply bool_decide_eq_true in Hx. destruct (from_utf8 data) as [text|] eqn:Ht.
  - injection H as <- <-. split; [done|]. right. by eexists _, _, _, _, _.
  - injection H as <- <-. split; [done|by left].
Qed.

Lemma prepare_delete_cases w0 w l p expected total w' r :
  staging w0 w -> unguessed w0 l -> names (known_name w0) (comps p) ->
  prepare_delete root p expected total w = (w', r) ->
  staging w w' /\
  (is_err r \/ exists e total', r = Ok (e, total') /\ ready w0 w' (EditDelete p expected) e /\
     forall k, k ∈ own e -> ~ known w k).
Proof.
  intros Hst Hu Hn H. pose proof Hst as [Hl Hfiles]. pose proof (later_good _ _ _ Hl) as Hg.
  assert (Hsame : staging w w) by (by apply staging_refl).
  unfold prepare_delete in H. rewrite M_bind_run in H. cbn [gets id] in H.
  destruct (resolve_existing_staging w0 w l p Hst Hu Hn) as [Ew Hw].
  apply M_bind_cases in H as [(q & w1 & Eq & H)|(x & Eq & ->)]; unfold lift in Eq; injection Eq as <- Eq;
    [|split; [exact Hsame|left; exact I]].
  rewrite Ew in Eq. destruct (Hw q Eq) as (k & -> & Hset & Hk & Hpre). clear Ew Hw.
  apply M_bind_cases in H as [(x & w1 & Es & H)|(x & Es & ->)];
    apply expected_target_cases in Es as [Hs1 Hx]; try exact Hset; try apply Hg;
    [|split; [by eapply staging_same|left; exact I]].
  destruct Hx as [[]|(dir & name & data & mode & text & [= ->] & -> & Hc & Hd & He & Ht)].
  injection H as <- <-. split; [by eapply staging_same|right]. eexists _, _. split; [reflexivity|].
  split; [|intros k' Hin; by apply not_elem_of_nil in Hin].
  assert (Hl1 : later (fun _ => False) w w1) by (by apply later_same).
  assert (Et : forall old diff, target (prepared root OpDelete (of_key (dir ++ [name])) (Some expected) old None None diff)
     = dir ++ [name]) by (intros; apply key_of_key).
  assert (Hkn : known w1 (dir ++ [name])).
  { eapply later_known; [exact Hl1|]. by eapply Hg. }
  constructor; rewrite ?Et; try done.
  - constructor; [| | |done..].
    + exists dir, name. constructor; [done| |done..]. eapply chain_mono; [apply (later_dirs _ _ _ Hl1)|done].
    + unfold area, own. cbn [prepared pe_staged pe_backup]. rewrite Et. apply NoDup_singleton.
    + unfold area, own. cbn [prepared pe_staged pe_backup]. rewrite Et. by constructor.
  - unfold wants. rewrite Et. split_and!; try done. exists data, mode. split_and!; try done.
    by rewrite <- (staging_frame w0 w).
Qed.

Lemma prepare_update_cases w0 w l p expected content preserve total w' r :
  staging w0 w -> unguessed w0 l -> names (known_name w0) (comps p) ->
  prepare_update root p expected content preserve total w = (w', r) ->
  staging w w' /\
  (is_err r \/ exists e total', r = Ok (e, total') /\ ready w0 w' (EditUpdate p expected content preserve) e /\
     forall k, k ∈ own e -> ~ known w k).
Proof.
  intros Hst Hu Hn H. pose proof Hst as [Hl Hfiles]. pose proof (later_good _ _ _ Hl) as Hg.
  assert (Hsame : staging w w) by (by apply staging_refl).
  unfold prepare_update in H. rewrite M_bind_run in H. cbn [gets id] in H.
  destruct (resolve_existing_staging w0 w l p Hst Hu Hn) as [Ew Hw].
  apply M_bind_cases in H as [(q & w1 & Eq & H)|(x & Eq & ->)]; unfold lift in Eq; injection Eq as <- Eq;
    [|split; [exact Hsame|left; exact I]].
  rewrite Ew in Eq. destruct (Hw q Eq) as (k & -> & Hset & Hk & Hpre). clear Ew Hw.
  apply M_bind_cases in H as [(x & w1 & Es & H)|(x & Es & ->)];
    apply expected_target_cases in Es as [Hs1 Hx]; try exact Hset; try apply Hg;
    [|split; [by eapply staging_same|left; exact I]].
  destruct Hx as [[]|(dir & name & data & mode & text & [= ->] & -> & Hc & Hd & He & Ht)].
  assert (Hst1 : staging w w1) by (by eapply staging_same).
  assert (Hl1 : later (fun _ => False) w w1) by (by apply later_same).
  cbn [fst snd] in H. set (new := if preserve then preserve_newlines text content else content) in *.
  apply M_bind_cases in H as [([] & w2 & E & H)|(x & E & ->)]; unfold lift in E; injection E as <- E;
    [|split; [exact Hst1|left; exact I]].
  assert (Hset1 : settled (fs_disk w1) dir) by (left; by rewrite (same_disk _ _ Hs1)).
  apply M_bind_cases in H as [(staged & w2 & Es & H)|(x & Es & ->)];
    apply (stage_content_cases w w1 dir name) in Es as [Hst' Hs]; try exact Hset1; try exact Hst1;
    [|split; [exact Hst'|left; exact I]].
  destruct Hs as [[]|(a & [= ->] & Hc1 & Hna & Hka & Hd2 & Hframe)].
  injection H as <- <-. split; [exact Hst'|right]. eexists _, _. split; [reflexivity|].
  assert (Hnaw : ~ known w (dir ++ [a])) by (by eapply later_unknown).
  assert (Hkn : known w (dir ++ [name])) by (by eapply Hg).
  split.
  - assert (Et : forall diff, target (prepared root OpUpdate (of_key (dir ++ [name])) (Some expected) (Some (digest data))
        (Some (digest (bytes new))) (Some (of_key (dir ++ [a]))) diff) = dir ++ [name]) by (intros; apply key_of_key).
    constructor; rewrite ?Et; try done.
    + eapply (ready_pristine_of _ dir name _ a); try done; [apply Hst'| |by eapply later_known, Hkn; apply Hst'|by eexists _, _|].
      * eapply chain_mono; [apply (later_dirs _ _ _ (staging_later _ _ Hst'))|done].
      * intros E'. by rewrite E' in Hnaw.
    + unfold wants. rewrite Et. split_and!; try done. exists data, mode, text. fold new. split_and!; try done.
      * by rewrite <- (staging_frame w0 w).
      * unfold staged_node. cbn [prepared pe_staged mbind option_bind]. by rewrite key_of_key, Hd2.
  - intros k' [p' [-> Hin]]%list_elem_of_fmap. cbn in Hin. apply list_elem_of_singleton in Hin as ->.
    by rewrite key_of_key.
Qed.

Definition drawn_own (w0 : Fs) (e : PreparedEdit) : Prop := forall k, k ∈ own e -> ~ known w0 k.

Lemma prepare_edit_cases w0 w l i total w' r :
  staging w0 w -> unguessed w0 (intent_path <$> l) -> i ∈ l -> prepare_edit root i total w = (w', r) ->
  staging w w' /\
  (is_err r \/ exists e total', r = Ok (e, total') /\ ready w0 w' i e /\ forall k, k ∈ own e -> ~ known w k).
Proof.
  intros Hst Hu Hi H. pose proof (unguessed_paths _ _ Hu) as Hn.
  rewrite Forall_forall in Hn. specialize (Hn (intent_path i) (list_elem_of_fmap_2 _ _ _ Hi)).
  destruct i; [by eapply prepare_create_cases|by eapply prepare_update_cases|by eapply prepare_delete_cases].
Qed.

Lemma ready_later w0 w w' i e : later (fun _ => False) w w' -> ready w0 w i e -> ready w0 w' i e.
Proof.
  intros Hl [Hp Hi Hn Hr Hpa Hw]. constructor; try done; [by eapply pristine_later; [exact Hl|intros k _ []|]|].
  unfold staged_node in *. destruct (pe_staged e) as [p|] eqn:Hs; [|done]. cbn in *.
  rewrite (later_frame _ _ _ Hl); [done| |by intros []].
  pose proof (pristine_known _ _ Hp) as Hk. rewrite Forall_forall in Hk. apply Hk. right. apply own_in. by left.
Qed.

Lemma cleanup_staged_later l : forall w w' r,
  good w -> Forall (fun e => exists dir name, housed (fs_disk w) dir name e) l ->
  cleanup_staged l w = (w', r) -> later (fun k => k ∈ mjoin (own <$> l)) w w'.
Proof.
  induction l as [|e l IH]; intros w w' r Hg Hh H.
  { injection H as <- <-. by apply later_same, same_refl. }
  apply Forall_cons in Hh as [(dir & name & He) Hl]. unfold cleanup_staged in H. cbn [iterM] in H.
  rewrite M_bind_run in H.
  assert (Hstep : forall w1, later (fun k => k ∈ own e) w w1 -> cleanup_staged l w1 = (w', r) ->
    later (fun k => k ∈ mjoin (own <$> (e :: l))) w w').
  { intros w1 Hl1 Hf. apply IH in Hf; [|apply Hl1|].
    - eapply later_trans; (eapply later_weaken; [|done]); intros k; cbn; set_solver.
    - eapply Forall_impl; [exact Hl|]. intros x (dir' & name' & Hx). exists dir', name'. by eapply housed_later. }
  destruct (pe_staged e) as [p|] eqn:Hs.
  - pose proof (own_in e p (or_introl Hs)) as Hin. destruct (housed_staged _ _ _ _ He p Hs) as [a ->].
    rewrite key_of_key in Hin. unfold try_remove in H. destruct (fs_remove_file _ w) as [w1 r1] eqn:E.
    apply (remove_file_cases _ _ dir a) in E as [Hl1 _]; [|done|apply He].
    apply (Hstep w1); [|done]. eapply later_weaken; [|exact Hl1]. by intros k ->.
  - apply (Hstep w); [by apply later_same, same_refl|done].
Qed.

Lemma pristine_all_housed w l : Forall (pristine w) l -> Forall (fun e => exists dir name, housed (fs_disk w) dir name e) l.
Proof. intros H. eapply Forall_impl; [exact H|]. by intros e []. Qed.

Lemma discard_later {A} w0 w l x w' (r : result AxiomError A) :
  staging w0 w -> Forall (pristine w) l -> Forall (drawn_own w0) l -> discard l x w = (w', r) ->
  is_err r /\ later (fun _ => False) w0 w'.
Proof.
  intros [Hl _] Hp Ho H. unfold discard in H. destruct (cleanup_staged l w) as [w1 r1] eqn:E. injection H as <- <-.
  split; [done|]. apply cleanup_staged_later in E; [|apply Hl|by apply pristine_all_housed].
  eapply later_then; [exact Hl|exact E|]. intros k Hk Hin.
  apply list_elem_of_join in Hin as (ks & Hin & [e [-> He]]%list_elem_of_fmap).
  rewrite Forall_forall in Ho. by apply (Ho e He k).
Qed.

Lemma areas_app l l' : areas (l ++ l') = areas l ++ areas l'.
Proof. unfold areas. rewrite fmap_app. apply join_app. Qed.

Lemma areas_one e : areas [e] = area e.
Proof. change (areas [e]) with (area e ++ []). apply app_nil_r. Qed.

Lemma apart_snoc w0 w w' seen acc i e :
  staging w0 w -> Forall2 (ready w0 w) seen acc -> apart acc -> Forall (drawn_own w0) acc ->
  ready w0 w' i e -> (forall k, k ∈ own e -> ~ known w k) -> pe_path e ∉ pe_path <$> acc -> apart (acc ++ [e]).
Proof.
  intros Hst Hr Ha Ho He Hown Hp. unfold apart. rewrite areas_app, areas_one. apply NoDup_app.
  assert (Hacc : Forall (pristine w) acc).
  { apply Forall_forall. intros x Hx. apply list_elem_of_lookup in Hx as [j Hj].
    destruct (Forall2_lookup_r _ _ _ _ _ Hr Hj) as (y & _ & []). done. }
  split_and!; [done| |apply He]. intros k Hk [->|Hin]%elem_of_cons.
  2:{ apply (Hown k Hin). pose proof (areas_pristine _ _ Hacc) as Hkn. rewrite Forall_forall in Hkn. by apply Hkn. }
  unfold areas in Hk. apply list_elem_of_join in Hk as (ks & Hin & [x [-> Hx]]%list_elem_of_fmap).
  apply elem_of_cons in Hin as [E|Hin].
  - apply Hp. apply list_elem_of_fmap. exists x. split; [|done].
    apply list_elem_of_lookup in Hx as [j Hj]. destruct (Forall2_lookup_r _ _ _ _ _ Hr Hj) as (y & _ & Hy).
    by rewrite (ready_path _ _ _ _ He), (ready_path _ _ _ _ Hy), E.
  - rewrite Forall_forall in Ho. apply (Ho x Hx _ Hin). by apply names_known_key, He.
Qed.

Lemma prepare_all_cases w0 l : forall seen todo acc total w w' r,
  seen ++ todo = l -> unguessed w0 (intent_path <$> l) -> staging w0 w -> Forall2 (ready w0 w) seen acc -> apart acc ->
  Forall (drawn_own w0) acc -> prepare_all root todo acc total w = (w', r) ->
  match r with
  | Ok l' => staging w0 w' /\ Forall2 (ready w0 w') l l' /\ apart l' /\ Forall (drawn_own w0) l'
  | Err _ => later (fun _ => False) w0 w'
  end.
Proof.
  intros seen todo. revert seen. induction todo as [|i todo IH]; intros seen acc total w w' r El Hu Hst Hr Ha Ho H.
  { injection H as <- <-. rewrite app_nil_r in El. by subst seen. }
  cbn [prepare_all] in H. destruct (prepare_edit root i total w) as [w1 r1] eqn:E.
  assert (Hi : i ∈ l) by (subst l; set_solver).
  apply (prepare_edit_cases w0 w l) in E as [Hst1 Hcase]; [|done..].
  pose proof (staging_trans _ _ _ Hst Hst1) as Hst'.
  assert (Hr1 : Forall2 (ready w0 w1) seen acc).
  { eapply Forall2_impl; [exact Hr|]. intros x y. apply ready_later, Hst1. }
  assert (Hp1 : Forall (pristine w1) acc).
  { apply Forall_forall. intros x Hx. apply list_elem_of_lookup in Hx as [j Hj].
    destruct (Forall2_lookup_r _ _ _ _ _ Hr1 Hj) as (y & _ & []). done. }
  destruct Hcase as [He|(e & total' & -> & He & Hown)].
  { destruct r1 as [|x]; [done|]. apply (discard_later w0) in H as [Hre Hl]; [|done..]. by destruct r. }
  assert (Hoe : Forall (drawn_own w0) (acc ++ [e])).
  { apply Forall_app. split; [done|]. constructor; [|done]. intros k Hk. eapply later_unknown; [apply Hst|by apply Hown]. }
  destruct (bool_decide (pe_path e ∈ pe_path <$> acc)) eqn:Hdup.
  - apply (discard_later w0) in H as [Hre Hl]; [by destruct r|done| |done].
    apply Forall_app. split; [done|]. constructor; [apply He|done].
  - apply bool_decide_eq_false in Hdup. eapply (IH (seen ++ [i])); [by rewrite <- app_assoc|done..| | |exact Hoe|exact H].
    + apply Forall2_app; [done|]. by constructor.
    + by apply (apart_snoc w0 w w1 seen acc i e).
Qed.

(** ** The whole patch *)

(** What a patch that succeeded did for the intent [i] at its target [t]. *)
Definition effect (w w' : Fs) (i : EditIntent) (t : Key) : Prop :=
  match i with
  | EditCreate p content mode =>
    resolve_for_write root w p = Ok (of_key t) /\ fs_disk w !! t = None /\
    fs_disk w' !! t = Some (NFile (bytes content) (final_mode w None mode))
  | EditUpdate p expected content preserve =>
    resolve_existing root w p = Ok (of_key t) /\
    exists data mode text, fs_disk w !! t = Some (NFile data mode) /\ from_utf8 data = Some text /\
      expected = digest data /\
      fs_disk w' !! t = Some (NFile (bytes (if preserve then preserve_newlines text content else content)) mode)
  | EditDelete p expected =>
    resolve_existing root w p = Ok (of_key t) /\
    (exists data mode, fs_disk w !! t = Some (NFile data mode) /\ expected = digest data) /\
    fs_disk w' !! t = None
  end.

Definition file_digest (d : Disk) (k : Key) : option string :=
  match d !! k with Some (NFile data _) => Some (digest data) | _ => None end.

(** The report of a patch, from the disks before and after. *)
Definition true_report (w w' : Fs) (i : EditIntent) (t : Key) : StructuredEditOutcome :=
  {| seo_operation := match i with EditCreate _ _ _ => "create" | EditUpdate _ _ _ _ => "update" | EditDelete _ _ => "delete" end;
     seo_path := relative root (of_key t);
     seo_old_sha256 := file_digest (fs_disk w) t; seo_new_sha256 := file_digest (fs_disk w') t |}.

Lemma ready_effect w0 w w' i e e' :
  staging w0 w -> ready w0 w i e -> landed w w' e e' ->
  effect w0 w' i (target e) /\ edit_outcome e = true_report w0 w' i (target e).
Proof.
  intros Hst [_ _ Hn Hr Hp Hw] (_ & Hl). pose proof (staging_frame _ _ _ Hst Hn) as Hsame.
  unfold true_report, edit_outcome, file_digest. rewrite Hr, Hp.
  destruct i as [p content mode|p expected content preserve|p expected].
  - destruct Hw as (Ho & H1 & H2 & H3 & H4 & H5). rewrite Ho in Hl. destruct Hl as (L1 & L2 & L3).
    fold (staged_node w e) in L3. rewrite H3 in L3. rewrite L3, H2, H4, H5, Ho. done.
  - destruct Hw as (Ho & H1 & data & mode & text & H2 & H3 & H4 & H5 & H6 & H7).
    rewrite Ho in Hl. destruct Hl as (L1 & L2 & L3). fold (staged_node w e) in L3. rewrite H5 in L3.
    rewrite L3, H2, H6, H7, Ho. split; [|done]. split; [done|]. by exists data, mode, text.
  - destruct Hw as (Ho & H1 & (data & mode & H2 & H3 & H4) & H5 & H6).
    rewrite Ho in Hl. destruct Hl as (L1 & L2 & L3). fold (staged_node w e) in L3. rewrite H5 in L3.
    rewrite L3, H2, H4, H6, Ho. split; [|done]. split; [done|]. split; [|done]. by exists data, mode.
Qed.

Lemma ready_targets w0 w l l' : Forall2 (ready w0 w) l l' -> Forall (fun t => Forall (known_name w0) t /\ rk `prefix_of` t) (target <$> l').
Proof. induction 1 as [|i e l l' [_ H1 H2 _ _ _] _ IH]; constructor; [done|exact IH]. Qed.

Lemma apart_targets l : apart l -> NoDup (target <$> l).
Proof.
  induction l as [|e l IH]; intros Ha; [constructor|]. cbn. apply NoDup_cons.
  unfold apart in Ha. rewrite areas_cons in Ha. apply NoDup_app in Ha as (_ & Hd & Hl). split; [|by apply IH].
  intros (x & E & Hx)%list_elem_of_fmap. apply (Hd (target e)); [by left|].
  eapply area_in_areas; [exact Hx|]. rewrite E. by left.
Qed.

(** A key of the patch that was known before is a target. *)
Lemma areas_known w0 l k : Forall (drawn_own w0) l -> known w0 k -> k ∈ areas l -> k ∈ target <$> l.
Proof.
  intros Ho Hk Hin. unfold areas in Hin. apply list_elem_of_join in Hin as (ks & Hin & [e [-> He]]%list_elem_of_fmap).
  apply elem_of_cons in Hin as [->|Hin]; [by apply list_elem_of_fmap_2|].
  rewrite Forall_forall in Ho. by destruct (Ho e He k).
Qed.

(** Everything about a patch at once. *)
Lemma patch_cases edits n w w' r :
  good w -> unguessed w (intent_path <$> edits) -> apply_structured_patch root edits n w = (w', r) ->
  exists ts, Forall (fun t => rk `prefix_of` t) ts /\ NoDup ts /\
    (forall k, known w k -> k ∉ ts -> fs_disk w' !! k = fs_disk w !! k) /\
    match r with
    | Ok o => Forall2 (effect w w') edits ts /\ pto_edits o = zip_with (true_report w w') edits ts /\
              pto_changed_paths o = (fun t => relative root (of_key t)) <$> ts
    | Err x => needs_recovery x \/ forall k, known w k -> fs_disk w' !! k = fs_disk w !! k
    end.
Proof.
  intros Hg Hu H. unfold apply_structured_patch in H.
  destruct (bool_decide (edits = []) || _).
  { injection H as <- <-. exists []. split_and!; [constructor|constructor|done|by right]. }
  assert (Hall : forall w1 r1, prepare_all root edits [] 0 w = (w1, r1) -> match r1 with
    | Ok l' => staging w w1 /\ Forall2 (ready w w1) edits l' /\ apart l' /\ Forall (drawn_own w) l'
    | Err _ => later (fun _ => False) w w1 end).
  { intros w1 r1 E. eapply (prepare_all_cases w edits [] edits []); [reflexivity|exact Hu|by apply staging_refl|..|exact E];
      constructor. }
  apply M_bind_cases in H as [(l & w1 & E & H)|(x & E & ->)]; apply Hall in E; clear Hall.
  2:{ exists []. split_and!; [constructor|constructor| |right]; intros k Hk **; (apply (later_frame _ _ _ E); [done|by intros []]). }
  destruct E as (Hst & Hr & Ha & Ho). pose proof Hst as [Hl _].
  assert (Hp : Forall (pristine w1) l).
  { apply Forall_forall. intros e He. apply list_elem_of_lookup in He as [j Hj].
    destruct (Forall2_lookup_r _ _ _ _ _ Hr Hj) as (y & _ & []). done. }
  apply apply_prepared_cases in H as [Hl' Hcase]; [|apply Hl|done..].
  pose proof (ready_targets _ _ _ _ Hr) as Ht.
  assert (Hframe : forall k, known w k -> k ∉ target <$> l -> fs_disk w' !! k = fs_disk w !! k).
  { intros k Hk Hnt. rewrite (later_frame _ _ _ Hl'), (later_frame _ _ _ Hl); [done|done|by intros []|by eapply later_known|].
    intros Hin. by apply Hnt, areas_known with (w0 := w). }
  exists (target <$> l). split_and!; [eapply Forall_impl; [exact Ht|]; by intros t []|by apply apart_targets|exact Hframe|].
  destruct r as [o|x].
  - destruct Hcase as ([l' Hland] & Hed & Hpa). rewrite Hed, Hpa. clear -Hst Hr Hland.
    revert l' Hland. induction Hr as [|i e seen l He _ IH]; intros l' Hland; [by split_and!|].
    inversion Hland as [|? e' ? l'' He' Hland']; subst. destruct (IH l'' Hland') as (I1 & I2 & I3).
    destruct (ready_effect _ _ _ _ _ _ Hst He He') as [E1 E2]. cbn. rewrite I2, I3, E2.
    split_and!; [by constructor|done|]. f_equal. by rewrite (ready_relative _ _ _ _ He), (ready_path _ _ _ _ He).
  - destruct Hcase as [?|Hcase]; [by left|right]. intros k Hk.
    destruct (decide (k ∈ target <$> l)) as [(e & -> & He)%list_elem_of_fmap|Hnt]; [|by apply Hframe].
    rewrite Hcase by done. apply (later_frame _ _ _ Hl); [done|by intros []].
Qed.

(** ** Reading *)




(** C9: A patch that succeeds does exactly what it says, when no other process changes
    the disk during the call ([quiet], in [good]; a create overwrites a file that appears
    after its check, see [racing_creates_overwrite]) and no file, link or edit is named
    like a temporary file that a later UUID would make ([good], [unguessed]).  Each edit
    reached its own file inside the workspace, found what it expected there, and left
    the new contents with the file's permissions; no other file changed; and the report
    names these files with the digests they had and have. *)
Theorem applied_patches_are_exact edits n w w' o :
  good w -> unguessed w (intent_path <$> edits) -> apply_structured_patch root edits n w = (w', Ok o) ->
  exists ts, Forall2 (effect w w') edits ts /\ NoDup ts /\ Forall (fun t => rk `prefix_of` t) ts /\
    (forall k, known w k -> k ∉ ts -> fs_disk w' !! k = fs_disk w !! k) /\
    pto_edits o = zip_with (true_report w w') edits ts /\
    pto_changed_paths o = (fun t => relative root (of_key t)) <$> ts.
Proof.
  intros Hg Hu H. destruct (patch_cases _ _ _ _ _ Hg Hu H) as (ts & Hin & Hn & Hf & H1 & H2 & H3).
  exists ts. by split_and!.
Qed.

(** C10: Whatever a patch names, through whatever links of the workspace, whichever calls
    of the system fail and however it ends, no file outside the workspace changes: when
    no other process changes the disk during the call ([quiet], in [good]; one that
    replaces a directory by a link after the path was resolved can lead a patch out, see
    [relinked_directories_lead_out]) and no file, link or edit is named like a temporary
    file that a later UUID would make ([good], [unguessed]). *)
Theorem patches_stay_inside edits n w w' r k :
  good w -> unguessed w (intent_path <$> edits) -> apply_structured_patch root edits n w = (w', r) ->
  known w k -> ~ rk `prefix_of` k -> fs_disk w' !! k = fs_disk w !! k.
Proof.
  intros Hg Hu H Hk Hout. destruct (patch_cases _ _ _ _ _ Hg Hu H) as (ts & Hin & _ & Hf & _).
  apply Hf; [done|]. intros Ht. rewrite Forall_forall in Hin. by apply Hout, Hin.
Qed.

(** ** Replacements *)

(** One match, and none after it. *)
Lemma replaced_once content old new text :
  old <> EmptyString -> replaced content old new = Ok text ->
  exists l r, content = l +:+ old +:+ r /\ contains old r = false /\ text = l +:+ new +:+ r.
Proof.
  intros Hne. unfold replaced. destruct (is_empty old) eqn:He; [by apply is_empty_true in He|].
  destruct (bool_decide _) eqn:Hc; [|done]. apply bool_decide_eq_true in Hc. intros [= <-].
  unfold matches in Hc. cbn [count_matches] in Hc. unfold replace_first.
  destruct (split_once old content) as [[l r]|] eqn:E; [|done]. exists l, r.
  split; [by apply split_once_Some|]. split; [|done]. unfold contains.
  injection Hc as Hc. destruct (String.length content) as [|fuel] eqn:Hlen.
  - apply split_once_Some in E. subst content. destruct l, old; done.
  - cbn [count_matches] in Hc. by destruct (split_once old r) as [[]|].
Qed.

Lemma relative_names P k : Forall P k -> names P (comps (relative root (of_key k))).
Proof.
  intros Hk. unfold relative. destruct (path_starts_with _ _); [|by apply names_keys].
  cbn [comps]. apply Forall_drop. by apply names_keys.
Qed.

Lemma resolve_relative w k :
  settled (fs_disk w) k -> rk `prefix_of` k -> resolve_existing root w (relative root (of_key k)) = Ok (of_key k).
Proof.
  intros Hs Hp. assert (Hin : path_starts_with (of_key k) root = true).
  { apply path_starts_with_spec. split; [done|]. destruct Hp as [rest ->]. exists (Normal <$> rest). by cbn; rewrite fmap_app. }
  unfold relative. rewrite Hin. destruct Hp as [rest Hk].
  assert (Er : drop (length (comps root)) (comps (of_key k)) = Normal <$> rest).
  { subst k. cbn. rewrite fmap_app. by rewrite drop_app_length. }
  rewrite Er. unfold resolve_existing, candidate. cbn [comps].
  assert (Hnp : existsb (fun c => bool_decide (c = ParentDir)) (Normal <$> rest) = false).
  { clear. induction rest as [|s rest IH]; [done|]. cbn. by rewrite bool_decide_eq_false_2. }
  rewrite Hnp. cbn [mbind result_bind].
  assert (Ej : path_join root {| absolute := false; comps := Normal <$> rest |} = of_key k).
  { unfold path_join. cbn [absolute comps]. subst k. unfold of_key. cbn [absolute comps]. f_equal.
    rewrite fmap_app. f_equal. clear. induction rest as [|s rest IH]; [done|].
    rewrite fmap_cons, filter_cons_True by done. by f_equal. }
  rewrite Ej. unfold canonical. rewrite resolve_of_key by done. cbn [fmap result_fmap map_err mbind result_bind].
  unfold ensure_inside. by rewrite Hin.
Qed.

(** The file a replacement reads. *)
Lemma replacement_source_cases w k old expected w' r :
  quiet w -> (settled (fs_disk w) k \/ exists up name, k = up ++ [name] /\ settled (fs_disk w) up) ->
  old <> EmptyString -> replacement_source root (of_key k) old expected w = (w', r) ->
  same w w' /\
  (is_err r \/ exists data mode text, r = Ok (text, Some (digest data)) /\ settled (fs_disk w) k /\
     fs_disk w !! k = Some (NFile data mode) /\ from_utf8 data = Some text).
Proof.
  intros Hq Hk Hne H. unfold replacement_source in H. rewrite M_bind_run in H. cbn [gets id] in H.
  destruct (path_exists w (of_key k)).
  2:{ destruct (is_empty old) eqn:He; [by apply is_empty_true in He|]. injection H as <- <-.
      split; [apply same_refl|left; exact I]. }
  apply M_bind_cases in H as [((data & mode) & w1 & E & H)|(x & E & ->)];
    apply read_edit_target_cases in E as [Hsame E]; try done;  [|split; [done|by left]].
  destruct E as [[]|(k' & data' & mode' & [= <- <-] & He & Hn & _)].
  assert (Hf : exists dir name, k = dir ++ [name] /\ chain (fs_disk w) dir /\ fs_disk w !! k = Some (NFile data mode)).
  { destruct Hk as [Hs|(up & name & -> & Hs)].
    - destruct (settled_file _ _ _ _ _ Hs He Hn) as (dir & name & E1 & -> & E2 & E3). by exists dir, name.
    - destruct (entry_of_settled w up name Hs) as [[Hc He']|He']; [|by rewrite He in He'].
      rewrite He' in He. injection He as <-. rewrite node_snoc in Hn. by exists up, name. }
  destruct Hf as (dir & name & Ek & Hc & Hd). cbn [fst snd] in H.
  destruct (match expected with Some e => negb (bool_decide (e = digest data)) | None => false end);
    [injection H as <- <-; split; [done|left; exact I]|].
  destruct (from_utf8 data) as [text|] eqn:Ht; injection H as <- <-; (split; [done|]); [right|by left].
  exists data, mode, text. split_and!; try done. rewrite Ek in Hd |- *. eapply file_settled; [done..|by eexists _, _].
Qed.

(** Replacing a text in a file replaces its only occurrence: when the tool reports
    success the file contained the old text exactly once, and now has the new text
    there, the same permissions, and every other file is as it was. *)
Theorem replacements_are_exact input old new expected w w' o :
  good w -> unguessed w [input] -> old <> EmptyString ->
  apply_replacement root input old new expected w = (w', Ok o) ->
  exists k data mode l r,
    resolve_for_write root w input = Ok (of_key k) /\ rk `prefix_of` k /\
    fs_disk w !! k = Some (NFile data mode) /\ from_utf8 data = Some (l +:+ old +:+ r) /\
    contains old r = false /\
    fs_disk w' !! k = Some (NFile (bytes (l +:+ new +:+ r)) mode) /\
    po_new_sha256 o = digest (bytes (l +:+ new +:+ r)) /\
    forall k', known w k' -> k' <> k -> fs_disk w' !! k' = fs_disk w !! k'.
Proof.
  intros Hg Hu Hne H. unfold apply_replacement in H. rewrite M_bind_run in H. cbn [gets id] in H.
  pose proof (unguessed_paths _ _ Hu) as Hn. apply Forall_cons in Hn as [Hn _].
  apply M_bind_cases in H as [(q & w1 & Eq & H)|(x & _ & [=])]; unfold lift in Eq; injection Eq as <- Eq.
  destruct (resolve_for_write_staging w w _ input (staging_refl _ Hg) Hu Hn) as [_ Hw].
  destruct (Hw q Eq) as (k & -> & Hk & Hpre & Hcase). clear Hw.
  apply M_bind_cases in H as [([text sha] & w1 & Es & H)|(x & _ & [=])].
  apply replacement_source_cases in Es as [Hs [[]|(data & mode & text' & [= -> ->] & Hset & Hd & Ht)]]; [|apply Hg|done|done].
  cbn [fst snd] in H.
  apply M_bind_cases in H as [(content & w2 & Ec & H)|(x & _ & [=])]; unfold lift in Ec; injection Ec as <- Ec.
  apply replaced_once in Ec as (l & r & -> & Hr & ->); [|done].
  apply M_bind_cases in H as [(o' & w2 & Ep & H)|(x & _ & [=])]. injection H as <- <-. cbn [po_new_sha256].
  assert (Hl : later (fun _ => False) w w1) by (by apply later_same).
  assert (Hset1 : settled (fs_disk w1) k) by (by rewrite (same_disk _ _ Hs)).
  apply patch_cases in Ep as (ts & Hin & _ & Hf & Heff & _); [|apply Hl|].
  2:{ destruct Hu as [U1 U2 _]. assert (Hlater : forall s, known_name w s -> known_name w1 s).
      { intros s. apply known_name_later; [apply (later_uuid _ _ _ Hl)|apply (later_drawn _ _ _ Hl)]. }
      constructor.
      - intros k' p. rewrite (same_disk _ _ Hs). intros Hp%U1. eapply Forall_impl; [exact Hp|]. intros []; auto.
      - eapply Forall_impl; [exact U2|done].
      - constructor; [|constructor]. apply relative_names. eapply Forall_impl; [exact Hk|exact Hlater]. }
  inversion Heff as [|? t ? ts' He Hts]; subst. inversion Hts; subst. clear Heff Hts.
  destruct He as [He (data' & mode' & text & H1 & H2 & H3 & H4)].
  rewrite resolve_relative in He by done. injection He as Et. apply (inj (fmap Normal)) in Et as <-.
  rewrite (same_disk _ _ Hs), Hd in H1. injection H1 as <- <-.
  exists k, data, mode, l, r. split_and!; try done.
  intros k' Hk' Hnk. rewrite Hf; [by rewrite (same_disk _ _ Hs)|by eapply later_known|]. set_solver.
Qed.


End Patches.

(** ** Examples *)

(** A digest that keeps what it is given, a difference and a walk without output. *)
#[local] Instance plain_digest : KeyDigest := {| hex_decode := fun s => Some (bytes s); sha256_hex := of_bytes |}.
#[local] Instance no_diff : LineDiff := {| line_changes := fun _ _ => [] |}.
#[local] Instance no_walk : Walker := {|
  walk_tree := fun _ _ _ => []; read_dir := fun _ _ => []; glob_matcher := fun _ => Ok (fun _ => true);
  to_lowercase := id |}.

Definition sample_disk : Disk :=
  <[["w"] := NDir]> (<[["w"; "a"] := NFile (bytes "one two") 420]>
    (<[["w"; "out"] := NLink (path_of_string "/etc")]>
      (<[["etc"] := NDir]> (<[["etc"; "x"] := NFile (bytes "secret") 384]> ∅)))).

Definition sample_fs (agenda : list Event) : Fs :=
  {| fs_disk := sample_disk; fs_cwd := []; fs_umask := 18; fs_agenda := agenda;
     fs_uuid := fun n => of_bytes (replicate n 97%N); fs_drawn := 0 |}.

Definition calm : Event := {| ev_change := fun d => d; ev_moves := Some; ev_fault := None; ev_written := 0 |}.

Definition sample_edits : list EditIntent :=
  [EditUpdate (path_of_string "a") "one two" "three" true; EditCreate (path_of_string "b") "new" (Some 384)].

Lemma plain_known w s : starts_with "." s = false -> known_name w s.
Proof. intros H stem purpose n _ _ ->. done. Qed.

Lemma plain_disk w (p : Key -> Node -> bool) :
  forallb (fun x => p x.1 x.2) (map_to_list (fs_disk w)) = true -> forall k n, fs_disk w !! k = Some n -> p k n = true.
Proof.
  intros H k n Hk. rewrite forallb_forall in H. apply (H (k, n)). apply list_elem_of_In.
  by apply elem_of_map_to_list.
Qed.

Definition plain_names (l : list component) : bool :=
  forallb (fun c => match c with Normal s => negb (starts_with "." s) | _ => true end) l.

Lemma plain_names_known w l : plain_names l = true -> names (known_name w) l.
Proof.
  intros H. apply Forall_forall. intros [s| |] Hc; try done. unfold plain_names in H. rewrite forallb_forall in H.
  apply plain_known. specialize (H (Normal s) (proj1 (list_elem_of_In _ _) Hc)). cbn in H. by apply negb_true_iff.
Qed.

Lemma sample_good agenda : Forall idle agenda -> good (sample_fs agenda).
Proof.
  intros Hq. constructor; [done| |].
  - assert (Hb : forall n, bytes (of_bytes (replicate n 97%N)) = replicate n 97%N).
    { intros n. apply bytes_of_bytes. apply Forall_replicate. lia. }
    split; intros n; cbn; [unfold no_period; rewrite Hb; intros [E _]%elem_of_replicate; done|].
    intros m H. apply (f_equal bytes) in H. rewrite !Hb in H. apply (f_equal length) in H. by rewrite !length_replicate in H.
  - intros k n Hk. assert (Hp : plain_names (Normal <$> k) = true).
    { revert k n Hk. apply (plain_disk _ (fun k _ => plain_names (Normal <$> k))). vm_compute. reflexivity. }
    apply names_known_key. apply names_keys. by apply plain_names_known.
Qed.

Lemma sample_unguessed agenda l : forallb (fun p => plain_names (comps p)) l = true -> unguessed ["w"] (sample_fs agenda) l.
Proof.
  intros Hl. constructor.
  - intros k p Hk. apply plain_names_known.
    apply (plain_disk _ (fun _ n => match n with NLink p => plain_names (comps p) | _ => true end)) in Hk; [done|].
    vm_compute. reflexivity.
  - constructor; [|done]. by apply plain_known.
  - rewrite forallb_forall in Hl. apply Forall_forall. intros p Hp. apply plain_names_known, Hl.
    by apply list_elem_of_In.
Qed.

Lemma pair_run {A B} (x : A * B) b : x.2 = b -> x = (x.1, b).
Proof. destruct x. by intros <-. Qed.

Definition apply_sample (w : Fs) : Fs * result AxiomError PatchTransactionOutcome :=
  apply_structured_patch (of_key ["w"]) sample_edits 1000 w.


Lemma calm_good : good (sample_fs []).
Proof. apply sample_good. constructor. Qed.

Lemma sample_edits_unguessed agenda : unguessed ["w"] (sample_fs agenda) (intent_path <$> sample_edits).
Proof. apply sample_unguessed. vm_compute. reflexivity. Qed.



Definition sample_outcome : PatchTransactionOutcome :=
  match (apply_sample (sample_fs [])).2 with
  | Ok o => o
  | Err _ => {| pto_edits := []; pto_changed_paths := []; pto_diff := EmptyString; pto_diff_truncated := false; pto_warnings := [] |}
  end.

Lemma calm_run : apply_sample (sample_fs []) = ((apply_sample (sample_fs [])).1, Ok sample_outcome).
Proof. apply pair_run. vm_compute. reflexivity. Qed.

Lemma applied_patches_are_exact_witness :
  exists ts, Forall2 (effect ["w"] (sample_fs []) (apply_sample (sample_fs [])).1) sample_edits ts /\ NoDup ts.
Proof.
  destruct (applied_patches_are_exact ["w"] sample_edits 1000 (sample_fs []) (apply_sample (sample_fs [])).1
    sample_outcome calm_good
    (sample_edits_unguessed _)
    calm_run) as (ts & H1 & H2 & _).
  exists ts. split; [exact H1|exact H2].
Defined.

(** A link of the workspace that leads out is of no use. *)
Definition escaping_edits : list EditIntent := [EditCreate (path_of_string "out/y") "z" None].

Lemma patches_stay_inside_witness :
  fs_disk (apply_structured_patch (of_key ["w"]) escaping_edits 1000 (sample_fs [])).1 !! ["etc"; "y"]
  = fs_disk (sample_fs []) !! ["etc"; "y"].
Proof.
  apply (patches_stay_inside ["w"] escaping_edits 1000 (sample_fs [])
    (apply_structured_patch (of_key ["w"]) escaping_edits 1000 (sample_fs [])).1
    (apply_structured_patch (of_key ["w"]) escaping_edits 1000 (sample_fs [])).2 ["etc"; "y"] calm_good).
  - apply sample_unguessed. vm_compute. reflexivity.
  - apply surjective_pairing.
  - apply names_known_key. repeat constructor; apply plain_known; reflexivity.
  - intros H. apply prefix_cons_inv_1 in H. discriminate H.
Defined.

Example escaping_patches_are_refused :
  (apply_structured_patch (of_key ["w"]) escaping_edits 1000 (sample_fs [])).2
  = Err (OutsideWorkspace (of_key ["etc"])).
Proof. vm_compute. reflexivity. Qed.

Definition sample_replacement : Fs * result AxiomError PatchOutcome :=
  apply_replacement (of_key ["w"]) (path_of_string "a") "two" "three" None (sample_fs []).

Lemma replacement_run : sample_replacement = (sample_replacement.1,
  Ok {| po_path := path_of_string "a"; po_old_sha256 := Some "one two"; po_new_sha256 := "one three"; po_diff := EmptyString |}).
Proof. apply pair_run. vm_compute. reflexivity. Qed.

Lemma replacements_are_exact_witness : exists k data mode l r,
  fs_disk (sample_fs []) !! k = Some (NFile data mode) /\ from_utf8 data = Some (l +:+ "two" +:+ r) /\
  fs_disk sample_replacement.1 !! k
  = Some (NFile (bytes (l +:+ "three" +:+ r)) mode).
Proof.
  destruct (replacements_are_exact ["w"] (path_of_string "a") "two" "three" None (sample_fs [])
    sample_replacement.1
    {| po_path := path_of_string "a"; po_old_sha256 := Some "one two"; po_new_sha256 := "one three"; po_diff := EmptyString |}
    calm_good (sample_unguessed [] [path_of_string "a"] eq_refl) ltac:(discriminate)
    replacement_run)
    as (k & data & mode & l & r & _ & _ & H1 & H2 & _ & H3 & _).
  exists k, data, mode, l, r. split; [exact H1|]. split; [exact H2|exact H3].
Defined.

(** A file that grows between [fstat] and the reading is read whole: the limit is on the
    size it had. *)
Definition growing : Event :=
  {| ev_change := fun d => <[["w"; "a"] := NFile (bytes "one two three") 420]> d; ev_moves := Some;
     ev_fault := None; ev_written := 0 |}.
Definition sample_reading : Fs * result AxiomError FileRead :=
  read (of_key ["w"]) (path_of_string "a") 1 10 4 (sample_fs [calm; calm; calm; growing]).



Example growing_files_are_read_whole :
  match sample_reading.2 with
  | Ok f => fr_size_bytes f = 7 /\ fr_sha256 f = digest (bytes "one two three")
  | Err _ => False
  end.
Proof. vm_compute. done. Qed.

(** A file that is moved out of the workspace once its path has been looked up is still
    read; before that it is refused. *)
Definition moving : Event :=
  {| ev_change := fun d => <[["etc"; "a"] := NFile (bytes "one two") 420]> (delete ["w"; "a"] d);
     ev_moves := fun k => Some (if bool_decide (k = ["w"; "a"]) then ["etc"; "a"] else k);
     ev_fault := None; ev_written := 0 |}.

Example moved_files_are_judged_once :
  is_ok (read (of_key ["w"]) (path_of_string "a") 1 10 4 (sample_fs [calm; calm; moving])).2 = true /\
  (read (of_key ["w"]) (path_of_string "a") 1 10 4 (sample_fs [calm; moving])).2
  = Err (OutsideWorkspace (of_key ["etc"; "a"])).
Proof. vm_compute. done. Qed.

(** A file that appears between the check of a create and its rename is overwritten:
    the check does not hold the name. *)
Definition racing : Event :=
  {| ev_change := fun d => <[["w"; "b"] := NFile (bytes "theirs") 420]> d; ev_moves := Some; ev_fault := None; ev_written := 0 |}.
Definition raced : Fs * result AxiomError PatchTransactionOutcome :=
  apply_structured_patch (of_key ["w"]) [EditCreate (path_of_string "b") "ours" None] 1000
    (sample_fs [calm; calm; calm; racing]).

Example racing_creates_overwrite :
  is_ok raced.2 = true /\ fs_disk raced.1 !! ["w"; "b"] = Some (NFile (bytes "ours") 420).
Proof. vm_compute. done. Qed.

(** A directory that becomes a link once the path has been resolved leads a patch out:
    nothing holds the directories of a path that was found inside. *)
Definition relinking : Event :=
  {| ev_change := fun d => <[["w"; "d"] := NLink (path_of_string "/etc")]> d; ev_moves := Some;
     ev_fault := None; ev_written := 0 |}.
Definition relinked : Fs * result AxiomError PatchTransactionOutcome :=
  let w := sample_fs [relinking] in
  apply_structured_patch (of_key ["w"]) [EditCreate (path_of_string "d/b") "ours" None] 1000
    (with_disk w (<[["w"; "d"] := NDir]> (fs_disk w))).

Example relinked_directories_lead_out :
  is_ok relinked.2 = true /\ fs_disk relinked.1 !! ["etc"; "b"] = Some (NFile (bytes "ours") 420).
Proof. vm_compute. done. Qed.
