(* ===== verification/Tools.v ===== *)
(** The tool registry (apps/axiomcli/src/tools.rs): registered tools and what the
    model is shown of them, the retained changes of a session, and the review of a
    proposed plan.

    A tool is the operations of the [Tool] trait, on the outside world [P] and on
    the conversation's images, which it shares.  The parser and the files of plans
    are the interface [PlanStore]; scanning a workspace for its session diff is
    not modelled. *)

From stdpp Require Import base gmap strings list sorting.
From Stdlib Require Import ZArith NArith Lia ZifyBool ZifyN ZifyNat.
From S2P Require Import Prelude RustStr Json ToolCalls Content Accounting Inference Paths AppError Policy Planning Lease Models Kernel Images.

Local Open Scope Z_scope.

Record ToolContext : Type := {
  tc_session : string;
  tc_model_id : string;
  tc_cwd : Path;
  tc_profile : PermissionProfile;
  tc_progress : option string
}.

Record ToolResult : Type := {
  tr_content : string;
  tr_images : list ImageContent;
  tr_success : bool;
  tr_truncated : bool;
  tr_changed_paths : list Path;
  tr_diff : option string;
  tr_file_diffs : list FileDiff;
  tr_background : option (string * string);
  tr_events : list AppEvent;
  tr_questions : option QuestionRequest
}.

(** [ToolResult::success], and what the turn loop makes of a failed execution. *)
Definition tool_result (content : string) (success : bool) : ToolResult :=
  {| tr_content := content; tr_images := []; tr_success := success; tr_truncated := false;
     tr_changed_paths := []; tr_diff := None; tr_file_diffs := []; tr_background := None;
     tr_events := []; tr_questions := None |}.

(** [t_execute] returns the events it reported on the way. *)
Record Tool {P : Type} : Type := {
  t_name : string;
  t_description : string;
  t_parameters : Value;
  t_access : ToolAccess;
  t_effects : ToolContext -> Value -> P -> result AxiomError (list Effect);
  t_execute : ToolContext -> Value -> P * ImageCatalog ->
              (P * ImageCatalog) * (list AppEvent * result AxiomError ToolResult)
}.

Arguments Tool : clear implicits.

Abbreviation Tools P := (gmap string (Tool P)).

Section Registry.
Context {P : Type}.

(** The registry is replaced before a duplicate is reported. *)
Definition register_tool (t : Tool P) : M (Tools P) AxiomError unit := fun r =>
  (<[t_name t := t]> r,
   match r !! t_name t with
   | Some _ => Err (ToolError ("duplicate tool registration: " +:+ t_name t))
   | None => Ok tt
   end).

Definition with_session_tools (l : list (Tool P)) (r : Tools P) : result AxiomError (Tools P) :=
  match iterM register_tool l r with (r, Ok _) => Ok r | (_, Err e) => Err e end.

Definition tool_named (name : string) (r : Tools P) : result AxiomError (Tool P) :=
  ok_or (r !! name) (ToolError ("unknown tool `" +:+ name +:+ "`")).

Definition tool_access (name : string) (r : Tools P) : result AxiomError ToolAccess :=
  t_access <$> tool_named name r.

Definition tool_definition (t : Tool P) : ToolDefinition :=
  {| td_kind := "function";
     td_function := {| fd_name := t_name t; description := t_description t;
                       parameters := t_parameters t; strict := None |} |}.

Definition definition_le (a b : ToolDefinition) : bool :=
  bytes_leb (bytes (fd_name (td_function a))) (bytes (fd_name (td_function b))).

Definition definitions_for_with_web (profile : PermissionProfile) (web : bool) (r : Tools P)
    : list ToolDefinition :=
  sort_by definition_le (tool_definition <$>
    List.filter (fun t => web || negb (bool_decide (t_access t = Web)))
      (List.filter (fun t => is_exposed_to (t_access t) profile) (snd <$> map_to_list r))).

Definition definitions_for_with_mcp (profile : PermissionProfile) (web mcp : bool) (r : Tools P)
    : list ToolDefinition :=
  sort_by definition_le
    (definitions_for_with_web profile web r
     ++ (tool_definition <$> List.filter (fun t =>
           mcp && starts_with "mcp__" (t_name t) && negb (is_exposed_to (t_access t) profile))
           (snd <$> map_to_list r))).

Definition tool_effects (name : string) (c : ToolContext) (arguments : Value) (r : Tools P) (p : P)
    : result AxiomError (list Effect) :=
  t ← tool_named name r; t_effects t c arguments p.
End Registry.

(** ** The changes of a session *)

Definition truncate_tool_text (s : string) (maximum : nat) : string * bool :=
  if (length (bytes s) <=? maximum)%nat then (s, false)
  else (str_take (floor_boundary s (Nat.min maximum (length (bytes s)))) s, true).

Record SessionDiff : Type := {
  sd_paths : list Path;
  sd_patches : list string;
  sd_retained_bytes : Z;
  sd_truncated : bool
}.

Definition empty_diff : SessionDiff :=
  {| sd_paths := []; sd_patches := []; sd_retained_bytes := 0; sd_truncated := false |}.

(** [BTreeSet::extend]: the set as a list without repetitions. *)
Definition extend_paths (l k : list Path) : list Path :=
  foldl (fun l p => if bool_decide (p ∈ l) then l else l ++ [p]) l k.

(** [SessionChanges::record] on the entry of one session. *)
Definition record_changes (maximum : Z) (r : ToolResult) (d : SessionDiff) : SessionDiff :=
  if bool_decide (tr_changed_paths r = []) && bool_decide (tr_diff r = None) then d else
  let paths := extend_paths (sd_paths d) (tr_changed_paths r) in
  match tr_diff r with
  | None => {| sd_paths := paths; sd_patches := sd_patches d;
               sd_retained_bytes := sd_retained_bytes d; sd_truncated := sd_truncated d |}
  | Some diff =>
    let remaining := saturating_sub maximum (sd_retained_bytes d) in
    if remaining =? 0
    then {| sd_paths := paths; sd_patches := sd_patches d;
            sd_retained_bytes := sd_retained_bytes d; sd_truncated := true |}
    else
      let '(patch, truncated) := truncate_tool_text diff (Z.to_nat remaining) in
      {| sd_paths := paths; sd_patches := sd_patches d ++ [patch];
         sd_retained_bytes := saturating_add (sd_retained_bytes d) (len patch);
         sd_truncated := sd_truncated d || truncated || tr_truncated r |}
  end.

(** [SessionChanges::new]. *)
Definition retained_limit (maximum : Z) : Z := Z.max maximum 1024.

Definition tracks_workspace_changes (name : string) : bool :=
  bool_decide (name ∈ ["apply_patch"; "replace_text"; "run_command"; "run_shell";
    "start_background"; "view_session_diff"; "plan_create"; "plan_revise"; "plan_propose"]).

Abbreviation Changes := (gmap string SessionDiff).

Section Execute.
Context {P : Type}.

(** [SessionChanges::ensure_baseline], without the scan of the workspace. *)
Definition ensure_baseline (session : string) (d : Changes) : Changes :=
  match d !! session with Some _ => d | None => <[session := empty_diff]> d end.

(** [sessions.entry(session_id).or_default()] and the update of that entry. *)
Definition record_result (maximum : Z) (session : string) (r : ToolResult) (d : Changes) : Changes :=
  if bool_decide (tr_changed_paths r = []) && bool_decide (tr_diff r = None) then d
  else <[session := record_changes maximum r (default empty_diff (d !! session))]> d.

(** [ToolRegistry::execute]: a failed execution is not recorded. *)
Definition execute_tool (maximum : Z) (name : string) (c : ToolContext) (arguments : Value)
    (r : Tools P) (w : P * ImageCatalog) (d : Changes)
    : (P * ImageCatalog) * Changes * (list AppEvent * result AxiomError ToolResult) :=
  let d := if tracks_workspace_changes name then ensure_baseline (tc_session c) d else d in
  match tool_named name r with
  | Err e => (w, d, ([], Err e))
  | Ok t =>
    let '(w, (events, result)) := t_execute t c arguments w in
    (w, match result with
        | Ok res => record_result maximum (tc_session c) res d
        | Err _ => d
        end, (events, result))
  end.
End Execute.

(** ** Plan reviews *)

(** [str::parse::<usize>]. *)
Definition parse_usize (s : string) : option Z := parse_digits U64_MAX (default s (strip_prefix "+" s)).

Definition plan_range_error : AxiomError := ToolError "plan line range must be N, N-M, or all".

Definition parse_plan_line_range (value : string) (line_count : Z) : result AxiomError (Z * Z) :=
  let line_count := Z.max line_count 1 in
  if bool_decide (to_ascii_lowercase (trim value) = "all") || bool_decide (trim value = "-")
  then Ok (1, line_count) else
  let '(first, final) := default (value, value) (split_once "-" value) in
  first ← ok_or (parse_usize (trim first)) plan_range_error;
  final ← ok_or (parse_usize (trim final)) plan_range_error;
  if (first =? 0) || (final <? first) || (final >? line_count)
  then Err (ToolError ("plan line range must be within 1-" +:+ to_decimal line_count))
  else Ok (first, final).

Abbreviation Answers := (list (string * list string)).

(** The map of answers, by key. *)
Fixpoint answers_get (id : string) (l : Answers) : option (list string) :=
  match l with
  | [] => None
  | (k, v) :: l => if decide (k = id) then Some v else answers_get id l
  end.

Definition one_answer (l : Answers) (id : string) : result AxiomError string :=
  ok_or (answers_get id l ≫= head) (ToolError ("missing plan review answer `" +:+ id +:+ "`")).

(** The files of plans, their identifiers in a tool's arguments, and fresh
    identifiers of comments. *)
Class PlanStore (P : Type) : Type := {
  plan_id_argument : Value -> result string string;
  load_plan : Path -> string -> P -> result AxiomError PlanArtifact;
  save_plan : Path -> PlanArtifact -> P -> P * result AxiomError unit;
  fresh_comment_id : P -> string
}.

Definition state_json (s : PlanState) : string :=
  match s with
  | Draft => "draft" | Proposed => "proposed" | RevisionRequested => "revision_requested"
  | Approved => "approved" | Abandoned => "abandoned"
  end.

Definition comment_value (c : PlanComment) : Value :=
  VObject [("id", VString (pc_id c)); ("start_line", VNumber (PosInt (start_line c)));
           ("end_line", VNumber (PosInt (end_line c))); ("text", VString (pc_text c))].

Definition plan_value (p : PlanArtifact) : Value :=
  VObject [("id", VString (plan_id p)); ("revision", VNumber (PosInt (revision p)));
           ("state", VString (state_json (plan_state p))); ("markdown", VString (markdown p));
           ("comments", VArray (comment_value <$> comments p))].

(** The reviewer's decision, applied to the plan. *)
Definition review (uuid : string) (answers : Answers) (p : PlanArtifact)
    : result AxiomError PlanArtifact :=
  decision ← one_answer answers "decision";
  let after (m : M PlanArtifact AxiomError unit) :=
    match m p with (p, Ok _) => Ok p | (_, Err e) => Err e end in
  if decide (decision = "approve") then after approve
  else if decide (decision = "abandon") then after abandon
  else if decide (decision = "request_revision") then
    line_range ← one_answer answers "line_range";
    range ← parse_plan_line_range line_range (line_count (markdown p));
    text ← one_answer answers "comment";
    if decide (text = "-") then Err (ToolError "a revision request requires a line comment")
    else after (request_revision uuid range.1 range.2 text)
  else Err (ToolError "unknown plan review decision").

(** What a review is reported as. *)
Definition reviewed_as (s : PlanState) : option string :=
  match s with
  | Approved => Some "approved" | RevisionRequested => Some "revision_requested"
  | Abandoned => Some "abandoned" | _ => None
  end.

Section Review.
Context {P : Type} `{PS : PlanStore P} `{JT : JsonText}.

Definition complete_interaction (name : string) (c : ToolContext) (arguments : Value)
    (answers : Answers) : M P AxiomError (option ToolResult) := fun p =>
  if negb (bool_decide (name = "plan_propose")) then (p, Ok None) else
  match
    id ← map_err (fun e => ToolError ("invalid arguments for `" +:+ name +:+ "`: " +:+ e))
           (plan_id_argument arguments);
    plan ← load_plan (tc_cwd c) id p;
    review (fresh_comment_id p) answers plan
  with
  | Err e => (p, Err e)
  | Ok plan =>
    match save_plan (tc_cwd c) plan p with
    | (p, Err e) => (p, Err e)
    | (p, Ok _) =>
      match reviewed_as (plan_state plan), json_pretty (plan_value plan) with
      | None, _ => (p, Err (ToolError "plan review did not reach a reviewed state"))
      | Some _, Err e => (p, Err (JsonError e))
      | Some decision, Ok text =>
        (p, Ok (Some {| tr_content := text; tr_images := []; tr_success := true;
                        tr_truncated := false; tr_changed_paths := []; tr_diff := None;
                        tr_file_diffs := []; tr_background := None;
                        tr_events := [AppPlanReviewed (plan_id plan) (revision plan) decision];
                        tr_questions := None |}))
      end
    end
  end.
End Review.

(** ** What the model is shown *)

(** Tools are filed under their names. *)
Definition registry_ok {P} (r : Tools P) : Prop := map_Forall (fun name t => t_name t = name) r.

Lemma register_tool_ok {P} (t : Tool P) r : registry_ok r -> registry_ok (register_tool t r).1.
Proof. intros H. unfold registry_ok. cbn. by apply map_Forall_insert_2. Qed.

Lemma with_session_tools_ok {P} (l : list (Tool P)) r r' :
  registry_ok r -> with_session_tools l r = Ok r' -> registry_ok r'.
Proof.
  unfold with_session_tools. intros Hr.
  pose proof (iterM_invariant registry_ok register_tool l r (fun x s => register_tool_ok x s) Hr) as H.
  destruct (iterM _ l r) as [r1 [[]|e]]; [|done]. by intros [= <-].
Qed.

Section Shown.
Context {P : Type}.
Implicit Types (r : Tools P) (t : Tool P).

(** A tool the profile exposes, or a desktop MCP tool it does not. *)
Definition shown (profile : PermissionProfile) (web mcp : bool) (t : Tool P) : Prop :=
  (is_exposed_to (t_access t) profile = true /\ (web = true \/ t_access t <> Web)) \/
  (mcp = true /\ starts_with "mcp__" (t_name t) = true /\ is_exposed_to (t_access t) profile = false).

Definition shown_tools (profile : PermissionProfile) (web mcp : bool) (l : list (Tool P))
    : list (Tool P) :=
  List.filter (fun t => web || negb (bool_decide (t_access t = Web)))
    (List.filter (fun t => is_exposed_to (t_access t) profile) l)
  ++ List.filter (fun t =>
       mcp && starts_with "mcp__" (t_name t) && negb (is_exposed_to (t_access t) profile)) l.

Lemma elem_of_filter_bool {A} (f : A -> bool) l x : x ∈ List.filter f l <-> x ∈ l /\ f x = true.
Proof. by rewrite !list_elem_of_In, List.filter_In. Qed.

Lemma elem_of_shown_tools profile web mcp l t :
  t ∈ shown_tools profile web mcp l <-> t ∈ l /\ shown profile web mcp t.
Proof.
  unfold shown_tools, shown. rewrite elem_of_app, !elem_of_filter_bool.
  rewrite !andb_true_iff, orb_true_iff, !negb_true_iff, bool_decide_eq_false. naive_solver.
Qed.

Lemma NoDup_filter_bool {A} (f : A -> bool) (l : list A) : NoDup l -> NoDup (List.filter f l).
Proof. rewrite !NoDup_ListNoDup. apply List.NoDup_filter. Qed.

Lemma shown_tools_NoDup profile web mcp l : NoDup l -> NoDup (shown_tools profile web mcp l).
Proof.
  intros Hl. apply NoDup_app. split_and!; [by do 2 apply NoDup_filter_bool| |by apply NoDup_filter_bool].
  intros t. rewrite !elem_of_filter_bool. intros [[_ H] _] [_ H2].
  rewrite H, !andb_true_iff in H2. by destruct H2.
Qed.

Lemma definitions_perm profile web mcp r :
  definitions_for_with_mcp profile web mcp r
    ≡ₚ tool_definition <$> shown_tools profile web mcp (snd <$> map_to_list r).
Proof.
  unfold definitions_for_with_mcp, definitions_for_with_web, shown_tools.
  by rewrite sort_by_perm, sort_by_perm, fmap_app.
Qed.

Lemma definition_le_trans a b c :
  definition_le a b = true -> definition_le b c = true -> definition_le a c = true.
Proof. unfold definition_le. apply bytes_leb_trans. Qed.

Lemma definition_le_total a b : definition_le a b = true \/ definition_le b a = true.
Proof. unfold definition_le. apply bytes_leb_total. Qed.

Lemma registered_names r :
  registry_ok r -> forall t t', t ∈ (snd <$> map_to_list r) -> t' ∈ (snd <$> map_to_list r) ->
  t_name t = t_name t' -> t = t'.
Proof.
  intros Hr t t' ([k x] & -> & Hk)%list_elem_of_fmap ([k' x'] & -> & Hk')%list_elem_of_fmap. cbn.
  apply elem_of_map_to_list in Hk, Hk'. rewrite (Hr _ _ Hk), (Hr _ _ Hk'). intros ->. congruence.
Qed.

(** The tools offered to the model are exactly the registered tools its profile
    exposes, without Web tools when Web is off, and the selected desktop MCP tools;
    each has one definition, its own, and they come in the order of their names. *)
Theorem offered_tools_are_permitted profile web mcp r :
  registry_ok r ->
  let l := definitions_for_with_mcp profile web mcp r in
  (forall d, d ∈ l <-> exists t, r !! t_name t = Some t /\ shown profile web mcp t /\
                          d = tool_definition t) /\
  NoDup ((fun d => fd_name (td_function d)) <$> l) /\
  StronglySorted (fun a b => definition_le a b = true) l.
Proof.
  intros Hr. cbv zeta. split_and!.
  - intros d. rewrite definitions_perm, list_elem_of_fmap. setoid_rewrite elem_of_shown_tools.
    split.
    + intros (t & -> & ([k x] & -> & Hk)%list_elem_of_fmap & Hs). apply elem_of_map_to_list in Hk.
      exists x. cbn in *. by rewrite (Hr _ _ Hk).
    + intros (t & Ht & Hs & ->). exists t. split_and!; [done| |done]. apply list_elem_of_fmap.
      exists (t_name t, t). by rewrite elem_of_map_to_list.
  - rewrite definitions_perm. rewrite <- list_fmap_compose.
    apply NoDup_fmap_2_strong; [|apply shown_tools_NoDup].
    + intros t t' Ht Ht'. cbn. apply elem_of_shown_tools in Ht as [Ht _], Ht' as [Ht' _].
      by apply (registered_names r Hr).
    + apply NoDup_fmap_2_strong; [|apply NoDup_map_to_list].
      intros [k x] [k' x']. rewrite !elem_of_map_to_list. cbn. intros Hk Hk' ->.
      by rewrite <- (Hr _ _ Hk), <- (Hr _ _ Hk').
  - apply sort_by_sorted; [apply definition_le_trans|apply definition_le_total].
Qed.
End Shown.

(** ** Retained changes *)

Definition diff_ok (maximum : Z) (d : SessionDiff) : Prop :=
  sd_retained_bytes d = foldr Z.add 0 (len <$> sd_patches d) /\ 0 <= sd_retained_bytes d <= maximum.

Lemma truncate_tool_text_len s maximum :
  (length (bytes (truncate_tool_text s maximum).1) <= maximum)%nat.
Proof.
  unfold truncate_tool_text. destruct (Nat.leb_spec (length (bytes s)) maximum); cbn [fst]; [done|].
  rewrite bytes_str_take, length_take.
  destruct (floor_boundary_spec s (Nat.min maximum (length (bytes s)))). lia.
Qed.

Lemma foldr_add_app l1 l2 : foldr Z.add 0 (l1 ++ l2) = foldr Z.add 0 l1 + foldr Z.add 0 l2.
Proof. induction l1; cbn; lia. Qed.

Lemma record_changes_ok maximum r d :
  maximum <= U64_MAX -> diff_ok maximum d -> diff_ok maximum (record_changes maximum r d).
Proof.
  intros Hm [H1 H2]. unfold record_changes. destruct (_ && _); [done|].
  destruct (tr_diff r) as [diff|]; [|done]. case_match eqn:Hz; [done|].
  pose proof (truncate_tool_text_len diff (Z.to_nat (saturating_sub maximum (sd_retained_bytes d)))) as Hl.
  destruct (truncate_tool_text _ _) as [patch tr]. cbn [fst] in Hl.
  unfold diff_ok. cbn [sd_retained_bytes sd_patches]. rewrite fmap_app, foldr_add_app, H1. cbn [fmap
    list_fmap foldr]. unfold saturating_add, saturating_sub in *. rewrite <- H1, len_bytes. lia.
Qed.

(** ** Reviews *)

Lemma parse_digits_bounds bound s v : parse_digits bound s = Some v -> 0 <= v <= bound.
Proof.
  unfold parse_digits. destruct (_ || _) eqn:Hg; [done|].
  apply orb_false_iff in Hg as [_ Hd%negb_false_iff]. case_match; [|done]. intros [= <-].
  split; [|lia]. unfold decimal_value. clear H.
  assert (H : forall l acc, 0 <= acc -> forallb is_ascii_digit l = true ->
    0 <= foldl (fun acc c => acc * 10 + (Z.of_N c - 48)) acc l); [|by apply H].
  clear. induction l as [|c l IH]; intros acc Ha Hd; [exact Ha|]. cbn in Hd |- *.
  apply andb_true_iff in Hd as [Hc Hd]. apply IH; [|done]. unfold is_ascii_digit in Hc. lia.
Qed.

Lemma parse_plan_line_range_bounds value n first final :
  parse_plan_line_range value n = Ok (first, final) -> 1 <= first <= final /\ final <= Z.max n 1.
Proof.
  unfold parse_plan_line_range. destruct (_ || _); [intros [= <- <-]; lia|].
  destruct (default _ _) as [a b]. intros H. apply bind_Ok in H as (x & Hx & H).
  apply bind_Ok in H as (y & Hy & H). apply ok_or_Ok in Hx, Hy.
  destruct (_ || _) eqn:Hg; [done|]. injection H as <- <-.
  apply parse_digits_bounds in Hx. lia.
Qed.

Lemma M_after (m : M PlanArtifact AxiomError unit) p q :
  match m p with (p, Ok _) => Ok p | (_, Err e) => Err e end = @Ok AxiomError _ q <-> m p = (q, Ok tt).
Proof. destruct (m p) as [p' [[]|e]]; naive_solver. Qed.

(** A review decides a proposed plan and nothing else of it: approval and a
    revision request need a proposed plan, every accepted decision leaves the plan
    in the state it is reported as, its identifier, revision and text are the
    reviewed ones, and a revision request adds one comment, on lines the plan has. *)
Theorem reviews_decide_plans uuid answers p q :
  review uuid answers p = Ok q ->
  plan_id q = plan_id p /\ revision q = revision p /\ markdown q = markdown p /\
  is_Some (reviewed_as (plan_state q)) /\
  match plan_state q with
  | Approved => plan_state p = Proposed /\ comments q = comments p
  | RevisionRequested => plan_state p = Proposed /\ exists c, comments q = comments p ++ [c] /\
      pc_id c = uuid /\ 1 <= start_line c <= end_line c /\
      end_line c <= Z.max (line_count (markdown p)) 1 /\ is_blank (pc_text c) = false
  | _ => comments q = comments p
  end.
Proof.
  unfold review. intros (d & Hd & H)%bind_Ok. case_decide; [|case_decide; [|case_decide; [|done]]].
  - apply M_after in H. unfold approve, transition in H.
    destruct (plan_state p) eqn:Hs; try done; injection H as <-; by split_and!.
  - apply M_after in H. unfold abandon, transition in H. destruct (negb _); [done|]. injection H as <-.
    by split_and!.
  - apply bind_Ok in H as (line & Hl & H). apply bind_Ok in H as ([first final] & Hr & H).
    apply bind_Ok in H as (text & Ht & H). case_decide; [done|]. apply M_after in H. cbn [fst snd] in H.
    apply parse_plan_line_range_bounds in Hr as [Hr1 Hr2]. unfold request_revision in H.
    destruct (negb (bool_decide _)) eqn:Hp; [done|].
    apply negb_false_iff, bool_decide_eq_true in Hp. unfold comment in H.
    destruct (_ || _) eqn:Hg; [done|]. injection H as <-.
    rewrite !orb_false_iff in Hg. destruct Hg as [[[Hb _] _] _].
    split_and!; try done. split; [done|]. eexists. split_and!; try done; cbn; lia.
Qed.

(** ** Concrete inputs *)

Definition named_tool (name : string) (access : ToolAccess) : Tool unit := {|
  t_name := name; t_description := ""; t_parameters := VNull; t_access := access;
  t_effects _ _ _ := Ok []; t_execute _ _ w := (w, ([], Ok (tool_result "" true)))
|}.

Definition sample_registry : Tools unit :=
  {["read_file" := named_tool "read_file" Read; "fetch" := named_tool "fetch" Web;
    "write_file" := named_tool "write_file" Write; "mcp__x__y" := named_tool "mcp__x__y" Write]}.

Lemma offered_tools_are_permitted_witness :
  NoDup ((fun d => fd_name (td_function d)) <$> definitions_for_with_mcp Observe false true sample_registry) /\
  (fun d => fd_name (td_function d)) <$> definitions_for_with_mcp Observe false true sample_registry
    = ["mcp__x__y"; "read_file"].
Proof.
  assert (H : registry_ok sample_registry).
  { unfold sample_registry. by repeat apply map_Forall_insert_2. }
  destruct (offered_tools_are_permitted Observe false true sample_registry H) as (_ & Hn & _).
  split; [exact Hn|by vm_compute].
Defined.

Definition proposed_plan : PlanArtifact :=
  set_state (new_plan "p" ("# Plan" +:+ newline +:+ "Step one")) Proposed.

Definition revision_answers : Answers :=
  [("decision", ["request_revision"]); ("line_range", ["2"]); ("comment", ["Which step?"])].

Lemma reviews_decide_plans_witness :
  exists q, review "c" revision_answers proposed_plan = Ok q /\ plan_state q = RevisionRequested /\
    markdown q = markdown proposed_plan.
Proof.
  eexists. split; [by vm_compute|]. split; [done|].
  destruct (reviews_decide_plans "c" revision_answers proposed_plan _ eq_refl) as (_ & _ & H & _).
  exact H.
Defined.
