(* ===== verification/TurnProofs.v ===== *)
(** The agent's turn: what holds of every run of [TurnLoop].

    One walk through the turn carries one invariant ([Inv]): the events sent so far
    are a run of the kernel's session, the events and the outside world keep what only
    allowed operations may change, the policy is the session's, and the transcript and
    the stored histories answer their tool calls in place.  A [Frame] says which of
    these are wanted; the theorems read off its parts. *)

From stdpp Require Import base gmap strings list.
From Stdlib Require Import ZArith NArith Lia ZifyBool ZifyN ZifyNat.
From S2P Require Import Prelude RustStr Json ToolCalls Content Accounting Inference Attachments RuntimePolicy Paths AppError Policy Steering Planning Lease Models Kernel Compaction Images Tools Agent TurnLoop.

Local Open Scope Z_scope.

(** ** Transcripts *)

(** The calls still to be answered after [l]: replies come right after the calls,
    in their order, and before any other message. *)
Fixpoint open_calls (pending : list string) (l : list ChatMessage) : option (list string) :=
  match l with
  | [] => Some pending
  | m :: l =>
    match role m, pending, tool_call_id m with
    | Inference.Tool, id :: pending, Some i => if decide (i = id) then open_calls pending l else None
    | Inference.Tool, _, _ => None
    | Assistant, [], _ => open_calls (ToolCalls.id <$> tool_calls m) l
    | _, [], _ => open_calls [] l
    | _, _ :: _, _ => None
    end
  end.

Definition replied (l : list ChatMessage) : Prop := open_calls [] l = Some [].

(** Only assistants call tools, and only replies answer them. *)
Definition calls_ok (l : list ChatMessage) : Prop :=
  Forall (fun m => role m <> Assistant -> tool_calls m = []) l.
Definition ids_ok (l : list ChatMessage) : Prop :=
  Forall (fun m => role m <> Inference.Tool -> tool_call_id m = None) l.

(** The identifiers of the calls of a transcript, in their order. *)
Definition called_ids (l : list ChatMessage) : list string := ToolCalls.id <$> (l ≫= tool_calls).

(** The calls of a transcript are answered in place, but for the [pending] ones at its
    end; unless the provider used an identifier twice. *)
Record well_replied (pending : list string) (l : list ChatMessage) : Prop := {
  wr_calls : calls_ok l;
  wr_ids : ids_ok l;
  wr_open : NoDup (called_ids l) -> open_calls [] l = Some pending
}.
Abbreviation sound := (well_replied []).

(** What the application shows to the model. *)
Definition observed (m : ChatMessage) : Prop :=
  role m = User /\ tool_calls m = [] /\ tool_call_id m = None.

Lemma observed_open l : Forall observed l -> open_calls [] l = Some [] /\ calls_ok l /\ ids_ok l.
Proof.
  induction 1 as [|m l (Hr & Hc & Hi) _ (IH1 & IH2 & IH3)]; [by split_and!; [|constructor..]|].
  split_and!; [cbn; by rewrite Hr|by constructor..].
Qed.

Lemma open_calls_app pending l l' :
  open_calls pending (l ++ l') = match open_calls pending l with
                                 | Some pending => open_calls pending l' | None => None end.
Proof.
  revert pending. induction l as [|m l IH]; intros pending; [done|]. cbn [app open_calls].
  destruct (role m), pending, (tool_call_id m); try done; try apply IH; case_decide; done || apply IH.
Qed.

Lemma open_calls_same l l' :
  Forall2 (fun x y => role y = role x /\ tool_call_id y = tool_call_id x /\
                      tool_calls y = tool_calls x) l l' ->
  forall pending, open_calls pending l' = open_calls pending l.
Proof.
  induction 1 as [|x y l l' (H1 & H2 & H3) _ IH]; intros pending; [done|].
  cbn [open_calls]. rewrite H1, H2, H3.
  destruct (role x), pending, (tool_call_id x); try done; try apply IH; case_decide; done || apply IH.
Qed.

Lemma called_ids_app l l' : called_ids (l ++ l') = called_ids l ++ called_ids l'.
Proof. unfold called_ids. by rewrite bind_app, fmap_app. Qed.

(** Messages of the same shape: what they say may differ. *)
Definition same_shape (x y : ChatMessage) : Prop :=
  role y = role x /\ tool_call_id y = tool_call_id x /\ tool_calls y = tool_calls x.

Lemma well_replied_same pending l l' : Forall2 same_shape l l' -> well_replied pending l -> well_replied pending l'.
Proof.
  intros H [Hk Hi Ho]. assert (Hc : called_ids l' = called_ids l).
  { unfold called_ids. f_equal. clear -H. induction H as [|x y l l' (_ & _ & H) _ IH]; [done|]. cbn. by rewrite H, IH. }
  constructor; [| |rewrite Hc, (open_calls_same l l') by done; exact Ho].
  - clear -H Hk. induction H as [|x y l l' (H1 & H2 & H3) _ IH]; [constructor|].
    apply Forall_cons in Hk as [Hx Hk]. constructor; [by rewrite H1, H3|by apply IH].
  - clear -H Hi. induction H as [|x y l l' (H1 & H2 & H3) _ IH]; [constructor|].
    apply Forall_cons in Hi as [Hx Hi]. constructor; [by rewrite H1, H2|by apply IH].
Qed.

Lemma well_replied_app pending pending' l l' :
  well_replied pending l -> calls_ok l' -> ids_ok l' -> open_calls pending l' = Some pending' ->
  well_replied pending' (l ++ l').
Proof.
  intros [Hk Hi Ho] Hk' Hi' Ho'. constructor; [by apply Forall_app|by apply Forall_app|].
  rewrite called_ids_app, NoDup_app. intros [Hd _]. by rewrite open_calls_app, Ho.
Qed.

(** Replies come in the order of the calls: what is pending are the last ones. *)
Lemma open_calls_replies l : forall pending q,
  calls_ok l -> ids_ok l -> open_calls pending l = Some q ->
  pending ++ called_ids l = omap tool_call_id l ++ q.
Proof.
  induction l as [|m l IH]; intros pending q Hk Hi; cbn [open_calls].
  - intros [= ->]. cbn. by rewrite app_nil_r.
  - apply Forall_cons in Hk as [Hm Hk]. apply Forall_cons in Hi as [Hn Hi].
    unfold called_ids. rewrite bind_cons, fmap_app. fold (called_ids l). cbn [omap list_omap].
    destruct (role m) eqn:Hr, pending as [|p pending]; try done;
      try rewrite (Hn ltac:(done)); try rewrite (Hm ltac:(done)); try (intros H; by apply (IH [] q)).
    + intros H. by rewrite <- (IH _ q Hk Hi H).
    + destruct (tool_call_id m) as [i|]; [|done]. case_decide as He; [|done]. subst i. intros H.
      cbn. f_equal. by apply IH.
Qed.

Lemma filter_of_fmap {A B} (f : A -> B) (g : B -> bool) (l : list A) :
  f <$> List.filter (fun x => g (f x)) l = List.filter g (f <$> l).
Proof. induction l as [|x l IH]; [done|]. cbn. destruct (g (f x)); cbn; by rewrite IH. Qed.

Lemma filter_out {A} (g : A -> bool) (l k : list A) :
  (forall x, x ∈ l -> g x = false) -> (forall x, x ∈ k -> g x = true) -> List.filter g (l ++ k) = k.
Proof.
  intros Hl Hk. induction l as [|x l IH]; cbn.
  - induction k as [|x k IH]; [done|]. cbn. rewrite Hk by left. f_equal. apply IH. intros y Hy. apply Hk. by right.
  - rewrite Hl by left. apply IH. intros y Hy. apply Hl. by right.
Qed.

(** The calls a declined turn answers are the pending ones, in their order. *)
Lemma unanswered_pending pending l :
  well_replied pending l -> NoDup (called_ids l) -> ToolCalls.id <$> unanswered l = pending.
Proof.
  intros [Hk Hi Ho] Hd. specialize (Ho Hd). apply open_calls_replies in Ho; [|done..]. cbn in Ho.
  unfold unanswered.
  set (g := fun id => negb (existsb (fun m => bool_decide (tool_call_id m = Some id)) l)).
  change (ToolCalls.id <$> List.filter (fun call => g (ToolCalls.id call)) (l ≫= tool_calls) = pending).
  rewrite filter_of_fmap. fold (called_ids l). rewrite Ho in Hd |- *. apply NoDup_app in Hd as (_ & Hd & _).
  assert (Hg : forall id, g id = false <-> id ∈ omap tool_call_id l).
  { intros id. unfold g. rewrite negb_false_iff, existsb_elem_of, list_elem_of_omap.
    split; intros (m & Hm & H); exists m; (split; [done|]); [by apply bool_decide_eq_true in H|by apply bool_decide_eq_true]. }
  apply filter_out; [intros id; apply Hg|].
  intros id Hin. destruct (g id) eqn:E; [done|]. apply Hg in E. by destruct (Hd id E).
Qed.

Lemma errors_answer (calls : list ToolCall) (text : string) :
  open_calls (ToolCalls.id <$> calls)
    ((fun call => tool_error_message (ToolCalls.id call) (call_name call) text) <$> calls) = Some [].
Proof. induction calls as [|x calls IH]; [done|]. cbn -[tool_error_message]. cbn. by rewrite decide_True. Qed.

(** Answering the unanswered answers everything. *)
Lemma declined_sound pending l text :
  well_replied pending l ->
  sound (l ++ ((fun call => tool_error_message (ToolCalls.id call) (call_name call) text) <$> unanswered l)
           ++ [interrupted_turn_context]).
Proof.
  intros H. set (errors := _ <$> _). assert (He : Forall (fun m => role m = Inference.Tool /\ tool_calls m = []) errors).
  { apply Forall_forall. intros m (call & -> & _)%list_elem_of_fmap. done. }
  assert (Hc : called_ids errors = []).
  { clear -He. unfold called_ids. clearbody errors. induction He as [|m k [_ Hm] _ IH]; [done|]. cbn. by rewrite Hm. }
  pose proof H as [Hk Hi Ho]. constructor.
  - apply Forall_app. split; [done|]. apply Forall_app. split; [|by repeat constructor].
    eapply Forall_impl; [exact He|]. by intros m [_ Hm].
  - apply Forall_app. split; [done|]. apply Forall_app. split; [|by repeat constructor].
    eapply Forall_impl; [exact He|]. by intros m [Hm _].
  - rewrite !called_ids_app, Hc. cbn. rewrite app_nil_r. intros Hd. rewrite open_calls_app, (Ho Hd), open_calls_app.
    unfold errors. rewrite <- (unanswered_pending pending l H Hd), errors_answer. done.
Qed.

(** ** The call protocol of events

    A proposed call is answered by its output before anything else that a restored
    transcript takes up. *)
Definition call_step (open : option string) (e : AppEvent) : option (option string) :=
  match e, open with
  | AppToolProposed _ id _ _, None => Some (Some id)
  | AppToolOutput id _ _, Some id' => if decide (id = id') then Some None else None
  | AppToolProposed _ _ _ _, Some _ | AppToolOutput _ _ _, None => None
  | AppPromptAccepted _ _ _, Some _ | AppSteeringApplied _ _ _, Some _ | AppTextDelta _ _, Some _
  | AppReasoningDelta _ _, Some _ | AppToolCompleted _ _, Some _ | AppContextCompacted _ _, Some _
  | AppTurnCancelled _, Some _ | AppErrorRaised (Some _) _, Some _ => None
  | _, _ => Some open
  end.

Fixpoint call_run (open : option string) (l : list AppEvent) : option (option string) :=
  match l with [] => Some open | e :: l => open ← call_step open e; call_run open l end.

Lemma call_run_app o l l' : call_run o (l ++ l') = o ← call_run o l; call_run o l'.
Proof.
  revert o. induction l as [|e l IH]; intros o; [done|]. cbn. destruct (call_step o e); [apply IH|done].
Qed.

(** ** Compaction, seen from outside *)

(** Events that change no session and no call, whatever their state. *)
Definition note (e : AppEvent) : bool :=
  quiet e && match e with
             | AppSteeringApplied _ _ _ | AppPromptAccepted _ _ _ | AppTextDelta _ _ | AppReasoningDelta _ _
             | AppToolProposed _ _ _ _ | AppToolOutput _ _ _ | AppToolCompleted _ _
             | AppContextCompacted _ _ => false
             | _ => true
             end.

Lemma note_observed e s : note e = true -> observe_event e s = (s, Ok tt).
Proof. by destruct e. Qed.

Lemma note_called e o : note e = true -> call_step o e = Some o.
Proof. destruct e, o; try done; cbn; by case_match. Qed.

Section Compactions.
Context {P : Type} `{PR : Provider P} `{RJ : RequestJson}.
Variables (K : Prop) (I : list AppEvent -> P -> Prop) (em0 : list AppEvent).
Hypothesis event_keeps : forall e es p, I es p -> I (es ++ [e]) p.
Hypothesis stream_keeps : forall r es p, (K -> sound (messages r)) -> I es p -> I es (provider_stream r p).1.

(** Notes were sent since [em0], and the provider keeps [I]. *)
Definition noted (w : World P) : Prop :=
  (exists es, emitted w = em0 ++ es /\ Forall (fun e => note e = true) es) /\ I (emitted w) (provider w).

Lemma noted_send e : note e = true -> triple noted (send_event e) (fun _ => noted) (fun _ => noted).
Proof using event_keeps.
  intros He w [(es & Hes & Hall) Hi]. unfold send_event. destruct (listening _ _); [|by split; [exists es|]].
  split; [|by apply event_keeps]. exists (es ++ [e]). cbn. rewrite Hes, app_assoc. split; [done|].
  apply Forall_app. by split; [|constructor].
Qed.

Lemma compaction_event_note e x : compaction_event e = Some x -> note x = true.
Proof using Type. destruct e; cbn; try done; by intros [= <-]. Qed.

Lemma noted_turn r :
  (K -> sound (messages r)) ->
  triple noted (provider_turn_for_compaction r) (fun _ => noted) (fun _ => noted).
Proof using event_keeps stream_keeps.
  intros Hr w [Hes Hi]. unfold provider_turn_for_compaction.
  pose proof (stream_keeps r (emitted w) (provider w) Hr Hi) as Hk.
  destruct (provider_stream r (provider w)) as [p [events outcome]].
  assert (Hf : triple noted (iterM forward events) (fun _ => noted) (fun _ => noted)).
  { apply triple_iter. intros e _. unfold forward. destruct (compaction_event e) eqn:He;
      [by eapply noted_send, compaction_event_note|by apply triple_ret]. }
  specialize (Hf (set_provider w p)). destruct (iterM forward events (set_provider w p)) as [w' [u|e]];
    [|by apply Hf]. destruct outcome; [|by apply Hf]. destruct (existsb _ _); [by apply Hf|].
  destruct (negb _); by apply Hf.
Qed.

Lemma same_message_shape m x y : same_message m x y -> same_shape x y.
Proof using Type. unfold same_message, same_shape. naive_solver. Qed.

Lemma request_sound m id l t thinking :
  sound l -> sound (messages (inference_request_for_model m id l t thinking)).
Proof using Type.
  rewrite request_messages. apply well_replied_same. eapply Forall2_impl; [apply kept_messages|].
  apply same_message_shape.
Qed.

Lemma fragment_request_sound m s focus summary part limit index parts :
  sound (messages (fragment_request m s focus summary part limit index parts)).
Proof using Type.
  unfold fragment_request. cbn [request_with streaming messages]. rewrite !request_messages.
  unfold model_messages. destruct (mi_reasoning_replay m), (mi_supports_images m); constructor; done || by repeat constructor.
Qed.

Lemma noted_summarize m s focus limit count parts : forall index summary,
  triple noted (summarize m s focus limit count index parts summary) (fun _ => noted) (fun _ => noted).
Proof using event_keeps stream_keeps.
  induction parts as [|part parts IH]; intros index summary w Hw; cbn [summarize]; [done|].
  destruct (is_cancelled _); [done|].
  pose proof (noted_turn _ (fun _ => fragment_request_sound m s focus summary part limit (index + 1) count) w Hw) as H.
  destruct (provider_turn_for_compaction _ w) as [w' [turn|e]]; [|done]. destruct (_ || _); [done|].
  by apply IH.
Qed.

Lemma noted_compact l s m history focus :
  triple noted (compact_messages l s m history focus)
    (fun x w => noted w /\ exists a b, x.1 = compacted_history a b) (fun _ => noted).
Proof using event_keeps stream_keeps.
  intros w Hw. destruct history as [|first [|m1 conv]]; [done|done|]. unfold compact_messages.
  pose proof (noted_send progress_event eq_refl w Hw) as Hs.
  destruct (send_event progress_event w) as [w1 [u|e]]; [|done].
  destruct (_ >? _); [done|]. destruct (_ ≫= _) as [[recent parts]|e]; [|done].
  pose proof (noted_summarize m s (focus_text focus)
    (Z.min (Z.max (Z.max (compaction_transcript_budget l m) 1024 / 4) 256) (32 * 1024))
    (Z.of_nat (length parts)) parts 0 EmptyString w1 Hs) as H.
  destruct (summarize _ _ _ _ _ _ _ _ w1) as [w2 [summary|e]]; [|done].
  split; [done|]. cbn [fst]. eauto.
Qed.
End Compactions.

(** ** The invariant of a turn *)

Definition histories_sound (h : gmap string (list ChatMessage)) : Prop := map_Forall (fun _ => sound) h.

(** What a proof wants to know of a turn. *)
Record Frame {P : Type} : Type := {
  fr_kernel : Prop;                          (** that the kernel accepts the events, *)
  fr_replies : Prop;                         (** that calls are answered in place, *)
  fr_world : list AppEvent -> P -> Prop;     (** what the events sent and the outside world keep, *)
  fr_sent : list AppEvent;                   (** since these events, *)
  fr_session : SessionState;                 (** this state of the kernel's session, *)
  fr_policy : option PolicyEngine            (** and this policy. *)
}.
Arguments Frame : clear implicits.

(** Where the kernel's session is: running the turn, or waiting for one answer; and
    the proposed call that has no output yet. *)
Inductive wait : Type := Going | Approving (id : string) | Asking (id : string).
Abbreviation phase := (wait * option string)%type.
Abbreviation InTurn := (Going, @None string).
Abbreviation InCall id := (Going, Some id).

Definition in_wait (turn : string) (w : wait) (s : SessionState) : Prop :=
  ss_active_turn s = Some turn /\
  match w with
  | Going => ss_lifecycle s = Running
  | Approving id => ss_lifecycle s = WaitingForApproval /\ ss_pending_permission s = Some id
  | Asking id => ss_lifecycle s = WaitingForAnswer /\ ss_pending_question s = Some id
  end.

(** What an event does to the session and to the open call. *)
Definition moves (turn : string) (ph : phase) (e : AppEvent) (ph' : phase) : Prop :=
  call_step ph.2 e = Some ph'.2 /\
  forall s, in_wait turn ph.1 s -> exists s', observe_event e s = (s', Ok tt) /\ in_wait turn ph'.1 s'.

(** The tools keep to notes, and ask only actual questions. *)
Definition result_ok (r : ToolResult) : Prop :=
  Forall (fun e => note e = true) (tr_events r) /\
  (forall q, tr_questions r = Some q -> questions q <> []).

Definition tools_ok {P} (tools : Tools P) : Prop :=
  forall name tool, tools !! name = Some tool -> forall tc v w w' events r,
    t_execute tool tc v w = (w', (events, r)) ->
    Forall (fun e => note e = true) events /\ (forall x, r = Ok x -> result_ok x).

Section Walk.
Context {P : Type} `{HO : Host P}.
Context `{FS : FileSystem} `{U : UrlLib} `{RJ : RequestJson} `{JT : JsonText} `{PS : PlanStore P}.
Context (cfg : AgentConfig) (tools : Tools P) (c : TurnContext) (limit : option Z) (m : ModelInfo).

Variable F : Frame P.
Abbreviation L := (fr_kernel F).
Abbreviation I := (fr_world F).

Definition sent (t : Turn P) : list AppEvent := emitted (en_world (tn_engine t)).

(** A policy of the session: the roots and the rules are those it started with, or those
    of the configuration and the project; approvals only add grants. *)
Definition session_policy (e : PolicyEngine) : Prop :=
  exists e0, (fr_policy F = Some e0 \/
              exists more p, project_rules (cx_cwd c) p = Ok more /\
                for_workspace_with_rules (cx_cwd c) (ac_policy_rules cfg ++ more) = Ok e0) /\
    roots e = roots e0 /\ rules e = rules e0.

(** The user was shown the effect of a decision, and allowed it. *)
Definition allowed_dialogue (d : PolicyDecision) (es : list AppEvent) : Prop :=
  cx_approval c = true /\
  exists r choice p,
    ar_effect r = normalized_effect d /\ (ask_approval r p).2 = Some (Ok choice) /\
    is_allowed choice = true /\ choice ∈ offered_choices r /\
    es = [AppPermissionRequired (Policy.request_id r) (ar_explanation r) (effect_value (ar_effect r))
            (choice_str <$> offered_choices r);
          AppPermissionResolved (Policy.request_id r) true (Some (choice_str choice))].

Definition in_context (tc : ToolContext) : Prop :=
  tc_session tc = cx_session c /\ tc_cwd tc = cx_cwd c /\ tc_profile tc = cx_profile c.

(** The last thing that happened is that this call was proposed, and that all it does was
    allowed: by the policy of the session, and by the user where the policy asks. *)
Definition cleared (id name : string) (v : Value) (es : list AppEvent) : Prop :=
  access_switches c tools name = Ok tt /\
  exists before tc p policy effects dialogues,
    I (before ++ [AppToolProposed (cx_turn c) id name v]) p /\ in_context tc /\
    call_effects c tools tc name v p = Ok effects /\ session_policy policy /\
    let decisions := decide_effects c name policy effects in
    Forall (fun d => kind d <> Deny) decisions /\
    Forall2 allowed_dialogue (List.filter (needs_answer c name) decisions) dialogues /\
    es = (before ++ [AppToolProposed (cx_turn c) id name v]) ++ concat dialogues.

(** Then the start of the call was announced. *)
Definition authorized (name : string) (v : Value) (es : list AppEvent) : Prop :=
  exists id es', cleared id name v es' /\ es = es' ++ [AppToolStarted id name].

(** What the operations of the outside world keep: a tool only on a call that was just
    authorized, the provider when it is asked with a transcript that answers its calls. *)
Record keeps : Prop := {
  keep_event e es p : I es p -> I (es ++ [e]) p;
  keep_stream r es p : (fr_replies F -> sound (messages r)) -> I es p -> I es (provider_stream r p).1;
  keep_id es p : I es p -> I es (fresh_request_id p).1;
  keep_approval r es p : I es p -> I es (ask_approval r p).1;
  keep_questions r es p : I es p -> I es (ask_questions r p).1;
  keep_arrivals es p : I es p -> I es (arrivals p).1;
  keep_plan path plan es p : I es p -> I es (save_plan path plan p).1;
  keep_tool name tool tc v es w : tools !! name = Some tool -> in_context tc -> authorized name v es ->
    I es w.1 -> I es (t_execute tool tc v w).1.1
}.

Hypothesis (HK : keeps) (HL : L -> tools_ok tools).

Definition events_ok (ph : phase) (t : Turn P) : Prop :=
  L -> exists es s, sent t = fr_sent F ++ es /\
    iterM observe_event es (fr_session F) = (s, Ok tt) /\ in_wait (cx_turn c) ph.1 s /\ call_run None es = Some ph.2.

(** However the turn ends, the session is still in it. *)
Definition events_seen (t : Turn P) : Prop := exists ph, events_ok ph t.

Definition policy_ok (t : Turn P) : Prop :=
  forall e, tn_policies t !! cx_session c = Some e -> session_policy e.

Record Inv (ph : phase) (pending : list string) (t : Turn P) : Prop := {
  inv_events : events_ok ph t;
  inv_outside : I (sent t) (outside t);
  inv_messages : fr_replies F -> well_replied pending (tn_messages t);
  inv_observed : Forall observed (tn_observations t);
  inv_histories : fr_replies F -> histories_sound (en_histories (tn_engine t));
  inv_policy : policy_ok t
}.

Record Stopped (t : Turn P) : Prop := {
  stopped_events : events_seen t;
  stopped_outside : I (sent t) (outside t);
  stopped_histories : fr_replies F -> histories_sound (en_histories (tn_engine t))
}.

Lemma Inv_stopped ph pending t : Inv ph pending t -> Stopped t.
Proof using Type.
  intros [H1 H2 _ _ H3 _]. constructor; [by exists ph|done|done].
Qed.

(** Operations on the turn that leave the invariant's parts alone. *)
Lemma Inv_same ph pending t t' :
  Inv ph pending t -> sent t' = sent t -> I (sent t) (outside t') -> tn_messages t' = tn_messages t ->
  tn_observations t' = tn_observations t -> en_histories (tn_engine t') = en_histories (tn_engine t) ->
  tn_policies t' = tn_policies t -> Inv ph pending t'.
Proof using Type.
  intros [H1 H2 H3 H4 H5 H6] E1 E2 E3 E4 E5 E6. constructor; rewrite ?E3, ?E4, ?E5, ?E1; try done.
  - unfold events_ok. by rewrite E1.
  - unfold policy_ok. by rewrite E6.
Qed.

Abbreviation Keeps ph pending op ph' pending' :=
  (triple (Inv ph pending) op (fun _ => Inv ph' pending') (fun _ => Stopped)).

Lemma inv_throw {E A} ph pending (e : E) (Q : A -> Turn P -> Prop) :
  triple (Inv ph pending) (throw e) Q (fun _ => Stopped).
Proof using Type. apply triple_throw. intros t. apply Inv_stopped. Qed.

Lemma inv_ret {E A} ph pending (a : A) Bad :
  @triple _ E _ (Inv ph pending) (mret a) (fun _ => Inv ph pending) Bad.
Proof using Type. by apply triple_ret. Qed.

Lemma inv_gets {E A} ph pending (f : Turn P -> A) Bad :
  @triple _ E _ (Inv ph pending) (gets f) (fun _ => Inv ph pending) Bad.
Proof using Type. by apply triple_gets. Qed.

Lemma inv_lift {E A} ph pending (r : result E A) :
  triple (Inv ph pending) (lift r) (fun _ => Inv ph pending) (fun _ => Stopped).
Proof using Type. apply triple_lift. intros t Ht. destruct r; [done|by eapply Inv_stopped]. Qed.

Lemma inv_ask {E A} ph pending (f : P -> P * A) Bad :
  (forall es p, I es p -> I es (f p).1) ->
  @triple _ E _ (Inv ph pending) (ask_outside f) (fun _ => Inv ph pending) Bad.
Proof using Type.
  intros Hf t Ht. unfold ask_outside. specialize (Hf _ _ (inv_outside _ _ _ Ht)).
  destruct (f (outside t)) as [p a]. by apply (Inv_same _ _ t).
Qed.

(** ** Operations under the deadline *)

(** A cut ends the turn; the operation's own error leaves [Q]. *)
Definition cutoff (Q : AxiomError -> Turn P -> Prop) (x : Cut) (t : Turn P) : Prop :=
  match x with Inside e => Q e t | Deadline _ => Stopped t end.

Lemma inv_within ph pending Q :
  triple (Inv ph pending) (within limit) (fun _ => Inv ph pending) (cutoff Q).
Proof using Type.
  intros t Ht. unfold within. destruct limit as [n|]; [|done].
  destruct (elapsed n (outside t)); [by eapply Inv_stopped|done].
Qed.

Lemma triple_inside {A} Pre (op : M (Turn P) AxiomError A) Post Q :
  triple Pre op Post Q -> triple Pre (inside op) Post (cutoff Q).
Proof using Type.
  intros Hop t Ht. specialize (Hop t Ht). unfold inside. by destruct (op t) as [t' [a|e]].
Qed.

Lemma triple_deadline {A} Pre (op : M (Turn P) Cut A) (Post : A -> Turn P -> Prop) Q :
  triple Pre op Post (cutoff Q) ->
  triple Pre (before_optional_deadline op)
    (fun r t => match r with Ok a => Post a t | Err e => Q e t end) (fun _ => Stopped).
Proof using Type.
  intros Hop t Ht. specialize (Hop t Ht). unfold before_optional_deadline.
  by destruct (op t) as [t' [a|[e|e]]].
Qed.

(** Sending an event moves the kernel's session; it fails when nobody listens. *)
Lemma emit_run e (t : Turn P) :
  emit_event e t =
  if listening (outside t) (emitted (en_world (tn_engine t)))
  then (with_engine t (with_world (tn_engine t)
          {| provider := outside t; emitted := emitted (en_world (tn_engine t)) ++ [e] |}), Ok tt)
  else (with_engine t (with_world (tn_engine t) (en_world (tn_engine t))), Err CancelledError).
Proof using Type. unfold emit_event, on_world, send_event, outside. by destruct (listening _ _). Qed.

Lemma inv_sent ph ph' pending e t :
  (L -> moves (cx_turn c) ph e ph') ->
  Inv ph pending t ->
  Inv ph' pending (with_engine t (with_world (tn_engine t)
    {| provider := outside t; emitted := emitted (en_world (tn_engine t)) ++ [e] |})).
Proof using HK.
  intros He [H1 H2 H3 H4 H5 H6]. constructor; try done; [|by apply (keep_event HK)]. intros l.
  destruct (H1 l) as (es & s & E & Hs & Hp & Hc). destruct (He l) as [Hc' Hm].
  destruct (Hm s Hp) as (s' & Hs' & Hp').
  exists (es ++ [e]), s'. cbn. unfold sent in *. cbn. rewrite E, app_assoc. split_and!; [done| |done|].
  - rewrite iterM_app, Hs. cbn [iterM]. by rewrite M_bind_run, Hs'.
  - rewrite call_run_app, Hc. cbn. by rewrite Hc'.
Qed.

Lemma emit_triple ph ph' pending e :
  (L -> moves (cx_turn c) ph e ph') ->
  triple (Inv ph pending) (emit_event e) (fun _ => Inv ph' pending)
    (fun x t => x = CancelledError /\ Inv ph pending t).
Proof using HK.
  intros He t Ht. rewrite emit_run. destruct (listening _ _); [by eapply inv_sent|].
  split; [done|]. apply (Inv_same _ _ t); try done. apply Ht.
Qed.

Lemma inv_emit ph ph' pending e :
  (L -> moves (cx_turn c) ph e ph') ->
  Keeps ph pending (emit_event e) ph' pending.
Proof using HK.
  intros He. eapply triple_weaken; [by apply emit_triple|done..|].
  intros x t [_ Ht]. by eapply Inv_stopped.
Qed.

Lemma note_moves ph e : note e = true -> moves (cx_turn c) ph e ph.
Proof using Type.
  intros He. split; [by apply note_called|]. intros s Hs. exists s. split; [by apply note_observed|done].
Qed.

Lemma inv_note ph pending e : (L -> note e = true) -> Keeps ph pending (emit_event e) ph pending.
Proof using HK. intros He. apply inv_emit. intros l. by apply note_moves, He. Qed.

Lemma inv_notes ph pending l :
  (L -> Forall (fun e => note e = true) l) -> Keeps ph pending (iterM emit_event l) ph pending.
Proof using HK.
  intros Hl. apply triple_iter. intros e He. apply inv_note. intros x. specialize (Hl x).
  rewrite Forall_forall in Hl. by apply Hl.
Qed.

Lemma inv_report ph pending e Bad :
  (L -> note e = true) -> triple (Inv ph pending) (report e) (fun _ => Inv ph pending) Bad.
Proof using HK.
  intros He t Ht. unfold report. pose proof (emit_triple ph ph pending e (fun l => note_moves ph e (He l)) t Ht) as H.
  destruct (emit_event e t) as [t' [u|x]]; [done|by apply H].
Qed.

Lemma inv_tokens ph pending id n Bad :
  triple (Inv ph pending) (update_context_tokens id n) (fun _ => Inv ph pending) Bad.
Proof using Type. apply triple_modify. intros t Ht. apply (Inv_same _ _ t); try done. apply Ht. Qed.

Lemma inv_local {E} ph pending (f : Turn P -> Turn P) Bad :
  (forall t, tn_engine (f t) = tn_engine t /\ tn_messages (f t) = tn_messages t /\
             tn_observations (f t) = tn_observations t /\ tn_policies (f t) = tn_policies t) ->
  @triple _ E _ (Inv ph pending) (modify f) (fun _ => Inv ph pending) Bad.
Proof using Type.
  intros Hf. apply triple_modify. intros t Ht. destruct (Hf t) as (E1 & E2 & E3 & E4).
  apply (Inv_same _ _ t); unfold sent, outside; rewrite ?E1; try done. apply Ht.
Qed.

Lemma inv_push ph pending pending' x Bad :
  (role x <> Assistant -> tool_calls x = []) -> (role x <> Inference.Tool -> tool_call_id x = None) ->
  open_calls pending [x] = Some pending' ->
  triple (Inv ph pending) (push_message x) (fun _ => Inv ph pending') Bad.
Proof using Type.
  intros Hx Hi Ho. apply triple_modify. intros t [H1 H2 H3 H4 H5 H6]. constructor; try done; cbn.
  intros l. apply (well_replied_app pending); [by apply H3|by constructor..|done].
Qed.

Lemma inv_store ph id Bad : triple (Inv ph []) (store_history id) (fun _ => Inv ph []) Bad.
Proof using Type.
  apply triple_modify. intros t [H1 H2 H3 H4 H5 H6]. constructor; try done. cbn.
  intros l. apply map_Forall_insert_2; [by apply H3|by apply H5].
Qed.

Lemma inv_sync {E} ph pending Bad :
  @triple _ E _ (Inv ph pending) sync_inbox (fun _ => Inv ph pending) Bad.
Proof using HK.
  intros t Ht. unfold sync_inbox. destruct (tn_inbox t) as [inbox|]; [|done].
  pose proof (keep_arrivals HK _ _ (inv_outside _ _ _ Ht)) as Hi.
  destruct (arrivals (outside t)) as [p l]. by apply (Inv_same _ _ t).
Qed.

Lemma inv_pending ph pending Bad :
  triple (Inv ph pending) steering_pending (fun _ => Inv ph pending) Bad.
Proof using HK.
  unfold steering_pending. run_op ltac:(apply inv_sync). intros _. apply inv_gets.
Qed.

(** ** Authorization *)

(** A call is refused by an error with the session back in the turn, or because the
    turn was cancelled. *)
Definition refused (o : option string) (pending : list string) (e : AxiomError) (t : Turn P) : Prop :=
  exists w, Inv (w, o) pending t /\ (e = CancelledError \/ w = Going).

Lemma refused_going o pending e t : Inv (Going, o) pending t -> refused o pending e t.
Proof using Type. exists Going. auto. Qed.

Lemma inside_emit w w' o pending e :
  (L -> moves (cx_turn c) (w, o) e (w', o)) ->
  triple (Inv (w, o) pending) (inside (emit_event e)) (fun _ => Inv (w', o) pending)
    (cutoff (refused o pending)).
Proof using HK.
  intros He. apply triple_inside. eapply triple_weaken; [by apply emit_triple|done..|].
  intros x t [-> Ht]. exists w. auto.
Qed.

Lemma inv_resolve o pending r b x :
  triple (Inv (Approving (Policy.request_id r), o) pending) (resolve r b x)
    (fun _ => Inv (Going, o) pending) (cutoff (refused o pending)).
Proof using HK.
  apply inside_emit. intros _. split; [by destruct o|]. intros s (H1 & H2 & H3). cbn.
  rewrite H2, H3, !bool_decide_true by done. eexists. by split.
Qed.

Lemma inv_required o pending r a b l :
  triple (Inv (Going, o) pending) (inside (emit_event (AppPermissionRequired (Policy.request_id r) a b l)))
    (fun _ => Inv (Approving (Policy.request_id r), o) pending) (cutoff (refused o pending)).
Proof using HK.
  apply inside_emit. intros _. split; [by destruct o|]. intros s [H1 H2]. cbn. cbn in H2.
  rewrite H2, bool_decide_true by done. eexists. by split.
Qed.

Lemma inv_await w o pending r :
  triple (Inv (w, o) pending) (await_approval c limit r) (fun _ => Inv (w, o) pending)
    (cutoff (refused o pending)).
Proof using HK.
  unfold await_approval. destruct (cx_approval c); [|apply inv_ret].
  run_op ltac:(apply inv_ask; intros es p; apply (keep_approval HK)). intros a.
  run_op ltac:(apply inv_within). intros _. destruct a as [a|]; [apply inv_ret|].
  apply triple_throw. intros t Ht. exists w. auto.
Qed.

Lemma apply_approval_policy r choice e e' x :
  apply_approval r choice e = (e', x) -> roots e' = roots e /\ rules e' = rules e.
Proof using Type.
  unfold apply_approval. destruct choice; try (by intros [= <- _]); (destruct (negb _); [by intros [= <- _]|]);
    (destruct (ensure_grantable _ _); [|by intros [= <- _]]); [by intros [= <- _]|].
  destruct (suggested_prefix _); by intros [= <- _].
Qed.

Lemma session_policy_same e e' :
  session_policy e -> roots e' = roots e -> rules e' = rules e -> session_policy e'.
Proof using Type. intros (e0 & H & Hr & Hl) E1 E2. exists e0. by rewrite E1, E2. Qed.

Lemma choice_keeps policy r choice ph pending t :
  session_policy policy -> Inv ph pending t ->
  Inv ph pending (apply_choice c policy r choice t).1.
Proof using Type.
  intros Hp [H1 H2 H3 H4 H5 H6]. unfold apply_choice.
  destruct (apply_approval r choice _) as [e x] eqn:Ha. apply apply_approval_policy in Ha as [Hr Hl].
  constructor; try done. intros e'. cbn. rewrite lookup_insert_eq. intros [= <-].
  eapply session_policy_same; [|exact Hr|exact Hl].
  destruct (tn_policies t !! cx_session c) as [e0|] eqn:He; [by apply H6|done].
Qed.

Lemma inv_ask_one name v concrete policy o pending d :
  session_policy policy ->
  triple (Inv (Going, o) pending) (ask_one c limit name v concrete policy d)
    (fun _ => Inv (Going, o) pending) (cutoff (refused o pending)).
Proof using HK.
  intros Hp. unfold ask_one. run_op ltac:(apply inv_ask, (keep_id HK)). intros id.
  set (r := explain _ _ _ _ _ _).
  run_op ltac:(apply inv_required). intros _.
  run_op ltac:(apply inv_await). intros [choice|e].
  - apply (triple_bind _ _ _ (fun _ => Inv (Approving (Policy.request_id r), o) pending)).
    { intros t Ht. pose proof (choice_keeps policy r choice _ _ t Hp Ht) as H. unfold apply_choice in *.
      by destruct (apply_approval _ _ _). }
    intros [u|e]; (run_op ltac:(apply inv_resolve); intros _).
    + destruct (is_allowed choice); [apply inv_ret|].
      apply triple_throw. intros t. apply refused_going.
    + apply triple_throw. intros t. apply refused_going.
  - run_op ltac:(apply inv_resolve). intros _. apply triple_throw. intros t. apply refused_going.
Qed.

Lemma inv_settings {E} ph pending id Bad :
  @triple _ E _ (Inv ph pending) (current_settings cfg id) (fun _ => Inv ph pending) Bad.
Proof using Type.
  intros t Ht. unfold current_settings, settings_for.
  destruct (en_settings (tn_engine t) !! id); apply (Inv_same _ _ t); try done; apply Ht.
Qed.

Lemma inside_emit_Ok e t t' u :
  inside (@emit_event P HO e) t = (t', Ok u) ->
  t' = with_engine t (with_world (tn_engine t)
         {| provider := outside t; emitted := emitted (en_world (tn_engine t)) ++ [e] |}).
Proof using Type. unfold inside. rewrite emit_run. by destruct (listening _ _); intros [= <- _]. Qed.

Lemma explain_fields mcp name v text d r :
  let r' := explain mcp name v text d r in
  Policy.request_id r' = Policy.request_id r /\ ar_effect r' = ar_effect r /\ offered_choices r' = offered_choices r /\
  allow_session_grants r' = allow_session_grants r /\ suggested_prefix_scope r' = suggested_prefix_scope r.
Proof using Type. unfold explain. by destruct mcp, (is_tool_use _). Qed.

(** An approval that takes effect is one that was offered. *)
Lemma applied_offered id d r choice (e e' : PolicyEngine) u :
  ar_effect r = ar_effect (approval_request id d) ->
  offered_choices r = offered_choices (approval_request id d) ->
  allow_session_grants r = allow_session_grants (approval_request id d) ->
  is_allowed choice = true -> apply_approval r choice e = (e', Ok u) -> choice ∈ offered_choices r.
Proof using Type.
  clear HK HL. intros He Ho Ha Hc. rewrite Ho. unfold apply_approval, offered_choices. rewrite Ha, He. cbn.
  destruct choice; [done|set_solver|..]; (destruct (session_grant_allowed d); [|done]); cbn.
  - set_solver.
  - destruct (ensure_grantable _ _); [|done]. destruct (suggested_prefix _); [|done]. set_solver.
Qed.

Lemma await_approval_Ok r t t' choice :
  await_approval c limit r t = (t', Ok (Ok choice)) -> is_allowed choice = true ->
  cx_approval c = true /\ sent t' = sent t /\ exists p, (ask_approval r p).2 = Some (Ok choice).
Proof using Type.
  unfold await_approval. destruct (cx_approval c); [|by intros [= <- <-]]. intros H Hc.
  apply M_bind_Ok in H as (t1 & a & H1 & H). apply M_bind_Ok in H as (t2 & u & H2 & H).
  unfold ask_outside in H1. destruct (ask_approval r (outside t)) as [p a0] eqn:Ha. injection H1 as <- <-.
  assert (t2 = set_outside t p) as ->.
  { unfold within in H2. destruct limit as [n|]; [destruct (elapsed _ _)|]; by injection H2 as <-. }
  destruct a0 as [a|]; [|done]. injection H as <- ->. split_and!; [done..|].
  exists (outside t). by rewrite Ha.
Qed.

Lemma ask_one_Ok name v text policy d t t' u :
  ask_one c limit name v text policy d t = (t', Ok u) ->
  exists es, sent t' = sent t ++ es /\ allowed_dialogue d es.
Proof using Type.
  unfold ask_one. intros H. apply M_bind_Ok in H as (t1 & id & H1 & H).
  set (r := explain _ _ _ _ _ _) in H.
  destruct (explain_fields (is_desktop_mcp c name) name v text d (approval_request id d))
    as (Ei & Ee & Eo & Ea & Es). fold r in Ei, Ee, Eo, Ea, Es.
  apply M_bind_Ok in H as (t2 & u2 & H2%inside_emit_Ok & H).
  apply M_bind_Ok in H as (t3 & answer & H3 & H). destruct answer as [choice|e];
    [|apply M_bind_Ok in H as (? & ? & ? & [=])].
  apply M_bind_Ok in H as (t4 & applied & H4 & H). destruct applied as [[]|e];
    [|apply M_bind_Ok in H as (? & ? & ? & [=])].
  apply M_bind_Ok in H as (t5 & u5 & H5%inside_emit_Ok & H).
  destruct (is_allowed choice) eqn:Hc; [|done]. injection H as <-.
  apply await_approval_Ok in H3 as (Hcx & E3 & p & Hp); [|done].
  unfold apply_choice in H4. destruct (apply_approval _ _ _) as [e' r'] eqn:Happ. injection H4 as <- ->.
  assert (E1 : sent t1 = sent t).
  { unfold ask_outside in H1. destruct (fresh_request_id _). by injection H1 as <- _. }
  exists [AppPermissionRequired (Policy.request_id r) (ar_explanation r) (effect_value (ar_effect r))
            (choice_str <$> offered_choices r);
          AppPermissionResolved (Policy.request_id r) true (Some (choice_str choice))].
  split.
  - subst t5. unfold sent at 1. cbn. change (emitted _) with (sent t3). rewrite E3, H2. unfold sent at 1. cbn.
    change (emitted _) with (sent t1). by rewrite E1, <- app_assoc.
  - split; [done|]. exists r, choice, p. split_and!; try done. by eapply applied_offered.
Qed.

Lemma ask_all_Ok name v text policy ds : forall t t' u,
  iterM (ask_one c limit name v text policy) ds t = (t', Ok u) ->
  exists dialogues, sent t' = sent t ++ concat dialogues /\ Forall2 allowed_dialogue ds dialogues.
Proof using Type.
  induction ds as [|d ds IH]; intros t t' u; cbn [iterM].
  - intros [= <- _]. exists []. cbn. by rewrite app_nil_r.
  - intros H. apply M_bind_Ok in H as (t1 & u1 & H1 & H).
    apply ask_one_Ok in H1 as (es & E1 & Hd). apply IH in H as (l & E & Hl).
    exists (es :: l). cbn. rewrite E, E1, <- app_assoc. by split; [|constructor].
Qed.

(** What an authorization that succeeds has seen and sent. *)
Lemma authorize_Ok name v t t' :
  authorize cfg tools c limit name v t = (t', Ok tt) ->
  access_switches c tools name = Ok tt /\
  exists s policy effects dialogues,
    (policy_for cfg c t).2 = Ok policy /\
    let tc := {| tc_session := cx_session c; tc_model_id := se_model s; tc_cwd := cx_cwd c;
                 tc_profile := cx_profile c; tc_progress := None |} in
    call_effects c tools tc name v (outside t) = Ok effects /\
    let decisions := decide_effects c name policy effects in
    Forall (fun d => kind d <> Deny) decisions /\
    sent t' = sent t ++ concat dialogues /\
    Forall2 allowed_dialogue (List.filter (needs_answer c name) decisions) dialogues.
Proof using Type.
  unfold authorize. intros H. apply M_bind_Ok in H as (t1 & u1 & H1 & H).
  apply M_bind_Ok in H as (t2 & s & H2 & H). apply M_bind_Ok in H as (t3 & policy & H3 & H).
  apply M_bind_Ok in H as (t4 & p & H4 & H). apply M_bind_Ok in H as (t5 & effects & H5 & H).
  injection H4 as <- <-.
  unfold lift in H1, H5. destruct (access_switches c tools name) as [[]|e]; [|done]. injection H1 as <- _.
  split; [done|].
  assert (E2 : sent t2 = sent t /\ outside t2 = outside t /\ tn_policies t2 = tn_policies t).
  { unfold current_settings, settings_for in H2.
    destruct (en_settings (tn_engine t) !! cx_session c); by injection H2 as <- _. }
  destruct E2 as (E2 & Eo & Ep).
  assert (E3 : sent t3 = sent t /\ outside t3 = outside t /\ (policy_for cfg c t).2 = Ok policy).
  { unfold inside, policy_for in H3 |- *. rewrite Ep, Eo in H3.
    destruct (tn_policies t !! cx_session c) as [e|].
    - injection H3 as <- <-. by rewrite Eo.
    - destruct (_ ≫= _) as [e|e]; [|done]. by injection H3 as <- <-. }
  destruct E3 as (E3 & Eo3 & Hp). rewrite Eo3 in H5.
  destruct (call_effects _ _ _ _ _ _) as [effects'|e] eqn:He; [|done]. injection H5 as <- <-.
  destruct (List.find _ _) as [d|] eqn:Hf; [done|].
  apply ask_all_Ok in H as (dialogues & E & Hd). exists s, policy, effects', dialogues. split_and!; [done..| | |done].
  - apply Forall_forall. intros d Hin Hk. apply find_none with (x := d) in Hf; [|by apply list_elem_of_In].
    by apply bool_decide_eq_false in Hf.
  - by rewrite E, E3.
Qed.

Lemma policy_for_session t policy :
  policy_ok t -> (policy_for cfg c t).2 = Ok policy -> session_policy policy.
Proof using Type.
  intros Hp. unfold policy_for. destruct (tn_policies t !! cx_session c) as [e|] eqn:He.
  - intros [= <-]. by apply Hp.
  - destruct (project_rules _ _) as [more|e] eqn:Hm; [|done]. cbn.
    destruct (for_workspace_with_rules _ _) as [e|e] eqn:Hw; [|done]. intros [= <-].
    exists e. split; [|done]. right. eauto.
Qed.

(** After the proposal of a call, its authorization clears it. *)
Lemma authorize_cleared id name v before t t' :
  I (sent t) (outside t) -> policy_ok t -> sent t = before ++ [AppToolProposed (cx_turn c) id name v] ->
  authorize cfg tools c limit name v t = (t', Ok tt) -> cleared id name v (sent t').
Proof using Type.
  intros Hi Hp Hs (Ha & s & policy & effects & dialogues & Hpol & He & Hd & E & Hf)%authorize_Ok.
  split; [done|]. rewrite Hs in Hi, E.
  eexists before, _, (outside t), policy, effects, dialogues. split_and!; [done| |exact He|by eapply policy_for_session|done..].
  by split_and!.
Qed.

Lemma inv_authorize name v o pending :
  triple (Inv (Going, o) pending) (authorize cfg tools c limit name v) (fun _ => Inv (Going, o) pending)
    (cutoff (refused o pending)).
Proof using HK.
  assert (Hlift : forall A (r : result AxiomError A),
    triple (Inv (Going, o) pending) (lift (map_err Inside r)) (fun _ => Inv (Going, o) pending) (cutoff (refused o pending))).
  { intros A r. apply triple_lift. intros t Ht. destruct r; [done|]. by apply refused_going. }
  unfold authorize. run_op ltac:(apply Hlift). intros _.
  run_op ltac:(apply inv_settings). intros s.
  eapply (triple_bind _ _ _ (fun policy t => Inv (Going, o) pending t /\ session_policy policy)).
  { apply triple_inside. intros t Ht. pose proof (policy_for_session t) as Hp. unfold policy_for in *.
    destruct (_ !! _) as [e|]; [by split; [|apply Hp; [apply Ht|]]|].
    destruct (_ ≫= _) as [e|e]; [|by apply refused_going].
    assert (He : session_policy e) by (apply Hp; [apply Ht|done]). split; [|done].
    destruct Ht as [H1 H2 H3 H4 H5 H6]. constructor; try done. intros e'. cbn.
    rewrite lookup_insert_eq. by intros [= <-]. }
  intros policy t [Ht Hp]. revert t Ht. run_op ltac:(apply inv_gets). intros p.
  run_op ltac:(apply Hlift). intros l. destruct (List.find _ _).
  - apply triple_throw. intros t. apply refused_going.
  - apply triple_iter. intros d _. by apply inv_ask_one.
Qed.

(** ** The provider's turn *)

Lemma turn_event_moves e x : turn_event (cx_turn c) e = Some x -> moves (cx_turn c) InTurn x InTurn.
Proof using Type. destruct e; cbn; try done; intros [= <-]; (split; [done|]); eexists; by split. Qed.

Lemma inv_forward pending l : forall s,
  triple (Inv InTurn pending) (forward_events (cx_turn c) l s) (fun _ => Inv InTurn pending) (fun _ => Stopped).
Proof using HK.
  induction l as [|e l IH]; intros s t Ht; cbn [forward_events]; [done|].
  destruct (turn_event (cx_turn c) e) as [x|] eqn:Hx; [|by apply IH].
  pose proof (emit_triple InTurn InTurn pending x (fun _ => turn_event_moves e x Hx) t Ht) as H.
  destruct (emit_event x t) as [t' [u|err]]; [by apply IH|apply H].
Qed.

Lemma inv_provider r pending :
  (fr_replies F -> sound (messages r)) ->
  triple (Inv InTurn pending) (provider_turn c limit r) (fun _ => Inv InTurn pending) (fun _ => Stopped).
Proof using HK.
  intros Hr t Ht. unfold provider_turn.
  pose proof (keep_stream HK r _ (outside t) Hr (inv_outside _ _ _ Ht)) as Hi.
  destruct (provider_stream r (outside t)) as [p [events outcome]].
  assert (Ht' : Inv InTurn pending (set_outside t p)) by (by apply (Inv_same _ _ t)).
  pose proof (inv_forward pending events
    {| st_text := EmptyString; st_verified := false; st_usage := None |} _ Ht') as H.
  by destruct (forward_events _ _ _ _) as [t' [[s [u|e]]|e]].
Qed.

(** ** Replies *)

Lemma tool_reply id rest name text :
  open_calls (id :: rest) [tool_error_message id name text] = Some rest.
Proof using Type. cbn. by rewrite decide_True. Qed.

(** The output of a call ends it, whatever the session waits for. *)
Lemma output_moves w id text b : moves (cx_turn c) (w, Some id) (AppToolOutput id text b) (w, None).
Proof using Type. split; [cbn; by rewrite decide_True|]. intros s Hs. by exists s. Qed.

Lemma completed_moves w id b : moves (cx_turn c) (w, None) (AppToolCompleted id b) (w, None).
Proof using Type. split; [done|]. intros s Hs. by exists s. Qed.

Lemma proposed_moves w call v :
  moves (cx_turn c) (w, None) (AppToolProposed (cx_turn c) (ToolCalls.id call) (call_name call) v)
    (w, Some (ToolCalls.id call)).
Proof using Type. split; [done|]. intros s Hs. by exists s. Qed.

Lemma inv_tell w pending call name content b success :
  Keeps (w, Some (ToolCalls.id call)) pending (tell call name content b success) (w, None) pending.
Proof using HK.
  unfold tell. run_op ltac:(apply inv_emit; intros _; apply output_moves). intros _.
  apply inv_emit. intros _. apply completed_moves.
Qed.

Lemma inv_repairable w pending call v text :
  Keeps (w, None) pending (emit_repairable_tool_failure c call v text) (w, None) pending.
Proof using HK.
  unfold emit_repairable_tool_failure. run_op ltac:(apply inv_emit; intros _; apply proposed_moves). intros _.
  apply inv_tell.
Qed.

Lemma inv_push_error ph call text rest Bad :
  triple (Inv ph (ToolCalls.id call :: rest)) (push_tool_error call text) (fun _ => Inv ph rest) Bad.
Proof using Type. apply inv_push; [done|done|apply tool_reply]. Qed.

(** A declined call answers whatever is open. *)
Lemma inv_declined ph pending :
  triple (Inv ph pending) (end_declined c m) (fun _ _ => False) (fun _ => Stopped).
Proof using Type.
  intros t Ht. pose proof (Inv_stopped _ _ _ Ht) as [H1 H2 H3].
  unfold end_declined, update_context_tokens, store_history, push_message.
  rewrite !M_bind_run. cbn -[unanswered declined_text interrupted_turn_context].
  constructor; [done..|]. intros l. apply map_Forall_insert_2; [|by apply H3].
  cbn -[unanswered declined_text interrupted_turn_context]. rewrite <- app_assoc.
  apply (declined_sound pending), (inv_messages _ _ _ Ht), l.
Qed.

Lemma inv_refuse call e rest :
  triple (refused (Some (ToolCalls.id call)) (ToolCalls.id call :: rest) e) (refuse_call c m call e)
    (fun _ => Inv InTurn rest) (fun _ => Stopped).
Proof using HK.
  intros t (w & Ht & He). revert t Ht. unfold refuse_call.
  apply (triple_bind _ _ _ (fun _ => Inv (w, None) (ToolCalls.id call :: rest))).
  { apply inv_emit. intros _. apply output_moves. }
  intros _.
  destruct (match e with ApprovalDeclined | CancelledError => true | _ => false end) eqn:Hd.
  - eapply triple_weaken; [apply inv_declined|done|done|done].
  - assert (w = Going) as -> by (destruct He as [-> | ->]; done).
    run_op ltac:(apply inv_emit; intros _; apply completed_moves). intros _. apply inv_push_error.
Qed.

(** ** Tools *)

(** What is left of a tool's run once it returned. *)
Lemma ran events result o pending t :
  (L -> Forall (fun e => note e = true) events) -> Inv (Going, o) pending t ->
  (L -> forall x, result = Ok x -> result_ok x) ->
  match match inside (iterM report events) t with
        | (t, Err e) => (t, Err e)
        | (t, Ok _) => match within limit t with
                       | (t, Err e) => (t, Err e)
                       | (t, Ok _) => (t, match result with Ok r => Ok r | Err e => Err (Inside e) end)
                       end
        end with
  | (t, Ok r) => Inv (Going, o) pending t /\ (L -> result_ok r)
  | (t, Err e) => cutoff (fun _ => Inv (Going, o) pending) e t
  end.
Proof using HK.
  intros He Ht Hr.
  assert (H : triple (Inv (Going, o) pending) (inside (iterM report events)) (fun _ => Inv (Going, o) pending)
                (cutoff (fun _ => Inv (Going, o) pending))).
  { apply triple_inside, triple_iter. intros e Hin. apply inv_report. intros l. specialize (He l).
    rewrite Forall_forall in He. by apply He. }
  specialize (H t Ht). destruct (inside _ t) as [t1 [u|e]]; [|done].
  pose proof (inv_within (Going, o) pending (fun _ => Inv (Going, o) pending) t1 H) as Hw.
  destruct (within limit t1) as [t2 [u2|e]]; [|done]. destruct result as [r|e]; [|done].
  split; [done|]. intros l. by apply (Hr l).
Qed.

Lemma inv_run_tool name tc v o pending :
  in_context tc ->
  triple (fun t => Inv (Going, o) pending t /\ authorized name v (sent t)) (run_tool tools c limit name tc v)
    (fun r t => Inv (Going, o) pending t /\ (L -> result_ok r)) (cutoff (fun _ => Inv (Going, o) pending)).
Proof using HK HL.
  intros Hc t [Ht Hv]. unfold run_tool, execute_tool, tool_named.
  set (d := if tracks_workspace_changes name then _ else _). clearbody d.
  destruct (tools !! name) as [tool|] eqn:Htool; cbn [ok_or].
  - pose proof (keep_tool HK name tool tc v _
      (outside t, default ∅ (tn_images t !! cx_session c)) Htool Hc Hv (inv_outside _ _ _ Ht)) as Hi.
    destruct (t_execute tool tc v _) as [[p images] [events r]] eqn:He.
    assert (Hok : L -> Forall (fun e => note e = true) events /\ forall x, r = Ok x -> result_ok x)
      by (intros l; by apply (HL l name tool Htool tc v _ _ _ _ He)).
    match goal with |- match (match inside _ ?t0 with _ => _ end) with _ => _ end =>
      assert (Ht' : Inv (Going, o) pending t0) by (by apply (Inv_same _ _ t)) end.
    eapply ran; [|done|]; tauto.
  - match goal with |- match (match inside _ ?t0 with _ => _ end) with _ => _ end =>
      assert (Ht' : Inv (Going, o) pending t0) by (apply (Inv_same _ _ t); try done; apply Ht) end.
    eapply (ran [] (Err _)); done.
Qed.

Lemma inv_take_images call r o pending Bad :
  (L -> result_ok r) ->
  triple (Inv (Going, o) pending) (take_images call r)
    (fun r t => Inv (Going, o) pending t /\ (L -> result_ok r)) Bad.
Proof using Type.
  intros Hr t Ht. unfold take_images. destruct (_ && _); [|done]. destruct (_ >? _).
  - split; [done|]. intros l. destruct (Hr l). by constructor.
  - split; [|done]. destruct Ht as [H1 H2 H3 H4 H5 H6]. constructor; try done. cbn.
    apply Forall_app. split; [done|]. repeat constructor.
Qed.

Lemma own_event_note call e : note e = true -> note (own_event call e) = true.
Proof using Type. by destruct e. Qed.

Lemma inv_own_events call r o pending :
  (L -> result_ok r) ->
  Keeps (Going, o) pending (iterM (fun e => emit_event (own_event call e)) (tr_events r)) (Going, o) pending.
Proof using HK.
  intros Hr. apply triple_iter. intros e He. apply inv_note. intros l. apply own_event_note.
  destruct (Hr l) as [H _]. rewrite Forall_forall in H. by apply H.
Qed.

Lemma completed_notes name tc v answers (p p' : P) r :
  complete_interaction name tc v answers p = (p', Ok (Some r)) ->
  Forall (fun e => note e = true) (tr_events r).
Proof using Type.
  unfold complete_interaction. destruct (negb _); [done|]. case_match; [|done].
  destruct (save_plan _ _ _) as [p1 [u|e]]; [|done]. do 2 (case_match; [|done]).
  intros [= _ <-]. by repeat constructor.
Qed.

Lemma complete_keeps name tc v answers es p :
  I es p -> I es (complete_interaction name tc v answers p).1.
Proof using HK.
  intros Hp. unfold complete_interaction. destruct (negb _); [done|]. case_match; [|done].
  match goal with |- context [save_plan (tc_cwd tc) ?plan p] =>
    pose proof (keep_plan HK (tc_cwd tc) plan es p Hp) as H1 end.
  destruct (save_plan _ _ _) as [p1 [u|e]]; [|done]. by repeat case_match.
Qed.

Lemma inv_complete call tc v answers r o pending :
  Keeps (Going, o) pending (complete call tc v answers r) (Going, o) pending.
Proof using HK.
  intros t Ht. unfold complete.
  pose proof (complete_keeps (call_name call) tc v answers _ (outside t) (inv_outside _ _ _ Ht)) as Hi.
  destruct (complete_interaction _ _ _ _ _) as [p [[r'|]|e]] eqn:Hc; cbn [fst] in Hi;
    (assert (Ht' : Inv (Going, o) pending (set_outside t p)) by (by apply (Inv_same _ _ t))); [| |done].
  - pose proof (inv_notes (Going, o) pending (tr_events r')
      (fun _ => completed_notes _ _ _ _ _ _ _ Hc) _ Ht') as H.
    by destruct (iterM _ _ _) as [t' [u|e]].
  - destruct (json_pretty _); [done|by eapply Inv_stopped].
Qed.

(** A question is answered, or reported as failed, before anything else happens. *)
Lemma inv_ask_user call tc v r o pending :
  (L -> result_ok r) -> Keeps (Going, o) pending (ask_user c call tc v r) (Going, o) pending.
Proof using HK.
  intros Hr. unfold ask_user. destruct (tr_questions r) as [request|] eqn:Hq; [|apply inv_ret].
  apply (triple_bind _ _ _ (fun _ => Inv (Asking (q_request_id request), o) pending)).
  { apply inv_emit. intros l. split; [by destruct o|]. intros s [H1 H2]. cbn in *.
    destruct (Hr l) as [_ Hn]. specialize (Hn request Hq). rewrite H2, bool_decide_true, bool_decide_false by done. eexists. by split. }
  intros _. apply (triple_bind _ _ _ (fun _ => Inv (Asking (q_request_id request), o) pending)).
  { unfold await_answers. destruct (cx_questions c); [|apply inv_ret].
    run_op ltac:(apply inv_ask, (keep_questions HK)). intros [a|]; apply inv_ret. }
  assert (Hback : forall e, (exists a, e = AppQuestionsAnswered (q_request_id request) a) \/
      (exists a, e = AppQuestionsFailed (q_request_id request) a) ->
    Keeps (Asking (q_request_id request), o) pending (emit_event e) (Going, o) pending).
  { intros e He. apply inv_emit. intros _. split; [by destruct He as [[a ->] | [a ->]]; destruct o|].
    intros s (H1 & H2 & H3). destruct He as [[a ->] | [a ->]]; cbn in *; rewrite H2, H3, !bool_decide_true by done; eexists; by split. }
  intros answer. destruct (answer ≫= _) as [a|e].
  - run_op ltac:(apply Hback; eauto). intros _. apply inv_complete.
  - destruct e; try apply inv_throw; (run_op ltac:(apply Hback; eauto)); intros _; apply inv_ret.
Qed.

Lemma inv_publish call r rest :
  Keeps (InCall (ToolCalls.id call)) (ToolCalls.id call :: rest) (publish c call r) InTurn rest.
Proof using HK.
  unfold publish. run_op ltac:(apply inv_tell). intros _.
  apply (triple_bind _ _ _ (fun _ => Inv InTurn (ToolCalls.id call :: rest))).
  { destruct (bool_decide _); [apply inv_ret|]. run_op ltac:(by apply inv_local). intros _. by apply inv_note. }
  intros _. apply (triple_bind _ _ _ (fun _ => Inv InTurn (ToolCalls.id call :: rest))).
  { destruct (tr_background r) as [[task state]|]; [by apply inv_note|apply inv_ret]. }
  intros _. apply (triple_bind _ _ _ (fun _ => Inv InTurn (ToolCalls.id call :: rest))).
  { destruct (tr_diff r); [by apply inv_note|apply inv_ret]. }
  intros _. run_op ltac:(apply inv_push; [done|done|cbn; by rewrite decide_True]). intros _.
  run_op ltac:(by apply inv_local). intros _. run_op ltac:(apply inv_gets). intros n. apply inv_tokens.
Qed.

Lemma inv_started call v rest :
  triple (fun t => Inv (InCall (ToolCalls.id call)) (ToolCalls.id call :: rest) t /\
            cleared (ToolCalls.id call) (call_name call) v (sent t))
    (emit_event (AppToolStarted (ToolCalls.id call) (call_name call)))
    (fun _ t => Inv (InCall (ToolCalls.id call)) (ToolCalls.id call :: rest) t /\
       authorized (call_name call) v (sent t)) (fun _ => Stopped).
Proof using HK.
  intros t [Ht Hv]. pose proof (inv_note (InCall (ToolCalls.id call)) (ToolCalls.id call :: rest)
    (AppToolStarted (ToolCalls.id call) (call_name call)) (fun _ => eq_refl) t Ht) as H.
  rewrite emit_run in H |- *. destruct (listening _ _); [|done]. split; [done|].
  by exists (ToolCalls.id call), (sent t).
Qed.

Lemma inv_perform call v rest :
  triple (fun t => Inv (InCall (ToolCalls.id call)) (ToolCalls.id call :: rest) t /\
            cleared (ToolCalls.id call) (call_name call) v (sent t))
    (perform cfg tools c limit m call v) (fun _ => Inv InTurn rest) (fun _ => Stopped).
Proof using HK HL.
  unfold perform. run_op ltac:(by apply inv_started). intros _.
  run_op ltac:(by apply triple_deadline, inv_run_tool). intros executed.
  set (r := match executed with Ok r => r | Err e => _ end).
  apply (triple_bind _ _ _ (fun r t => Inv (InCall (ToolCalls.id call)) (ToolCalls.id call :: rest) t /\ (L -> result_ok r))).
  { intros t Ht. assert (Ht' : Inv (InCall (ToolCalls.id call)) (ToolCalls.id call :: rest) t /\ (L -> result_ok r)).
    { destruct executed as [x|e]; [done|]. split; [done|]. intros _. by constructor. }
    pose proof (inv_take_images call r _ _ (fun _ => Stopped) (proj2 Ht') t (proj1 Ht')). done. }
  intros r' t [Ht Hr]. revert t Ht. run_op ltac:(by apply inv_own_events). intros _.
  run_op ltac:(by apply inv_ask_user). intros r''. apply inv_publish.
Qed.

(** ** A call, and a batch of calls *)

Lemma inv_proposed call v pending :
  triple (Inv InTurn pending) (emit_event (AppToolProposed (cx_turn c) (ToolCalls.id call) (call_name call) v))
    (fun _ t => Inv (InCall (ToolCalls.id call)) pending t /\
       exists before, sent t = before ++ [AppToolProposed (cx_turn c) (ToolCalls.id call) (call_name call) v])
    (fun _ => Stopped).
Proof using HK.
  intros t Ht. pose proof (inv_emit _ _ pending _ (fun _ => proposed_moves Going call v) t Ht) as H.
  rewrite emit_run in H |- *. destruct (listening _ _); [|done]. split; [done|]. by exists (sent t).
Qed.

Lemma inv_call call rest :
  Keeps InTurn (ToolCalls.id call :: rest) (handle_call cfg tools c limit m call) InTurn rest.
Proof using HK HL.
  unfold handle_call. run_op ltac:(apply inv_pending). intros pending. destruct pending.
  { run_op ltac:(apply inv_repairable). intros _. apply inv_push_error. }
  run_op ltac:(apply inv_gets). intros last. destruct (bool_decide _); [apply inv_throw|].
  run_op ltac:(by apply inv_local). intros _. destruct (json_parse _) as [v|e].
  - run_op ltac:(by apply inv_proposed). intros _.
    apply (triple_bind _ _ _ (fun r t => match r with
      | Ok _ => Inv (InCall (ToolCalls.id call)) (ToolCalls.id call :: rest) t /\
                cleared (ToolCalls.id call) (call_name call) v (sent t)
      | Err e => refused (Some (ToolCalls.id call)) (ToolCalls.id call :: rest) e t end)).
    + apply (triple_deadline _ _ (fun _ t => Inv (InCall (ToolCalls.id call)) (ToolCalls.id call :: rest) t /\
        cleared (ToolCalls.id call) (call_name call) v (sent t))
        (refused (Some (ToolCalls.id call)) (ToolCalls.id call :: rest))).
      intros t (Ht & before & Hs). pose proof (inv_authorize (call_name call) v _ _ t Ht) as H.
      destruct (authorize _ _ _ _ _ _ t) as [t' [[]|e]] eqn:Ha; [|exact H].
      split; [exact H|]. by eapply authorize_cleared; [apply Ht|apply Ht|..].
    + intros [u|e]; [apply inv_perform|apply inv_refuse].
  - run_op ltac:(apply inv_repairable). intros _. apply inv_push_error.
Qed.

Lemma inv_batch l : forall rest,
  Keeps InTurn ((ToolCalls.id <$> l) ++ rest) (iterM (handle_call cfg tools c limit m) l) InTurn rest.
Proof using HK HL.
  induction l as [|call l IH]; intros rest; cbn [iterM]; [apply inv_ret|].
  run_op ltac:(apply inv_call). intros _. apply IH.
Qed.

Lemma inv_handle_calls l :
  Keeps InTurn (ToolCalls.id <$> l) (handle_calls cfg tools c limit m l) InTurn [].
Proof using HK HL.
  unfold handle_calls. apply (triple_bind _ _ _ (fun _ => Inv InTurn ((ToolCalls.id <$> l) ++ []))).
  { apply triple_modify. rewrite app_nil_r. intros t [H1 H2 H3 H4 H5 H6]. constructor; try done; constructor. }
  intros _. run_op ltac:(apply inv_batch). intros _.
  apply (triple_bind _ _ _ (fun seen t => Inv InTurn [] t /\ Forall observed seen)).
  { apply triple_gets. intros t Ht. split; [done|apply Ht]. }
  intros seen. destruct (bool_decide _); [apply triple_ret; tauto|].
  apply (triple_bind _ _ _ (fun _ => Inv InTurn [])).
  { apply triple_modify. intros t [[H1 H2 H3 H4 H5 H6] Hs]. apply observed_open in Hs as (Ho & Hk & Hi).
    constructor; try done. cbn. intros w. by apply (well_replied_app []); [apply H3|..]. }
  intros _. run_op ltac:(by apply inv_local). intros _. run_op ltac:(apply inv_gets). intros n. apply inv_tokens.
Qed.

(** ** Rounds *)

Context (s : SessionSettings) (runtime : option ImageRuntimePolicy).

Lemma notes_observed es x : Forall (fun e => note e = true) es -> iterM observe_event es x = (x, Ok tt).
Proof using Type.
  induction 1 as [|e es He _ IH]; [done|]. cbn [iterM]. by rewrite M_bind_run, note_observed.
Qed.

Lemma notes_called es o : Forall (fun e => note e = true) es -> call_run o es = Some o.
Proof using Type. induction 1 as [|e es He _ IH]; [done|]. cbn. by rewrite note_called. Qed.

Lemma compacted_sound a b : sound (compacted_history a b).
Proof using Type. constructor; done || by repeat constructor. Qed.

(** Compaction replaces the transcript or leaves it alone. *)
Lemma inv_compact ph :
  triple (Inv ph []) (compact_now cfg m s) (fun _ => Inv ph []) (fun _ => Inv ph []).
Proof using HK.
  intros t Ht. unfold compact_now, on_world.
  pose proof (noted_compact (fr_replies F) I (emitted (en_world (tn_engine t))) (keep_event HK) (keep_stream HK) (ac_limits cfg) s m
    (tn_messages t) None (en_world (tn_engine t))) as H.
  assert (Hn : noted I (emitted (en_world (tn_engine t))) (en_world (tn_engine t))).
  { split; [exists []; by rewrite app_nil_r|apply Ht]. }
  specialize (H Hn). destruct Ht as [H1 H2 H3 H4 H5 H6].
  assert (Hev : forall w, noted I (emitted (en_world (tn_engine t))) w ->
    events_ok ph (with_engine t (with_world (tn_engine t) w))).
  { intros w [(es & E & Hall) _] l. destruct (H1 l) as (es0 & x & E0 & Hs & Hp & Hcr). exists (es0 ++ es), x.
    unfold sent in *. cbn. rewrite E, E0, app_assoc. split_and!; [done| |done|].
    - rewrite iterM_app, Hs. by apply notes_observed.
    - rewrite call_run_app, Hcr. by apply notes_called. }
  destruct (compact_messages _ _ _ _ _ _) as [w [[l r]|e]].
  - destruct H as [Hw (a & b & Hl)]. cbn [fst] in Hl. subst l.
    constructor; try done; [by apply Hev|apply Hw|intros _; apply compacted_sound].
  - constructor; try done; [by apply Hev|apply H].
Qed.

Lemma triple_try {A} Pre (op : M (Turn P) AxiomError A) Post Q Bad :
  triple Pre op Post Q ->
  triple Pre (try_ op) (fun r t => match r with Ok a => Post a t | Err e => Q e t end) Bad.
Proof using Type. intros Hop t Ht. specialize (Hop t Ht). unfold try_. by destruct (op t) as [t' [a|e]]. Qed.

Lemma inv_compact_stop ph : Keeps ph [] (compact_now cfg m s) ph [].
Proof using HK.
  eapply triple_weaken; [apply inv_compact|done..|]. intros e t. apply Inv_stopped.
Qed.

Lemma inv_user ph text Bad :
  triple (Inv ph []) (push_message (chat_text User text)) (fun _ => Inv ph []) Bad.
Proof using Type. by apply inv_push. Qed.

Lemma inv_interrupted ph Bad :
  triple (Inv ph []) (push_message interrupted_turn_context) (fun _ => Inv ph []) Bad.
Proof using Type. by apply inv_push. Qed.

Lemma inv_compacted r pending : Keeps InTurn pending (emit_event (compacted_event r)) InTurn pending.
Proof using HK. apply inv_emit. intros _. split; [done|]. intros st Hst. by exists st. Qed.

Lemma inv_compact_between : Keeps InTurn [] (compact_between cfg c m s) InTurn [].
Proof using HK.
  unfold compact_between. run_op ltac:(apply inv_gets). intros x. run_op ltac:(apply inv_lift). intros b.
  destruct (negb b); [apply inv_ret|]. run_op ltac:(apply inv_compact_stop). intros r.
  run_op ltac:(apply inv_user). intros _. run_op ltac:(by apply inv_local). intros _.
  run_op ltac:(apply inv_store). intros _. apply inv_compacted.
Qed.

Lemma inv_steering x : Keeps InTurn [] (apply_steering c m x) InTurn [].
Proof using HK.
  unfold apply_steering. run_op ltac:(apply inv_user). intros _.
  run_op ltac:(apply (inv_emit _ InTurn); intros _; split; [done|]; intros st [H1 H2]; exists st; cbn;
    cbn in H2; rewrite H1, H2, !bool_decide_true by done; by split). intros _.
  by apply inv_local.
Qed.

Lemma inv_take_steering : Keeps InTurn [] (take_steering c m) InTurn [].
Proof using HK.
  unfold take_steering. run_op ltac:(apply inv_sync). intros _. run_op ltac:(apply inv_gets). intros x.
  destruct (tn_inbox x) as [inbox|]; [|apply inv_ret]. destruct (take_pending inbox) as [b l].
  run_op ltac:(by apply inv_local). intros _. apply triple_iter. intros y _. apply inv_steering.
Qed.

Lemma inv_end_interrupted text e Q :
  triple (Inv InTurn []) (end_interrupted c m text e) Q (fun _ => Stopped).
Proof using Type.
  unfold end_interrupted. apply (triple_bind _ _ _ (fun _ => Inv InTurn [])).
  { destruct (is_empty text); [apply inv_ret|by apply inv_push]. }
  intros _. run_op ltac:(apply inv_interrupted). intros _. run_op ltac:(apply inv_gets). intros n.
  run_op ltac:(apply inv_store). intros _. run_op ltac:(apply inv_tokens). intros _. apply inv_throw.
Qed.

Lemma inv_compact_after : Keeps InTurn [] (compact_after cfg c m s) InTurn [].
Proof using HK.
  unfold compact_after. run_op ltac:(apply inv_gets). intros x. destruct (negb _); [apply inv_ret|].
  apply (triple_bind _ _ _ (fun _ => Inv InTurn [])).
  { eapply triple_weaken; [apply triple_try, (inv_compact InTurn)|done| |].
    - by intros [r|e].
    - intros e t Ht. exact Ht. }
  intros [r|e].
  - run_op ltac:(by apply inv_local). intros _. run_op ltac:(apply inv_gets). intros n.
    run_op ltac:(apply inv_tokens). intros _. apply inv_compacted.
  - destruct e; apply inv_throw || by apply inv_note.
Qed.

Lemma inv_close_inbox ph pending Bad :
  triple (Inv ph pending) close_inbox (fun _ => Inv ph pending) Bad.
Proof using HK.
  unfold close_inbox. run_op ltac:(apply inv_sync). intros _. run_op ltac:(apply inv_gets). intros x.
  destruct (tn_inbox x) as [inbox|]; [|apply inv_ret]. destruct (finish_if_empty inbox) as [b f].
  run_op ltac:(by apply inv_local). intros _. apply inv_ret.
Qed.

Lemma inv_finish_round : Keeps InTurn [] (finish_round cfg c m s) InTurn [].
Proof using HK.
  unfold finish_round. run_op ltac:(apply inv_pending). intros p. destruct p; [apply inv_ret|].
  run_op ltac:(apply inv_compact_after). intros _. run_op ltac:(apply inv_close_inbox). intros f.
  destruct (negb f); [apply inv_ret|]. run_op ltac:(apply inv_store). intros _.
  run_op ltac:(apply inv_gets). intros v. apply (triple_bind _ _ _ (fun _ => Inv InTurn [])).
  { destruct v; [by apply inv_note|apply inv_ret]. }
  intros _. apply inv_ret.
Qed.

Lemma inv_ask_model : Keeps InTurn [] (ask_model cfg tools c limit m s runtime) InTurn [].
Proof using HK HL.
  unfold ask_model. apply (triple_bind _ _ _ (fun l t => Inv InTurn [] t /\ (fr_replies F -> sound l))).
  { apply triple_gets. intros t Ht. split; [done|apply Ht]. }
  intros l t [Ht Hl]. revert t Ht.
  run_op ltac:(apply inv_provider; intros x; by apply request_sound, Hl). intros [text [[assistant streamed]|e]]; cbn [fst snd];
    [|apply inv_end_interrupted].
  run_op ltac:(by apply inv_local). intros _.
  run_op ltac:(by apply (inv_push _ _ (ToolCalls.id <$> at_tool_calls assistant))). intros _.
  run_op ltac:(by apply inv_local). intros _. run_op ltac:(apply inv_gets). intros n.
  run_op ltac:(apply inv_tokens). intros _.
  apply (triple_bind _ _ _ (fun _ => Inv InTurn (ToolCalls.id <$> at_tool_calls assistant))).
  { destruct (st_usage streamed) as [usage|]; [|apply inv_ret]. unfold publish_reported_usage.
    run_op ltac:(apply inv_gets). intros now. by apply inv_note. }
  intros _. case_bool_decide as Hc; [rewrite Hc; apply inv_finish_round|].
  run_op ltac:(apply inv_handle_calls). intros _. apply inv_ret.
Qed.

Lemma inv_round step : Keeps InTurn [] (round cfg tools c limit m s runtime step) InTurn [].
Proof using HK HL.
  unfold round. apply (triple_bind _ _ _ (fun _ => Inv InTurn [])).
  { unfold check_steps. destruct (max_steps _) as [n|]; [destruct (n <=? step)|];
      apply inv_throw || apply inv_ret. }
  intros _. run_op ltac:(apply inv_gets). intros b. destruct b; [apply inv_throw|].
  apply (triple_bind _ _ _ (fun _ => Inv InTurn [])).
  { destruct (0 <? step); [apply inv_compact_between|apply inv_ret]. }
  intros _. run_op ltac:(apply inv_take_steering). intros _. run_op ltac:(apply inv_gets). intros l.
  run_op ltac:(apply inv_lift). intros _. run_op ltac:(apply inv_gets). intros n.
  run_op ltac:(apply inv_tokens). intros _. apply inv_ask_model.
Qed.

Lemma inv_loop fuel : forall step,
  Keeps InTurn [] (turn_loop cfg tools c limit m s runtime fuel step) InTurn [].
Proof using HK HL.
  induction fuel as [|fuel IH]; intros step; cbn [turn_loop]; [apply inv_ret|].
  run_op ltac:(apply inv_round). intros f. destruct f; [apply inv_ret|apply IH].
Qed.

(** The prompt finds room, or the turn ends with the prompt in the history. *)
Lemma inv_make_room x :
  observed x -> Keeps InTurn [] (make_room cfg c m s x) InTurn [].
Proof using HK.
  intros (Hr & Hc & Hi). assert (Ho : open_calls [] [x] = Some []) by (cbn; by rewrite Hr).
  unfold make_room. run_op ltac:(apply inv_gets). intros t0. run_op ltac:(by apply inv_local). intros _.
  run_op ltac:(apply inv_lift). intros b. destruct (negb b); [apply inv_ret|].
  apply (triple_bind _ _ _ (fun _ => Inv InTurn [])).
  { eapply triple_weaken; [apply triple_try, (inv_compact InTurn)|done| |].
    - by intros [r|e].
    - intros e t Ht. exact Ht. }
  intros [r|e].
  - run_op ltac:(by apply inv_local). intros _. apply inv_compacted.
  - run_op ltac:(by eapply inv_push). intros _. run_op ltac:(apply inv_interrupted). intros _.
    run_op ltac:(apply inv_gets). intros n. run_op ltac:(apply inv_store). intros _.
    run_op ltac:(apply inv_tokens). intros _. apply inv_throw.
Qed.
End Walk.
