(* ===== verification/TurnTheorems.v ===== *)
(** The theorems about the agent's turn: termination, the kernel accepts its events,
    only authorized calls run, requests and stored histories are complete. *)

From stdpp Require Import base gmap strings list.
From Stdlib Require Import ZArith NArith Lia ZifyBool ZifyN ZifyNat.
From S2P Require Import Prelude RustStr Json ToolCalls Content Accounting Inference Attachments RuntimePolicy Paths AppError Policy Steering Planning Lease Models Kernel Compaction Images Tools Agent TurnLoop TurnProofs.

Local Open Scope Z_scope.

Section Run.
Context {P : Type} `{HO : Host P}.
Context `{FS : FileSystem} `{U : UrlLib} `{RJ : RequestJson} `{JT : JsonText} `{PS : PlanStore P}.
Context `{B64 : Base64} `{SJ : SerdeJson} `{KD : KeyDigest}.
Context (cfg : AgentConfig) (registry : Tools P) (c : TurnContext).

(** The tools a turn may find itself with: the registry's, and discovered ones. *)
Definition discovered (tool : Tool P) : Prop :=
  exists p l, (discover p).2 = Discovered l /\ tool ∈ l.

Definition session_tools (tools : Tools P) : Prop :=
  exists extra, Forall discovered extra /\ with_session_tools extra registry = Ok tools.

Section Invariants.
Variable F : Frame P.
Abbreviation L := (fr_kernel F).
Abbreviation I := (fr_world F).

(** What everything a turn does outside of the program keeps. *)
Record host_keeps : Prop := {
  keep_turn tools b : session_tools tools -> keeps cfg tools (with_image_tools c b) F;
  keep_discover es p : I es p -> I es (discover p).1;
  keep_models es p : I es p -> I es (provider_models p).1;
  keep_capabilities es p : I es p -> I es (image_capabilities p).1
}.

Hypothesis (HK : host_keeps) (HL : L -> forall tools, session_tools tools -> tools_ok tools).

Lemma keep_sent e es p : I es p -> I (es ++ [e]) p.
Proof using HK. apply (keep_event _ _ _ _ (keep_turn HK registry true ltac:(by exists []))). Qed.

(** Before the turn has its transcript. *)
Record Ready (t : Turn P) : Prop := {
  ready_events : events_ok c F InTurn t;
  ready_outside : I (sent t) (outside t);
  ready_histories : fr_replies F -> histories_sound (en_histories (tn_engine t));
  ready_policy : policy_ok cfg c F t
}.

Lemma Ready_stopped t : Ready t -> Stopped c F t.
Proof using Type. intros [H1 H2 H3 _]. constructor; [by exists InTurn|done|done]. Qed.

Lemma Ready_same t t' :
  Ready t -> sent t' = sent t -> I (sent t) (outside t') ->
  en_histories (tn_engine t') = en_histories (tn_engine t) -> tn_policies t' = tn_policies t -> Ready t'.
Proof using Type.
  intros [H1 H2 H3 H4] E1 E2 E3 E4. constructor; rewrite ?E3, ?E1; try done.
  - unfold events_ok. by rewrite E1.
  - unfold policy_ok. by rewrite E4.
Qed.

Lemma ready_either {E A} (r : result E A) t :
  Ready t -> match r with Ok _ => Ready t | Err _ => Stopped c F t end.
Proof using Type. intros Ht. destruct r; [done|by apply Ready_stopped]. Qed.

Abbreviation Prepares op :=
  (triple Ready op (fun _ => Ready) (fun _ => Stopped c F)).

Lemma ready_throw {E A} (e : E) (Q : A -> Turn P -> Prop) :
  triple Ready (throw e) Q (fun _ => Stopped c F).
Proof using Type. apply triple_throw. intros t. apply Ready_stopped. Qed.

Lemma ready_lift {E A} (r : result E A) : Prepares (lift r).
Proof using Type. apply triple_lift. intros t Ht. destruct r; [done|by apply Ready_stopped]. Qed.

Lemma ready_local {E} (f : Turn P -> Turn P) Bad :
  (forall t, sent (f t) = sent t /\ outside (f t) = outside t /\
             en_histories (tn_engine (f t)) = en_histories (tn_engine t) /\ tn_policies (f t) = tn_policies t) ->
  @triple _ E _ Ready (modify f) (fun _ => Ready) Bad.
Proof using Type.
  intros Hf. apply triple_modify. intros t Ht. destruct (Hf t) as (E1 & E2 & E3 & E4).
  apply (Ready_same t); rewrite ?E2; try done. apply Ht.
Qed.

Lemma ready_ask {E A} (f : P -> P * A) Bad :
  (forall es p, I es p -> I es (f p).1) -> @triple _ E _ Ready (ask_outside f) (fun _ => Ready) Bad.
Proof using Type.
  intros Hf t Ht. unfold ask_outside. specialize (Hf _ _ (ready_outside _ Ht)).
  destruct (f (outside t)) as [p a]. by apply (Ready_same t).
Qed.

Lemma ready_note e : note e = true -> Prepares (emit_event e).
Proof using HK.
  intros He t Ht. rewrite emit_run. destruct (listening _ _).
  - destruct Ht as [H1 H2 H3 H4]. constructor; try done; [|by apply keep_sent]. intros l.
    destruct (H1 l) as (es & s & E & Hs & Hp & Hc). exists (es ++ [e]), s. unfold sent in *. cbn. rewrite E, app_assoc.
    split_and!; [done| |done|].
    + rewrite iterM_app, Hs. cbn [iterM]. by rewrite M_bind_run, note_observed.
    + rewrite call_run_app, Hc. cbn. by rewrite note_called.
  - apply Ready_stopped, (Ready_same t); try done. apply Ht.
Qed.

Lemma ready_discover :
  triple Ready (discover_tools c) (fun l t => Ready t /\ Forall discovered l)
    (fun _ => Stopped c F).
Proof using HK.
  unfold discover_tools. destruct (cx_mcp c) as [mcp|]; [|by apply triple_ret].
  apply (triple_bind _ _ _ (fun a t => Ready t /\ exists p, (discover p).2 = a)).
  { intros t Ht. pose proof (ready_ask discover (fun _ : AxiomError => Ready) (keep_discover HK) t Ht) as H.
    unfold ask_outside in *. destruct (discover (outside t)) as [p a] eqn:Ha. split; [done|].
    exists (outside t). by rewrite Ha. }
  intros a t [Ht [p Hp]]. revert t Ht. destruct a as [| | |l]; try apply ready_throw.
  destruct (_ || _); [apply ready_throw|]. apply triple_ret. intros t Ht. split; [done|].
  apply Forall_forall. intros x Hx. apply elem_of_filter_bool in Hx as [Hx _]. by exists p, l.
Qed.

Lemma ready_images : Prepares (add_prompt_images c).
Proof using Type.
  intros t Ht. unfold add_prompt_images. destruct (add_uploads _ _ _ _) as [catalog r].
  apply ready_either, (Ready_same t); try done. apply Ht.
Qed.

Lemma ready_settings {E} Bad : @triple _ E _ Ready (current_settings cfg (cx_session c)) (fun _ => Ready) Bad.
Proof using Type.
  intros t Ht. unfold current_settings, settings_for.
  destruct (en_settings (tn_engine t) !! cx_session c); apply (Ready_same t); try done; apply Ht.
Qed.

Lemma ready_model s : Prepares (on_world (model_info s)).
Proof using HK.
  intros t Ht. unfold on_world, model_info. pose proof (keep_models HK _ _ (ready_outside _ Ht)) as Hi.
  change (outside t) with (provider (en_world (tn_engine t))) in Hi.
  destruct (provider_models _) as [p r]. cbn [fst] in Hi.
  by apply (ready_either (match r with Ok _ => _ | Err _ => _ end)), (Ready_same t).
Qed.

Lemma ready_runtime c' :
  triple Ready (image_runtime c')
    (fun x t => Ready t /\ (x.1 = c' \/ x.1 = with_image_tools c' false)) (fun _ => Stopped c F).
Proof using HK.
  unfold image_runtime. destruct (negb _); [apply triple_ret; auto|].
  run_op ltac:(apply ready_ask, (keep_capabilities HK)). intros [r|e].
  - run_op ltac:(apply ready_lift). intros _. apply triple_ret. auto.
  - destruct e; apply ready_throw || (apply triple_ret; auto).
Qed.

Lemma ready_effective m s : Prepares (effective_settings c m s).
Proof using HK.
  assert (Hput : forall x, Prepares (put_settings c x)) by (intros x; by apply ready_local).
  unfold effective_settings. eapply (triple_bind _ _ _ (fun _ => Ready)).
  { destruct (bool_decide _); [|by apply triple_ret]. run_op ltac:(apply Hput). intros _.
    run_op ltac:(by apply ready_note). intros _. by apply triple_ret. }
  intros s'. destruct (bool_decide _); [by apply triple_ret|]. run_op ltac:(apply Hput). intros _.
  run_op ltac:(by apply ready_note). intros _. by apply triple_ret.
Qed.

(** ** The transcript of the turn *)

Lemma content_sound x text l : sound (x :: l) -> sound (with_content x text :: l).
Proof using Type.
  apply well_replied_same. constructor; [done|]. clear. by induction l; constructor.
Qed.

Lemma append_first_sound text l : sound l -> sound (append_first text l).
Proof using Type. destruct l as [|x l]; [done|]. apply content_sound. Qed.

Lemma system_sound text l : sound l -> sound (chat_text System text :: l).
Proof using Type. intros [Hk Hi Ho]. by constructor; [constructor..|]. Qed.

Lemma refresh_sound l cwd s custom web : sound l -> sound (refresh_system_prompt l cwd s custom web).
Proof using Type.
  unfold refresh_system_prompt. set (prompt := _ +:+ _). clearbody prompt.
  destruct l as [|x l]; [intros H; by apply system_sound|].
  destruct (bool_decide _); [apply content_sound|apply system_sound].
Qed.

Lemma empty_sound : sound [].
Proof using Type. constructor; done || constructor. Qed.

Lemma turn_messages_sound c' s t l :
  histories_sound (en_histories (tn_engine t)) -> turn_messages cfg c' s t = Ok l -> sound l.
Proof using Type.
  intros Ht. unfold turn_messages. set (l0 := default _ _). assert (H0 : sound l0).
  { unfold l0. destruct (_ !! _) as [h|] eqn:Hh; [by eapply Ht|]. apply system_sound, empty_sound. }
  clearbody l0. destruct (cx_image_tools c'); cbn.
  - destruct (manifest _) as [inv|e]; [|done]. cbn. intros [= <-].
    by apply append_first_sound, append_first_sound, refresh_sound.
  - intros [= <-]. by apply append_first_sound, append_first_sound, refresh_sound.
Qed.

Lemma attach_roles l : forall x, let y := foldl attach x l in
  same_shape x y.
Proof using Type.
  unfold same_shape. induction l as [|a l IH]; intros x; [done|]. cbn. destruct (IH (attach x a)) as (-> & -> & ->). by destruct a.
Qed.

Lemma admitted_prompt c' m prompt l x : admit_prompt c' m prompt l = Ok x -> observed x.
Proof using Type.
  unfold admit_prompt. destruct (map_err _ _); [|done]. cbn.
  destruct (_ && _); [done|]. destruct (existsb _ _); [done|]. intros [= <-].
  unfold observed, user_message. by destruct (attach_roles (cx_attachments c') (chat_text User prompt)) as (-> & -> & ->).
Qed.

(** ** The whole turn *)

Lemma stopped_switch b t : Stopped (with_image_tools c b) F t -> Stopped c F t.
Proof using Type. intros [H1 H2 H3]. by constructor. Qed.

Definition Ended (t : Turn P) : Prop := exists b, Inv cfg (with_image_tools c b) F InTurn [] t.

Lemma run_prepared_keeps b m s tools runtime prompt fuel :
  session_tools tools ->
  triple Ready (run_prepared cfg (with_image_tools c b) m s tools runtime prompt fuel) (fun _ => Ended)
    (fun _ => Stopped c F).
Proof using HK HL.
  intros Ht. pose proof (keep_turn HK tools b Ht) as HKt. set (c' := with_image_tools c b).
  assert (HLt : L -> tools_ok tools) by auto. unfold run_prepared.
  run_op ltac:(by apply ready_note). intros _.
  apply (triple_bind _ _ _ (fun x t => Ready t /\ x = t)); [apply triple_gets; auto|]. intros t0.
  apply (triple_bind _ _ _ (fun l t => Ready t /\ (fr_replies F -> sound l))).
  { apply triple_lift. intros t [Hr ->]. destruct (turn_messages cfg c' s t) as [l|e] eqn:Hl;
      [|by apply Ready_stopped]. split; [done|]. intros x. by eapply turn_messages_sound; [apply (ready_histories _ Hr)|]. }
  intros l. apply (triple_bind _ _ _ (fun _ => Inv cfg c' F InTurn [])).
  { apply triple_modify. intros t [[H1 H2 H3 H4] Hl]. constructor; done || constructor. }
  intros _. apply (triple_weaken _ (Inv cfg c' F InTurn []) _ _
    (fun _ => Inv cfg c' F InTurn []) _ (fun _ => Stopped c' F));
    [|done|by exists b|intros _; apply stopped_switch].
  apply (triple_bind _ _ _ (fun x t => Inv cfg c' F InTurn [] t /\ observed x)).
  { apply triple_lift. intros t Hi. destruct (admit_prompt c' m prompt l) as [x|e] eqn:Hx;
      [|by eapply Inv_stopped]. split; [done|by eapply admitted_prompt]. }
  intros x t [Hi Hx]. revert t Hi. run_op ltac:(by eapply inv_make_room). intros _.
  destruct Hx as (Hr & Hc & Hid).
  run_op ltac:(apply (inv_push _ _ _ _ _ []); [done|done|cbn; by rewrite Hr]). intros _.
  run_op ltac:(by apply inv_local). intros _. by apply inv_loop.
Qed.

Lemma closing_keeps {A} (op : M (Turn P) AxiomError A) :
  triple Ready op (fun _ => Ended) (fun _ => Stopped c F) ->
  triple Ready (close_on_return op) (fun _ => Ended) (fun _ => Stopped c F).
Proof using HK.
  intros Hop t Ht. specialize (Hop t Ht). unfold close_on_return.
  assert (Harr : forall es p, I es p -> I es (arrivals p).1).
  { eapply keep_arrivals, (keep_turn HK registry true). by exists []. }
  destruct (op t) as [t' [a|e]].
  - destruct Hop as [b Hb]. exists b. unfold sync_inbox. destruct (tn_inbox t') as [inbox|]; cbn [fst].
    + pose proof (Harr _ _ (inv_outside _ _ _ _ _ _ Hb)) as Hi. destruct (arrivals (outside t')) as [p l].
      by apply (Inv_same _ _ _ _ _ t').
    + apply (Inv_same _ _ _ _ _ t'); try done. apply Hb.
  - destruct Hop as [H1 H2 H3]. unfold sync_inbox. destruct (tn_inbox t') as [inbox|]; cbn [fst]; [|by constructor].
    pose proof (Harr _ _ H2) as Hi. destruct (arrivals (outside t')) as [p l]. by constructor.
Qed.

(** Whatever the provider, the user and the tools do. *)
Lemma run_keeps prompt fuel :
  triple Ready (run cfg registry c prompt fuel) (fun _ => Ended) (fun _ => Stopped c F).
Proof using HK HL.
  unfold run. run_op ltac:(apply ready_discover). intros extra t [Ht Hx]. revert t Ht.
  apply (triple_bind _ _ _ (fun tools t => Ready t /\ session_tools tools)).
  { apply triple_lift. intros t Hr. destruct (with_session_tools extra registry) as [tools|e] eqn:Ht;
      [|by apply Ready_stopped]. split; [done|by exists extra]. }
  intros tools t [Hr Ht]. revert t Hr. run_op ltac:(apply ready_images). intros _.
  run_op ltac:(apply ready_settings). intros s. apply closing_keeps.
  run_op ltac:(apply ready_model). intros m. run_op ltac:(apply ready_runtime). intros [c' runtime].
  intros t [Hr Hc]. cbn [fst snd] in *. revert t Hr.
  assert (exists b, c' = with_image_tools c b) as [b ->] by (destruct Hc as [-> | ->]; eauto).
  run_op ltac:(apply ready_effective). intros s'. by apply run_prepared_keeps.
Qed.
End Invariants.

(** What a turn starts from. *)
Lemma turn_ready F t :
  (fr_kernel F -> fr_sent F = sent t /\ in_wait (cx_turn c) Going (fr_session F)) ->
  fr_world F (sent t) (outside t) -> (fr_replies F -> histories_sound (en_histories (tn_engine t))) ->
  fr_policy F = tn_policies t !! cx_session c -> Ready F t.
Proof.
  intros Hs Hi Hh Hp. constructor; try done.
  - intros l. destruct (Hs l) as [E Hw]. exists [], (fr_session F). rewrite app_nil_r. auto.
  - intros e He. exists e. split; [left; by rewrite Hp|done].
Qed.

Lemma nothing_kept F : fr_world F = (fun _ _ => True) -> host_keeps F.
Proof. intros HF. split; intros; [constructor|..]; by rewrite HF. Qed.

(** ** Termination *)

Lemma triple_any {S E A} (op : M S E A) (Pre : S -> Prop) : triple Pre op (fun _ _ => True) (fun _ _ => True).
Proof. intros s _. by destruct (op s) as [s' [a|e]]. Qed.

Lemma turn_loop_ends c' tools limit m s runtime n fuel : forall step,
  max_steps (ac_limits cfg) = Some n -> n <= U64_MAX -> 0 <= step ->
  (Z.to_nat (n - step) < fuel)%nat ->
  triple (fun _ => True) (turn_loop cfg tools c' limit m s runtime fuel step)
    (fun b _ => b = true) (fun _ _ => True).
Proof.
  induction fuel as [|fuel IH]; intros step Hn Hmax Hstep Hf; [lia|]. cbn [turn_loop].
  destruct (Z.le_gt_cases n step) as [Hle|Hgt].
  - intros t _. unfold round, check_steps. rewrite Hn, (proj2 (Z.leb_le n step)) by done. by cbn.
  - run_op ltac:(apply triple_any). intros [|]; [by apply triple_ret|].
    apply IH; [done|done|..]; unfold saturating_add; lia.
Qed.

(** ** Authorization *)

(** C5: A call runs only when every effect it has is allowed: the tool is offered by the
    turn's switches, no rule and no hard limit denies any of its effects, and each
    effect that needs an answer was shown to the user, who allowed it by a choice
    that was offered - one dialogue an effect, in order, and nothing else is sent. *)
Theorem authorized_calls_were_allowed tools limit name v t t' :
  authorize cfg tools c limit name v t = (t', Ok tt) ->
  access_switches c tools name = Ok tt /\
  exists s policy effects dialogues,
    (policy_for cfg c t).2 = Ok policy /\
    let tc := {| tc_session := cx_session c; tc_model_id := se_model s; tc_cwd := cx_cwd c;
                 tc_profile := cx_profile c; tc_progress := None |} in
    call_effects c tools tc name v (outside t) = Ok effects /\
    let decisions := decide_effects c name policy effects in
    Forall (fun d => kind d <> Deny) decisions /\
    emitted (en_world (tn_engine t')) = emitted (en_world (tn_engine t)) ++ concat dialogues /\
    Forall2 (allowed_dialogue c) (List.filter (needs_answer c name) decisions) dialogues.
Proof.
  apply authorize_Ok.
Qed.

(** ** Properties of a turn *)

(** C7: A turn comes to its end: with the step limit [n], fuel for [n + 1] rounds is
    never used up, so [run] returns what the source returns. *)
Theorem turns_terminate n prompt fuel t :
  max_steps (ac_limits cfg) = Some n -> n <= U64_MAX -> (Z.to_nat n < fuel)%nat ->
  (run cfg registry c prompt fuel t).2 <> Ok false.
Proof.
  intros Hn Hmax Hf.
  assert (H : triple (fun _ => True) (run cfg registry c prompt fuel) (fun b _ => b = true) (fun _ _ => True)).
  { unfold run. do 4 (run_op ltac:(apply triple_any); intros ?).
    intros t0 _. unfold close_on_return.
    set (op := _ ≫= _). assert (Hop : triple (fun _ => True) op (fun b _ => b = true) (fun _ _ => True)).
    { subst op. do 3 (run_op ltac:(apply triple_any); intros ?). unfold run_prepared.
      do 8 (run_op ltac:(apply triple_any); intros ?).
      eapply triple_weaken; [apply (turn_loop_ends _ _ _ _ _ _ n)|done..]; try done; lia. }
    specialize (Hop t0 I). by destruct (op t0) as [t1 [b|e]]. }
  specialize (H t Logic.I). destruct (run _ _ _ _ _ t) as [t' [b|e]]; cbn in *; congruence.
Qed.

(** C6: Every event a turn sends is one the kernel records: whatever the provider, the
    user, the clock and the stored history are, and whatever the tools return, an active
    session accepts the events in their order and is still in the same turn afterwards. When
    the turn returns, the session waits for nobody, and every tool proposed was answered by
    its output before the transcript went on. The tools, which may be discovered ones, are
    assumed to report only notices of their own ([tools_ok]: no part of the turn's dialogue,
    and no list of questions that is empty). *)
Theorem turn_events_are_accepted prompt fuel s0 t :
  (forall tools, session_tools tools -> tools_ok tools) ->
  in_wait (cx_turn c) Going s0 ->
  let '(t', r) := run cfg registry c prompt fuel t in
  exists es s', emitted (en_world (tn_engine t')) = emitted (en_world (tn_engine t)) ++ es /\
    iterM observe_event es s0 = (s', Ok tt) /\
    ss_active_turn s' = Some (cx_turn c) /\ in_turn (ss_lifecycle s') = true /\
    (forall b, r = Ok b -> ss_lifecycle s' = Running /\ call_run None es = Some None).
Proof.
  intros Htools Hs. set (F := {| fr_kernel := True; fr_replies := False; fr_world := fun _ _ => True;
    fr_sent := sent t; fr_session := s0; fr_policy := tn_policies t !! cx_session c |} : Frame P).
  pose proof (run_keeps F (nothing_kept F eq_refl) (fun _ => Htools) prompt fuel t
    (turn_ready F t (fun _ => conj eq_refl Hs) Logic.I (False_ind _) eq_refl)) as H.
  destruct (run _ _ _ _ _ t) as [t' [b|e]].
  - destruct H as [b' [H _ _ _ _ _]]. destruct (H Logic.I) as (es & s' & E & He & [Ha Hl] & Hcr). cbn in Hl, Hcr.
    exists es, s'. split_and!; [done..|by rewrite Hl|done].
  - destruct H as [[[w o] H] _ _]. destruct (H Logic.I) as (es & s' & E & He & [Ha Hl] & _).
    exists es, s'. split_and!; [done..| |done]. cbn in Hl. by destruct w as [|id|id]; [rewrite Hl|destruct Hl as [-> _]..].
Qed.

(** The events sent from now on, and the outside world, keep [I]. *)
Definition watching (I : list AppEvent -> P -> Prop) (replies : Prop) (t : Turn P) : Frame P :=
  {| fr_kernel := False; fr_replies := replies; fr_world := I; fr_sent := sent t;
     fr_session := new_session EmptyString (path_of_string "/") Headless Confirm;
     fr_policy := tn_policies t !! cx_session c |}.

Lemma watched_run I (replies : Prop) prompt fuel t :
  host_keeps (watching I replies t) -> (replies -> histories_sound (en_histories (tn_engine t))) ->
  I (sent t) (outside t) ->
  let t' := (run cfg registry c prompt fuel t).1 in
  (replies -> histories_sound (en_histories (tn_engine t'))) /\ I (sent t') (outside t').
Proof.
  intros HK Hh Hi. pose proof (run_keeps (watching I replies t) HK (False_ind _) prompt fuel t
    (turn_ready (watching I replies t) t (False_ind _) Hi Hh eq_refl)) as H.
  destruct (run _ _ _ _ _ t) as [t' [b|e]]; [by destruct H as [b' []]|by destruct H].
Qed.

(** C4: A tool runs only right after it was cleared, in this turn: the call was proposed, with
    the arguments it runs on; the switches of the turn offer the tool; the policy of the
    session (its roots and its rules, whatever was granted) denies none of the effects the
    tool declares for these arguments; the user was shown every effect the policy asks about
    and allowed it by an offered choice, all since the proposal and with nothing sent in
    between; and the start of the call was announced. So what the events and the outside
    world keep under every other operation of a turn (provider, front end, discovery, plans
    the user approved, and events themselves) and under such runs, they keep under the turn,
    however it ends and whatever history it starts from. *)
Theorem turns_do_only_what_is_allowed I prompt fuel t :
  host_keeps (watching I False t) -> I (sent t) (outside t) ->
  let t' := (run cfg registry c prompt fuel t).1 in I (sent t') (outside t').
Proof. intros HK Hi. by apply (watched_run I False). Qed.

(** C37: Stored histories, and the transcripts a provider is asked with, answer their tool
    calls in place: the replies come right after the calls, in their order and before any
    other message - unless the provider used an identifier for two calls of the transcript.
    Histories that are so (an engine starts with none) stay so, whether a turn finishes,
    fails, is declined or cancelled, and with them what the outside world keeps when it is
    asked only with such transcripts. (With an identifier used twice a declined call stays
    open: [reused_identifiers_stay_open]. A journal that was cut inside a call restores a
    history that is not so: [RestoreTheorems.cut_turns_leave_open_calls].) *)
Theorem histories_answer_every_call I prompt fuel t :
  host_keeps (watching I True t) -> histories_sound (en_histories (tn_engine t)) ->
  I (sent t) (outside t) ->
  let t' := (run cfg registry c prompt fuel t).1 in
  histories_sound (en_histories (tn_engine t')) /\ I (sent t') (outside t').
Proof. intros HK Hh Hi. by destruct (watched_run I True prompt fuel t HK (fun _ => Hh) Hi) as [H ?]; split; [apply H|]. Qed.
End Run.

(** ** A turn, run

    A provider that plays a script, a user who allows everything once, and one tool
    that remembers what it ran on. *)

Record Stage : Type := {
  script : list AssistantTurn;
  asked : list ApprovalRequest;
  ran_on : list (string * Value);
  sent_requests : list InferenceRequest
}.

#[local] Existing Instances plain_base64 plain_json plain_text plain_url plain_fs.

#[local] Instance one_byte_messages : RequestJson := {|
  write_tools _ := Some "[]";
  write_messages l := Ok (join "," (content <$> l))
|}.

#[local] Instance plain_digest : KeyDigest := {|
  hex_decode s := Some (bytes s); sha256_hex l := of_bytes l
|}.

#[local] Instance no_plans {P} : PlanStore P := {|
  plan_id_argument _ := Err "missing";
  load_plan _ _ _ := Err (StorageError "no plan");
  save_plan _ _ p := (p, Err (StorageError "read only"));
  fresh_comment_id _ := "c"
|}.

#[local] Instance staged : Provider Stage := {|
  provider_models p := (p, Err (ProviderError "provider does not support model discovery"));
  provider_stream r p :=
    match script p with
    | a :: l =>
      ({| script := l; asked := asked p; ran_on := ran_on p; sent_requests := sent_requests p ++ [r] |},
       ([EvTextDelta (at_text a); EvFinished Stop], Ok a))
    | [] => (p, ([], Err (ProviderError "the provider is offline")))
    end;
  is_cancelled _ := false;
  listening _ _ := true
|}.

#[local] Instance stage : Host Stage := {|
  has_image_service := false;
  image_capabilities p := (p, Err (ProviderError "none"));
  discover p := (p, DiscoveryFailed);
  project_rules _ _ := Ok [];
  elapsed _ _ := false;
  started_now _ := "2026-01-01T00:00:00Z";
  now_rfc3339 _ := "2026-01-01T00:00:00Z";
  fresh_request_id p := (p, "request");
  ask_approval r p :=
    ({| script := script p; asked := asked p ++ [r]; ran_on := ran_on p; sent_requests := sent_requests p |},
     Some (Ok AllowOnce));
  ask_questions _ p := (p, None);
  arrivals p := (p, []);
  platform_context := "Linux";
  format_started s := s
|}.

Definition look : Tool Stage := {|
  t_name := "look"; t_description := "Looks at a file."; t_parameters := VObject [];
  t_access := Read;
  t_effects _ _ _ := Ok [FileRead (path_of_string "/w/a.txt")];
  t_execute _ v w :=
    (({| script := script w.1; asked := asked w.1; ran_on := ran_on w.1 ++ [("look", v)];
         sent_requests := sent_requests w.1 |}, w.2), ([], Ok (tool_result "seen" true)))
|}.

Definition sample_config : AgentConfig := {|
  ac_default_model := "m"; ac_custom_prompt := None; ac_limits := development 4; ac_policy_rules := []
|}.

Definition sample_context : TurnContext := {|
  cx_mcp := None; cx_session := "s"; cx_turn := "t"; cx_cwd := path_of_string "/w"; cx_profile := Confirm;
  cx_web := false; cx_image_tools := false; cx_attachments := []; cx_approval := true; cx_questions := true
|}.

Definition look_call : ToolCall :=
  {| ToolCalls.id := "call_0"; tc_kind := "function"; function := {| fc_name := "look"; arguments := "{}" |} |}.

Definition staged_turn (l : list AssistantTurn) : Turn Stage := {|
  tn_engine := {| en_world := {| provider := {| script := l; asked := []; ran_on := []; sent_requests := [] |};
                                 emitted := [] |};
                  en_histories := ∅; en_context_tokens := ∅; en_settings := ∅ |};
  tn_images := ∅; tn_policies := ∅; tn_change_sets := ∅; tn_changes := ∅; tn_inbox := None;
  tn_messages := []; tn_known := 0; tn_last := None; tn_verified := false; tn_observations := [];
  tn_image_count := 0
|}.

Definition says (text : string) (calls : list ToolCall) : AssistantTurn :=
  {| at_text := text; at_reasoning := None; at_tool_calls := calls |}.

Definition sample_run (fuel : nat) : Turn Stage * result AxiomError bool :=
  run sample_config {["look" := look]} sample_context "What is in a.txt?" fuel
    (staged_turn [says "Looking." [look_call]; says "It says: seen." []]).

Example sample_run_result :
  let '(t, r) := sample_run 5 in
  r = Ok true /\ role <$> tn_messages t = [System; User; Assistant; Inference.Tool; Assistant] /\
  ran_on (outside t) = [("look", VObject [])] /\ length (asked (outside t)) = 1%nat.
Proof. by vm_compute. Qed.

Lemma sample_tools tools : session_tools {["look" := look]} tools -> tools = {["look" := look]}.
Proof.
  intros (extra & Hx & Ht). destruct extra as [|x extra]; [by injection Ht|].
  apply Forall_cons in Hx as [(p & l & Hd & _) _]. done.
Qed.

Lemma sample_tools_ok tools : session_tools {["look" := look]} tools -> tools_ok tools.
Proof.
  intros ->%sample_tools name tool Hn tc v w w' events r Hr.
  apply lookup_singleton_Some in Hn as [_ <-]. cbn in Hr. injection Hr as _ <- <-.
  split; [done|]. intros x [= <-]. by constructor.
Qed.

Definition sample_start : Turn Stage :=
  staged_turn [says "Looking." [look_call]; says "It says: seen." []].

Lemma turns_terminate_witness : (sample_run 5).2 <> Ok false.
Proof.
  exact (turns_terminate sample_config {["look" := look]} sample_context 4 "What is in a.txt?" 5
    sample_start eq_refl ltac:(done) ltac:(lia)).
Defined.

Definition running_session : SessionState :=
  start_turn (new_session "s" (path_of_string "/w") Headless Confirm) "t".

Lemma turn_events_are_accepted_witness :
  let '(t', r) := sample_run 5 in r = Ok true /\
  exists es s', emitted (en_world (tn_engine t')) = es /\ iterM observe_event es running_session = (s', Ok tt) /\
    ss_active_turn s' = Some "t" /\ ss_lifecycle s' = Running.
Proof.
  pose proof (turn_events_are_accepted sample_config {["look" := look]} sample_context "What is in a.txt?" 5
    running_session sample_start sample_tools_ok (conj eq_refl eq_refl)) as H.
  assert (Hr : (sample_run 5).2 = Ok true) by (by vm_compute).
  change (run _ _ _ _ _ _) with (sample_run 5) in H. destruct (sample_run 5) as [t' r]. cbn [snd] in Hr.
  split; [done|]. destruct H as (es & s' & E & Hi & Ha & _ & Hl). exists es, s'.
  split_and!; [done..|by destruct (Hl true)].
Defined.

(** Every run of the tool was proposed, allowed where it was asked about, and announced. *)
Definition seen_run (es : list AppEvent) (x : string * Value) : Prop :=
  exists before id dialogues,
    (before ++ [AppToolProposed "t" id x.1 x.2]) ++ concat dialogues ++ [AppToolStarted id x.1] `prefix_of` es /\
    Forall (fun d => exists r choice, choice <> ChooseDeny /\
      last d = Some (AppPermissionResolved r true (Some (choice_str choice)))) dialogues.
Definition staged_well (es : list AppEvent) (p : Stage) : Prop := Forall (seen_run es) (ran_on p).

Lemma staged_event e es p : staged_well es p -> staged_well (es ++ [e]) p.
Proof.
  intros H. eapply Forall_impl; [exact H|]. intros x (before & id & l & Hp & Hd). exists before, id, l. split; [by apply prefix_app_r|done].
Qed.

Lemma staged_keeps : host_keeps sample_config {["look" := look]} sample_context
  (watching sample_context staged_well False sample_start).
Proof.
  constructor; try done. intros tools b ->%sample_tools. constructor; try done.
  - intros e es p. apply staged_event.
  - intros r es p _ H. cbn in H |- *. destruct (script p); [done|exact H].
  - intros name tool tc v es w Hn _ (id & es' & Ha & ->) H. apply lookup_singleton_Some in Hn as [<- <-].
    cbn in H |- *. apply Forall_app. split; [done|]. apply Forall_singleton.
    destruct Ha as (_ & before & tc' & p & policy & effects & dialogues & _ & _ & _ & _ & _ & Hd & ->).
    exists before, id, dialogues. split; [rewrite (app_assoc (before ++ _)); reflexivity|].
    eapply Forall2_Forall_r; [exact Hd|]. apply Forall_forall.
    intros d _ es' (_ & r & choice & q & _ & _ & Hc & _ & ->). exists (Policy.request_id r), choice.
    by split; [destruct choice|].
Qed.

Lemma turns_do_only_what_is_allowed_witness :
  ran_on (outside (sample_run 5).1) <> [] /\
  staged_well (sent (sample_run 5).1) (outside (sample_run 5).1).
Proof.
  split; [by vm_compute|].
  exact (turns_do_only_what_is_allowed sample_config {["look" := look]} sample_context staged_well
    "What is in a.txt?" 5 sample_start staged_keeps (Forall_nil_2 _)).
Defined.

(** All requests are complete. *)
Definition asked_well (es : list AppEvent) (p : Stage) : Prop := Forall (fun r => sound (messages r)) (sent_requests p).

Lemma asked_keeps : host_keeps sample_config {["look" := look]} sample_context
  (watching sample_context asked_well True sample_start).
Proof.
  constructor; try done. intros tools b ->%sample_tools. constructor; try done.
  - intros r es p Hr H. cbn in H |- *. destruct (script p); [done|]. apply Forall_app. split; [done|].
    apply Forall_singleton. by apply Hr.
  - intros name tool tc v es w Hn _ _ H. by apply lookup_singleton_Some in Hn as [<- <-].
Qed.

Lemma histories_answer_every_call_witness :
  histories_sound (en_histories (tn_engine (sample_run 5).1)) /\
  asked_well (sent (sample_run 5).1) (outside (sample_run 5).1).
Proof.
  exact (histories_answer_every_call sample_config {["look" := look]} sample_context asked_well
    "What is in a.txt?" 5 sample_start asked_keeps (map_Forall_empty _) (Forall_nil_2 _)).
Defined.

Definition authorized_run : Turn Stage * result Cut unit :=
  authorize sample_config {["look" := look]} sample_context None "look" (VObject []) sample_start.

Lemma authorized_calls_were_allowed_witness :
  authorized_run.2 = Ok tt /\
  access_switches sample_context {["look" := look]} "look" = Ok tt /\
  (exists dialogues, emitted (en_world (tn_engine authorized_run.1)) = concat dialogues /\
     length dialogues = 1%nat).
Proof.
  assert (H : authorized_run = (authorized_run.1, Ok tt)) by (by vm_compute).
  destruct (authorized_calls_were_allowed sample_config sample_context {["look" := look]} None "look" (VObject [])
    sample_start authorized_run.1 H) as (Hs & s & policy & effects & dialogues & Hp & He & _ & E & Hd).
  split; [by rewrite H|]. split; [done|]. exists dialogues. split; [exact E|].
  apply Forall2_length in Hd. rewrite <- Hd. injection He as <-. injection Hp as <-. by vm_compute.
Defined.

(** ** A denied call, and identifiers that come back *)

(** A provider that numbers the calls of each of its answers from the same start: the
    first turn's call is answered, and the second turn's is declined. Its reply is
    not added, since a call of that identifier was answered before. *)
Definition reused_history : list ChatMessage :=
  [chat_text System "s"; chat_text User "first"; assistant_message "" None [look_call];
   tool_message "call_0" "look" "seen"; chat_text Assistant "done"; chat_text User "second";
   assistant_message "" None [look_call]].

Example reused_identifiers_stay_open :
  let t := set_messages (staged_turn []) reused_history in
  let l := tn_messages (end_declined sample_context (undiscovered_model "m") t).1 in
  open_calls [] reused_history = Some ["call_0"] /\
  open_calls [] l = None /\ length l = S (length reused_history).
Proof. by vm_compute. Qed.
