(* ===== verification/Restore.v ===== *)
(** The agent engine between turns (apps/axiomcli/src/agent.rs, [AgentEngine]): a
    conversation restored from its journal, changes of its settings, titles, images
    generated again, and resets.

    The operations work on the state [Turn] of [Agent], whose own variables of a
    turn they leave alone. *)

From stdpp Require Import base gmap strings list.
From Stdlib Require Import ZArith NArith Lia ZifyBool ZifyN ZifyNat.
From S2P Require Import Prelude RustStr Json ToolCalls Content Accounting Inference Attachments RuntimePolicy Paths AppError Policy Steering Planning Lease Models Kernel Compaction Images Title Tools Agent TurnLoop.

Local Open Scope Z_scope.

(** ** Replay *)

Record Replay : Type := {
  re_messages : list ChatMessage;
  re_thinking : ThinkingLevel;
  re_active_model : string;
  re_last_used : option string;
  re_cwd : option Path;
  re_changed : list Path;
  re_turns : gset string;
  re_tools : gset string;
  re_names : gmap string string;
  re_viewed : gmap string string
}.

Definition re_with_messages (r : Replay) (l : list ChatMessage) : Replay :=
  {| re_messages := l; re_thinking := re_thinking r; re_active_model := re_active_model r;
     re_last_used := re_last_used r; re_cwd := re_cwd r; re_changed := re_changed r;
     re_turns := re_turns r; re_tools := re_tools r; re_names := re_names r;
     re_viewed := re_viewed r |}.
Definition re_with_settings (r : Replay) (level : ThinkingLevel) (model : string)
    (used : option string) (cwd : option Path) : Replay :=
  {| re_messages := re_messages r; re_thinking := level; re_active_model := model;
     re_last_used := used; re_cwd := cwd; re_changed := re_changed r; re_turns := re_turns r;
     re_tools := re_tools r; re_names := re_names r; re_viewed := re_viewed r |}.
Definition re_with_work (r : Replay) (paths : list Path) (turns tools : gset string)
    (names viewed : gmap string string) : Replay :=
  {| re_messages := re_messages r; re_thinking := re_thinking r;
     re_active_model := re_active_model r; re_last_used := re_last_used r; re_cwd := re_cwd r;
     re_changed := paths; re_turns := turns; re_tools := tools; re_names := names;
     re_viewed := viewed |}.

Definition re_push (r : Replay) (m : ChatMessage) : Replay :=
  re_with_messages r (re_messages r ++ [m]).
Definition re_used (r : Replay) : Replay :=
  re_with_settings r (re_thinking r) (re_active_model r) (Some (re_active_model r)) (re_cwd r).

Definition with_reasoning (m : ChatMessage) (o : option string) : ChatMessage :=
  {| role := role m; content := content m; images := images m; files := files m;
     reasoning_content := o; name := name m; refusal := refusal m;
     tool_call_id := tool_call_id m; tool_calls := tool_calls m |}.
Definition with_tool_calls (m : ChatMessage) (l : list ToolCall) : ChatMessage :=
  {| role := role m; content := content m; images := images m; files := files m;
     reasoning_content := reasoning_content m; name := name m; refusal := refusal m;
     tool_call_id := tool_call_id m; tool_calls := l |}.

(** [messages.last_mut().filter(p)]: [f] on the last message, or a new one. *)
Definition on_last (p : ChatMessage -> bool) (f : ChatMessage -> ChatMessage) (new : ChatMessage)
    (l : list ChatMessage) : list ChatMessage :=
  match last l with
  | Some m => if p m then take (length l - 1) l ++ [f m] else l ++ [new]
  | None => l ++ [new]
  end.

Definition speaking (m : ChatMessage) : bool :=
  bool_decide (role m = Assistant) && bool_decide (tool_calls m = []).

Definition is_assistant (m : ChatMessage) : bool := bool_decide (role m = Assistant).

Definition add_text (text : string) (l : list ChatMessage) : list ChatMessage :=
  on_last speaking (fun m => with_content m (content m +:+ text)) (chat_text Assistant text) l.

Definition add_reasoning (text : string) (l : list ChatMessage) : list ChatMessage :=
  on_last speaking (fun m => with_reasoning m (Some (default EmptyString (reasoning_content m) +:+ text)))
    (with_reasoning (chat_text Assistant EmptyString) (Some text)) l.

Definition add_call (call : ToolCall) (l : list ChatMessage) : list ChatMessage :=
  on_last is_assistant (fun m => with_tool_calls m (tool_calls m ++ [call]))
    (assistant_message EmptyString None [call]) l.

(** [arguments.get("image_id").and_then(as_str).unwrap_or_default()]. *)
Definition image_argument (v : Value) : string :=
  match v with
  | VObject members => match map_get "image_id" members with Some (VString s) => s | _ => EmptyString end
  | _ => EmptyString
  end.

Definition compact_replay (r : Replay) (summary : string) : Replay :=
  let pending :=
    if bool_decide (re_turns r = ∅) then None
    else match last (re_messages r) with
         | Some m => if bool_decide (role m = User) then Some m else None
         | None => None
         end in
  re_with_work
    (re_with_messages r (compacted_history EmptyString summary
                         ++ match pending with Some m => [m] | None => [] end))
    (re_changed r) (re_turns r) ∅ ∅ ∅.

Definition replayed_turns (turns : gset string) (e : AppEvent) : gset string :=
  match e with
  | AppTurnStarted turn => turns ∪ {[ turn ]}
  | AppTurnCompleted turn | AppTurnCancelled turn | AppErrorRaised (Some turn) _ => turns ∖ {[ turn ]}
  | _ => turns
  end.

Definition stopped_work : ChatMessage :=
  chat_text System "The previous process ended during active work. Any unfinished tool side effect has unknown status and must be inspected; do not replay it automatically.".

Section Restore.
Context {P : Type} `{H : Host P}.
Context `{FS : FileSystem} `{U : UrlLib} `{RJ : RequestJson} `{JT : JsonText} `{PS : PlanStore P}.
Context `{B64 : Base64} `{SJ : SerdeJson} `{KD : KeyDigest} `{IL : ImageLib}.

Definition restore_image (session : string) (x : EventEnvelope) : M ImageCatalog AxiomError unit :=
  fun c =>
  if negb (bool_decide (ev_session x = session))
  then (c, Err (StorageError "image history belongs to another conversation")) else
  match ev_event x with
  | AppPromptAccepted turn _ attachments => add_uploads session turn attachments c
  | AppImageGenerated _ image =>
    let '(c, r) := add_generated image c in (c, match r with Ok _ => Ok tt | Err e => Err e end)
  | _ => (c, Ok tt)
  end.

Definition restore_images (session : string) (l : list EventEnvelope) : result AxiomError ImageCatalog :=
  match iterM (restore_image session) l ∅ with (c, Ok _) => Ok c | (_, Err e) => Err e end.

Definition replay_call (r : Replay) (id n : string) (arguments : Value) : result AxiomError Replay :=
  text ← map_err JsonError (json_to_string arguments);
  let viewed := if bool_decide (n = "view_image")
                then <[id := image_argument arguments]> (re_viewed r) else re_viewed r in
  Ok (re_with_messages
        (re_with_work r (re_changed r) (re_turns r) (re_tools r) (<[id := n]> (re_names r)) viewed)
        (add_call {| ToolCalls.id := id; tc_kind := "function";
                     function := {| fc_name := n; arguments := text |} |} (re_messages r))).

Definition replay_completed (images : ImageCatalog) (r : Replay) (id : string) (success : bool)
    : result AxiomError Replay :=
  let r' := re_with_work r (re_changed r) (re_turns r) (re_tools r ∖ {[ id ]}) (re_names r)
              (delete id (re_viewed r)) in
  match re_viewed r !! id with
  | Some image_id =>
    if success
    then image ← view_image image_id images; Ok (re_push r' (image_observation id [image]))
    else Ok r'
  | None => Ok r'
  end.

Definition replay_step (images : ImageCatalog) (r : Replay) (e : AppEvent) : result AxiomError Replay :=
  match e with
  | AppSessionCreated cwd _ _ | AppSessionResumed cwd _ _ =>
    Ok (re_with_settings r (re_thinking r) (re_active_model r) (re_last_used r)
          (Some (default cwd (re_cwd r))))
  | AppPromptAccepted _ text attachments => Ok (re_push (re_used r) (user_message text attachments))
  | AppSteeringApplied _ _ text => Ok (re_push (re_used r) (chat_text User text))
  | AppTextDelta _ text => Ok (re_with_messages r (add_text text (re_messages r)))
  | AppReasoningDelta _ text => Ok (re_with_messages r (add_reasoning text (re_messages r)))
  | AppToolProposed _ id n arguments => replay_call r id n arguments
  | AppToolOutput id text _ =>
    Ok (re_push r (tool_message id (default "restored_tool" (re_names r !! id)) text))
  | AppTurnStarted _ | AppTurnCompleted _ =>
    Ok (re_with_work r (re_changed r) (replayed_turns (re_turns r) e) (re_tools r) (re_names r) (re_viewed r))
  | AppTurnCancelled _ | AppErrorRaised (Some _) _ =>
    Ok (re_push (re_with_work r (re_changed r) (replayed_turns (re_turns r) e) (re_tools r) (re_names r)
                   (re_viewed r)) interrupted_turn_context)
  | AppToolStarted id _ =>
    Ok (re_with_work r (re_changed r) (re_turns r) (re_tools r ∪ {[ id ]}) (re_names r) (re_viewed r))
  | AppToolCompleted id success => replay_completed images r id success
  | AppWorkspaceChanged paths =>
    Ok (re_with_work r (extend_paths (re_changed r) paths) (re_turns r) (re_tools r) (re_names r) (re_viewed r))
  | AppModelChanged model =>
    Ok (re_with_settings r (re_thinking r) model (re_last_used r) (re_cwd r))
  | AppThinkingLevelChanged level =>
    Ok (re_with_settings r level (re_active_model r) (re_last_used r) (re_cwd r))
  | AppContextCompacted summary _ => Ok (compact_replay r summary)
  | _ => Ok r
  end.

Fixpoint replay_messages (images : ImageCatalog) (r : Replay) (l : list AppEvent) : result AxiomError Replay :=
  match l with [] => Ok r | e :: l => r ← replay_step images r e; replay_messages images r l end.

Definition first_replay (s : SessionSettings) : Replay :=
  {| re_messages := [chat_text System EmptyString]; re_thinking := se_thinking s;
     re_active_model := se_model s; re_last_used := None; re_cwd := None; re_changed := [];
     re_turns := ∅; re_tools := ∅; re_names := ∅; re_viewed := ∅ |}.

Definition is_created (x : EventEnvelope) : bool :=
  match ev_event x with AppSessionCreated _ _ _ => true | _ => false end.

(** The time of the first creation, or of the first event. *)
Definition restored_start (s : SessionSettings) (l : list EventEnvelope) : string :=
  match first_some (List.find is_created l) (head l) with
  | Some x => ev_occurred_at x
  | None => se_started_at s
  end.

Definition set_first (m : ChatMessage) (l : list ChatMessage) : list ChatMessage :=
  match l with _ :: l => m :: l | [] => [] end.

Definition restored_messages (r : Replay) (system : string) : list ChatMessage :=
  set_first (chat_text System system) (re_messages r)
  ++ (if bool_decide (re_turns r = ∅) && bool_decide (re_tools r = ∅) then [] else [stopped_work]).

Definition restored_settings (cfg : AgentConfig) (t : Turn P) (l : list EventEnvelope) (r : Replay)
    : SessionSettings :=
  {| se_model := default (re_active_model r) (re_last_used r); se_thinking := re_thinking r;
     se_started_at := restored_start (default_settings cfg t) l |}.

(** [restore_session]: nothing is stored unless everything is read. *)
Definition restore_session (cfg : AgentConfig) (session : string) (l : list EventEnvelope)
    : M (Turn P) AxiomError unit := fun t =>
  match catalog ← restore_images session l;
        r ← replay_messages catalog (first_replay (default_settings cfg t)) (ev_event <$> l);
        Ok (catalog, r) with
  | Err e => (t, Err e)
  | Ok (catalog, r) =>
    let s := restored_settings cfg t l r in
    let messages := restored_messages r
      (system_prompt (default (path_of_string ".") (re_cwd r)) s (ac_custom_prompt cfg)) in
    let t := set_histories t (<[session := messages]> (en_histories (tn_engine t))) in
    let t := set_context_tokens t (<[session := estimated_context_tokens messages]> (en_context_tokens (tn_engine t))) in
    let t := set_settings t (<[session := s]> (en_settings (tn_engine t))) in
    (with_shared t (<[session := catalog]> (tn_images t)) (tn_policies t)
       (<[session := re_changed r]> (tn_change_sets t)) (tn_changes t) (tn_inbox t), Ok tt)
  end.

(** ** Settings *)

(** Blank identifiers, and identifiers with blanks. *)
Definition bad_model_id (id : string) : bool := is_blank id || existsb is_whitespace (chars id).

Definition bad_model_error : AxiomError :=
  InvalidTransition "model ID must be a non-empty value without whitespace".

Definition store_settings (session : string) (s : SessionSettings) : M (Turn P) AxiomError unit :=
  modify (fun t => set_settings t (<[session := s]> (en_settings (tn_engine t)))).

Definition set_model_settings (cfg : AgentConfig) (session : string) (selection : ModelSettings)
    : M (Turn P) AxiomError unit :=
  if bad_model_id (ms_model selection) then throw bad_model_error else
  s ← current_settings cfg session;
  m ← on_world (model_info {| se_model := ms_model selection; se_thinking := se_thinking s;
                              se_started_at := se_started_at s |});
  let selection := reconcile_model_settings m (ms_thinking selection) in
  current ← current_settings cfg session;
  store_settings session {| se_model := ms_model selection; se_thinking := ms_thinking selection;
                            se_started_at := se_started_at current |}.

Definition set_model (cfg : AgentConfig) (session model : string) : M (Turn P) AxiomError unit :=
  if bad_model_id model then throw bad_model_error else
  s ← current_settings cfg session;
  set_model_settings cfg session
    {| ms_model := model; ms_thinking := se_thinking s; ms_supports_reasoning := false |}.

Definition ask_models : M (Turn P) AxiomError (list ModelInfo) :=
  r ← ask_outside provider_models; lift r.

Definition set_thinking_level (cfg : AgentConfig) (session : string) (level : ThinkingLevel)
    : M (Turn P) AxiomError unit :=
  s ← current_settings cfg session;
  models ← ask_models;
  m ← lift (ok_or (List.find (fun m => bool_decide (mi_id m = se_model s)) models)
              (InvalidTransition "current model is no longer in the provider catalog"));
  current ← current_settings cfg session;
  if negb (bool_decide (se_model current = se_model s))
  then throw (InvalidTransition "model changed while validating its thinking level") else
  store_settings session {| se_model := se_model current;
                            se_thinking := ms_thinking (reconcile_model_settings m level);
                            se_started_at := se_started_at current |}.

(** Usable models by preference, one of each identifier. *)
Definition available_model_details : M (Turn P) AxiomError (list ModelInfo) :=
  models ← ask_models;
  mret (sort_by preference_le (dedup_ids None (sort_by id_le (List.filter usable_id models)))).

Definition available_models : M (Turn P) AxiomError (list string) :=
  l ← available_model_details; mret (mi_id <$> l).

(** ** Titles *)

Definition for_title (u : RequestUsage) : RequestUsage :=
  {| Accounting.request_id := Accounting.request_id u; model_id := model_id u; provider_id := provider_id u;
     context_window_tokens := context_window_tokens u;
     Accounting.auto_compact_threshold_tokens := Accounting.auto_compact_threshold_tokens u;
     Accounting.turn_id := Accounting.turn_id u;
     purpose := Title; Accounting.state := Accounting.state u; completeness := completeness u;
     input_tokens := input_tokens u; cached_input_tokens := cached_input_tokens u;
     output_tokens := output_tokens u; reasoning_tokens := reasoning_tokens u;
     image_pixels := image_pixels u; image_steps := image_steps u;
     input_image_pixels := input_image_pixels u; cost_microusd := cost_microusd u;
     settled := settled u; response_verified := response_verified u;
     started_at_ms := started_at_ms u; finished_at_ms := finished_at_ms u;
     error_code := error_code u; finish_reason := finish_reason u |}.

Definition title_event (e : ProviderEvent) : M (Turn P) AxiomError unit :=
  match e with
  | EvAccounting usage => emit_event (AppRequestUsageUpdated (for_title usage))
  | _ => mret tt
  end.

Definition no_title : AxiomError := ProviderError "title request returned no usable title".

Definition answered_title (response : AssistantTurn) : result AxiomError string :=
  if negb (bool_decide (at_tool_calls response = [])) || is_blank (at_text response) then Err no_title else
  let title := session_title (at_text response) in
  if bool_decide (title = "Conversation") && negb (bool_decide (trim (at_text response) = "Conversation"))
  then Err no_title else Ok title.

Definition generate_title (model_id first_prompt : string) : M (Turn P) AxiomError string :=
  models ← ask_models;
  m ← lift (ok_or (List.find (fun m => bool_decide (mi_id m = model_id)) models)
              (ProviderError "title model is no longer available"));
  if bool_decide (mi_provider_id m = "axiom-direct") then mret (session_title first_prompt) else
  answer ← ask_outside (provider_stream (title_request m first_prompt));
  _ ← iterM title_event answer.1;
  response ← lift answer.2;
  cancelled ← gets (fun t => is_cancelled (outside t));
  if (cancelled : bool) then throw CancelledError else lift (answered_title response).

(** ** Images generated again *)

Definition renamed_event (call : string) (e : AppEvent) : AppEvent :=
  match e with AppImageGenerated _ image => AppImageGenerated call image | e => e end.

Definition may_regenerate (c : TurnContext) (m : ModelInfo) (tools : Tools P) : bool :=
  cx_image_tools c && mi_supports_images m && offers_images tools.

Definition regenerate_image (cfg : AgentConfig) (tools : Tools P) (c : TurnContext) (call : string)
    (v : Value) (origin : option string) : M (Turn P) AxiomError unit :=
  s ← current_settings cfg (cx_session c);
  m ← on_world (model_info {| se_model := default (se_model s) origin; se_thinking := se_thinking s;
                              se_started_at := se_started_at s |});
  if negb (may_regenerate c m tools)
  then throw (ProviderError "Choose a vision-capable model with the installed image service to regenerate an image.") else
  _ ← emit_event (AppToolProposed (cx_turn c) call "generate" v);
  _ ← emit_event (AppToolStarted call "generate");
  executed ← before_optional_deadline (run_tool tools c None "generate"
    {| tc_session := cx_session c; tc_model_id := mi_id m; tc_cwd := cx_cwd c;
       tc_profile := cx_profile c; tc_progress := Some call |} v);
  match executed with
  | Err e =>
    _ ← emit_event (AppToolOutput call (error_display e) false);
    _ ← emit_event (AppToolCompleted call false);
    throw e
  | Ok r =>
    _ ← iterM (fun e => emit_event (renamed_event call e)) (tr_events r);
    _ ← emit_event (AppToolOutput call (tr_content r) (tr_truncated r));
    _ ← emit_event (AppToolCompleted call (tr_success r));
    if tr_success r then mret tt else throw (ToolError "Image regeneration could not finish.")
  end.

(** [reset_session_permissions]. *)
Definition reset_session_permissions (session : string) : M (Turn P) AxiomError unit :=
  modify (fun t => with_shared t (tn_images t) (delete session (tn_policies t))
                     (delete session (tn_change_sets t)) (tn_changes t) (tn_inbox t)).
End Restore.
