(* ===== verification/RestoreTheorems.v ===== *)
(** What a restored conversation is: the journal's text, calls, answers and prompts, each
    whole and in its place, and complete where the journal is; together with [TurnTheorems], the
    conversation after a turn that returned can be sent again. *)

From stdpp Require Import base gmap strings list.
From Stdlib Require Import ZArith NArith Lia ZifyBool ZifyN ZifyNat.
From S2P Require Import Prelude RustStr Json ToolCalls Content Accounting Inference Attachments RuntimePolicy Paths AppError Policy Steering Planning Lease Models Kernel Compaction Images Title Tools Agent TurnLoop TurnProofs TurnTheorems Restore.

Local Open Scope Z_scope.

Lemma on_last_spec p f new l :
  (exists l0 m, l = l0 ++ [m] /\ p m = true /\ on_last p f new l = l0 ++ [f m]) \/
  ((forall l0 m, l = l0 ++ [m] -> p m = false) /\ on_last p f new l = l ++ [new]).
Proof.
  unfold on_last. destruct (last l) as [m|] eqn:Hm.
  - apply last_Some in Hm as [l0 ->]. destruct (p m) eqn:Hp.
    + left. exists l0, m. split_and!; [done..|]. rewrite length_app, Nat.add_sub. by rewrite take_app_length.
    + right. split; [|done]. intros l1 m1 [_ [= <-]]%app_inj_tail. done.
  - right. apply last_None in Hm as ->. split; [|done]. by intros [] ?.
Qed.

(** ** Complete transcripts *)

(** A transcript that can be sent as it is. *)
Definition clean (l : list ChatMessage) : Prop := replied l /\ calls_ok l.
Definition clean_history {P : Type} (c : TurnContext) (t : Turn P) : Prop :=
  forall l, en_histories (tn_engine t) !! cx_session c = Some l -> clean l.

(** A transcript with at most the call [open] to be answered. *)
Definition transcript (open : option string) (l : list ChatMessage) : Prop :=
  open_calls [] l = Some (match open with Some id => [id] | None => [] end) /\ calls_ok l.

Lemma transcript_clean l : transcript None l <-> clean l.
Proof. done. Qed.

Lemma transcript_push m l :
  transcript None l -> role m <> Inference.Tool -> tool_calls m = [] -> transcript None (l ++ [m]).
Proof.
  intros [Ho Hk] Hr Hc. split; [|by apply Forall_app; split; [|constructor]].
  rewrite open_calls_app, Ho. cbn. rewrite Hc. by destruct (role m).
Qed.

Lemma transcript_same l m m' :
  transcript None (l ++ [m]) -> role m' = role m -> tool_call_id m' = tool_call_id m ->
  tool_calls m' = tool_calls m -> transcript None (l ++ [m']).
Proof.
  intros [Ho [Hk Hm]%Forall_app] H1 H2 H3. split.
  - rewrite <- Ho. apply open_calls_same. apply Forall2_app; [|by repeat constructor].
    clear. by induction l; constructor.
  - apply Forall_app. split; [done|]. apply Forall_cons in Hm as [Hm _]. constructor; [|done].
    by rewrite H1, H3.
Qed.

Lemma transcript_said f new l :
  transcript None l -> role new = Assistant -> tool_calls new = [] ->
  (forall m, role (f m) = role m /\ tool_call_id (f m) = tool_call_id m /\ tool_calls (f m) = tool_calls m) ->
  transcript None (on_last speaking f new l).
Proof.
  intros Ht Hr Hc Hf. destruct (on_last_spec speaking f new l) as [(l0 & m & -> & _ & ->)|[_ ->]].
  - destruct (Hf m) as (E1 & E2 & E3). by eapply transcript_same.
  - apply transcript_push; [done|by rewrite Hr|done].
Qed.

(** The last assistant of a complete transcript called nothing. *)
Lemma last_called_nothing l m : transcript None (l ++ [m]) -> role m = Assistant -> tool_calls m = [].
Proof.
  intros [Ho _] Hr. rewrite open_calls_app in Ho. destruct (open_calls [] l) as [q|]; [|done].
  cbn in Ho. rewrite Hr in Ho. destruct q; [|done]. injection Ho as Ho. by apply fmap_nil_inv in Ho.
Qed.

Lemma transcript_called call l :
  transcript None l -> transcript (Some (ToolCalls.id call)) (add_call call l).
Proof.
  intros Ht. unfold add_call.
  destruct (on_last_spec is_assistant (fun m => with_tool_calls m (tool_calls m ++ [call]))
    (assistant_message EmptyString None [call]) l) as [(l0 & m & -> & Hp & ->)|[_ ->]].
  - apply bool_decide_eq_true in Hp. pose proof (last_called_nothing _ _ Ht Hp) as Hn. rewrite Hn.
    destruct Ht as [Ho [Hk Hm]%Forall_app]. split.
    + rewrite open_calls_app in Ho |- *. destruct (open_calls [] l0) as [q|]; [|done].
      cbn in Ho |- *. rewrite Hp in *. by destruct q.
    + apply Forall_app. split; [done|]. constructor; [intros Hx; by rewrite <- Hp in Hx|constructor].
  - destruct Ht as [Ho Hk]. split; [by rewrite open_calls_app, Ho|].
    apply Forall_app. by split; [|constructor].
Qed.

Lemma transcript_answered id name text l :
  transcript (Some id) l -> transcript None (l ++ [tool_message id name text]).
Proof.
  intros [Ho Hk]. split; [rewrite open_calls_app, Ho; cbn; by rewrite decide_True|].
  apply Forall_app. by split; [|constructor].
Qed.

Lemma compacted_transcript r summary :
  transcript None (re_messages r) -> transcript None (re_messages (compact_replay r summary)).
Proof.
  intros [Ho Hk]. unfold compact_replay. cbn [re_with_work re_with_messages re_messages].
  assert (Hc : transcript None (compacted_history EmptyString summary)) by (split; [done|by repeat constructor]).
  destruct (bool_decide (re_turns r = ∅)); [by rewrite app_nil_r|].
  destruct (last (re_messages r)) as [m|] eqn:Hm; [|by rewrite app_nil_r].
  case_bool_decide as Hr; [|by rewrite app_nil_r].
  apply last_Some in Hm as [l0 E]. rewrite E in Hk. apply Forall_app in Hk as [_ Hm].
  apply Forall_cons in Hm as [Hm _]. apply transcript_push; [done|by rewrite Hr|apply Hm; by rewrite Hr].
Qed.

Section Journals.
Context `{B64 : Base64} `{SJ : SerdeJson} `{JT : JsonText} `{KD : KeyDigest} `{IL : ImageLib}.

Lemma replay_step_transcript images r r' e o o' :
  call_step o e = Some o' -> replay_step images r e = Ok r' ->
  transcript o (re_messages r) -> transcript o' (re_messages r').
Proof.
  intros Hc Hs Ht.
  destruct e; cbn [replay_step] in Hs;
    try (injection Hs as <-; destruct o; cbn in Hc; injection Hc as <-; exact Ht).
  - injection Hs as <-. destruct o; [done|]. injection Hc as <-. by apply transcript_push.
  - injection Hs as <-. destruct o; [done|]. injection Hc as <-.
    destruct (attach_roles attachments (chat_text User txt)) as (E1 & _ & E2).
    apply transcript_push; [exact Ht| |exact E2]. unfold user_message. by rewrite E1.
  - injection Hs as <-. destruct o; [done|]. injection Hc as <-. by apply transcript_said.
  - injection Hs as <-. destruct o; [done|]. injection Hc as <-. by apply transcript_said.
  - unfold replay_call in Hs. apply bind_Ok in Hs as (text & _ & [= <-]). destruct o; [done|].
    injection Hc as <-. by apply (transcript_called {| ToolCalls.id := call |}).
  - injection Hs as <-. destruct o as [id|]; [|done]. cbn in Hc. case_decide; [|done]. subst.
    injection Hc as <-. by apply transcript_answered.
  - destruct o; [done|]. injection Hc as <-. unfold replay_completed in Hs.
    destruct (re_viewed r !! call); [|by injection Hs as <-]. destruct success; [|by injection Hs as <-].
    apply bind_Ok in Hs as (image & _ & [= <-]). by apply transcript_push.
  - injection Hs as <-. destruct o; [done|]. injection Hc as <-. by apply compacted_transcript.
  - injection Hs as <-. destruct o; [done|]. injection Hc as <-. by apply transcript_push.
  - destruct turn, o; cbn in Hc; try done; injection Hc as <-; injection Hs as <-; [by apply transcript_push|done..].
Qed.

Lemma replay_transcript images es : forall r r' o o',
  call_run o es = Some o' -> replay_messages images r es = Ok r' ->
  transcript o (re_messages r) -> transcript o' (re_messages r').
Proof.
  induction es as [|e es IH]; intros r r' o o' Hc Hr Ht; cbn in *; [congruence|].
  destruct (call_step o e) as [o1|] eqn:Ho; [|done]. cbn in Hc.
  apply bind_Ok in Hr as (r1 & Hr1 & Hr). eapply IH; [done..|]. by eapply replay_step_transcript.
Qed.

(** The first message stays the system's. *)
Definition led (l : list ChatMessage) : Prop :=
  exists m rest, l = m :: rest /\ role m = System /\ tool_calls m = [] /\ tool_call_id m = None.

Lemma led_app l x : led l -> led (l ++ [x]).
Proof. intros (m & rest & -> & H). by exists m, (rest ++ [x]). Qed.

Lemma led_last p f new l : (forall m, p m = true -> role m = Assistant) -> led l -> led (on_last p f new l).
Proof.
  intros Hp Hl. destruct (on_last_spec p f new l) as [(l0 & m & -> & Hm & ->)|[_ ->]]; [|by apply led_app].
  destruct Hl as (x & rest & E & Hr & Hc). destruct l0 as [|y l0].
  - injection E as -> _. apply Hp in Hm. congruence.
  - injection E as -> _. by exists x, (l0 ++ [f m]).
Qed.

Lemma speaking_assistant m : speaking m = true -> role m = Assistant.
Proof. unfold speaking. intros [H _]%andb_true_iff. by apply bool_decide_eq_true in H. Qed.

Lemma is_assistant_true m : is_assistant m = true -> role m = Assistant.
Proof. apply bool_decide_eq_true. Qed.

Lemma replay_step_led images r r' e :
  replay_step images r e = Ok r' -> led (re_messages r) -> led (re_messages r').
Proof.
  intros Hs Hl. destruct e; cbn [replay_step] in Hs; try (injection Hs as <-; exact Hl);
    try (injection Hs as <-; by apply led_app);
    try (injection Hs as <-; by apply led_last; [apply speaking_assistant|]).
  - apply bind_Ok in Hs as (text & _ & [= <-]). by apply led_last; [apply is_assistant_true|].
  - unfold replay_completed in Hs. destruct (re_viewed r !! call); [|by injection Hs as <-].
    destruct success; [|by injection Hs as <-]. apply bind_Ok in Hs as (image & _ & [= <-]). by apply led_app.
  - injection Hs as <-. cbn. eexists _, _. by split_and!.
  - destruct turn; injection Hs as <-; [by apply led_app|done].
Qed.

Lemma replay_led images es : forall r r',
  replay_messages images r es = Ok r' -> led (re_messages r) -> led (re_messages r').
Proof.
  induction es as [|e es IH]; intros r r' Hr Hl; cbn in Hr; [by injection Hr as <-|].
  apply bind_Ok in Hr as (r1 & Hr1 & Hr). eapply IH; [done|]. by eapply replay_step_led.
Qed.

Lemma restored_clean r system :
  transcript None (re_messages r) -> led (re_messages r) -> clean (restored_messages r system).
Proof.
  intros Ht (m & rest & E & Hr & Hc & _). unfold restored_messages. rewrite E in *. cbn [set_first].
  assert (H : transcript None (chat_text System system :: rest)).
  { destruct Ht as [Ho Hk]. apply Forall_cons in Hk as [_ Hk]. cbn in Ho. rewrite Hr in Ho.
    split; [done|]. by constructor. }
  destruct (_ && _); [by rewrite app_nil_r|]. by apply transcript_push.
Qed.
End Journals.

(** ** What a transcript says *)

(** A transcript, line by line: what the assistant said, byte by byte; the calls it made,
    with their arguments; and every message it heard: prompts, replies of tools, notes. *)
Inductive Line : Type := Said (b : N) | Called (call : ToolCall) | Heard (m : ChatMessage).

Definition lines_of (m : ChatMessage) : list Line :=
  if is_assistant m then (Said <$> bytes (content m)) ++ (Called <$> tool_calls m) else [Heard m].
Definition lines (l : list ChatMessage) : list Line := l ≫= lines_of.

(** What the assistant thought, apart. *)
Definition thought_of (m : ChatMessage) : list N :=
  if is_assistant m then bytes (default EmptyString (reasoning_content m)) else [].
Definition thought (l : list ChatMessage) : list N := l ≫= thought_of.
Definition thought_event (e : AppEvent) : list N := match e with AppReasoningDelta _ s => bytes s | _ => [] end.

Definition compacts (e : AppEvent) : bool := match e with AppContextCompacted _ _ => true | _ => false end.

(** What a journal has told so far: the tools of the calls, the images they ask to see, and
    what is still going on. *)
Record Past : Type := {
  ps_names : gmap string string; ps_viewed : gmap string string; ps_turns : gset string; ps_tools : gset string
}.

Definition remember (s : Past) (e : AppEvent) : Past :=
  match e with
  | AppToolProposed _ id n v =>
    {| ps_names := <[id := n]> (ps_names s);
       ps_viewed := if bool_decide (n = "view_image") then <[id := image_argument v]> (ps_viewed s) else ps_viewed s;
       ps_turns := ps_turns s; ps_tools := ps_tools s |}
  | AppToolStarted id _ =>
    {| ps_names := ps_names s; ps_viewed := ps_viewed s; ps_turns := ps_turns s; ps_tools := ps_tools s ∪ {[ id ]} |}
  | AppToolCompleted id _ =>
    {| ps_names := ps_names s; ps_viewed := delete id (ps_viewed s); ps_turns := ps_turns s;
       ps_tools := ps_tools s ∖ {[ id ]} |}
  | AppTurnStarted turn =>
    {| ps_names := ps_names s; ps_viewed := ps_viewed s; ps_turns := ps_turns s ∪ {[ turn ]}; ps_tools := ps_tools s |}
  | AppTurnCompleted turn | AppTurnCancelled turn | AppErrorRaised (Some turn) _ =>
    {| ps_names := ps_names s; ps_viewed := ps_viewed s; ps_turns := ps_turns s ∖ {[ turn ]}; ps_tools := ps_tools s |}
  | _ => s
  end.

Definition nothing_past : Past := {| ps_names := ∅; ps_viewed := ∅; ps_turns := ∅; ps_tools := ∅ |}.

Section Saying.
Context `{B64 : Base64} `{SJ : SerdeJson} `{JT : JsonText} `{KD : KeyDigest} `{IL : ImageLib}.

(** The lines an event adds to a conversation. *)
Definition event_lines (images : ImageCatalog) (s : Past) (e : AppEvent) : list Line :=
  match e with
  | AppTextDelta _ text => Said <$> bytes text
  | AppToolProposed _ id n v =>
    [Called {| ToolCalls.id := id; tc_kind := "function";
               function := {| fc_name := n; arguments := value_display v |} |}]
  | AppToolOutput id text _ => [Heard (tool_message id (default "restored_tool" (ps_names s !! id)) text)]
  | AppPromptAccepted _ text attachments => [Heard (user_message text attachments)]
  | AppSteeringApplied _ _ text => [Heard (chat_text User text)]
  | AppToolCompleted id true =>
    match ps_viewed s !! id with
    | Some image_id => match view_image image_id images with
                       | Ok image => [Heard (image_observation id [image])]
                       | Err _ => []
                       end
    | None => []
    end
  | AppTurnCancelled _ | AppErrorRaised (Some _) _ => [Heard interrupted_turn_context]
  | _ => []
  end.

Fixpoint journal_lines (images : ImageCatalog) (s : Past) (es : list AppEvent) : list Line :=
  match es with
  | [] => []
  | e :: es => event_lines images s e ++ journal_lines images (remember s e) es
  end.

Definition past_of (r : Replay) : Past :=
  {| ps_names := re_names r; ps_viewed := re_viewed r; ps_turns := re_turns r; ps_tools := re_tools r |}.

Lemma lines_app l l' : lines (l ++ l') = lines l ++ lines l'.
Proof using Type. apply bind_app. Qed.
Lemma thought_app l l' : thought (l ++ l') = thought l ++ thought l'.
Proof using Type. apply bind_app. Qed.
Lemma lines_one m : lines [m] = lines_of m.
Proof using Type. apply app_nil_r. Qed.
Lemma thought_one m : thought [m] = thought_of m.
Proof using Type. apply app_nil_r. Qed.

(** [l'] says what [l] says, and then [ls], thinking [th] meanwhile. *)
Definition says_more (ls : list Line) (th : list N) (l l' : list ChatMessage) : Prop :=
  lines l' = lines l ++ ls /\ thought l' = thought l ++ th.

Lemma says_nothing l : says_more [] [] l l.
Proof using Type. unfold says_more. by rewrite !app_nil_r. Qed.

Lemma says_push l m : says_more (lines_of m) (thought_of m) l (l ++ [m]).
Proof using Type. unfold says_more. by rewrite lines_app, thought_app, lines_one, thought_one. Qed.

Lemma says_heard l m : role m <> Assistant -> says_more [Heard m] [] l (l ++ [m]).
Proof using Type.
  intros Hm. pose proof (says_push l m) as H. unfold lines_of, thought_of, is_assistant in H.
  by rewrite bool_decide_false in H.
Qed.

(** One message at the end, or more of the last one. *)
Lemma says_last ls th p f new l :
  lines_of new = ls -> thought_of new = th ->
  (forall m, p m = true -> lines_of (f m) = lines_of m ++ ls /\ thought_of (f m) = thought_of m ++ th) ->
  says_more ls th l (on_last p f new l).
Proof using Type.
  intros <- <- Hf. destruct (on_last_spec p f new l) as [(l0 & m & -> & Hp & ->)|[_ ->]]; [|apply says_push].
  destruct (Hf m Hp) as [H1 H2]. unfold says_more.
  by rewrite !lines_app, !thought_app, !lines_one, !thought_one, H1, H2, !app_assoc.
Qed.

Lemma speaking_lines m :
  speaking m = true -> is_assistant m = true /\ tool_calls m = [].
Proof using Type. unfold speaking, is_assistant. intros [H1 H2]%andb_true_iff. by apply bool_decide_eq_true in H2. Qed.

Lemma value_display_Ok v text : json_to_string v = Ok text -> value_display v = text.
Proof using Type. unfold value_display. by intros ->. Qed.

Lemma user_role text attachments : role (user_message text attachments) = User.
Proof using Type. unfold user_message. by destruct (attach_roles attachments (chat_text User text)) as (-> & _). Qed.

(** A step of the replay adds the lines of its event. *)
Lemma replay_step_says images r r' e :
  compacts e = false -> replay_step images r e = Ok r' ->
  says_more (event_lines images (past_of r) e) (thought_event e) (re_messages r) (re_messages r') /\
  past_of r' = remember (past_of r) e.
Proof using Type.
  intros Hc Hs. destruct e; cbn [replay_step] in Hs; try done;
    try (injection Hs as <-; split; [apply says_nothing|done]).
  - injection Hs as <-. split; [by apply says_heard|done].
  - injection Hs as <-. split; [apply says_heard; by rewrite user_role|done].
  - injection Hs as <-. split; [|done]. apply says_last; [apply app_nil_r|done|].
    intros m [Ha Hn]%speaking_lines. unfold lines_of, thought_of. rewrite Ha. cbn.
    assert (is_assistant (with_content m (content m +:+ txt)) = true) as -> by exact Ha.
    by rewrite Hn, bytes_app, fmap_app, !app_nil_r.
  - injection Hs as <-. split; [|done]. apply says_last; [done|done|].
    intros m [Ha Hn]%speaking_lines. unfold lines_of, thought_of. cbn.
    assert (is_assistant (with_reasoning m (Some (default EmptyString (reasoning_content m) +:+ txt))) = true) as -> by exact Ha.
    rewrite Ha. by rewrite bytes_app, app_nil_r.
  - unfold replay_call in Hs. apply bind_Ok in Hs as (text & Ht & [= <-]). split; [|done].
    assert (Hd : value_display arguments = text).
    { apply value_display_Ok. by destruct (json_to_string arguments); [injection Ht as <-|]. }
    cbn [event_lines]. rewrite Hd. apply says_last; [done|done|].
    intros m Ha. unfold lines_of, thought_of. cbn.
    match goal with |- context [is_assistant (with_tool_calls m ?l)] =>
      assert (is_assistant (with_tool_calls m l) = true) as -> by exact Ha end.
    rewrite Ha. by rewrite fmap_app, app_nil_r, app_assoc.
  - injection Hs as <-. split; [by apply says_heard|done].
  - unfold replay_completed in Hs. cbn [event_lines past_of ps_viewed].
    destruct (re_viewed r !! call) as [image_id|]; [destruct success|].
    + apply bind_Ok in Hs as (image & -> & [= <-]). split; [by apply says_heard|done].
    + injection Hs as <-. split; [apply says_nothing|done].
    + injection Hs as <-. split; [destruct success; apply says_nothing|done].
  - injection Hs as <-. split; [by apply says_heard|done].
  - destruct turn; injection Hs as <-; (split; [|done]); [by apply says_heard|by apply says_nothing].
Qed.

Lemma replay_says images es : forall r r',
  Forall (fun e => compacts e = false) es -> replay_messages images r es = Ok r' ->
  says_more (journal_lines images (past_of r) es) (es ≫= thought_event) (re_messages r) (re_messages r') /\
  past_of r' = foldl remember (past_of r) es.
Proof using Type.
  induction es as [|e es IH]; intros r r' Hn Hr; cbn [replay_messages] in Hr.
  - injection Hr as <-. split; [apply says_nothing|done].
  - apply Forall_cons in Hn as [He Hn]. apply bind_Ok in Hr as (r1 & Hr1 & Hr).
    apply replay_step_says in Hr1 as ([A1 A2] & A3); [|done]. destruct (IH r1 r' Hn Hr) as ([B1 B2] & B3).
    cbn [journal_lines foldl]. rewrite <- A3. split; [|done].
    unfold says_more. rewrite bind_cons, B1, A1, B2, A2. by rewrite <- !app_assoc.
Qed.

(** The whole restoration. *)
Context {P : Type} `{HO : Host P}.
Context `{FS : FileSystem} `{U : UrlLib} `{RJ : RequestJson} `{PS : PlanStore P}.

Lemma restored_history (cfg : AgentConfig) session l (t t' : Turn P) :
  restore_session cfg session l t = (t', Ok tt) ->
  exists images r system,
    restore_images session l = Ok images /\
    replay_messages images (first_replay (default_settings cfg t)) (ev_event <$> l) = Ok r /\
    en_histories (tn_engine t') = <[session := restored_messages r system]> (en_histories (tn_engine t)).
Proof using Type.
  unfold restore_session. destruct (_ ≫= _) as [[catalog r]|e] eqn:Hb; [|done].
  apply bind_Ok in Hb as (c0 & Hi & Hb). apply bind_Ok in Hb as (r0 & Hr & [= <- <-]).
  intros [= <-]. exists c0, r0. eexists. by split_and!.
Qed.

Lemma first_led s : led (re_messages (first_replay s)).
Proof using Type. by eexists _, []. Qed.

(** C38: A restored conversation is its journal, line by line: after the system prompt come,
    each whole and at its place, what the assistant said, the calls it made with their names
    and arguments, the replies of the tools with their texts, the prompts with their
    attachments, the steering messages, the images that were looked at and the notes of
    interrupted turns, and nothing else - but a last note when a turn or a tool of the
    journal has no end. What the assistant thought is all there, in order. (Journals with a
    compaction start again from its summary; they are left out here.) *)
Theorem restored_conversations_follow_their_journals cfg session l (t t' : Turn P) :
  restore_session cfg session l t = (t', Ok tt) ->
  let es := ev_event <$> l in
  Forall (fun e => compacts e = false) es ->
  exists h images system, en_histories (tn_engine t') !! session = Some h /\
    restore_images session l = Ok images /\
    let past := foldl remember nothing_past es in
    lines h = [Heard (chat_text System system)] ++ journal_lines images nothing_past es ++
              (if bool_decide (ps_turns past = ∅) && bool_decide (ps_tools past = ∅) then [] else [Heard stopped_work]) /\
    thought h = es ≫= thought_event.
Proof.
  intros (images & r & system & Hi & Hr & E)%restored_history es Hn.
  exists (restored_messages r system), images, system. rewrite E, lookup_insert_eq. split_and!; [done..|].
  pose proof (replay_led _ _ _ _ Hr (first_led _)) as (m & rest & Hm & Hrole & _).
  destruct (replay_says images _ _ _ Hn Hr) as ([B1 B2] & B3). rewrite Hm in B1, B2.
  change (past_of (first_replay _)) with nothing_past in B1, B3. cbv zeta. rewrite <- B3.
  unfold restored_messages. rewrite Hm. cbn [set_first].
  assert (Hh : lines_of m = [Heard m] /\ thought_of m = []).
  { unfold lines_of, thought_of, is_assistant. by rewrite Hrole. }
  destruct Hh as [Hl Ht]. change (lines (m :: rest)) with (lines_of m ++ lines rest) in B1.
  change (thought (m :: rest)) with (thought_of m ++ thought rest) in B2. rewrite Hl in B1. rewrite Ht in B2.
  cbn in B1, B2. injection B1 as _ B1. rewrite lines_app, thought_app.
  change (lines (chat_text System system :: rest)) with (Heard (chat_text System system) :: lines rest).
  change (thought (chat_text System system :: rest)) with (thought rest). rewrite B1, B2.
  cbn [past_of ps_turns ps_tools]. fold es. by destruct (_ && _); rewrite ?app_nil_r.
Qed.

(** A conversation whose journal is complete is restored to a transcript that can be
    sent: every call is followed by its answer, in order. *)
Lemma complete_journals_restore cfg session l (t t' : Turn P) :
  restore_session cfg session l t = (t', Ok tt) ->
  call_run None (ev_event <$> l) = Some None ->
  exists h, en_histories (tn_engine t') !! session = Some h /\ clean h.
Proof.
  intros (images & r & system & _ & Hr & E)%restored_history Hc.
  exists (restored_messages r system). rewrite E, lookup_insert_eq. split; [done|].
  apply restored_clean; [|by eapply replay_led, first_led].
  eapply replay_transcript; [done..|]. split; [done|by repeat constructor].
Qed.

(** A turn that returned survives a restart: when the journal of the conversation
    was complete before it, the history restored from the journal with the turn's
    events is complete again, so the next turn can send it. *)
Theorem finished_turns_survive_restarts cfg cfg' (registry : Tools P) c prompt fuel s0 (t t' t1 t2 : Turn P) b es past l :
  (forall tools, session_tools registry tools -> tools_ok tools) ->
  in_wait (cx_turn c) Going s0 ->
  run cfg registry c prompt fuel t = (t', Ok b) ->
  emitted (en_world (tn_engine t')) = emitted (en_world (tn_engine t)) ++ es ->
  call_run None past = Some None ->
  ev_event <$> l = past ++ [AppPromptAccepted (cx_turn c) prompt (cx_attachments c); AppTurnStarted (cx_turn c)]
                   ++ es ++ [AppTurnCompleted (cx_turn c)] ->
  restore_session cfg' (cx_session c) l t1 = (t2, Ok tt) ->
  clean_history c t2.
Proof.
  intros Htools Hs Hrun Hes Hpast Hl Hr.
  set (F := {| fr_kernel := True; fr_replies := False; fr_world := fun _ _ => True;
    fr_sent := sent t; fr_session := s0; fr_policy := tn_policies t !! cx_session c |} : Frame P).
  pose proof (run_keeps cfg registry c F (nothing_kept cfg registry c F eq_refl) (fun _ => Htools) prompt fuel t
    (turn_ready cfg c F t (fun _ => conj eq_refl Hs) Logic.I (False_ind _) eq_refl)) as H.
  rewrite Hrun in H. destruct H as [b' [H _ _ _ _ _]].
  destruct (H Logic.I) as (es' & s' & E & _ & _ & Hcr). cbn in Hcr.
  unfold sent in E. cbn in E. rewrite Hes in E. apply app_inv_head in E as <-.
  apply complete_journals_restore in Hr as (h & Hh' & Hclean).
  - intros x Hx. cbn in Hx. rewrite Hh' in Hx. by injection Hx as <-.
  - rewrite Hl, !call_run_app, Hpast. cbn. by rewrite call_run_app, Hcr.
Qed.
End Saying.

(** ** A turn, restarted *)

#[local] Existing Instances plain_base64 plain_json plain_text plain_url plain_fs one_byte_messages plain_digest no_plans staged stage.

#[local] Instance no_images : ImageLib := {|
  Raster := unit; known_format _ := false; open_image _ _ _ _ _ := None; decode_upright _ _ := None;
  raster_size _ := (0, 0); resize_exact _ _ _ := tt; write_png _ := None
|}.

Definition journaled (l : list AppEvent) : list EventEnvelope :=
  imap (fun i e => {| ev_schema_version := 1; ev_sequence := Z.of_nat i; ev_occurred_at := "2026-01-01";
                      ev_correlation := "c"; ev_origin := Headless; ev_session := "s"; ev_event := e |}) l.

Definition first_events : list AppEvent :=
  [AppSessionCreated (path_of_string "/w") Headless Confirm].

Definition turn_journal (es : list AppEvent) (last : AppEvent) : list EventEnvelope :=
  journaled (first_events ++ [AppPromptAccepted "t" "What is in a.txt?" []; AppTurnStarted "t"] ++ es ++ [last]).

Definition sample_events : list AppEvent := emitted (en_world (tn_engine (sample_run 5).1)).

Definition restarted : Turn Stage * result AxiomError unit :=
  restore_session sample_config "s" (turn_journal sample_events (AppTurnCompleted "t")) (staged_turn []).

Lemma restored_conversations_follow_their_journals_witness :
  exists h system, en_histories (tn_engine restarted.1) !! "s" = Some h /\
    lines h = [Heard (chat_text System system); Heard (chat_text User "What is in a.txt?")]
      ++ (Said <$> bytes "Looking.") ++ [Called look_call; Heard (tool_message "call_0" "look" "seen")]
      ++ (Said <$> bytes "It says: seen.").
Proof.
  assert (H : restarted = (restarted.1, Ok tt)) by (by vm_compute).
  destruct (restored_conversations_follow_their_journals sample_config "s" _ (staged_turn []) restarted.1 H)
    as (h & images & system & Hh & Hi & Hl & _); [vm_compute; by repeat constructor|].
  exists h, system. split; [exact Hh|]. rewrite Hl.
  assert (Hi' : restore_images "s" (turn_journal sample_events (AppTurnCompleted "t")) = Ok ∅) by (by vm_compute).
  rewrite Hi' in Hi. clear -Hi. injection Hi as <-. by vm_compute.
Defined.

Lemma finished_turns_survive_restarts_witness : clean_history sample_context restarted.1.
Proof.
  assert (H : restarted = (restarted.1, Ok tt)) by (by vm_compute).
  assert (Hr : sample_run 5 = ((sample_run 5).1, Ok true)) by (by vm_compute).
  exact (finished_turns_survive_restarts sample_config sample_config {["look" := look]} sample_context
    "What is in a.txt?" 5 running_session sample_start (sample_run 5).1 (staged_turn []) restarted.1 true
    sample_events first_events (turn_journal sample_events (AppTurnCompleted "t"))
    sample_tools_ok (conj eq_refl eq_refl) Hr eq_refl eq_refl
    ltac:(by vm_compute) H).
Defined.

(** ** A turn, cut

    The deadline passes while the tool runs. The tool was proposed and started, its
    output is never sent, and the restored conversation keeps a call that nothing
    answers: the next turn cannot send it. *)

#[local] Instance late_stage : Host Stage := {|
  host_provider := staged;
  has_image_service := false;
  image_capabilities p := (p, Err (ProviderError "none"));
  discover p := (p, DiscoveryFailed);
  project_rules _ _ := Ok [];
  elapsed _ p := negb (bool_decide (ran_on p = []));
  started_now _ := "2026-01-01T00:00:00Z";
  now_rfc3339 _ := "2026-01-01T00:00:00Z";
  fresh_request_id p := (p, "request");
  ask_approval := ask_approval (Host := stage);
  ask_questions _ p := (p, None);
  arrivals p := (p, []);
  platform_context := "Linux";
  format_started s := s
|}.

Definition late_run : Turn Stage * result AxiomError bool :=
  @run _ late_stage _ _ _ _ _ _ _ _ sample_config {["look" := look]} sample_context "What is in a.txt?" 5 sample_start.

Definition late_restart : Turn Stage * result AxiomError unit :=
  restore_session sample_config "s"
    (turn_journal (emitted (en_world (tn_engine late_run.1))) (AppErrorRaised (Some "t") "late")) (staged_turn []).

Example cut_turns_leave_open_calls :
  late_run.2 = Err (ProviderError "agent turn exceeded its 900-second wall-clock budget") /\
  late_restart.2 = Ok tt /\
  (role <$> default [] (en_histories (tn_engine late_restart.1) !! "s"))
    = [System; User; Assistant; System; System] /\
  open_calls [] (default [] (en_histories (tn_engine late_restart.1) !! "s")) = None.
Proof. by vm_compute. Qed.
