(* ===== verification/Redact.v ===== *)
(** Redaction (apps/axiomcli/src/audit.rs): what is removed from texts and JSON
    values before they are stored.

    A text is cut after each of its blanks; a piece whose token looks like a
    credential, or follows the token [bearer], is replaced. *)

From stdpp Require Import base gmap strings list.
From Stdlib Require Import ZArith NArith Lia ZifyBool ZifyN ZifyNat.
From S2P Require Import Prelude RustStr Json.

Local Open Scope Z_scope.

(** ** Texts *)

(** [str::split_inclusive]. *)
Fixpoint split_inclusive (p : N -> bool) (l : list N) : list (list N) :=
  match l with
  | [] => []
  | c :: l =>
    if p c then [c] :: split_inclusive p l
    else match split_inclusive p l with
         | [] => [[c]]
         | piece :: pieces => (c :: piece) :: pieces
         end
  end.

(** [trim_end_matches(char::is_whitespace)], and what it takes away. *)
Definition trim_end (l : list N) : list N := reverse (drop_while is_whitespace (reverse l)).
Definition token_of (piece : list N) : string := utf8_encode (trim_end piece).

Definition is_wrapping (c : N) : bool := bool_decide (c ∈ [34; 39; 96; 40; 41; 91; 93; 44; 59]%N).

Definition secret_prefixes : list string := ["axm_"; "sk-"; "ghp_"; "github_pat_"].

(** More than eight bytes follow the first occurrence of the prefix. *)
Definition holds_secret (token prefix : string) : bool :=
  match split_once prefix token with Some (_, rest) => 8 <? len rest | None => false end.
Definition looks_like_secret (token : string) : bool :=
  existsb (holds_secret (trim_matches is_wrapping token)) secret_prefixes.

Definition is_bearer (token : string) : bool := bool_decide (to_ascii_lowercase token = "bearer").

Definition redacted : string := "[REDACTED]".

Fixpoint redact_pieces (redact_next : bool) (pieces : list (list N)) : list (list N) :=
  match pieces with
  | [] => []
  | piece :: pieces =>
    (if redact_next || looks_like_secret (token_of piece)
     then chars redacted ++ drop (length (trim_end piece)) piece
     else piece) :: redact_pieces (is_bearer (token_of piece)) pieces
  end.

Definition redact_text (input : string) : string :=
  utf8_encode (mjoin (redact_pieces false (split_inclusive is_whitespace (chars input)))).

(** ** Values *)

Definition secret_keys : list string :=
  ["api_key"; "apikey"; "authorization"; "cookie"; "encryption_key"; "password"; "private_key";
   "secret"; "token"].
Definition secret_suffixes : list string :=
  ["_api_key"; "_apikey"; "_authorization"; "_cookie"; "_encryption_key"; "_password";
   "_private_key"; "_secret"; "_token"].

Definition dashes (s : string) : string :=
  of_bytes ((fun b => if (b =? 45)%N then 95%N else b) <$> bytes s).
Definition is_secret_key (key : string) : bool :=
  let key := dashes (to_ascii_lowercase key) in
  bool_decide (key ∈ secret_keys) || existsb (fun suffix => ends_with suffix key) secret_suffixes.

Fixpoint redact_value (v : Value) : Value :=
  match v with
  | VObject members =>
    VObject ((fix all l :=
                match l with
                | [] => []
                | (k, w) :: l =>
                  (k, if is_secret_key k then VString redacted else redact_value w) :: all l
                end) members)
  | VArray l => VArray ((fix all l := match l with [] => [] | w :: l => redact_value w :: all l end) l)
  | VString s => VString (redact_text s)
  | VNull | VBool _ | VNumber _ => v
  end.

Example inline_secrets :
  redact_text "use axm_123456789abcdef and Bearer abcdefghijklmnop now"
  = "use [REDACTED] and Bearer [REDACTED] now".
Proof. by vm_compute. Qed.

(** The prefixes are found inside of words as well, and one blank too many takes the
    place of the token after [Bearer]. *)
Example words_are_redacted :
  redact_text "split task-management from disk-utilization" = "split [REDACTED] from [REDACTED]"
  /\ redact_text "Bearer  hunter2hunter2" = "Bearer [REDACTED] hunter2hunter2".
Proof. split; by vm_compute. Qed.

(** ** What redaction leaves *)

Definition tokens (s : string) : list string := token_of <$> split_inclusive is_whitespace (chars s).

(** No token looks like a secret, and the one after [bearer] is the replacement. *)
Fixpoint clean_tokens (after_bearer : bool) (l : list string) : bool :=
  match l with
  | [] => true
  | t :: l =>
    (negb after_bearer || bool_decide (t = redacted)) && negb (looks_like_secret t)
    && clean_tokens (is_bearer t) l
  end.
Definition clean_text (s : string) : bool := clean_tokens false (tokens s).

Fixpoint clean_value (v : Value) : bool :=
  match v with
  | VObject members =>
    (fix all l :=
       match l with
       | [] => true
       | (k, w) :: l =>
         (if is_secret_key k then match w with VString s => bool_decide (s = redacted) | _ => false end
          else clean_value w) && all l
       end) members
  | VArray l => (fix all l := match l with [] => true | w :: l => clean_value w && all l end) l
  | VString s => clean_text s
  | VNull | VBool _ | VNumber _ => true
  end.

(** ** Cutting a text *)

Definition blank (c : N) : Prop := is_whitespace c = true.
Definition solid (t : list N) : Prop := Forall (fun c => is_whitespace c = false) t.

Inductive Cut : list (list N) -> Prop :=
| Cut_nil : Cut []
| Cut_last t : t <> [] -> solid t -> Cut [t]
| Cut_more t c l : solid t -> blank c -> Cut l -> Cut ((t ++ [c]) :: l).
#[local] Hint Constructors Cut : core.

Lemma split_inclusive_Cut l : Cut (split_inclusive is_whitespace l).
Proof.
  induction l as [|c l IH]; cbn; [done|]. destruct (is_whitespace c) eqn:Hc.
  - apply (Cut_more [] c); [constructor|exact Hc|exact IH].
  - assert (Hs : solid [c]) by by repeat constructor.
    destruct IH as [|t Ht Hsolid|t w rest Hsolid Hw Hrest]; [by constructor| |].
    + constructor; [done|]. by constructor.
    + apply (Cut_more (c :: t) w); [by constructor|done..].
Qed.

Lemma join_split_inclusive l : mjoin (split_inclusive is_whitespace l) = l.
Proof.
  induction l as [|c l IH]; cbn; [done|]. destruct (is_whitespace c); cbn; [by f_equal|].
  destruct (split_inclusive is_whitespace l) as [|piece pieces]; cbn in *; by subst.
Qed.

Lemma split_solid t l :
  t <> [] -> solid t ->
  split_inclusive is_whitespace (t ++ l)
  = match split_inclusive is_whitespace l with [] => [t] | piece :: pieces => (t ++ piece) :: pieces end.
Proof.
  intros Hne Ht. induction Ht as [|c t Hc Ht IH]; [done|]. cbn. rewrite Hc.
  destruct t as [|d t]; [done|]. rewrite IH by done.
  by destruct (split_inclusive is_whitespace l).
Qed.

Lemma split_join_Cut pieces : Cut pieces -> split_inclusive is_whitespace (mjoin pieces) = pieces.
Proof.
  induction 1 as [|t Hne Ht|t c l Ht Hc Hl IH]; [done|..].
  - cbn [mjoin list_join]. by rewrite split_solid.
  - change (mjoin ((t ++ [c]) :: l)) with ((t ++ [c]) ++ mjoin l). rewrite <- app_assoc.
    assert (Hs : split_inclusive is_whitespace ([c] ++ mjoin l) = [c] :: l)
      by (cbn; rewrite Hc; by rewrite IH).
    destruct t as [|d t]; [exact Hs|]. rewrite split_solid by done. by rewrite Hs.
Qed.

Lemma drop_while_solid t : solid t -> drop_while is_whitespace t = t.
Proof. by intros [|c t' Hc _]; cbn; rewrite ?Hc. Qed.

Lemma solid_reverse t : solid t -> solid (reverse t).
Proof. intros Ht. by apply Forall_reverse. Qed.

Lemma trim_end_solid t : solid t -> trim_end t = t.
Proof.
  intros Ht. unfold trim_end. rewrite drop_while_solid by by apply solid_reverse. apply reverse_involutive.
Qed.

Lemma trim_end_blank t c : solid t -> blank c -> trim_end (t ++ [c]) = t.
Proof.
  intros Ht Hc. unfold trim_end. rewrite reverse_app. cbn. rewrite Hc.
  rewrite drop_while_solid by by apply solid_reverse. apply reverse_involutive.
Qed.

(** ** Redaction of pieces *)

Definition replacement : list N := chars redacted.

Lemma replacement_solid : solid replacement.
Proof. vm_compute. repeat constructor. Qed.
Lemma replacement_scalar : Forall scalar replacement.
Proof. apply chars_scalar. Qed.
Lemma replacement_token : utf8_encode replacement = redacted.
Proof. by vm_compute. Qed.
Lemma redacted_plain : looks_like_secret redacted = false /\ is_bearer redacted = false.
Proof. split; by vm_compute. Qed.

(** One piece: its token, and what replaces it. *)
Lemma redacted_piece (b : bool) piece l :
  Cut (piece :: l) ->
  let piece' := if b then replacement ++ drop (length (trim_end piece)) piece else piece in
  (forall l', Cut l' -> (l = [] -> l' = []) -> Cut (piece' :: l'))
  /\ token_of piece' = if b then redacted else token_of piece.
Proof.
  intros H. cbv zeta.
  inversion H as [|t Hne Ht E|t c l0 Ht Hc Hl E]; subst.
  - rewrite trim_end_solid by done. rewrite drop_all, app_nil_r. split.
    + intros l' Hl' E. rewrite E by done. destruct b; [|done]. constructor; [done|]. apply replacement_solid.
    + destruct b; [|done]. unfold token_of. rewrite trim_end_solid by apply replacement_solid.
      apply replacement_token.
  - rewrite trim_end_blank by done. rewrite drop_app_length. split.
    + intros l' Hl' _. destruct b; constructor; try done. apply replacement_solid.
    + destruct b; [|done]. unfold token_of. rewrite trim_end_blank by (done || apply replacement_solid).
      apply replacement_token.
Qed.

Lemma Cut_tail piece l : Cut (piece :: l) -> Cut l.
Proof. by inversion 1. Qed.

Lemma redact_pieces_Cut b l : Cut l -> Cut (redact_pieces b l).
Proof.
  revert b. induction l as [|piece l IH]; intros b H; [done|]. cbn [redact_pieces].
  apply (redacted_piece _ _ _ H); [by apply IH, (Cut_tail piece)|]. by intros ->.
Qed.

Lemma redact_pieces_clean (b b' : bool) l :
  Cut l -> (b' = true -> b = true) -> clean_tokens b' (token_of <$> redact_pieces b l) = true.
Proof.
  revert b b'. induction l as [|piece l IH]; intros b b' H Hb; [done|].
  cbn [redact_pieces fmap list_fmap clean_tokens]. change (chars redacted) with replacement.
  destruct (redacted_piece (b || looks_like_secret (token_of piece)) _ _ H) as [_ Ht]. rewrite Ht.
  destruct redacted_plain as [R1 R2]. pose proof (Cut_tail _ _ H) as Hl.
  destruct (b || looks_like_secret (token_of piece)) eqn:Hr.
  - rewrite R1, R2, bool_decide_true, orb_true_r by done. cbn. by apply IH.
  - apply orb_false_iff in Hr as [-> ->]. destruct b'; [by specialize (Hb eq_refl)|]. cbn. by apply IH.
Qed.

Lemma clean_pieces_fixed b l :
  Cut l -> Forall (Forall scalar) l -> clean_tokens b (token_of <$> l) = true -> redact_pieces b l = l.
Proof.
  revert b. induction l as [|piece l IH]; intros b H Hu Hc; [done|].
  inversion Hu as [|? ? Hp Hl]; subst. cbn [fmap list_fmap clean_tokens] in Hc.
  apply andb_true_iff in Hc as [[Hb Hs]%andb_true_iff Hc]. apply negb_true_iff in Hs.
  cbn [redact_pieces]. rewrite Hs, orb_false_r. f_equal; [|apply IH; [by apply (Cut_tail piece)|done..]].
  destruct b; [|done]. cbn in Hb. apply bool_decide_eq_true in Hb.
  assert (Ht : trim_end piece = replacement).
  { unfold token_of in Hb. rewrite <- replacement_token in Hb.
    assert (Hsc : Forall scalar (trim_end piece)).
    { inversion H as [|t Hne Ht|t c l0 Ht Hw _]; subst; [by rewrite trim_end_solid|].
      rewrite trim_end_blank by done. by apply Forall_app in Hp as [? _]. }
    apply (f_equal utf8_decode) in Hb. rewrite !utf8_decode_encode in Hb by (done || apply replacement_scalar).
    by injection Hb. }
  rewrite Ht. inversion H as [|t Hne Hsolid|t c l0 Hsolid Hw _]; subst.
  - rewrite trim_end_solid in Ht by done. subst. by rewrite drop_all, app_nil_r.
  - rewrite trim_end_blank in Ht by done. subst. by rewrite drop_app_length.
Qed.

(** ** Redaction of texts and values *)

Lemma Forall_mjoin {A} (P : A -> Prop) (l : list (list A)) : Forall P (mjoin l) <-> Forall (Forall P) l.
Proof.
  induction l as [|x l IH]; [split; constructor|].
  change (mjoin (x :: l)) with (x ++ mjoin l). by rewrite Forall_app, Forall_cons, IH.
Qed.

Lemma split_scalar cs : Forall scalar cs -> Forall (Forall scalar) (split_inclusive is_whitespace cs).
Proof. intros H. apply Forall_mjoin. by rewrite join_split_inclusive. Qed.

Lemma redact_pieces_scalar b l : Forall (Forall scalar) l -> Forall (Forall scalar) (redact_pieces b l).
Proof.
  intros H. revert b. induction H as [|piece l Hp Hl IH]; intros b; cbn; constructor; [|done].
  destruct (b || _); [|done]. apply Forall_app. split; [apply replacement_scalar|by apply Forall_drop].
Qed.

Lemma redacted_tokens s :
  split_inclusive is_whitespace (chars (redact_text s))
  = redact_pieces false (split_inclusive is_whitespace (chars s)).
Proof.
  unfold redact_text. rewrite chars_encode.
  - apply split_join_Cut, redact_pieces_Cut, split_inclusive_Cut.
  - apply Forall_mjoin, redact_pieces_scalar, split_scalar, chars_scalar.
Qed.

Lemma redact_text_clean s : clean_text (redact_text s) = true.
Proof.
  unfold clean_text, tokens. rewrite redacted_tokens. apply redact_pieces_clean; [|done].
  apply split_inclusive_Cut.
Qed.

Lemma clean_text_fixed s : valid_utf8 s = true -> clean_text s = true -> redact_text s = s.
Proof.
  intros Hv Hc. unfold redact_text. rewrite clean_pieces_fixed.
  - rewrite join_split_inclusive. unfold chars, valid_utf8 in *.
    destruct (utf8_decode s) as [cs|] eqn:Hs; [|done]. by apply utf8_encode_decode in Hs as [? _].
  - apply split_inclusive_Cut.
  - apply split_scalar, chars_scalar.
  - done.
Qed.

Lemma encode_valid cs : Forall scalar cs -> valid_utf8 (utf8_encode cs) = true.
Proof. intros H. unfold valid_utf8. by rewrite utf8_decode_encode. Qed.

Lemma redact_text_valid s : valid_utf8 (redact_text s) = true.
Proof.
  apply encode_valid, Forall_mjoin, redact_pieces_scalar, split_scalar, chars_scalar.
Qed.

Lemma redact_text_idempotent s : redact_text (redact_text s) = redact_text s.
Proof. apply clean_text_fixed; [apply redact_text_valid|apply redact_text_clean]. Qed.

(** Induction on a value and the values inside of it. *)
Lemma Value_nested_ind (P : Value -> Prop) :
  P VNull -> (forall b, P (VBool b)) -> (forall n, P (VNumber n)) -> (forall s, P (VString s)) ->
  (forall l, Forall P l -> P (VArray l)) ->
  (forall members, Forall (fun m => P m.2) members -> P (VObject members)) ->
  forall v, P v.
Proof.
  intros H0 H1 H2 H3 H4 H5. fix go 1. intros [| | | |l|members]; [done|auto..| |].
  - apply H4. induction l as [|w l IH]; constructor; [apply go|apply IH].
  - apply H5. induction members as [|[k w] members IH]; constructor; [apply go|apply IH].
Qed.

Lemma redact_value_clean v : clean_value (redact_value v) = true.
Proof.
  induction v as [| | |s|l IH|members IH] using Value_nested_ind; cbn; try done.
  - apply redact_text_clean.
  - induction IH as [|w l Hw _ IH]; [done|]. by rewrite Hw.
  - induction IH as [|[k w] l Hw _ IH]; [done|]. cbn [snd] in Hw. destruct (is_secret_key k) eqn:Hk;
      rewrite ?Hw, IH; [by rewrite bool_decide_true|done].
Qed.

Lemma redact_value_idempotent v : redact_value (redact_value v) = redact_value v.
Proof.
  induction v as [| | |s|l IH|members IH] using Value_nested_ind; cbn; try done.
  - by rewrite redact_text_idempotent.
  - f_equal. induction IH as [|w l Hw _ IH]; [done|]. by rewrite Hw, IH.
  - f_equal. induction IH as [|[k w] l Hw _ IH]; [done|]. cbn [snd] in Hw. rewrite IH.
    destruct (is_secret_key k); [done|]. by rewrite Hw.
Qed.
