(* ===== verification/Tables.v ===== *)
(** The tables of the session store (apps/axiomcli/src/session: schema.sql, records.rs,
    codec.rs) and the statements that run on them.

    A table is the list of its rows in the order of their rowids.  A statement reads or
    changes the tables at once, checks the constraints of the schema, and may fail for
    reasons of the system; a transaction that fails, or whose commit fails, leaves the
    tables as they were.  A column of JSON text is the value it encodes: only
    [encode_metadata] and SQLite's own JSON functions write it.  A path column is the
    path its bytes are. *)

From stdpp Require Import base gmap strings list.
From Stdlib Require Import ZArith NArith Lia ZifyBool ZifyN ZifyNat.
From S2P Require Import Prelude RustStr Json Accounting Attachments Paths AppError Policy Models Kernel Redact.

Local Open Scope Z_scope.

(** ** Vocabulary *)

Inductive ThreadLifecycle : Type :=
| LcReady | LcRunning | LcWaitingForApproval | LcWaitingForAnswer | LcCompacting | LcClosed.
Inductive TurnStatus : Type := TsRunning | TsCompleted | TsCancelled | TsFailed | TsInterrupted.
Inductive TimelineItemKind : Type :=
| KUserMessage | KAssistantMessage | KReasoning | KToolCall | KPlan | KNotice.
Inductive TimelineItemStatus : Type :=
| IsPending | IsInProgress | IsCompleted | IsCancelled | IsFailed | IsInterrupted.

#[export] Instance ThreadLifecycle_eq_dec : EqDecision ThreadLifecycle.
Proof. solve_decision. Defined.
#[export] Instance TurnStatus_eq_dec : EqDecision TurnStatus.
Proof. solve_decision. Defined.
#[export] Instance TimelineItemKind_eq_dec : EqDecision TimelineItemKind.
Proof. solve_decision. Defined.
#[export] Instance TimelineItemStatus_eq_dec : EqDecision TimelineItemStatus.
Proof. solve_decision. Defined.

Definition lifecycle_name (l : ThreadLifecycle) : string :=
  match l with
  | LcReady => "ready" | LcRunning => "running" | LcWaitingForApproval => "waiting_for_approval"
  | LcWaitingForAnswer => "waiting_for_answer" | LcCompacting => "compacting" | LcClosed => "closed"
  end.
Definition turn_status_name (s : TurnStatus) : string :=
  match s with
  | TsRunning => "running" | TsCompleted => "completed" | TsCancelled => "cancelled"
  | TsFailed => "failed" | TsInterrupted => "interrupted"
  end.
Definition kind_name (k : TimelineItemKind) : string :=
  match k with
  | KUserMessage => "user_message" | KAssistantMessage => "assistant_message"
  | KReasoning => "reasoning" | KToolCall => "tool_call" | KPlan => "plan" | KNotice => "notice"
  end.
Definition status_name (s : TimelineItemStatus) : string :=
  match s with
  | IsPending => "pending" | IsInProgress => "in_progress" | IsCompleted => "completed"
  | IsCancelled => "cancelled" | IsFailed => "failed" | IsInterrupted => "interrupted"
  end.

(** The constructor of that name. *)
Definition from_name {A} (type : string) (names : A -> string) (all : list A) (value : string)
    : result AxiomError A :=
  ok_or (List.find (fun a => bool_decide (names a = value)) all)
    (StorageError ("invalid " +:+ type +:+ " value `" +:+ value +:+ "` in local state")).

Definition lifecycle_from_str : string -> result AxiomError ThreadLifecycle :=
  from_name "ThreadLifecycle" lifecycle_name
    [LcReady; LcRunning; LcWaitingForApproval; LcWaitingForAnswer; LcCompacting; LcClosed].
Definition turn_status_from_str : string -> result AxiomError TurnStatus :=
  from_name "TurnStatus" turn_status_name [TsRunning; TsCompleted; TsCancelled; TsFailed; TsInterrupted].
Definition kind_from_str : string -> result AxiomError TimelineItemKind :=
  from_name "TimelineItemKind" kind_name
    [KUserMessage; KAssistantMessage; KReasoning; KToolCall; KPlan; KNotice].
Definition status_from_str : string -> result AxiomError TimelineItemStatus :=
  from_name "TimelineItemStatus" status_name
    [IsPending; IsInProgress; IsCompleted; IsCancelled; IsFailed; IsInterrupted].

Definition origin_name (o : Origin) : string :=
  match o with Tui => "tui" | Acp => "acp" | Headless => "headless" | TestOrigin => "test" end.
Definition origin_from_name (value : string) : result AxiomError Origin :=
  ok_or (List.find (fun o => bool_decide (origin_name o = value)) [Tui; Acp; Headless; TestOrigin])
    (StorageError ("invalid origin `" +:+ value +:+ "` in local state")).

Definition profile_name (p : PermissionProfile) : string :=
  match p with
  | ProfileNone => "none" | ProfileWeb => "web" | Observe => "observe" | Confirm => "confirm"
  | FullAccess => "full_access"
  end.
Definition profile_from_str (value : string) : result AxiomError PermissionProfile :=
  ok_or (List.find (fun p => bool_decide (profile_name p = value))
           [ProfileNone; ProfileWeb; Observe; Confirm; FullAccess])
    (ConfigError ("unknown permission profile `" +:+ value +:+ "`")).

Definition thinking_name (l : ThinkingLevel) : string :=
  match l with
  | LevelProviderDefault => "provider_default" | LevelEnabled => "enabled"
  | LevelDisabled => "disabled" | LevelMinimal => "minimal" | LevelLow => "low"
  | LevelMedium => "medium" | LevelHigh => "high" | LevelExtraHigh => "xhigh"
  end.
Definition thinking_from_str (value : string) : result AxiomError ThinkingLevel :=
  if bool_decide (value = "on") then Ok LevelEnabled
  else if bool_decide (value = "off") then Ok LevelDisabled
  else ok_or (List.find (fun l => bool_decide (thinking_name l = value))
                [LevelProviderDefault; LevelEnabled; LevelDisabled; LevelMinimal; LevelLow;
                 LevelMedium; LevelHigh; LevelExtraHigh])
         (ConfigError ("unknown thinking level `" +:+ value +:+ "`")).

(** ** Rows *)

Record ThreadRow : Type := {
  th_id : string;
  th_title : option string;
  th_cwd : Path;
  th_cwd_encoding : string;
  th_origin : string;
  th_profile : string;
  th_selected_model : option string;
  th_thinking_level : string;
  th_lifecycle : string;
  th_archived : bool;
  th_revision : Z;
  th_next_sequence : Z;
  th_last_message_at : option string;
  th_last_user_message_at : option string;
  th_last_reported_usage : option ContextUsage;
  th_desktop_agent_settings : option DesktopAgentSettings;
  th_title_generation_id : option string;
  th_created_at : string;
  th_updated_at : string
}.
Definition th_set_lifecycle (lifecycle : string) (r : ThreadRow) : ThreadRow :=
  {| th_id := th_id r; th_title := th_title r; th_cwd := th_cwd r;
     th_cwd_encoding := th_cwd_encoding r; th_origin := th_origin r;
     th_profile := th_profile r; th_selected_model := th_selected_model r;
     th_thinking_level := th_thinking_level r; th_lifecycle := lifecycle;
     th_archived := th_archived r; th_revision := th_revision r;
     th_next_sequence := th_next_sequence r; th_last_message_at := th_last_message_at r;
     th_last_user_message_at := th_last_user_message_at r;
     th_last_reported_usage := th_last_reported_usage r;
     th_desktop_agent_settings := th_desktop_agent_settings r;
     th_title_generation_id := th_title_generation_id r; th_created_at := th_created_at r;
     th_updated_at := th_updated_at r |}.
Definition th_set_sequence (next_sequence : Z) (r : ThreadRow) : ThreadRow :=
  {| th_id := th_id r; th_title := th_title r; th_cwd := th_cwd r;
     th_cwd_encoding := th_cwd_encoding r; th_origin := th_origin r;
     th_profile := th_profile r; th_selected_model := th_selected_model r;
     th_thinking_level := th_thinking_level r; th_lifecycle := th_lifecycle r;
     th_archived := th_archived r; th_revision := th_revision r;
     th_next_sequence := next_sequence; th_last_message_at := th_last_message_at r;
     th_last_user_message_at := th_last_user_message_at r;
     th_last_reported_usage := th_last_reported_usage r;
     th_desktop_agent_settings := th_desktop_agent_settings r;
     th_title_generation_id := th_title_generation_id r; th_created_at := th_created_at r;
     th_updated_at := th_updated_at r |}.
Definition th_set_revision (revision : Z) (updated_at : string) (r : ThreadRow) : ThreadRow :=
  {| th_id := th_id r; th_title := th_title r; th_cwd := th_cwd r;
     th_cwd_encoding := th_cwd_encoding r; th_origin := th_origin r;
     th_profile := th_profile r; th_selected_model := th_selected_model r;
     th_thinking_level := th_thinking_level r; th_lifecycle := th_lifecycle r;
     th_archived := th_archived r; th_revision := revision;
     th_next_sequence := th_next_sequence r; th_last_message_at := th_last_message_at r;
     th_last_user_message_at := th_last_user_message_at r;
     th_last_reported_usage := th_last_reported_usage r;
     th_desktop_agent_settings := th_desktop_agent_settings r;
     th_title_generation_id := th_title_generation_id r; th_created_at := th_created_at r;
     th_updated_at := updated_at |}.
Definition th_set_message_at (last_message_at : option string) (r : ThreadRow) : ThreadRow :=
  {| th_id := th_id r; th_title := th_title r; th_cwd := th_cwd r;
     th_cwd_encoding := th_cwd_encoding r; th_origin := th_origin r;
     th_profile := th_profile r; th_selected_model := th_selected_model r;
     th_thinking_level := th_thinking_level r; th_lifecycle := th_lifecycle r;
     th_archived := th_archived r; th_revision := th_revision r;
     th_next_sequence := th_next_sequence r; th_last_message_at := last_message_at;
     th_last_user_message_at := th_last_user_message_at r;
     th_last_reported_usage := th_last_reported_usage r;
     th_desktop_agent_settings := th_desktop_agent_settings r;
     th_title_generation_id := th_title_generation_id r; th_created_at := th_created_at r;
     th_updated_at := th_updated_at r |}.
Definition th_set_user_message_at (last_user_message_at : option string) (r : ThreadRow) : ThreadRow :=
  {| th_id := th_id r; th_title := th_title r; th_cwd := th_cwd r;
     th_cwd_encoding := th_cwd_encoding r; th_origin := th_origin r;
     th_profile := th_profile r; th_selected_model := th_selected_model r;
     th_thinking_level := th_thinking_level r; th_lifecycle := th_lifecycle r;
     th_archived := th_archived r; th_revision := th_revision r;
     th_next_sequence := th_next_sequence r; th_last_message_at := th_last_message_at r;
     th_last_user_message_at := last_user_message_at;
     th_last_reported_usage := th_last_reported_usage r;
     th_desktop_agent_settings := th_desktop_agent_settings r;
     th_title_generation_id := th_title_generation_id r; th_created_at := th_created_at r;
     th_updated_at := th_updated_at r |}.
Definition th_set_scope (cwd : Path) (cwd_encoding : string) (origin : string) (profile : string) (r : ThreadRow) : ThreadRow :=
  {| th_id := th_id r; th_title := th_title r; th_cwd := cwd; th_cwd_encoding := cwd_encoding;
     th_origin := origin; th_profile := profile; th_selected_model := th_selected_model r;
     th_thinking_level := th_thinking_level r; th_lifecycle := th_lifecycle r;
     th_archived := th_archived r; th_revision := th_revision r;
     th_next_sequence := th_next_sequence r; th_last_message_at := th_last_message_at r;
     th_last_user_message_at := th_last_user_message_at r;
     th_last_reported_usage := th_last_reported_usage r;
     th_desktop_agent_settings := th_desktop_agent_settings r;
     th_title_generation_id := th_title_generation_id r; th_created_at := th_created_at r;
     th_updated_at := th_updated_at r |}.
Definition th_set_agent (desktop_agent_settings : option DesktopAgentSettings) (r : ThreadRow) : ThreadRow :=
  {| th_id := th_id r; th_title := th_title r; th_cwd := th_cwd r;
     th_cwd_encoding := th_cwd_encoding r; th_origin := th_origin r;
     th_profile := th_profile r; th_selected_model := th_selected_model r;
     th_thinking_level := th_thinking_level r; th_lifecycle := th_lifecycle r;
     th_archived := th_archived r; th_revision := th_revision r;
     th_next_sequence := th_next_sequence r; th_last_message_at := th_last_message_at r;
     th_last_user_message_at := th_last_user_message_at r;
     th_last_reported_usage := th_last_reported_usage r;
     th_desktop_agent_settings := desktop_agent_settings;
     th_title_generation_id := th_title_generation_id r; th_created_at := th_created_at r;
     th_updated_at := th_updated_at r |}.
Definition th_set_model (selected_model : option string) (r : ThreadRow) : ThreadRow :=
  {| th_id := th_id r; th_title := th_title r; th_cwd := th_cwd r;
     th_cwd_encoding := th_cwd_encoding r; th_origin := th_origin r;
     th_profile := th_profile r; th_selected_model := selected_model;
     th_thinking_level := th_thinking_level r; th_lifecycle := th_lifecycle r;
     th_archived := th_archived r; th_revision := th_revision r;
     th_next_sequence := th_next_sequence r; th_last_message_at := th_last_message_at r;
     th_last_user_message_at := th_last_user_message_at r;
     th_last_reported_usage := th_last_reported_usage r;
     th_desktop_agent_settings := th_desktop_agent_settings r;
     th_title_generation_id := th_title_generation_id r; th_created_at := th_created_at r;
     th_updated_at := th_updated_at r |}.
Definition th_set_thinking (thinking_level : string) (r : ThreadRow) : ThreadRow :=
  {| th_id := th_id r; th_title := th_title r; th_cwd := th_cwd r;
     th_cwd_encoding := th_cwd_encoding r; th_origin := th_origin r;
     th_profile := th_profile r; th_selected_model := th_selected_model r;
     th_thinking_level := thinking_level; th_lifecycle := th_lifecycle r;
     th_archived := th_archived r; th_revision := th_revision r;
     th_next_sequence := th_next_sequence r; th_last_message_at := th_last_message_at r;
     th_last_user_message_at := th_last_user_message_at r;
     th_last_reported_usage := th_last_reported_usage r;
     th_desktop_agent_settings := th_desktop_agent_settings r;
     th_title_generation_id := th_title_generation_id r; th_created_at := th_created_at r;
     th_updated_at := th_updated_at r |}.
Definition th_set_usage (last_reported_usage : option ContextUsage) (r : ThreadRow) : ThreadRow :=
  {| th_id := th_id r; th_title := th_title r; th_cwd := th_cwd r;
     th_cwd_encoding := th_cwd_encoding r; th_origin := th_origin r;
     th_profile := th_profile r; th_selected_model := th_selected_model r;
     th_thinking_level := th_thinking_level r; th_lifecycle := th_lifecycle r;
     th_archived := th_archived r; th_revision := th_revision r;
     th_next_sequence := th_next_sequence r; th_last_message_at := th_last_message_at r;
     th_last_user_message_at := th_last_user_message_at r;
     th_last_reported_usage := last_reported_usage;
     th_desktop_agent_settings := th_desktop_agent_settings r;
     th_title_generation_id := th_title_generation_id r; th_created_at := th_created_at r;
     th_updated_at := th_updated_at r |}.
Definition th_set_title (title : option string) (title_generation_id : option string) (r : ThreadRow) : ThreadRow :=
  {| th_id := th_id r; th_title := title; th_cwd := th_cwd r;
     th_cwd_encoding := th_cwd_encoding r; th_origin := th_origin r;
     th_profile := th_profile r; th_selected_model := th_selected_model r;
     th_thinking_level := th_thinking_level r; th_lifecycle := th_lifecycle r;
     th_archived := th_archived r; th_revision := th_revision r;
     th_next_sequence := th_next_sequence r; th_last_message_at := th_last_message_at r;
     th_last_user_message_at := th_last_user_message_at r;
     th_last_reported_usage := th_last_reported_usage r;
     th_desktop_agent_settings := th_desktop_agent_settings r;
     th_title_generation_id := title_generation_id; th_created_at := th_created_at r;
     th_updated_at := th_updated_at r |}.
Definition th_set_archived (archived : bool) (r : ThreadRow) : ThreadRow :=
  {| th_id := th_id r; th_title := th_title r; th_cwd := th_cwd r;
     th_cwd_encoding := th_cwd_encoding r; th_origin := th_origin r;
     th_profile := th_profile r; th_selected_model := th_selected_model r;
     th_thinking_level := th_thinking_level r; th_lifecycle := th_lifecycle r;
     th_archived := archived; th_revision := th_revision r;
     th_next_sequence := th_next_sequence r; th_last_message_at := th_last_message_at r;
     th_last_user_message_at := th_last_user_message_at r;
     th_last_reported_usage := th_last_reported_usage r;
     th_desktop_agent_settings := th_desktop_agent_settings r;
     th_title_generation_id := th_title_generation_id r; th_created_at := th_created_at r;
     th_updated_at := th_updated_at r |}.

Record TurnRow : Type := {
  tu_thread_id : string;
  tu_id : string;
  tu_status : string;
  tu_user_item_id : option string;
  tu_assistant_item_id : option string;
  tu_input_tokens : Z;
  tu_output_tokens : Z;
  tu_error : option string;
  tu_started_at : string;
  tu_completed_at : option string
}.
Definition tu_set_status (status : string) (r : TurnRow) : TurnRow :=
  {| tu_thread_id := tu_thread_id r; tu_id := tu_id r; tu_status := status;
     tu_user_item_id := tu_user_item_id r; tu_assistant_item_id := tu_assistant_item_id r;
     tu_input_tokens := tu_input_tokens r; tu_output_tokens := tu_output_tokens r;
     tu_error := tu_error r; tu_started_at := tu_started_at r;
     tu_completed_at := tu_completed_at r |}.
Definition tu_set_tokens (input_tokens : Z) (output_tokens : Z) (r : TurnRow) : TurnRow :=
  {| tu_thread_id := tu_thread_id r; tu_id := tu_id r; tu_status := tu_status r;
     tu_user_item_id := tu_user_item_id r; tu_assistant_item_id := tu_assistant_item_id r;
     tu_input_tokens := input_tokens; tu_output_tokens := output_tokens;
     tu_error := tu_error r; tu_started_at := tu_started_at r;
     tu_completed_at := tu_completed_at r |}.
Definition tu_finish (status : string) (error : option string) (completed_at : option string) (r : TurnRow) : TurnRow :=
  {| tu_thread_id := tu_thread_id r; tu_id := tu_id r; tu_status := status;
     tu_user_item_id := tu_user_item_id r; tu_assistant_item_id := tu_assistant_item_id r;
     tu_input_tokens := tu_input_tokens r; tu_output_tokens := tu_output_tokens r;
     tu_error := error; tu_started_at := tu_started_at r; tu_completed_at := completed_at |}.

Record ItemRow : Type := {
  ti_id : string;
  ti_thread_id : string;
  ti_turn_id : option string;
  ti_sequence : Z;
  ti_kind : string;
  ti_status : string;
  ti_client_item_id : option string;
  ti_external_id : option string;
  ti_content : string;
  ti_metadata : Value;
  ti_created_at : string;
  ti_updated_at : string
}.
Definition ti_set_turn (turn_id : option string) (r : ItemRow) : ItemRow :=
  {| ti_id := ti_id r; ti_thread_id := ti_thread_id r; ti_turn_id := turn_id;
     ti_sequence := ti_sequence r; ti_kind := ti_kind r; ti_status := ti_status r;
     ti_client_item_id := ti_client_item_id r; ti_external_id := ti_external_id r;
     ti_content := ti_content r; ti_metadata := ti_metadata r;
     ti_created_at := ti_created_at r; ti_updated_at := ti_updated_at r |}.
Definition ti_set_status (status : string) (r : ItemRow) : ItemRow :=
  {| ti_id := ti_id r; ti_thread_id := ti_thread_id r; ti_turn_id := ti_turn_id r;
     ti_sequence := ti_sequence r; ti_kind := ti_kind r; ti_status := status;
     ti_client_item_id := ti_client_item_id r; ti_external_id := ti_external_id r;
     ti_content := ti_content r; ti_metadata := ti_metadata r;
     ti_created_at := ti_created_at r; ti_updated_at := ti_updated_at r |}.
Definition ti_set_content (content : string) (r : ItemRow) : ItemRow :=
  {| ti_id := ti_id r; ti_thread_id := ti_thread_id r; ti_turn_id := ti_turn_id r;
     ti_sequence := ti_sequence r; ti_kind := ti_kind r; ti_status := ti_status r;
     ti_client_item_id := ti_client_item_id r; ti_external_id := ti_external_id r;
     ti_content := content; ti_metadata := ti_metadata r; ti_created_at := ti_created_at r;
     ti_updated_at := ti_updated_at r |}.
Definition ti_set_metadata (metadata : Value) (r : ItemRow) : ItemRow :=
  {| ti_id := ti_id r; ti_thread_id := ti_thread_id r; ti_turn_id := ti_turn_id r;
     ti_sequence := ti_sequence r; ti_kind := ti_kind r; ti_status := ti_status r;
     ti_client_item_id := ti_client_item_id r; ti_external_id := ti_external_id r;
     ti_content := ti_content r; ti_metadata := metadata; ti_created_at := ti_created_at r;
     ti_updated_at := ti_updated_at r |}.
Definition ti_set_updated (updated_at : string) (r : ItemRow) : ItemRow :=
  {| ti_id := ti_id r; ti_thread_id := ti_thread_id r; ti_turn_id := ti_turn_id r;
     ti_sequence := ti_sequence r; ti_kind := ti_kind r; ti_status := ti_status r;
     ti_client_item_id := ti_client_item_id r; ti_external_id := ti_external_id r;
     ti_content := ti_content r; ti_metadata := ti_metadata r;
     ti_created_at := ti_created_at r; ti_updated_at := updated_at |}.

Record AttachmentRow : Type := { pa_item : string; pa_payload : list PromptAttachment }.
Record UsageRow : Type := { ru_id : string; ru_thread_id : string; ru_record : RequestUsage }.
Definition ru_set_record (record : RequestUsage) (r : UsageRow) : UsageRow :=
  {| ru_id := ru_id r; ru_thread_id := ru_thread_id r; ru_record := record |}.
Record PreferencesRow : Type := {
  pr_model : option string; pr_thinking : string; pr_updated_at : string
}.
Record CollectionRow : Type := {
  co_id : string; co_name : string; co_collapsed : bool; co_position : Z;
  co_created_at : string; co_updated_at : string
}.
Record AssignmentRow : Type := {
  as_thread_id : string; as_collection_id : string; as_assigned_at : string
}.

(** ** The database and its statements *)

Record Db : Type := {
  db_threads : list ThreadRow;
  db_turns : list TurnRow;
  db_items : list ItemRow;
  db_attachments : list AttachmentRow;
  db_usage : list UsageRow;
  db_preferences : PreferencesRow;
  db_collections : list CollectionRow;
  db_assignments : list AssignmentRow;
  db_collection_revision : Z
}.
Definition db_set_threads (threads : list ThreadRow) (r : Db) : Db :=
  {| db_threads := threads; db_turns := db_turns r; db_items := db_items r;
     db_attachments := db_attachments r; db_usage := db_usage r;
     db_preferences := db_preferences r; db_collections := db_collections r;
     db_assignments := db_assignments r; db_collection_revision := db_collection_revision r |}.
Definition db_set_turns (turns : list TurnRow) (r : Db) : Db :=
  {| db_threads := db_threads r; db_turns := turns; db_items := db_items r;
     db_attachments := db_attachments r; db_usage := db_usage r;
     db_preferences := db_preferences r; db_collections := db_collections r;
     db_assignments := db_assignments r; db_collection_revision := db_collection_revision r |}.
Definition db_set_items (items : list ItemRow) (r : Db) : Db :=
  {| db_threads := db_threads r; db_turns := db_turns r; db_items := items;
     db_attachments := db_attachments r; db_usage := db_usage r;
     db_preferences := db_preferences r; db_collections := db_collections r;
     db_assignments := db_assignments r; db_collection_revision := db_collection_revision r |}.
Definition db_set_attachments (attachments : list AttachmentRow) (r : Db) : Db :=
  {| db_threads := db_threads r; db_turns := db_turns r; db_items := db_items r;
     db_attachments := attachments; db_usage := db_usage r;
     db_preferences := db_preferences r; db_collections := db_collections r;
     db_assignments := db_assignments r; db_collection_revision := db_collection_revision r |}.
Definition db_set_usage (usage : list UsageRow) (r : Db) : Db :=
  {| db_threads := db_threads r; db_turns := db_turns r; db_items := db_items r;
     db_attachments := db_attachments r; db_usage := usage;
     db_preferences := db_preferences r; db_collections := db_collections r;
     db_assignments := db_assignments r; db_collection_revision := db_collection_revision r |}.
Definition db_set_preferences (preferences : PreferencesRow) (r : Db) : Db :=
  {| db_threads := db_threads r; db_turns := db_turns r; db_items := db_items r;
     db_attachments := db_attachments r; db_usage := db_usage r;
     db_preferences := preferences; db_collections := db_collections r;
     db_assignments := db_assignments r; db_collection_revision := db_collection_revision r |}.
Definition db_set_collections (collections : list CollectionRow) (r : Db) : Db :=
  {| db_threads := db_threads r; db_turns := db_turns r; db_items := db_items r;
     db_attachments := db_attachments r; db_usage := db_usage r;
     db_preferences := db_preferences r; db_collections := collections;
     db_assignments := db_assignments r; db_collection_revision := db_collection_revision r |}.
Definition db_set_assignments (assignments : list AssignmentRow) (r : Db) : Db :=
  {| db_threads := db_threads r; db_turns := db_turns r; db_items := db_items r;
     db_attachments := db_attachments r; db_usage := db_usage r;
     db_preferences := db_preferences r; db_collections := db_collections r;
     db_assignments := assignments; db_collection_revision := db_collection_revision r |}.
Definition db_set_collection_revision (collection_revision : Z) (r : Db) : Db :=
  {| db_threads := db_threads r; db_turns := db_turns r; db_items := db_items r;
     db_attachments := db_attachments r; db_usage := db_usage r;
     db_preferences := db_preferences r; db_collections := db_collections r;
     db_assignments := db_assignments r; db_collection_revision := collection_revision |}.

(** A connection: the tables, what the system makes of the next statements, and the
    streams behind [Uuid::new_v4] and [Utc::now]. *)
Record Conn : Type := {
  cn_db : Db;
  cn_faults : list (option string);
  cn_uuid : nat -> string;
  cn_drawn : nat;
  cn_clock : nat -> string;
  cn_ticks : nat
}.
Definition cn_set_db (db : Db) (c : Conn) : Conn :=
  {| cn_db := db; cn_faults := cn_faults c; cn_uuid := cn_uuid c; cn_drawn := cn_drawn c;
     cn_clock := cn_clock c; cn_ticks := cn_ticks c |}.

Abbreviation Sql := (M Conn AxiomError).

Definition new_uuid : Sql string := fun c =>
  ({| cn_db := cn_db c; cn_faults := cn_faults c; cn_uuid := cn_uuid c; cn_drawn := S (cn_drawn c);
      cn_clock := cn_clock c; cn_ticks := cn_ticks c |}, Ok (cn_uuid c (cn_drawn c))).
Definition utc_now : Sql string := fun c =>
  ({| cn_db := cn_db c; cn_faults := cn_faults c; cn_uuid := cn_uuid c; cn_drawn := cn_drawn c;
      cn_clock := cn_clock c; cn_ticks := S (cn_ticks c) |}, Ok (cn_clock c (cn_ticks c))).

(** One statement: the system refuses it, or it does what it says. *)
Definition statement {A} (f : Db -> result string (Db * A)) : Sql A := fun c =>
  let c' := {| cn_db := cn_db c; cn_faults := tail (cn_faults c); cn_uuid := cn_uuid c;
               cn_drawn := cn_drawn c; cn_clock := cn_clock c; cn_ticks := cn_ticks c |} in
  match head (cn_faults c) with
  | Some (Some m) => (c', Err (StorageError m))
  | _ =>
    match f (cn_db c) with
    | Ok (d, a) => (cn_set_db d c', Ok a)
    | Err m => (c', Err (StorageError m))
    end
  end.

Definition query {A} (f : Db -> A) : Sql A := statement (fun d => Ok (d, f d)).

(** [BEGIN], the body and [COMMIT]; dropping the transaction rolls it back. *)
Definition begun_committed {A} (body : Sql A) : Sql A :=
  _ ← query (fun _ => tt); a ← body; _ ← query (fun _ => tt); mret a.
Definition transaction {A} (body : Sql A) : Sql A := fun c =>
  match begun_committed body c with
  | (c', Ok a) => (c', Ok a)
  | (c', Err e) => (cn_set_db (cn_db c) c', Err e)
  end.

(** [UPDATE ... WHERE p] and the number of rows it matched. *)
Definition update_where {R} (p : R -> bool) (f : R -> R) (l : list R) : list R :=
  (fun r => if p r then f r else r) <$> l.
Definition matched {R} (p : R -> bool) (l : list R) : nat := length (List.filter p l).

Definition update_threads (p : ThreadRow -> bool) (f : ThreadRow -> ThreadRow) : Sql nat :=
  statement (fun d => Ok (db_set_threads (update_where p f (db_threads d)) d, matched p (db_threads d))).
Definition update_turns (p : TurnRow -> bool) (f : TurnRow -> TurnRow) : Sql nat :=
  statement (fun d => Ok (db_set_turns (update_where p f (db_turns d)) d, matched p (db_turns d))).
Definition update_items (p : ItemRow -> bool) (f : ItemRow -> ItemRow) : Sql nat :=
  statement (fun d => Ok (db_set_items (update_where p f (db_items d)) d, matched p (db_items d))).
Definition update_usage (p : UsageRow -> bool) (f : UsageRow -> UsageRow) : Sql nat :=
  statement (fun d => Ok (db_set_usage (update_where p f (db_usage d)) d, matched p (db_usage d))).

Definition has_thread (id : string) (d : Db) : bool :=
  existsb (fun r => bool_decide (th_id r = id)) (db_threads d).

Definition foreign_key : string := "FOREIGN KEY constraint failed".
Definition unique (columns : string) : string := "UNIQUE constraint failed: " +:+ columns.

(** Constraints of [timeline_items]. *)
Definition item_conflict (r : ItemRow) (d : Db) : option string :=
  if existsb (fun o => bool_decide (ti_id o = ti_id r)) (db_items d) then Some (unique "timeline_items.id")
  else if existsb (fun o => bool_decide (ti_thread_id o = ti_thread_id r /\ ti_sequence o = ti_sequence r))
            (db_items d)
  then Some (unique "timeline_items.thread_id, timeline_items.sequence")
  else if existsb (fun o => bool_decide (ti_thread_id o = ti_thread_id r
                                         /\ ti_client_item_id o = ti_client_item_id r
                                         /\ ti_client_item_id r <> None)) (db_items d)
  then Some (unique "timeline_items.thread_id, timeline_items.client_item_id")
  else if negb (0 <? ti_sequence r) then Some "CHECK constraint failed: sequence > 0"
  else if negb (has_thread (ti_thread_id r) d) then Some foreign_key
  else None.

Definition insert_item (r : ItemRow) : Sql unit :=
  statement (fun d => match item_conflict r d with
                      | Some m => Err m
                      | None => Ok (db_set_items (db_items d ++ [r]) d, tt)
                      end).

Definition insert_thread (r : ThreadRow) : Sql unit :=
  statement (fun d => if has_thread (th_id r) d then Err (unique "threads.id")
                      else Ok (db_set_threads (db_threads d ++ [r]) d, tt)).

Definition same_turn (thread turn : string) (r : TurnRow) : bool :=
  bool_decide (tu_thread_id r = thread) && bool_decide (tu_id r = turn).

Definition insert_turn (r : TurnRow) : Sql unit :=
  statement (fun d =>
    if existsb (same_turn (tu_thread_id r) (tu_id r)) (db_turns d)
    then Err (unique "turns.thread_id, turns.id")
    else if negb (has_thread (tu_thread_id r) d) then Err foreign_key
    else Ok (db_set_turns (db_turns d ++ [r]) d, tt)).

(** [INSERT ... ON CONFLICT(thread_id, id) DO UPDATE SET status='running']. *)
Definition upsert_turn (r : TurnRow) : Sql unit :=
  statement (fun d =>
    if existsb (same_turn (tu_thread_id r) (tu_id r)) (db_turns d)
    then Ok (db_set_turns (update_where (same_turn (tu_thread_id r) (tu_id r))
                             (tu_set_status (turn_status_name TsRunning)) (db_turns d)) d, tt)
    else if negb (has_thread (tu_thread_id r) d) then Err foreign_key
    else Ok (db_set_turns (db_turns d ++ [r]) d, tt)).

Definition insert_attachments (r : AttachmentRow) : Sql unit :=
  statement (fun d =>
    if existsb (fun o => bool_decide (pa_item o = pa_item r)) (db_attachments d)
    then Err (unique "prompt_attachments.user_item_id")
    else if negb (existsb (fun o => bool_decide (ti_id o = pa_item r)) (db_items d)) then Err foreign_key
    else Ok (db_set_attachments (db_attachments d ++ [r]) d, tt)).

(** [INSERT ... ON CONFLICT(request_id) DO UPDATE ... WHERE thread_id=excluded.thread_id]. *)
Definition upsert_usage (r : UsageRow) : Sql unit :=
  statement (fun d =>
    if existsb (fun o => bool_decide (ru_id o = ru_id r)) (db_usage d)
    then Ok (db_set_usage
               (update_where (fun o => bool_decide (ru_id o = ru_id r)
                                       && bool_decide (ru_thread_id o = ru_thread_id r))
                  (ru_set_record (ru_record r)) (db_usage d)) d, tt)
    else if negb (has_thread (ru_thread_id r) d) then Err foreign_key
    else Ok (db_set_usage (db_usage d ++ [r]) d, tt)).

(** ** Codecs (codec.rs) *)

(** chrono: the text of an instant, with all its digits or to the millisecond, its
    milliseconds since the epoch, and the instant of a text. *)
Class Chrono : Type := {
  to_rfc3339 : string -> string;
  to_rfc3339_millis : string -> string;
  timestamp_millis : string -> string;
  parse_rfc3339 : string -> option string
}.

Definition MAX_CLIENT_ITEM_ID_BYTES : Z := 512.

Definition model_error : AxiomError :=
  StorageError "model must be a non-empty model ID without whitespace".
Definition validate_model (model : string) : result AxiomError string :=
  let model := trim model in
  if is_empty model || (256 <? len model) || existsb is_whitespace (chars model)
  then Err model_error else Ok model.

Definition client_item_id_error : AxiomError :=
  StorageError ("client item ID must contain 1 to " +:+ to_decimal MAX_CLIENT_ITEM_ID_BYTES
                +:+ " non-whitespace bytes").
Definition validate_client_item_id (value : string) : result AxiomError string :=
  let value := trim value in
  if is_empty value || (MAX_CLIENT_ITEM_ID_BYTES <? len value) || existsb is_whitespace (chars value)
  then Err client_item_id_error else Ok value.

(** [json!(...)] is redacted before it is written. *)
Definition encode_metadata (metadata : Value) : Value := redact_value metadata.

Definition checked_i64 (value : Z) (label : string) : result AxiomError Z :=
  if value <=? I64_MAX then Ok value
  else Err (StorageError (label +:+ " exceeds SQLite integer range")).
Definition checked_u64 (value : Z) (label : string) : result AxiomError Z :=
  if 0 <=? value then Ok value else Err (StorageError (label +:+ " is negative")).

(** On Unix a path is its bytes. *)
Definition encode_path (p : Path) : string * Path := ("unix_bytes", p).
Definition decode_path (encoding : string) (p : Path) : result AxiomError Path :=
  if negb (bool_decide (encoding = "unix_bytes"))
  then Err (StorageError ("workspace path encoding `" +:+ encoding +:+ "` belongs to another platform"))
  else Ok p.

(** [json_extract(column, '$.key')]: the other types never equal a text. *)
Inductive Extract : Type := ExNull | ExText (s : string) | ExOther.
Definition json_extract (key : string) (v : Value) : Extract :=
  match value_get key v with
  | None | Some VNull => ExNull
  | Some (VString s) => ExText s
  | Some _ => ExOther
  end.
#[export] Instance Extract_eq_dec : EqDecision Extract.
Proof. solve_decision. Defined.
Definition extract_of (o : option string) : Extract :=
  match o with Some s => ExText s | None => ExNull end.

(** [json_set] and [json_remove] of a member: no effect on what is not an object. *)
Definition json_set (key : string) (v : Value) (column : Value) : Value :=
  match column with VObject m => VObject (map_insert key v m) | _ => column end.
Definition json_remove (key : string) (column : Value) : Value :=
  match column with VObject m => VObject (map_remove key m) | _ => column end.

(** [value[key] = v]: a null becomes an object, anything else that is none panics. *)
Definition index_panic : AxiomError := StorageError "cannot access key of a value that is no object".
Definition index_set (key : string) (v : Value) (column : Value) : result AxiomError Value :=
  match column with
  | VObject m => Ok (VObject (map_insert key v m))
  | VNull => Ok (VObject [(key, v)])
  | _ => Err index_panic
  end.
(** [value[key]]. *)
Definition index_get (key : string) (v : Value) : Value := default VNull (value_get key v).
