(* ===== verification/Timeline.v ===== *)
(** Timeline writes of the session store (apps/axiomcli/src/session/timeline.rs): the
    items of a thread, the state of its turns, and the revision of a conversation. *)

From stdpp Require Import base gmap strings list.
From Stdlib Require Import ZArith NArith QArith Lia ZifyBool ZifyN ZifyNat.
From S2P Require Import Prelude RustStr Json Accounting Attachments Paths AppError Policy Models Kernel Redact Tables.

Local Open Scope Z_scope.

(** [json!({...})]. *)
Definition json_object (l : list (string * Value)) : Value :=
  VObject (foldr (fun kv m => map_insert kv.1 kv.2 m) [] l).
Definition json_opt {A} (f : A -> Value) (o : option A) : Value :=
  match o with Some a => f a | None => VNull end.

(** ** Conditions of the statements *)

Definition of_thread (thread : string) (r : ThreadRow) : bool := bool_decide (th_id r = thread).
Definition item_of (thread : string) (r : ItemRow) : bool := bool_decide (ti_thread_id r = thread).
Definition item_in_turn (thread turn : string) (r : ItemRow) : bool :=
  item_of thread r && bool_decide (ti_turn_id r = Some turn).
Definition is_kind (k : TimelineItemKind) (r : ItemRow) : bool := bool_decide (ti_kind r = kind_name k).
Definition is_open (r : ItemRow) : bool :=
  bool_decide (ti_status r = status_name IsPending) || bool_decide (ti_status r = status_name IsInProgress).
Definition item_is (id : string) (r : ItemRow) : bool := bool_decide (ti_id r = id).
Definition turn_running (thread : string) (r : TurnRow) : bool :=
  bool_decide (tu_thread_id r = thread) && bool_decide (tu_status r = turn_status_name TsRunning).
Definition usage_running (u : RequestUsage) : bool :=
  match state u with Accounting.Running => true | _ => false end.
Definition usage_conversation (u : RequestUsage) : bool :=
  match purpose u with Accounting.Conversation => true | _ => false end.
Definition usage_in_turn (thread turn : string) (r : UsageRow) : bool :=
  bool_decide (ru_thread_id r = thread) && bool_decide (turn_id (ru_record r) = Some turn).

(** [SELECT ... ORDER BY sequence DESC LIMIT 1]. *)
Definition latest_item (p : ItemRow -> bool) (d : Db) : option ItemRow :=
  head (sort_by (fun a b => ti_sequence b <=? ti_sequence a) (List.filter p (db_items d))).

(** ** Threads *)

Definition ensure_thread (id : string) : Sql unit :=
  exists_ ← query (has_thread id);
  if (exists_ : bool) then mret tt else throw (SessionNotFound id).

Record ThreadRevision : Type := {
  tr_revision : Z;
  tr_last_sequence : Z;
  tr_last_message_at : option string;
  tr_last_user_message_at : option string;
  tr_item_id : option string
}.

Definition find_thread (id : string) (d : Db) : option ThreadRow := List.find (of_thread id) (db_threads d).

Definition query_thread_revision (id : string) : Sql ThreadRevision :=
  row ← query (find_thread id);
  match row with
  | None => throw (SessionNotFound id)
  | Some r =>
    if (th_revision r <? 0) || (th_next_sequence r <? 0)
    then throw (StorageError "out of range integral type conversion attempted")
    else mret {| tr_revision := th_revision r; tr_last_sequence := th_next_sequence r;
                 tr_last_message_at := th_last_message_at r;
                 tr_last_user_message_at := th_last_user_message_at r; tr_item_id := None |}
  end.

Definition set_thread_lifecycle (thread : string) (l : ThreadLifecycle) : Sql unit :=
  changed ← update_threads (of_thread thread) (th_set_lifecycle (lifecycle_name l));
  if bool_decide (changed = 0%nat) then throw (SessionNotFound thread) else mret tt.

(** ** Items *)

Record TimelineItemWrite : Type := {
  tw_turn_id : option string;
  tw_kind : TimelineItemKind;
  tw_status : TimelineItemStatus;
  tw_client_item_id : option string;
  tw_external_id : option string;
  tw_content : string;
  tw_metadata : Value;
  tw_now : string
}.

Definition item_row (id thread : string) (sequence : Z) (w : TimelineItemWrite) : ItemRow :=
  {| ti_id := id; ti_thread_id := thread; ti_turn_id := tw_turn_id w; ti_sequence := sequence;
     ti_kind := kind_name (tw_kind w); ti_status := status_name (tw_status w);
     ti_client_item_id := tw_client_item_id w; ti_external_id := tw_external_id w;
     ti_content := tw_content w; ti_metadata := encode_metadata (tw_metadata w);
     ti_created_at := tw_now w; ti_updated_at := tw_now w |}.

Definition no_rows : AxiomError := StorageError "Query returned no rows".

Definition insert_timeline_item (thread : string) (w : TimelineItemWrite) : Sql (string * Z) :=
  changed ← update_threads (of_thread thread) (fun r => th_set_sequence (th_next_sequence r + 1) r);
  if bool_decide (changed = 0%nat) then throw (SessionNotFound thread) else
  row ← query (find_thread thread);
  match row with
  | None => throw no_rows
  | Some r =>
    let sequence := th_next_sequence r in
    id ← new_uuid;
    _ ← insert_item (item_row id thread sequence w);
    sequence ← lift (checked_u64 sequence "timeline sequence");
    mret (id, sequence)
  end.

Definition external_item (thread : string) (k : TimelineItemKind) (external : string) (r : ItemRow) : bool :=
  item_of thread r && is_kind k r && bool_decide (ti_external_id r = Some external).

Definition find_external_item (thread : string) (k : TimelineItemKind) (external : string)
    : Sql (option string) :=
  query (fun d => ti_id <$> latest_item (external_item thread k external) d).

Definition find_any_external_item (thread external : string) : Sql (option string) :=
  query (fun d => ti_id <$> latest_item
                    (fun r => item_of thread r && bool_decide (ti_external_id r = Some external)) d).

Definition upsert_timeline_item (thread : string) (w : TimelineItemWrite) : Sql string :=
  found ← match tw_external_id w with
          | Some external => find_external_item thread (tw_kind w) external
          | None => mret None
          end;
  match found with
  | Some id =>
    _ ← update_items (item_is id) (fun r =>
          ti_set_turn (first_some (ti_turn_id r) (tw_turn_id w))
            (ti_set_status (status_name (tw_status w))
               (ti_set_content (tw_content w)
                  (ti_set_metadata (encode_metadata (tw_metadata w)) (ti_set_updated (tw_now w) r)))));
    mret id
  | None => r ← insert_timeline_item thread w; mret r.1
  end.

Definition ensure_external_item (thread : string) (turn : option string) (k : TimelineItemKind)
    (external : string) (metadata : Value) (now : string) : Sql string :=
  found ← find_external_item thread k external;
  match found with
  | Some id => mret id
  | None =>
    r ← insert_timeline_item thread
          {| tw_turn_id := turn; tw_kind := k; tw_status := IsPending; tw_client_item_id := None;
             tw_external_id := Some external; tw_content := EmptyString; tw_metadata := metadata;
             tw_now := now |};
    mret r.1
  end.

Definition item_metadata (id : string) : Sql Value :=
  row ← query (fun d => List.find (item_is id) (db_items d));
  match row with Some r => mret (ti_metadata r) | None => throw no_rows end.

(** ** Streamed content *)

(** The request under way in the turn, by the order of the rows. *)
Definition running_request (thread turn : string) (d : Db) : option string :=
  ru_id <$> last (List.filter (fun r => usage_in_turn thread turn r && usage_conversation (ru_record r)
                                        && usage_running (ru_record r)) (db_usage d)).

(** [COALESCE(json_extract(metadata, '$.terminal_verified'), 0)=0]. *)
Definition unverified (v : Value) : bool :=
  match value_get "terminal_verified" v with
  | None | Some VNull | Some (VBool false) => true
  | Some (VNumber (PosInt n)) | Some (VNumber (NegInt n)) => n =? 0
  | Some (VNumber (Float x)) => f64_eq x 0%Q
  | Some _ => false
  end.

(** The sequence after which a message of the turn may grow. *)
Definition message_floor (thread turn : string) (d : Db) : Z :=
  match ti_sequence <$> List.filter (fun r => item_in_turn thread turn r
                                              && (is_kind KToolCall r || is_kind KUserMessage r)) (db_items d) with
  | [] => 0
  | n :: l => foldr Z.max n l
  end.

Definition growing (thread turn : string) (k : TimelineItemKind) (request : option string) (d : Db)
    (r : ItemRow) : bool :=
  item_in_turn thread turn r && is_kind k r && unverified (ti_metadata r) && is_open r
  && bool_decide (json_extract "request_id" (ti_metadata r) = extract_of request)
  && (message_floor thread turn d <? ti_sequence r).

Definition append_turn_content (thread turn : string) (k : TimelineItemKind) (content now : string)
    : Sql unit :=
  request ← query (running_request thread turn);
  existing ← query (fun d => ti_id <$> latest_item (growing thread turn k request d) d);
  id ← match existing with
       | Some id => mret id
       | None =>
         r ← insert_timeline_item thread
               {| tw_turn_id := Some turn; tw_kind := k; tw_status := IsInProgress;
                  tw_client_item_id := None; tw_external_id := None; tw_content := EmptyString;
                  tw_metadata := json_object [("request_id", json_opt VString request)]; tw_now := now |};
         mret r.1
       end;
  _ ← update_items (item_is id) (fun r =>
        ti_set_content (ti_content r +:+ content)
          (ti_set_status (status_name IsInProgress)
             (ti_set_metadata (json_remove "terminalVerified" (json_remove "terminal_verified" (ti_metadata r)))
                (ti_set_updated now r))));
  mret tt.

(** The running turn that started last. *)
Definition latest_turn_le (a b : TurnRow) : bool :=
  if bool_decide (tu_started_at a = tu_started_at b)
  then bytes_leb (bytes (tu_id b)) (bytes (tu_id a))
  else bytes_leb (bytes (tu_started_at b)) (bytes (tu_started_at a)).
Definition active_turn (thread : string) (d : Db) : option string :=
  tu_id <$> head (sort_by latest_turn_le (List.filter (turn_running thread) (db_turns d))).
Definition active_turn_id (thread : string) : Sql (option string) := query (active_turn thread).

(** ** Verification and resolution *)

Definition no_object : AxiomError := StorageError "timeline metadata must be a JSON object".

Definition verify_item (now : string) (x : string * Value) : Sql unit :=
  match x.2 with
  | VObject m =>
    _ ← update_items (item_is x.1) (fun r =>
          ti_set_metadata (encode_metadata (VObject (map_insert "terminal_verified" (VBool true) m)))
            (ti_set_updated now r));
    mret tt
  | _ => throw no_object
  end.

Definition mark_response_verified (thread turn now : string) : Sql unit :=
  has_requests ← query (fun d => existsb (usage_in_turn thread turn) (db_usage d));
  if (has_requests : bool) then mret tt else
  rows ← query (fun d => (fun r => (ti_id r, ti_metadata r)) <$>
           List.filter (fun r => item_in_turn thread turn r
                                 && (is_kind KAssistantMessage r || is_kind KReasoning r)) (db_items d));
  if bool_decide (rows = [])
  then throw (StorageError ("verified response has no assistant timeline item for turn " +:+ turn
                            +:+ " in thread " +:+ thread))
  else iterM (verify_item now) rows.

Definition extend (m fields : Map) : Map := foldl (fun m kv => map_insert kv.1 kv.2 m) m fields.

Definition update_notice_resolution (thread external : string) (fields : Value)
    (status : TimelineItemStatus) (now : string) : Sql unit :=
  found ← find_any_external_item thread external;
  match found with
  | None => mret tt
  | Some id =>
    metadata ← item_metadata id;
    match metadata, fields with
    | VObject m, VObject fields =>
      _ ← update_items (item_is id) (fun r =>
            ti_set_status (status_name status)
              (ti_set_metadata (encode_metadata (VObject (extend m fields))) (ti_set_updated now r)));
      mret tt
    | VObject _, _ => throw (StorageError "timeline resolution must be a JSON object")
    | _, _ => throw no_object
    end
  end.

Definition persist_question (thread request content : string) (metadata : Value) (now : string) : Sql unit :=
  turn ← active_turn_id thread;
  _ ← upsert_timeline_item thread
        {| tw_turn_id := turn; tw_kind := KNotice; tw_status := IsPending; tw_client_item_id := None;
           tw_external_id := Some request; tw_content := content; tw_metadata := metadata; tw_now := now |};
  set_thread_lifecycle thread LcWaitingForAnswer.

Record NoticeWrite : Type := {
  nw_turn_id : option string;
  nw_status : TimelineItemStatus;
  nw_code : string;
  nw_content : string;
  nw_details : Value;
  nw_now : string
}.

Definition insert_notice (thread : string) (n : NoticeWrite) : Sql string :=
  r ← insert_timeline_item thread
        {| tw_turn_id := nw_turn_id n; tw_kind := KNotice; tw_status := nw_status n;
           tw_client_item_id := None; tw_external_id := None; tw_content := nw_content n;
           tw_metadata := json_object [("code", VString (nw_code n)); ("details", nw_details n)];
           tw_now := nw_now n |};
  mret r.1.

(** ** Revisions and the end of a turn *)

Definition revision_conflict : AxiomError :=
  InvalidTransition "The conversation changed. Reload it before editing or regenerating.".
Definition reply_running : AxiomError :=
  InvalidTransition "Stop the current reply before editing or regenerating.".
Definition no_message : AxiomError := InvalidTransition "Choose the message that started this turn.".

(** The sequence of a user message that started a turn. *)
Definition prompt_sequence (thread item : string) (d : Db) : option Z :=
  ti_sequence <$> List.find (fun r =>
    item_of thread r && item_is item r && is_kind KUserMessage r
    && existsb (fun t => bool_decide (tu_thread_id t = ti_thread_id r)
                         && bool_decide (tu_user_item_id t = Some (ti_id r))) (db_turns d)) (db_items d).

Definition from_sequence (thread : string) (sequence : Z) (r : ItemRow) : bool :=
  item_of thread r && (sequence <=? ti_sequence r).

Definition turn_from (thread : string) (sequence : Z) (d : Db) (t : TurnRow) : bool :=
  bool_decide (tu_thread_id t = thread)
  && existsb (fun r => from_sequence thread sequence r && bool_decide (tu_user_item_id t = Some (ti_id r)))
       (db_items d).

(** [ON DELETE CASCADE] of the attachments of an item. *)
Definition drop_items (p : ItemRow -> bool) (d : Db) : Db :=
  db_set_items (List.filter (fun r => negb (p r)) (db_items d))
    (db_set_attachments
       (List.filter (fun a => negb (existsb (fun r => p r && bool_decide (ti_id r = pa_item a)) (db_items d)))
          (db_attachments d)) d).

Section Writes.
Context `{CH : Chrono}.

Definition truncate_for_revision (id item : string) (expected : Z) : Sql unit :=
  revision ← query_thread_revision id;
  if negb (tr_revision revision =? expected) then throw revision_conflict else
  running ← query (fun d => existsb (turn_running id) (db_turns d));
  if (running : bool) then throw reply_running else
  sequence ← query (prompt_sequence id item);
  match sequence with
  | None => throw no_message
  | Some sequence =>
    _ ← statement (fun d =>
          Ok (db_set_turns (List.filter (fun t => negb (turn_from id sequence d t)) (db_turns d)) d, tt));
    _ ← statement (fun d => Ok (drop_items (from_sequence id sequence) d, tt));
    now ← utc_now;
    _ ← update_threads (of_thread id) (fun r =>
          th_set_revision (th_revision r + 1) (to_rfc3339 now) (th_set_usage None r));
    mret tt
  end.

(** The request of a turn that ended without its last report. *)
Definition end_request (s : InvocationState) (code : string) (at_ms : option string) (u : RequestUsage)
    : RequestUsage :=
  {| Accounting.request_id := Accounting.request_id u; model_id := model_id u; provider_id := provider_id u;
     context_window_tokens := context_window_tokens u;
     Accounting.auto_compact_threshold_tokens := Accounting.auto_compact_threshold_tokens u;
     turn_id := turn_id u; purpose := purpose u; state := s; completeness := completeness u;
     input_tokens := input_tokens u; cached_input_tokens := cached_input_tokens u;
     output_tokens := output_tokens u; reasoning_tokens := reasoning_tokens u;
     image_pixels := image_pixels u; image_steps := image_steps u;
     input_image_pixels := input_image_pixels u; cost_microusd := cost_microusd u;
     settled := settled u; response_verified := response_verified u; started_at_ms := started_at_ms u;
     finished_at_ms := first_some at_ms (finished_at_ms u); error_code := Some code;
     finish_reason := finish_reason u |}.

Definition item_status_of (s : TurnStatus) : TimelineItemStatus :=
  match s with
  | TsRunning => IsInProgress | TsCompleted => IsCompleted | TsCancelled => IsCancelled
  | TsFailed => IsFailed | TsInterrupted => IsInterrupted
  end.

Definition end_requests (thread turn : string) (s : TurnStatus) : Sql unit :=
  match s with
  | TsRunning | TsCompleted => mret tt
  | TsCancelled | TsFailed | TsInterrupted =>
    now ← utc_now;
    let '(st, code) := if decide (s = TsCancelled) then (InvocationCancelled, "CANCELLED")
                       else (InvocationFailed, "CLIENT_INTERRUPTED") in
    _ ← update_usage (fun r => usage_in_turn thread turn r && usage_running (ru_record r))
          (fun r => ru_set_record (end_request st code (Some (timestamp_millis now)) (ru_record r)) r);
    mret tt
  end.

Definition finish_turn (thread turn : string) (s : TurnStatus) (error : option string) (now : string)
    : Sql unit :=
  changed ← update_turns (fun r => same_turn thread turn r
                                   && bool_decide (tu_status r = turn_status_name TsRunning))
              (tu_finish (turn_status_name s) error (Some now));
  if bool_decide (changed = 0%nat)
  then throw (StorageError ("turn " +:+ turn +:+ " is not running in thread " +:+ thread)) else
  _ ← end_requests thread turn s;
  _ ← update_items (fun r => item_in_turn thread turn r && is_open r)
        (fun r => ti_set_status (status_name (item_status_of s)) (ti_set_updated now r));
  set_thread_lifecycle thread LcReady.
End Writes.
