(* ===== verification/Events.v ===== *)
(** Events of the application as durable records
    (apps/axiomcli/src/session/events.rs): what each event writes, and the transaction
    around a command's events.

    The translation of structures to JSON and back that serde derives is the class
    [StoreCodec]. *)

From stdpp Require Import base gmap strings list.
From Stdlib Require Import ZArith NArith Lia ZifyBool ZifyN ZifyNat.
From S2P Require Import Prelude RustStr Json Accounting Inference Attachments Paths AppError Policy Models Kernel Redact Tables Timeline.

Local Open Scope Z_scope.

Class StoreCodec : Type := {
  tasks_to_value : list TaskItem -> Value;
  tasks_from_value : Value -> result string (list TaskItem);
  paths_to_value : list Path -> result string Value;
  paths_from_value : Value -> option (list Path);
  diffs_to_value : list FileDiff -> result string Value;
  diffs_from_value : Value -> option (list FileDiff);
  progress_to_value : ImageGenerationProgress -> Value;
  progress_from_value : Value -> option ImageGenerationProgress;
  image_to_value : GeneratedImage -> Value;
  image_from_value : Value -> option GeneratedImage;
  questions_to_value : QuestionRequest -> Value
}.

Definition strings_value (l : list string) : Value := VArray (VString <$> l).
Definition answers_value (l : list (string * list string)) : Value :=
  json_object ((fun kv => (kv.1, strings_value kv.2)) <$> l).
Definition u64_value (n : Z) : Value := VNumber (PosInt n).
Definition security_name (s : SecurityStatus) : string :=
  match s with
  | StUnverified => "unverified" | StVerifying => "verifying"
  | StUnattestedDevelopment => "unattested_development" | StVerified => "verified"
  | StDegraded => "degraded" | StOutdated => "outdated" | StFailed => "failed"
  end.

Definition redacted_json (r : result string Value) : result AxiomError Value :=
  v ← map_err JsonError r; Ok (redact_value v).

(** The metadata of a tool call nobody proposed. *)
Definition unknown_call (name : string) : Value :=
  json_object [("name", VString name); ("arguments", VObject []); ("output_truncated", VBool false);
               ("success", VNull); ("diff", VNull); ("files", VArray [])].

Definition image_tool (name : string) : bool :=
  bool_decide (name ∈ ["generate"; "generate_image"; "edit_image"]).
Definition is_image_call (metadata : Value) : bool :=
  match as_str (index_get "name" metadata) with Some n => image_tool n | None => false end.

Definition or_thread (turn : option string) : string := default "thread" turn.

Definition task_status_of (state : string) : TimelineItemStatus :=
  if bool_decide (state = "completed") then IsCompleted
  else if bool_decide (state = "cancelled") then IsCancelled
  else if starts_with "failed:" state then IsFailed
  else IsInProgress.

Definition max_text (a b : string) : string := if bytes_leb (bytes a) (bytes b) then b else a.

(** An item that waits for nothing more than its content. *)
Definition plain_write (turn : option string) (k : TimelineItemKind) (s : TimelineItemStatus)
    (external : option string) (content : string) (metadata : Value) (now : string) : TimelineItemWrite :=
  {| tw_turn_id := turn; tw_kind := k; tw_status := s; tw_client_item_id := None;
     tw_external_id := external; tw_content := content; tw_metadata := metadata; tw_now := now |}.

Definition set_metadata (id : string) (metadata : Value) (now : string) : Sql unit :=
  _ ← update_items (item_is id) (fun r => ti_set_metadata (encode_metadata metadata) (ti_set_updated now r));
  mret tt.

Section Events.
Context `{CH : Chrono} `{SC : StoreCodec} `{B64 : Base64} `{SJ : SerdeJson}.

Definition persist_created (thread now : string) (cwd : Path) (origin : Origin)
    (profile : PermissionProfile) : Sql unit :=
  let '(encoding, cwd) := encode_path cwd in
  insert_thread
    {| th_id := thread; th_title := None; th_cwd := cwd; th_cwd_encoding := encoding;
       th_origin := origin_name origin; th_profile := profile_name profile; th_selected_model := None;
       th_thinking_level := thinking_name LevelMedium; th_lifecycle := lifecycle_name LcReady;
       th_archived := false; th_revision := 0; th_next_sequence := 0; th_last_message_at := None;
       th_last_user_message_at := None; th_last_reported_usage := None;
       th_desktop_agent_settings := None; th_title_generation_id := None; th_created_at := now;
       th_updated_at := now |}.

Definition persist_resumed (thread : string) (cwd : Path) (origin : Origin) (profile : PermissionProfile)
    : Sql unit :=
  let '(encoding, cwd) := encode_path cwd in
  _ ← ensure_thread thread;
  _ ← update_threads (of_thread thread) (fun r =>
        th_set_scope cwd encoding (origin_name origin) (profile_name profile)
          (th_set_lifecycle (lifecycle_name LcReady) r));
  mret tt.

Definition persist_steering (thread now turn client text : string) : Sql unit :=
  client ← lift (validate_client_item_id client);
  _ ← insert_timeline_item thread
        {| tw_turn_id := Some turn; tw_kind := KUserMessage; tw_status := IsCompleted;
           tw_client_item_id := Some client; tw_external_id := None; tw_content := redact_text text;
           tw_metadata := json_object [("steering", VBool true)]; tw_now := now |};
  mret tt.

Definition persist_prompt (thread now : string) (client : option string) (turn text : string)
    (attachments : list PromptAttachment) : Sql unit :=
  user ← insert_timeline_item thread
           {| tw_turn_id := Some turn; tw_kind := KUserMessage; tw_status := IsCompleted;
              tw_client_item_id := client; tw_external_id := None; tw_content := redact_text text;
              tw_metadata := if bool_decide (attachments = []) then json_object []
                             else json_object [("attachments", VArray (summary <$> attachments))];
              tw_now := now |};
  _ ← (if bool_decide (attachments = []) then mret tt else
       _ ← lift (map_err (fun e => StorageError (validation_display e)) (validate_prompt text attachments));
       insert_attachments {| pa_item := user.1; pa_payload := attachments |});
  assistant ← insert_timeline_item thread
                (plain_write (Some turn) KAssistantMessage IsInProgress None EmptyString (json_object []) now);
  _ ← insert_turn {| tu_thread_id := thread; tu_id := turn; tu_status := turn_status_name TsRunning;
                     tu_user_item_id := Some user.1; tu_assistant_item_id := Some assistant.1;
                     tu_input_tokens := 0; tu_output_tokens := 0; tu_error := None; tu_started_at := now;
                     tu_completed_at := None |};
  _ ← update_threads (of_thread thread) (th_set_lifecycle (lifecycle_name LcRunning));
  mret tt.

Definition persist_started (thread now turn : string) : Sql unit :=
  _ ← ensure_thread thread;
  _ ← upsert_turn {| tu_thread_id := thread; tu_id := turn; tu_status := turn_status_name TsRunning;
                     tu_user_item_id := None; tu_assistant_item_id := None; tu_input_tokens := 0;
                     tu_output_tokens := 0; tu_error := None; tu_started_at := now;
                     tu_completed_at := None |};
  _ ← update_threads (of_thread thread) (th_set_lifecycle (lifecycle_name LcRunning));
  mret tt.

(** The row [PromptAccepted] made, bound to the first request of its turn. *)
Definition bind_placeholder (thread : string) (usage : RequestUsage) : Sql unit :=
  _ ← statement (fun d =>
    let free (r : ItemRow) : bool :=
      match turn_id usage with
      | None => false
      | Some turn =>
        item_in_turn thread turn r && is_kind KAssistantMessage r
        && bool_decide (Some (ti_id r)
                        = List.find (same_turn thread turn) (db_turns d) ≫= tu_assistant_item_id)
        && bool_decide (ti_status r = status_name IsInProgress) && is_empty (ti_content r)
        && bool_decide (json_extract "request_id" (ti_metadata r) = ExNull)
        && negb (existsb (fun u => usage_in_turn thread turn u && usage_conversation (ru_record u)
                                   && negb (bool_decide (ru_id u = Accounting.request_id usage))) (db_usage d))
      end in
    Ok (db_set_items
          (update_where free (fun r => ti_set_metadata
             (json_set "request_id" (VString (Accounting.request_id usage)) (ti_metadata r)) r) (db_items d)) d, tt));
  mret tt.

Definition verify_request (thread now : string) (usage : RequestUsage) : Sql unit :=
  _ ← update_items
        (fun r => item_of thread r
                  && bool_decide (json_extract "request_id" (ti_metadata r) = ExText (Accounting.request_id usage))
                  && (is_kind KAssistantMessage r || is_kind KReasoning r))
        (fun r => ti_set_status (status_name IsCompleted)
           (ti_set_metadata
              (json_set "finish_reason" (json_opt VString (finish_reason usage))
                 (json_set "terminal_verified" (VBool true) (ti_metadata r)))
              (ti_set_updated now r)));
  mret tt.

Definition accounting_error : AxiomError := StorageError "invalid request accounting".

Definition persist_usage (thread now : string) (usage : RequestUsage) : Sql unit :=
  if negb (validate_counters usage) then throw accounting_error else
  _ ← upsert_usage {| ru_id := Accounting.request_id usage; ru_thread_id := thread; ru_record := usage |};
  _ ← (if usage_conversation usage && usage_running usage then bind_placeholder thread usage else mret tt);
  if response_verified usage then verify_request thread now usage else mret tt.

Definition persist_tokens (thread : string) (input output : Z) : Sql unit :=
  turn ← active_turn_id thread;
  match turn with
  | None => mret tt
  | Some turn =>
    input ← lift (checked_i64 input "input token count");
    output ← lift (checked_i64 output "output token count");
    _ ← update_turns (same_turn thread turn) (tu_set_tokens input output);
    mret tt
  end.

Definition persist_progress (thread now message : string) (completed total : option Z) : Sql unit :=
  turn ← active_turn_id thread;
  _ ← upsert_timeline_item thread
        (plain_write turn KNotice IsInProgress (Some ("progress:" +:+ or_thread turn)) (redact_text message)
           (json_object [("code", VString "progress"); ("completed", json_opt u64_value completed);
                         ("total", json_opt u64_value total)]) now);
  mret tt.

Definition persist_tasks (thread now : string) (tasks : list TaskItem) : Sql unit :=
  turn ← active_turn_id thread;
  l ← lift (redacted_json (Ok (tasks_to_value tasks)));
  _ ← upsert_timeline_item thread
        (plain_write turn KPlan IsInProgress (Some ("task-list:" +:+ or_thread turn)) EmptyString
           (json_object [("code", VString "task_list"); ("items", l)]) now);
  mret tt.

Definition persist_proposed (thread now turn call name : string) (arguments : Value) : Sql unit :=
  v ← lift (redacted_json (Ok arguments));
  _ ← upsert_timeline_item thread
        (plain_write (Some turn) KToolCall IsPending (Some call) EmptyString
           (json_object [("name", VString name); ("arguments", v); ("output_truncated", VBool false);
                         ("success", VNull); ("diff", VNull); ("files", VArray [])]) now);
  mret tt.

Definition persist_tool_started (thread now call name : string) : Sql unit :=
  turn ← active_turn_id thread;
  id ← ensure_external_item thread turn KToolCall call (unknown_call name) now;
  _ ← update_items (item_is id) (fun r => ti_set_status (status_name IsInProgress) (ti_set_updated now r));
  mret tt.

Definition persist_output (thread now call content : string) (truncated : bool) : Sql unit :=
  turn ← active_turn_id thread;
  id ← ensure_external_item thread turn KToolCall call (unknown_call "tool") now;
  metadata ← item_metadata id;
  metadata ← lift (index_set "output_truncated" (VBool truncated) metadata);
  _ ← update_items (item_is id) (fun r =>
        ti_set_content (ti_content r +:+ redact_text content)
          (ti_set_metadata (encode_metadata metadata)
             (ti_set_status (status_name IsInProgress) (ti_set_updated now r))));
  mret tt.

Definition owned_by (thread call : string) (why : string) : Sql string :=
  found ← find_external_item thread KToolCall call;
  match found with Some id => mret id | None => throw (StorageError why) end.

Definition persist_image_progress (thread now call : string) (p : ImageGenerationProgress) : Sql unit :=
  id ← owned_by thread call "image progress requires its owning tool";
  metadata ← item_metadata id;
  previous ← match value_get "image_progress" metadata with
             | None => mret None
             | Some v => match progress_from_value v with
                         | Some q => mret (Some q)
                         | None => throw (StorageError "invalid stored image progress")
                         end
             end;
  if negb (is_image_call metadata) || negb (valid_after p previous)
  then throw (StorageError "invalid image progress or tool identity") else
  metadata ← lift (index_set "image_progress" (progress_to_value p) metadata);
  set_metadata id metadata now.

(** The evidence of an image without its data. *)
Definition image_proof (image : GeneratedImage) : result AxiomError Value :=
  match image_to_value image with
  | VObject m => Ok (VObject (map_remove "data" m))
  | _ => Err index_panic
  end.
Definition image_block (image : GeneratedImage) : Value :=
  VArray [json_object [("type", VString "content");
                       ("content", json_object [("type", VString "image");
                                                ("data", VString (gi_data image));
                                                ("mimeType", VString (gi_mime_type image))])]].

Definition persist_image (thread now call : string) (image : GeneratedImage) : Sql unit :=
  id ← owned_by thread call "image requires its owning tool call";
  metadata ← item_metadata id;
  if negb (is_image_call metadata)
     || (if value_get "generated_image" metadata then true else false)
  then throw (StorageError "image tool identity or replay differs") else
  proof ← lift (image_proof image);
  metadata ← lift (index_set "generated_image" proof metadata);
  metadata ← lift (index_set "content" (image_block image) metadata);
  set_metadata id metadata now.

Definition persist_completed (thread now call : string) (success : bool) : Sql unit :=
  found ← find_external_item thread KToolCall call;
  match found with
  | None => mret tt
  | Some id =>
    metadata ← item_metadata id;
    metadata ← lift (index_set "success" (VBool success) metadata);
    _ ← update_items (item_is id) (fun r =>
          ti_set_status (status_name (if success then IsCompleted else IsFailed))
            (ti_set_metadata (encode_metadata metadata) (ti_set_updated now r)));
    mret tt
  end.

Definition persist_diff (thread now call diff : string) (truncated : bool) (files : list FileDiff)
    : Sql unit :=
  turn ← active_turn_id thread;
  id ← ensure_external_item thread turn KToolCall call
         (json_object [("name", VString "tool"); ("arguments", VObject []);
                       ("output_truncated", VBool false); ("success", VNull)]) now;
  metadata ← item_metadata id;
  metadata ← lift (index_set "diff" (VString (redact_text diff)) metadata);
  metadata ← lift (index_set "diff_truncated" (VBool truncated) metadata);
  files ← lift (redacted_json (diffs_to_value files));
  metadata ← lift (index_set "files" files metadata);
  set_metadata id metadata now.

Definition persist_permission (thread now request explanation : string) (effect : Value)
    (choices : list string) : Sql unit :=
  turn ← active_turn_id thread;
  effect ← lift (redacted_json (Ok effect));
  _ ← upsert_timeline_item thread
        (plain_write turn KNotice IsPending (Some request) (redact_text explanation)
           (json_object [("code", VString "permission"); ("effect", effect);
                         ("choices", strings_value choices); ("allowed", VNull)]) now);
  set_thread_lifecycle thread LcWaitingForApproval.

(** An answer to what was asked: the turn goes on. *)
Definition persist_answer (thread now external : string) (fields : Value) (s : TimelineItemStatus)
    : Sql unit :=
  _ ← update_notice_resolution thread external fields s now;
  set_thread_lifecycle thread LcRunning.

Definition persist_plan (thread now plan : string) (revision : Z) (markdown : string) : Sql unit :=
  turn ← active_turn_id thread;
  _ ← upsert_timeline_item thread
        (plain_write turn KPlan IsPending (Some plan) (redact_text markdown)
           (json_object [("code", VString "plan"); ("revision", u64_value revision);
                         ("decision", VNull)]) now);
  mret tt.

Definition persist_background (thread now task state : string) : Sql unit :=
  turn ← active_turn_id thread;
  let s := task_status_of state in
  _ ← upsert_timeline_item thread
        (plain_write turn KToolCall s (Some task) EmptyString
           (json_object [("name", VString "background_process"); ("state", VString (redact_text state));
                         ("arguments", VObject []);
                         ("success", VBool (bool_decide (s = IsCompleted)))]) now);
  mret tt.

Definition notice (turn : option string) (s : TimelineItemStatus) (code content : string)
    (details : Value) (now : string) : NoticeWrite :=
  {| nw_turn_id := turn; nw_status := s; nw_code := code; nw_content := content; nw_details := details;
     nw_now := now |}.

Definition persist_changed (thread now : string) (paths : list Path) : Sql unit :=
  turn ← active_turn_id thread;
  v ← lift (redacted_json (paths_to_value paths));
  _ ← insert_notice thread
        (notice turn IsCompleted "workspace_changed" EmptyString (json_object [("paths", v)]) now);
  mret tt.

Definition agent_busy : AxiomError := InvalidTransition "Agent settings changed or the thread is busy".

Definition persist_agent (thread : string) (settings : DesktopAgentSettings) : Sql unit :=
  let '(encoding, cwd) := encode_path (path_of_string (da_working_directory settings)) in
  expected ← lift (if saturating_sub (da_revision settings) 1 <=? I64_MAX
                   then Ok (saturating_sub (da_revision settings) 1)
                   else Err (StorageError "Agent revision overflow"));
  changed ← update_threads
    (fun r => of_thread thread r && bool_decide (th_lifecycle r = lifecycle_name LcReady)
              && (match th_desktop_agent_settings r with Some s => da_revision s | None => 0 end =? expected))
    (fun r => th_set_scope cwd encoding (th_origin r) (profile_name (for_desktop_agent settings))
                (th_set_agent (Some settings) r));
  if bool_decide (changed = 1%nat) then mret tt else throw agent_busy.

Definition persist_status (thread now external : string) (s : TimelineItemStatus) (content : string)
    (metadata : Value) : Sql unit :=
  _ ← upsert_timeline_item thread (plain_write None KNotice s (Some external) content metadata now);
  mret tt.

Definition persist_warning (thread now message : string) : Sql unit :=
  turn ← active_turn_id thread;
  _ ← insert_notice thread
        (notice turn IsCompleted "warning" (redact_text message) (json_object []) now);
  mret tt.

Definition persist_error (thread now : string) (turn : option string) (message : string) : Sql unit :=
  _ ← match turn with
      | Some turn => finish_turn thread turn TsFailed (Some (redact_text message)) now
      | None => mret tt
      end;
  _ ← insert_notice thread
        (notice turn IsFailed "error" (redact_text message)
           (json_object [("terminal", VBool (if turn then true else false))]) now);
  mret tt.

Definition set_thread (thread : string) (f : ThreadRow -> ThreadRow) : Sql unit :=
  _ ← update_threads (of_thread thread) f; mret tt.

Definition persist_event (x : EventEnvelope) (client : option string) : Sql unit :=
  let thread := ev_session x in
  let now := to_rfc3339 (ev_occurred_at x) in
  match ev_event x with
  | AppSessionCreated cwd origin profile => persist_created thread now cwd origin profile
  | AppSessionResumed cwd origin profile => persist_resumed thread cwd origin profile
  | AppSteeringApplied turn item text => persist_steering thread now turn item text
  | AppPromptAccepted turn text attachments => persist_prompt thread now client turn text attachments
  | AppTurnStarted turn => persist_started thread now turn
  | AppTextDelta turn text => append_turn_content thread turn KAssistantMessage (redact_text text) now
  | AppReasoningDelta turn text => append_turn_content thread turn KReasoning (redact_text text) now
  | AppRequestUsageUpdated usage => persist_usage thread now usage
  | AppContextUsageUpdated usage => set_thread thread (th_set_usage (Some usage))
  | AppUsageUpdated input output => persist_tokens thread input output
  | AppProgressUpdated message completed total => persist_progress thread now message completed total
  | AppTaskListUpdated tasks => persist_tasks thread now tasks
  | AppToolProposed turn call name arguments => persist_proposed thread now turn call name arguments
  | AppToolStarted call name => persist_tool_started thread now call name
  | AppToolOutput call content truncated => persist_output thread now call content truncated
  | AppImageGenerationProgress call p => persist_image_progress thread now call p
  | AppImageGenerated call image => persist_image thread now call image
  | AppToolCompleted call success => persist_completed thread now call success
  | AppDiffAvailable call diff truncated files => persist_diff thread now call diff truncated files
  | AppPermissionRequired request explanation effect choices =>
    persist_permission thread now request explanation effect choices
  | AppPermissionResolved request allowed choice =>
    persist_answer thread now request
      (json_object [("allowed", VBool allowed); ("choice", json_opt VString choice)])
      (if allowed then IsCompleted else IsCancelled)
  | AppQuestionAsked question prompt options =>
    persist_question thread question (redact_text prompt)
      (json_object [("code", VString "question"); ("options", strings_value options)]) now
  | AppQuestionAnswered question answers =>
    persist_answer thread now question
      (json_object [("answers", redact_value (strings_value answers))]) IsCompleted
  | AppQuestionsAsked request =>
    persist_question thread (q_request_id request) EmptyString
      (json_object [("code", VString "questions"); ("request", redact_value (questions_to_value request))]) now
  | AppQuestionsAnswered request answers =>
    persist_answer thread now request
      (json_object [("answers", redact_value (answers_value answers))]) IsCompleted
  | AppQuestionsFailed request reason =>
    persist_answer thread now request (json_object [("reason", VString (redact_text reason))]) IsFailed
  | AppPlanProposed plan revision markdown => persist_plan thread now plan revision markdown
  | AppPlanReviewed plan revision decision =>
    update_notice_resolution thread plan
      (json_object [("revision", u64_value revision); ("decision", VString decision)]) IsCompleted now
  | AppBackgroundTaskChanged task st => persist_background thread now task st
  | AppWorkspaceChanged paths => persist_changed thread now paths
  | AppDesktopAgentConfigured settings => persist_agent thread settings
  | AppPermissionProfileChanged profile =>
    _ ← ensure_thread thread;
    set_thread thread (fun r =>
      th_set_scope (th_cwd r) (th_cwd_encoding r) (th_origin r) (profile_name profile) r)
  | AppModelChanged model =>
    _ ← lift (validate_model model);
    set_thread thread (th_set_model (Some model))
  | AppThinkingLevelChanged level => set_thread thread (th_set_thinking (thinking_name level))
  | AppContextCompacted summary before =>
    _ ← insert_notice thread
          (notice None IsCompleted "context_compacted" (redact_text summary)
             (json_object [("messages_before", u64_value before)]) now);
    mret tt
  | AppProviderStatusChanged connected detail =>
    persist_status thread now "provider-status" (if connected then IsCompleted else IsFailed)
      (redact_text detail)
      (json_object [("code", VString "provider_status"); ("connected", VBool connected)])
  | AppSecurityStatusChanged st =>
    persist_status thread now "security-status" IsCompleted EmptyString
      (json_object [("code", VString "security_status"); ("state", VString (security_name st))])
  | AppSecurityEvidenceUpdated _ => mret tt
  | AppResponseVerified turn => mark_response_verified thread turn now
  | AppWarningRaised message => persist_warning thread now message
  | AppTurnCompleted turn => finish_turn thread turn TsCompleted None now
  | AppTurnCancelled turn => finish_turn thread turn TsCancelled None now
  | AppErrorRaised turn message => persist_error thread now turn message
  | AppSessionClosed => set_thread_lifecycle thread LcClosed
  end.

(** ** The transaction of a command *)

Definition accepts_prompt (x : EventEnvelope) : bool :=
  match ev_event x with AppPromptAccepted _ _ _ => true | _ => false end.
Definition brings_attachments (x : EventEnvelope) : bool :=
  match ev_event x with AppPromptAccepted _ _ (_ :: _) => true | _ => false end.
Definition says_something (x : EventEnvelope) : bool :=
  match ev_event x with
  | AppPromptAccepted _ text _ | AppSteeringApplied _ _ text | AppTextDelta _ text
  | AppReasoningDelta _ text => negb (is_empty text)
  | _ => false
  end.
Definition user_says_something (x : EventEnvelope) : bool :=
  match ev_event x with
  | AppPromptAccepted _ text _ | AppSteeringApplied _ _ text => negb (is_empty text)
  | _ => false
  end.

Definition touch_message (o : option string) (at_ : string) : option string :=
  Some (max_text (default EmptyString o) at_).

Fixpoint persist_all (thread : string) (client : option string) (l : list EventEnvelope) : Sql unit :=
  match l with
  | [] => mret tt
  | x :: l =>
    let at_ := to_rfc3339_millis (ev_occurred_at x) in
    _ ← persist_event x client;
    _ ← (if brings_attachments x || says_something x
         then set_thread thread (fun r => th_set_message_at (touch_message (th_last_message_at r) at_) r)
         else mret tt);
    _ ← (if brings_attachments x || user_says_something x
         then set_thread thread (fun r =>
                th_set_user_message_at (touch_message (th_last_user_message_at r) at_) r)
         else mret tt);
    persist_all thread (if accepts_prompt x then None else client) l
  end.

Record ProfilePreferences : Type := {
  pp_model : option string; pp_thinking : ThinkingLevel; pp_updated_at : string
}.

Definition query_profile_preferences : Sql ProfilePreferences :=
  row ← query db_preferences;
  level ← lift (map_err (fun _ => StorageError ("invalid profile thinking level `" +:+ pr_thinking row
                                                +:+ "` in local state")) (thinking_from_str (pr_thinking row)));
  mret {| pp_model := pr_model row; pp_thinking := level; pp_updated_at := pr_updated_at row |}.

Definition set_preferences (f : PreferencesRow -> PreferencesRow) : Sql unit :=
  statement (fun d => Ok (db_set_preferences (f (db_preferences d)) d, tt)).

Record PromptRevision : Type := { rev_user_item_id : string; rev_expected : Z }.

(** The segment the last delta of a batch grew. *)
Definition changed_segment (thread : string) (x : EventEnvelope) (d : Db) : option string :=
  let segment turn k :=
    ti_id <$> latest_item (fun r => item_in_turn thread turn r && is_kind k r) d in
  match ev_event x with
  | AppTextDelta turn _ => segment turn KAssistantMessage
  | AppReasoningDelta turn _ => segment turn KReasoning
  | _ => None
  end.
Definition streams (x : EventEnvelope) : bool :=
  match ev_event x with AppTextDelta _ _ | AppReasoningDelta _ _ => true | _ => false end.

Definition empty_batch : AxiomError := StorageError "cannot persist an empty runtime update".
Definition mixed_batch : AxiomError := StorageError "one local-state transaction cannot span multiple threads".
Definition stray_client_item : AxiomError :=
  StorageError "a client item ID is valid only for a prompt submission".
Definition no_replacement : AxiomError := InvalidTransition "A revision must include its replacement prompt.".

Definition revise (thread : string) (l : list EventEnvelope) (replacement : option PromptRevision) : Sql unit :=
  match replacement with
  | None => mret tt
  | Some rev =>
    if negb (existsb accepts_prompt l) then throw no_replacement
    else truncate_for_revision thread (rev_user_item_id rev) (rev_expected rev)
  end.

Definition bump_revision (thread now : string) : Sql unit :=
  changed ← update_threads (of_thread thread) (fun r => th_set_revision (th_revision r + 1) now r);
  if bool_decide (changed = 0%nat) then throw (SessionNotFound thread) else mret tt.

Definition store_preferences (now : string) (o : option (string * ThinkingLevel))
    : Sql (option ProfilePreferences) :=
  match o with
  | None => mret None
  | Some (model, level) =>
    _ ← set_preferences (fun _ => {| pr_model := Some model; pr_thinking := thinking_name level;
                                     pr_updated_at := now |});
    p ← query_profile_preferences; mret (Some p)
  end.

Definition report_revision (thread : string) (x : EventEnvelope) : Sql ThreadRevision :=
  revision ← query_thread_revision thread;
  if streams x
  then segment ← query (changed_segment thread x);
       mret {| tr_revision := tr_revision revision; tr_last_sequence := tr_last_sequence revision;
               tr_last_message_at := tr_last_message_at revision;
               tr_last_user_message_at := tr_last_user_message_at revision; tr_item_id := segment |}
  else mret revision.

Definition append_batch (l : list EventEnvelope) (client : option string)
    (preferences : option (string * ThinkingLevel)) (replacement : option PromptRevision)
    : Sql (ThreadRevision * option ProfilePreferences) :=
  match l with
  | [] => throw empty_batch
  | first :: rest =>
    let thread := ev_session first in
    if existsb (fun x => negb (bool_decide (ev_session x = thread))) l then throw mixed_batch else
    client ← lift (match client with
                   | Some c => c ← validate_client_item_id c; Ok (Some c)
                   | None => Ok None
                   end);
    preferences ← lift (match preferences with
                        | Some (model, level) => m ← validate_model model; Ok (Some (m, level))
                        | None => Ok None
                        end);
    if (if (client : option string) then true else false) && negb (existsb accepts_prompt l)
    then throw stray_client_item else
    let final := List.last l first in
    let now := to_rfc3339 (ev_occurred_at final) in
    transaction (
      _ ← revise thread l replacement;
      _ ← persist_all thread client l;
      _ ← bump_revision thread now;
      preferences ← store_preferences now preferences;
      revision ← report_revision thread final;
      mret (revision, preferences))
  end.

Definition append_all (l : list EventEnvelope) : Sql ThreadRevision :=
  r ← append_batch l None None None; mret r.1.
Definition append (x : EventEnvelope) : Sql ThreadRevision := append_all [x].

Definition append_all_with_client_item_id (l : list EventEnvelope) (client : option string)
    : Sql ThreadRevision := r ← append_batch l client None None; mret r.1.
Definition append_prompt_revision (l : list EventEnvelope) (client : option string)
    (revision : option PromptRevision) : Sql ThreadRevision :=
  r ← append_batch l client None revision; mret r.1.
Definition append_all_and_set_profile_preferences (l : list EventEnvelope) (model : string)
    (level : ThinkingLevel) : Sql (ThreadRevision * option ProfilePreferences) :=
  append_batch l None (Some (model, level)) None.
End Events.
