(* ===== verification/Projection.v ===== *)
(** Stored records as a journal of events (apps/axiomcli/src/session/projection.rs), and
    the settings a restored conversation resumes with (codec.rs). *)

From stdpp Require Import base gmap strings list.
From Stdlib Require Import ZArith NArith Lia ZifyBool ZifyN ZifyNat.
From S2P Require Import Prelude RustStr Json Accounting Inference Attachments Paths AppError Policy Models Kernel Redact Tables Timeline Events.

Local Open Scope Z_scope.

(** ** Records (records.rs) *)

Record ThreadSummary : Type := {
  su_id : string;
  su_title : option string;
  su_cwd : Path;
  su_origin : string;
  su_profile : string;
  su_selected_model : option string;
  su_thinking_level : ThinkingLevel;
  su_lifecycle : ThreadLifecycle;
  su_archived : bool;
  su_revision : Z;
  su_last_sequence : Z;
  su_created_at : string;
  su_updated_at : string;
  su_last_message_at : option string;
  su_last_user_message_at : option string
}.

Record TurnRecord : Type := {
  tn_id : string;
  tn_thread_id : string;
  tn_status : TurnStatus;
  tn_user_item_id : option string;
  tn_assistant_item_id : option string;
  tn_input_tokens : Z;
  tn_output_tokens : Z;
  tn_error : option string;
  tn_started_at : string;
  tn_completed_at : option string
}.

Record TimelineItem : Type := {
  tl_id : string;
  tl_thread_id : string;
  tl_turn_id : option string;
  tl_sequence : Z;
  tl_kind : TimelineItemKind;
  tl_status : TimelineItemStatus;
  tl_client_item_id : option string;
  tl_external_id : option string;
  tl_content : string;
  tl_metadata : Value;
  tl_created_at : string;
  tl_updated_at : string
}.

(** [Uuid::parse_str] of the text of a turn's identifier. *)
Class TurnIds : Type := { turn_id_from_str : string -> result string string }.

(** [HashMap::from_iter] on the identifiers. *)
Definition turn_map (l : list TurnRecord) : gmap string TurnRecord :=
  foldl (fun m t => <[tn_id t := t]> m) ∅ l.

(** ** The projection *)

Record RuntimeProjection : Type := {
  pj_id : string;
  pj_origin : Origin;
  pj_sequence : Z;
  pj_events : list EventEnvelope
}.
Definition new_runtime_projection (id : string) (origin : Origin) : RuntimeProjection :=
  {| pj_id := id; pj_origin := origin; pj_sequence := 0; pj_events := [] |}.

Abbreviation Projecting := (M RuntimeProjection AxiomError).

Definition get_string (key : string) (v : Value) : option string := value_get key v ≫= as_str.
Definition get_bool (key : string) (v : Value) : option bool := value_get key v ≫= as_bool.
Definition get_u64 (key : string) (v : Value) : option Z := value_get key v ≫= as_u64.

Definition image_progress_error : AxiomError := StorageError "invalid stored image progress".

Section Projection.
Context `{CH : Chrono} `{SC : StoreCodec} `{TI : TurnIds}.
(** [Utc::now] and [CorrelationId::new] when the event of a sequence is made. *)
Context (now correlation : Z -> string).

Definition parse_time (n : Z) (value : string) : string := default (now n) (parse_rfc3339 value).

Definition push (at_ : string) (e : AppEvent) : Projecting unit :=
  modify (fun p =>
    let n := saturating_add (pj_sequence p) 1 in
    {| pj_id := pj_id p; pj_origin := pj_origin p; pj_sequence := n;
       pj_events := pj_events p ++
         [{| ev_schema_version := 1; ev_sequence := n; ev_occurred_at := parse_time n at_;
             ev_correlation := correlation n; ev_origin := pj_origin p; ev_session := pj_id p;
             ev_event := e |}] |}).

Definition unfinished_message : string :=
  "The previous process ended during this turn; unfinished work was not replayed".

Definition terminal_event (t : TurnRecord) (turn : string) : AppEvent :=
  match tn_status t with
  | TsCompleted => AppTurnCompleted turn
  | TsCancelled => AppTurnCancelled turn
  | TsFailed => AppErrorRaised (Some turn) (default "turn failed" (tn_error t))
  | TsInterrupted | TsRunning => AppErrorRaised (Some turn) (default unfinished_message (tn_error t))
  end.

Definition project_turn_terminal (turn : option TurnRecord) : Projecting unit :=
  match turn with
  | None => mret tt
  | Some t =>
    match turn_id_from_str (tn_id t) with
    | Err _ => mret tt
    | Ok id =>
      let at_ := default (tn_started_at t) (tn_completed_at t) in
      _ ← (if (0 <? tn_input_tokens t) || (0 <? tn_output_tokens t)
           then push at_ (AppUsageUpdated (tn_input_tokens t) (tn_output_tokens t)) else mret tt);
      push at_ (terminal_event t id)
    end
  end.

Definition tool_image (metadata proof : Value) : result AxiomError GeneratedImage :=
  blocks ← ok_or (value_get "content" metadata ≫= as_array)
             (StorageError "stored image bytes are missing");
  let content entry :=
    if value_eqb (index_get "type" entry) (VString "content") then index_get "content" entry else entry in
  let images := List.filter (fun c => value_eqb (index_get "type" c) (VString "image")) (content <$> blocks) in
  match images with
  | [image] =>
    if negb (value_eqb (index_get "mimeType" image) (index_get "mimeType" proof))
    then Err (StorageError "stored image content differs") else
    v ← index_set "data" (index_get "data" image) proof;
    ok_or (image_from_value v) (StorageError "stored image proof is invalid")
  | _ => Err (StorageError "stored image content differs")
  end.

Definition project_tool_image (i : TimelineItem) (call name : string) : Projecting unit :=
  match value_get "generated_image" (tl_metadata i) with
  | None => mret tt
  | Some proof =>
    if negb (image_tool name) then throw (StorageError "stored image requires its owning image tool") else
    image ← lift (tool_image (tl_metadata i) proof);
    push (tl_updated_at i) (AppImageGenerated call image)
  end.

Definition project_progress (i : TimelineItem) (call name : string) : Projecting unit :=
  match value_get "image_progress" (tl_metadata i) with
  | None => mret tt
  | Some v =>
    p ← lift (ok_or (progress_from_value v) image_progress_error);
    if negb (image_tool name) || negb (valid_after p None) then throw image_progress_error else
    push (tl_updated_at i) (AppImageGenerationProgress call p)
  end.

Definition tool_name (i : TimelineItem) : string := default "tool" (get_string "name" (tl_metadata i)).
Definition tool_call_of (i : TimelineItem) : string := default (tl_id i) (tl_external_id i).

Definition project_tool (i : TimelineItem) (turn : string) : Projecting unit :=
  let call := tool_call_of i in
  let name := tool_name i in
  _ ← push (tl_created_at i)
        (AppToolProposed turn call name (default (VObject []) (value_get "arguments" (tl_metadata i))));
  _ ← (if bool_decide (tl_status i = IsPending) then mret tt
       else push (tl_created_at i) (AppToolStarted call name));
  _ ← project_progress i call name;
  _ ← (if is_empty (tl_content i) then mret tt
       else push (tl_updated_at i)
              (AppToolOutput call (tl_content i)
                 (default false (get_bool "output_truncated" (tl_metadata i)))));
  _ ← project_tool_image i call name;
  _ ← match get_string "diff" (tl_metadata i) with
      | None => mret tt
      | Some diff =>
        push (tl_updated_at i)
          (AppDiffAvailable call diff (default false (get_bool "diff_truncated" (tl_metadata i)))
             (default [] (diffs_from_value (default (VArray []) (value_get "files" (tl_metadata i))))))
      end;
  match tl_status i with
  | IsCompleted => push (tl_updated_at i) (AppToolCompleted call true)
  | IsFailed => push (tl_updated_at i) (AppToolCompleted call false)
  | _ => mret tt
  end.

Definition project_plan (i : TimelineItem) : Projecting unit :=
  if bool_decide (get_string "code" (tl_metadata i) = Some "task_list") then
    match value_get "items" (tl_metadata i) with
    | None => mret tt
    | Some v =>
      tasks ← lift (map_err (fun e => StorageError ("invalid stored task list: " +:+ e)) (tasks_from_value v));
      push (tl_updated_at i) (AppTaskListUpdated tasks)
    end
  else
    match tl_external_id i with
    | None => mret tt
    | Some plan =>
      let revision := default 1 (get_u64 "revision" (tl_metadata i)) in
      _ ← push (tl_created_at i) (AppPlanProposed plan revision (tl_content i));
      match get_string "decision" (tl_metadata i) with
      | Some decision => push (tl_updated_at i) (AppPlanReviewed plan revision decision)
      | None => mret tt
      end
    end.

Definition notice_code (v : Value) : string :=
  default "notice" (first_some (get_string "code" v) (value_get "details" v ≫= get_string "code")).
Definition notice_details (v : Value) : Value := default v (value_get "details" v).

(** The event of a notice, by its code. *)
Definition notice_event (i : TimelineItem) : option AppEvent :=
  let v := tl_metadata i in
  let code := notice_code v in
  let details := notice_details v in
  if bool_decide (code = "progress")
  then Some (AppProgressUpdated (tl_content i) (get_u64 "completed" v) (get_u64 "total" v))
  else if bool_decide (code = "workspace_changed")
  then Some (AppWorkspaceChanged
               (default [] (paths_from_value (default (VArray []) (value_get "paths" details)))))
  else if bool_decide (code = "context_compacted")
  then Some (AppContextCompacted (tl_content i) (default 0 (get_u64 "messages_before" details)))
  else if bool_decide (code = "warning") then Some (AppWarningRaised (tl_content i))
  else if bool_decide (code = "error") && negb (default false (get_bool "terminal" details))
  then Some (AppErrorRaised None (tl_content i))
  else None.

Definition project_notice (i : TimelineItem) : Projecting unit :=
  match notice_event i with Some e => push (tl_updated_at i) e | None => mret tt end.

Definition project_thread_item (i : TimelineItem) : Projecting unit :=
  match tl_kind i with
  | KPlan => project_plan i
  | KNotice => project_notice i
  | _ => mret tt
  end.

Definition parse_turn (turn : string) : result AxiomError string :=
  map_err (fun e => StorageError ("invalid stored turn ID `" +:+ turn +:+ "`: " +:+ e))
    (turn_id_from_str turn).

Definition close_turn (turns : gmap string TurnRecord) (active : option string) : Projecting unit :=
  match active with Some turn => project_turn_terminal (turns !! turn) | None => mret tt end.

Definition is_steering (i : TimelineItem) : bool :=
  bool_decide (get_bool "steering" (tl_metadata i) = Some true).

Definition project_user (turns : gmap string TurnRecord)
    (attachments : gmap string (list PromptAttachment)) (active : option string) (i : TimelineItem)
    : Projecting (option string) :=
  _ ← (if bool_decide (active = tl_turn_id i) then mret tt else close_turn turns active);
  turn ← lift (ok_or (tl_turn_id i) (StorageError ("user timeline item " +:+ tl_id i +:+ " has no turn")));
  parsed ← lift (parse_turn turn);
  _ ← (if is_steering i
       then push (tl_created_at i)
              (AppSteeringApplied parsed (default (tl_id i) (tl_client_item_id i)) (tl_content i))
       else _ ← push (tl_created_at i)
                  (AppPromptAccepted parsed (tl_content i) (default [] (attachments !! tl_id i)));
            push (tl_created_at i) (AppTurnStarted parsed));
  mret (Some turn).

Definition project_item_kind (i : TimelineItem) (turn : string) : Projecting unit :=
  match tl_kind i with
  | KAssistantMessage =>
    if is_empty (tl_content i) then mret tt else push (tl_updated_at i) (AppTextDelta turn (tl_content i))
  | KReasoning =>
    if is_empty (tl_content i) then mret tt else push (tl_updated_at i) (AppReasoningDelta turn (tl_content i))
  | KToolCall => project_tool i turn
  | KPlan => project_plan i
  | KNotice => project_notice i
  | KUserMessage => mret tt
  end.

Definition project_item (turns : gmap string TurnRecord)
    (attachments : gmap string (list PromptAttachment)) (active : option string) (i : TimelineItem)
    : Projecting (option string) :=
  if bool_decide (tl_kind i = KUserMessage) then project_user turns attachments active i else
  match tl_turn_id i with
  | None => _ ← project_thread_item i; mret active
  | Some turn =>
    parsed ← lift (parse_turn turn);
    _ ← (if bool_decide (active = Some turn) then mret tt
         else _ ← close_turn turns active; push (tl_created_at i) (AppTurnStarted parsed));
    _ ← project_item_kind i parsed;
    mret (Some turn)
  end.

Fixpoint project_items (turns : gmap string TurnRecord)
    (attachments : gmap string (list PromptAttachment)) (active : option string) (l : list TimelineItem)
    : Projecting (option string) :=
  match l with
  | [] => mret active
  | i :: l => active ← project_item turns attachments active i; project_items turns attachments active l
  end.

Definition project_header (thread : ThreadSummary) (origin : Origin) (profile : PermissionProfile)
    : Projecting unit :=
  _ ← push (su_created_at thread) (AppSessionCreated (su_cwd thread) origin profile);
  _ ← match su_selected_model thread with
      | Some model => push (su_created_at thread) (AppModelChanged model)
      | None => mret tt
      end;
  push (su_created_at thread) (AppThinkingLevelChanged (su_thinking_level thread)).

Definition project_runtime_events (id : string) (thread : ThreadSummary) (turns : list TurnRecord)
    (items : list TimelineItem) (attachments : gmap string (list PromptAttachment))
    : result AxiomError (list EventEnvelope) :=
  origin ← origin_from_name (su_origin thread);
  profile ← map_err (fun _ => StorageError ("invalid permission profile `" +:+ su_profile thread
                                            +:+ "` in local state")) (profile_from_str (su_profile thread));
  let turns := turn_map turns in
  match (_ ← project_header thread origin profile;
         active ← project_items turns attachments None items;
         close_turn turns active) (new_runtime_projection id origin) with
  | (p, Ok _) => Ok (pj_events p)
  | (_, Err e) => Err e
  end.
End Projection.

(** ** Resuming (codec.rs) *)

Fixpoint models_for_resume (active : string) (last_used : option string) (l : list EventEnvelope) : string :=
  match l with
  | [] => default active last_used
  | x :: l =>
    match ev_event x with
    | AppModelChanged model => models_for_resume model last_used l
    | AppPromptAccepted _ _ _ => models_for_resume active (Some active) l
    | _ => models_for_resume active last_used l
    end
  end.
Definition model_for_resume (l : list EventEnvelope) (fallback : string) : string :=
  models_for_resume fallback None l.

Definition thinking_for_resume (l : list EventEnvelope) (fallback : ThinkingLevel) : ThinkingLevel :=
  foldl (fun level x => match ev_event x with AppThinkingLevelChanged l => l | _ => level end) fallback l.

Definition permission_for_resume (l : list EventEnvelope) (fallback : PermissionProfile)
    : PermissionProfile :=
  foldl (fun profile x =>
           match ev_event x with
           | AppSessionCreated _ _ p | AppSessionResumed _ _ p | AppPermissionProfileChanged p => p
           | _ => profile
           end) fallback l.
