(* ===== verification/Recovery.v ===== *)
(** Reading the session store back (apps/axiomcli/src/session/recovery.rs and
    queries.rs): decoded records, interrupted turns, and the journal of a thread. *)

From stdpp Require Import base gmap strings list.
From Stdlib Require Import ZArith NArith Lia ZifyBool ZifyN ZifyNat.
From S2P Require Import Prelude RustStr Json Accounting Inference Attachments Paths AppError Policy Models Kernel Tools Redact Tables Timeline Events Projection.

Local Open Scope Z_scope.

(** ** Decoding *)

Definition decode_thread (r : ThreadRow) : result AxiomError ThreadSummary :=
  cwd ← decode_path (th_cwd_encoding r) (th_cwd r);
  level ← map_err (fun _ => StorageError ("invalid thinking level `" +:+ th_thinking_level r
                                          +:+ "` in local state")) (thinking_from_str (th_thinking_level r));
  lifecycle ← lifecycle_from_str (th_lifecycle r);
  revision ← checked_u64 (th_revision r) "thread revision";
  sequence ← checked_u64 (th_next_sequence r) "last timeline sequence";
  Ok {| su_id := th_id r; su_title := th_title r; su_cwd := cwd; su_origin := th_origin r;
        su_profile := th_profile r; su_selected_model := th_selected_model r; su_thinking_level := level;
        su_lifecycle := lifecycle; su_archived := th_archived r; su_revision := revision;
        su_last_sequence := sequence; su_created_at := th_created_at r; su_updated_at := th_updated_at r;
        su_last_message_at := th_last_message_at r;
        su_last_user_message_at := th_last_user_message_at r |}.

Definition query_thread_summary (id : string) : Sql ThreadSummary :=
  row ← query (find_thread id);
  match row with
  | None => throw (SessionNotFound id)
  | Some r => lift (decode_thread r)
  end.

Definition decode_item (r : ItemRow) : result AxiomError TimelineItem :=
  sequence ← checked_u64 (ti_sequence r) "timeline sequence";
  kind ← kind_from_str (ti_kind r);
  status ← status_from_str (ti_status r);
  Ok {| tl_id := ti_id r; tl_thread_id := ti_thread_id r; tl_turn_id := ti_turn_id r;
        tl_sequence := sequence; tl_kind := kind; tl_status := status;
        tl_client_item_id := ti_client_item_id r; tl_external_id := ti_external_id r;
        tl_content := ti_content r; tl_metadata := ti_metadata r; tl_created_at := ti_created_at r;
        tl_updated_at := ti_updated_at r |}.

Definition decode_turn (r : TurnRow) : result AxiomError TurnRecord :=
  status ← turn_status_from_str (tu_status r);
  input ← checked_u64 (tu_input_tokens r) "input token count";
  output ← checked_u64 (tu_output_tokens r) "output token count";
  Ok {| tn_id := tu_id r; tn_thread_id := tu_thread_id r; tn_status := status;
        tn_user_item_id := tu_user_item_id r; tn_assistant_item_id := tu_assistant_item_id r;
        tn_input_tokens := input; tn_output_tokens := output; tn_error := tu_error r;
        tn_started_at := tu_started_at r; tn_completed_at := tu_completed_at r |}.

(** [ORDER BY started_at, id]. *)
Definition turn_le (a b : TurnRow) : bool :=
  if bool_decide (tu_started_at a = tu_started_at b)
  then bytes_leb (bytes (tu_id a)) (bytes (tu_id b))
  else bytes_leb (bytes (tu_started_at a)) (bytes (tu_started_at b)).
Definition turns_of (thread : string) (d : Db) : list TurnRow :=
  sort_by turn_le (List.filter (fun r => bool_decide (tu_thread_id r = thread)) (db_turns d)).

Definition query_turns (thread : string) : Sql (list TurnRecord) :=
  rows ← query (turns_of thread); lift (collect decode_turn rows).

(** [ORDER BY sequence ASC]. *)
Definition sequence_le (a b : ItemRow) : bool := ti_sequence a <=? ti_sequence b.
Definition items_of (thread : string) (d : Db) : list ItemRow :=
  sort_by sequence_le (List.filter (item_of thread) (db_items d)).

(** ** Interrupted work *)

Section Recovery.
Context `{CH : Chrono} `{SC : StoreCodec} `{B64 : Base64} `{SJ : SerdeJson} `{TI : TurnIds}.

Definition fail_request (u : RequestUsage) : RequestUsage :=
  {| Accounting.request_id := Accounting.request_id u; model_id := model_id u; provider_id := provider_id u;
     context_window_tokens := context_window_tokens u;
     Accounting.auto_compact_threshold_tokens := Accounting.auto_compact_threshold_tokens u;
     turn_id := turn_id u; purpose := purpose u; state := InvocationFailed; completeness := completeness u;
     input_tokens := input_tokens u; cached_input_tokens := cached_input_tokens u;
     output_tokens := output_tokens u; reasoning_tokens := reasoning_tokens u;
     image_pixels := image_pixels u; image_steps := image_steps u;
     input_image_pixels := input_image_pixels u; cost_microusd := cost_microusd u;
     settled := settled u; response_verified := false; started_at_ms := started_at_ms u;
     finished_at_ms := finished_at_ms u; error_code := Some "CLIENT_INTERRUPTED";
     finish_reason := finish_reason u |}.

Definition is_running (r : TurnRow) : bool := bool_decide (tu_status r = turn_status_name TsRunning).

Definition previous_ended : string := "The previous process ended during this turn".

(** [SELECT DISTINCT thread_id]. *)
Definition running_threads (d : Db) : list string := remove_dups (tu_thread_id <$> List.filter is_running (db_turns d)).

Definition in_interrupted_turn (d : Db) (r : ItemRow) : bool :=
  existsb (fun t => bool_decide (tu_thread_id t = ti_thread_id r) && bool_decide (ti_turn_id r = Some (tu_id t))
                    && bool_decide (tu_status t = turn_status_name TsInterrupted)) (db_turns d).

Definition interrupt_thread (now id : string) : Sql unit :=
  _ ← update_threads (of_thread id) (fun r =>
        th_set_lifecycle (lifecycle_name LcReady) (th_set_revision (th_revision r + 1) now r));
  mret tt.

Definition interrupt_incomplete_turns : Sql unit :=
  now ← utc_now;
  let now := to_rfc3339 now in
  transaction (
    ids ← query running_threads;
    _ ← update_usage (fun r => usage_running (ru_record r)) (fun r => ru_set_record (fail_request (ru_record r)) r);
    if bool_decide (ids = []) then mret tt else
    _ ← update_turns is_running (fun r =>
          tu_finish (turn_status_name TsInterrupted) (Some (default previous_ended (tu_error r))) (Some now) r);
    _ ← statement (fun d =>
          Ok (db_set_items (update_where (fun r => is_open r && in_interrupted_turn d r)
                (fun r => ti_set_status (status_name IsInterrupted) (ti_set_updated now r)) (db_items d)) d, tt));
    iterM (interrupt_thread now) ids).

(** ** Loading *)

Definition query_prompt_attachments (thread item : string) : Sql (list PromptAttachment) :=
  row ← query (fun d =>
    match List.find (fun r => item_of thread r && (item_is item r || bool_decide (ti_client_item_id r = Some item))
                              && is_kind KUserMessage r) (db_items d) with
    | None => None
    | Some r => Some (pa_payload <$> List.find (fun a => bool_decide (pa_item a = ti_id r)) (db_attachments d), r)
    end);
  match row with
  | None => throw no_rows
  | Some (Some attachments, r) =>
    _ ← lift (map_err (fun e => StorageError (validation_display e))
                (validate_stored_prompt (ti_content r) attachments));
    mret attachments
  | Some (None, r) =>
    match value_get "attachments" (ti_metadata r) with
    | Some _ => throw (StorageError "Stored attachment contents are missing; the message cannot be replayed.")
    | None => mret []
    end
  end.

Definition has_attachments (i : TimelineItem) : bool :=
  bool_decide (tl_kind i = KUserMessage)
  && (if value_get "attachments" (tl_metadata i) then true else false).

Fixpoint load_attachments (thread : string) (m : gmap string (list PromptAttachment)) (l : list TimelineItem)
    : Sql (gmap string (list PromptAttachment)) :=
  match l with
  | [] => mret m
  | i :: l =>
    if has_attachments i
    then a ← query_prompt_attachments thread (tl_id i); load_attachments thread (<[tl_id i := a]> m) l
    else load_attachments thread m l
  end.

Definition MAX_TIMELINE_ITEMS_PER_LOAD : nat := Z.to_nat 100000.

Definition load_warning (thread : string) : string :=
  "thread " +:+ thread +:+ " exceeds the " +:+ to_decimal (Z.of_nat MAX_TIMELINE_ITEMS_PER_LOAD)
  +:+ "-item runtime restore limit".

Definition load_recovering (now correlation : Z -> string) (id : string)
    : Sql (list EventEnvelope * list string) :=
  thread ← query_thread_summary id;
  turns ← query_turns id;
  rows ← query (fun d => take (S MAX_TIMELINE_ITEMS_PER_LOAD) (items_of id d));
  items ← lift (collect decode_item rows);
  let over := (MAX_TIMELINE_ITEMS_PER_LOAD <? length items)%nat in
  let items := if over then removelast items else items in
  attachments ← load_attachments id ∅ items;
  events ← lift (project_runtime_events now correlation id thread turns items attachments);
  mret (events, if over then [load_warning id] else []).

Definition load (now correlation : Z -> string) (id : string) : Sql (list EventEnvelope) :=
  outcome ← load_recovering now correlation id;
  match outcome.2 with
  | warning :: _ => throw (StorageError warning)
  | [] => mret outcome.1
  end.

Definition prompt_of_turn (turn : string) (x : EventEnvelope) : bool :=
  match ev_event x with AppPromptAccepted t _ _ => bool_decide (t = turn) | _ => false end.

Fixpoint before_first {A} (p : A -> bool) (l : list A) : option (list A) :=
  match l with
  | [] => None
  | x :: l => if p x then Some [] else cons x <$> before_first p l
  end.

Definition history_before_user_message (now correlation : Z -> string) (id : string) (rev : PromptRevision)
    : Sql (list EventEnvelope) :=
  thread ← query_thread_summary id;
  if negb (su_revision thread =? rev_expected rev) then throw revision_conflict else
  turn ← query (fun d => tu_id <$> List.find (fun t =>
           bool_decide (tu_thread_id t = id)
           && bool_decide (tu_user_item_id t = Some (rev_user_item_id rev))) (db_turns d));
  turn ← lift (ok_or turn no_message);
  events ← load now correlation id;
  lift (ok_or (before_first (prompt_of_turn turn) events) (StorageError "The original prompt is unavailable.")).

(** ** What was interrupted *)

Record InterruptedTool : Type := { it_call_id : string; it_name : string; it_status : string }.

Record RecoveryStatus : Type := {
  rs_session : string;
  rs_interrupted_turns : nat;
  rs_interrupted_tools : list InterruptedTool;
  rs_changed_paths : list Path
}.

Definition interrupted_tool (r : ItemRow) : InterruptedTool :=
  {| it_call_id := default "unknown" (ti_external_id r);
     it_name := default "tool" (get_string "name" (ti_metadata r));
     it_status := "unknown_after_restart" |}.

Definition stored_paths (v : Value) : list Path :=
  default [] (value_get "paths" (notice_details v) ≫= paths_from_value).

(** [BTreeSet::from_iter]: each path once, in their order. *)
Definition query_changed_paths (thread : string) : Sql (list Path) :=
  query (fun d => sort_by path_leb (extend_paths []
           (mjoin ((fun r => stored_paths (ti_metadata r)) <$> List.filter (is_kind KNotice) (items_of thread d))))).

Definition recovery_status (id : string) : Sql RecoveryStatus :=
  _ ← ensure_thread id;
  turns ← query (fun d => matched (fun t => bool_decide (tu_thread_id t = id)
                            && bool_decide (tu_status t = turn_status_name TsInterrupted)) (db_turns d));
  tools ← query (fun d => interrupted_tool <$> List.filter (fun r => is_kind KToolCall r
                            && bool_decide (ti_status r = status_name IsInterrupted)) (items_of id d));
  paths ← query_changed_paths id;
  mret {| rs_session := id; rs_interrupted_turns := turns; rs_interrupted_tools := tools;
          rs_changed_paths := paths |}.
End Recovery.
