(* ===== verification/StoreQueries.v ===== *)
(** The rest of the session store (apps/axiomcli/src/session: queries.rs, accounting.rs,
    collections.rs, preferences.rs): pages of a timeline and of the catalog, titles,
    deletion, the reconciliation of request usage, collections and preferences. *)

From stdpp Require Import base gmap strings list.
From Stdlib Require Import ZArith NArith Lia ZifyBool ZifyN ZifyNat.
From S2P Require Import Prelude RustStr Json Accounting Inference Attachments Paths AppError Policy Models Kernel Redact Tables Timeline Events Projection Recovery.

Local Open Scope Z_scope.

(** Sizes of encoded records, and the codec of catalog cursors: the URL-safe base64 of
    a pair of strings in JSON. *)
Class PageCodec : Type := {
  item_bytes : TimelineItem -> Z;
  usage_bytes : RequestUsage -> Z;
  cursor_encode : string * string -> string;
  cursor_decode : string -> option (string * string)
}.

Definition MAX_TIMELINE_PAGE : Z := 1000.
Definition MAX_THREAD_CATALOG_PAGE : Z := 200.
Definition MAX_THREAD_QUERY_BYTES : Z := 512.
Definition MAX_COLLECTION_NAME_BYTES : Z := 120.

(** ** Pages *)

(** Rows are decoded and taken while the page has room, and it fails when even the first
    has none.  The boolean tells that some are left. *)
Fixpoint fill_page {A B} (decode : A -> result AxiomError B) (size : B -> Z) (room : nat)
    (budget : option Z) (exceeds : string) (used : Z) (page : list B) (l : list A)
    : result AxiomError (list B * bool) :=
  match l with
  | [] => Ok (page, false)
  | x :: l =>
    y ← decode x;
    let full := bool_decide (length page = room)
                || match budget with Some b => b <? used + size y | None => false end in
    if full then match page with [] => Err (StorageError exceeds) | _ => Ok (page, true) end
    else fill_page decode size room budget exceeds (used + size y) (page ++ [y]) l
  end.

Record ThreadSnapshot : Type := {
  sn_thread : ThreadSummary;
  sn_context_usage : option ContextUsage;
  sn_request_usage : list RequestUsage;
  sn_turns : list TurnRecord;
  sn_items : list TimelineItem;
  sn_next_cursor : option Z;
  sn_next_usage_cursor : option string
}.

Definition TIMELINE_PAGE_BYTES : Z := 32 * 1024 * 1024.
Definition USAGE_PAGE_BYTES : Z := 512 * 1024.
Definition USAGE_PAGE : nat := 100.

Definition usage_id_le (a b : UsageRow) : bool := bytes_leb (bytes (ru_id a)) (bytes (ru_id b)).
Definition after_text (a b : string) : bool := negb (bytes_leb (bytes b) (bytes a)).

Section Queries.
Context `{CH : Chrono} `{PC : PageCodec}.

Definition query_turns_filtered (thread : string) (active_only : bool) : Sql (list TurnRecord) :=
  rows ← query (fun d =>
    if active_only then take 1 (List.filter is_running (turns_of thread d)) else turns_of thread d);
  lift (collect decode_turn rows).

(** Requests after a cursor: all by their rowid, or a page by their identifier. *)
Definition usage_rows (thread : string) (after : string) (paged : bool) (d : Db) : list UsageRow :=
  let rows := List.filter (fun r => bool_decide (ru_thread_id r = thread) && after_text after (ru_id r))
                (db_usage d) in
  if paged then take (S USAGE_PAGE) (sort_by usage_id_le rows) else rows.

Definition usage_page (paged : bool) (l : list UsageRow)
    : result AxiomError (list RequestUsage * option string) :=
  if paged then
    r ← fill_page (fun r => Ok (ru_record r)) usage_bytes USAGE_PAGE (Some USAGE_PAGE_BYTES)
          "accounting record exceeds local page limit" 0 [] l;
    Ok (r.1, if r.2 : bool then Accounting.request_id <$> last r.1 else None)
  else Ok (ru_record <$> l, None).

Definition after_sequence_rows (thread : string) (after : Z) (n : nat) (d : Db) : list ItemRow :=
  take n (List.filter (fun r => after <? ti_sequence r) (items_of thread d)).

Definition item_page (limit : nat) (paged : bool) (l : list ItemRow)
    : result AxiomError (list TimelineItem * option Z) :=
  r ← fill_page decode_item (if paged then item_bytes else fun _ => 0) limit
        (if paged then Some TIMELINE_PAGE_BYTES else None) "timeline item exceeds local page limit" 0 [] l;
  Ok (r.1, if r.2 : bool then tl_sequence <$> last r.1 else None).

Definition page_size_error : AxiomError :=
  StorageError ("timeline page size must be between 1 and " +:+ to_decimal MAX_TIMELINE_PAGE).

Definition read_snapshot (id : string) (after_sequence : option Z) (limit : Z)
    (after_request : option string) (paged : bool) : Sql ThreadSnapshot :=
  if (limit =? 0) || (MAX_TIMELINE_PAGE <? limit) then throw page_size_error else
  transaction (
    thread ← query_thread_summary id;
    turns ← query_turns_filtered id paged;
    usage ← query (usage_rows id (default EmptyString after_request) paged);
    requests ← lift (usage_page paged usage);
    context ← query (fun d => th_last_reported_usage <$> find_thread id d);
    context ← lift (ok_or context no_rows);
    after ← lift (checked_i64 (default 0 after_sequence) "timeline cursor");
    rows ← query (after_sequence_rows id after (S (Z.to_nat limit)));
    page ← lift (item_page (Z.to_nat limit) paged rows);
    mret {| sn_thread := thread; sn_context_usage := context; sn_request_usage := requests.1;
            sn_turns := turns; sn_items := page.1; sn_next_cursor := page.2;
            sn_next_usage_cursor := requests.2 |}).

Definition thread_snapshot (id : string) (after : option Z) (limit : Z) : Sql ThreadSnapshot :=
  read_snapshot id after limit None false.
Definition thread_page (id : string) (after : option Z) (request : option string) (limit : Z)
    : Sql ThreadSnapshot := read_snapshot id after limit request true.

(** ** The catalog *)

Definition submitted_at (r : ThreadRow) : string := default EmptyString (th_last_user_message_at r).

(** [ORDER BY COALESCE(last_user_message_at,'') DESC, id ASC]. *)
Definition catalog_le (a b : ThreadRow) : bool :=
  if bool_decide (submitted_at a = submitted_at b)
  then bytes_leb (bytes (th_id a)) (bytes (th_id b))
  else bytes_leb (bytes (submitted_at b)) (bytes (submitted_at a)).

Definition matches_query (query : option string) (r : ThreadRow) : bool :=
  match query with
  | None => true
  | Some q =>
    contains (to_ascii_lowercase q) (to_ascii_lowercase (default EmptyString (th_title r)))
    || contains (to_ascii_lowercase q) (to_ascii_lowercase (th_id r))
  end.
Definition after_cursor (cursor : option (string * string)) (r : ThreadRow) : bool :=
  match cursor with
  | None => true
  | Some (time, id) =>
    after_text (submitted_at r) time
    || (bool_decide (submitted_at r = time) && after_text id (th_id r))
  end.
Definition shown (include_archived : bool) (r : ThreadRow) : bool := negb (th_archived r) || include_archived.

Definition cursor_invalid : AxiomError := StorageError "thread catalog cursor is invalid".

Definition encode_thread_cursor (r : ThreadSummary) : string :=
  cursor_encode (default EmptyString (su_last_user_message_at r), su_id r).
Definition decode_thread_cursor (cursor : string) : result AxiomError (string * string) :=
  if 2048 <? len cursor then Err (StorageError "thread catalog cursor is too long") else
  x ← ok_or (cursor_decode cursor) cursor_invalid;
  if is_empty x.2 then Err cursor_invalid else Ok x.

Record ThreadCatalogPage : Type := { cp_threads : list ThreadSummary; cp_next_cursor : option string }.

Definition catalog_limit_error : AxiomError :=
  StorageError ("thread catalog page size must be between 1 and " +:+ to_decimal MAX_THREAD_CATALOG_PAGE).
Definition catalog_query_error : AxiomError :=
  StorageError ("thread catalog query cannot exceed " +:+ to_decimal MAX_THREAD_QUERY_BYTES +:+ " bytes").

(** [query.map(str::trim).filter(|value| !value.is_empty())]. *)
Definition clean_query (o : option string) : option string :=
  match o with Some q => if is_empty (trim q) then None else Some (trim q) | None => None end.

Definition catalog_rows (query : option string) (include_archived : bool)
    (cursor : option (string * string)) (d : Db) : list ThreadRow :=
  sort_by catalog_le
    (List.filter (fun r => shown include_archived r && matches_query query r && after_cursor cursor r)
       (db_threads d)).

Definition thread_catalog (text : option string) (include_archived : bool) (cursor : option string)
    (limit : Z) : Sql ThreadCatalogPage :=
  if (limit =? 0) || (MAX_THREAD_CATALOG_PAGE <? limit) then throw catalog_limit_error else
  let text := clean_query text in
  if match text with Some q => MAX_THREAD_QUERY_BYTES <? len q | None => false end
  then throw catalog_query_error else
  cursor ← lift (match cursor with
                 | Some c => x ← decode_thread_cursor c; Ok (Some x)
                 | None => Ok None
                 end);
  rows ← query (fun d => take (S (Z.to_nat limit)) (catalog_rows text include_archived cursor d));
  threads ← lift (collect decode_thread rows);
  let more := (Z.to_nat limit <? length threads)%nat in
  let threads := if more then removelast threads else threads in
  mret {| cp_threads := threads;
          cp_next_cursor := if more then encode_thread_cursor <$> last threads else None |}.

Definition list_threads (include_archived : bool) : Sql (list ThreadSummary) :=
  rows ← query (fun d => take (Z.to_nat 1000) (catalog_rows None include_archived None d));
  lift (collect decode_thread rows).

(** ** Titles, archives and deletion *)

Definition validate_title (title : string) : result AxiomError string :=
  let title := trim title in
  if is_empty title then Err (StorageError "thread title cannot be empty")
  else if 512 <? len title then Err (StorageError "thread title cannot exceed 512 bytes")
  else Ok title.

Definition update_thread_metadata (id : string) (f : string -> ThreadRow -> ThreadRow) : Sql ThreadRevision :=
  now ← utc_now;
  changed ← update_threads (of_thread id) (f (to_rfc3339 now));
  if bool_decide (changed = 0%nat) then throw (SessionNotFound id) else query_thread_revision id.

Definition rename (id title : string) : Sql ThreadRevision :=
  title ← lift (validate_title title);
  update_thread_metadata id (fun now r =>
    th_set_title (Some title) None (th_set_revision (th_revision r + 1) now r)).

Definition archive (id : string) (archived : bool) : Sql ThreadRevision :=
  update_thread_metadata id (fun now r =>
    th_set_archived archived (th_set_revision (th_revision r + 1) now r)).

Definition untitled (id : string) (r : ThreadRow) : bool :=
  of_thread id r && bool_decide (th_title r = None).

Definition set_title_if_absent (id title : string) : Sql bool :=
  title ← lift (validate_title title);
  now ← utc_now;
  changed ← update_threads (untitled id) (fun r =>
    th_set_title (Some title) (th_title_generation_id r)
      (th_set_revision (th_revision r + 1) (to_rfc3339 now) r));
  if (0 <? changed)%nat then mret true else _ ← ensure_thread id; mret false.

Definition begin_title_generation (id fallback : string) : Sql (option string) :=
  fallback ← lift (validate_title fallback);
  generation ← new_uuid;
  now ← utc_now;
  changed ← update_threads (untitled id) (fun r =>
    th_set_title (Some fallback) (Some generation)
      (th_set_revision (th_revision r + 1) (to_rfc3339 now) r));
  mret (if (0 <? changed)%nat then Some generation else None).

Definition generating (id generation : string) (r : ThreadRow) : bool :=
  of_thread id r && bool_decide (th_title_generation_id r = Some generation).

Definition title_generation_pending (id generation : string) : Sql bool :=
  query (fun d => existsb (generating id generation) (db_threads d)).

Definition finish_title_generation (id generation : string) (title : option string) : Sql bool :=
  title ← lift (match title with Some t => t ← validate_title t; Ok (Some t) | None => Ok None end);
  now ← utc_now;
  changed ← update_threads (generating id generation) (fun r =>
    th_set_title (first_some title (th_title r)) None
      (th_set_revision (th_revision r + 1) (to_rfc3339 now) r));
  mret (0 <? changed)%nat.

(** [DELETE FROM threads], with what refers to the thread. *)
Definition drop_thread (id : string) (d : Db) : Db :=
  db_set_threads (List.filter (fun r => negb (of_thread id r)) (db_threads d))
    (db_set_turns (List.filter (fun r => negb (bool_decide (tu_thread_id r = id))) (db_turns d))
       (db_set_usage (List.filter (fun r => negb (bool_decide (ru_thread_id r = id))) (db_usage d))
          (db_set_assignments (List.filter (fun r => negb (bool_decide (as_thread_id r = id))) (db_assignments d))
             (drop_items (item_of id) d)))).

Definition delete_session (deleted : Z) (id : string) : Sql Z :=
  n ← statement (fun d => Ok (drop_thread id d, matched (of_thread id) (db_threads d)));
  mret (saturating_add deleted (Z.of_nat n)).
Fixpoint delete_all (deleted : Z) (ids : list string) : Sql Z :=
  match ids with
  | [] => mret deleted
  | id :: ids => deleted ← delete_session deleted id; delete_all deleted ids
  end.
Definition delete_sessions (ids : list string) : Sql Z :=
  match ids with [] => mret 0 | _ => transaction (delete_all 0 ids) end.

(** ** Request usage (accounting.rs) *)

Definition pending_accounting_ids (id : string) : Sql (list string) :=
  query (fun d => take 100 (ru_id <$> sort_by usage_id_le
    (List.filter (fun r => bool_decide (ru_thread_id r = id) && negb (settled (ru_record r))
                           && negb (usage_running (ru_record r))) (db_usage d)))).

Definition record_request_usage (id : string) (usage : RequestUsage) : Sql unit :=
  if negb (validate_counters usage) then throw accounting_error else
  transaction (
    _ ← ensure_thread id;
    _ ← upsert_usage {| ru_id := Accounting.request_id usage; ru_thread_id := id; ru_record := usage |};
    _ ← update_threads (of_thread id) (fun r => th_set_revision (th_revision r + 1) (th_updated_at r) r);
    mret tt).

(** What a settled report of the relay adds to the local record: no verification. *)
Definition reconciled (local snapshot : RequestUsage) : RequestUsage :=
  {| Accounting.request_id := Accounting.request_id local; model_id := model_id local;
     provider_id := provider_id snapshot; context_window_tokens := context_window_tokens local;
     Accounting.auto_compact_threshold_tokens := Accounting.auto_compact_threshold_tokens local;
     turn_id := turn_id local; purpose := purpose local; state := state local;
     completeness := completeness snapshot; input_tokens := input_tokens snapshot;
     cached_input_tokens := cached_input_tokens snapshot; output_tokens := output_tokens snapshot;
     reasoning_tokens := reasoning_tokens snapshot; image_pixels := image_pixels local;
     image_steps := image_steps local; input_image_pixels := input_image_pixels local;
     cost_microusd := cost_microusd snapshot; settled := settled snapshot;
     response_verified := response_verified local; started_at_ms := started_at_ms local;
     finished_at_ms := first_some (finished_at_ms local) (finished_at_ms snapshot);
     error_code := if bool_decide (error_code snapshot = Some "CANCELLED_USAGE_WAIVED")
                   then error_code snapshot else error_code local;
     finish_reason := finish_reason local |}.

Definition identity_mismatch (local snapshot : RequestUsage) : bool :=
  negb (bool_decide (model_id local = model_id snapshot))
  || (negb (is_empty (provider_id local)) && negb (bool_decide (provider_id local = provider_id snapshot))).

Definition usage_is (thread request : string) (r : UsageRow) : bool :=
  bool_decide (ru_id r = request) && bool_decide (ru_thread_id r = thread).

Definition reconcile_one (id : string) (snapshot : RequestUsage) : Sql unit :=
  if negb (validate_counters snapshot) || response_verified snapshot
  then throw (StorageError "invalid recovery record") else
  stored ← query (fun d => ru_record <$> List.find (usage_is id (Accounting.request_id snapshot)) (db_usage d));
  match stored with
  | None => mret tt
  | Some local =>
    if identity_mismatch local snapshot then throw (StorageError "accounting recovery identity mismatch") else
    if settled local || negb (settled snapshot) then mret tt else
    _ ← update_usage (usage_is id (Accounting.request_id local)) (ru_set_record (reconciled local snapshot));
    mret tt
  end.

Definition reconcile_request_usage (id : string) (snapshots : list RequestUsage) : Sql unit :=
  transaction (_ ← ensure_thread id; iterM (reconcile_one id) snapshots).

(** ** Preferences *)

Definition set_profile_preferences (model : string) (level : ThinkingLevel) : Sql ProfilePreferences :=
  model ← lift (validate_model model);
  now ← utc_now;
  _ ← set_preferences (fun _ => {| pr_model := Some model; pr_thinking := thinking_name level;
                                   pr_updated_at := to_rfc3339 now |});
  query_profile_preferences.
Definition last_used_model : Sql (option string) := p ← query_profile_preferences; mret (pp_model p).
Definition set_last_used_model (model : string) : Sql unit :=
  model ← lift (validate_model model);
  now ← utc_now;
  set_preferences (fun r => {| pr_model := Some model; pr_thinking := pr_thinking r;
                               pr_updated_at := to_rfc3339 now |}).
Definition last_used_thinking : Sql (option ThinkingLevel) :=
  p ← query_profile_preferences; mret (Some (pp_thinking p)).
Definition set_last_used_thinking (level : ThinkingLevel) : Sql unit :=
  now ← utc_now;
  set_preferences (fun r => {| pr_model := pr_model r; pr_thinking := thinking_name level;
                               pr_updated_at := to_rfc3339 now |}).

(** ** Collections *)

Record Collection : Type := {
  cl_id : string; cl_name : string; cl_collapsed : bool; cl_position : Z; cl_thread_ids : list string;
  cl_created_at : string; cl_updated_at : string
}.
Record CollectionState : Type := { cs_revision : Z; cs_collections : list Collection }.
Record CollectionChange : Type := { cc_collection_id : option string; cc_state : CollectionState }.

(** [ORDER BY position, id]. *)
Definition collection_le (a b : CollectionRow) : bool :=
  if co_position a =? co_position b then bytes_leb (bytes (co_id a)) (bytes (co_id b))
  else co_position a <=? co_position b.
Definition ordered_collections (d : Db) : list CollectionRow := sort_by collection_le (db_collections d).

Definition assignment_le (a b : AssignmentRow) : bool :=
  if bool_decide (as_assigned_at a = as_assigned_at b)
  then bytes_leb (bytes (as_thread_id a)) (bytes (as_thread_id b))
  else bytes_leb (bytes (as_assigned_at a)) (bytes (as_assigned_at b)).
Definition assigned_threads (collection : string) (d : Db) : list string :=
  as_thread_id <$> sort_by assignment_le
    (List.filter (fun r => bool_decide (as_collection_id r = collection)) (db_assignments d)).

Definition collection_of (d : Db) (r : CollectionRow) : Collection :=
  {| cl_id := co_id r; cl_name := co_name r; cl_collapsed := co_collapsed r; cl_position := co_position r;
     cl_thread_ids := assigned_threads (co_id r) d; cl_created_at := co_created_at r;
     cl_updated_at := co_updated_at r |}.

Definition collection_state : Sql CollectionState :=
  revision ← query db_collection_revision;
  collections ← query (fun d => collection_of d <$> ordered_collections d);
  revision ← lift (checked_u64 revision "collection revision");
  mret {| cs_revision := revision; cs_collections := collections |}.
Definition list_collections : Sql CollectionState := collection_state.

Definition is_collection (id : string) (r : CollectionRow) : bool := bool_decide (co_id r = id).
Definition co_set (name : string) (collapsed : bool) (position : Z) (now : string) (r : CollectionRow)
    : CollectionRow :=
  {| co_id := co_id r; co_name := name; co_collapsed := collapsed; co_position := position;
     co_created_at := co_created_at r; co_updated_at := now |}.

Definition update_collections (p : CollectionRow -> bool) (f : CollectionRow -> CollectionRow) : Sql nat :=
  statement (fun d => Ok (db_set_collections (update_where p f (db_collections d)) d,
                          matched p (db_collections d))).

Definition bump_collection_revision : Sql unit :=
  statement (fun d => Ok (db_set_collection_revision (db_collection_revision d + 1) d, tt)).

Definition no_collection (id : string) : AxiomError := StorageError ("collection " +:+ id +:+ " was not found").
Definition ensure_collection_changed (id : string) (changed : nat) : Sql unit :=
  if bool_decide (changed = 0%nat) then throw (no_collection id) else mret tt.

Definition collection_change (id : option string) : Sql CollectionChange :=
  _ ← bump_collection_revision;
  state ← collection_state;
  mret {| cc_collection_id := id; cc_state := state |}.

Definition validate_collection_name (name : string) : result AxiomError string :=
  let name := trim name in
  if is_empty name || (MAX_COLLECTION_NAME_BYTES <? len name)
  then Err (StorageError ("collection name must contain 1 to " +:+ to_decimal MAX_COLLECTION_NAME_BYTES
                          +:+ " bytes"))
  else Ok name.

Definition next_position (d : Db) : Z := foldr Z.max (-1) (co_position <$> db_collections d) + 1.

Definition insert_collection (r : CollectionRow) : Sql unit :=
  statement (fun d =>
    if existsb (is_collection (co_id r)) (db_collections d) then Err (unique "collections.id")
    else if co_position r <? 0 then Err "CHECK constraint failed: position >= 0"
    else Ok (db_set_collections (db_collections d ++ [r]) d, tt)).

Definition create_collection (name : string) : Sql CollectionChange :=
  name ← lift (validate_collection_name name);
  id ← new_uuid;
  now ← utc_now;
  transaction (
    position ← query next_position;
    _ ← insert_collection {| co_id := id; co_name := name; co_collapsed := false; co_position := position;
                             co_created_at := to_rfc3339 now; co_updated_at := to_rfc3339 now |};
    collection_change (Some id)).

Definition update_collection (id : string) (f : string -> CollectionRow -> CollectionRow) : Sql CollectionChange :=
  now ← utc_now;
  transaction (
    changed ← update_collections (is_collection id) (f (to_rfc3339 now));
    _ ← ensure_collection_changed id changed;
    collection_change (Some id)).

Definition rename_collection (id name : string) : Sql CollectionChange :=
  name ← lift (validate_collection_name name);
  update_collection id (fun now r => co_set name (co_collapsed r) (co_position r) now r).
Definition set_collection_collapsed (id : string) (collapsed : bool) : Sql CollectionChange :=
  update_collection id (fun now r => co_set (co_name r) collapsed (co_position r) now r).

(** Positions from zero, in the order of the list. *)
Fixpoint renumber (now : string) (position : Z) (ids : list string) : Sql unit :=
  match ids with
  | [] => mret tt
  | id :: ids =>
    _ ← update_collections (is_collection id)
          (fun r => co_set (co_name r) (co_collapsed r) (Z.min position I64_MAX) now r);
    renumber now (position + 1) ids
  end.

Fixpoint index_of (id : string) (l : list string) : option nat :=
  match l with
  | [] => None
  | x :: l => if bool_decide (x = id) then Some O else S <$> index_of id l
  end.
Definition move_to (current position : nat) (ids : list string) : list string :=
  match ids !! current with
  | Some moved => let rest := take current ids ++ drop (S current) ids in
                  take position rest ++ moved :: drop position rest
  | None => ids
  end.

Definition move_collection (id : string) (position : Z) : Sql CollectionChange :=
  position ← lift (if position <? 0 then Err (StorageError "collection position cannot be negative")
                   else Ok (Z.to_nat position));
  now ← utc_now;
  transaction (
    ids ← query (fun d => co_id <$> ordered_collections d);
    current ← lift (ok_or (index_of id ids) (no_collection id));
    if (length ids <=? position)%nat
    then throw (StorageError ("collection position must be between 0 and "
                              +:+ to_decimal (saturating_sub (Z.of_nat (length ids)) 1))) else
    _ ← renumber (to_rfc3339 now) 0 (move_to current position ids);
    collection_change (Some id)).

(** [DELETE FROM collections], with its assignments. *)
Definition drop_collection (id : string) (d : Db) : Db :=
  db_set_collections (List.filter (fun r => negb (is_collection id r)) (db_collections d))
    (db_set_assignments
       (List.filter (fun a => negb (bool_decide (as_collection_id a = id))) (db_assignments d)) d).

Definition touch_thread (now id : string) : Sql unit :=
  _ ← update_threads (of_thread id) (fun r => th_set_revision (th_revision r + 1) now r); mret tt.

Definition delete_collection (id : string) : Sql CollectionChange :=
  now ← utc_now;
  transaction (
    assigned ← query (fun d => as_thread_id <$>
                 List.filter (fun a => bool_decide (as_collection_id a = id)) (db_assignments d));
    changed ← statement (fun d => Ok (drop_collection id d, matched (is_collection id) (db_collections d)));
    _ ← ensure_collection_changed id changed;
    remaining ← query (fun d => co_id <$> ordered_collections d);
    _ ← renumber (to_rfc3339 now) 0 remaining;
    _ ← iterM (touch_thread (to_rfc3339 now)) assigned;
    collection_change (Some id)).

Definition assign_row (r : AssignmentRow) : Sql unit :=
  statement (fun d =>
    if negb (has_thread (as_thread_id r) d)
       || negb (existsb (is_collection (as_collection_id r)) (db_collections d)) then Err foreign_key
    else if existsb (fun a => bool_decide (as_thread_id a = as_thread_id r)) (db_assignments d)
    then Ok (db_set_assignments
               (update_where (fun a => bool_decide (as_thread_id a = as_thread_id r)) (fun _ => r)
                  (db_assignments d)) d, tt)
    else Ok (db_set_assignments (db_assignments d ++ [r]) d, tt)).

Definition assign_thread_collection (thread : string) (collection : option string) : Sql CollectionChange :=
  now ← utc_now;
  transaction (
    _ ← ensure_thread thread;
    _ ← match collection with
        | Some c =>
          exists_ ← query (fun d => existsb (is_collection c) (db_collections d));
          if negb (exists_ : bool) then throw (no_collection c) else
          assign_row {| as_thread_id := thread; as_collection_id := c; as_assigned_at := to_rfc3339 now |}
        | None =>
          statement (fun d => Ok (db_set_assignments
            (List.filter (fun a => negb (bool_decide (as_thread_id a = thread))) (db_assignments d)) d, tt))
        end;
    _ ← touch_thread (to_rfc3339 now) thread;
    collection_change collection).
End Queries.
