(* ===== verification/Accounts.v ===== *)
(** Which account's database a handle of the session store works on
    (apps/axiomcli/src/session/connection.rs).

    All handles share one state behind a mutex; a switch of the account closes the
    database, opens the next one without the mutex, and installs it.  The critical
    sections are the steps, and [switching] is what the second mutex serializes.  A
    connection is the account whose database it has open. *)

From stdpp Require Import base gmap strings list.
From Stdlib Require Import ZArith Lia ZifyBool Relations.
From S2P Require Import Prelude RustStr AppError.

Local Open Scope Z_scope.

Record StoreState : Type := {
  connection : option string;
  account_id : option string;
  generation : Z
}.
Record StoreBinding : Type := { bd_generation : Z; bd_account_id : option string }.
#[export] Instance StoreBinding_eq_dec : EqDecision StoreBinding.
Proof. solve_decision. Defined.

(** A handle: routed by account or not, bound or not. *)
Record SessionStore : Type := { routed : bool; binding : option StoreBinding }.

Definition binding_matches (b : option StoreBinding) (s : StoreState) : bool :=
  match b with
  | None => true
  | Some b => (bd_generation b =? generation s) && bool_decide (bd_account_id b = account_id s)
  end.

Definition stale_account_binding : AxiomError :=
  InvalidTransition "account-scoped local store changed while the operation was pending".
Definition bound_store_switch : AxiomError :=
  InvalidTransition "an account-bound local store handle cannot change the active account".
Definition authentication_required : AxiomError :=
  InvalidTransition "authentication required; no account-scoped local store is active".
Definition not_routed : AxiomError := InvalidTransition "this local store is not account-routed".

(** The database a handle gets, while it holds the mutex. *)
Definition lock (h : SessionStore) (s : StoreState) : result AxiomError string :=
  if negb (binding_matches (binding h) s) then Err stale_account_binding else
  ok_or (connection s) authentication_required.

Definition ensure_active_account_binding (h : SessionStore) (s : StoreState) : result AxiomError unit :=
  _ ← lock h s; Ok tt.

Definition bind_active_account (h : SessionStore) (s : StoreState) : result AxiomError SessionStore :=
  match binding h with
  | Some _ => _ ← ensure_active_account_binding h s; Ok h
  | None =>
    if bool_decide (connection s = None) || (routed h && bool_decide (account_id s = None))
    then Err authentication_required
    else Ok {| routed := routed h;
               binding := Some {| bd_generation := generation s; bd_account_id := account_id s |} |}
  end.

Definition advance_store_generation (s : StoreState) : result AxiomError Z :=
  ok_or (checked_add (generation s) 1) (StorageError "account store generation overflowed").

(** The database is closed, whatever becomes of the next one. *)
Definition close_store (s : StoreState) : M StoreState AxiomError unit := fun _ =>
  match advance_store_generation s with
  | Err e => (s, Err e)
  | Ok n => ({| connection := None; account_id := None; generation := n |}, Ok tt)
  end.

(** The first critical section of [activate_account]: true when there is nothing to do. *)
Definition activate_begin (h : SessionStore) (account : string) : M StoreState AxiomError bool := fun s =>
  if bool_decide (binding h <> None) then (s, Err bound_store_switch) else
  if negb (routed h) then (s, Err not_routed) else
  if bool_decide (account_id s = Some account) && bool_decide (connection s <> None) then (s, Ok true) else
  match close_store s s with (s, Ok _) => (s, Ok false) | (s, Err e) => (s, Err e) end.

(** The last one, once the account's database is open. *)
Definition activate_end (account : string) (s : StoreState) : StoreState :=
  {| connection := Some account; account_id := Some account; generation := generation s |}.

Definition deactivate_account (h : SessionStore) : M StoreState AxiomError unit := fun s =>
  if bool_decide (binding h <> None) then (s, Err bound_store_switch) else close_store s s.

Definition active_account_id (h : SessionStore) (s : StoreState) : option string :=
  if binding_matches (binding h) s then account_id s else None.

Definition is_active (h : SessionStore) (s : StoreState) : bool :=
  bool_decide (connection s <> None) && (negb (routed h) || bool_decide (account_id s <> None))
  && binding_matches (binding h) s.

Definition signed_out : StoreState := {| connection := None; account_id := None; generation := 0 |}.

(** ** All handles at once *)

(** The store, the switch under way, the handles handed out, and for each operation the
    handle that made it and the database it worked on. *)
Record World : Type := {
  store : StoreState;
  switching : option string;
  bound : list SessionStore;
  worked : list (SessionStore * string)
}.

Definition routed_store : SessionStore := {| routed := true; binding := None |}.
Definition first_world : World :=
  {| store := signed_out; switching := None; bound := []; worked := [] |}.

Inductive step (w : World) : World -> Prop :=
| step_switch account s :
    switching w = None -> activate_begin routed_store account (store w) = (s, Ok false) ->
    step w {| store := s; switching := Some account; bound := bound w; worked := worked w |}
| step_install account :
    switching w = Some account ->
    step w {| store := activate_end account (store w); switching := None; bound := bound w;
              worked := worked w |}
| step_refused account :
    switching w = Some account ->
    step w {| store := store w; switching := None; bound := bound w; worked := worked w |}
| step_sign_out s :
    switching w = None -> deactivate_account routed_store (store w) = (s, Ok tt) ->
    step w {| store := s; switching := None; bound := bound w; worked := worked w |}
| step_bind h :
    bind_active_account routed_store (store w) = Ok h ->
    step w {| store := store w; switching := switching w; bound := h :: bound w; worked := worked w |}
| step_work h d :
    h ∈ bound w -> lock h (store w) = Ok d ->
    step w {| store := store w; switching := switching w; bound := bound w;
              worked := (h, d) :: worked w |}.

(** ** Bound handles *)

(** A binding is to an account, of an earlier state of the store or of the present one. *)
Definition of_account (w : World) (h : SessionStore) : Prop :=
  exists b a, binding h = Some b /\ bd_account_id b = Some a /\ bd_generation b <= generation (store w) /\
    (bd_generation b = generation (store w) -> switching w = None /\ account_id (store w) = Some a).

(** What was done through a handle was done in the database of its account. *)
Definition in_own_account (x : SessionStore * string) : Prop :=
  exists b, binding x.1 = Some b /\ bd_account_id b = Some x.2.

Record world_ok (w : World) : Prop := {
  ok_connection : connection (store w) = account_id (store w);
  ok_switching : switching w <> None -> connection (store w) = None;
  ok_bound : Forall (of_account w) (bound w);
  ok_worked : Forall in_own_account (worked w)
}.

Lemma close_store_spec s s' u :
  close_store s s = (s', Ok u) ->
  connection s' = None /\ account_id s' = None /\ generation s' = generation s + 1.
Proof.
  unfold close_store, advance_store_generation. destruct (checked_add _ _) as [n|] eqn:Hn; [|done].
  intros [= <- _]. by apply checked_add_Some in Hn as [-> _].
Qed.

Lemma closed_bound w s account :
  Forall (of_account w) (bound w) -> generation s = generation (store w) + 1 ->
  Forall (of_account {| store := s; switching := account; bound := bound w; worked := worked w |}) (bound w).
Proof.
  intros H Hg. eapply Forall_impl; [exact H|]. intros h (b & a & Hb & Ha & Hle & _).
  exists b, a. cbn. split_and!; [done..|lia|lia].
Qed.

Lemma step_ok w w' : world_ok w -> step w w' -> world_ok w'.
Proof.
  intros [Hc Hs Hb Hw] [account s Hnone H|account Hsome|account Hsome|s Hnone H|h H|h d Hin H].
  - unfold activate_begin in H. cbn in H. destruct (_ && _); [done|].
    destruct (close_store _ _) as [s' [u|]] eqn:E; [|done]. injection H as ->.
    apply close_store_spec in E as (E1 & E2 & E3).
    constructor; cbn; [congruence|done|by apply closed_bound|done].
  - constructor; cbn; [done..| |done]. eapply Forall_impl; [exact Hb|].
    intros h (b & a & Hh & Ha & Hle & Heq). exists b, a. cbn. split_and!; [done..|].
    intros E. by destruct (Heq E) as [? _]; congruence.
  - constructor; cbn; [done..| |done]. eapply Forall_impl; [exact Hb|].
    intros h (b & a & Hh & Ha & Hle & Heq). exists b, a. cbn. split_and!; [done..|].
    intros E. by destruct (Heq E) as [? _]; congruence.
  - unfold deactivate_account in H. cbn in H. apply close_store_spec in H as (E1 & E2 & E3).
    constructor; cbn; [congruence|done|by apply closed_bound|done].
  - unfold bind_active_account in H. cbn in H. destruct (_ || _) eqn:E; [done|]. injection H as <-.
    apply orb_false_iff in E as [E1 E2]. apply bool_decide_eq_false in E1, E2.
    constructor; cbn; [done..| |done]. constructor; [|done].
    destruct (account_id (store w)) as [a|] eqn:Ea; [|done].
    exists {| bd_generation := generation (store w); bd_account_id := Some a |}, a. cbn.
    split_and!; [done..|lia|]. intros _. split; [|done].
    destruct (switching w) eqn:Ew; [|done]. by specialize (Hs ltac:(done)).
  - constructor; cbn; [done..|]. constructor; [|done].
    rewrite Forall_forall in Hb. destruct (Hb h Hin) as (b & a & Hh & Ha & _ & Heq).
    unfold lock in H. rewrite Hh in H. cbn in H.
    destruct (_ && _) eqn:E; [|done]. apply andb_true_iff in E as [E _]. apply Z.eqb_eq in E.
    destruct (Heq E) as [_ Hacc]. apply ok_or_Ok in H. exists b. split; [done|]. cbn. congruence.
Qed.

(** C39: However sign-ins, sign-outs and the work of delayed tasks interleave, a handle that
    was bound to an account only ever works on that account's database. *)
Theorem bound_handles_keep_their_account w :
  rtc step first_world w -> Forall in_own_account (worked w).
Proof.
  intros H. apply ok_worked.
  assert (Hok : world_ok first_world) by by constructor.
  induction H as [w|w w1 w2 Hstep _ IH]; [done|]. by apply IH, (step_ok w).
Qed.

(** Account [a] works, is replaced by [b], and its late task is refused. *)
Definition signed_in (a : string) (n : Z) : StoreState :=
  {| connection := Some a; account_id := Some a; generation := n |}.
Definition closed (n : Z) : StoreState := {| connection := None; account_id := None; generation := n |}.
Definition handle (a : string) (n : Z) : SessionStore :=
  {| routed := true; binding := Some {| bd_generation := n; bd_account_id := Some a |} |}.
Definition switched : World :=
  {| store := signed_in "b" 2; switching := None; bound := [handle "a" 1];
     worked := [(handle "a" 1, "a")] |}.

Lemma switched_reachable : rtc step first_world switched.
Proof.
  eapply rtc_l; [apply (step_switch _ "a" (closed 1)); done|].
  eapply rtc_l; [by apply (step_install _ "a")|].
  eapply rtc_l; [by apply (step_bind _ (handle "a" 1))|].
  eapply rtc_l; [apply (step_work _ (handle "a" 1) "a"); [by left|done]|].
  eapply rtc_l; [apply (step_switch _ "b" (closed 2)); done|].
  eapply rtc_l; [by apply (step_install _ "b")|]. reflexivity.
Qed.

Lemma bound_handles_keep_their_account_witness :
  Forall in_own_account (worked switched)
  /\ lock (handle "a" 1) (store switched) = Err stale_account_binding.
Proof. split; [apply bound_handles_keep_their_account, switched_reachable|done]. Defined.
