(* ===== verification/StoreInvariant.v ===== *)
(** The invariant of the session store: the Hoare rules of its statements, what every row
    of its tables satisfies, and that each event a process records keeps it: identifiers and
    sequences are those of one row, every column holds a name of its vocabulary, and every
    item can be projected back into events. *)

From stdpp Require Import base gmap strings list sorting.
From Stdlib Require Import ZArith NArith Lia ZifyBool ZifyN ZifyNat.
From S2P Require Import Prelude RustStr Json Accounting Inference Attachments Paths AppError Policy Models Kernel Redact Tables Timeline Events Projection Recovery StoreQueries.

Local Open Scope Z_scope.

(** ** Statements *)

(** What a sequence of statements that succeeds makes of the tables; one that fails is
    rolled back. *)
Definition sat {A} (P : Db -> Prop) (m : Sql A) (Q : A -> Db -> Prop) : Prop :=
  triple (fun c => P (cn_db c)) m (fun a c => Q a (cn_db c)) (fun _ _ => True).

Lemma sat_ret {A} (P : Db -> Prop) (a : A) (Q : A -> Db -> Prop) :
  (forall d, P d -> Q a d) -> sat P (mret a) Q.
Proof. intros H c Hc. by apply H. Qed.

Lemma sat_throw {A} P (e : AxiomError) (Q : A -> Db -> Prop) : sat P (throw e) Q.
Proof. by intros c Hc. Qed.

Lemma sat_lift {A} (P : Db -> Prop) (r : result AxiomError A) (Q : A -> Db -> Prop) :
  (forall a d, r = Ok a -> P d -> Q a d) -> sat P (lift r) Q.
Proof. intros H c Hc. unfold lift. destruct r as [a|e]; [exact (H a _ eq_refl Hc)|exact I]. Qed.

Lemma sat_bind {A B} P (m : Sql A) (f : A -> Sql B) Mid Q :
  sat P m Mid -> (forall a, sat (Mid a) (f a) Q) -> sat P (m ≫= f) Q.
Proof. apply triple_bind. Qed.

Lemma sat_weaken {A} (P P' : Db -> Prop) (m : Sql A) (Q Q' : A -> Db -> Prop) :
  sat P' m Q' -> (forall d, P d -> P' d) -> (forall a d, Q' a d -> Q a d) -> sat P m Q.
Proof. intros H HP HQ. eapply triple_weaken; [exact H|..]; cbv beta; auto. Qed.

Lemma sat_statement {A} (P : Db -> Prop) (f : Db -> result string (Db * A)) (Q : A -> Db -> Prop) :
  (forall d d' a, P d -> f d = Ok (d', a) -> Q a d') -> sat P (statement f) Q.
Proof.
  intros H c Hc. unfold statement. cbv zeta.
  destruct (head (cn_faults c)) as [[m|]|]; [done|..];
    (destruct (f (cn_db c)) as [[d a]|m] eqn:E; [|done]; cbn; by eapply H).
Qed.

Lemma sat_query {A} (P : Db -> Prop) (f : Db -> A) (Q : A -> Db -> Prop) :
  (forall d, P d -> Q (f d) d) -> sat P (query f) Q.
Proof. intros H. apply sat_statement. intros d d' a Hd [= <- <-]. by apply H. Qed.

Lemma sat_query_eq {A} (P : Db -> Prop) (f : Db -> A) : sat P (query f) (fun a d => P d /\ f d = a).
Proof. by apply sat_query. Qed.

Lemma sat_new_uuid (P : Db -> Prop) : sat P new_uuid (fun _ => P).
Proof. by intros c Hc. Qed.
Lemma sat_utc_now (P : Db -> Prop) : sat P utc_now (fun _ => P).
Proof. by intros c Hc. Qed.

Lemma sat_iter {A} (P : Db -> Prop) (f : A -> Sql unit) l :
  (forall x, x ∈ l -> sat P (f x) (fun _ => P)) -> sat P (iterM f l) (fun _ => P).
Proof. intros H. by apply triple_iter. Qed.

(** A transaction does what its body does, and keeps what its body keeps when it
    succeeds. *)
Lemma sat_begun {A} (P : Db -> Prop) (body : Sql A) Q : sat P body Q -> sat P (begun_committed body) Q.
Proof.
  intros H. unfold begun_committed.
  eapply sat_bind; [by apply (sat_query P _ (fun _ => P))|intros u].
  eapply sat_bind; [exact H|intros a].
  eapply sat_bind; [by apply (sat_query (Q a) _ (fun _ => Q a))|intros u']. by apply sat_ret.
Qed.

Lemma sat_transaction {A} (P : Db -> Prop) (body : Sql A) Q : sat P body Q -> sat P (transaction body) Q.
Proof.
  intros H c Hc. unfold transaction. assert (Hs := sat_begun P body Q H). specialize (Hs c Hc).
  by destruct (begun_committed body c) as [c' [a|e]].
Qed.

Lemma transaction_keeps {A} (P : Db -> Prop) (body : Sql A) c :
  sat P body (fun _ => P) -> P (cn_db c) -> P (cn_db (transaction body c).1).
Proof.
  intros H Hc. unfold transaction. assert (Hs := sat_begun P body _ H). specialize (Hs c Hc).
  by destruct (begun_committed body c) as [c' [a|e]].
Qed.

(** ** Rows that match *)

Lemma elem_of_filterb {A} (p : A -> bool) l x : x ∈ List.filter p l <-> x ∈ l /\ p x = true.
Proof. rewrite !list_elem_of_In. apply filter_In. Qed.

Lemma elem_of_update {R} (p : R -> bool) f l x :
  x ∈ update_where p f l <-> exists y, y ∈ l /\ x = if p y then f y else y.
Proof. unfold update_where. rewrite list_elem_of_fmap. naive_solver. Qed.

Lemma Forall_update {R} (P : R -> Prop) (p : R -> bool) f l :
  Forall P l -> (forall x, x ∈ l -> p x = true -> P x -> P (f x)) -> Forall P (update_where p f l).
Proof.
  rewrite !Forall_forall. intros H Hf x (y & Hy & ->)%elem_of_update.
  destruct (p y) eqn:Hp; [by apply Hf, H|by apply H].
Qed.

Lemma update_fmap {R B} (g : R -> B) (p : R -> bool) f l :
  (forall x, g (f x) = g x) -> g <$> update_where p f l = g <$> l.
Proof.
  intros Hg. unfold update_where. rewrite <- list_fmap_compose. apply list_fmap_ext.
  intros i x _. cbn. by destruct (p x).
Qed.

Lemma update_fmap_when {R B} (g : R -> B) (p : R -> bool) f l :
  (forall x, p x = true -> g (f x) = g x) -> g <$> update_where p f l = g <$> l.
Proof.
  intros Hg. unfold update_where. rewrite <- list_fmap_compose. apply list_fmap_ext.
  intros i x _. cbn. destruct (p x) eqn:E; [by apply Hg|done].
Qed.

Lemma sorted_map {A} (R : relation A) (f : A -> A) l :
  (forall x y, R x y -> R (f x) (f y)) -> StronglySorted R l -> StronglySorted R (f <$> l).
Proof.
  intros Hf. induction 1 as [|x l Hl IH Hx]; cbn; constructor; [done|].
  apply Forall_fmap. eapply Forall_impl; [exact Hx|]. cbn. auto.
Qed.

Lemma sorted_filter {A} (R : relation A) (p : A -> bool) l :
  StronglySorted R l -> StronglySorted R (List.filter p l).
Proof.
  induction 1 as [|x l Hl IH Hx]; cbn; [constructor|]. destruct (p x); [|done].
  constructor; [done|]. rewrite Forall_forall in *. intros y [Hy _]%elem_of_filterb. auto.
Qed.

Lemma sorted_snoc {A} (R : relation A) l x :
  StronglySorted R l -> Forall (fun y => R y x) l -> StronglySorted R (l ++ [x]).
Proof.
  induction 1 as [|y l Hl IH Hy]; intros Hx; cbn; [repeat constructor|].
  inversion Hx; subst. constructor; [by apply IH|]. apply Forall_app. split; [done|by repeat constructor].
Qed.

Lemma NoDup_filterb {A} (p : A -> bool) (l : list A) : NoDup l -> NoDup (List.filter p l).
Proof.
  induction 1 as [|x l Hx Hl IH]; cbn; [constructor|]. destruct (p x); [|done]. constructor; [|done].
  by intros [? _]%elem_of_filterb.
Qed.

Lemma NoDup_fmap_filterb {A B} (g : A -> B) (p : A -> bool) (l : list A) :
  NoDup (g <$> l) -> NoDup (g <$> List.filter p l).
Proof.
  induction l as [|x l IH]; cbn; [done|]. intros [Hx Hl]%NoDup_cons. destruct (p x); [|by apply IH].
  cbn. apply NoDup_cons. split; [|by apply IH]. intros (y & Hy & [Hin _]%elem_of_filterb)%list_elem_of_fmap.
  apply Hx. rewrite Hy. by apply list_elem_of_fmap_2.
Qed.

Lemma NoDup_fmap_inj {A B} (g : A -> B) (l : list A) x y :
  NoDup (g <$> l) -> x ∈ l -> y ∈ l -> g x = g y -> x = y.
Proof.
  induction l as [|z l IH]; cbn; [by intros _ ?%elem_of_nil|]. intros [Hz Hl]%NoDup_cons.
  rewrite !elem_of_cons. intros [->|Hx] [->|Hy] E; [done|..|by apply IH].
  - exfalso. apply Hz. rewrite E. by apply list_elem_of_fmap_2.
  - exfalso. apply Hz. rewrite <- E. by apply list_elem_of_fmap_2.
Qed.

Lemma find_Some_iff {A} (p : A -> bool) l x : List.find p l = Some x -> x ∈ l /\ p x = true.
Proof. rewrite list_elem_of_In. apply find_some. Qed.

(** ** Sorting *)

(** Rows already in the order stay in it. *)
Lemma sort_by_id {A} (le : A -> A -> bool) l :
  StronglySorted (fun a b => le a b = true) l -> sort_by le l = l.
Proof.
  induction 1 as [|x l Hl IH Hx]; [done|]. cbn. unfold sort_by in IH. rewrite IH.
  destruct Hx as [|y l Hy _]; cbn; [done|]. by rewrite Hy.
Qed.

(** Rows sorted by an order that refines the one of a column are in the order of the
    column. *)
Lemma sort_insert_on {A} (g : A -> Z) (le : A -> A -> bool) x l :
  (forall a b, le a b = true -> g a <= g b) -> (forall a b, le a b = false -> g b <= g a) ->
  StronglySorted (fun a b => g a <= g b) l -> StronglySorted (fun a b => g a <= g b) (sort_insert le x l).
Proof.
  intros Ht Hf. induction 1 as [|y l Hl IH Hy]; cbn; [by repeat constructor|]. destruct (le x y) eqn:E.
  - apply Ht in E. constructor; [by constructor|]. constructor; [done|].
    eapply Forall_impl; [exact Hy|]. cbn. lia.
  - apply Hf in E. constructor; [done|]. rewrite sort_insert_perm. by constructor.
Qed.

Lemma sort_by_on {A} (g : A -> Z) (le : A -> A -> bool) l :
  (forall a b, le a b = true -> g a <= g b) -> (forall a b, le a b = false -> g b <= g a) ->
  StronglySorted (fun a b => g a <= g b) (sort_by le l).
Proof. intros Ht Hf. induction l as [|x l IH]; [constructor|]. by apply sort_insert_on. Qed.

(** Rows in the opposite order are reversed. *)
Lemma sort_insert_last {A} (le : A -> A -> bool) x l :
  Forall (fun y => le x y = false) l -> sort_insert le x l = l ++ [x].
Proof. induction 1 as [|y l Hy _ IH]; cbn; [done|]. by rewrite Hy, IH. Qed.

Lemma sort_by_reverse {A} (le : A -> A -> bool) l :
  StronglySorted (fun a b => le a b = false) l -> sort_by le l = reverse l.
Proof.
  induction 1 as [|x l Hl IH Hx]; [done|]. unfold sort_by in *. cbn [foldr]. rewrite IH, reverse_cons.
  apply sort_insert_last. by apply Forall_reverse.
Qed.

(** * Well-formed stores *)

(** ** Members of redacted objects *)

Definition redact_at (k : string) (w : Value) : Value :=
  if is_secret_key k then VString redacted else redact_value w.
Definition redact_members (m : Map) : Map := (fun kv => (kv.1, redact_at kv.1 kv.2)) <$> m.

Lemma redact_object m : redact_value (VObject m) = VObject (redact_members m).
Proof.
  cbn. f_equal. unfold redact_members, redact_at.
  induction m as [|[k w] m IH]; [done|]. cbn. by rewrite IH.
Qed.

Lemma map_get_redacted k m : map_get k (redact_members m) = redact_at k <$> map_get k m.
Proof.
  induction m as [|[k' w] m IH]; [done|]. cbn. case_decide; [by subst|]. exact IH.
Qed.

Lemma redact_insert k w m : redact_members (map_insert k w m) = map_insert k (redact_at k w) (redact_members m).
Proof.
  induction m as [|[k' w'] m IH]; [done|]. cbn [map_insert].
  change (redact_members ((k', w') :: m)) with ((k', redact_at k' w') :: redact_members m). cbn [map_insert].
  repeat case_decide; subst; cbn; try done. f_equal. exact IH.
Qed.

Lemma map_get_insert_ne k k' w m : k <> k' -> map_get k' (map_insert k w m) = map_get k' m.
Proof.
  intros Hne. induction m as [|[j v] m IH]; cbn; [by rewrite decide_False|].
  repeat (case_decide; subst; cbn); try done; by rewrite ?decide_False.
Qed.

Lemma value_get_insert k k' w m :
  value_get k' (VObject (map_insert k w m)) = if decide (k = k') then Some w else value_get k' (VObject m).
Proof.
  cbn. case_decide; [subst; apply map_get_insert_eq|by apply map_get_insert_ne].
Qed.

Lemma value_get_redacted k v : value_get k (redact_value v) = redact_at k <$> value_get k v.
Proof. destruct v as [| | | | |m]; try done. rewrite redact_object. apply map_get_redacted. Qed.

(** A value that redaction leaves alone still is one with a redacted member set. *)
Lemma redact_set k w m :
  redact_value (VObject m) = VObject m ->
  redact_value (VObject (map_insert k w m)) = VObject (map_insert k (redact_at k w) m).
Proof. rewrite !redact_object, redact_insert. by intros [= ->]. Qed.

(** A row keeps its key. *)
Ltac frame := repeat (hnf; intros); repeat split.

Section Invariant.
Context `{CH : Chrono} `{SC : StoreCodec} `{TI : TurnIds} `{B64 : Base64} `{SJ : SerdeJson}.

(** What serde's derived codecs do on redacted values: every field that redaction can
    change is a text. *)
Class StoreLaws : Prop := {
  tasks_law l : exists l', tasks_from_value (redact_value (tasks_to_value l)) = Ok l';
  progress_law p : progress_from_value (redact_value (progress_to_value p)) = Some p;
  image_law g : exists m, image_to_value g = VObject m /\
    map_get "mimeType" m = Some (VString (gi_mime_type g)) /\
    forall s, is_Some (image_from_value
      (VObject (map_insert "data" (VString s) (redact_members (map_remove "data" m)))))
}.

(** ** Rows *)

Record thread_ok (r : ThreadRow) : Prop := {
  to_encoding : th_cwd_encoding r = "unix_bytes";
  to_origin : exists o, th_origin r = origin_name o;
  to_profile : exists p, th_profile r = profile_name p;
  to_thinking : exists l, th_thinking_level r = thinking_name l;
  to_lifecycle : exists l, th_lifecycle r = lifecycle_name l;
  to_revision : 0 <= th_revision r;
  to_sequence : 0 <= th_next_sequence r
}.

Definition turn_text_ok (o : option string) : Prop :=
  forall t, o = Some t -> turn_id_from_str t = Ok t.

Record turn_ok (r : TurnRow) : Prop := {
  uo_id : turn_id_from_str (tu_id r) = Ok (tu_id r);
  uo_status : exists s, tu_status r = turn_status_name s;
  uo_input : 0 <= tu_input_tokens r;
  uo_output : 0 <= tu_output_tokens r
}.

(** A tool call's images can be read back, and a task list. *)
Definition images_ok (v : Value) : Prop :=
  (forall p, value_get "image_progress" v = Some p ->
     is_image_call v = true /\ exists q, progress_from_value p = Some q /\ valid_after q None = true) /\
  (forall proof, value_get "generated_image" v = Some proof ->
     is_image_call v = true /\ exists image, tool_image v proof = Ok image).
Definition tasks_ok (v : Value) : Prop :=
  get_string "code" v = Some "task_list" ->
  forall l, value_get "items" v = Some l -> exists tasks, tasks_from_value l = Ok tasks.

Definition streamed (r : ItemRow) : bool := is_kind KAssistantMessage r || is_kind KReasoning r.

Record item_ok (r : ItemRow) : Prop := {
  io_kind : exists k, ti_kind r = kind_name k;
  io_status : exists s, ti_status r = status_name s;
  io_sequence : 0 < ti_sequence r;
  io_turn : turn_text_ok (ti_turn_id r);
  io_user : is_kind KUserMessage r = true -> ti_turn_id r <> None;
  io_object : exists m, ti_metadata r = VObject m;
  io_redacted : streamed r = false -> redact_value (ti_metadata r) = ti_metadata r;
  io_images : is_kind KToolCall r = true -> images_ok (ti_metadata r);
  io_tasks : is_kind KPlan r = true -> tasks_ok (ti_metadata r)
}.

(** Two items of one thread are in the order of their sequences. *)
Definition item_before (a b : ItemRow) : Prop :=
  ti_thread_id a = ti_thread_id b -> ti_sequence a < ti_sequence b.

(** A row keeps its key. *)
Definition row_frame (r r' : ItemRow) : Prop :=
  ti_id r' = ti_id r /\ ti_thread_id r' = ti_thread_id r /\ ti_sequence r' = ti_sequence r /\
  ti_kind r' = ti_kind r.
Definition item_frame (f : ItemRow -> ItemRow) : Prop := forall r, row_frame r (f r).

(** A request is filed under its own identifier. *)
Definition usage_ok (r : UsageRow) : Prop := ru_id r = Accounting.request_id (ru_record r).

(** Collections are in the positions from zero, as many as there are of them. *)
Record shelves_ok (l : list CollectionRow) : Prop := {
  sh_ids : NoDup (co_id <$> l);
  sh_positions : Z.of_nat (length l) <= I64_MAX -> co_position <$> l ≡ₚ seqZ 0 (Z.of_nat (length l))
}.

Record store_ok (d : Db) : Prop := {
  so_thread_ids : NoDup (th_id <$> db_threads d);
  so_threads : Forall thread_ok (db_threads d);
  so_turn_ids : NoDup ((fun t => (tu_thread_id t, tu_id t)) <$> db_turns d);
  so_turns : Forall turn_ok (db_turns d);
  so_item_ids : NoDup (ti_id <$> db_items d);
  so_items : Forall item_ok (db_items d);
  so_order : StronglySorted item_before (db_items d);
  so_bounds : forall r t, r ∈ db_items d -> t ∈ db_threads d -> ti_thread_id r = th_id t ->
                ti_sequence r <= th_next_sequence t;
  so_owners : forall r, r ∈ db_items d -> exists t, t ∈ db_threads d /\ th_id t = ti_thread_id r;
  so_usage_ids : NoDup (ru_id <$> db_usage d);
  so_usage : Forall usage_ok (db_usage d);
  so_shelves : shelves_ok (db_collections d);
  so_assigned : NoDup (as_thread_id <$> db_assignments d);
  so_assignments : forall a, a ∈ db_assignments d ->
    as_thread_id a ∈ th_id <$> db_threads d /\ as_collection_id a ∈ co_id <$> db_collections d
}.

(** The tables the invariant speaks of. *)
Definition same_tables (d d' : Db) : Prop :=
  db_threads d' = db_threads d /\ db_turns d' = db_turns d /\ db_items d' = db_items d /\
  db_usage d' = db_usage d /\ db_collections d' = db_collections d /\ db_assignments d' = db_assignments d.

Lemma store_ok_same d d' : same_tables d d' -> store_ok d -> store_ok d'.
Proof. intros (E1 & E2 & E3 & E4 & E5 & E6) []. constructor; by rewrite ?E1, ?E2, ?E3, ?E4, ?E5, ?E6. Qed.

(** ** Updates *)

Definition thread_frame (f : ThreadRow -> ThreadRow) : Prop :=
  forall r, th_id (f r) = th_id r /\ th_next_sequence r <= th_next_sequence (f r) /\
            (thread_ok r -> thread_ok (f r)).

Lemma threads_updated d p f :
  thread_frame f -> store_ok d -> store_ok (db_set_threads (update_where p f (db_threads d)) d).
Proof.
  intros Hf []. constructor; cbn; try done.
  - rewrite update_fmap; [done|]. intros x. apply Hf.
  - apply Forall_update; [done|]. intros x _ _. apply Hf.
  - intros r t Hr (t0 & Ht0 & ->)%elem_of_update E. destruct (p t0); [|by apply so_bounds0].
    destruct (Hf t0) as (Hid & Hle & _). specialize (so_bounds0 r t0 Hr Ht0). lia || (rewrite Hid in E; etransitivity; [by apply so_bounds0|done]).
  - intros r Hr. destruct (so_owners0 r Hr) as (t & Ht & Et). exists (if p t then f t else t). split.
    + apply elem_of_update. by exists t.
    + destruct (p t); [|done]. destruct (Hf t) as [-> _]. done.
  - rewrite update_fmap; [done|]. intros x. apply Hf.
Qed.

Definition turn_frame (f : TurnRow -> TurnRow) : Prop :=
  forall r, tu_thread_id (f r) = tu_thread_id r /\ tu_id (f r) = tu_id r /\ (turn_ok r -> turn_ok (f r)).

Lemma turns_updated d p f :
  turn_frame f -> store_ok d -> store_ok (db_set_turns (update_where p f (db_turns d)) d).
Proof.
  intros Hf []. constructor; cbn; try done.
  - rewrite update_fmap; [done|]. intros x. by destruct (Hf x) as (-> & -> & _).
  - apply Forall_update; [done|]. intros x _ _. apply Hf.
Qed.

Lemma items_updated d p f :
  item_frame f -> (forall r, r ∈ db_items d -> p r = true -> item_ok r -> item_ok (f r)) ->
  store_ok d -> store_ok (db_set_items (update_where p f (db_items d)) d).
Proof.
  intros Hf Hok []. constructor; cbn; try done.
  - rewrite update_fmap; [done|]. intros x. apply Hf.
  - by apply Forall_update.
  - apply sorted_map; [|done]. intros x y Hxy. unfold item_before in *.
    destruct (Hf x) as (_ & Ex & Sx & _), (Hf y) as (_ & Ey & Sy & _).
    destruct (p x), (p y); by rewrite ?Ex, ?Ey, ?Sx, ?Sy.
  - intros r t (r0 & Hr0 & ->)%elem_of_update Ht E. destruct (p r0); [|by apply so_bounds0].
    destruct (Hf r0) as (_ & Er & Sr & _). rewrite Er in E. rewrite Sr. by apply so_bounds0.
  - intros r (r0 & Hr0 & ->)%elem_of_update. destruct (so_owners0 r0 Hr0) as (t & Ht & Et).
    exists t. split; [done|]. rewrite Et. destruct (p r0); [|done]. by destruct (Hf r0) as (_ & -> & _).
Qed.

(** The item of an identifier is one row. *)
Definition row_at (d : Db) (id : string) (r : ItemRow) : Prop := r ∈ db_items d /\ ti_id r = id.

Lemma row_at_unique d id r r' : store_ok d -> row_at d id r -> row_at d id r' -> r = r'.
Proof.
  intros H [H1 E1] [H2 E2]. apply (NoDup_fmap_inj ti_id (db_items d)); [apply H|done..|congruence].
Qed.

Lemma row_at_ok d id r : store_ok d -> row_at d id r -> item_ok r.
Proof. intros H [Hr _]. pose proof (so_items d H) as Hi. rewrite Forall_forall in Hi. by apply Hi. Qed.

Lemma item_updated d id r f :
  item_frame f -> row_at d id r -> item_ok (f r) -> store_ok d ->
  store_ok (db_set_items (update_where (item_is id) f (db_items d)) d).
Proof.
  intros Hf Hr Hok H.
  assert (Hu : forall r', r' ∈ db_items d -> item_is id r' = true -> r' = r).
  { intros r' Hr' Hid. apply bool_decide_eq_true in Hid. by apply (row_at_unique d id). }
  apply items_updated; [done| |done]. intros r' Hr' Hid _. by rewrite (Hu r').
Qed.

(** ** The writes of the timeline *)

Definition write_ok (w : TimelineItemWrite) : Prop :=
  forall id thread n, 0 < n -> item_ok (item_row id thread n w).

Lemma sat_update_threads p f : thread_frame f -> sat store_ok (update_threads p f) (fun _ => store_ok).
Proof. intros Hf. apply sat_statement. intros d d' a Hd [= <- <-]. by apply threads_updated. Qed.

Lemma sat_update_turns p f : turn_frame f -> sat store_ok (update_turns p f) (fun _ => store_ok).
Proof. intros Hf. apply sat_statement. intros d d' a Hd [= <- <-]. by apply turns_updated. Qed.

(** A request keeps its identifier. *)
Definition usage_frame (p : UsageRow -> bool) (f : UsageRow -> UsageRow) : Prop :=
  forall r, p r = true -> ru_id (f r) = ru_id r /\ (usage_ok r -> usage_ok (f r)).

Lemma usage_updated d p f : usage_frame p f -> store_ok d -> store_ok (db_set_usage (update_where p f (db_usage d)) d).
Proof.
  intros Hf []. constructor; cbn; try done.
  - rewrite update_fmap_when; [done|]. intros x Hx. by apply Hf.
  - apply Forall_update; [done|]. intros x _ Hx. by apply Hf.
Qed.

Lemma sat_update_usage p f : usage_frame p f -> sat store_ok (update_usage p f) (fun _ => store_ok).
Proof. intros Hf. apply sat_statement. intros d d' a Hd [= <- <-]. by apply usage_updated. Qed.

Lemma record_frame p (g : RequestUsage -> RequestUsage) :
  (forall u, Accounting.request_id (g u) = Accounting.request_id u) ->
  usage_frame p (fun r => ru_set_record (g (ru_record r)) r).
Proof. intros Hg r _. split; [done|]. unfold usage_ok. cbn. by rewrite Hg. Qed.

Lemma upsert_usage_ok d d' thread usage :
  store_ok d ->
  (if existsb (fun o => bool_decide (ru_id o = Accounting.request_id usage)) (db_usage d)
   then Ok (db_set_usage
              (update_where (fun o => bool_decide (ru_id o = Accounting.request_id usage)
                                      && bool_decide (ru_thread_id o = thread))
                 (ru_set_record usage) (db_usage d)) d, tt)
   else if negb (has_thread thread d) then Err foreign_key
   else Ok (db_set_usage (db_usage d ++ [{| ru_id := Accounting.request_id usage; ru_thread_id := thread;
                                            ru_record := usage |}]) d, tt)) = Ok (d', tt) -> store_ok d'.
Proof.
  intros Hok H. destruct (existsb _ _) eqn:E.
  - injection H as <-. destruct Hok. constructor; cbn; try done.
    + by rewrite update_fmap.
    + apply Forall_update; [done|]. intros r _ Hr _. apply andb_true_iff in Hr as [Hr%bool_decide_eq_true _]. exact Hr.
  - destruct (negb _); [done|]. injection H as <-. destruct Hok. constructor; cbn; try done.
    + rewrite fmap_app. apply NoDup_app. split_and!; [done| |by apply NoDup_singleton].
      intros x (r & -> & Hr)%list_elem_of_fmap. cbn. rewrite list_elem_of_singleton. intros Hx.
      rewrite existsb_false in E. specialize (E r Hr). by apply bool_decide_eq_false in E.
    + apply Forall_app. split; [done|]. by apply Forall_singleton.
Qed.

Lemma sat_upsert_usage thread usage :
  sat store_ok (upsert_usage {| ru_id := Accounting.request_id usage; ru_thread_id := thread; ru_record := usage |})
    (fun _ => store_ok).
Proof. apply sat_statement. intros d d' []. apply upsert_usage_ok. Qed.
Lemma attachments_irrelevant d u : store_ok d -> store_ok (db_set_attachments u d).
Proof. by apply store_ok_same. Qed.
Lemma preferences_irrelevant d u : store_ok d -> store_ok (db_set_preferences u d).
Proof. by apply store_ok_same. Qed.

Lemma sat_ensure_thread (P : Db -> Prop) id : sat P (ensure_thread id) (fun _ => P).
Proof.
  eapply sat_bind; [by apply (sat_query P _ (fun _ => P))|]. intros [].
  - by apply sat_ret.
  - apply sat_throw.
Qed.

Lemma lifecycle_frame l : thread_frame (th_set_lifecycle (lifecycle_name l)).
Proof. intros r. split_and!; [done..|]. intros []. constructor; cbn; by eauto. Qed.

Lemma sat_set_thread_lifecycle thread l : sat store_ok (set_thread_lifecycle thread l) (fun _ => store_ok).
Proof.
  eapply sat_bind; [apply sat_update_threads, lifecycle_frame|]. intros n.
  case_bool_decide; [apply sat_throw|by apply sat_ret].
Qed.

Lemma find_thread_spec id d r : find_thread id d = Some r -> r ∈ db_threads d /\ th_id r = id.
Proof. intros [Hr Hid]%find_Some_iff. by apply bool_decide_eq_true in Hid. Qed.

Lemma item_conflict_none r d :
  item_conflict r d = None ->
  ti_id r ∉ ti_id <$> db_items d /\ 0 < ti_sequence r.
Proof.
  unfold item_conflict. intros H.
  destruct (existsb _ _) eqn:E1 in H; [done|]. destruct (existsb _ _) in H; [done|].
  destruct (existsb _ _) in H; [done|]. destruct (0 <? ti_sequence r) eqn:E2; [|done].
  split; [|lia]. intros (x & Hx & Hin)%list_elem_of_fmap. rewrite existsb_false in E1.
  specialize (E1 x Hin). apply bool_decide_eq_false in E1. congruence.
Qed.

(** A row whose sequence its thread has just reserved. *)
Lemma item_inserted d r t :
  store_ok d -> item_ok r -> item_conflict r d = None ->
  t ∈ db_threads d -> th_id t = ti_thread_id r -> th_next_sequence t = ti_sequence r ->
  (forall x, x ∈ db_items d -> ti_thread_id x = ti_thread_id r -> ti_sequence x < ti_sequence r) ->
  store_ok (db_set_items (db_items d ++ [r]) d).
Proof.
  intros [] Hr [Hid Hpos]%item_conflict_none Ht Et Es Hlt. constructor; cbn; try done.
  - rewrite fmap_app. apply NoDup_app. split_and!; [done| |by apply NoDup_singleton].
    intros x Hx. cbn. rewrite list_elem_of_singleton. by intros ->.
  - apply Forall_app. split; [done|]. by apply Forall_singleton.
  - apply sorted_snoc; [done|]. apply Forall_forall. intros x Hx E. by apply Hlt.
  - intros x t' [Hx| ->%list_elem_of_singleton]%elem_of_app Ht' E; [by apply so_bounds0|].
    assert (t' = t) as ->; [|lia]. apply (NoDup_fmap_inj th_id (db_threads d)); [done..|congruence].
  - intros x [Hx| ->%list_elem_of_singleton]%elem_of_app; [by apply so_owners0|]. by exists t.
Qed.

Definition inserted (thread : string) (w : TimelineItemWrite) (x : string * Z) (d : Db) : Prop :=
  store_ok d /\ exists n, row_at d x.1 (item_row x.1 thread n w).

Lemma sat_insert_timeline_item thread w :
  write_ok w -> sat store_ok (insert_timeline_item thread w) (inserted thread w).
Proof.
  intros Hw. unfold insert_timeline_item.
  eapply (sat_bind _ _ _ (fun _ d => store_ok d /\ forall x t, x ∈ db_items d -> t ∈ db_threads d ->
            th_id t = thread -> ti_thread_id x = thread -> ti_sequence x < th_next_sequence t)).
  { apply sat_statement. intros d d' a Hd [= <- <-]. split.
    - apply threads_updated; [|done]. intros r. cbn. split_and!; [done|lia|]. intros []. constructor; cbn; eauto; lia.
    - intros x t Hx (t0 & Ht0 & ->)%elem_of_update Et Ex. unfold of_thread in *.
      pose proof (so_bounds d Hd x t0 Hx Ht0) as Hle. case_bool_decide as E; cbn in *; [|congruence].
      rewrite Ex, E in Hle. specialize (Hle eq_refl). lia. }
  intros n. case_bool_decide; [apply sat_throw|].
  eapply sat_bind; [apply sat_query_eq|].
  intros [t|]; [|apply sat_throw]. cbv beta zeta.
  eapply sat_bind; [apply sat_new_uuid|]. intros id. cbv beta.
  eapply (sat_bind _ _ _ (fun _ => inserted thread w (id, th_next_sequence t))).
  { apply sat_statement. intros d d' a [[Hd Hlt] Ht] Hi. apply find_thread_spec in Ht as [Ht Et].
    destruct (item_conflict _ _) eqn:E; [done|]. injection Hi as <- <-.
    pose proof (item_conflict_none _ _ E) as [_ Hpos]. cbn in Hpos. split.
    - apply (item_inserted d _ t); try done; [by apply Hw|].
      intros x Hx Ex. cbn. by apply Hlt.
    - exists (th_next_sequence t). split; [|done]. cbn. apply elem_of_app. right. by apply list_elem_of_singleton. }
  intros u. eapply sat_bind.
  { apply (sat_lift _ _ (fun _ => inserted thread w (id, th_next_sequence t))). by intros. }
  intros m. apply sat_ret. intros d [Hd [k Hk]]. split; [done|]. by exists k.
Qed.

(** What a search by an external identifier finds. *)
Definition found_at (d : Db) (p : ItemRow -> bool) (o : option string) : Prop :=
  forall id, o = Some id -> exists r, row_at d id r /\ p r = true.

Lemma latest_item_found d p : found_at d p (ti_id <$> latest_item p d).
Proof.
  intros id H. unfold latest_item in H. destruct (head _) as [r|] eqn:E; [|done]. injection H as <-.
  assert (Hr : r ∈ sort_by (fun a b => ti_sequence b <=? ti_sequence a) (List.filter p (db_items d))).
  { destruct (sort_by _ _); [done|]. injection E as ->. by apply list_elem_of_here. }
  rewrite elem_of_sort_by, elem_of_filterb in Hr. destruct Hr as [Hr Hp]. by exists r.
Qed.

Lemma sat_find_external_item thread k external :
  sat store_ok (find_external_item thread k external)
    (fun o d => store_ok d /\ found_at d (external_item thread k external) o).
Proof. apply sat_query. intros d Hd. split; [done|]. apply latest_item_found. Qed.

Lemma external_kind thread k external r : external_item thread k external r = true -> is_kind k r = true.
Proof. unfold external_item. by intros [[_ ?]%andb_true_iff _]%andb_true_iff. Qed.

Lemma is_kind_row k id thread n w : is_kind k (item_row id thread n w) = bool_decide (tw_kind w = k).
Proof. unfold is_kind. cbn. destruct (tw_kind w), k; by vm_compute. Qed.

(** The item a tool's event is about. *)
Definition item_with (k : TimelineItemKind) (id : string) (d : Db) : Prop :=
  store_ok d /\ exists r, row_at d id r /\ is_kind k r = true.

Lemma sat_ensure_external_item thread turn k external metadata now :
  write_ok {| tw_turn_id := turn; tw_kind := k; tw_status := IsPending; tw_client_item_id := None;
              tw_external_id := Some external; tw_content := EmptyString; tw_metadata := metadata;
              tw_now := now |} ->
  sat store_ok (ensure_external_item thread turn k external metadata now) (item_with k).
Proof.
  intros Hw. eapply sat_bind; [apply sat_find_external_item|]. intros [id|]; cbv beta.
  - apply sat_ret. intros d [Hd Hf]. split; [done|]. destruct (Hf id eq_refl) as (r & Hr & Hp).
    exists r. split; [done|]. by eapply external_kind.
  - eapply sat_bind; [eapply sat_weaken; [by apply sat_insert_timeline_item|by intros d [? _]|done]|].
    intros x. apply sat_ret. intros d [Hd [n Hn]]. split; [done|]. eexists. split; [exact Hn|].
    rewrite is_kind_row. cbn. by rewrite bool_decide_true.
Qed.

Lemma sat_item_metadata k id :
  sat (item_with k id) (item_metadata id)
    (fun v d => store_ok d /\ exists r, row_at d id r /\ is_kind k r = true /\ ti_metadata r = v).
Proof.
  eapply sat_bind; [apply sat_query_eq|].
  intros [r|]; [|apply sat_throw]. apply sat_ret. intros d [[Hd (r' & Hr' & Hk)] E].
  apply find_Some_iff in E as [Hr Hid]. apply bool_decide_eq_true in Hid.
  rewrite (row_at_unique d id r' r Hd Hr' (conj Hr Hid)) in *. by split; [|exists r].
Qed.

(** ** Metadata *)

Lemma row_kind k r : is_kind k r = true <-> ti_kind r = kind_name k.
Proof. unfold is_kind. by rewrite bool_decide_eq_true. Qed.

(** The members [images_ok] and [tasks_ok] read. *)
Definition image_keys : list string := ["name"; "image_progress"; "generated_image"; "content"].
Definition task_keys : list string := ["code"; "items"].

Definition agree (keys : list string) (v v' : Value) : Prop :=
  forall k, k ∈ keys -> value_get k v' = value_get k v.

Lemma images_ok_agree v v' : agree image_keys v v' -> images_ok v -> images_ok v'.
Proof.
  intros Ha [Hp Hg]. unfold agree, image_keys in Ha.
  assert (Hc : is_image_call v' = is_image_call v).
  { unfold is_image_call, index_get. by rewrite (Ha "name") by set_solver. }
  assert (Ht : forall proof, tool_image v' proof = tool_image v proof).
  { intros proof. unfold tool_image. by rewrite (Ha "content") by set_solver. }
  split; intros x; rewrite Ha by set_solver; rewrite Hc.
  - apply Hp.
  - rewrite Ht. apply Hg.
Qed.

Lemma tasks_ok_agree v v' : agree task_keys v v' -> tasks_ok v -> tasks_ok v'.
Proof.
  intros Ha H. unfold tasks_ok, get_string. rewrite !Ha by (unfold task_keys; set_solver). exact H.
Qed.

Lemma images_ok_none v :
  value_get "image_progress" v = None -> value_get "generated_image" v = None -> images_ok v.
Proof. intros Hp Hg. split; intros x; by rewrite ?Hp, ?Hg. Qed.

Lemma tasks_ok_other v : get_string "code" v <> Some "task_list" -> tasks_ok v.
Proof. by intros Hne H. Qed.

Lemma redact_code c : redact_at "code" (VString c) = VString (redact_text c).
Proof. done. Qed.

(** Fresh metadata: an object whose protected members are as its kind wants them. *)
Lemma write_ok_fresh w m :
  tw_metadata w = VObject m -> turn_text_ok (tw_turn_id w) ->
  (tw_kind w = KUserMessage -> tw_turn_id w <> None) ->
  (tw_kind w = KToolCall -> images_ok (redact_value (VObject m))) ->
  (tw_kind w = KPlan -> tasks_ok (redact_value (VObject m))) -> write_ok w.
Proof.
  intros Hm Ht Hu Hi Hp id thread n Hn. constructor.
  - by exists (tw_kind w).
  - by exists (tw_status w).
  - done.
  - done.
  - rewrite is_kind_row, bool_decide_eq_true. exact Hu.
  - cbn [ti_metadata item_row]. unfold encode_metadata. rewrite Hm, redact_object. eauto.
  - intros _. cbn [ti_metadata item_row]. apply redact_value_idempotent.
  - rewrite is_kind_row, bool_decide_eq_true. cbn [ti_metadata item_row]. unfold encode_metadata. by rewrite Hm.
  - rewrite is_kind_row, bool_decide_eq_true. cbn [ti_metadata item_row]. unfold encode_metadata. by rewrite Hm.
Qed.

(** An item whose metadata is replaced, with the other columns that may change. *)
Lemma item_ok_replaced r r' s :
  item_ok r -> row_frame r r' -> ti_status r' = status_name s ->
  turn_text_ok (ti_turn_id r') -> (ti_turn_id r <> None -> ti_turn_id r' <> None) ->
  (exists m, ti_metadata r' = VObject m) ->
  (streamed r = false -> redact_value (ti_metadata r') = ti_metadata r') ->
  (is_kind KToolCall r = true -> images_ok (ti_metadata r')) ->
  (is_kind KPlan r = true -> tasks_ok (ti_metadata r')) -> item_ok r'.
Proof.
  intros [] Hf Hs Ht Hu Hm Hr Hi Hp. destruct Hf as (_ & _ & Es & Ek).
  assert (Hk : forall k, is_kind k r' = is_kind k r) by (intros k; unfold is_kind; by rewrite Ek).
  constructor; rewrite ?Hk, ?Ek, ?Es; try done.
  - by exists s.
  - intros Hx. by apply Hu, io_user0.
  - unfold streamed. rewrite !Hk. exact Hr.
Qed.

(** The same when its metadata keeps the protected members. *)
Lemma item_ok_agrees r r' s v :
  item_ok r -> row_frame r r' -> ti_status r' = status_name s -> ti_turn_id r' = ti_turn_id r ->
  ti_metadata r' = v -> (exists m, v = VObject m) ->
  (streamed r = false -> redact_value v = v) ->
  (is_kind KToolCall r = true -> agree image_keys (ti_metadata r) v) ->
  (is_kind KPlan r = true -> agree task_keys (ti_metadata r) v) -> item_ok r'.
Proof.
  intros Hr Hf Hs Ht Hv Hm Hred Hi Hp. apply (item_ok_replaced r r' s); rewrite ?Ht, ?Hv; try done.
  - by destruct Hr.
  - intros Hk. eapply images_ok_agree; [by apply Hi|by apply Hr].
  - intros Hk. eapply tasks_ok_agree; [by apply Hp|by apply Hr].
Qed.

(** Only the status, the content and the time of the last change. *)
Lemma item_ok_kept r r' s :
  item_ok r -> row_frame r r' -> ti_status r' = status_name s -> ti_turn_id r' = ti_turn_id r ->
  ti_metadata r' = ti_metadata r -> item_ok r'.
Proof. intros Hr Hf Hs Ht Hm. apply (item_ok_agrees r r' s (ti_metadata r)); try done; apply Hr. Qed.
End Invariant.
