(* ===== verification/StoreWrites.v ===== *)
(** Every event the session store records, and every batch of them, keeps its
    invariant. *)

From stdpp Require Import base gmap strings list sorting.
From Stdlib Require Import ZArith NArith Lia ZifyBool ZifyN ZifyNat.
From S2P Require Import Prelude RustStr Json Accounting Inference Attachments Paths AppError Policy Models Kernel Redact Tables Timeline Events Projection Recovery StoreQueries StoreInvariant.

Local Open Scope Z_scope.

(** The next statement of a sequence. *)
Ltac sql lemma := eapply sat_bind; [apply lemma|cbv beta].
Ltac keep_ok := first [apply sat_throw | apply sat_ret; intros ? ?; done].

Section Writes.
Context `{CH : Chrono} `{SC : StoreCodec} `{TI : TurnIds} `{B64 : Base64} `{SJ : SerdeJson}.

Abbreviation kept m := (sat store_ok m (fun _ => store_ok)).

Lemma kept_then {A B} (m : Sql A) (f : A -> Sql B) : kept m -> (forall a, kept (f a)) -> kept (m ≫= f).
Proof. apply sat_bind. Qed.

Lemma kept_unit {A} P (m : Sql A) :
  sat P m (fun _ => store_ok) -> sat P (_ ← m; mret tt) (fun _ => store_ok).
Proof. intros H. eapply sat_bind; [exact H|]. intros a. by apply sat_ret. Qed.

Lemma kept_lift {A} (r : result AxiomError A) : kept (lift r).
Proof. by apply sat_lift. Qed.

(** [sat] with a fact that does not depend on the tables. *)
Lemma sat_lift_eq {A} (P : Db -> Prop) (r : result AxiomError A) : sat P (lift r) (fun a d => P d /\ r = Ok a).
Proof. by apply sat_lift. Qed.

Lemma sat_pure {A} (P : Db -> Prop) (X : Prop) (m : Sql A) Q :
  (X -> sat P m Q) -> sat (fun d => P d /\ X) m Q.
Proof. intros H c [Hc Hx]. by apply (H Hx c). Qed.

Lemma sat_active_turn thread : sat store_ok (active_turn_id thread) (fun o d => store_ok d /\ turn_text_ok o).
Proof.
  apply sat_query. intros d Hd. split; [done|]. intros t Ht. unfold active_turn in Ht.
  destruct (head _) as [r|] eqn:E; [|done]. injection Ht as <-.
  assert (Hr : r ∈ sort_by latest_turn_le (List.filter (turn_running thread) (db_turns d))).
  { destruct (sort_by _ _); [done|]. injection E as ->. by apply list_elem_of_here. }
  rewrite elem_of_sort_by, elem_of_filterb in Hr. destruct Hr as [Hr _].
  pose proof (so_turns d Hd) as Hu. rewrite Forall_forall in Hu. by apply Hu.
Qed.

Lemma kept_insert thread w : write_ok w -> sat store_ok (insert_timeline_item thread w) (fun _ => store_ok).
Proof. intros Hw. eapply sat_weaken; [by apply sat_insert_timeline_item|done|by intros x d [? _]]. Qed.

Lemma upsert_frame w :
  item_frame (fun r => ti_set_turn (first_some (ti_turn_id r) (tw_turn_id w))
            (ti_set_status (status_name (tw_status w))
               (ti_set_content (tw_content w)
                  (ti_set_metadata (encode_metadata (tw_metadata w)) (ti_set_updated (tw_now w) r))))).
Proof. frame. Qed.

Lemma kept_upsert thread w : write_ok w -> kept (upsert_timeline_item thread w).
Proof.
  intros Hw. unfold upsert_timeline_item.
  eapply (sat_bind _ _ _ (fun o d => store_ok d /\
            found_at d (fun r => is_kind (tw_kind w) r) o)).
  { destruct (tw_external_id w) as [external|].
    - eapply sat_weaken; [apply sat_find_external_item|done|]. intros o d [Hd Hf]. split; [done|].
      intros id E. destruct (Hf id E) as (r & Hr & Hp). exists r. split; [done|]. by eapply external_kind.
    - apply sat_ret. intros d Hd. split; [done|]. by intros id. }
  intros [id|].
  - eapply (sat_bind _ _ _ (fun _ => store_ok)); [|intros n; by apply sat_ret].
    apply sat_statement. intros d d' n [Hd Hf] [= <- <-]. destruct (Hf id eq_refl) as (r & Hr & Hk).
    pose proof (row_at_ok d id r Hd Hr) as Hok.
    pose proof (Hw EmptyString EmptyString 1 ltac:(lia)) as Hfresh.
    assert (Hks : forall k, is_kind k (item_row EmptyString EmptyString 1 w) = is_kind k r).
    { intros k. rewrite is_kind_row. apply row_kind in Hk. unfold is_kind. rewrite Hk.
      destruct (tw_kind w), k; by vm_compute. }
    eapply (item_updated d id r); [apply upsert_frame|done| |done].
    eapply (item_ok_replaced r _ (tw_status w)); [done|frame|done|..].
    + pose proof (io_turn r Hok) as H1. pose proof (io_turn _ Hfresh) as H2. cbn in H2. cbn.
      by destruct (ti_turn_id r).
    + cbn. by destruct (ti_turn_id r).
    + apply Hfresh.
    + intros Hs. apply Hfresh. unfold streamed in *. by rewrite !Hks.
    + intros Hx. apply Hfresh. by rewrite Hks.
    + intros Hx. apply Hfresh. by rewrite Hks.
  - eapply (sat_bind _ _ _ (fun _ => store_ok)); [|intros x; by apply sat_ret].
    apply (sat_weaken _ store_ok _ _ (fun _ => store_ok)); [by apply kept_insert|by intros d [? _]|done].
Qed.

(** A single item, by its identifier. *)
Lemma kept_update_item (P : Db -> Prop) id f :
  item_frame f -> (forall d, P d -> store_ok d /\ exists r, row_at d id r /\ item_ok (f r)) ->
  sat P (update_items (item_is id) f) (fun _ => store_ok).
Proof.
  intros Hf HP. apply sat_statement. intros d d' n Hd [= <- <-].
  destruct (HP d Hd) as (Hok & r & Hr & Hfr). by eapply item_updated.
Qed.

(** ** Streamed content *)

Lemma growing_kind thread turn k request d r : growing thread turn k request d r = true -> is_kind k r = true.
Proof. unfold growing. rewrite !andb_true_iff. by intros [[[[[_ ?] _] _] _] _]. Qed.

Lemma removed_object key v : (exists m, v = VObject m) -> exists m, json_remove key v = VObject m.
Proof. intros [m ->]. by eexists. Qed.

Definition streams_kind (k : TimelineItemKind) : Prop := k = KAssistantMessage \/ k = KReasoning.

Lemma streams_streamed k r : streams_kind k -> is_kind k r = true -> streamed r = true.
Proof. unfold streamed. intros [-> | ->] ->; [done|by rewrite orb_true_r]. Qed.

Lemma kept_append_turn_content thread turn k content now :
  streams_kind k -> turn_id_from_str turn = Ok turn ->
  kept (append_turn_content thread turn k content now).
Proof.
  intros Hk Hturn. unfold append_turn_content.
  eapply kept_then; [by apply sat_query|]. intros request.
  eapply (sat_bind _ _ _ (fun o d => store_ok d /\ found_at d (is_kind k) o)).
  { apply sat_query. intros d Hd. split; [done|]. intros id E.
    destruct (latest_item_found d _ id E) as (r & Hr & Hg). exists r. split; [done|]. by eapply growing_kind. }
  intros o. eapply (sat_bind _ _ _ (item_with k)).
  { destruct o as [id|].
    - apply sat_ret. intros d [Hd Hf]. split; [done|]. by apply Hf.
    - eapply sat_bind; [eapply sat_weaken; [apply sat_insert_timeline_item|by intros d [? _]|done]|].
      + eapply write_ok_fresh; [done|cbn; by intros t [= <-]|done|..]; cbn; intros ->; by destruct Hk.
      + intros x. apply sat_ret. intros d [Hd [n Hn]]. split; [done|]. eexists. split; [exact Hn|].
        rewrite is_kind_row. cbn. by rewrite bool_decide_true. }
  intros id. apply kept_unit. apply kept_update_item; [frame|]. intros d [Hd (r & Hr & Hkr)].
  split; [done|]. exists r. split; [done|]. pose proof (row_at_ok d id r Hd Hr) as Hok.
  assert (Hst : streamed r = true) by by eapply streams_streamed.
  eapply (item_ok_replaced r _ IsInProgress); [done|frame|done| |done|..]; cbn.
  - apply Hok.
  - apply removed_object, removed_object, Hok.
  - by rewrite Hst.
  - intros Hx%row_kind. apply row_kind in Hkr. rewrite Hx in Hkr. by destruct Hk; subst.
  - intros Hx%row_kind. apply row_kind in Hkr. rewrite Hx in Hkr. by destruct Hk; subst.
Qed.

(** ** Verification and resolution *)

Definition streamed_at (id : string) (d : Db) : Prop := exists r, row_at d id r /\ streamed r = true.

Lemma streamed_other r : streamed r = true -> is_kind KToolCall r = false /\ is_kind KPlan r = false.
Proof.
  unfold streamed, is_kind. rewrite orb_true_iff, !bool_decide_eq_true.
  by intros [-> | ->]; split; apply bool_decide_eq_false.
Qed.

Lemma item_ok_streamed r r' s :
  item_ok r -> streamed r = true -> row_frame r r' -> ti_status r' = status_name s ->
  ti_turn_id r' = ti_turn_id r -> (exists m, ti_metadata r' = VObject m) -> item_ok r'.
Proof.
  intros Hr Hs Hf Hst Ht Hm. destruct (streamed_other r Hs) as [E1 E2].
  eapply (item_ok_replaced r r' s); try done; rewrite ?Ht, ?Hs, ?E1, ?E2; try done. apply Hr.
Qed.

Lemma update_keeps_row d p f id r :
  item_frame f -> row_at d id r ->
  exists r', row_at (db_set_items (update_where p f (db_items d)) d) id r' /\ streamed r' = streamed r.
Proof.
  intros Hf [Hr Hid]. exists (if p r then f r else r). destruct (Hf r) as (E & _ & _ & Ek). split; [split|].
  - apply elem_of_update. by exists r.
  - destruct (p r); [by rewrite E|done].
  - destruct (p r); [|done]. unfold streamed, is_kind. by rewrite Ek.
Qed.

Lemma kept_mark_response_verified thread turn now : kept (mark_response_verified thread turn now).
Proof.
  unfold mark_response_verified. eapply kept_then; [by apply sat_query|]. intros [].
  { by apply sat_ret. }
  eapply (sat_bind _ _ _ (fun rows d => store_ok d /\ forall x, x ∈ rows -> streamed_at x.1 d)).
  { apply sat_query. intros d Hd. split; [done|]. intros x (r & -> & Hin)%list_elem_of_fmap.
    apply elem_of_filterb in Hin as [Hr Hp].
    apply andb_true_iff in Hp as [_ Hp]. by exists r. }
  intros rows. case_bool_decide; [apply sat_throw|].
  eapply sat_weaken.
  - apply (sat_iter (fun d => store_ok d /\ forall x, x ∈ rows -> streamed_at x.1 d)). intros [id v] Hx.
    unfold verify_item. cbn [fst snd]. destruct v as [| | | | |m]; try apply sat_throw.
    eapply (sat_bind _ _ _ (fun _ d => store_ok d /\ forall x, x ∈ rows -> streamed_at x.1 d));
      [|intros n; by apply sat_ret].
    apply sat_statement. intros d d' n [Hd Hrows] [= <- <-].
    destruct (Hrows _ Hx) as (r & Hr & Hs). cbn in Hr. split.
    + eapply (item_updated d id r); [frame|done| |done]. pose proof (row_at_ok d id r Hd Hr) as Hok.
      destruct (io_status r Hok) as [s Es].
      eapply (item_ok_streamed r _ s); [done|done|frame|done|done|]. cbn [ti_set_metadata ti_metadata].
      eexists. apply redact_object.
    + intros y Hy. destruct (Hrows y Hy) as (r' & Hr' & Hs').
      edestruct (update_keeps_row d (item_is id)) as (r2 & Hr2 & E2); [|exact Hr'|].
      2:{ exists r2. split; [exact Hr2|]. by rewrite E2. }
      frame.
  - done.
  - by intros u d [? _].
Qed.

Lemma map_get_extend k m fields : k ∉ fields.*1 -> map_get k (extend m fields) = map_get k m.
Proof.
  revert m. induction fields as [|[k' v] fields IH]; intros m; [done|]. cbn. intros [Hne Hin]%not_elem_of_cons.
  unfold extend in IH. rewrite IH by done. by apply map_get_insert_ne.
Qed.

(** Fields that leave the protected members alone. *)
Definition harmless (v : Value) : Prop :=
  exists m, v = VObject m /\ forall k, k ∈ image_keys ++ task_keys -> k ∉ m.*1.

Lemma kept_update_notice_resolution thread external fields s now :
  harmless fields -> kept (update_notice_resolution thread external fields s now).
Proof.
  intros (mf & -> & Hharm). unfold update_notice_resolution.
  eapply (sat_bind _ _ _ (fun o d => store_ok d /\ found_at d (fun _ => true) o)).
  { apply sat_query. intros d Hd. split; [done|]. intros id E.
    destruct (latest_item_found d _ id E) as (r & Hr & _). by exists r. }
  intros [id|]; [|apply sat_ret; by intros d [? _]].
  eapply (sat_bind _ _ _ (fun v d => store_ok d /\ exists r, row_at d id r /\ ti_metadata r = v)).
  { eapply sat_bind; [apply sat_query_eq|]. intros [r|]; [|apply sat_throw]. apply sat_ret.
    intros d [[Hd _] E]. apply find_Some_iff in E as [Hr Hid]. apply bool_decide_eq_true in Hid.
    split; [done|]. by exists r. }
  intros v. destruct v as [| | | | |m]; try apply sat_throw.
  apply kept_unit. apply kept_update_item; [frame|]. intros d [Hd (r & Hr & Hm)]. split; [done|].
  exists r. split; [done|]. pose proof (row_at_ok d id r Hd Hr) as Hok.
  assert (Hag : forall keys, (forall k, k ∈ keys -> k ∉ mf.*1) -> streamed r = false ->
            agree keys (ti_metadata r) (encode_metadata (VObject (extend m mf)))).
  { intros keys Hk Hs k Hin. pose proof (io_redacted r Hok Hs) as Hred. rewrite Hm in *.
    transitivity (value_get k (redact_value (VObject m))); [|by rewrite Hred].
    unfold encode_metadata. rewrite !value_get_redacted. f_equal. cbn. apply map_get_extend. by apply Hk. }
  assert (Hstr : forall k, k = KToolCall \/ k = KPlan -> is_kind k r = true -> streamed r = false).
  { intros k Hk Hx. destruct (streamed r) eqn:Es; [|done]. destruct (streamed_other r Es).
    destruct Hk; subst; congruence. }
  eapply (item_ok_agrees r _ s); [done|frame|done|done|reflexivity|..].
  - eexists. apply redact_object.
  - intros _. apply redact_value_idempotent.
  - intros Hx. apply Hag; [|by apply (Hstr KToolCall); [left|]]. intros k Hk. apply Hharm. set_solver.
  - intros Hx. apply Hag; [|by apply (Hstr KPlan); [right|]]. intros k Hk. apply Hharm. set_solver.
Qed.

(** ** Turns and revisions *)

Lemma status_frame s : turn_frame (tu_set_status (turn_status_name s)).
Proof. intros r. split_and!; [done..|]. intros []. constructor; cbn; eauto. Qed.

Lemma finish_frame s error at_ : turn_frame (tu_finish (turn_status_name s) error at_).
Proof. intros r. split_and!; [done..|]. intros []. constructor; cbn; eauto. Qed.

Lemma kept_update_items p f :
  item_frame f -> (forall r, item_ok r -> p r = true -> item_ok (f r)) -> kept (update_items p f).
Proof.
  intros Hf Hok. apply sat_statement. intros d d' n Hd [= <- <-]. apply items_updated; [done| |done].
  intros r _ Hp Hr. by apply Hok.
Qed.

Lemma kept_end_requests thread turn s : kept (end_requests thread turn s).
Proof.
  destruct s; cbn [end_requests]; try by apply sat_ret.
  all: eapply kept_then; [apply sat_utc_now|]; intros now; destruct (decide _); by apply kept_unit, sat_update_usage, (record_frame _ (end_request _ _ _)).
Qed.

Lemma kept_finish_turn thread turn s error now : kept (finish_turn thread turn s error now).
Proof.
  unfold finish_turn. eapply kept_then; [apply sat_update_turns, finish_frame|]. intros n.
  case_bool_decide; [apply sat_throw|]. eapply kept_then; [apply kept_end_requests|]. intros [].
  eapply kept_then; [|intros m; apply sat_set_thread_lifecycle].
  apply kept_update_items; [frame|]. intros r Hr _. by eapply (item_ok_kept r _ (item_status_of s)).
Qed.

Lemma items_filtered d q : store_ok d -> store_ok (db_set_items (List.filter q (db_items d)) d).
Proof.
  intros [? ? ? ? ? ? ? Hb Ho ? ? ? ? ?]. constructor; cbn; try done.
  - by apply NoDup_fmap_filterb.
  - rewrite Forall_forall in *. intros x [Hx _]%elem_of_filterb. auto.
  - by apply sorted_filter.
  - intros r t [Hr _]%elem_of_filterb. by apply Hb.
  - intros r [Hr _]%elem_of_filterb. by apply Ho.
Qed.

Lemma turns_filtered d q : store_ok d -> store_ok (db_set_turns (List.filter q (db_turns d)) d).
Proof.
  intros [? ? ? ? ? ? ? Hb Ho ? ? ? ? ?]. constructor; cbn; try done.
  - by apply NoDup_fmap_filterb.
  - rewrite Forall_forall in *. intros x [Hx _]%elem_of_filterb. auto.
Qed.

Lemma drop_items_ok d p : store_ok d -> store_ok (drop_items p d).
Proof.
  intros H. unfold drop_items.
  apply (store_ok_same (db_set_items (List.filter (fun r => negb (p r)) (db_items d)) d)); [done|].
  by apply items_filtered.
Qed.

Lemma revision_frame (g : Z -> Z) now : (forall n, 0 <= n -> 0 <= g n) ->
  thread_frame (fun r => th_set_revision (g (th_revision r)) now r).
Proof. intros Hg r. split_and!; [done..|]. intros []. constructor; cbn; eauto. Qed.

Lemma kept_query_thread_revision id : kept (query_thread_revision id).
Proof.
  eapply kept_then; [by apply sat_query|]. intros [r|]; [|apply sat_throw].
  destruct (_ || _); [apply sat_throw|by apply sat_ret].
Qed.

Lemma kept_truncate id item expected : kept (truncate_for_revision id item expected).
Proof.
  unfold truncate_for_revision. eapply kept_then; [apply kept_query_thread_revision|]. intros revision.
  destruct (negb _); [apply sat_throw|]. eapply kept_then; [by apply sat_query|]. intros [].
  { apply sat_throw. }
  eapply kept_then; [by apply sat_query|]. intros [n|]; [|apply sat_throw].
  eapply kept_then. { apply sat_statement. intros d d' a Hd [= <- <-]. by apply turns_filtered. }
  intros []. eapply kept_then. { apply sat_statement. intros d d' a Hd [= <- <-]. by apply drop_items_ok. }
  intros []. eapply kept_then; [apply sat_utc_now|]. intros now. apply (kept_unit store_ok).
  apply sat_update_threads. intros r. split_and!; [done..|]. intros []. constructor; cbn; eauto. lia.
Qed.

(** ** Items of the events *)

(** A turn read before the write that takes it. *)
Lemma kept_for_turn {A} thread (f : option string -> Sql A) :
  (forall o, turn_text_ok o -> kept (f o)) -> kept (turn ← active_turn_id thread; f turn).
Proof. intros H. eapply sat_bind; [apply sat_active_turn|]. intros o. by apply sat_pure, H. Qed.

Lemma notice_write_ok turn s external content m now :
  turn_text_ok turn -> write_ok (plain_write turn KNotice s external content (VObject m) now).
Proof. intros Ht. by eapply write_ok_fresh. Qed.

Lemma kept_insert_notice thread n : turn_text_ok (nw_turn_id n) -> kept (insert_notice thread n).
Proof.
  intros Ht. unfold insert_notice. eapply kept_then; [|intros x; by apply sat_ret].
  apply kept_insert. by eapply write_ok_fresh.
Qed.

Lemma kept_persist_question thread request content m now :
  kept (persist_question thread request content (VObject m) now).
Proof.
  apply kept_for_turn. intros o Ho. eapply kept_then; [|intros id; apply sat_set_thread_lifecycle].
  apply kept_upsert. by apply notice_write_ok.
Qed.

(** The metadata of a tool call made here: no image yet. *)
Lemma call_write_ok turn s external content m now :
  turn_text_ok turn -> map_get "image_progress" m = None -> map_get "generated_image" m = None ->
  write_ok (plain_write turn KToolCall s external content (VObject m) now).
Proof.
  intros Ht Hp Hg. eapply write_ok_fresh; [done|done|done| |done]. intros _.
  apply images_ok_none; rewrite value_get_redacted; cbn; by rewrite ?Hp, ?Hg.
Qed.

Lemma kept_ensure_call thread turn call m now :
  turn_text_ok turn -> map_get "image_progress" m = None -> map_get "generated_image" m = None ->
  sat store_ok (ensure_external_item thread turn KToolCall call (VObject m) now) (item_with KToolCall).
Proof. intros Ht Hp Hg. apply sat_ensure_external_item. by apply call_write_ok. Qed.

(** A tool's item gets a member of its own. *)
Lemma call_updated r f s k w m :
  item_ok r -> is_kind KToolCall r = true -> ti_metadata r = VObject m -> item_frame f ->
  ti_status (f r) = status_name s -> ti_turn_id (f r) = ti_turn_id r ->
  ti_metadata (f r) = encode_metadata (VObject (map_insert k w m)) -> k ∉ image_keys -> item_ok (f r).
Proof.
  intros Hr Hk Hm Hf Hs Ht Hv Hin.
  assert (Hst : streamed r = false).
  { destruct (streamed r) eqn:E; [|done]. destruct (streamed_other r E); congruence. }
  pose proof (io_redacted r Hr Hst) as Hred. rewrite Hm in Hred.
  eapply (item_ok_agrees r _ s); [done|apply Hf|done|done|exact Hv|..].
  - unfold encode_metadata. rewrite redact_object. by eexists.
  - intros _. apply redact_value_idempotent.
  - intros _ k' Hk'. unfold encode_metadata. rewrite redact_set, Hm by done.
    rewrite value_get_insert. case_decide; [by subst|done].
  - intros Hp. apply row_kind in Hp, Hk. by rewrite Hk in Hp.
Qed.

(** Reading a tool's metadata, setting a member and writing it back. *)
Lemma kept_set_member id k w (v : Value) (f : Value -> ItemRow -> ItemRow) s :
  k ∉ image_keys -> (forall x, item_frame (f x)) ->
  (forall x r, ti_status (f x r) = status_name (s r) /\ ti_turn_id (f x r) = ti_turn_id r /\
               ti_metadata (f x r) = encode_metadata x) ->
  sat (fun d => store_ok d /\ exists r, row_at d id r /\ is_kind KToolCall r = true /\ ti_metadata r = v)
    (x ← lift (index_set k w v); _ ← update_items (item_is id) (f x); mret tt) (fun _ => store_ok).
Proof.
  intros Hk Hframe Hf. eapply sat_bind; [apply sat_lift_eq|]. intros x. apply sat_pure. intros Hx.
  eapply kept_unit, kept_update_item; [apply Hframe|]. intros d (Hd & r & Hr & Hkind & Hm). split; [done|].
  exists r. split; [done|]. pose proof (row_at_ok d id r Hd Hr) as Hok.
  destruct (io_object r Hok) as [m Em]. rewrite <- Hm, Em in Hx. injection Hx as <-.
  destruct (Hf (VObject (map_insert k w m)) r) as (E1 & E2 & E3).
  by apply (call_updated r _ (s r) k w m).
Qed.

Lemma status_of r : item_ok r -> exists s, ti_status r = status_name s.
Proof. by intros []. Qed.

Lemma kept_persist_output thread now call content truncated :
  kept (persist_output thread now call content truncated).
Proof.
  apply kept_for_turn. intros o Ho. eapply sat_bind; [by apply kept_ensure_call|]. intros id.
  eapply sat_bind; [apply sat_item_metadata|]. intros v.
  apply (kept_set_member id "output_truncated" (VBool truncated) v
    (fun metadata r => ti_set_content (ti_content r +:+ redact_text content)
          (ti_set_metadata (encode_metadata metadata)
             (ti_set_status (status_name IsInProgress) (ti_set_updated now r)))) (fun _ => IsInProgress)).
  - set_solver.
  - frame.
  - done.
Qed.

Lemma kept_persist_completed thread now call success : kept (persist_completed thread now call success).
Proof.
  unfold persist_completed. eapply sat_bind; [apply sat_find_external_item|]. intros [id|].
  2:{ apply sat_ret. by intros d [? _]. }
  eapply (sat_bind _ _ _ (fun v d => store_ok d /\ exists r, row_at d id r /\ is_kind KToolCall r = true /\
            ti_metadata r = v)).
  { eapply sat_weaken; [apply (sat_item_metadata KToolCall)| |done]. intros d [Hd Hf]. split; [done|].
    destruct (Hf id eq_refl) as (r & Hr & Hp). exists r. split; [done|]. by eapply external_kind. }
  intros v. apply (kept_set_member id "success" (VBool success) v
    (fun metadata r => ti_set_status (status_name (if success then IsCompleted else IsFailed))
            (ti_set_metadata (encode_metadata metadata) (ti_set_updated now r)))
    (fun _ => if success then IsCompleted else IsFailed)).
  - set_solver.
  - frame.
  - done.
Qed.

Lemma kept_persist_tool_started thread now call name : kept (persist_tool_started thread now call name).
Proof.
  apply kept_for_turn. intros o Ho. eapply sat_bind; [by apply kept_ensure_call|]. intros id.
  eapply kept_unit, kept_update_item; [frame|]. intros d [Hd (r & Hr & _)]. split; [done|].
  exists r. split; [done|]. eapply (item_ok_kept r _ IsInProgress); [by eapply row_at_ok|done..].
Qed.

(** Metadata written at once: what is read from it later is as good as before. *)
Lemma kept_set_metadata (P : Db -> Prop) id x now :
  (forall d, P d -> store_ok d /\ exists r m, row_at d id r /\ is_kind KToolCall r = true /\
     x = VObject m /\ images_ok (encode_metadata x)) ->
  sat P (set_metadata id x now) (fun _ => store_ok).
Proof.
  intros HP. eapply kept_unit, kept_update_item; [frame|]. intros d Hd.
  destruct (HP d Hd) as (Hok & r & m & Hr & Hk & -> & Hi). split; [done|]. exists r. split; [done|].
  pose proof (row_at_ok d id r Hok Hr) as Hrow. destruct (status_of r Hrow) as [s Es].
  eapply (item_ok_replaced r _ s); [done|frame|done|apply Hrow|done|..].
  - eexists. apply redact_object.
  - intros _. apply redact_value_idempotent.
  - done.
  - intros Hp. apply row_kind in Hp, Hk. by rewrite Hk in Hp.
Qed.

Lemma call_redacted d id r : store_ok d -> row_at d id r -> is_kind KToolCall r = true ->
  exists m, ti_metadata r = VObject m /\ redact_value (VObject m) = VObject m /\ images_ok (VObject m).
Proof.
  intros Hd Hr Hk. pose proof (row_at_ok d id r Hd Hr) as Hok. destruct (io_object r Hok) as [m Hm].
  exists m. split; [done|]. split; [|rewrite <- Hm; by apply io_images].
  rewrite <- Hm. apply (io_redacted r Hok). destruct (streamed r) eqn:E; [|done].
  destruct (streamed_other r E); congruence.
Qed.

Lemma kept_persist_diff thread now call diff truncated l : kept (persist_diff thread now call diff truncated l).
Proof.
  apply kept_for_turn. intros o Ho. eapply sat_bind; [by apply kept_ensure_call|]. intros id.
  eapply sat_bind; [apply sat_item_metadata|]. intros v.
  do 2 (eapply sat_bind; [apply sat_lift_eq|]; intros ?).
  eapply sat_bind; [apply sat_lift_eq|]. intros ?. eapply sat_bind; [apply sat_lift_eq|]. intros x.
  apply kept_set_metadata. intros d ((((( Hd & r & Hr & Hk & Hm) & E1) & E2) & E3) & E4).
  split; [done|]. destruct (call_redacted d id r Hd Hr Hk) as (m & Em & Hred & Him).
  rewrite <- Hm, Em in E1. injection E1 as <-. injection E2 as <-. injection E4 as <-.
  exists r. eexists. split_and!; [done..|]. unfold encode_metadata. rewrite redact_object, !redact_insert.
  rewrite redact_object in Hred. injection Hred as ->.
  eapply images_ok_agree; [|exact Him]. intros k Hin. rewrite !value_get_insert. unfold image_keys in Hin.
  repeat (case_decide; [subst; set_solver|]). done.
Qed.

(** ** Images *)

Context {SL : StoreLaws}.

Lemma sat_owned_by thread call why : sat store_ok (owned_by thread call why) (item_with KToolCall).
Proof.
  eapply sat_bind; [apply sat_find_external_item|]. intros [id|]; [|apply sat_throw].
  apply sat_ret. intros d [Hd Hf]. split; [done|]. destruct (Hf id eq_refl) as (r & Hr & Hp).
  exists r. split; [done|]. by eapply external_kind.
Qed.

Lemma image_call_insert k w m : k <> "name" -> is_image_call (VObject (map_insert k w m)) = is_image_call (VObject m).
Proof. intros Hk. unfold is_image_call, index_get. rewrite value_get_insert. by rewrite decide_False. Qed.

Lemma tool_image_insert k w m proof :
  k <> "content" -> tool_image (VObject (map_insert k w m)) proof = tool_image (VObject m) proof.
Proof. intros Hk. unfold tool_image. rewrite value_get_insert. by rewrite decide_False. Qed.

Lemma images_ok_progress m p :
  images_ok (VObject m) -> is_image_call (VObject m) = true -> valid_after p None = true ->
  images_ok (VObject (map_insert "image_progress" (redact_value (progress_to_value p)) m)).
Proof.
  intros [Hp Hg] Hc Hv. split; intros x; rewrite value_get_insert, image_call_insert by done.
  - rewrite decide_True by done. intros [= <-]. split; [done|]. exists p. split; [apply progress_law|done].
  - rewrite decide_False by done. rewrite tool_image_insert by done. apply Hg.
Qed.

Lemma valid_after_first p o : valid_after p o = true -> valid_after p None = true.
Proof. unfold valid_after. by rewrite !andb_true_iff; intros [? _]. Qed.

Lemma kept_persist_image_progress thread now call p : kept (persist_image_progress thread now call p).
Proof.
  unfold persist_image_progress. eapply sat_bind; [apply sat_owned_by|]. intros id.
  eapply sat_bind; [apply sat_item_metadata|]. intros v.
  eapply (sat_bind _ _ _ (fun _ d => store_ok d /\ exists r, row_at d id r /\ is_kind KToolCall r = true /\
            ti_metadata r = v)).
  { destruct (value_get _ v) as [q|]; [|by apply sat_ret].
    destruct (progress_from_value q); [by apply sat_ret|apply sat_throw]. }
  intros previous. destruct (_ || _) eqn:E; [apply sat_throw|].
  apply orb_false_iff in E as [Hc%negb_false_iff Hv%negb_false_iff]. apply valid_after_first in Hv.
  eapply sat_bind; [apply sat_lift_eq|]. intros x. apply kept_set_metadata.
  intros d [(Hd & r & Hr & Hk & Hm) E]. split; [done|].
  destruct (call_redacted d id r Hd Hr Hk) as (m & Em & Hred & Him). rewrite Em in Hm. subst v.
  injection E as <-. exists r. eexists. split_and!; [done..|].
  unfold encode_metadata. rewrite redact_set by done. by apply images_ok_progress.
Qed.

(** The block of an image, redacted. *)
Lemma image_block_eq image :
  image_block image = VArray [VObject [("content", VObject [("data", VString (gi_data image));
      ("mimeType", VString (gi_mime_type image)); ("type", VString "image")]); ("type", VString "content")]].
Proof. reflexivity. Qed.

Lemma plain_keys k : k ∈ ["content"; "data"; "mimeType"; "type"; "generated_image"] -> is_secret_key k = false.
Proof. set_unfold. intros H. by destruct_or?; subst; vm_compute. Qed.

Lemma redacted_image_block image :
  redact_value (image_block image)
  = VArray [VObject [("content", VObject [("data", VString (redact_text (gi_data image)));
      ("mimeType", VString (redact_text (gi_mime_type image))); ("type", VString "image")]);
      ("type", VString "content")]].
Proof.
  rewrite image_block_eq. cbn -[redact_text is_secret_key]. rewrite !plain_keys by set_solver.
  assert (E : redact_text "image" = "image" /\ redact_text "content" = "content") by (split; by vm_compute).
  by destruct E as [-> ->].
Qed.

Lemma value_eqb_text a : value_eqb (VString a) (VString a) = true.
Proof. cbn. by apply bool_decide_eq_true. Qed.

(** One block of an image, and a proof of the same type. *)
Definition one_block (d mime : string) : Value :=
  VArray [VObject [("content", VObject [("data", VString d); ("mimeType", VString mime); ("type", VString "image")]);
                   ("type", VString "content")]].

Lemma one_block_content d mime :
  (blocks ← as_array (one_block d mime);
   Some (List.filter (fun c => value_eqb (index_get "type" c) (VString "image"))
     ((fun entry => if value_eqb (index_get "type" entry) (VString "content")
                    then index_get "content" entry else entry) <$> blocks)))
  = Some [VObject [("data", VString d); ("mimeType", VString mime); ("type", VString "image")]].
Proof. reflexivity. Qed.

Lemma tool_image_one v mp d mime :
  value_get "content" v = Some (one_block d mime) -> map_get "mimeType" mp = Some (VString mime) ->
  tool_image v (VObject mp)
  = ok_or (image_from_value (VObject (map_insert "data" (VString d) mp)))
      (StorageError "stored image proof is invalid").
Proof.
  intros Hc Hm. pose proof (one_block_content d mime) as Hb.
  unfold tool_image. rewrite Hc. cbn [option_bind mbind].
  destruct (as_array (one_block d mime)) as [blocks|]; [|done]. cbn [ok_or result_bind option_bind mbind] in *.
  injection Hb as Hb. unfold mbind, result_bind. cbv zeta. rewrite Hb.
  assert (Hi : index_get "mimeType" (VObject mp) = VString mime) by (unfold index_get; cbn; by rewrite Hm).
  rewrite Hi. change (index_get "mimeType" (VObject [("data", VString d); ("mimeType", VString mime);
    ("type", VString "image")])) with (VString mime). by rewrite value_eqb_text.
Qed.

Lemma stored_image_reads image proof v :
  image_proof image = Ok proof -> value_get "content" v = Some (redact_value (image_block image)) ->
  exists i, tool_image v (redact_value proof) = Ok i.
Proof.
  intros Hp Hc. destruct (image_law image) as (m & Em & Hmime & Hread). unfold image_proof in Hp.
  rewrite Em in Hp. injection Hp as <-. rewrite redacted_image_block in Hc. rewrite redact_object.
  erewrite tool_image_one; [|exact Hc|].
  - destruct (Hread (redact_text (gi_data image))) as [i Hi]. exists i. by rewrite Hi.
  - rewrite map_get_redacted, map_get_remove_ne, Hmime by done. cbn [fmap option_fmap option_map].
    unfold redact_at. by rewrite plain_keys by set_solver.
Qed.

Lemma kept_persist_image thread now call image : kept (persist_image thread now call image).
Proof.
  unfold persist_image. eapply sat_bind; [apply sat_owned_by|]. intros id.
  eapply sat_bind; [apply sat_item_metadata|]. intros v. destruct (_ || _) eqn:E; [apply sat_throw|].
  apply orb_false_iff in E as [Hc%negb_false_iff Hnone].
  eapply sat_bind; [apply sat_lift_eq|]. intros proof. eapply sat_bind; [apply sat_lift_eq|]. intros x1.
  eapply sat_bind; [apply sat_lift_eq|]. intros x2. apply kept_set_metadata.
  intros d ((((Hd & r & Hr & Hk & Hm) & Hp) & E1) & E2). split; [done|].
  destruct (call_redacted d id r Hd Hr Hk) as (m & Em & Hred & Him). rewrite Em in Hm. subst v.
  injection E1 as <-. injection E2 as <-. exists r. eexists. split_and!; [done..|].
  unfold encode_metadata. rewrite redact_object, !redact_insert. rewrite redact_object in Hred.
  injection Hred as ->. unfold redact_at. rewrite !plain_keys by set_solver.
  split; intros y; rewrite !value_get_insert, !image_call_insert by done; rewrite ?decide_False by done.
  - rewrite tool_image_insert || idtac. intros Hy. by apply Him.
  - rewrite decide_True by done. intros [= <-]. split; [done|].
    apply (stored_image_reads image); [done|]. rewrite value_get_insert. by rewrite decide_True.
Qed.

(** ** Events *)

(** The turns an event names are texts of identifiers, and its counts are unsigned. *)
Definition event_turn (e : AppEvent) : option string :=
  match e with
  | AppSteeringApplied turn _ _ | AppPromptAccepted turn _ _ | AppTurnStarted turn | AppTextDelta turn _
  | AppReasoningDelta turn _ | AppToolProposed turn _ _ _ | AppResponseVerified turn
  | AppTurnCompleted turn | AppTurnCancelled turn => Some turn
  | AppErrorRaised turn _ => turn
  | _ => None
  end.
Definition counts_ok (e : AppEvent) : Prop :=
  match e with AppUsageUpdated input output => 0 <= input /\ 0 <= output | _ => True end.
Definition storable (x : EventEnvelope) : Prop :=
  turn_text_ok (event_turn (ev_event x)) /\ counts_ok (ev_event x).

Lemma kept_set_thread thread f : thread_frame f -> kept (set_thread thread f).
Proof. intros Hf. by eapply kept_unit, sat_update_threads. Qed.

Lemma scope_frame (cwd : ThreadRow -> Path) encoding origin profile :
  (forall r, encoding r = "unix_bytes" \/ encoding r = th_cwd_encoding r) ->
  (forall r, (exists o, origin r = origin_name o) \/ origin r = th_origin r) ->
  (exists p, profile = profile_name p) ->
  thread_frame (fun r => th_set_scope (cwd r) (encoding r) (origin r) profile r).
Proof.
  intros He Ho Hp r. split_and!; [done..|]. intros [Te To Tp Tt Tl Tr Ts]. constructor; cbn; try done.
  - by destruct (He r) as [-> | ->].
  - by destruct (Ho r) as [?| ->].
Qed.

Lemma thread_frame_compose f g : thread_frame f -> thread_frame g -> thread_frame (fun r => f (g r)).
Proof.
  intros Hf Hg r. destruct (Hg r) as (E1 & L1 & O1), (Hf (g r)) as (E2 & L2 & O2).
  split_and!; [by rewrite E2|lia|auto].
Qed.

Lemma kept_persist_created thread now cwd origin profile : kept (persist_created thread now cwd origin profile).
Proof.
  apply sat_statement. intros d d' u Hd H. cbn [th_id] in H. destruct (has_thread thread d) eqn:E; [done|].
  injection H as <- <-.
  assert (Hnew : forall r, r ∈ db_threads d -> th_id r <> thread).
  { unfold has_thread in E. rewrite existsb_false in E. intros r Hr. specialize (E r Hr).
    by apply bool_decide_eq_false in E. }
  destruct Hd as [? ? ? ? ? ? ? Hb Ho ? ? ? ? Ha]. constructor; cbn; try done.
  - rewrite fmap_app. apply NoDup_app. split_and!; [done| |by apply NoDup_singleton].
    intros y (r & -> & Hr)%list_elem_of_fmap. cbn. rewrite list_elem_of_singleton. by apply Hnew.
  - apply Forall_app. split; [done|]. apply Forall_singleton. constructor; cbn [th_cwd_encoding th_origin th_profile th_thinking_level
      th_lifecycle th_revision th_next_sequence]; [done|by eexists|by eexists|by exists LevelMedium|by exists LcReady|lia|lia].
  - intros r t Hr [Ht| ->%list_elem_of_singleton]%elem_of_app Et; [by apply Hb|].
    destruct (Ho r Hr) as (t0 & Ht0 & E0). cbn in Et. exfalso. apply (Hnew t0 Ht0). congruence.
  - intros r Hr. destruct (Ho r Hr) as (t & Ht & Et). exists t. split; [|done]. apply elem_of_app. by left.
  - intros a Hin. rewrite fmap_app, elem_of_app. destruct (Ha a Hin). split; [by left|done].
Qed.

Lemma turn_inserted d r :
  store_ok d -> turn_ok r -> existsb (same_turn (tu_thread_id r) (tu_id r)) (db_turns d) = false ->
  store_ok (db_set_turns (db_turns d ++ [r]) d).
Proof.
  intros [] Hr E. constructor; cbn; try done.
  - rewrite fmap_app. apply NoDup_app. split_and!; [done| |by apply NoDup_singleton].
    intros y (t & -> & Ht)%list_elem_of_fmap. cbn. rewrite list_elem_of_singleton. intros [= E1 E2].
    rewrite existsb_false in E. specialize (E t Ht). unfold same_turn in E.
    rewrite E1, E2, !bool_decide_true in E by done. done.
  - apply Forall_app. split; [done|]. by apply Forall_singleton.
Qed.

Lemma new_turn_ok thread turn user assistant now :
  turn_id_from_str turn = Ok turn ->
  turn_ok {| tu_thread_id := thread; tu_id := turn; tu_status := turn_status_name TsRunning;
             tu_user_item_id := user; tu_assistant_item_id := assistant; tu_input_tokens := 0;
             tu_output_tokens := 0; tu_error := None; tu_started_at := now; tu_completed_at := None |}.
Proof. intros Ht. constructor; cbn; [done|by exists TsRunning|lia..]. Qed.

Lemma kept_insert_turn r : turn_ok r -> kept (insert_turn r).
Proof.
  intros Hr. apply sat_statement. intros d d' u Hd H. destruct (existsb _ _) eqn:E; [done|].
  destruct (negb _); [done|]. injection H as <- <-. by apply turn_inserted.
Qed.

Lemma kept_upsert_turn r : turn_ok r -> kept (upsert_turn r).
Proof.
  intros Hr. apply sat_statement. intros d d' u Hd H. destruct (existsb _ _) eqn:E.
  - injection H as <- <-. exact (turns_updated d _ _ (status_frame TsRunning) Hd).
  - destruct (negb _); [done|]. injection H as <- <-. by apply turn_inserted.
Qed.

Lemma user_write_ok turn client content m now :
  turn_id_from_str turn = Ok turn ->
  write_ok {| tw_turn_id := Some turn; tw_kind := KUserMessage; tw_status := IsCompleted;
              tw_client_item_id := client; tw_external_id := None; tw_content := content;
              tw_metadata := VObject m; tw_now := now |}.
Proof. intros Ht. eapply write_ok_fresh; [done|cbn; by intros t [= <-]|done..]. Qed.

Lemma kept_persist_steering thread now turn client text :
  turn_id_from_str turn = Ok turn -> kept (persist_steering thread now turn client text).
Proof.
  intros Ht. eapply kept_then; [apply kept_lift|]. intros c. eapply kept_unit, kept_insert.
  by apply user_write_ok.
Qed.

Lemma kept_persist_prompt thread now client turn text attachments :
  turn_id_from_str turn = Ok turn -> kept (persist_prompt thread now client turn text attachments).
Proof.
  intros Ht. unfold persist_prompt. eapply kept_then.
  { apply kept_insert. case_bool_decide; by apply user_write_ok. }
  intros user. eapply kept_then.
  { case_bool_decide; [by apply sat_ret|]. eapply kept_then; [apply kept_lift|]. intros [].
    apply sat_statement. intros d d' u Hd H'. destruct (existsb _ (db_attachments d)); [done|].
    destruct (negb _); [done|]. injection H' as <- <-. by apply attachments_irrelevant. }
  intros []. eapply kept_then.
  { apply kept_insert. eapply write_ok_fresh; [done|cbn; by intros t [= <-]|done..]. }
  intros assistant. eapply kept_then; [by apply kept_insert_turn, new_turn_ok|]. intros [].
  eapply kept_unit, sat_update_threads, lifecycle_frame.
Qed.

Lemma kept_persist_started thread now turn :
  turn_id_from_str turn = Ok turn -> kept (persist_started thread now turn).
Proof.
  intros Ht. eapply kept_then; [apply sat_ensure_thread|]. intros [].
  eapply kept_then; [by apply kept_upsert_turn, new_turn_ok|]. intros [].
  eapply kept_unit, sat_update_threads, lifecycle_frame.
Qed.

Lemma kept_persist_usage thread now usage : kept (persist_usage thread now usage).
Proof.
  unfold persist_usage. destruct (negb _); [apply sat_throw|]. eapply kept_then.
  { apply sat_upsert_usage. }
  intros []. eapply kept_then.
  { destruct (_ && _); [|by apply sat_ret]. eapply (kept_unit store_ok). apply sat_statement.
    intros d d' u Hd [= <- <-]. apply items_updated; [frame| |done].
    intros r _ Hp Hr. destruct (turn_id usage) as [turn|]; [|done].
    destruct (status_of r Hr) as [s Es]. eapply (item_ok_streamed r _ s); [done| |frame|done|done|].
    - rewrite !andb_true_iff in Hp. unfold streamed. by destruct Hp as [[[[[[_ ->] _] _] _] _] _].
    - destruct (io_object r Hr) as [m Hm]. cbn. rewrite Hm. by eexists. }
  intros []. destruct (response_verified usage); [|by apply sat_ret].
  eapply (kept_unit store_ok), kept_update_items; [frame|]. intros r Hr Hp.
  eapply (item_ok_streamed r _ IsCompleted); [done| |frame|done|done|].
  - by apply andb_true_iff in Hp as [_ ?].
  - destruct (io_object r Hr) as [m Hm]. cbn. rewrite Hm. by eexists.
Qed.

Lemma kept_persist_tokens thread input output :
  0 <= input -> 0 <= output -> kept (persist_tokens thread input output).
Proof.
  intros Hi Ho. apply kept_for_turn. intros [turn|] _; [|by apply sat_ret].
  eapply sat_bind; [apply sat_lift_eq|]. intros i. apply sat_pure. intros Ei.
  eapply sat_bind; [apply sat_lift_eq|]. intros o. apply sat_pure. intros Eo.
  assert (i = input) as -> by (unfold checked_i64 in Ei; destruct (_ <=? _); by inversion Ei).
  assert (o = output) as -> by (unfold checked_i64 in Eo; destruct (_ <=? _); by inversion Eo).
  eapply kept_unit, sat_update_turns. intros r. split_and!; [done..|]. intros []. by constructor.
Qed.

Lemma kept_persist_agent thread settings : kept (persist_agent thread settings).
Proof.
  unfold persist_agent. cbn. eapply kept_then; [apply kept_lift|]. intros expected.
  eapply kept_then; [|intros n; case_bool_decide; [by apply sat_ret|apply sat_throw]].
  apply sat_update_threads.
  apply (thread_frame_compose
    (fun r => th_set_scope (path_of_string (da_working_directory settings)) "unix_bytes" (th_origin r)
                (profile_name (for_desktop_agent settings)) r)
    (th_set_agent (Some settings))).
  - apply (scope_frame (fun _ => _) (fun _ => _) th_origin); [by left|by right|by eexists].
  - intros r. split_and!; [done..|]. intros []. by constructor.
Qed.

Lemma harmless_object l :
  forallb (fun k => negb (bool_decide (k ∈ image_keys ++ task_keys)))
    (match json_object l with VObject m => m.*1 | _ => [] end) = true -> harmless (json_object l).
Proof.
  intros H. unfold json_object in *. eexists. split; [done|]. intros k Hk Hin.
  rewrite forallb_forall in H. apply list_elem_of_In in Hin. specialize (H k Hin).
  rewrite bool_decide_true in H by done. done.
Qed.

Lemma kept_persist_answer thread now external fields s :
  harmless fields -> kept (persist_answer thread now external fields s).
Proof.
  intros Hf. eapply kept_then; [by apply kept_update_notice_resolution|]. intros [].
  apply sat_set_thread_lifecycle.
Qed.

Lemma plan_write_ok turn s external content m now :
  turn_text_ok turn -> tasks_ok (redact_value (VObject m)) ->
  write_ok (plain_write turn KPlan s external content (VObject m) now).
Proof. intros Ht Hm. by eapply write_ok_fresh. Qed.

Lemma kept_persist_tasks thread now tasks : kept (persist_tasks thread now tasks).
Proof.
  apply kept_for_turn. intros o Ho. eapply sat_bind; [apply sat_lift_eq|]. intros l.
  apply sat_pure. intros [= <-]. eapply kept_unit, kept_upsert. apply plan_write_ok; [done|].
  intros _ v. rewrite value_get_redacted. cbn. intros [= <-].
  change (redact_at "items" ?v) with (redact_value v). rewrite redact_value_idempotent. apply tasks_law.
Qed.

Lemma kept_persist_plan thread now plan revision markdown :
  kept (persist_plan thread now plan revision markdown).
Proof.
  apply kept_for_turn. intros o Ho. eapply kept_unit, kept_upsert. apply plan_write_ok; [done|].
  apply tasks_ok_other. unfold get_string. rewrite value_get_redacted. by vm_compute.
Qed.

Lemma kept_persist_error thread now turn message :
  turn_text_ok turn -> kept (persist_error thread now turn message).
Proof.
  intros Ht. unfold persist_error. eapply kept_then.
  { destruct turn; [apply kept_finish_turn|by apply sat_ret]. }
  intros []. by eapply kept_unit, kept_insert_notice.
Qed.

Lemma kept_persist_event x client : storable x -> kept (persist_event x client).
Proof.
  intros [Ht Hc]. unfold persist_event. cbv zeta.
  assert (Hturn : forall t, event_turn (ev_event x) = Some t -> turn_id_from_str t = Ok t) by done.
  destruct (ev_event x) eqn:E; cbn [event_turn] in *.
  - by apply kept_persist_steering, Hturn.
  - apply kept_persist_created.
  - unfold persist_resumed. cbn. eapply kept_then; [apply sat_ensure_thread|]. intros [].
    eapply kept_unit, sat_update_threads.
    apply (thread_frame_compose (th_set_scope cwd "unix_bytes" (origin_name origin) (profile_name profile))
             (th_set_lifecycle (lifecycle_name LcReady))); [|apply lifecycle_frame].
    apply (scope_frame (fun _ => cwd) (fun _ => "unix_bytes") (fun _ => origin_name origin));
      [by left|left; by eexists|by eexists].
  - by apply kept_persist_prompt, Hturn.
  - by apply kept_persist_started, Hturn.
  - apply kept_append_turn_content; [by left|by apply Hturn].
  - apply kept_append_turn_content; [by right|by apply Hturn].
  - destruct Hc. by apply kept_persist_tokens.
  - apply kept_set_thread. intros r. split_and!; [done..|]. intros []. by constructor.
  - apply kept_persist_usage.
  - apply kept_for_turn. intros o Ho. eapply kept_unit, kept_upsert. by apply notice_write_ok.
  - apply kept_persist_tasks.
  - eapply kept_then; [apply kept_lift|]. intros v. eapply kept_unit, kept_upsert.
    apply call_write_ok; [done|by vm_compute|by vm_compute].
  - apply kept_for_turn. intros o Ho. eapply kept_then; [apply kept_lift|]. intros v.
    eapply kept_then; [|intros u; apply sat_set_thread_lifecycle]. apply kept_upsert. by apply notice_write_ok.
  - apply kept_persist_answer, harmless_object. by vm_compute.
  - apply kept_persist_tool_started.
  - apply kept_persist_output.
  - apply kept_persist_image.
  - apply kept_persist_image_progress.
  - apply kept_persist_completed.
  - apply kept_for_turn. intros o Ho. eapply kept_then; [apply kept_lift|]. intros v.
    by eapply kept_unit, kept_insert_notice.
  - apply kept_persist_diff.
  - apply kept_persist_question.
  - apply kept_persist_answer, harmless_object. by vm_compute.
  - apply kept_persist_question.
  - apply kept_persist_answer, harmless_object. by vm_compute.
  - apply kept_persist_answer, harmless_object. by vm_compute.
  - apply kept_persist_plan.
  - apply kept_update_notice_resolution, harmless_object. by vm_compute.
  - apply kept_for_turn. intros o Ho. eapply kept_unit, kept_upsert.
    apply call_write_ok; [done|by vm_compute|by vm_compute].
  - eapply kept_then; [apply sat_ensure_thread|]. intros []. apply kept_set_thread.
    apply (scope_frame th_cwd th_cwd_encoding th_origin); [by right|by right|by eexists].
  - apply kept_persist_agent.
  - eapply kept_then; [apply kept_lift|]. intros m. apply kept_set_thread.
    intros r. split_and!; [done..|]. intros []. by constructor.
  - apply kept_set_thread. intros r. split_and!; [done..|]. intros []. constructor; cbn; eauto.
  - by eapply kept_unit, kept_insert_notice.
  - eapply kept_unit, kept_upsert. by apply notice_write_ok.
  - eapply kept_unit, kept_upsert. by apply notice_write_ok.
  - by apply sat_ret.
  - apply kept_mark_response_verified.
  - apply kept_for_turn. intros o Ho. by eapply kept_unit, kept_insert_notice.
  - apply kept_finish_turn.
  - apply kept_finish_turn.
  - by apply kept_persist_error.
  - apply sat_set_thread_lifecycle.
Qed.

(** ** Batches *)

Lemma message_frame f : thread_frame (fun r => th_set_message_at (f r) r).
Proof. intros r. split_and!; [done..|]. intros []. by constructor. Qed.
Lemma user_message_frame f : thread_frame (fun r => th_set_user_message_at (f r) r).
Proof. intros r. split_and!; [done..|]. intros []. by constructor. Qed.

Lemma kept_persist_all thread client l : Forall storable l -> kept (persist_all thread client l).
Proof.
  intros H. revert client. induction H as [|x l Hx Hl IH]; intros client; cbn [persist_all]; [by apply sat_ret|].
  eapply kept_then; [by apply kept_persist_event|]. intros [].
  eapply kept_then. { destruct (_ || _); [apply kept_set_thread, message_frame|by apply sat_ret]. }
  intros []. eapply kept_then; [|intros []; apply IH].
  destruct (_ || _); [apply kept_set_thread, user_message_frame|by apply sat_ret].
Qed.

Lemma kept_bump_revision thread now : kept (bump_revision thread now).
Proof.
  eapply kept_then; [|intros n; case_bool_decide; [apply sat_throw|by apply sat_ret]].
  apply sat_update_threads, (revision_frame (fun n => n + 1)). lia.
Qed.

Lemma kept_query_preferences : kept query_profile_preferences.
Proof.
  eapply kept_then; [by apply sat_query|]. intros row. eapply kept_then; [apply kept_lift|].
  intros level. by apply sat_ret.
Qed.

Lemma kept_set_preferences f : kept (set_preferences f).
Proof. apply sat_statement. intros d d' u Hd [= <- <-]. by apply preferences_irrelevant. Qed.

Lemma kept_revise thread l replacement : kept (revise thread l replacement).
Proof.
  destruct replacement as [rev|]; cbn; [|by apply sat_ret]. destruct (negb _); [apply sat_throw|apply kept_truncate].
Qed.

Lemma kept_report_revision thread x : kept (report_revision thread x).
Proof.
  eapply kept_then; [apply kept_query_thread_revision|]. intros r. destruct (streams x); [|by apply sat_ret].
  eapply kept_then; [by apply sat_query|]. intros segment. by apply sat_ret.
Qed.

(** The body of the transaction of a batch. *)
Lemma kept_batch thread l client replacement now preferences final :
  Forall storable l ->
  kept (_ ← revise thread l replacement;
        _ ← persist_all thread client l;
        _ ← bump_revision thread now;
        preferences ← store_preferences now preferences;
        revision ← report_revision thread final;
        mret (revision, preferences)).
Proof.
  intros Hl. eapply kept_then; [apply kept_revise|]. intros [].
  eapply kept_then; [by apply kept_persist_all|]. intros [].
  eapply kept_then; [apply kept_bump_revision|]. intros [].
  eapply kept_then.
  { destruct preferences as [[model level]|]; cbn; [|by apply sat_ret].
    eapply kept_then; [apply kept_set_preferences|]. intros [].
    eapply kept_then; [apply kept_query_preferences|]. intros p. by apply sat_ret. }
  intros p. eapply kept_then; [apply kept_report_revision|]. intros r. by apply sat_ret.
Qed.
End Writes.
