(* ===== verification/StoreLife.v ===== *)
(** The life of a session store: every operation it offers, in any order and with any
    failures of the system, keeps its invariant; collections stay in the positions from
    zero, and a move or a deletion gives the order it says. *)

From stdpp Require Import base gmap strings list sorting.
From Stdlib Require Import ZArith NArith Lia ZifyBool ZifyN ZifyNat.
From S2P Require Import Prelude RustStr Json Accounting Inference Attachments Paths AppError Policy Models Kernel Redact Tables Timeline Events Projection Recovery StoreQueries StoreInvariant StoreWrites.

Local Open Scope Z_scope.

(** ** Exact effects *)

Definition exactly {A} (m : Sql A) (d d' : Db) : Prop := sat (fun x => x = d) m (fun _ x => x = d').

Lemma sat_exact {A} (P : Db -> Prop) (m : Sql A) Q :
  (forall d, P d -> sat (fun x => x = d) m Q) -> sat P m Q.
Proof. intros H c Hc. by apply (H (cn_db c)). Qed.

Lemma sat_known {A} d (m : Sql A) (Q : A -> Db -> Prop) (P : Db -> Prop) :
  P d -> sat P m Q -> sat (fun x => x = d) m Q.
Proof. intros Hd H c Hc. apply H. by rewrite Hc. Qed.

Lemma exact_then {A B} (m : Sql A) (f : A -> Sql B) d d1 Q :
  exactly m d d1 -> (forall a, sat (fun x => x = d1) (f a) Q) -> sat (fun x => x = d) (m ≫= f) Q.
Proof. apply sat_bind. Qed.

Lemma exact_statement {A} (f : Db -> result string (Db * A)) d d' :
  (forall d1 a, f d = Ok (d1, a) -> d1 = d') -> exactly (statement f) d d'.
Proof. intros H. apply sat_statement. intros d0 d1 a -> E. by eapply H. Qed.

Lemma exact_query {A B} (f : Db -> A) (g : A -> Sql B) d Q :
  sat (fun x => x = d) (g (f d)) Q -> sat (fun x => x = d) (x ← query f; g x) Q.
Proof.
  intros H. eapply sat_bind; [apply (sat_query _ _ (fun a x => x = d /\ a = f d)); by intros x ->|].
  intros a. cbv beta. intros c [Hc ->]. by apply H.
Qed.

Lemma fmap_same {A} (f : A -> A) (l : list A) : (forall x, x ∈ l -> f x = x) -> f <$> l = l.
Proof.
  induction l as [|x l IH]; intros H; [done|]. rewrite fmap_cons, H, IH; [done| |by left].
  intros y Hy. apply H. by right.
Qed.

(** ** Positions *)

Definition position_in (p : Z) (ids : list string) (id : string) : option Z :=
  (fun i => p + Z.of_nat i) <$> index_of id ids.

(** A row after its renumbering. *)
Definition renumbered (now : string) (p : Z) (ids : list string) (r : CollectionRow) : CollectionRow :=
  match position_in p ids (co_id r) with
  | Some n => co_set (co_name r) (co_collapsed r) (Z.min n I64_MAX) now r
  | None => r
  end.

Lemma index_of_In id ids : index_of id ids = None <-> id ∉ ids.
Proof.
  induction ids as [|x ids IH]; cbn; [split; [by intros _ ?%elem_of_nil|done]|].
  case_bool_decide as E; [subst; split; [done|intros H; exfalso; apply H; by left]|].
  destruct (index_of id ids); cbn; rewrite not_elem_of_cons; naive_solver.
Qed.

Lemma index_of_lookup id ids i : index_of id ids = Some i -> ids !! i = Some id.
Proof.
  revert i. induction ids as [|x ids IH]; intros i; cbn; [done|]. case_bool_decide as E.
  - subst. by intros [= <-].
  - destruct (index_of id ids) as [j|]; [|done]. cbn. intros [= <-]. by apply IH.
Qed.

Lemma renumbered_id now p ids r : co_id (renumbered now p ids r) = co_id r.
Proof. unfold renumbered. by destruct (position_in _ _ _). Qed.

Lemma renumber_exact now p ids d :
  NoDup ids ->
  exactly (renumber now p ids) d (db_set_collections (renumbered now p ids <$> db_collections d) d).
Proof.
  intros Hn. revert p d. induction Hn as [|id ids Hid Hn IH]; intros p d; cbn [renumber].
  - apply sat_ret. intros x ->. destruct d. unfold db_set_collections. cbn. f_equal.
    by rewrite fmap_same.
  - eapply exact_then.
    + apply exact_statement. intros d1 a [= <- _]. reflexivity.
    + intros n. eapply sat_weaken; [apply IH|intros x ->; reflexivity|]. intros u x ->.
      unfold db_set_collections. cbn. f_equal. unfold update_where. rewrite <- list_fmap_compose. apply list_fmap_ext. intros i r _. cbn.
      unfold is_collection, renumbered, position_in. cbn [index_of]. rewrite (bool_decide_ext (id = co_id r) (co_id r = id)) by done.
      case_bool_decide as E; cbn [co_set co_id].
      * subst. rewrite (proj2 (index_of_In (co_id r) ids) Hid). cbn. by rewrite Z.add_0_r.
      * destruct (index_of (co_id r) ids) as [k|]; cbn; [|done].
        by replace (p + Z.of_nat (S k)) with (p + 1 + Z.of_nat k) by lia.
Qed.

Lemma positions_from p ids :
  NoDup ids -> position_in p ids <$> ids = Some <$> seqZ p (Z.of_nat (length ids)).
Proof.
  intros Hn. revert p. induction Hn as [|id ids Hid Hn IH]; intros p; [done|].
  cbn [length]. rewrite seqZ_cons by lia. cbn. unfold position_in at 1. cbn [index_of].
  rewrite bool_decide_true by done. cbn. rewrite Z.add_0_r. f_equal.
  replace (Z.pred (Z.of_nat (S (length ids)))) with (Z.of_nat (length ids)) by lia.
  rewrite <- IH. apply list_fmap_ext. intros i x Hx. unfold position_in. cbn [index_of].
  rewrite bool_decide_false by (intros <-; apply Hid; by eapply list_elem_of_lookup_2).
  destruct (index_of x ids); cbn; [|done]. f_equal. lia.
Qed.

Lemma renumbered_positions now ids l :
  NoDup ids -> co_id <$> l ≡ₚ ids -> Z.of_nat (length l) <= I64_MAX ->
  co_position <$> (renumbered now 0 ids <$> l) ≡ₚ seqZ 0 (Z.of_nat (length l)).
Proof.
  intros Hn Hp Hlen. assert (Hl : length ids = length l) by (rewrite <- Hp; by rewrite length_fmap).
  rewrite <- list_fmap_compose.
  transitivity ((fun id => Z.min (default 0 (position_in 0 ids id)) I64_MAX) <$> (co_id <$> l)).
  - rewrite <- list_fmap_compose. apply reflexive_eq, list_fmap_ext. intros i r Hr. cbn. unfold renumbered.
    destruct (position_in 0 ids (co_id r)) as [n|] eqn:E; [done|]. exfalso. unfold position_in in E.
    destruct (index_of (co_id r) ids) eqn:Ei; [done|]. apply index_of_In in Ei. apply Ei. rewrite <- Hp.
    apply list_elem_of_fmap_2. by eapply list_elem_of_lookup_2.
  - rewrite Hp. apply reflexive_eq. rewrite <- Hl.
    transitivity ((fun o => Z.min (default 0 o) I64_MAX) <$> (position_in 0 ids <$> ids)).
    { by rewrite <- list_fmap_compose. }
    rewrite positions_from, <- list_fmap_compose by done. cbn.
    apply fmap_same. intros n Hi. apply elem_of_seqZ in Hi. cbn. lia.
Qed.

(** ** Order *)

Lemma seqZ_sorted p n : StronglySorted Z.le (seqZ p (Z.of_nat n)).
Proof.
  revert p. induction n as [|n IH]; intros p; [constructor|]. rewrite seqZ_cons by lia.
  replace (Z.pred (Z.of_nat (S n))) with (Z.of_nat n) by lia. constructor; [apply IH|].
  apply Forall_forall. intros x Hx. apply elem_of_seqZ in Hx. lia.
Qed.

Lemma ordered_positions d :
  shelves_ok (db_collections d) -> Z.of_nat (length (db_collections d)) <= I64_MAX ->
  co_position <$> ordered_collections d = seqZ 0 (Z.of_nat (length (db_collections d))).
Proof.
  intros Hs Hlen. apply (StronglySorted_unique Z.le).
  - eapply StronglySorted_fmap; [|apply (sort_by_on co_position)]; [done|..];
      intros a b; unfold collection_le; case_match; lia.
  - apply seqZ_sorted.
  - unfold ordered_collections. rewrite sort_by_perm. by apply Hs.
Qed.

(** After a renumbering the order is the one of the identifiers. *)
Lemma renumbered_order now ids d :
  NoDup ids -> co_id <$> db_collections d ≡ₚ ids -> Z.of_nat (length (db_collections d)) <= I64_MAX ->
  co_id <$> ordered_collections (db_set_collections (renumbered now 0 ids <$> db_collections d) d) = ids.
Proof.
  intros Hn Hp Hlen. set (d' := db_set_collections _ d).
  assert (Hl : length ids = length (db_collections d)) by (rewrite <- Hp; by rewrite length_fmap).
  assert (Hs : shelves_ok (db_collections d')).
  { constructor; cbn.
    - rewrite <- list_fmap_compose. erewrite list_fmap_ext; [rewrite Hp; exact Hn|].
      intros i r _. apply renumbered_id.
    - intros _. rewrite length_fmap. by apply renumbered_positions. }
  assert (Ho : co_position <$> ordered_collections d' = seqZ 0 (Z.of_nat (length ids))).
  { rewrite ordered_positions by (done || (cbn; rewrite length_fmap; lia)). cbn. by rewrite length_fmap, Hl. }
  apply list_eq. intros i. rewrite list_lookup_fmap.
  destruct (ordered_collections d' !! i) as [r|] eqn:Er; cbn.
  - assert (Hpos : co_position r = Z.of_nat i).
    { apply (f_equal (lookup i)) in Ho. rewrite list_lookup_fmap, Er in Ho. cbn in Ho.
      symmetry in Ho. apply lookup_seqZ in Ho. lia. }
    assert (Hr : r ∈ db_collections d').
    { apply list_elem_of_lookup_2 in Er. unfold ordered_collections in Er. by rewrite elem_of_sort_by in Er. }
    cbn in Hr. apply list_elem_of_fmap in Hr as (r0 & -> & Hr0). rewrite renumbered_id.
    assert (Hin : co_id r0 ∈ ids) by (rewrite <- Hp; by apply list_elem_of_fmap_2).
    unfold renumbered, position_in in Hpos. destruct (index_of (co_id r0) ids) as [j|] eqn:Ej.
    + cbn in Hpos. apply index_of_lookup in Ej. apply lookup_lt_Some in Ej as Hj.
      replace i with j by lia. done.
    + by apply index_of_In in Ej.
  - symmetry. apply lookup_ge_None. apply lookup_ge_None in Er. apply (f_equal length) in Ho.
    rewrite length_fmap, length_seqZ in Ho. lia.
Qed.

Lemma move_to_perm current position ids : move_to current position ids ≡ₚ ids.
Proof.
  unfold move_to. destruct (ids !! current) as [moved|] eqn:E; [|done]. cbv zeta.
  rewrite <- Permutation_middle, take_drop, <- delete_take_drop. symmetry. by apply delete_Permutation.
Qed.

Lemma ordered_ids d : co_id <$> ordered_collections d ≡ₚ co_id <$> db_collections d.
Proof. unfold ordered_collections. by rewrite sort_by_perm. Qed.

(** ** The invariant *)

Section Shelves.
Context `{CH : Chrono} `{SC : StoreCodec} `{TI : TurnIds} `{B64 : Base64} `{SJ : SerdeJson}.

Abbreviation kept m := (sat store_ok m (fun _ => store_ok)).

Lemma shelved d l :
  shelves_ok l -> (forall c, c ∈ co_id <$> db_collections d -> c ∈ co_id <$> l) ->
  store_ok d -> store_ok (db_set_collections l d).
Proof.
  intros Hl Hc [? ? ? ? ? ? ? ? ? ? ? ? ? Has]. constructor; cbn; try done. intros a Ha.
  destruct (Has a Ha). auto.
Qed.

(** A change of names and flags. *)
Lemma kept_update_collections p f :
  (forall r, co_id (f r) = co_id r /\ co_position (f r) = co_position r) -> kept (update_collections p f).
Proof.
  intros Hf. apply sat_statement. intros d d' u Hd [= <- <-]. pose proof (so_shelves d Hd) as [].
  assert (Eid : co_id <$> update_where p f (db_collections d) = co_id <$> db_collections d)
    by (apply update_fmap; intros x; apply Hf).
  apply shelved; [|by rewrite Eid|done]. constructor; [by rewrite Eid|].
  unfold update_where at 1 3. rewrite length_fmap. rewrite update_fmap by (intros x; apply Hf). done.
Qed.

Lemma next_position_count d :
  shelves_ok (db_collections d) -> Z.of_nat (length (db_collections d)) <= I64_MAX ->
  next_position d = Z.of_nat (length (db_collections d)).
Proof.
  intros Hs Hlen. unfold next_position. pose proof (sh_positions _ Hs Hlen) as Hp.
  assert (Hperm : forall l l', l ≡ₚ l' -> foldr Z.max (-1) l = foldr Z.max (-1) l').
  { induction 1; cbn; lia. }
  rewrite (Hperm _ _ Hp). generalize (length (db_collections d)) as n.
  assert (H : forall n p, -1 <= p -> (n = O -> p = 0) -> foldr Z.max (-1) (seqZ p (Z.of_nat n)) + 1 = p + Z.of_nat n).
  { induction n as [|n IH]; intros p Hp0 Hn; [rewrite (Hn eq_refl); done|]. rewrite seqZ_cons by lia.
    replace (Z.pred (Z.of_nat (S n))) with (Z.of_nat n) by lia. cbn [foldr].
    destruct n as [|n]; [change (seqZ (Z.succ p) (Z.of_nat 0)) with (@nil Z); cbn [foldr]; lia|].
    specialize (IH (Z.succ p) ltac:(lia) ltac:(done)). lia. }
  intros n. destruct n as [|n]; [done|]. rewrite H by (done || lia). lia.
Qed.

Lemma shelf_added d r :
  store_ok d -> existsb (is_collection (co_id r)) (db_collections d) = false ->
  co_position r = next_position d -> store_ok (db_set_collections (db_collections d ++ [r]) d).
Proof.
  intros Hd E Hp. pose proof (so_shelves d Hd) as Hs. apply shelved; [|by intros c Hc; rewrite fmap_app, elem_of_app; left|done].
  destruct Hs as [Hi Hpos]. constructor.
  - rewrite fmap_app. apply NoDup_app. split_and!; [done| |by apply NoDup_singleton].
    intros x (y & -> & Hy)%list_elem_of_fmap. cbn. rewrite list_elem_of_singleton. intros Hx.
    rewrite existsb_false in E. specialize (E y Hy). by apply bool_decide_eq_false in E.
  - rewrite length_app. cbn [length]. intros Hlen. rewrite fmap_app. cbn.
    rewrite Hp, next_position_count by (done || lia). rewrite Hpos by lia.
    replace (Z.of_nat (length (db_collections d) + 1)) with (Z.of_nat (length (db_collections d)) + 1) by lia.
    by rewrite seqZ_app by lia.
Qed.

Lemma kept_renumber_all now ids d d0 :
  store_ok d0 -> db_threads d = db_threads d0 -> db_turns d = db_turns d0 -> db_items d = db_items d0 ->
  db_usage d = db_usage d0 -> NoDup ids -> co_id <$> db_collections d ≡ₚ ids ->
  NoDup (as_thread_id <$> db_assignments d) ->
  (forall a, a ∈ db_assignments d -> a ∈ db_assignments d0 /\ as_collection_id a ∈ ids) ->
  sat (fun x => x = d) (renumber now 0 ids) (fun _ => store_ok).
Proof.
  intros Hd0 E1 E2 E3 E4 Hn Hp Ha Hin. eapply sat_weaken; [by apply renumber_exact|intros x ->; reflexivity|]. intros u x ->.
  assert (Eids : co_id <$> (renumbered now 0 ids <$> db_collections d) = co_id <$> db_collections d).
  { rewrite <- list_fmap_compose. apply list_fmap_ext. intros i r _. apply renumbered_id. }
  destruct Hd0 as [? ? ? ? ? ? ? ? ? ? ? ? ? Has]. constructor; cbn; rewrite ?E1, ?E2, ?E3, ?E4; try done.
  - constructor; [rewrite Eids, Hp; exact Hn|]. rewrite length_fmap. intros Hlen. by apply renumbered_positions.
  - intros a H. destruct (Hin a H) as [H0 Hc]. split; [by apply Has|]. rewrite Eids. by rewrite Hp.
Qed.
End Shelves.

(** * The life of a thread *)

(** ** What holds whether an operation succeeds or fails *)

Definition safe {A} (P : Db -> Prop) (m : Sql A) : Prop := forall c, P (cn_db c) -> P (cn_db (m c).1).

Section Safe.
Context (P : Db -> Prop).

Lemma safe_ret {A} (a : A) : safe P (mret a).
Proof. by intros c. Qed.
Lemma safe_throw {A} e : safe P (throw (A := A) e).
Proof. by intros c. Qed.
Lemma safe_lift {A} (r : result AxiomError A) : safe P (lift r).
Proof. by intros c. Qed.
Lemma safe_new_uuid : safe P new_uuid.
Proof. by intros c. Qed.
Lemma safe_utc_now : safe P utc_now.
Proof. by intros c. Qed.

Lemma safe_bind {A B} (m : Sql A) (f : A -> Sql B) : safe P m -> (forall a, safe P (f a)) -> safe P (m ≫= f).
Proof.
  intros Hm Hf c Hc. specialize (Hm c Hc). unfold mbind, M_bind. destruct (m c) as [c' [a|e]]; [|done].
  by apply Hf.
Qed.

Lemma safe_statement {A} (f : Db -> result string (Db * A)) :
  (forall d d' a, P d -> f d = Ok (d', a) -> P d') -> safe P (statement f).
Proof.
  intros H c Hc. unfold statement. cbv zeta.
  destruct (head (cn_faults c)) as [[m|]|]; [done|..];
    (destruct (f (cn_db c)) as [[d a]|m] eqn:E; [|done]; cbn; by eapply H).
Qed.

Lemma safe_query {A} (f : Db -> A) : safe P (query f).
Proof. apply safe_statement. by intros d d' a Hd [= <- _]. Qed.

Lemma safe_transaction {A} (body : Sql A) : sat P body (fun _ => P) -> safe P (transaction body).
Proof. intros H c Hc. by apply transaction_keeps. Qed.
End Safe.
#[export] Hint Resolve safe_ret safe_throw safe_lift safe_new_uuid safe_utc_now safe_query : safe.

(** The statements of an operation one after another. *)
Ltac safe_steps :=
  repeat first
    [ apply safe_ret | apply safe_throw | apply safe_lift | apply safe_new_uuid | apply safe_utc_now
    | apply safe_query | (apply safe_bind; [|intros ?]) | case_bool_decide | case_match ].

(** ** Operations *)

(** What a process asks of a store. *)
Inductive StoreOperation : Type :=
| OpAppend (l : list EventEnvelope) (client : option string) (preferences : option (string * ThinkingLevel))
    (replacement : option PromptRevision)
| OpInterrupt
| OpRename (id title : string)
| OpArchive (id : string) (archived : bool)
| OpTitleIfAbsent (id title : string)
| OpBeginTitle (id fallback : string)
| OpFinishTitle (id generation : string) (title : option string)
| OpDelete (ids : list string)
| OpRecordUsage (id : string) (usage : RequestUsage)
| OpReconcile (id : string) (snapshots : list RequestUsage)
| OpPreferences (model : string) (level : ThinkingLevel)
| OpLastModel (model : string)
| OpLastThinking (level : ThinkingLevel)
| OpCreateCollection (name : string)
| OpRenameCollection (id name : string)
| OpCollapse (id : string) (collapsed : bool)
| OpMove (id : string) (position : Z)
| OpDeleteCollection (id : string)
| OpAssign (thread : string) (collection : option string).

Section Life.
Context `{CH : Chrono} `{SC : StoreCodec} `{TI : TurnIds} `{B64 : Base64} `{SJ : SerdeJson}.

Definition done_with {A} (m : Sql A) : Sql unit := _ ← m; mret tt.

Definition run_operation (op : StoreOperation) : Sql unit :=
  match op with
  | OpAppend l client preferences replacement => done_with (append_batch l client preferences replacement)
  | OpInterrupt => interrupt_incomplete_turns
  | OpRename id title => done_with (rename id title)
  | OpArchive id archived => done_with (archive id archived)
  | OpTitleIfAbsent id title => done_with (set_title_if_absent id title)
  | OpBeginTitle id fallback => done_with (begin_title_generation id fallback)
  | OpFinishTitle id generation title => done_with (finish_title_generation id generation title)
  | OpDelete ids => done_with (delete_sessions ids)
  | OpRecordUsage id usage => record_request_usage id usage
  | OpReconcile id snapshots => reconcile_request_usage id snapshots
  | OpPreferences model level => done_with (set_profile_preferences model level)
  | OpLastModel model => set_last_used_model model
  | OpLastThinking level => set_last_used_thinking level
  | OpCreateCollection name => done_with (create_collection name)
  | OpRenameCollection id name => done_with (rename_collection id name)
  | OpCollapse id collapsed => done_with (set_collection_collapsed id collapsed)
  | OpMove id position => done_with (move_collection id position)
  | OpDeleteCollection id => done_with (delete_collection id)
  | OpAssign thread collection => done_with (assign_thread_collection thread collection)
  end.

(** The events a process records name turns by the texts of their identifiers. *)
Definition permitted (op : StoreOperation) : Prop :=
  match op with OpAppend l _ _ _ => Forall storable l | _ => True end.

(** A store as it is created. *)
Definition empty_db (now : string) : Db :=
  {| db_threads := []; db_turns := []; db_items := []; db_attachments := []; db_usage := [];
     db_preferences := {| pr_model := None; pr_thinking := thinking_name LevelMedium; pr_updated_at := now |};
     db_collections := []; db_assignments := []; db_collection_revision := 0 |}.

(** What a sequence of operations makes of the tables, each met by what the system has in
    store for it: failures, identifiers and times. *)
Inductive lived : Db -> Prop :=
| lived_new now : lived (empty_db now)
| lived_step op c : lived (cn_db c) -> permitted op -> lived (cn_db (run_operation op c).1).

(** ** Each of them keeps the invariant *)

Abbreviation kept m := (sat store_ok m (fun _ => store_ok)).
Abbreviation lasting m := (safe store_ok m).

Lemma lasting_update_threads p f : thread_frame f -> lasting (update_threads p f).
Proof. intros Hf. apply safe_statement. intros d d' a Hd [= <- <-]. by apply threads_updated. Qed.

Lemma lasting_query_revision id : lasting (query_thread_revision id).
Proof. unfold query_thread_revision. safe_steps. Qed.

Lemma lasting_done {A} (m : Sql A) : lasting m -> lasting (done_with m).
Proof. intros H. apply safe_bind; [done|]. intros a. apply safe_ret. Qed.

(** A sequence whose first statements start from what is known of the tables. *)
Lemma kept_then_from {A B} (P : Db -> Prop) (m : Sql A) (f : A -> Sql B) :
  sat P m (fun _ => store_ok) -> (forall a, kept (f a)) -> sat P (m ≫= f) (fun _ => store_ok).
Proof. apply sat_bind. Qed.

(** The columns the invariant does not speak of. *)
Lemma title_frame title generation (g : ThreadRow -> ThreadRow) :
  thread_frame g -> thread_frame (fun r => th_set_title (title r) (generation r) (g r)).
Proof.
  intros Hg r. destruct (Hg r) as (E & L & O). split_and!; [done..|]. intros H. destruct (O H). by constructor.
Qed.

Lemma bumped_frame now : thread_frame (fun r => th_set_revision (th_revision r + 1) now r).
Proof. apply (revision_frame (fun n => n + 1)). lia. Qed.

Lemma archived_frame archived (g : ThreadRow -> ThreadRow) :
  thread_frame g -> thread_frame (fun r => th_set_archived archived (g r)).
Proof.
  intros Hg r. destruct (Hg r) as (E & L & O). split_and!; [done..|]. intros H. destruct (O H). by constructor.
Qed.

Lemma lasting_metadata id f : (forall now, thread_frame (f now)) -> lasting (update_thread_metadata id f).
Proof.
  intros Hf. apply safe_bind; [apply safe_utc_now|]. intros now.
  apply safe_bind; [by apply lasting_update_threads|]. intros n. case_bool_decide; [apply safe_throw|].
  apply lasting_query_revision.
Qed.

Lemma lasting_append `{SL : !StoreLaws} l client preferences replacement :
  Forall storable l -> lasting (append_batch l client preferences replacement).
Proof.
  intros Hl. unfold append_batch. destruct l as [|x l]; [apply safe_throw|]. cbv zeta.
  destruct (existsb _ _); [apply safe_throw|]. apply safe_bind; [apply safe_lift|]. intros c.
  apply safe_bind; [apply safe_lift|]. intros p. destruct (_ && _); [apply safe_throw|].
  apply safe_transaction. by apply kept_batch.
Qed.

Lemma kept_interrupt_thread now id : kept (interrupt_thread now id).
Proof.
  eapply (kept_unit store_ok), sat_update_threads.
  apply (thread_frame_compose (th_set_lifecycle (lifecycle_name LcReady))); [apply lifecycle_frame|apply bumped_frame].
Qed.

Lemma interrupted_frame error at_ :
  turn_frame (fun r => tu_finish (turn_status_name TsInterrupted) (error r) (at_ r) r).
Proof. intros r. apply (finish_frame TsInterrupted). Qed.

Lemma lasting_interrupt : lasting interrupt_incomplete_turns.
Proof.
  apply safe_bind; [apply safe_utc_now|]. intros now. cbv zeta. apply safe_transaction.
  eapply kept_then; [by apply sat_query|]. intros ids. eapply kept_then.
  { apply sat_update_usage, (record_frame _ fail_request). done. }
  intros n. case_bool_decide; [by apply sat_ret|].
  eapply kept_then; [apply sat_update_turns, (interrupted_frame _ (fun _ => Some (to_rfc3339 now)))|]. intros m.
  eapply kept_then; [|intros u; apply sat_iter; intros id _; apply kept_interrupt_thread].
  apply sat_statement. intros d d' a Hd [= <- <-]. apply items_updated; [frame| |done].
  intros r _ _ Hr. by apply (item_ok_kept r _ IsInterrupted).
Qed.

Lemma drop_thread_ok id d : store_ok d -> store_ok (drop_thread id d).
Proof.
  intros [? ? ? ? ? ? ? Hb Ho ? ? ? ? Ha]. constructor; cbn.
  - by apply NoDup_fmap_filterb.
  - rewrite Forall_forall in *. intros x [Hx _]%elem_of_filterb. auto.
  - by apply NoDup_fmap_filterb.
  - rewrite Forall_forall in *. intros x [Hx _]%elem_of_filterb. auto.
  - by apply NoDup_fmap_filterb.
  - rewrite Forall_forall in *. intros x [Hx _]%elem_of_filterb. auto.
  - by apply sorted_filter.
  - intros r t [Hr _]%elem_of_filterb [Ht _]%elem_of_filterb. by apply Hb.
  - intros r [Hr Hn]%elem_of_filterb. destruct (Ho r Hr) as (t & Ht & Et). exists t. split; [|done].
    apply elem_of_filterb. split; [done|]. unfold of_thread, item_of in *. by rewrite Et.
  - by apply NoDup_fmap_filterb.
  - rewrite Forall_forall in *. intros x [Hx _]%elem_of_filterb. auto.
  - done.
  - by apply NoDup_fmap_filterb.
  - intros a [Hin Hn]%elem_of_filterb. destruct (Ha a Hin) as [(t & Et & Ht)%list_elem_of_fmap Hc].
    split; [|done]. apply list_elem_of_fmap. exists t. split; [done|]. apply elem_of_filterb. split; [done|].
    unfold of_thread. by rewrite Et in Hn.
Qed.

Lemma kept_delete_all deleted ids : kept (delete_all deleted ids).
Proof.
  revert deleted. induction ids as [|id ids IH]; intros deleted; cbn [delete_all]; [by apply sat_ret|].
  eapply kept_then; [|apply IH]. eapply kept_then; [|intros n; by apply sat_ret].
  apply sat_statement. intros d d' a Hd [= <- <-]. by apply drop_thread_ok.
Qed.

Lemma lasting_record_usage id usage : lasting (record_request_usage id usage).
Proof.
  unfold record_request_usage. destruct (negb _); [apply safe_throw|]. apply safe_transaction.
  eapply kept_then; [apply sat_ensure_thread|]. intros []. eapply kept_then; [apply sat_upsert_usage|].
  intros []. eapply (kept_unit store_ok), sat_update_threads.
  intros r. split_and!; [done..|]. intros []. constructor; cbn; eauto. lia.
Qed.

Lemma kept_reconcile_one id snapshot : kept (reconcile_one id snapshot).
Proof.
  unfold reconcile_one. destruct (_ || _); [apply sat_throw|].
  eapply kept_then; [by apply sat_query|]. intros [local|]; [|by apply sat_ret].
  destruct (identity_mismatch _ _); [apply sat_throw|]. destruct (_ || _); [by apply sat_ret|].
  eapply (kept_unit store_ok), sat_update_usage.
  intros r [Hr%bool_decide_eq_true _]%andb_true_iff. split; [done|]. intros _. exact Hr.
Qed.

Lemma lasting_preferences f : lasting (set_preferences f).
Proof. apply safe_statement. intros d d' u Hd [= <- <-]. by apply preferences_irrelevant. Qed.

(** *** Collections *)

Lemma kept_collection_change id : kept (collection_change id).
Proof.
  eapply kept_then. { apply sat_statement. intros d d' u Hd [= <- <-]. by apply (store_ok_same d). }
  intros []. eapply kept_then; [|intros s; by apply sat_ret]. unfold collection_state.
  eapply kept_then; [by apply sat_query|]. intros revision.
  eapply kept_then; [by apply sat_query|]. intros l. eapply kept_then; [by apply sat_lift|]. intros n.
  by apply sat_ret.
Qed.

Lemma kept_touch_thread now id : kept (touch_thread now id).
Proof. eapply (kept_unit store_ok), sat_update_threads, bumped_frame. Qed.

Lemma kept_ensure_changed id n : kept (ensure_collection_changed id n).
Proof. unfold ensure_collection_changed. case_bool_decide; [apply sat_throw|by apply sat_ret]. Qed.

Lemma lasting_update_collection id f :
  (forall now r, co_id (f now r) = co_id r /\ co_position (f now r) = co_position r) ->
  lasting (update_collection id f).
Proof.
  intros Hf. apply safe_bind; [apply safe_utc_now|]. intros now. apply safe_transaction.
  eapply kept_then; [by apply kept_update_collections|]. intros n.
  eapply kept_then; [apply kept_ensure_changed|]. intros u. apply kept_collection_change.
Qed.

Lemma lasting_create_collection name : lasting (create_collection name).
Proof.
  unfold create_collection. apply safe_bind; [apply safe_lift|]. intros n.
  apply safe_bind; [apply safe_new_uuid|]. intros id. apply safe_bind; [apply safe_utc_now|]. intros now.
  apply safe_transaction. eapply sat_bind; [apply sat_query_eq|]. intros position.
  eapply kept_then_from; [|intros u; apply kept_collection_change].
  apply sat_statement. intros d d' u [Hd Hp] H. destruct (existsb _ _) eqn:E; [done|]. destruct (_ <? 0); [done|].
  injection H as <- <-. by apply shelf_added.
Qed.

Lemma lasting_move id position : lasting (move_collection id position).
Proof.
  unfold move_collection. apply safe_bind; [apply safe_lift|]. intros n.
  apply safe_bind; [apply safe_utc_now|]. intros now. apply safe_transaction.
  apply sat_exact. intros d Hd. apply exact_query.
  eapply sat_bind; [by apply (sat_lift _ _ (fun _ x => x = d))|]. intros current.
  destruct (_ <=? _)%nat; [apply sat_throw|].
  eapply kept_then_from; [|intros u; apply kept_collection_change].
  apply (kept_renumber_all _ _ d d); try done.
  - rewrite move_to_perm, ordered_ids. apply (so_shelves d Hd).
  - by rewrite move_to_perm, ordered_ids.
  - apply Hd.
  - intros a Ha. split; [done|]. rewrite move_to_perm, ordered_ids. by apply (so_assignments d Hd).
Qed.

Lemma lasting_delete_collection id : lasting (delete_collection id).
Proof.
  apply safe_bind; [apply safe_utc_now|]. intros now. apply safe_transaction.
  apply sat_exact. intros d Hd. apply exact_query. set (d1 := drop_collection id d).
  eapply (exact_then _ _ d d1). { apply exact_statement. by intros d2 a [= <- _]. }
  intros n. eapply (exact_then _ _ d1 d1).
  { unfold exactly, ensure_collection_changed. case_bool_decide; [apply sat_throw|by apply sat_ret]. }
  intros u. apply exact_query.
  eapply kept_then_from.
  - pose proof (so_shelves d Hd) as [Hi _]. apply (kept_renumber_all _ _ d1 d); try done.
    + rewrite ordered_ids. by apply NoDup_fmap_filterb.
    + by rewrite ordered_ids.
    + apply NoDup_fmap_filterb, Hd.
    + intros a [Ha Hn]%elem_of_filterb. split; [done|]. rewrite ordered_ids.
      destruct (so_assignments d Hd a Ha) as [_ (c & Ec & Hc)%list_elem_of_fmap].
      apply list_elem_of_fmap. exists c. split; [done|]. apply elem_of_filterb. split; [done|].
      unfold is_collection. by rewrite Ec in Hn.
  - intros u'. eapply kept_then; [|intros u2; apply kept_collection_change].
    apply sat_iter. intros x _. apply kept_touch_thread.
Qed.

Lemma assigned_ok d r :
  store_ok d -> has_thread (as_thread_id r) d = true ->
  existsb (is_collection (as_collection_id r)) (db_collections d) = true ->
  store_ok (db_set_assignments
    (if existsb (fun a => bool_decide (as_thread_id a = as_thread_id r)) (db_assignments d)
     then update_where (fun a => bool_decide (as_thread_id a = as_thread_id r)) (fun _ => r) (db_assignments d)
     else db_assignments d ++ [r]) d).
Proof.
  intros [? ? ? ? ? ? ? ? ? ? ? ? Hn Ha] Ht Hc.
  assert (Hr : as_thread_id r ∈ th_id <$> db_threads d /\ as_collection_id r ∈ co_id <$> db_collections d).
  { split; apply list_elem_of_fmap.
    - apply existsb_exists in Ht as (t & Hin & E%bool_decide_eq_true). exists t. by rewrite list_elem_of_In.
    - apply existsb_exists in Hc as (t & Hin & E%bool_decide_eq_true). exists t. by rewrite list_elem_of_In. }
  constructor; cbn; try done; destruct (existsb _ (db_assignments d)) eqn:E.
  - rewrite update_fmap_when; [done|]. intros x Hx. by apply bool_decide_eq_true in Hx.
  - rewrite fmap_app. apply NoDup_app. split_and!; [done| |by apply NoDup_singleton].
    intros x (y & -> & Hy)%list_elem_of_fmap. cbn. rewrite list_elem_of_singleton. intros Hx.
    rewrite existsb_false in E. specialize (E y Hy). by apply bool_decide_eq_false in E.
  - intros a (y & Hy & ->)%elem_of_update. destruct (bool_decide _); [done|by apply Ha].
  - intros a [Hin| ->%list_elem_of_singleton]%elem_of_app; [by apply Ha|done].
Qed.

Lemma unassigned_ok d q :
  store_ok d -> store_ok (db_set_assignments (List.filter q (db_assignments d)) d).
Proof.
  intros [? ? ? ? ? ? ? ? ? ? ? ? Hn Ha]. constructor; cbn; try done.
  - by apply NoDup_fmap_filterb.
  - intros a [Hin _]%elem_of_filterb. by apply Ha.
Qed.

Lemma lasting_assign thread collection : lasting (assign_thread_collection thread collection).
Proof.
  apply safe_bind; [apply safe_utc_now|]. intros now. apply safe_transaction.
  eapply kept_then; [apply sat_ensure_thread|]. intros u. eapply kept_then.
  { destruct collection as [c|].
    - eapply kept_then; [by apply sat_query|]. intros []; [|apply sat_throw].
      apply sat_statement. intros d d' a Hd H. cbn [as_thread_id as_collection_id] in H.
      destruct (negb _ || negb _) eqn:E; [done|]. apply orb_false_iff in E as [E1%negb_false_iff E2%negb_false_iff].
      set (row := {| as_thread_id := thread; as_collection_id := c; as_assigned_at := to_rfc3339 now |}) in *.
      pose proof (assigned_ok d row Hd E1 E2) as Hok. cbn [as_thread_id row] in Hok.
      by destruct (existsb _ (db_assignments d)); injection H as <- <-.
    - apply sat_statement. intros d d' a Hd [= <- <-]. by apply unassigned_ok. }
  intros u'. eapply kept_then; [apply kept_touch_thread|]. intros u2. apply kept_collection_change.
Qed.

(** *** All of them *)

Lemma lasting_operation `{SL : !StoreLaws} op : permitted op -> lasting (run_operation op).
Proof.
  destruct op; cbn [run_operation permitted]; intros Hp; try apply lasting_done.
  - by apply lasting_append.
  - apply lasting_interrupt.
  - apply safe_bind; [apply safe_lift|]. intros t. apply lasting_metadata. intros now.
    apply (title_frame (fun _ => _) (fun _ => None)), bumped_frame.
  - apply lasting_metadata. intros now. apply archived_frame, bumped_frame.
  - apply safe_bind; [apply safe_lift|]. intros t. apply safe_bind; [apply safe_utc_now|]. intros now.
    apply safe_bind; [|intros n; safe_steps].
    apply lasting_update_threads, (title_frame (fun _ => _) th_title_generation_id), bumped_frame.
  - apply safe_bind; [apply safe_lift|]. intros t. apply safe_bind; [apply safe_new_uuid|]. intros generation.
    apply safe_bind; [apply safe_utc_now|]. intros now. apply safe_bind; [|intros n; safe_steps].
    apply lasting_update_threads, (title_frame (fun _ => _) (fun _ => _)), bumped_frame.
  - apply safe_bind; [apply safe_lift|]. intros t. apply safe_bind; [apply safe_utc_now|]. intros now.
    apply safe_bind; [|intros n; safe_steps].
    apply lasting_update_threads, (title_frame (fun r => first_some t (th_title r)) (fun _ => None)), bumped_frame.
  - destruct ids; [apply safe_ret|]. apply safe_transaction, kept_delete_all.
  - apply lasting_record_usage.
  - apply safe_transaction. eapply kept_then; [apply sat_ensure_thread|]. intros u.
    apply sat_iter. intros x _. apply kept_reconcile_one.
  - apply safe_bind; [apply safe_lift|]. intros m. apply safe_bind; [apply safe_utc_now|]. intros now.
    apply safe_bind; [apply lasting_preferences|]. intros u. unfold query_profile_preferences. safe_steps.
  - apply safe_bind; [apply safe_lift|]. intros m. apply safe_bind; [apply safe_utc_now|]. intros now.
    apply lasting_preferences.
  - apply safe_bind; [apply safe_utc_now|]. intros now. apply lasting_preferences.
  - apply lasting_create_collection.
  - apply safe_bind; [apply safe_lift|]. intros n. by apply lasting_update_collection.
  - by apply lasting_update_collection.
  - apply lasting_move.
  - apply lasting_delete_collection.
  - apply lasting_assign.
Qed.

Lemma empty_ok now : store_ok (empty_db now).
Proof.
  constructor; cbn; try by constructor.
  all: try (intros x; intros; by match goal with H : _ ∈ [] |- _ => apply elem_of_nil in H end).
  by constructor; [constructor|].
Qed.

Lemma lived_ok `{SL : !StoreLaws} d : lived d -> store_ok d.
Proof. induction 1 as [now|op c _ IH Hp]; [apply empty_ok|by apply lasting_operation]. Qed.
End Life.
