(* ===== verification/StoreLoad.v ===== *)
(** Loading a stored thread: whatever its invariant allows is projected into a journal
    that the kernel restores. *)

From stdpp Require Import base gmap strings list sorting.
From Stdlib Require Import ZArith NArith Lia ZifyBool ZifyN ZifyNat.
From S2P Require Import Prelude RustStr Json Accounting Inference Attachments Paths AppError Policy Models Kernel Redact Tables Timeline Events Projection Recovery StoreQueries StoreInvariant StoreWrites.

Local Open Scope Z_scope.

(** ** Names *)

Lemma kind_from_name k : kind_from_str (kind_name k) = Ok k.
Proof. by destruct k; vm_compute. Qed.
Lemma status_from_name s : status_from_str (status_name s) = Ok s.
Proof. by destruct s; vm_compute. Qed.
Lemma turn_status_from_name s : turn_status_from_str (turn_status_name s) = Ok s.
Proof. by destruct s; vm_compute. Qed.
Lemma lifecycle_from_name l : lifecycle_from_str (lifecycle_name l) = Ok l.
Proof. by destruct l; vm_compute. Qed.
Lemma thinking_from_name l : thinking_from_str (thinking_name l) = Ok l.
Proof. by destruct l; vm_compute. Qed.
Lemma profile_from_name p : profile_from_str (profile_name p) = Ok p.
Proof. by destruct p; vm_compute. Qed.
Lemma origin_from_its_name o : origin_from_name (origin_name o) = Ok o.
Proof. by destruct o; vm_compute. Qed.

Lemma collect_total {E A B} (f : A -> result E B) (R : A -> B -> Prop) l :
  (forall x, x ∈ l -> exists y, f x = Ok y /\ R x y) -> exists ys, collect f l = Ok ys /\ Forall2 R l ys.
Proof.
  induction l as [|x l IH]; intros H; [by exists []|].
  destruct (H x) as (y & Hy & Rxy); [by left|]. destruct IH as (ys & Hys & Rs); [intros z Hz; apply H; by right|].
  exists (y :: ys). cbn. rewrite Hy. cbn. rewrite Hys. split; [done|by constructor].
Qed.

(** ** Running without failures *)

Definition untroubled (c : Conn) : Prop := cn_faults c = [].

Lemma run_query {A} (f : Db -> A) c : untroubled c -> query f c = (c, Ok (f (cn_db c))).
Proof. unfold untroubled. destruct c as [d faults u n k t]. cbn. by intros ->. Qed.

Lemma run_query_bind {A B} (f : Db -> A) (g : A -> Sql B) c :
  untroubled c -> (x ← query f; g x) c = g (f (cn_db c)) c.
Proof. intros Hc. unfold mbind, M_bind. by rewrite run_query. Qed.

Lemma run_lift_bind {A B} (a : A) (r : result AxiomError A) (g : A -> Sql B) c :
  r = Ok a -> (x ← lift r; g x) c = g a c.
Proof. by intros ->. Qed.

Lemma run_bind {S E A B} (m : M S E A) (g : A -> M S E B) s s' a :
  m s = (s', Ok a) -> (m ≫= g) s = g a s'.
Proof. intros H. unfold mbind, M_bind. by rewrite H. Qed.

(** ** What a projection emits *)

(** Events after the first of a journal: they never change what a session may do. *)
Definition keeps_scope (e : AppEvent) : Prop :=
  match e with
  | AppSessionCreated _ _ _ | AppSessionResumed _ _ _ | AppDesktopAgentConfigured _
  | AppPermissionProfileChanged _ => False
  | _ => True
  end.

(** What is said in an event, by whom and in which turn. *)
Inductive Speaker : Type := ByUser | ByAssistant.
Definition Saying : Type := Speaker * string * string.

Definition said (e : AppEvent) : option Saying :=
  match e with
  | AppPromptAccepted turn text _ | AppSteeringApplied turn _ text => Some (ByUser, turn, text)
  | AppTextDelta turn text => Some (ByAssistant, turn, text)
  | _ => None
  end.

Definition same_scope (s s' : SessionState) : Prop :=
  ss_id s' = ss_id s /\ ss_cwd s' = ss_cwd s /\ ss_profile s' = ss_profile s /\ ss_origin s' = ss_origin s.

Lemma replay_one_scope id e s :
  keeps_scope e -> exists s', replay_event (Some s) id e = Ok (Some s') /\ same_scope s s'.
Proof.
  destruct e; cbn; try done; try (destruct turn); intros _; by eexists.
Qed.

Lemma replay_keeps_scope id l s :
  Forall keeps_scope l -> exists s', replay_events (Some s) id l = Ok (Some s') /\ same_scope s s'.
Proof.
  intros H. revert s. induction H as [|e l He Hl IH]; intros s; [by exists s|]. cbn [replay_events].
  destruct (replay_one_scope id e s He) as (s1 & -> & E1 & E2 & E3 & E4).
  destruct (IH s1) as (s2 & E & F1 & F2 & F3 & F4). exists s2. split; [exact E|].
  unfold same_scope. by rewrite F1, F2, F3, F4.
Qed.

Section Load.
Context `{CH : Chrono} `{SC : StoreCodec} `{TI : TurnIds} `{B64 : Base64} `{SJ : SerdeJson}.
Context (now correlation : Z -> string).

Abbreviation push := (push now correlation).

Definition pushed (l : list (string * AppEvent)) (p : RuntimeProjection) : RuntimeProjection :=
  foldl (fun p x => (push x.1 x.2 p).1) p l.

Definition emits {A} (m : Projecting A) (a : A) (texts : list Saying) : Prop :=
  forall p, exists l, m p = (pushed l p, Ok a) /\ Forall (fun x => keeps_scope x.2) l /\ omap said l.*2 = texts.

Lemma emits_ret {A} (a : A) : emits (mret a) a [].
Proof. intros p. by exists []. Qed.

Lemma emits_bind {A B} (m : Projecting A) (f : A -> Projecting B) a b t1 t2 :
  emits m a t1 -> emits (f a) b t2 -> emits (m ≫= f) b (t1 ++ t2).
Proof.
  intros Hm Hf p. destruct (Hm p) as (l1 & E1 & S1 & T1), (Hf (pushed l1 p)) as (l2 & E2 & S2 & T2).
  exists (l1 ++ l2). split_and!.
  - rewrite (run_bind _ _ _ _ _ E1), E2. f_equal. unfold pushed. by rewrite foldl_app.
  - by apply Forall_app.
  - by rewrite fmap_app, omap_app, T1, T2.
Qed.

Lemma emits_lift {A B} (r : result AxiomError A) (f : A -> Projecting B) a b t :
  r = Ok a -> emits (f a) b t -> emits (x ← lift r; f x) b t.
Proof. intros -> Hf p. exact (Hf p). Qed.

Lemma emits_push at_ e : keeps_scope e -> emits (push at_ e) tt (option_list (said e)).
Proof.
  intros He p. exists [(at_, e)]. split_and!; [done|by repeat constructor|].
  cbn. by destruct (said e).
Qed.

Lemma emits_quiet at_ e : keeps_scope e -> said e = None -> emits (push at_ e) tt [].
Proof. intros He Hs. pose proof (emits_push at_ e He) as H. by rewrite Hs in H. Qed.

(** A step that says nothing, then the rest. *)
Lemma emits_then {A B} (m : Projecting A) (f : A -> Projecting B) a b t :
  emits m a [] -> emits (f a) b t -> emits (m ≫= f) b t.
Proof. apply (emits_bind m f a b []). Qed.

Lemma emits_if (b : bool) at_ e :
  keeps_scope e -> said e = None -> emits (if b then mret tt else push at_ e) tt [].
Proof. intros. destruct b; [apply emits_ret|by apply emits_quiet]. Qed.
Lemma emits_when (b : bool) at_ e :
  keeps_scope e -> said e = None -> emits (if b then push at_ e else mret tt) tt [].
Proof. intros. destruct b; [by apply emits_quiet|apply emits_ret]. Qed.

Ltac quiet_push := apply emits_quiet; done.

(** ** Numbers *)

Record numbered (id : string) (p : RuntimeProjection) : Prop := {
  nu_id : pj_id p = id;
  nu_last : pj_sequence p = Z.min (Z.of_nat (length (pj_events p))) U64_MAX;
  nu_sequences : ev_sequence <$> pj_events p =
    (fun n => Z.min n U64_MAX) <$> seqZ 1 (Z.of_nat (length (pj_events p)));
  nu_sessions : Forall (fun x => ev_session x = id) (pj_events p)
}.

Lemma push_numbered id at_ e p : numbered id p -> numbered id (push at_ e p).1.
Proof.
  intros [Hi Hl Hs Hf]. constructor; cbn; [done|..].
  - rewrite length_app, Hl. cbn. unfold saturating_add. lia.
  - rewrite fmap_app, Hs, length_app. cbn [length].
    replace (Z.of_nat (length (pj_events p) + 1)) with (Z.of_nat (length (pj_events p)) + 1) by lia.
    rewrite seqZ_app by lia. rewrite fmap_app. f_equal. rewrite Z.add_comm.
    rewrite (seqZ_cons _ 1) by lia. cbn. rewrite Hl. unfold saturating_add. f_equal. lia.
  - apply Forall_app. split; [done|]. by repeat constructor.
Qed.

Lemma pushed_numbered id l p : numbered id p -> numbered id (pushed l p).
Proof. revert p. induction l as [|x l IH]; intros p Hp; [done|]. by apply IH, push_numbered. Qed.

Lemma pushed_events l p : ev_event <$> pj_events (pushed l p) = (ev_event <$> pj_events p) ++ l.*2.
Proof.
  revert p. induction l as [|x l IH]; intros p; cbn; [by rewrite app_nil_r|].
  unfold pushed in IH. rewrite IH. cbn. by rewrite fmap_app, <- app_assoc.
Qed.

(** ** Items *)

Lemma emits_terminal o : emits (project_turn_terminal now correlation o) tt [].
Proof.
  destruct o as [t|]; [|apply emits_ret]. unfold project_turn_terminal.
  destruct (turn_id_from_str (tn_id t)) as [turn|]; [|apply emits_ret]. cbv zeta.
  eapply emits_then; [by apply emits_when|]. apply emits_quiet; unfold terminal_event; by destruct (tn_status t).
Qed.

Lemma emits_close turns active : emits (close_turn now correlation turns active) tt [].
Proof. destruct active; [apply emits_terminal|apply emits_ret]. Qed.

(** An item as it is decoded. *)
Definition read_item (r : ItemRow) (i : TimelineItem) : Prop :=
  decode_item r = Ok i /\ ti_kind r = kind_name (tl_kind i) /\ tl_metadata i = ti_metadata r /\
  tl_turn_id i = ti_turn_id r /\ tl_content i = ti_content r /\ tl_id i = ti_id r.

Lemma item_reads r : item_ok r -> exists i, decode_item r = Ok i /\ read_item r i.
Proof.
  intros []. destruct io_kind as [k Ek], io_status as [s Es]. unfold read_item, decode_item, checked_u64.
  rewrite Ek, Es, kind_from_name, status_from_name. destruct (0 <=? ti_sequence r) eqn:E; [|lia].
  eexists. by cbn.
Qed.

Lemma read_kind r i k : read_item r i -> is_kind k r = bool_decide (tl_kind i = k).
Proof.
  intros (_ & E & _). unfold is_kind. rewrite E. destruct (tl_kind i), k; by vm_compute.
Qed.

Lemma image_name i : is_image_call (tl_metadata i) = true -> image_tool (tool_name i) = true.
Proof.
  unfold is_image_call, tool_name, get_string, index_get. destruct (value_get "name" (tl_metadata i)) as [v|]; cbn; [|done].
  by destruct (as_str v).
Qed.

Lemma emits_tool r i turn :
  item_ok r -> read_item r i -> tl_kind i = KToolCall -> emits (project_tool now correlation i turn) tt [].
Proof.
  intros Hok Hr Hk. pose proof (io_images r Hok) as Him. rewrite (read_kind r i _ Hr), bool_decide_true in Him by done.
  specialize (Him eq_refl). destruct Hr as (_ & _ & Em & _). rewrite <- Em in Him. destruct Him as [Hp Hg].
  unfold project_tool. cbv zeta. eapply emits_then; [quiet_push|].
  eapply emits_then; [case_bool_decide; [apply emits_ret|quiet_push]|].
  eapply emits_then.
  { unfold project_progress. destruct (value_get "image_progress" _) as [v|]; [|apply emits_ret].
    destruct (Hp v eq_refl) as (Hi%image_name & q & Hq & Hv). eapply emits_lift; [by rewrite Hq|].
    rewrite Hi, Hv. cbn. quiet_push. }
  eapply emits_then; [by apply emits_if|].
  eapply emits_then.
  { unfold project_tool_image. destruct (value_get "generated_image" _) as [v|]; [|apply emits_ret].
    destruct (Hg v eq_refl) as (Hi%image_name & image & Hq). rewrite Hi. cbn.
    eapply emits_lift; [exact Hq|]. quiet_push. }
  eapply emits_then; [destruct (get_string "diff" _); [quiet_push|apply emits_ret]|].
  destruct (tl_status i); (apply emits_ret || quiet_push).
Qed.

Lemma emits_plan r i :
  item_ok r -> read_item r i -> tl_kind i = KPlan -> emits (project_plan now correlation i) tt [].
Proof.
  intros Hok Hr Hk. pose proof (io_tasks r Hok) as Ht. rewrite (read_kind r i _ Hr), bool_decide_true in Ht by done.
  specialize (Ht eq_refl). destruct Hr as (_ & _ & Em & _). rewrite <- Em in Ht.
  unfold project_plan. case_bool_decide as E.
  - destruct (value_get "items" _) as [v|] eqn:Ev; [|apply emits_ret].
    destruct (Ht E v Ev) as [tasks Htasks]. eapply emits_lift; [by rewrite Htasks|]. quiet_push.
  - destruct (tl_external_id i); [|apply emits_ret]. cbv zeta. eapply emits_then; [quiet_push|].
    destruct (get_string "decision" _); [quiet_push|apply emits_ret].
Qed.

Lemma emits_notice i : emits (project_notice now correlation i) tt [].
Proof.
  unfold project_notice, notice_event. cbv zeta.
  repeat (case_bool_decide; [quiet_push|]). destruct (_ && _); [quiet_push|apply emits_ret].
Qed.

(** What an item says. *)
Definition row_text (r : ItemRow) : option Saying :=
  match ti_turn_id r with
  | Some turn =>
    if is_kind KUserMessage r then Some (ByUser, turn, ti_content r)
    else if is_kind KAssistantMessage r && negb (is_empty (ti_content r))
    then Some (ByAssistant, turn, ti_content r) else None
  | None => None
  end.

Lemma parsed_turn turn r : item_ok r -> ti_turn_id r = Some turn -> parse_turn turn = Ok turn.
Proof. intros Hok Ht. unfold parse_turn. by rewrite (io_turn r Hok turn Ht). Qed.

Lemma emits_user turns attachments active r i :
  item_ok r -> read_item r i -> tl_kind i = KUserMessage ->
  exists active', emits (project_user now correlation turns attachments active i) active'
                    (option_list (row_text r)).
Proof.
  intros Hok Hr Hk. pose proof (io_user r Hok) as Hu.
  rewrite (read_kind r i _ Hr), bool_decide_true in Hu by done. specialize (Hu eq_refl). unfold row_text.
  rewrite (read_kind r i _ Hr), bool_decide_true by done.
  destruct (ti_turn_id r) as [turn|] eqn:Et; [|done]. exists (Some turn).
  destruct Hr as (_ & _ & _ & Ei & Ec & _). rewrite <- Ec. unfold project_user.
  eapply emits_then; [case_bool_decide; [apply emits_ret|apply emits_close]|].
  eapply emits_lift; [by rewrite Ei, Et|]. eapply emits_lift; [by eapply parsed_turn|].
  set (says := option_list _). rewrite <- (app_nil_r says). eapply emits_bind; [|apply emits_ret].
  destruct (is_steering i); [by apply emits_push|].
  rewrite <- (app_nil_r says). eapply emits_bind; [by apply emits_push|quiet_push].
Qed.

Lemma emits_item turns attachments active r i :
  item_ok r -> read_item r i ->
  exists active', emits (project_item now correlation turns attachments active i) active'
                    (option_list (row_text r)).
Proof.
  intros Hok Hr. unfold project_item. case_bool_decide as Hk.
  { exact (emits_user turns attachments active r i Hok Hr Hk). }
  pose proof Hr as (_ & _ & _ & Et & Ec & _). unfold row_text. rewrite Et. destruct (ti_turn_id r) as [turn|] eqn:E.
  - exists (Some turn). eapply emits_lift; [by eapply parsed_turn|].
    eapply emits_then. { case_bool_decide; [apply emits_ret|]. eapply emits_then; [apply emits_close|quiet_push]. }
    rewrite <- (app_nil_r (option_list _)). eapply emits_bind; [|apply emits_ret].
    rewrite !(read_kind r i _ Hr), <- Ec. unfold project_item_kind.
    destruct (tl_kind i) eqn:Ek; cbn; try done; rewrite ?bool_decide_true, ?bool_decide_false by done; cbn.
    + destruct (is_empty (tl_content i)); cbn; [apply emits_ret|]. by apply emits_push.
    + destruct (is_empty (tl_content i)); [apply emits_ret|quiet_push].
    + by eapply emits_tool.
    + by eapply emits_plan.
    + apply emits_notice.
  - exists active. eapply emits_then; [|apply emits_ret]. unfold project_thread_item.
    destruct (tl_kind i) eqn:Ek; try apply emits_ret; [by eapply emits_plan|apply emits_notice].
Qed.

Lemma emits_items turns attachments rows items :
  Forall item_ok rows -> Forall2 read_item rows items -> forall active,
  exists active', emits (project_items now correlation turns attachments active items) active' (omap row_text rows).
Proof.
  intros Hok H. induction H as [|r i rows items Hr _ IH]; intros active; [exists active; apply emits_ret|].
  apply Forall_cons in Hok as [Hr' Hok]. destruct (emits_item turns attachments active r i Hr' Hr) as [a Ha].
  destruct (IH Hok a) as [a' Ha']. exists a'. cbn [project_items omap list_omap].
  replace (match row_text r with Some y => y :: omap row_text rows | None => omap row_text rows end)
    with (option_list (row_text r) ++ omap row_text rows) by by destruct (row_text r).
  by eapply emits_bind.
Qed.

(** ** Records *)

Definition read_turn (r : TurnRow) (t : TurnRecord) : Prop := decode_turn r = Ok t.

Lemma turn_reads r : turn_ok r -> exists t, decode_turn r = Ok t /\ read_turn r t.
Proof.
  intros []. destruct uo_status as [s Es]. unfold read_turn, decode_turn, checked_u64.
  rewrite Es, turn_status_from_name. destruct (0 <=? tu_input_tokens r) eqn:E1; [|lia].
  destruct (0 <=? tu_output_tokens r) eqn:E2; [|lia]. by eexists.
Qed.

(** A thread as it is decoded. *)
Definition read_thread (r : ThreadRow) (t : ThreadSummary) : Prop :=
  su_cwd t = th_cwd r /\ su_origin t = th_origin r /\ su_profile t = th_profile r /\
  su_selected_model t = th_selected_model r /\ thinking_name (su_thinking_level t) = th_thinking_level r.

Lemma thread_reads r : thread_ok r -> exists t, decode_thread r = Ok t /\ read_thread r t.
Proof.
  intros [Ee _ _ [level El] [l Ec] Hr Hs]. unfold read_thread, decode_thread, checked_u64, decode_path.
  rewrite Ee, El, Ec, thinking_from_name, lifecycle_from_name. cbn.
  destruct (0 <=? th_revision r) eqn:E1; [|lia]. destruct (0 <=? th_next_sequence r) eqn:E2; [|lia].
  eexists. by split.
Qed.

Lemma rows_of_thread d id : store_ok d -> Forall item_ok (items_of id d).
Proof.
  intros H. apply Forall_forall. intros r. unfold items_of. rewrite elem_of_sort_by, elem_of_filterb.
  intros [Hr _]. pose proof (so_items d H) as Hi. rewrite Forall_forall in Hi. by apply Hi.
Qed.

(** The rows of a thread are already in the order of their sequences. *)
Lemma items_in_order d id : store_ok d -> items_of id d = List.filter (item_of id) (db_items d).
Proof.
  intros H. apply sort_by_id. pose proof (so_order d H) as Ho. revert Ho.
  generalize (db_items d). induction 1 as [|r l Hl IH Hr]; cbn; [constructor|].
  destruct (item_of id r) eqn:E; [|done]. constructor; [done|]. rewrite Forall_forall in *.
  intros x [Hx Ex]%elem_of_filterb. unfold item_of in *. apply bool_decide_eq_true in E, Ex.
  pose proof (Hr x Hx) as Hlt. unfold item_before in Hlt. unfold sequence_le. rewrite E, Ex in Hlt.
  specialize (Hlt eq_refl). lia.
Qed.

(** ** Attachments *)

(** The row in which the attachments of a message are looked up. *)
Definition prompt_row (thread item : string) (d : Db) : option ItemRow :=
  List.find (fun r => item_of thread r && (item_is item r || bool_decide (ti_client_item_id r = Some item))
                      && is_kind KUserMessage r) (db_items d).

(** Messages with attachments still have them, and they pass the limits of a prompt. *)
Definition attachments_readable (thread : string) (d : Db) : Prop :=
  forall r, r ∈ items_of thread d -> is_kind KUserMessage r = true ->
    value_get "attachments" (ti_metadata r) <> None ->
    exists r', prompt_row thread (ti_id r) d = Some r' /\
      match List.find (fun a => bool_decide (pa_item a = ti_id r')) (db_attachments d) with
      | Some a => is_ok (validate_stored_prompt (ti_content r') (pa_payload a)) = true
      | None => value_get "attachments" (ti_metadata r') = None
      end.

Lemma query_attachments_ok c thread r :
  untroubled c -> attachments_readable thread (cn_db c) -> r ∈ items_of thread (cn_db c) ->
  is_kind KUserMessage r = true -> value_get "attachments" (ti_metadata r) <> None ->
  exists l, query_prompt_attachments thread (ti_id r) c = (c, Ok l).
Proof.
  intros Hc Ha Hr Hk Hm. destruct (Ha r Hr Hk Hm) as (r' & Hf & Hv). unfold query_prompt_attachments.
  rewrite run_query_bind by done. unfold prompt_row in Hf. rewrite Hf.
  destruct (List.find _ (db_attachments _)) as [a|]; cbn.
  - destruct (validate_stored_prompt _ _) as [u|]; [|done]. by eexists.
  - rewrite Hv. by eexists.
Qed.

Lemma load_attachments_ok c thread rows items m :
  untroubled c -> attachments_readable thread (cn_db c) ->
  Forall (fun r => r ∈ items_of thread (cn_db c)) rows -> Forall2 read_item rows items ->
  exists m', load_attachments thread m items c = (c, Ok m').
Proof.
  intros Hc Ha Hin H. revert m. induction H as [|r i rows items Hr _ IH]; intros m; [by exists m|].
  apply Forall_cons in Hin as [Hin Hins]. cbn [load_attachments].
  destruct (has_attachments i) eqn:E; [|by apply IH].
  pose proof Hr as (_ & _ & Em & _ & _ & Ei). unfold has_attachments in E. apply andb_true_iff in E as [Ek Ev].
  rewrite Em in Ev. destruct (query_attachments_ok c thread r) as [l Hl]; try done.
  - by rewrite (read_kind r i _ Hr).
  - by destruct (value_get "attachments" _).
  - rewrite Ei. rewrite (run_bind _ _ _ _ _ Hl). by apply IH.
Qed.

(** ** The journal *)

Definition model_events (t : ThreadSummary) : list AppEvent :=
  match su_selected_model t with Some model => [AppModelChanged model] | None => [] end.

Lemma emits_header_rest t :
  emits (_ ← match su_selected_model t with
             | Some model => push (su_created_at t) (AppModelChanged model)
             | None => mret tt
             end;
         push (su_created_at t) (AppThinkingLevelChanged (su_thinking_level t))) tt [].
Proof.
  eapply emits_then; [|quiet_push]. destruct (su_selected_model t); [quiet_push|apply emits_ret].
Qed.

(** What a stored thread is loaded as. *)
Record journal_of_thread (id : string) (row : ThreadRow) (texts : list Saying)
    (events : list EventEnvelope) : Prop := {
  jt_sequences : ev_sequence <$> events = (fun n => Z.min n U64_MAX) <$> seqZ 1 (Z.of_nat (length events));
  jt_sessions : Forall (fun x => ev_session x = id) events;
  jt_first : exists origin profile rest, ev_event <$> events = AppSessionCreated (th_cwd row) origin profile :: rest /\
    th_origin row = origin_name origin /\ th_profile row = profile_name profile /\ Forall keeps_scope rest;
  jt_said : omap said (ev_event <$> events) = texts
}.

Lemma projected_journal id row t turns rows items attachments :
  thread_ok row -> read_thread row t -> Forall item_ok rows -> Forall2 read_item rows items ->
  exists events, project_runtime_events now correlation id t turns items attachments = Ok events /\
    journal_of_thread id row (omap row_text rows) events.
Proof.
  intros Hrow (Ecwd & Eo & Ep & Em & El) Hok Hitems. unfold project_runtime_events.
  destruct (to_origin row Hrow) as [origin Ho], (to_profile row Hrow) as [profile Hp].
  rewrite Eo, Ho, origin_from_its_name, Ep, Hp, profile_from_name. cbv zeta. cbn [mbind result_bind map_err].
  destruct (emits_items (turn_map turns) attachments rows items Hok Hitems None) as [a Ha].
  set (p1 := (push (su_created_at t) (AppSessionCreated (su_cwd t) origin profile)
                (new_runtime_projection id origin)).1).
  assert (Hrest : emits (_ ← (_ ← match su_selected_model t with
             | Some model => push (su_created_at t) (AppModelChanged model)
             | None => mret tt
             end;
         push (su_created_at t) (AppThinkingLevelChanged (su_thinking_level t)));
         active ← project_items now correlation (turn_map turns) attachments None items;
         close_turn now correlation (turn_map turns) active) tt (omap row_text rows)).
  { eapply emits_then; [apply emits_header_rest|]. rewrite <- (app_nil_r (omap _ _)).
    eapply emits_bind; [exact Ha|apply emits_close]. }
  destruct (Hrest p1) as (l & E & Hl & Ht). exists (pj_events (pushed l p1)).
  assert (Hrun : (_ ← project_header now correlation t origin profile;
                  active ← project_items now correlation (turn_map turns) attachments None items;
                  close_turn now correlation (turn_map turns) active) (new_runtime_projection id origin)
                 = (pushed l p1, Ok tt)).
  { rewrite <- E. unfold project_header. unfold p1. by destruct (su_selected_model t). }
  rewrite Hrun. split; [done|].
  assert (Hnum : numbered id (pushed l p1)).
  { apply pushed_numbered, push_numbered. by constructor. }
  constructor.
  - apply Hnum.
  - apply Hnum.
  - exists origin, profile, l.*2. split_and!; [|done|done|by apply Forall_fmap].
    rewrite pushed_events. cbn. by rewrite Ecwd.
  - rewrite pushed_events. cbn. exact Ht.
Qed.
End Load.
