(* ===== verification/StoreBatches.v ===== *)
(** The transaction of a batch of events: it happens as a whole or not at all, makes one
    revision of its thread, and leaves the other threads alone. *)

From stdpp Require Import base gmap strings list.
From Stdlib Require Import ZArith NArith Lia ZifyBool ZifyN ZifyNat.
From S2P Require Import Prelude RustStr Json Accounting Inference Attachments Paths AppError Policy Models Kernel Redact Tables Timeline Events Projection Recovery StoreQueries StoreInvariant.

Local Open Scope Z_scope.

Definition revision_of (id : string) (d : Db) : Z := default 0 (th_revision <$> find_thread id d).

Section Batches.
Context `{CH : Chrono} `{SC : StoreCodec} `{TI : TurnIds} `{B64 : Base64} `{SJ : SerdeJson}.
Context (thread : string) (d0 : Db).

(** What the events of a batch leave as it was. *)
Record undisturbed (d : Db) : Prop := {
  un_others : forall o, o <> thread -> find_thread o d = find_thread o d0;
  un_revision : revision_of thread d = revision_of thread d0
}.

Abbreviation framed m := (sat undisturbed m (fun _ => undisturbed)).

Lemma framed_then {A B} (m : Sql A) (f : A -> Sql B) : framed m -> (forall a, framed (f a)) -> framed (m ≫= f).
Proof. apply sat_bind. Qed.
Lemma framed_lift {A} (r : result AxiomError A) : framed (lift r).
Proof. by apply sat_lift. Qed.
Lemma framed_query {A} (f : Db -> A) : framed (query f).
Proof. by apply sat_query. Qed.

Lemma same_threads d d' : db_threads d' = db_threads d -> undisturbed d -> undisturbed d'.
Proof.
  intros E [Ho Hr]. constructor.
  - intros o Hne. unfold find_thread. rewrite E. by apply Ho.
  - unfold revision_of, find_thread. rewrite E. exact Hr.
Qed.

Lemma framed_statement {A} (f : Db -> result string (Db * A)) :
  (forall d d' a, f d = Ok (d', a) -> db_threads d' = db_threads d) -> framed (statement f).
Proof. intros H. apply sat_statement. intros d d' a Hd E. eapply same_threads; [by eapply H|done]. Qed.

Lemma framed_update_items p f : framed (update_items p f).
Proof. apply framed_statement. by intros d d' a [= <- <-]. Qed.
Lemma framed_update_turns p f : framed (update_turns p f).
Proof. apply framed_statement. by intros d d' a [= <- <-]. Qed.
Lemma framed_update_usage p f : framed (update_usage p f).
Proof. apply framed_statement. by intros d d' a [= <- <-]. Qed.
Lemma framed_insert_item r : framed (insert_item r).
Proof. apply framed_statement. intros d d' a H. destruct (item_conflict r d); [done|]. by injection H as <- <-. Qed.
Lemma framed_insert_turn r : framed (insert_turn r).
Proof. apply framed_statement. intros d d' a H. by repeat case_match; simplify_eq. Qed.
Lemma framed_upsert_turn r : framed (upsert_turn r).
Proof. apply framed_statement. intros d d' a H. by repeat case_match; simplify_eq. Qed.
Lemma framed_insert_attachments r : framed (insert_attachments r).
Proof. apply framed_statement. intros d d' a H. by repeat case_match; simplify_eq. Qed.
Lemma framed_upsert_usage r : framed (upsert_usage r).
Proof. apply framed_statement. intros d d' a H. by repeat case_match; simplify_eq. Qed.
Lemma framed_set_preferences f : framed (set_preferences f).
Proof. apply framed_statement. by intros d d' a [= <- <-]. Qed.

(** ** Rows of threads *)

Lemma find_update (p : ThreadRow -> bool) f o l :
  (forall r, th_id (f r) = th_id r) ->
  List.find (of_thread o) (update_where p f l) = (fun r => if p r then f r else r) <$> List.find (of_thread o) l.
Proof.
  intros Hf. induction l as [|r l IH]; [done|]. cbn.
  assert (E : of_thread o (if p r then f r else r) = of_thread o r).
  { unfold of_thread. by destruct (p r); rewrite ?Hf. }
  rewrite E. destruct (of_thread o r); [done|exact IH].
Qed.

(** Updates of the thread's own row that leave its revision. *)
Lemma framed_update_threads p f :
  (forall r, p r = true -> th_id r = thread) -> (forall r, th_id (f r) = th_id r) ->
  (forall r, th_revision (f r) = th_revision r) -> framed (update_threads p f).
Proof.
  intros Hp Hid Hr. apply sat_statement. intros d d' a [Ho Hrev] [= <- <-]. constructor.
  - intros o Hne. rewrite <- Ho by done. unfold find_thread. cbn. rewrite find_update by done.
    destruct (List.find (of_thread o) (db_threads d)) as [r|] eqn:E; [|done]. cbn.
    apply find_Some_iff in E as [_ E%bool_decide_eq_true]. destruct (p r) eqn:Hpr; [|done].
    apply Hp in Hpr. congruence.
  - rewrite <- Hrev. unfold revision_of, find_thread. cbn. rewrite find_update by done.
    destruct (List.find _ _) as [r|]; [|done]. cbn. by destruct (p r); rewrite ?Hr.
Qed.

Lemma own_row r : of_thread thread r = true -> th_id r = thread.
Proof. apply bool_decide_eq_true. Qed.

Lemma framed_own f :
  (forall r, th_id (f r) = th_id r) -> (forall r, th_revision (f r) = th_revision r) ->
  framed (update_threads (of_thread thread) f).
Proof. apply framed_update_threads, own_row. Qed.

Lemma framed_insert_thread r : th_id r = thread -> th_revision r = 0 -> framed (insert_thread r).
Proof.
  intros Hid Hrev. apply sat_statement. intros d d' a [Ho Hr] H. destruct (has_thread (th_id r) d) eqn:E; [done|].
  injection H as <- <-. rewrite Hid in E. unfold has_thread in E. rewrite existsb_false in E.
  assert (Hf : forall o, List.find (of_thread o) (db_threads d ++ [r])
               = match List.find (of_thread o) (db_threads d) with
                 | Some x => Some x
                 | None => if of_thread o r then Some r else None
                 end).
  { intros o. induction (db_threads d) as [|x l IH]; [done|]. cbn. destruct (of_thread o x); [done|].
    apply IH. intros y Hy. apply E. by right. }
  constructor.
  - intros o Hne. rewrite <- Ho by done. unfold find_thread. cbn. rewrite Hf. destruct (List.find _ _); [done|].
    unfold of_thread. rewrite Hid. by rewrite bool_decide_false.
  - rewrite <- Hr. unfold revision_of, find_thread. cbn. rewrite Hf.
    destruct (List.find _ (db_threads d)) as [x|]; [done|]. destruct (of_thread thread r); [exact Hrev|done].
Qed.

(** ** Events *)

Lemma framed_ensure_thread id : framed (ensure_thread id).
Proof. eapply framed_then; [apply framed_query|]. intros []; [by apply sat_ret|apply sat_throw]. Qed.

(** The statements of an event, one after another. *)
Ltac walk_with more :=
  repeat lazymatch goal with
  | |- sat _ (mret _) _ => by apply sat_ret
  | |- sat _ (throw _) _ => apply sat_throw
  | |- sat _ (lift _) _ => apply framed_lift
  | |- sat _ (query _) _ => apply framed_query
  | |- sat _ new_uuid _ => apply sat_new_uuid
  | |- sat _ utc_now _ => apply sat_utc_now
  | |- sat _ (active_turn_id _) _ => apply framed_query
  | |- sat _ (find_external_item _ _ _) _ => apply framed_query
  | |- sat _ (find_any_external_item _ _) _ => apply framed_query
  | |- sat _ (update_items _ _) _ => apply framed_update_items
  | |- sat _ (update_turns _ _) _ => apply framed_update_turns
  | |- sat _ (update_usage _ _) _ => apply framed_update_usage
  | |- sat _ (update_threads _ _) _ => by apply framed_own
  | |- sat _ (insert_item _) _ => apply framed_insert_item
  | |- sat _ (insert_turn _) _ => apply framed_insert_turn
  | |- sat _ (upsert_turn _) _ => apply framed_upsert_turn
  | |- sat _ (insert_attachments _) _ => apply framed_insert_attachments
  | |- sat _ (upsert_usage _) _ => apply framed_upsert_usage
  | |- sat _ (set_preferences _) _ => apply framed_set_preferences
  | |- sat _ (ensure_thread _) _ => apply framed_ensure_thread
  | |- sat _ (mbind _ _) _ => apply framed_then; [|intros ?]
  | |- sat _ (if ?b then _ else _) _ => destruct b
  | |- sat _ (match ?x with _ => _ end) _ => destruct x
  | |- _ => more
  end.
Ltac walk := walk_with fail.

Lemma framed_set_lifecycle l : framed (set_thread_lifecycle thread l).
Proof. unfold set_thread_lifecycle. walk. Qed.
Lemma framed_insert_timeline w : framed (insert_timeline_item thread w).
Proof. unfold insert_timeline_item. walk. Qed.

Ltac walk_items :=
  walk_with ltac:(idtac; lazymatch goal with
                  | |- sat _ (insert_timeline_item _ _) _ => apply framed_insert_timeline
                  | |- sat _ (set_thread_lifecycle _ _) _ => apply framed_set_lifecycle
                  end).

Lemma framed_upsert w : framed (upsert_timeline_item thread w).
Proof. unfold upsert_timeline_item. walk_items. Qed.
Lemma framed_ensure_item turn k external m now : framed (ensure_external_item thread turn k external m now).
Proof. unfold ensure_external_item. walk_items. Qed.
Lemma framed_insert_notice n : framed (insert_notice thread n).
Proof. unfold insert_notice. walk_items. Qed.
Lemma framed_item_metadata id : framed (item_metadata id).
Proof. unfold item_metadata. walk. Qed.
Lemma framed_append_content turn k content now : framed (append_turn_content thread turn k content now).
Proof. unfold append_turn_content. walk_items. Qed.
Lemma framed_finish turn s error now : framed (finish_turn thread turn s error now).
Proof. unfold finish_turn, end_requests. walk_items. Qed.
Lemma framed_set_thread f :
  (forall r, th_id (f r) = th_id r) -> (forall r, th_revision (f r) = th_revision r) ->
  framed (set_thread thread f).
Proof. intros Hid Hr. unfold set_thread. walk. Qed.
Lemma framed_set_metadata id m now : framed (set_metadata id m now).
Proof. unfold set_metadata. walk. Qed.

Ltac walk_events :=
  walk_with ltac:(idtac; lazymatch goal with
                  | |- sat _ (insert_timeline_item _ _) _ => apply framed_insert_timeline
                  | |- sat _ (set_thread_lifecycle _ _) _ => apply framed_set_lifecycle
                  | |- sat _ (upsert_timeline_item _ _) _ => apply framed_upsert
                  | |- sat _ (ensure_external_item _ _ _ _ _ _) _ => apply framed_ensure_item
                  | |- sat _ (insert_notice _ _) _ => apply framed_insert_notice
                  | |- sat _ (item_metadata _) _ => apply framed_item_metadata
                  | |- sat _ (append_turn_content _ _ _ _ _) _ => apply framed_append_content
                  | |- sat _ (finish_turn _ _ _ _ _) _ => apply framed_finish
                  | |- sat _ (set_thread _ _) _ => by apply framed_set_thread
                  | |- sat _ (set_metadata _ _ _) _ => apply framed_set_metadata
                  end).

Lemma framed_resolution external fields s now : framed (update_notice_resolution thread external fields s now).
Proof. unfold update_notice_resolution. walk_events. Qed.
Lemma framed_question request content m now : framed (persist_question thread request content m now).
Proof. unfold persist_question. walk_events. Qed.
Lemma framed_answer now external fields s : framed (persist_answer thread now external fields s).
Proof.
  unfold persist_answer. apply framed_then; [apply framed_resolution|]. intros u. apply framed_set_lifecycle.
Qed.
Lemma framed_verified turn now : framed (mark_response_verified thread turn now).
Proof.
  unfold mark_response_verified. apply framed_then; [apply framed_query|]. intros []; [by apply sat_ret|].
  apply framed_then; [apply framed_query|]. intros rows. case_bool_decide; [apply sat_throw|].
  apply sat_iter. intros [id v] _. unfold verify_item. cbn. walk.
Qed.
Lemma framed_agent settings : framed (persist_agent thread settings).
Proof.
  unfold persist_agent. cbn. apply framed_then; [apply framed_lift|]. intros expected.
  apply framed_then; [|intros n; case_bool_decide; [by apply sat_ret|apply sat_throw]].
  apply framed_update_threads; [|done|done]. intros r [[Hr _]%andb_true_iff _]%andb_true_iff. by apply own_row.
Qed.
Lemma framed_created now cwd origin profile : framed (persist_created thread now cwd origin profile).
Proof. unfold persist_created. cbn. by apply framed_insert_thread. Qed.

Lemma framed_event x client : ev_session x = thread -> framed (persist_event x client).
Proof.
  intros Hx. unfold persist_event. cbv zeta. rewrite Hx.
  destruct (ev_event x).
  all: lazymatch goal with
       | |- sat _ (persist_created _ _ _ _ _) _ => apply framed_created
       | |- sat _ (persist_agent _ _) _ => apply framed_agent
       | |- sat _ (persist_question _ _ _ _ _) _ => apply framed_question
       | |- sat _ (persist_answer _ _ _ _ _) _ => apply framed_answer
       | |- sat _ (update_notice_resolution _ _ _ _ _) _ => apply framed_resolution
       | |- sat _ (mark_response_verified _ _ _) _ => apply framed_verified
       | |- _ =>
         unfold persist_resumed, persist_steering, persist_prompt, persist_started, persist_usage, bind_placeholder,
           verify_request, persist_tokens, persist_progress, persist_tasks, persist_proposed,
           persist_tool_started, persist_output, persist_image_progress, persist_image,
           persist_completed, persist_diff, persist_permission, persist_plan, persist_background,
           persist_changed, persist_status, persist_warning, persist_error, owned_by; cbv zeta; walk_events
       end.
  apply framed_statement. by intros ? ? ? [= <- <-].
Qed.

Lemma framed_all client l : Forall (fun x => ev_session x = thread) l -> framed (persist_all thread client l).
Proof.
  intros H. revert client. induction H as [|x l Hx _ IH]; intros client; cbn [persist_all]; [by apply sat_ret|].
  cbv zeta. apply framed_then; [by apply framed_event|]. intros u.
  apply framed_then; [destruct (_ || _); [by apply framed_set_thread|by apply sat_ret]|]. intros u'.
  apply framed_then; [|intros u2; apply IH]. destruct (_ || _); [by apply framed_set_thread|by apply sat_ret].
Qed.

Lemma framed_store_preferences now o : framed (store_preferences now o).
Proof. unfold store_preferences, query_profile_preferences. walk. Qed.
End Batches.

Section Atomic.
Context `{CH : Chrono} `{SC : StoreCodec} `{TI : TurnIds} `{B64 : Base64} `{SJ : SerdeJson}.

(** So many revisions of the thread later, with the other threads as they were. *)
Record revised (thread : string) (n : Z) (d0 d : Db) : Prop := {
  re_others : forall o, o <> thread -> find_thread o d = find_thread o d0;
  re_revision : revision_of thread d = revision_of thread d0 + n
}.

Lemma revised_refl thread d : revised thread 0 d d.
Proof. constructor; [done|lia]. Qed.

Lemma revised_trans thread n m d0 d1 d2 : revised thread n d0 d1 -> revised thread m d1 d2 -> revised thread (n + m) d0 d2.
Proof. intros [H1 R1] [H2 R2]. constructor; [|lia]. intros o Ho. by rewrite H2, H1. Qed.

Lemma undisturbed_revised thread d0 d : undisturbed thread d0 d -> revised thread 0 d0 d.
Proof. intros [H R]. constructor; [done|lia]. Qed.

(** From any tables on, so many revisions. *)
Definition revises {A} (thread : string) (n : Z) (m : Sql A) : Prop :=
  forall d0, sat (fun x => x = d0) m (fun _ => revised thread n d0).

Lemma revises_then {A B} thread n k (m : Sql A) (f : A -> Sql B) :
  revises thread n m -> (forall a, revises thread k (f a)) -> revises thread (n + k) (m ≫= f).
Proof.
  intros Hm Hf d0. eapply sat_bind; [apply Hm|]. intros a c Hc.
  specialize (Hf a (cn_db c) c eq_refl). destruct (f a c) as [c' [b|e]]; [|done]. by eapply revised_trans.
Qed.

Lemma revises_framed {A} thread (m : Sql A) :
  (forall d0, sat (undisturbed thread d0) m (fun _ => undisturbed thread d0)) -> revises thread 0 m.
Proof.
  intros H d0. eapply sat_weaken; [apply (H d0)|intros d ->; by constructor|].
  intros ? d. apply undisturbed_revised.
Qed.

(** One more revision of a stored thread. *)
Lemma bumped_once thread f d row :
  (forall r, th_id (f r) = th_id r) -> (forall r, th_revision (f r) = th_revision r + 1) ->
  find_thread thread d = Some row ->
  revised thread 1 d (db_set_threads (update_where (of_thread thread) f (db_threads d)) d).
Proof.
  intros Hid Hr Hrow. constructor.
  - intros o Hne. unfold find_thread. cbn. rewrite find_update by done.
    destruct (List.find (of_thread o) (db_threads d)) as [r|] eqn:E; [|done]. cbn.
    apply find_Some_iff in E as [_ E%bool_decide_eq_true]. unfold of_thread.
    rewrite bool_decide_false by congruence. done.
  - unfold revision_of, find_thread in *. cbn. rewrite find_update, Hrow by done. cbn.
    apply find_Some_iff in Hrow as [_ ->]. apply Hr.
Qed.

Lemma matched_none {R} (p : R -> bool) l : List.find p l = None -> matched p l = O.
Proof.
  unfold matched. induction l as [|x l IH]; [done|]. cbn. destruct (p x); [done|exact IH].
Qed.

Lemma revises_bump thread now : revises thread 1 (bump_revision thread now).
Proof.
  intros d0. unfold bump_revision.
  eapply (sat_bind _ _ _ (fun n d => n = O \/ revised thread 1 d0 d)).
  - apply sat_statement. intros d d' n -> [= <- <-].
    destruct (find_thread thread d0) as [row|] eqn:E; [right; by eapply bumped_once|left; by apply matched_none].
  - intros n. case_bool_decide; [apply sat_throw|]. apply sat_ret. by intros d [?|?].
Qed.

(** What a transaction of the store reports of its thread. *)
Definition reported (thread : string) (r : ThreadRevision) (d : Db) : Prop :=
  exists row, find_thread thread d = Some row /\ tr_revision r = th_revision row /\
    tr_last_sequence r = th_next_sequence row.

Lemma sat_query_revision d thread :
  sat (fun x => x = d) (query_thread_revision thread) (fun r x => x = d /\ reported thread r d).
Proof.
  unfold query_thread_revision. eapply sat_bind; [apply sat_query_eq|]. intros [row|]; [|apply sat_throw].
  destruct (_ || _); [apply sat_throw|]. apply sat_ret. intros x [-> E]. split; [done|]. by exists row.
Qed.

Lemma sat_report_revision d thread x :
  sat (fun y => y = d) (report_revision thread x) (fun r y => y = d /\ reported thread r d).
Proof.
  unfold report_revision. eapply sat_bind; [apply sat_query_revision|]. intros r.
  destruct (streams x); [|by apply sat_ret].
  eapply sat_bind; [apply (sat_query _ _ (fun _ y => y = d /\ reported thread r d)); by intros y ?|].
  intros segment. by apply sat_ret.
Qed.

(** A sequence that starts with statements that leave the threads. *)
Lemma revises_query {A B} thread n (f : Db -> A) (g : A -> Sql B) :
  (forall a, revises thread n (g a)) -> revises thread n (a ← query f; g a).
Proof.
  intros H. apply (revises_then thread 0 n); [|exact H]. apply revises_framed. intros d0. apply framed_query.
Qed.

Lemma revises_statement {A B} thread n (f : Db -> result string (Db * A)) (g : A -> Sql B) :
  (forall d d' a, f d = Ok (d', a) -> db_threads d' = db_threads d) -> (forall a, revises thread n (g a)) ->
  revises thread n (a ← statement f; g a).
Proof.
  intros Hf H. apply (revises_then thread 0 n); [|exact H]. apply revises_framed. intros d0. by apply framed_statement.
Qed.

Lemma revises_throw {A} thread n e : revises (A := A) thread n (throw e).
Proof. intros d0. apply sat_throw. Qed.

Lemma sat_truncate_threads thread now (d0 : Db) row :
  find_thread thread d0 = Some row ->
  sat (fun d => db_threads d = db_threads d0)
    (update_threads (of_thread thread) (fun r => th_set_revision (th_revision r + 1) now (th_set_usage None r)))
    (fun _ => revised thread 1 d0).
Proof.
  intros Hrow. apply sat_statement. intros d d' a E [= <- _].
  pose proof (bumped_once thread (fun r => th_set_revision (th_revision r + 1) now (th_set_usage None r)) d0 row
                (fun _ => eq_refl) (fun _ => eq_refl) Hrow) as [Ho Hr].
  constructor; [intros o Hne; rewrite <- Ho by done|rewrite <- Hr];
    unfold revision_of, find_thread; cbn; by rewrite E.
Qed.

Lemma revises_truncate thread item expected : revises thread 1 (truncate_for_revision thread item expected).
Proof.
  intros d0. unfold truncate_for_revision. eapply sat_bind; [apply sat_query_revision|]. intros revision. cbv beta.
  destruct (negb _); [apply sat_throw|].
  set (P := fun d => db_threads d = db_threads d0 /\ exists row, find_thread thread d0 = Some row).
  apply (sat_weaken _ P _ _ (fun _ => revised thread 1 d0)); [|intros d [-> (row & Hrow & _)]; split; [done|by exists row]|done].
  assert (Hst : forall A (f : Db -> result string (Db * A)), (forall d d' a, f d = Ok (d', a) -> db_threads d' = db_threads d) ->
            sat P (statement f) (fun _ => P)).
  { intros A f Hf. apply sat_statement. intros d d' a [E Hrow] Hd. split; [|done]. rewrite <- E. by eapply Hf. }
  eapply sat_bind; [apply Hst; by intros d d' a [= <- _]|]. intros []; [apply sat_throw|].
  eapply sat_bind; [apply Hst; by intros d d' a [= <- _]|]. intros [n|]; [|apply sat_throw].
  eapply sat_bind; [apply Hst; by intros d d' a [= <- _]|]. intros u.
  eapply sat_bind; [apply Hst; by intros d d' a [= <- _]|]. intros u'.
  eapply sat_bind; [apply sat_utc_now|]. intros now.
  eapply (sat_bind _ _ _ (fun _ => revised thread 1 d0)); [|intros m; by apply sat_ret]. intros c [E [row Hrow]].
  by apply (sat_truncate_threads thread _ d0 row).
Qed.

Lemma revises_revise thread l (replacement : option PromptRevision) :
  revises thread (if replacement then 1 else 0) (revise thread l replacement).
Proof.
  destruct replacement as [rev|]; cbn.
  - destruct (negb _); [apply revises_throw|apply revises_truncate].
  - intros d0. apply sat_ret. intros d ->. apply revised_refl.
Qed.

(** The body of the transaction. *)
Lemma batch_revises thread l client (replacement : option PromptRevision) now preferences final d0 :
  Forall (fun x => ev_session x = thread) l ->
  sat (fun d => d = d0)
    (_ ← revise thread l replacement;
     _ ← persist_all thread client l;
     _ ← bump_revision thread now;
     preferences ← store_preferences now preferences;
     revision ← report_revision thread final;
     mret (revision, preferences))
    (fun r d => reported thread r.1 d /\ revised thread ((if replacement then 1 else 0) + 1) d0 d).
Proof.
  intros Hl. set (k := if replacement then 1 else 0).
  eapply sat_bind; [apply revises_revise|]. intros u. fold k. cbv beta.
  eapply (sat_bind _ _ _ (fun _ => revised thread k d0)).
  { intros c Hc. pose proof (revises_framed thread _ (fun d => framed_all thread d client l Hl) (cn_db c) c eq_refl) as H.
    destruct (persist_all thread client l c) as [c' [a|e]]; [|done]. rewrite <- (Z.add_0_r k). by eapply revised_trans. }
  intros u'. eapply (sat_bind _ _ _ (fun _ => revised thread (k + 1) d0)).
  { intros c Hc. pose proof (revises_bump thread now (cn_db c) c eq_refl) as H.
    destruct (bump_revision thread now c) as [c' [a|e]]; [|done]. by eapply revised_trans. }
  intros u2. eapply (sat_bind _ _ _ (fun _ => revised thread (k + 1) d0)).
  { intros c Hc. pose proof (revises_framed thread _ (fun d => framed_store_preferences thread d now preferences) (cn_db c) c eq_refl) as H.
    destruct (store_preferences now preferences c) as [c' [a|e]]; [|done].
    rewrite <- (Z.add_0_r (k + 1)). by eapply revised_trans. }
  intros p. eapply (sat_bind _ _ _ (fun r d => reported thread r d /\ revised thread (k + 1) d0 d)).
  { intros c Hc. pose proof (sat_report_revision (cn_db c) thread final c eq_refl) as H.
    destruct (report_revision thread final c) as [c' [a|e]]; [|done]. by destruct H as [-> H]. }
  intros r. by apply sat_ret.
Qed.

Lemma transaction_result {A} (body : Sql A) c (Q : A -> Db -> Prop) :
  sat (fun d => d = cn_db c) body Q ->
  match transaction body c with
  | (c', Ok a) => Q a (cn_db c')
  | (c', Err _) => cn_db c' = cn_db c
  end.
Proof.
  intros H. pose proof (sat_begun _ body Q H c eq_refl) as Hb. unfold transaction.
  by destruct (begun_committed body c) as [c' [a|e]].
Qed.

(** C29: Recording a batch of events happens as a whole or not at all: an error, also one at
    the commit, leaves every table as it was; success makes one revision of the thread
    (two when an earlier prompt is replaced), reports the revision and the sequence that
    are stored, and leaves the other rows of the thread table alone. *)
Theorem batches_are_atomic l client preferences (replacement : option PromptRevision) c :
  match append_batch l client preferences replacement c with
  | (c', Err _) => cn_db c' = cn_db c
  | (c', Ok (revision, _)) =>
    exists thread, Forall (fun x => ev_session x = thread) l /\
      reported thread revision (cn_db c') /\
      revised thread (if replacement then 2 else 1) (cn_db c) (cn_db c')
  end.
Proof.
  unfold append_batch. destruct l as [|x l]; [done|]. cbv zeta. set (batch := x :: l).
  destruct (existsb _ batch) eqn:E; [done|].
  assert (Hl : Forall (fun y => ev_session y = ev_session x) batch).
  { apply Forall_forall. intros y Hy. rewrite existsb_false in E. specialize (E y Hy).
    by apply negb_false_iff, bool_decide_eq_true in E. }
  rewrite !M_bind_run. destruct (lift _ c) as [c1 [client'|e]] eqn:E1; injection E1 as <- E1; [|done].
  rewrite M_bind_run. destruct (lift _ c) as [c2 [preferences'|e]] eqn:E2; injection E2 as <- E2; [|done].
  destruct (_ && _); [done|].
  match goal with |- match transaction ?b c with _ => _ end => set (body := b) end.
  pose proof (transaction_result body c _ (batch_revises (ev_session x) batch client' replacement _ preferences'
    (List.last batch x) (cn_db c) Hl)) as H.
  destruct (transaction body c) as [c' [[r p]|e]]; [|done]. exists (ev_session x). split; [done|].
  destruct H as [H1 H2]. split; [done|]. by destruct replacement.
Qed.
End Atomic.
