(* ===== verification/StoreEffects.v ===== *)
(** Exact effects of the session store: replacing a prompt, closing what was interrupted,
    and reconciling the usage of requests; then concrete codecs and a conversation recorded
    with them, for the examples. *)

From stdpp Require Import base gmap strings list sorting.
From Stdlib Require Import ZArith NArith Lia ZifyBool ZifyN ZifyNat.
From S2P Require Import Prelude RustStr Json Accounting Inference Attachments Paths AppError Policy Models Kernel Redact Tables Timeline Events Projection Recovery StoreQueries StoreInvariant StoreWrites StoreLife StoreLoad StoreBatches.

Local Open Scope Z_scope.

(** ** Statements that succeed *)

(** The clock of a connection after [Utc::now]. *)
Definition ticked (c : Conn) : Conn :=
  {| cn_db := cn_db c; cn_faults := cn_faults c; cn_uuid := cn_uuid c; cn_drawn := cn_drawn c;
     cn_clock := cn_clock c; cn_ticks := S (cn_ticks c) |}.
Definition time_of (c : Conn) : string := cn_clock c (cn_ticks c).

Lemma run_statement {A} (f : Db -> result string (Db * A)) c d a :
  untroubled c -> f (cn_db c) = Ok (d, a) -> statement f c = (cn_set_db d c, Ok a).
Proof. unfold untroubled, statement, cn_set_db. destruct c as [d0 faults u n k t]. cbn. by intros -> ->. Qed.

Lemma run_begun {A} (body : Sql A) c c' a :
  untroubled c -> body c = (c', Ok a) -> untroubled c' -> begun_committed body c = (c', Ok a).
Proof.
  intros Hc Hb Hc'. unfold begun_committed. rewrite run_query_bind by done. rewrite (run_bind _ _ _ _ _ Hb).
  by rewrite run_query_bind.
Qed.

Lemma run_transaction {A} (body : Sql A) c c' a :
  untroubled c -> body c = (c', Ok a) -> untroubled c' -> transaction body c = (c', Ok a).
Proof. intros. unfold transaction. by erewrite run_begun. Qed.

(** ** Replacing a prompt *)

Section Effects.
Context `{CH : Chrono} `{SC : StoreCodec} `{TI : TurnIds} `{B64 : Base64} `{SJ : SerdeJson}.

(** A message that started a turn of the thread. *)
Definition starts_turn (id item : string) (d : Db) (r : ItemRow) : Prop :=
  r ∈ db_items d /\ ti_thread_id r = id /\ ti_id r = item /\ is_kind KUserMessage r = true /\
  exists t, t ∈ db_turns d /\ tu_thread_id t = id /\ tu_user_item_id t = Some item.

Lemma prompt_sequence_Some id item d n :
  prompt_sequence id item d = Some n -> exists r, starts_turn id item d r /\ ti_sequence r = n.
Proof.
  unfold prompt_sequence. destruct (List.find _ _) as [r|] eqn:E; [|done]. cbn. intros [= <-].
  apply find_Some_iff in E as [Hr [[[Ht%bool_decide_eq_true Hid%bool_decide_eq_true]%andb_true_iff Hk]%andb_true_iff Hx]%andb_true_iff].
  exists r. split; [|done]. apply existsb_exists in Hx as (t & Hin & [H1%bool_decide_eq_true H2%bool_decide_eq_true]%andb_true_iff).
  split_and!; [done..|]. exists t. rewrite list_elem_of_In. split_and!; [done|congruence|congruence].
Qed.

Lemma prompt_sequence_None id item d r :
  prompt_sequence id item d = None -> ~ starts_turn id item d r.
Proof.
  unfold prompt_sequence. destruct (List.find _ _) as [x|] eqn:E; [done|]. intros _ (Hr & Ht & Hid & Hk & t & Hin & H1 & H2).
  apply (find_none _ _) with (x := r) in E; [|by apply list_elem_of_In].
  unfold item_of, item_is in E. rewrite Ht, Hid, Hk, !bool_decide_true in E by done. cbn in E.
  rewrite existsb_false in E. specialize (E t Hin). rewrite H1, H2, !bool_decide_true in E by done. done.
Qed.

(** What is left when the items of a thread from a sequence on are dropped. *)
Record cut (id : string) (n : Z) (d d' : Db) : Prop := {
  cut_items r : r ∈ db_items d' <-> r ∈ db_items d /\ ~ (ti_thread_id r = id /\ n <= ti_sequence r);
  cut_turns t : t ∈ db_turns d' <-> t ∈ db_turns d /\
    ~ (tu_thread_id t = id /\ exists r, r ∈ db_items d /\ ti_thread_id r = id /\ n <= ti_sequence r /\
         tu_user_item_id t = Some (ti_id r));
  cut_attachments a : a ∈ db_attachments d' <-> a ∈ db_attachments d /\
    ~ (exists r, r ∈ db_items d /\ ti_thread_id r = id /\ n <= ti_sequence r /\ ti_id r = pa_item a);
  cut_usage : db_usage d' = db_usage d;
  cut_others o : o <> id -> find_thread o d' = find_thread o d;
  cut_thread : exists row row', find_thread id d = Some row /\ find_thread id d' = Some row' /\
    th_revision row' = th_revision row + 1 /\ th_next_sequence row' = th_next_sequence row
}.

Lemma from_sequence_iff id n r : from_sequence id n r = true <-> ti_thread_id r = id /\ n <= ti_sequence r.
Proof. unfold from_sequence, item_of. by rewrite andb_true_iff, bool_decide_eq_true, Z.leb_le. Qed.

Definition cut_db (id : string) (n : Z) (now : string) (d : Db) : Db :=
  let d1 := db_set_turns (List.filter (fun t => negb (turn_from id n d t)) (db_turns d)) d in
  let d2 := drop_items (from_sequence id n) d1 in
  db_set_threads (update_where (of_thread id)
    (fun r => th_set_revision (th_revision r + 1) now (th_set_usage None r)) (db_threads d2)) d2.

Lemma cut_threads id n now d :
  db_threads (cut_db id n now d) = update_where (of_thread id)
    (fun r => th_set_revision (th_revision r + 1) now (th_set_usage None r)) (db_threads d).
Proof. done. Qed.

Lemma cut_db_cut id n now d row : find_thread id d = Some row -> cut id n d (cut_db id n now d).
Proof.
  intros Hrow. constructor.
  - intros r. cbn. rewrite elem_of_filterb, negb_true_iff, <- not_true_iff_false, from_sequence_iff. done.
  - intros t. cbn. rewrite elem_of_filterb, negb_true_iff, <- not_true_iff_false. unfold turn_from.
    rewrite andb_true_iff, bool_decide_eq_true, existsb_exists. split; intros [Ht Hn]; (split; [done|]).
    + intros [E (r & Hr & H1 & H2 & H3)]. apply Hn. split; [done|]. exists r. rewrite <- list_elem_of_In. split; [done|].
      rewrite andb_true_iff, from_sequence_iff, bool_decide_eq_true. done.
    + intros [E (r & Hr & [H1 H2%bool_decide_eq_true]%andb_true_iff)]. apply Hn. split; [done|]. exists r.
      rewrite from_sequence_iff in H1. rewrite <- list_elem_of_In in Hr. naive_solver.
  - intros a. cbn. rewrite elem_of_filterb, negb_true_iff, <- not_true_iff_false, existsb_exists.
    split; intros [Ha Hn]; (split; [done|]).
    + intros (r & Hr & H1 & H2 & H3). apply Hn. exists r. rewrite <- list_elem_of_In. split; [done|].
      rewrite andb_true_iff, from_sequence_iff, bool_decide_eq_true. done.
    + intros (r & Hr & [H1 H2%bool_decide_eq_true]%andb_true_iff). apply Hn. exists r.
      rewrite from_sequence_iff in H1. rewrite <- list_elem_of_In in Hr. naive_solver.
  - done.
  - intros o Ho. unfold find_thread. rewrite cut_threads, find_update by done.
    destruct (List.find (of_thread o) (db_threads d)) as [r|] eqn:E; [|done]. cbn.
    apply find_Some_iff in E as [_ E%bool_decide_eq_true]. unfold of_thread. by rewrite bool_decide_false by congruence.
  - unfold find_thread in *. rewrite cut_threads, find_update, Hrow by done. cbn.
    apply find_Some_iff in Hrow as [_ Hid]. rewrite Hid. eexists _, _. split_and!; [done|done|done|done].
Qed.

Lemma run_update_threads p f c :
  untroubled c ->
  update_threads p f c = (cn_set_db (db_set_threads (update_where p f (db_threads (cn_db c))) (cn_db c)) c,
                          Ok (matched p (db_threads (cn_db c)))).
Proof. intros Hc. by apply run_statement. Qed.

Lemma query_revision_ok id c row :
  store_ok (cn_db c) -> untroubled c -> find_thread id (cn_db c) = Some row ->
  exists r, query_thread_revision id c = (c, Ok r) /\ tr_revision r = th_revision row.
Proof.
  intros Hok Hc Hrow. unfold query_thread_revision. rewrite run_query_bind, Hrow by done.
  apply find_thread_spec in Hrow as [Hrow _]. pose proof (so_threads _ Hok) as Ht. rewrite Forall_forall in Ht.
  destruct (Ht row Hrow) as [_ _ _ _ _ Hr Hs].
  destruct (th_revision row <? 0) eqn:E1; [lia|]. destruct (th_next_sequence row <? 0) eqn:E2; [lia|].
  by eexists.
Qed.

(** The reasons to refuse a replacement, and what one leaves. *)
Definition truncation_spec (id item : string) (expected : Z) (row : ThreadRow) (c : Conn)
    (x : Conn * result AxiomError unit) : Prop :=
  let d := cn_db c in
  match x with
  | (c', Ok _) =>
    th_revision row = expected /\ Forall (fun t => turn_running id t = false) (db_turns d) /\
    exists r, starts_turn id item d r /\ cut id (ti_sequence r) d (cn_db c')
  | (c', Err e) =>
    c' = c /\
    ((e = revision_conflict /\ th_revision row <> expected) \/
     (e = reply_running /\ exists t, t ∈ db_turns d /\ turn_running id t = true) \/
     (e = no_message /\ forall r, ~ starts_turn id item d r))
  end.

Lemma truncation id item expected row c :
  store_ok (cn_db c) -> untroubled c -> find_thread id (cn_db c) = Some row ->
  truncation_spec id item expected row c (truncate_for_revision id item expected c).
Proof.
  intros Hok Hc Hrow. unfold truncate_for_revision, truncation_spec.
  destruct (query_revision_ok id c row Hok Hc Hrow) as (r & Er & Hr). rewrite (run_bind _ _ _ _ _ Er), Hr.
  destruct (th_revision row =? expected) eqn:E; cbn [negb]; [|split; [done|left; split; [done|lia]]].
  rewrite run_query_bind by done. destruct (existsb (turn_running id) _) eqn:Ex.
  { split; [done|]. right; left. split; [done|]. apply existsb_exists in Ex as (t & Ht & Hx).
    exists t. by rewrite list_elem_of_In. }
  rewrite run_query_bind by done. destruct (prompt_sequence id item (cn_db c)) as [n|] eqn:En.
  2:{ split; [done|]. right; right. split; [done|]. intros x. by apply prompt_sequence_None. }
  apply prompt_sequence_Some in En as (x & Hx & <-).
  rewrite (run_bind _ _ _ _ _ (run_statement _ c _ _ Hc eq_refl)).
  set (c1 := cn_set_db _ c). assert (H1 : untroubled c1) by done.
  rewrite (run_bind _ _ _ _ _ (run_statement _ c1 _ _ H1 eq_refl)).
  set (c2 := cn_set_db _ c1). assert (H2 : untroubled (ticked c2)) by done.
  rewrite (run_bind utc_now _ c2 (ticked c2) _ eq_refl).
  rewrite (run_bind _ _ _ _ _ (run_update_threads _ _ _ H2)). cbn [mret M_ret].
  split_and!; [lia| |].
  - apply Forall_forall. intros t Ht. rewrite existsb_false in Ex. by apply Ex.
  - exists x. split; [done|]. exact (cut_db_cut id (ti_sequence x) _ (cn_db c) row Hrow).
Qed.

(** ** Closing what was interrupted *)

Definition readied (now : string) (r : ThreadRow) : ThreadRow :=
  th_set_lifecycle (lifecycle_name LcReady) (th_set_revision (th_revision r + 1) now r).
Definition broken_off (now : string) (t : TurnRow) : TurnRow :=
  tu_finish (turn_status_name TsInterrupted) (Some (default previous_ended (tu_error t))) (Some now) t.
Definition left_open (now : string) (r : ItemRow) : ItemRow :=
  ti_set_status (status_name IsInterrupted) (ti_set_updated now r).
Definition failed_usage (r : UsageRow) : UsageRow := ru_set_record (fail_request (ru_record r)) r.

Definition running_in (d : Db) (id : string) : bool := bool_decide (id ∈ running_threads d).

Lemma run_readied now ids c :
  untroubled c -> NoDup ids ->
  iterM (interrupt_thread now) ids c =
    (cn_set_db (db_set_threads (update_where (fun r => bool_decide (th_id r ∈ ids)) (readied now)
                                  (db_threads (cn_db c))) (cn_db c)) c, Ok tt).
Proof.
  intros Hc Hn. revert c Hc. induction Hn as [|id ids Hid Hn IH]; intros c Hc.
  - cbn [iterM]. unfold update_where. rewrite fmap_same by done. by destruct c as [[]].
  - cbn [iterM].
    assert (E0 : interrupt_thread now id c =
      (cn_set_db (db_set_threads (update_where (of_thread id) (readied now) (db_threads (cn_db c))) (cn_db c)) c, Ok tt)).
    { unfold interrupt_thread. by erewrite run_bind by by apply run_update_threads. }
    rewrite (run_bind _ _ _ _ _ E0), IH by done.
    unfold cn_set_db, db_set_threads. cbn. do 3 f_equal. unfold update_where. rewrite <- list_fmap_compose.
    apply list_fmap_ext. intros i r _. cbn. unfold of_thread.
    assert (E : forall x, th_id (readied now x) = th_id x) by done.
    destruct (bool_decide (th_id r = id)) eqn:E1.
    + apply bool_decide_eq_true in E1. rewrite E, E1. rewrite bool_decide_false by done.
      rewrite bool_decide_true by set_solver. done.
    + apply bool_decide_eq_false in E1. assert (Hiff : th_id r ∈ ids <-> th_id r ∈ id :: ids) by set_solver.
      by rewrite (bool_decide_ext _ _ Hiff).
Qed.

Definition interrupted_db (now : string) (d : Db) : Db :=
  let d1 := db_set_usage (update_where (fun r => usage_running (ru_record r)) failed_usage (db_usage d)) d in
  if bool_decide (running_threads d = []) then d1 else
  let d2 := db_set_turns (update_where is_running (broken_off now) (db_turns d1)) d1 in
  let d3 := db_set_items (update_where (fun r => is_open r && in_interrupted_turn d2 r) (left_open now) (db_items d2)) d2 in
  db_set_threads (update_where (fun r => bool_decide (th_id r ∈ running_threads d)) (readied now) (db_threads d3)) d3.

Lemma run_interrupt c :
  untroubled c ->
  interrupt_incomplete_turns c =
    (cn_set_db (interrupted_db (to_rfc3339 (time_of c)) (cn_db c)) (ticked c), Ok tt).
Proof.
  intros Hc. unfold interrupt_incomplete_turns. rewrite (run_bind utc_now _ c (ticked c) (time_of c) eq_refl).
  assert (Ht : untroubled (ticked c)) by done. set (now := to_rfc3339 (time_of c)).
  apply run_transaction; [done| |done]. rewrite run_query_bind by done.
  unfold update_usage. rewrite (run_bind _ _ _ _ _ (run_statement _ (ticked c) _ _ Ht eq_refl)).
  set (c1 := cn_set_db _ (ticked c)). assert (H1 : untroubled c1) by done. unfold interrupted_db.
  cbn [cn_db ticked]. case_bool_decide; [done|].
  unfold update_turns. rewrite (run_bind _ _ _ _ _ (run_statement _ c1 _ _ H1 eq_refl)).
  set (c2 := cn_set_db _ c1). assert (H2 : untroubled c2) by done.
  rewrite (run_bind _ _ _ _ _ (run_statement _ c2 _ _ H2 eq_refl)).
  set (c3 := cn_set_db _ c2). assert (H3 : untroubled c3) by done.
  rewrite run_readied by (done || apply NoDup_remove_dups). done.
Qed.

Lemma running_thread_iff d id :
  id ∈ running_threads d <-> exists t, t ∈ db_turns d /\ is_running t = true /\ tu_thread_id t = id.
Proof.
  unfold running_threads. rewrite elem_of_remove_dups, list_elem_of_fmap. setoid_rewrite elem_of_filterb. naive_solver.
Qed.

(** The turn of an item was running, or was interrupted before. *)
Definition in_ended_turn (d : Db) (r : ItemRow) : bool :=
  existsb (fun t => bool_decide (tu_thread_id t = ti_thread_id r) && bool_decide (ti_turn_id r = Some (tu_id t))
                    && (is_running t || bool_decide (tu_status t = "interrupted"))) (db_turns d).

(** The items that are closed: when a turn was running, the open ones of such turns. *)
Definition to_close (d : Db) (r : ItemRow) : bool := existsb is_running (db_turns d) && is_open r && in_ended_turn d r.

(** What closing does to the tables. *)
Record closed_off (now : string) (d d' : Db) : Prop := {
  cl_running : Forall (fun t => is_running t = false) (db_turns d');
  cl_requests : Forall (fun u => usage_running (ru_record u) = false) (db_usage d');
  cl_turns : Forall2 (fun t t' => t' = if is_running t then broken_off now t else t) (db_turns d) (db_turns d');
  cl_usage : Forall2 (fun u u' => u' = if usage_running (ru_record u) then failed_usage u else u) (db_usage d) (db_usage d');
  cl_threads : Forall2 (fun r r' => r' = if existsb (fun t => is_running t && bool_decide (tu_thread_id t = th_id r)) (db_turns d)
                                        then readied now r else r) (db_threads d) (db_threads d');
  cl_items : Forall2 (fun r r' => r' = if to_close d r then left_open now r else r) (db_items d) (db_items d');
  cl_rest : db_set_threads (db_threads d) (db_set_turns (db_turns d) (db_set_items (db_items d)
              (db_set_usage (db_usage d) d'))) = d;
  cl_open r' t : r' ∈ db_items d' -> t ∈ db_turns d -> is_running t = true -> ti_thread_id r' = tu_thread_id t ->
    ti_turn_id r' = Some (tu_id t) -> is_open r' = false
}.

Lemma Forall2_update {R} (P : R -> R -> Prop) (p : R -> bool) f l :
  (forall x, x ∈ l -> P x (if p x then f x else x)) -> Forall2 P l (update_where p f l).
Proof.
  induction l as [|x l IH]; intros H; [constructor|]. constructor; [apply H; by left|].
  apply IH. intros y Hy. apply H. by right.
Qed.

Lemma Forall2_same {A} (P : A -> A -> Prop) l : (forall x, x ∈ l -> P x x) -> Forall2 P l l.
Proof. intros H. apply Forall2_same_length_lookup_2; [done|]. intros i x y Hx Hy. simplify_eq. apply H. by eapply list_elem_of_lookup_2. Qed.

Lemma broken_off_stopped now t : is_running (broken_off now t) = false.
Proof. by vm_compute. Qed.

Lemma left_open_closed now r : is_open (left_open now r) = false.
Proof. by vm_compute. Qed.

(** The filter on the turns that are interrupted by then. *)
Lemma broken_turns now d d' r :
  db_turns d' = update_where is_running (broken_off now) (db_turns d) -> in_interrupted_turn d' r = in_ended_turn d r.
Proof.
  intros E. unfold in_interrupted_turn, in_ended_turn. rewrite E. unfold update_where. clear E.
  induction (db_turns d) as [|t l IH]; [done|]. rewrite fmap_cons. cbn [existsb]. rewrite IH.
  destruct (is_running t) eqn:Hr; [|by rewrite orb_false_l].
  change (tu_status (broken_off now t)) with (turn_status_name TsInterrupted).
  change (tu_thread_id (broken_off now t)) with (tu_thread_id t). change (tu_id (broken_off now t)) with (tu_id t).
  by rewrite (bool_decide_true (turn_status_name TsInterrupted = _)).
Qed.

Lemma none_running d : running_threads d = [] <-> existsb is_running (db_turns d) = false.
Proof.
  rewrite existsb_false. split.
  - intros E t Ht. destruct (is_running t) eqn:Hr; [|done]. exfalso.
    assert (H : tu_thread_id t ∈ running_threads d) by (apply running_thread_iff; by exists t).
    rewrite E in H. by apply elem_of_nil in H.
  - intros H. destruct (running_threads d) as [|id l] eqn:E; [done|].
    assert (Hin : id ∈ running_threads d) by (rewrite E; left).
    apply running_thread_iff in Hin as (t & Ht & Hr & _). by rewrite H in Hr.
Qed.

Lemma closing now d : closed_off now d (interrupted_db now d).
Proof.
  unfold interrupted_db. case_bool_decide as E.
  - assert (Hno : forall t, t ∈ db_turns d -> is_running t = false).
    { intros t Ht. destruct (is_running t) eqn:Hr; [|done]. exfalso.
      assert (H : tu_thread_id t ∈ running_threads d) by (apply running_thread_iff; by exists t).
      rewrite E in H. by apply elem_of_nil in H. }
    constructor; cbn.
    + by apply Forall_forall.
    + apply Forall_forall. intros u (v & Hv & ->)%elem_of_update. by destruct (usage_running (ru_record v)) eqn:Hu.
    + apply Forall2_same. intros t Ht. by rewrite Hno.
    + by apply Forall2_update.
    + apply Forall2_same. intros r _. destruct (existsb _ _) eqn:Hx; [|done].
      apply existsb_exists in Hx as (t & Ht%list_elem_of_In & [Hr _]%andb_true_iff). by rewrite Hno in Hr.
    + apply Forall2_same. intros r _. unfold to_close. by rewrite (proj1 (none_running d) E).
    + by destruct d.
    + intros r t _ Ht Hr. by rewrite Hno in Hr.
  - constructor; cbn.
    + apply Forall_forall. intros t (v & Hv & ->)%elem_of_update.
      destruct (is_running v) eqn:Hr; [apply broken_off_stopped|done].
    + apply Forall_forall. intros u (v & Hv & ->)%elem_of_update. by destruct (usage_running (ru_record v)) eqn:Hu.
    + by apply Forall2_update.
    + by apply Forall2_update.
    + apply Forall2_update. intros r _. destruct (existsb _ _) eqn:Hx.
      * apply existsb_exists in Hx as (t & Ht%list_elem_of_In & [Hr Ei%bool_decide_eq_true]%andb_true_iff).
        rewrite bool_decide_true; [done|]. apply running_thread_iff. by exists t.
      * rewrite bool_decide_false; [done|]. intros (t & Ht & Hr & Ei)%running_thread_iff.
        rewrite existsb_false in Hx. specialize (Hx t Ht). by rewrite Hr, Ei, bool_decide_true in Hx.
    + assert (Hrun : existsb is_running (db_turns d) = true).
      { destruct (existsb _ _) eqn:Hx; [done|]. by apply none_running in Hx. }
      apply Forall2_update. intros r _. unfold to_close. rewrite Hrun.
      rewrite <- (broken_turns now d (db_set_turns (update_where is_running (broken_off now) (db_turns d)) d) r eq_refl).
      reflexivity.
    + by destruct d.
    + intros r' t (r & Hr & ->)%elem_of_update Ht Hrun. destruct (is_open r && _) eqn:Hx; [intros; apply left_open_closed|].
      intros E1 E2. destruct (is_open r) eqn:Ho; [|done]. exfalso. cbn in Hx.
      unfold in_interrupted_turn in Hx. rewrite existsb_false in Hx.
      assert (Hin : broken_off now t ∈ update_where is_running (broken_off now) (db_turns d)).
      { apply elem_of_update. exists t. by rewrite Hrun. }
      specialize (Hx _ Hin). cbn in Hx. rewrite E1, E2, !bool_decide_true in Hx by done. done.
Qed.

(** A second time there is nothing left to close. *)
Lemma update_none {R} (p : R -> bool) f l : Forall (fun x => p x = false) l -> update_where p f l = l.
Proof. intros H. apply fmap_same. intros x Hx. rewrite Forall_forall in H. by rewrite H. Qed.

Lemma filter_none {A} (p : A -> bool) l : Forall (fun x => p x = false) l -> List.filter p l = [].
Proof. induction 1 as [|x l Hx _ IH]; cbn; [done|]. by rewrite Hx. Qed.

Lemma closed_again now now' d d' : closed_off now d d' -> interrupted_db now' d' = d'.
Proof.
  intros [Hr Hu _ _ _ _ _ _]. unfold interrupted_db. rewrite bool_decide_true.
  - rewrite update_none by done. by destruct d'.
  - unfold running_threads. rewrite (filter_none is_running) by done. done.
Qed.

(** ** Reconciling request usage *)

(** What a report of the relay may make of a stored request. *)
Definition settles (id : string) (reports : list RequestUsage) (u u' : UsageRow) : Prop :=
  u' = u \/
  settled (ru_record u) = false /\ ru_thread_id u = id /\
  exists s, s ∈ reports /\ Accounting.request_id s = ru_id u /\ settled s = true /\ validate_counters s = true /\
    response_verified s = false /\ identity_mismatch (ru_record u) s = false /\
    u' = ru_set_record (reconciled (ru_record u) s) u.

Record reconciling (id : string) (reports : list RequestUsage) (d : Db) (past : list RequestUsage) (x : Db) : Prop := {
  rc_ok : store_ok x;
  rc_rest : db_set_usage (db_usage d) x = d;
  rc_rows : Forall2 (settles id reports) (db_usage d) (db_usage x);
  rc_done s v : s ∈ past -> settled s = true -> v ∈ db_usage x -> ru_thread_id v = id ->
    ru_id v = Accounting.request_id s -> settled (ru_record v) = true
}.

Lemma reconciled_row id d v u s :
  store_ok d -> List.find (usage_is id (Accounting.request_id s)) (db_usage d) = Some u ->
  v ∈ db_usage d -> usage_is id (Accounting.request_id s) v = true -> v = u.
Proof.
  intros Hok [Hu Hp]%find_Some_iff Hv Hq. unfold usage_is in *.
  apply andb_true_iff in Hp as [Hp%bool_decide_eq_true _], Hq as [Hq%bool_decide_eq_true _].
  apply (NoDup_fmap_inj ru_id (db_usage d)); [apply Hok|done..|congruence].
Qed.

Lemma sat_reconcile_one id reports d past s :
  s ∈ reports ->
  sat (reconciling id reports d past) (reconcile_one id s) (fun _ => reconciling id reports d (past ++ [s])).
Proof.
  intros Hs. unfold reconcile_one. destruct (negb (validate_counters s) || response_verified s) eqn:Eg; [apply sat_throw|].
  apply orb_false_iff in Eg as [Ev%negb_false_iff Er].
  eapply sat_bind; [apply sat_query_eq|]. intros [local|]; cbv beta.
  2:{ apply sat_ret. intros x [[Hok Hrest Hrows Hdone] E]. constructor; try done.
      intros s' v [Hin| ->%list_elem_of_singleton]%elem_of_app Hset Hv Ht Hid; [by eapply Hdone|].
      destruct (List.find _ _) eqn:Ef; [done|]. apply find_none with (x := v) in Ef; [|by apply list_elem_of_In].
      unfold usage_is in Ef. by rewrite Hid, Ht, !bool_decide_true in Ef. }
  destruct (identity_mismatch local s) eqn:Em; [apply sat_throw|].
  destruct (settled local || negb (settled s)) eqn:Es.
  - apply sat_ret. intros x [[Hok Hrest Hrows Hdone] E]. constructor; try done.
    intros s' v [Hin| ->%list_elem_of_singleton]%elem_of_app Hset Hv Ht Hid; [by eapply Hdone|].
    destruct (List.find _ _) as [u|] eqn:Ef; [|done]. injection E as <-.
    rewrite Hset, orb_false_r in Es.
    rewrite (reconciled_row id x v u s Hok Ef Hv); [done|]. unfold usage_is. by rewrite Hid, Ht, !bool_decide_true.
  - apply orb_false_iff in Es as [Esl Ess%negb_false_iff].
    eapply (sat_bind _ _ _ (fun _ => reconciling id reports d (past ++ [s]))); [|intros n; by apply sat_ret].
    apply sat_statement. intros x x' n [[Hok Hrest Hrows Hdone] E] [= <- _].
    destruct (List.find _ _) as [u|] eqn:Ef; [|done]. injection E as <-.
    pose proof Ef as [Hu [Hid%bool_decide_eq_true Ht%bool_decide_eq_true]%andb_true_iff]%find_Some_iff.
    pose proof (so_usage x Hok) as Huok. rewrite Forall_forall in Huok. pose proof (Huok u Hu) as Hown. red in Hown.
    assert (Eid : Accounting.request_id (ru_record u) = Accounting.request_id s) by congruence.
    assert (Honly : forall v, v ∈ db_usage x -> usage_is id (Accounting.request_id (ru_record u)) v = true -> v = u).
    { intros v Hv Hp. rewrite Eid in Hp. by apply (reconciled_row id x v u s). }
    constructor.
    + apply usage_updated; [|done]. intros r [Hr%bool_decide_eq_true _]%andb_true_iff. split; [done|]. intros _.
      unfold usage_ok. cbn. exact Hr.
    + rewrite <- Hrest. by destruct x.
    + cbn. apply Forall2_same_length_lookup_2.
      { unfold update_where. rewrite length_fmap. by eapply Forall2_length. }
      intros i a b Ha Hb. unfold update_where in Hb. rewrite list_lookup_fmap in Hb.
      destruct (db_usage x !! i) as [v|] eqn:Ev'; [|done]. injection Hb as <-.
      pose proof (Forall2_lookup_lr _ _ _ _ _ _ Hrows Ha Ev') as Hset.
      destruct (usage_is id (Accounting.request_id (ru_record u)) v) eqn:Hp; [|done].
      assert (v = u) as -> by (apply Honly; [by eapply list_elem_of_lookup_2|done]).
      destruct Hset as [-> |(_ & _ & s' & _ & _ & Hs' & _ & _ & _ & ->)].
      * right. split_and!; [done|done|]. exists s. by split_and!.
      * cbn in Esl. congruence.
    + cbn. intros s' v [Hin| ->%list_elem_of_singleton]%elem_of_app Hset (w & Hw & ->)%elem_of_update Hvt Hvid;
        destruct (usage_is id (Accounting.request_id (ru_record u)) w) eqn:Hp; try done; cbn in *.
      * by eapply Hdone.
      * exfalso. unfold usage_is in Hp. rewrite Eid, Hvid, Hvt, !bool_decide_true in Hp by done. done.
Qed.

Lemma reconcile_rows id reports d :
  store_ok d ->
  sat (fun x => x = d) (_ ← ensure_thread id; iterM (reconcile_one id) reports)
    (fun _ => reconciling id reports d reports).
Proof.
  intros Hok. eapply (sat_bind _ _ _ (fun _ => reconciling id reports d [])).
  - eapply sat_weaken; [apply (sat_ensure_thread (fun x => x = d))|done|]. intros u x ->. constructor; try done.
    + by destruct d.
    + apply Forall2_same. by left.
    + intros s v Hs. by apply elem_of_nil in Hs.
  - intros u. cbv beta.
    assert (H : forall l past, (forall s, s ∈ l -> s ∈ reports) ->
      sat (reconciling id reports d past) (iterM (reconcile_one id) l) (fun _ => reconciling id reports d (past ++ l))).
    { induction l as [|s l IH]; intros past Hin; cbn [iterM].
      - apply sat_ret. intros x Hx. by rewrite app_nil_r.
      - eapply sat_bind; [apply sat_reconcile_one, Hin; by left|]. intros u'. cbv beta.
        specialize (IH (past ++ [s])). rewrite <- app_assoc in IH. apply IH. intros y Hy. apply Hin. by right. }
    exact (H reports [] (fun _ Hx => Hx)).
Qed.
End Effects.

(** * A recorded conversation *)

(** ** Codecs *)

(** Times are their own texts, and so are turns. *)
Definition plain_chrono : Chrono :=
  {| to_rfc3339 := id; to_rfc3339_millis := id; timestamp_millis := id; parse_rfc3339 := Some |}.
Definition plain_turns : TurnIds := {| turn_id_from_str := Ok |}.

Definition stage_text (s : ImageGenerationStage) : string :=
  match s with Queued => "queued" | Generating => "generating" | Finishing => "finishing" end.
Definition stage_of (s : string) : option ImageGenerationStage :=
  List.find (fun x => bool_decide (stage_text x = s)) [Queued; Generating; Finishing].

Definition percent_number (n : Z) : Value := VNumber (if 0 <=? n then PosInt n else NegInt n).
Definition percent_of (v : Value) : option Z :=
  match v with VNumber (PosInt n) | VNumber (NegInt n) => Some n | _ => None end.

Definition no_evidence : SecurityEvidence :=
  {| se_state := SecUnverified; se_provider_id := "p"; se_model_id := "m"; attestation_protocol := EmptyString;
     e2ee_protocol := EmptyString; e2ee_encryption_version := 0; trust_policy_version := EmptyString;
     verified_at_unix_seconds := 0; attestation_generation := None; hard_expires_at_unix_seconds := None;
     model_key_fingerprint := EmptyString; tls_spki_fingerprint := None; checks := []; provider_claims := []; workload_manifest := None |}.

(** An image of which only the bytes and their type are of interest. *)
Definition plain_image (data mime : string) : GeneratedImage :=
  {| gi_request_id := "r"; gi_data := data; gi_mime_type := mime; gi_width := 1; gi_height := 1;
     gi_sha256 := EmptyString; gi_source_image_ids := []; gi_chat_model_id := None; gi_evidence := no_evidence;
     gi_usage := usage_sample |}.

Definition plain_tasks (l : list TaskItem) : list Value := (fun t => VString (task_title t)) <$> l.
Definition plain_task (v : Value) : option TaskItem :=
  match v with
  | VString s => Some {| task_id := s; task_title := s; task_status := Pending |}
  | _ => None
  end.
Definition plain_read_tasks (v : Value) : result string (list TaskItem) :=
  match v with VArray l => Ok (omap plain_task l) | _ => Err "expected a sequence" end.
Definition plain_paths (l : list Path) : list Value := (fun p => VString (path_display p)) <$> l.
Definition plain_progress (p : ImageGenerationProgress) : Value :=
  VObject [("percent", percent_number (percent p)); ("stage", VString (stage_text (stage p)))].
Definition plain_read_progress (v : Value) : option ImageGenerationProgress :=
  match value_get "percent" v, get_string "stage" v with
  | Some n, Some s =>
    match percent_of n, stage_of s with
    | Some n, Some s => Some {| stage := s; percent := n |}
    | _, _ => None
    end
  | _, _ => None
  end.
Definition plain_read_image (v : Value) : option GeneratedImage :=
  match get_string "data" v, get_string "mimeType" v with
  | Some data, Some mime => Some (plain_image data mime)
  | _, _ => None
  end.

Definition plain_codec : StoreCodec := {|
  tasks_to_value l := VArray (plain_tasks l);
  tasks_from_value := plain_read_tasks;
  paths_to_value l := Ok (VArray (plain_paths l));
  paths_from_value v := match v with VArray _ => Some [] | _ => None end;
  diffs_to_value _ := Ok (VArray []);
  diffs_from_value v := match v with VArray _ => Some [] | _ => None end;
  progress_to_value := plain_progress;
  progress_from_value := plain_read_progress;
  image_to_value g := VObject [("data", VString (gi_data g)); ("mimeType", VString (gi_mime_type g))];
  image_from_value := plain_read_image;
  questions_to_value r := VObject [("request_id", VString (q_request_id r))]
|}.

#[local] Existing Instances plain_chrono plain_turns plain_codec plain_base64 plain_json.

Lemma plain_progress_law p : plain_read_progress (redact_value (plain_progress p)) = Some p.
Proof. destruct p as [[] [|n|n]]; by vm_compute. Qed.

Lemma plain_laws : StoreLaws.
Proof.
  constructor.
  - intros l. by eexists.
  - exact plain_progress_law.
  - intros g. eexists. split_and!; [done|done|]. intros s.
    exists (plain_image s (redact_text (gi_mime_type g))). reflexivity.
Qed.

(** ** A recorded conversation *)

Definition sample_conn (d : Db) : Conn :=
  {| cn_db := d; cn_faults := []; cn_uuid := fun n => "id-" +:+ to_decimal (Z.of_nat (length (db_items d) + n));
     cn_drawn := 0; cn_clock := fun n => "2026-01-01T00:00:" +:+ to_decimal (Z.of_nat n); cn_ticks := 0 |}.

Definition sample_event (e : AppEvent) : EventEnvelope :=
  {| ev_schema_version := 1; ev_sequence := 1; ev_occurred_at := "2026-01-01T00:00:00"; ev_correlation := "c";
     ev_origin := Headless; ev_session := "s"; ev_event := e |}.

Definition first_batch : list EventEnvelope :=
  sample_event <$> [AppSessionCreated (path_of_string "/w") Headless Confirm; AppModelChanged "m"].
Definition turn_batch : list EventEnvelope :=
  sample_event <$>
    [AppPromptAccepted "t" "What is in a.txt? Use token sk-0123456789" []; AppTurnStarted "t";
     AppTextDelta "t" "Look"; AppTextDelta "t" "ing.";
     AppToolProposed "t" "call" "read_file" (VObject [("path", VString "a.txt")]);
     AppToolStarted "call" "read_file"; AppToolOutput "call" "seen" false; AppToolCompleted "call" true;
     AppTextDelta "t" "It says: seen."].

Definition recorded (l : list EventEnvelope) : StoreOperation := OpAppend l None None None.

(** A store after its operations. *)
Definition after (d : Db) (op : StoreOperation) : Db := cn_db (run_operation op (sample_conn d)).1.

Definition new_store : Db := empty_db "2026-01-01T00:00:00".
Definition sample_db : Db := after (after new_store (recorded first_batch)) (recorded turn_batch).

Lemma after_lived d op : lived d -> permitted op -> lived (after d op).
Proof. intros Hd Hp. exact (lived_step op (sample_conn d) Hd Hp). Qed.

Lemma sample_lived : lived sample_db.
Proof.
  apply after_lived; [apply after_lived; [constructor|]|]; cbn; repeat constructor; by intros ? [= <-].
Qed.

Example sample_texts :
  (fun r => (ti_kind r, ti_status r, ti_content r)) <$> db_items sample_db
  = [("user_message", "completed", "What is in a.txt? Use token [REDACTED]");
     ("assistant_message", "in_progress", "Looking.");
     ("tool_call", "completed", "seen");
     ("assistant_message", "in_progress", "It says: seen.")].
Proof. by vm_compute. Qed.

(** The connection to it, opened again. *)
Definition reopened : Conn := sample_conn sample_db.

Lemma reopened_lived : lived (cn_db reopened).
Proof. cbn [cn_db reopened sample_conn]. exact sample_lived. Qed.

Definition sample_row : option ThreadRow := find_thread "s" (cn_db reopened).

(** ** What is done to it later *)

Lemma sample_batches : Forall permitted [recorded first_batch; recorded turn_batch].
Proof. cbn. repeat constructor; by intros ? [= <-]. Qed.

(** The next process closes what was running. *)
Definition restarted : Conn := sample_conn (after sample_db OpInterrupt).

Lemma restarted_lived : lived (cn_db restarted).
Proof. cbn [cn_db restarted sample_conn]. apply after_lived; [exact sample_lived|done]. Qed.

(** A report of the relay for the request [r], and the request as it was recorded. *)
Definition report : RequestUsage :=
  {| Accounting.request_id := "r"; model_id := "m"; provider_id := "p"; context_window_tokens := None;
     Accounting.auto_compact_threshold_tokens := None; turn_id := None; purpose := Conversation;
     state := Accounting.Completed; completeness := UsageFinal; input_tokens := Some "20";
     cached_input_tokens := None; output_tokens := Some "12"; reasoning_tokens := None; image_pixels := None;
     image_steps := None; input_image_pixels := None; cost_microusd := Some "3"; settled := true;
     response_verified := false; started_at_ms := "0"; finished_at_ms := Some "9"; error_code := None;
     finish_reason := None |}.
Definition unsettled_request : RequestUsage :=
  {| Accounting.request_id := "r"; model_id := "m"; provider_id := "p"; context_window_tokens := None;
     Accounting.auto_compact_threshold_tokens := None; turn_id := None; purpose := Conversation;
     state := Accounting.Completed; completeness := UsageFinal; input_tokens := Some "20";
     cached_input_tokens := None; output_tokens := Some "12"; reasoning_tokens := None; image_pixels := None;
     image_steps := None; input_image_pixels := None; cost_microusd := None; settled := false;
     response_verified := false; started_at_ms := "0"; finished_at_ms := Some "8"; error_code := None;
     finish_reason := None |}.
Definition billed : Conn := sample_conn (after sample_db (OpRecordUsage "s" unsettled_request)).

Lemma billed_lived : lived (cn_db billed).
Proof. cbn [cn_db billed sample_conn]. apply after_lived; [exact sample_lived|done]. Qed.

(** Two collections, made before and after the conversation. *)
Definition shelved : Conn :=
  sample_conn (after (after (after (after new_store (OpCreateCollection "Work")) (recorded first_batch))
    (recorded turn_batch)) (OpCreateCollection "Home")).

Lemma shelved_lived : lived (cn_db shelved).
Proof.
  pose proof sample_batches as H. inversion_clear H as [|? ? Hfirst H1]. inversion_clear H1 as [|? ? Hturn _].
  cbn [cn_db shelved sample_conn]. apply after_lived; [|done]. apply after_lived; [|done].
  apply after_lived; [|done]. apply after_lived; [constructor|done].
Qed.
