(* ===== verification/StoreTheorems.v ===== *)
(** What the session store promises (apps/axiomcli/src/session). *)

From stdpp Require Import base gmap strings list sorting.
From Stdlib Require Import ZArith NArith Lia ZifyBool ZifyN ZifyNat.
From S2P Require Import Prelude RustStr Json Accounting Inference Attachments Paths AppError Policy Models Kernel Redact Tables Timeline Events Projection Recovery StoreQueries StoreInvariant StoreWrites StoreLife StoreLoad StoreBatches StoreEffects.

Local Open Scope Z_scope.

Section Theorems.
Context `{CH : Chrono} `{SC : StoreCodec} `{TI : TurnIds} `{B64 : Base64} `{SJ : SerdeJson}.

(** ** Loading *)

Lemma within_limit {A B} (R : A -> B -> Prop) n (l : list A) (l' : list B) :
  Forall2 R (take (S n) l) l' ->
  (n <? length l')%nat = (n <? length l)%nat /\
  Forall2 R (take n l) (if (n <? length l')%nat then removelast l' else l').
Proof.
  intros H. pose proof (Forall2_length _ _ _ H) as Hlen. rewrite length_take in Hlen. split; [lia|].
  destruct (n <? length l')%nat eqn:E.
  - rewrite removelast_firstn_len. replace (pred (length l')) with n by lia.
    replace (take n l) with (take n (take (S n) l)) by (rewrite take_take; f_equal; lia). by apply Forall2_take.
  - assert (length l <= n)%nat by lia. rewrite take_ge in H |- * by lia. done.
Qed.

Lemma loads now correlation id c row :
  store_ok (cn_db c) -> untroubled c -> find_thread id (cn_db c) = Some row ->
  attachments_readable id (cn_db c) ->
  exists events,
    load_recovering now correlation id c =
      (c, Ok (events, if (MAX_TIMELINE_ITEMS_PER_LOAD <? length (items_of id (cn_db c)))%nat
                      then [load_warning id] else [])) /\
    journal_of_thread id row (omap row_text (take MAX_TIMELINE_ITEMS_PER_LOAD (items_of id (cn_db c)))) events.
Proof.
  intros Hok Hc Hf Ha. apply find_thread_spec in Hf as Hrow. destruct Hrow as [Hrow _].
  pose proof (so_threads _ Hok) as Hthreads. rewrite Forall_forall in Hthreads. specialize (Hthreads row Hrow).
  destruct (thread_reads row Hthreads) as (t & Ht & Rt).
  assert (Hturns : exists turns, collect decode_turn (turns_of id (cn_db c)) = Ok turns).
  { destruct (collect_total decode_turn read_turn (turns_of id (cn_db c))) as (turns & E & _); [|by exists turns].
    intros r. unfold turns_of. rewrite elem_of_sort_by, elem_of_filterb. intros [Hr _].
    pose proof (so_turns _ Hok) as Hu. rewrite Forall_forall in Hu. by apply turn_reads, Hu. }
  destruct Hturns as [turns Hturns].
  unfold load_recovering. generalize MAX_TIMELINE_ITEMS_PER_LOAD as n. intros n.
  pose proof (rows_of_thread _ id Hok) as Hrows. set (rows := items_of id (cn_db c)) in *.
  destruct (collect_total decode_item read_item (take (S n) rows)) as (items & Hitems & Ritems).
  { intros r Hr. rewrite Forall_forall in Hrows. apply item_reads, Hrows.
    apply list_elem_of_lookup in Hr as [k Hk]. apply lookup_take_Some in Hk as [Hk _].
    by eapply list_elem_of_lookup_2. }
  destruct (within_limit read_item n rows items Ritems) as [Hover Rkept].
  assert (Hkept : Forall (fun r => r ∈ rows) (take n rows)) by (apply Forall_take, Forall_forall; done).
  destruct (load_attachments_ok c id (take n rows) _ ∅ Hc Ha Hkept Rkept) as [m Hm].
  destruct (projected_journal now correlation id row t turns (take n rows) _ m Hthreads Rt
              (Forall_take _ n _ Hrows) Rkept) as (events & He & Hj).
  exists events. split; [|exact Hj].
  rewrite (run_bind _ _ c c t).
  2:{ unfold query_thread_summary. rewrite run_query_bind by done. rewrite Hf. unfold lift. by rewrite Ht. }
  rewrite (run_bind _ _ c c turns).
  2:{ unfold query_turns. rewrite run_query_bind by done. unfold lift. by rewrite Hturns. }
  rewrite run_query_bind by done. rewrite (run_lift_bind items) by done. cbv zeta.
  rewrite (run_bind _ _ _ _ _ Hm). rewrite (run_lift_bind events) by done. by rewrite Hover.
Qed.

(** C27: Whatever a process did to a store, in any order and with failures at any statement,
    its threads can be loaded: when the messages of a thread still have their attachments
    ([attachments_readable]: stored, and within the limits of a prompt) and no statement
    fails, the journal of the thread (of its first [MAX_TIMELINE_ITEMS_PER_LOAD] items, when
    there are more, with a warning, which [load] makes an error) is numbered from one,
    begins with the creation in the stored directory, repeats what the user and the
    assistant said in the order of the timeline, each in its own turn, and the kernel
    restores from it an idle session with the stored directory and profile. *)
Theorem stored_threads_come_back `{SL : !StoreLaws} now correlation id c row k :
  lived (cn_db c) -> untroubled c -> find_thread id (cn_db c) = Some row ->
  attachments_readable id (cn_db c) ->
  let items := items_of id (cn_db c) in
  let over := (MAX_TIMELINE_ITEMS_PER_LOAD <? length items)%nat in
  exists events s,
    load_recovering now correlation id c = (c, Ok (events, if over then [load_warning id] else [])) /\
    load now correlation id c = (c, if over then Err (StorageError (load_warning id)) else Ok events) /\
    journal_of_thread id row (omap row_text (take MAX_TIMELINE_ITEMS_PER_LOAD items)) events /\
    restore_from_events events k =
      (install_restore id s (foldl (fun n x => Z.max n (ev_sequence x)) 0 events) k, Ok s) /\
    ss_lifecycle s = Ready /\ ss_cwd s = th_cwd row /\ profile_name (ss_profile s) = th_profile row.
Proof.
  intros Hl%lived_ok Hc Hf Ha items over. destruct (loads now correlation id c row) as (events & E & Hj); [done..|].
  destruct (jt_first _ _ _ _ Hj) as (origin & profile & rest & Hev & _ & Hp & Hrest).
  destruct (replay_keeps_scope id rest (new_session id (th_cwd row) origin profile) Hrest)
    as (s & Hs & Hid & Hcwd & Hpr & _).
  exists events, (idle s). split_and!; try done.
  - unfold load. rewrite (run_bind _ _ _ _ _ E). fold items over. by destruct over.
  - apply restore_journal; [by intros ->|apply Hj|]. rewrite Hev. cbn. exact Hs.
  - cbn. by rewrite Hpr.
Qed.

(** C28: No sequence of operations, whatever fails in it, breaks a store: identifiers name one
    row, sequences of a thread grow and stay below its counter, rows belong to stored
    threads, and every column holds what can be read back. *)
Theorem stores_stay_well_formed `{SL : !StoreLaws} d : lived d -> store_ok d.
Proof. apply lived_ok. Qed.

(** Redaction leaves nothing to redact: no member of an object with the key of a secret
    keeps its value, no token of a text looks like a secret or follows [Bearer], and a
    second redaction changes nothing. *)
Theorem redaction_is_complete v :
  clean_value (redact_value v) = true /\ redact_value (redact_value v) = redact_value v.
Proof. split; [apply redact_value_clean|apply redact_value_idempotent]. Qed.

(** ** Revisions, interruptions and accounts *)

(** A prompt is replaced only in the revision the client has seen, while no turn runs,
    and from a message that started a turn; otherwise nothing changes and the error says
    why.  Then exactly that message and what follows it in the thread are gone, with the
    turns they started and their attachments; the thread has one more revision and its
    counter stays, above every sequence that was ever used. *)
Theorem revisions_cut_the_tail `{SL : !StoreLaws} id item expected row c :
  lived (cn_db c) -> untroubled c -> find_thread id (cn_db c) = Some row ->
  truncation_spec id item expected row c (truncate_for_revision id item expected c) /\
  (forall r, r ∈ db_items (cn_db c) -> ti_thread_id r = id -> ti_sequence r <= th_next_sequence row).
Proof.
  intros Hl%lived_ok Hc Hrow. split; [by apply truncation|]. intros r Hr Ht.
  apply find_thread_spec in Hrow as [Hrow Hid]. apply (so_bounds _ Hl r row); [done|done|congruence].
Qed.

(** C30: When a process starts, what the last one left running is closed.  When no statement
    of it fails, running turns are interrupted with their error or the standard one; the
    open items of turns that were running, and (when there was such a turn) of turns that
    were interrupted before, are interrupted; running requests have failed without
    verification; the threads of running turns are ready in a new revision; no other item,
    turn, request or thread changes, and nothing else in the store; and doing it again
    changes nothing. *)
Theorem interrupted_work_is_closed c :
  untroubled c ->
  exists c', interrupt_incomplete_turns c = (c', Ok tt) /\
    closed_off (to_rfc3339 (time_of c)) (cn_db c) (cn_db c') /\
    forall c2, untroubled c2 -> cn_db c2 = cn_db c' ->
      exists c3, interrupt_incomplete_turns c2 = (c3, Ok tt) /\ cn_db c3 = cn_db c'.
Proof.
  intros Hc. eexists. split; [by apply run_interrupt|]. split; [apply closing|].
  intros c2 H2 E. eexists. split; [by apply run_interrupt|]. cbn. rewrite E. eapply closed_again, closing.
Qed.

(** Reports of the relay settle requests and nothing else: a row changes only from
    unsettled to settled, by a valid unverified report of the same request, model and
    provider, keeping its state and its verification; every settled report that is taken
    leaves its request settled; an error leaves all of them as they were. *)
Theorem reports_only_settle `{SL : !StoreLaws} id reports c :
  lived (cn_db c) ->
  match reconcile_request_usage id reports c with
  | (c', Err _) => cn_db c' = cn_db c
  | (c', Ok _) =>
    db_set_usage (db_usage (cn_db c)) (cn_db c') = cn_db c /\
    Forall2 (settles id reports) (db_usage (cn_db c)) (db_usage (cn_db c')) /\
    (forall s v, s ∈ reports -> settled s = true -> v ∈ db_usage (cn_db c') -> ru_thread_id v = id ->
       ru_id v = Accounting.request_id s -> settled (ru_record v) = true) /\
    Forall2 (fun u u' => response_verified (ru_record u') = response_verified (ru_record u) /\
                         state (ru_record u') = state (ru_record u)) (db_usage (cn_db c)) (db_usage (cn_db c'))
  end.
Proof.
  intros Hl%lived_ok. unfold reconcile_request_usage.
  pose proof (transaction_result _ c _ (reconcile_rows id reports (cn_db c) Hl)) as H.
  destruct (transaction _ c) as [c' [u|e]]; [|done]. destruct H as [_ Hrest Hrows Hdone].
  split_and!; [done|done|done|]. eapply Forall2_impl; [exact Hrows|].
  by intros u1 u2 [-> |(_ & _ & s & _ & _ & _ & _ & _ & _ & ->)].
Qed.

(** ** Collections *)

Definition collection_order (d : Db) : list string := co_id <$> ordered_collections d.

Lemma moved_lookup current position ids id :
  ids !! current = Some id -> (position < length ids)%nat -> move_to current position ids !! position = Some id.
Proof.
  intros Hc Hp. unfold move_to. rewrite Hc. cbv zeta. apply lookup_lt_Some in Hc as Hlt.
  rewrite lookup_app_r; rewrite length_take, length_app, length_take, length_drop; [|lia].
  by replace (position - _)%nat with O by lia.
Qed.

Definition others (id : string) (l : list string) : list string :=
  List.filter (fun x => negb (bool_decide (x = id))) l.

Lemma others_app id a b : others id (a ++ b) = others id a ++ others id b.
Proof. unfold others; apply List.filter_app. Qed.

Lemma moved_others current position ids id :
  ids !! current = Some id -> others id (move_to current position ids) = others id ids.
Proof.
  intros Hc. unfold move_to. rewrite Hc. cbv zeta. set (rest := take current ids ++ drop (S current) ids).
  assert (Hcons : forall l, others id (id :: l) = others id l).
  { intros l. unfold others. cbn. by rewrite bool_decide_true. }
  rewrite others_app, Hcons, <- others_app, take_drop. unfold rest.
  rewrite others_app. rewrite <- (take_drop_middle ids current id Hc) at 3. by rewrite others_app, Hcons.
Qed.

Lemma moving id position d :
  store_ok d -> Z.of_nat (length (db_collections d)) <= I64_MAX -> forall now current,
  index_of id (collection_order d) = Some current ->
  sat (fun x => x = d) (_ ← renumber now 0 (move_to current position (collection_order d)); collection_change (Some id))
    (fun _ x => collection_order x = move_to current position (collection_order d)).
Proof.
  intros Hok Hlen now current Hi.
  assert (Hn : NoDup (move_to current position (collection_order d))).
  { unfold collection_order. rewrite move_to_perm, ordered_ids. apply (so_shelves d Hok). }
  eapply (sat_bind _ _ _ (fun _ x => collection_order x = move_to current position (collection_order d))).
  - eapply sat_weaken; [by apply renumber_exact|intros x ->; reflexivity|]. intros u x ->.
    apply (renumbered_order now (move_to current position (collection_order d)) d); [done| |done].
    unfold collection_order. by rewrite move_to_perm, ordered_ids.
  - intros u. cbv beta. set (P := fun x => collection_order x = _). unfold collection_change, collection_state.
    eapply (sat_bind _ _ _ (fun _ => P)). { apply sat_statement. by intros x x' a Hx [= <- _]. }
    intros u'. eapply (sat_bind _ _ _ (fun _ => P)); [|intros s; by apply sat_ret].
    eapply (sat_bind _ _ _ (fun _ => P)); [by apply sat_query|]. intros n.
    eapply (sat_bind _ _ _ (fun _ => P)); [by apply sat_query|]. intros l.
    eapply (sat_bind _ _ _ (fun _ => P)); [by apply sat_lift|]. intros m. by apply sat_ret.
Qed.

(** Collections stand in the positions from zero without gaps, whatever was created,
    deleted or moved; and a move puts the collection where it should be and keeps the
    order of the others. *)
Theorem collections_keep_their_order `{SL : !StoreLaws} id position c :
  lived (cn_db c) -> Z.of_nat (length (db_collections (cn_db c))) <= I64_MAX ->
  co_position <$> ordered_collections (cn_db c) = seqZ 0 (Z.of_nat (length (db_collections (cn_db c)))) /\
  match move_collection id position c with
  | (c', Err _) => cn_db c' = cn_db c
  | (c', Ok _) =>
    collection_order (cn_db c') !! Z.to_nat position = Some id /\
    others id (collection_order (cn_db c')) = others id (collection_order (cn_db c))
  end.
Proof.
  intros Hl%lived_ok Hlen. split; [by apply ordered_positions, Hlen; apply Hl|].
  unfold move_collection. destruct (position <? 0) eqn:Ep.
  { by rewrite M_bind_run. }
  rewrite (run_lift_bind (Z.to_nat position)) by done. rewrite (run_bind utc_now _ c (ticked c) (time_of c) eq_refl).
  match goal with |- match transaction ?b _ with _ => _ end => set (body := b) end.
  assert (Hb : sat (fun x => x = cn_db (ticked c)) body (fun _ x =>
    collection_order x !! Z.to_nat position = Some id /\
    others id (collection_order x) = others id (collection_order (cn_db c)))).
  { apply exact_query. cbn [cn_db ticked]. fold (collection_order (cn_db c)).
    eapply (sat_bind _ _ _ (fun current x => x = cn_db c /\ index_of id (collection_order (cn_db c)) = Some current)).
    { apply sat_lift. intros current x E ->. split; [done|]. by destruct (index_of _ _); simplify_eq/=. }
    intros current. destruct (length _ <=? _)%nat eqn:El; [apply sat_throw|].
    apply sat_pure. intros Hi. eapply sat_weaken; [by eapply moving|done|]. intros u x ->.
    apply index_of_lookup in Hi as Hi'. split; [apply moved_lookup; [done|lia]|by apply moved_others]. }
  pose proof (transaction_result body (ticked c) _ Hb) as H.
  destruct (transaction body (ticked c)) as [c' [u|e]]; exact H.
Qed.
End Theorems.

(** ** At a recorded conversation *)

#[local] Existing Instances plain_chrono plain_turns plain_codec plain_base64 plain_json plain_laws.

Lemma stores_stay_well_formed_witness : store_ok sample_db.
Proof. exact (stores_stay_well_formed sample_db sample_lived). Defined.

Lemma reopened_readable : attachments_readable "s" (cn_db reopened).
Proof.
  intros r Hr _ Hm. exfalso. apply Hm.
  assert (H : forallb (fun r => bool_decide (value_get "attachments" (ti_metadata r) = None))
                (items_of "s" (cn_db reopened)) = true) by (by vm_compute).
  rewrite forallb_forall in H. apply list_elem_of_In in Hr. by apply H, bool_decide_eq_true in Hr.
Qed.

Lemma stored_threads_come_back_witness :
  exists events s, load (fun _ => "now") (fun _ => "c") "s" reopened = (reopened, Ok events) /\
    omap said (ev_event <$> events) =
      [(ByUser, "t", "What is in a.txt? Use token [REDACTED]"); (ByAssistant, "t", "Looking.");
       (ByAssistant, "t", "It says: seen.")] /\
    ss_lifecycle s = Ready.
Proof.
  assert (Hfound : match sample_row with Some _ => true | None => false end = true) by (by vm_compute).
  assert (Hn : length (items_of "s" (cn_db reopened)) = 4%nat) by (by vm_compute).
  assert (Hover : (MAX_TIMELINE_ITEMS_PER_LOAD <? 4)%nat = false) by (unfold MAX_TIMELINE_ITEMS_PER_LOAD; lia).
  unfold sample_row in Hfound. destruct (find_thread "s" (cn_db reopened)) as [row|] eqn:Hrow; [|discriminate Hfound].
  destruct (stored_threads_come_back (fun _ => "now") (fun _ => "c") "s" reopened row
              {| sessions := ∅; next_sequence := 0 |} reopened_lived eq_refl Hrow reopened_readable)
    as (events & s & _ & Hl & Hj & _ & Hs & _).
  rewrite Hn, Hover in Hl. exists events, s. split_and!; [exact Hl| |exact Hs]. rewrite (jt_said _ _ _ _ Hj).
  rewrite take_ge by (rewrite Hn; unfold MAX_TIMELINE_ITEMS_PER_LOAD; lia). by vm_compute.
Defined.

(** The prompt of the interrupted turn is replaced: nothing of the conversation is left. *)
Lemma revisions_cut_the_tail_witness :
  exists c' r, truncate_for_revision "s" "id-0" 3 restarted = (c', Ok tt) /\
    starts_turn "s" "id-0" (cn_db restarted) r /\ cut "s" (ti_sequence r) (cn_db restarted) (cn_db c').
Proof.
  assert (Hfound : match find_thread "s" (cn_db restarted) with Some _ => true | None => false end = true) by (by vm_compute).
  assert (Hdone : match truncate_for_revision "s" "id-0" 3 restarted with (_, Ok _) => true | _ => false end = true)
    by (by vm_compute).
  destruct (find_thread "s" (cn_db restarted)) as [row|] eqn:Hrow; [|discriminate Hfound].
  destruct (revisions_cut_the_tail "s" "id-0" 3 row restarted restarted_lived eq_refl Hrow) as [Hspec _].
  destruct (truncate_for_revision "s" "id-0" 3 restarted) as [c' [[]|e]]; [|discriminate Hdone].
  destruct Hspec as (_ & _ & r & Hr & Hcut). exists c', r. split_and!; [done|exact Hr|exact Hcut].
Defined.

Lemma interrupted_work_is_closed_witness :
  exists c', interrupt_incomplete_turns reopened = (c', Ok tt) /\
    closed_off (to_rfc3339 (time_of reopened)) (cn_db reopened) (cn_db c').
Proof.
  destruct (interrupted_work_is_closed reopened eq_refl) as (c' & E & H & _). exists c'. exact (conj E H).
Defined.

(** The report of the request settles it. *)
Lemma reports_only_settle_witness :
  exists c', reconcile_request_usage "s" [report] billed = (c', Ok tt) /\
    Forall2 (settles "s" [report]) (db_usage (cn_db billed)) (db_usage (cn_db c')).
Proof.
  assert (Hdone : match reconcile_request_usage "s" [report] billed with
                  | (c', Ok _) => forallb (fun u => settled (ru_record u)) (db_usage (cn_db c'))
                  | _ => false
                  end = true) by (by vm_compute).
  pose proof (reports_only_settle "s" [report] billed billed_lived) as H.
  destruct (reconcile_request_usage "s" [report] billed) as [c' [[]|e]]; [|discriminate Hdone].
  exists c'. split; [reflexivity|apply H].
Defined.

(** The collection made last moves to the front. *)
Lemma collections_keep_their_order_witness :
  exists c' x, move_collection "id-4" 0 shelved = (c', Ok x) /\ collection_order (cn_db c') !! O = Some "id-4" /\
    others "id-4" (collection_order (cn_db c')) = ["id-0"].
Proof.
  assert (Hdone : match move_collection "id-4" 0 shelved with (_, Ok _) => true | _ => false end = true) by (by vm_compute).
  assert (Hn : length (db_collections (cn_db shelved)) = 2%nat) by (by vm_compute).
  assert (Ho : others "id-4" (collection_order (cn_db shelved)) = ["id-0"]) by (by vm_compute).
  destruct (collections_keep_their_order "id-4" 0 shelved shelved_lived) as [_ H].
  { rewrite Hn. by vm_compute. }
  destruct (move_collection "id-4" 0 shelved) as [c' [x|e]]; [|discriminate Hdone].
  destruct H as [H1 H2]. exists c', x. split_and!; [done|exact H1|by rewrite H2].
Defined.
