(* ===== verification/NearCrypto.v ===== *)
(** Encryption of the NEAR provider (crates/axiom-secure-client/src/providers/near/crypto.rs).

    A plaintext is sealed for an Ed25519 key: both keys become X25519 keys, HKDF turns
    the shared secret into a key of XChaCha20-Poly1305, and the ephemeral key, the nonce
    and the ciphertext travel as hexadecimal text.  The primitives are the class
    [NearPrimitives]; [NearLaws] is their documented behaviour.  Random bytes come from a
    generator that is threaded through every function that draws from it. *)

From stdpp Require Import base strings list.
From Stdlib Require Import ZArith NArith Lia ZifyBool ZifyN ZifyNat.
From S2P Require Import Prelude RustStr Json ToolCalls Content Inference SecureError TrustPolicy Sse Lease.

Local Open Scope Z_scope.

(** ** Random bytes *)

(** [OsRng]: what it yields at each call, and the number of calls so far. *)
Record Rng : Type := { rng_bytes : nat -> nat -> list N; rng_calls : nat }.

Abbreviation Drawing := (M Rng SecureClientError).

(** [OsRng.fill_bytes] of an array of [n] bytes. *)
Definition fill_bytes (n : nat) : Drawing (list N) := fun g =>
  ({| rng_bytes := rng_bytes g; rng_calls := S (rng_calls g) |}, Ok (rng_bytes g (rng_calls g) n)).

(** ** Primitives *)

Class NearPrimitives : Type := {
  hex_encode : list N -> string;                               (** [hex::encode] *)
  sha512 : list N -> list N;                                   (** [Sha512::digest] *)
  to_montgomery : list N -> option (list N);                   (** [CompressedEdwardsY::decompress], [to_montgomery] *)
  ed25519_verifying_key : list N -> list N;                    (** [SigningKey::from_bytes(seed).verifying_key()] *)
  x25519_public_key : list N -> list N;                        (** [X25519PublicKey::from(&StaticSecret)] *)
  diffie_hellman : list N -> list N -> list N;                 (** [StaticSecret::diffie_hellman] *)
  hkdf_expand : list N -> list N -> nat -> option (list N);    (** [Hkdf::<Sha256>::new(None, ikm).expand(info, ..)] *)
  aead_encrypt : list N -> list N -> list N -> option (list N); (** [XChaCha20Poly1305::encrypt], no associated data *)
  aead_decrypt : list N -> list N -> list N -> option (list N)
}.

Definition HKDF_INFO : string := "ed25519_encryption".
Definition EPHEMERAL_PUBLIC_BYTES : nat := 32.
Definition NONCE_BYTES : nat := 24.
Definition TAG_BYTES : nat := 16.
Definition WIRE_PREFIX_BYTES : nat := EPHEMERAL_PUBLIC_BYTES + NONCE_BYTES.
Definition MINIMUM_WIRE_BYTES : Z := Z.of_nat (WIRE_PREFIX_BYTES + TAG_BYTES).
Definition MAXIMUM_WIRE_BYTES : Z := 20 * 1024 * 1024 + MINIMUM_WIRE_BYTES.

Definition crypto_error (detail : string) : SecureClientError := new_error Encryption detail.
Definition decryption_error (detail : string) : SecureClientError := new_error Decryption detail.

(** [value.trim().strip_prefix("0x").unwrap_or(value.trim())]. *)
Definition without_0x (value : string) : string := default (trim value) (strip_prefix "0x" (trim value)).

(** An Ed25519 public key, by its 32 bytes. *)
Record Ed25519PublicKey : Type := { key_bytes : list N }.
#[export] Instance Ed25519PublicKey_eq_dec : EqDecision Ed25519PublicKey.
Proof. solve_decision. Defined.

Record ClientIdentity : Type := { ci_public_key : Ed25519PublicKey; x25519_secret : list N }.

Section Crypto.
Context `{KD : KeyDigest} `{NP : NearPrimitives}.

Definition ed25519_public_to_x25519 (ed25519 : list N) : result SecureClientError (list N) :=
  ok_or (to_montgomery ed25519) (crypto_error "public key is not a valid Ed25519 point").

(** The clamped first half of the digest of the seed. *)
Definition clamp (l : list N) : list N :=
  alter (fun b => N.lor (N.land b 127) 64) 31%nat (alter (fun b => N.land b 248) 0%nat l).
Definition ed25519_secret_to_x25519 (secret : list N) : result SecureClientError (list N) :=
  if negb (length secret =? 64)%nat then Err (crypto_error "Ed25519 secret has an invalid length") else
  Ok (clamp (take 32 (sha512 (take 32 secret)))).

Definition from_hex (value : string) : result SecureClientError Ed25519PublicKey :=
  let normalized := without_0x value in
  if negb (len normalized =? 64) then Err (crypto_error "public key has an invalid length") else
  decoded ← ok_or (hex_decode normalized) (crypto_error "public key is not valid hex");
  if negb (length decoded =? 32)%nat then Err (crypto_error "public key has an invalid length") else
  _ ← ed25519_public_to_x25519 decoded;
  Ok {| key_bytes := decoded |}.

Definition to_hex (k : Ed25519PublicKey) : string := hex_encode (key_bytes k).

(** [ClientIdentity::generate].  The seed and the public key have 64 bytes together, so the
    conversion of the secret does not fail ([expect]). *)
Definition generate_identity : Drawing ClientIdentity :=
  seed ← fill_bytes 32;
  let public := ed25519_verifying_key seed in
  secret ← lift (ed25519_secret_to_x25519 (seed ++ public));
  mret {| ci_public_key := {| key_bytes := public |}; x25519_secret := secret |}.
Definition public_key_hex (i : ClientIdentity) : string := to_hex (ci_public_key i).

Definition derive_key (shared_secret : list N) : result SecureClientError (list N) :=
  ok_or (hkdf_expand shared_secret (bytes HKDF_INFO) 32) (crypto_error "key derivation failed").

(** [StaticSecret::random_from_rng] draws the 32 bytes of the ephemeral secret. *)
Definition encrypt_hex (recipient : Ed25519PublicKey) (plaintext : list N) : Drawing string :=
  if Z.of_nat (length plaintext) >? MAXIMUM_WIRE_BYTES - MINIMUM_WIRE_BYTES
  then throw (crypto_error "plaintext exceeds the protocol limit") else
  recipient_x25519 ← lift (ed25519_public_to_x25519 (key_bytes recipient));
  ephemeral_secret ← fill_bytes 32;
  key ← lift (derive_key (diffie_hellman ephemeral_secret recipient_x25519));
  nonce ← fill_bytes NONCE_BYTES;
  ciphertext ← lift (ok_or (aead_encrypt key nonce plaintext) (crypto_error "payload encryption failed"));
  mret (hex_encode (x25519_public_key ephemeral_secret ++ nonce ++ ciphertext)).

Definition decrypt_hex (recipient_secret : list N) (wire_hex : string) : result SecureClientError (list N) :=
  if len wire_hex >? MAXIMUM_WIRE_BYTES * 2 then Err (decryption_error "ciphertext exceeds the protocol limit") else
  wire ← ok_or (hex_decode (without_0x wire_hex)) (decryption_error "ciphertext is not valid hex");
  let n := Z.of_nat (length wire) in
  if negb ((MINIMUM_WIRE_BYTES <=? n) && (n <=? MAXIMUM_WIRE_BYTES))
  then Err (decryption_error "ciphertext has an invalid length") else
  let ephemeral_public := take EPHEMERAL_PUBLIC_BYTES wire in
  let nonce := take NONCE_BYTES (drop EPHEMERAL_PUBLIC_BYTES wire) in
  let ciphertext := drop WIRE_PREFIX_BYTES wire in
  key ← derive_key (diffie_hellman recipient_secret ephemeral_public);
  ok_or (aead_decrypt key nonce ciphertext) (decryption_error "ciphertext authentication failed").

(** [encrypt] and [decrypt] of inference.rs: ciphertexts as checked text, plaintexts as
    UTF-8. *)
Definition encrypt (model_key : Ed25519PublicKey) (plaintext : list N) : Drawing string :=
  wire ← encrypt_hex model_key plaintext; lift (ciphertext_new wire).
Definition decrypt (i : ClientIdentity) (ciphertext : string) : result SecureClientError string :=
  bs ← decrypt_hex (x25519_secret i) ciphertext;
  ok_or (from_utf8 bs) (new_error Decryption "decrypted relay value is not UTF-8").
Definition encrypt_optional (model_key : Ed25519PublicKey) (value : option string) : Drawing (option string) :=
  match value with
  | None => mret None
  | Some value => c ← encrypt model_key (bytes value); mret (Some c)
  end.
End Crypto.

(** ** What the primitives promise *)

Definition byte (b : N) : Prop := (b < 256)%N.

Class NearLaws `{KD : KeyDigest} `{NP : NearPrimitives} : Prop := {
  hex_decodes l : Forall byte l -> hex_decode (hex_encode l) = Some l;
  hex_digits l : Forall byte l -> forallb is_ascii_hexdigit (bytes (hex_encode l)) = true;
  hex_length l : len (hex_encode l) = 2 * Z.of_nat (length l);
  shared_agree a b : diffie_hellman a (x25519_public_key b) = diffie_hellman b (x25519_public_key a);
  public_size a : length (x25519_public_key a) = 32%nat /\ Forall byte (x25519_public_key a);
  aead_opens k n m c : aead_encrypt k n m = Some c -> aead_decrypt k n c = Some m;
  aead_size k n m c : aead_encrypt k n m = Some c -> length c = (length m + TAG_BYTES)%nat /\ Forall byte c
}.

(** The generator fills arrays with bytes. *)
Definition fills (g : Rng) : Prop := forall k n, length (rng_bytes g k n) = n /\ Forall byte (rng_bytes g k n).

(** The secret of a public key, on both curves. *)
Definition opens `{NearPrimitives} (secret : list N) (k : Ed25519PublicKey) : Prop :=
  to_montgomery (key_bytes k) = Some (x25519_public_key secret).

(** ** Sealed texts *)

Lemma hexdigit_bounds c : is_ascii_hexdigit c = true -> (48 <= c < 103)%N /\ c <> 120%N.
Proof. unfold is_ascii_hexdigit, is_ascii_digit. lia. Qed.

Lemma drop_while_none (p : N -> bool) l : Forall (fun c => p c = false) l -> drop_while p l = l.
Proof. destruct 1 as [|c l Hc _]; [done|]. cbn. by rewrite Hc. Qed.

(** Text of hexadecimal digits is not trimmed, and has no prefix. *)
Lemma without_0x_hex s : forallb is_ascii_hexdigit (bytes s) = true -> without_0x s = s.
Proof.
  intros H. assert (Hb : Forall (fun c => is_ascii_hexdigit c = true) (bytes s)).
  { rewrite forallb_forall in H. apply Forall_forall. intros c Hc. by apply H, list_elem_of_In. }
  assert (Hd : utf8_decode s = Some (bytes s)).
  { apply utf8_decode_ascii, forallb_forall. intros c Hc%list_elem_of_In.
    rewrite Forall_forall in Hb. apply Hb, hexdigit_bounds in Hc. lia. }
  assert (Hw : Forall (fun c => is_whitespace c = false) (bytes s)).
  { eapply Forall_impl; [exact Hb|]. intros c Hc%hexdigit_bounds. unfold is_whitespace. lia. }
  assert (Ht : trim s = s).
  { unfold trim, trim_matches, trim_chars. rewrite Hd.
    rewrite (drop_while_none _ (bytes s)) by done. rewrite drop_while_none by (by apply Forall_reverse).
    rewrite reverse_involutive.
    by apply utf8_encode_decode in Hd as [Hd _]. }
  unfold without_0x. rewrite Ht. destruct (strip_prefix "0x" s) as [r|] eqn:E; [|done].
  apply strip_prefix_Some in E as ->. rewrite bytes_app in Hb. cbn in Hb.
  inversion Hb as [|? ? _ Hx]; subst. inversion Hx as [|? ? Hx' _]; subst. by apply hexdigit_bounds in Hx'.
Qed.

(** What the encryption returns is well-formed and opens with the secret of the key. *)
Definition sealed `{KeyDigest} `{NearPrimitives} (secret : list N) (plaintext : list N) (c : string) : Prop :=
  ciphertext_new c = Ok c /\ decrypt_hex secret c = Ok plaintext.

Section Sealed.
Context `{KD : KeyDigest} `{NP : NearPrimitives} `{NL : !NearLaws}.

Lemma fill_fills n g : fills g -> fills (fill_bytes n g).1.
Proof. done. Qed.

Lemma encrypt_hex_opens secret k m g g' c :
  fills g -> opens secret k -> encrypt_hex k m g = (g', Ok c) ->
  fills g' /\ decrypt_hex secret c = Ok m /\ forallb is_ascii_hexdigit (bytes c) = true.
Proof.
  intros Hg Ho. unfold encrypt_hex. destruct (_ >? _) eqn:Elen; [done|].
  rewrite M_bind_run. unfold lift, ed25519_public_to_x25519. rewrite Ho. cbn [ok_or].
  rewrite M_bind_run. unfold fill_bytes at 1. set (es := rng_bytes g (rng_calls g) 32).
  rewrite M_bind_run. destruct (derive_key _) as [key|e] eqn:Ek; [|done].
  rewrite M_bind_run. unfold fill_bytes. cbn [rng_bytes rng_calls]. set (nonce := rng_bytes g _ NONCE_BYTES).
  rewrite M_bind_run. destruct (aead_encrypt key nonce m) as [ct|] eqn:Ea; [|done]. cbn [ok_or]. intros [= <- <-].
  destruct (public_size es) as [Hp Hpb]. destruct (aead_size _ _ _ _ Ea) as [Hc Hcb].
  assert (Hn : length nonce = NONCE_BYTES /\ Forall byte nonce) by apply Hg. destruct Hn as [Hn Hnb].
  set (wire := x25519_public_key es ++ nonce ++ ct).
  assert (Hw : Forall byte wire) by (unfold wire; rewrite !Forall_app; done).
  assert (Hl : Z.of_nat (length wire) = MINIMUM_WIRE_BYTES + Z.of_nat (length m)).
  { unfold wire, MINIMUM_WIRE_BYTES, WIRE_PREFIX_BYTES. rewrite !length_app. unfold EPHEMERAL_PUBLIC_BYTES in *. lia. }
  split; [done|]. split; [|by apply hex_digits].
  unfold decrypt_hex. rewrite hex_length.
  assert (Z.of_nat (length wire) <= MAXIMUM_WIRE_BYTES) by lia.
  destruct (2 * _ >? _) eqn:E1; [lia|]. rewrite without_0x_hex by (by apply hex_digits).
  rewrite hex_decodes by done. cbn [ok_or mbind result_bind].
  destruct (negb _) eqn:E2; [lia|].
  replace (take EPHEMERAL_PUBLIC_BYTES wire) with (x25519_public_key es) by (unfold wire; by rewrite take_app_length').
  replace (take NONCE_BYTES (drop EPHEMERAL_PUBLIC_BYTES wire)) with nonce
    by (unfold wire; rewrite drop_app_length' by done; by rewrite take_app_length').
  replace (drop WIRE_PREFIX_BYTES wire) with ct.
  2:{ unfold wire. rewrite app_assoc. rewrite drop_app_length'; [done|]. rewrite length_app, Hp, Hn. done. }
  rewrite shared_agree, Ek. cbn [mbind result_bind]. by rewrite (aead_opens _ _ _ _ Ea).
Qed.

Lemma encrypt_seals secret k m g g' c :
  fills g -> opens secret k -> encrypt k m g = (g', Ok c) -> fills g' /\ sealed secret m c.
Proof.
  intros Hg Ho. unfold encrypt. rewrite M_bind_run.
  destruct (encrypt_hex k m g) as [g1 [w|e]] eqn:Ew; [|done]. cbn. unfold ciphertext_new.
  destruct (_ || _) eqn:E; [done|]. intros [= <- <-].
  destruct (encrypt_hex_opens _ _ _ _ _ _ Hg Ho Ew) as (Hg' & Hd & _). split; [done|]. split; [|done].
  unfold ciphertext_new. by rewrite E.
Qed.
End Sealed.
