(* ===== verification/NearWire.v ===== *)
(** Requests of the NEAR provider (crates/axiom-secure-client/src/providers/near/inference.rs,
    first part, with the request types of relay/dto.rs): the checks of a request, its
    encryption, and the bytes the provider hashes.

    The derived serializers write the fields of a struct in order without the absent
    ones; the writer of JSON text is the class [JsonWriter], told how to write floats. *)

From stdpp Require Import base gmap strings list.
From Stdlib Require Import ZArith QArith NArith Lia ZifyBool ZifyN ZifyNat.
From S2P Require Import Prelude RustStr Json ToolCalls Content Accounting Inference SecureError TrustPolicy Sse Lease NearCrypto.

Local Open Scope Z_scope.

(** ** The relay's requests (dto.rs) *)

Record EncryptedFunctionDefinition : Type := {
  ed_encrypted_name : string; ed_encrypted_description : option string;
  ed_encrypted_parameters : string; ed_strict : option bool
}.
Record EncryptedTool : Type := { ek_kind : string; ek_function : EncryptedFunctionDefinition }.
Record EncryptedNamedFunction : Type := { en_encrypted_name : string }.
Record EncryptedNamedToolChoice : Type := { ec_kind : string; ec_function : EncryptedNamedFunction }.
Inductive EncryptedToolChoice : Type :=
| ChoiceMode (mode : string)
| ChoiceSealed (c : EncryptedNamedToolChoice).
Record EncryptedFunctionCall : Type := { ef_encrypted_name : string; ef_encrypted_arguments : string }.
Record EncryptedToolCall : Type := { ecl_id : string; ecl_kind : string; ecl_function : EncryptedFunctionCall }.
Record EncryptedMessage : Type := {
  em_role : string;
  em_content : option string;
  em_reasoning_content : option string;
  em_name : option string;
  em_refusal : option string;
  em_tool_calls : option (list EncryptedToolCall);
  em_tool_call_id : option string
}.
Record RelayChatRequest : Type := {
  rr_client_request_id : option string;
  rr_provider_id : string;
  rr_inference_encryption : string;
  rr_model_id : string;
  rr_encryption_version : Z;
  rr_e2ee_protocol : string;
  rr_client_public_key_hex : string;
  rr_model_public_key_hex : string;
  rr_messages : list EncryptedMessage;
  rr_encrypt_all_fields : bool;
  rr_tools : option (list EncryptedTool);
  rr_tool_choice : option EncryptedToolChoice;
  rr_parallel_tool_calls : option bool;
  rr_stream : bool;
  rr_max_tokens : option Z;
  rr_sampling : option Value;
  rr_response_format : option Value;
  rr_reasoning_effort : option string;
  rr_thinking_mode : option ThinkingMode;
  rr_provider_e2ee_context : option Value;
  rr_attestation_generation : Z;
  rr_verified_key_fingerprint : string;
  rr_verified_keyset_digest : option string
}.

(** ** Floats as Python writes them *)

(** [ryu] and [f64::from_str]; [f64] has one zero here, of the sign this class tells. *)
Class FloatText : Type := {
  format_finite : f64 -> string;
  is_sign_negative : f64 -> bool;
  parse_f64 : string -> option f64
}.

(** [from_str] of the signed integers with the given maximum. *)
Definition parse_signed (maximum : Z) (s : string) : option Z :=
  match strip_prefix "-" s with
  | Some s => Z.opp <$> parse_digits (maximum + 1) s
  | None => parse_digits maximum (default s (strip_prefix "+" s))
  end.
Definition I32_MAX : Z := 2 ^ 31 - 1.

(** The place of the first character that satisfies a test. *)
Fixpoint position (p : N -> bool) (l : list N) : option nat :=
  match l with
  | [] => None
  | x :: l => if p x then Some O else S <$> position p l
  end.

Definition is_dot (c : N) : bool := (c =? 46)%N.
Definition is_exponent_mark (c : N) : bool := (c =? 101)%N || (c =? 69)%N.
Definition is_zero_digit (c : N) : bool := (c =? 48)%N.

(** [split_once(['e', 'E'])], with the exponent parsed. *)
Definition split_exponent (l : list N) : list N * option Z :=
  match position is_exponent_mark l with
  | Some n => (take n l, parse_signed I32_MAX (of_bytes (drop (S n) l)))
  | None => (l, None)
  end.

(** Trailing zeros, down to one digit. *)
Definition drop_last_zeros (l : list N) : list N :=
  match l with
  | [] => []
  | x :: l => x :: reverse (drop_while is_zero_digit (reverse l))
  end.

Definition zeros (n : Z) : list N := replicate (Z.to_nat n) 48%N.

(** The digits with the decimal point of Python's [repr]. *)
Definition python_digits (digits : list N) (exponent : Z) : list N :=
  if (exponent <? -4) || (16 <=? exponent) then
    take 1 digits ++ (if (1 <? length digits)%nat then 46%N :: drop 1 digits else [])
    ++ [101%N; if exponent <? 0 then 45%N else 43%N]
    ++ (if Z.abs exponent <? 10 then [48%N] else []) ++ bytes (to_decimal (Z.abs exponent))
  else if exponent <? 0 then
    bytes "0." ++ zeros (- exponent - 1) ++ digits
  else
    let integer_digits := exponent + 1 in
    if Z.of_nat (length digits) <=? integer_digits
    then digits ++ zeros (integer_digits - Z.of_nat (length digits)) ++ bytes ".0"
    else take (Z.to_nat integer_digits) digits ++ [46%N] ++ drop (Z.to_nat integer_digits) digits.

Definition python_text (rendered : string) : string :=
  let l := bytes rendered in
  let '(negative, unsigned) := match l with 45%N :: l => (true, l) | _ => (false, l) end in
  let '(mantissa, explicit_exponent) := split_exponent unsigned in
  let decimal_index := default (length mantissa) (position is_dot mantissa) in
  let digits := List.filter (fun c => negb (is_dot c)) mantissa in
  let first_nonzero := default O (position (fun c => negb (is_zero_digit c)) digits) in
  let exponent := default (Z.of_nat decimal_index - Z.of_nat first_nonzero - 1) explicit_exponent in
  of_bytes ((if negative then [45%N] else []) ++ python_digits (drop_last_zeros (drop first_nonzero digits)) exponent).

Section Floats.
Context `{FT : FloatText}.

Definition python_float_repr (value : f64) : string :=
  if f64_eq value 0 then (if is_sign_negative value then "-0.0" else "0.0") else
  python_text (format_finite value).

(** [PythonCompactUtf8Formatter::write_number_str]. *)
Definition write_number_str (value : string) : string :=
  if contains "." value || contains "e" value || contains "E" value then
    match parse_f64 value with
    | Some number => if is_finite number then python_float_repr number else value
    | None => value
    end
  else value.
End Floats.

Example python_floats :
  python_text <$> ["0.7"; "1e-5"; "1e16"; "1.5e300"; "-0.001"; "100.0"; "1.25"; "12345678.5"]
  = ["0.7"; "1e-05"; "1e+16"; "1.5e+300"; "-0.001"; "100.0"; "1.25"; "12345678.5"].
Proof. by vm_compute. Qed.

(** ** The bytes the provider hashes *)

(** [serde_json::Serializer::with_formatter], of a writer of floats. *)
Class JsonWriter : Type := { write_json : (f64 -> string) -> Value -> option (list N) }.

Record NearThinkingControl : Type := { nt_thinking : bool }.
Record NearUpstreamFunctionCall : Type := { nf_name : string; nf_arguments : string }.
Record NearUpstreamToolCall : Type := { nc_id : string; nc_kind : string; nc_function : NearUpstreamFunctionCall }.
Record NearUpstreamMessage : Type := {
  nm_role : string; nm_content : option (option string); nm_reasoning_content : option string;
  nm_name : option string; nm_refusal : option string; nm_tool_calls : option (list NearUpstreamToolCall);
  nm_tool_call_id : option string
}.
Record NearUpstreamFunctionDefinition : Type := {
  nd_name : string; nd_description : option string; nd_parameters : string; nd_strict : option bool
}.
Record NearUpstreamTool : Type := { nl_kind : string; nl_function : NearUpstreamFunctionDefinition }.
Inductive NearUpstreamToolChoice : Type :=
| UpstreamMode (mode : string)
| UpstreamNamed (kind name : string).
Record NearUpstreamRequest : Type := {
  nr_model : string; nr_messages : list NearUpstreamMessage; nr_stream : bool; nr_max_tokens : Z;
  nr_temperature : option f64; nr_top_p : option f64; nr_response_format : option Value;
  nr_reasoning_effort : option string; nr_chat_template_kwargs : option NearThinkingControl;
  nr_tools : option (list NearUpstreamTool); nr_tool_choice : option NearUpstreamToolChoice;
  nr_parallel_tool_calls : option bool
}.

(** A member that is left out when it is absent. *)
Definition member {A} (f : A -> Value) (name : string) (o : option A) : Map :=
  match o with Some a => [(name, f a)] | None => [] end.
Definition text_or_null (o : option string) : Value := match o with Some s => VString s | None => VNull end.

Definition call_value (c : NearUpstreamToolCall) : Value :=
  VObject [("id", VString (nc_id c)); ("type", VString (nc_kind c));
           ("function", VObject [("name", VString (nf_name (nc_function c)));
                                 ("arguments", VString (nf_arguments (nc_function c)))])].
Definition message_value (m : NearUpstreamMessage) : Value :=
  VObject (("role", VString (nm_role m))
    :: member text_or_null "content" (nm_content m)
    ++ member VString "reasoning_content" (nm_reasoning_content m)
    ++ member VString "name" (nm_name m)
    ++ member VString "refusal" (nm_refusal m)
    ++ member (fun l => VArray (call_value <$> l)) "tool_calls" (nm_tool_calls m)
    ++ member VString "tool_call_id" (nm_tool_call_id m)).
Definition definition_value (d : NearUpstreamFunctionDefinition) : Value :=
  VObject (("name", VString (nd_name d)) :: member VString "description" (nd_description d)
    ++ ("parameters", VString (nd_parameters d)) :: member VBool "strict" (nd_strict d)).
Definition tool_value (t : NearUpstreamTool) : Value :=
  VObject [("type", VString (nl_kind t)); ("function", definition_value (nl_function t))].
Definition choice_value (c : NearUpstreamToolChoice) : Value :=
  match c with
  | UpstreamMode mode => VString mode
  | UpstreamNamed kind name => VObject [("type", VString kind); ("function", VObject [("name", VString name)])]
  end.
Definition upstream_value (r : NearUpstreamRequest) : Value :=
  VObject ([("model", VString (nr_model r)); ("messages", VArray (message_value <$> nr_messages r));
            ("stream", VBool (nr_stream r)); ("max_tokens", VNumber (PosInt (nr_max_tokens r)))]
    ++ member (fun x => VNumber (Float x)) "temperature" (nr_temperature r)
    ++ member (fun x => VNumber (Float x)) "top_p" (nr_top_p r)
    ++ member (fun v => v) "response_format" (nr_response_format r)
    ++ member VString "reasoning_effort" (nr_reasoning_effort r)
    ++ member (fun t => VObject [("thinking", VBool (nt_thinking t))]) "chat_template_kwargs" (nr_chat_template_kwargs r)
    ++ member (fun l => VArray (tool_value <$> l)) "tools" (nr_tools r)
    ++ member choice_value "tool_choice" (nr_tool_choice r)
    ++ member VBool "parallel_tool_calls" (nr_parallel_tool_calls r)).

Definition invalid_request (detail : string) : SecureClientError := new_error InvalidRequest detail.

Definition is_fixed_json_object_format (v : Value) : bool :=
  match v with
  | VObject m => (length m =? 1)%nat && bool_decide (map_get "type" m ≫= as_str = Some "json_object")
  | _ => false
  end.

Definition public_response_format (f : ResponseFormat) : result SecureClientError (option Value) :=
  match f with
  | FormatText => Ok None
  | FormatJsonObject => Ok (Some (VObject [("type", VString "json_object")]))
  | FormatJsonSchema _ _ _ =>
    Err (invalid_request "JSON Schema response format is unavailable until its metadata is provider-E2EE")
  end.

Definition upstream_call (c : EncryptedToolCall) : NearUpstreamToolCall :=
  {| nc_id := ecl_id c; nc_kind := ecl_kind c;
     nc_function := {| nf_name := ef_encrypted_name (ecl_function c);
                       nf_arguments := ef_encrypted_arguments (ecl_function c) |} |}.
Definition upstream_message (m : EncryptedMessage) : NearUpstreamMessage :=
  {| nm_role := em_role m;
     nm_content := match em_content m with
                   | Some c => Some (Some c)
                   | None => if bool_decide (em_role m = "assistant") then Some None else None
                   end;
     nm_reasoning_content := em_reasoning_content m; nm_name := em_name m; nm_refusal := em_refusal m;
     nm_tool_calls := List.map upstream_call <$> em_tool_calls m; nm_tool_call_id := em_tool_call_id m |}.
Definition upstream_tool (t : EncryptedTool) : NearUpstreamTool :=
  {| nl_kind := ek_kind t;
     nl_function := {| nd_name := ed_encrypted_name (ek_function t);
                       nd_description := ed_encrypted_description (ek_function t);
                       nd_parameters := ed_encrypted_parameters (ek_function t);
                       nd_strict := ed_strict (ek_function t) |} |}.
Definition upstream_choice (c : EncryptedToolChoice) : NearUpstreamToolChoice :=
  match c with
  | ChoiceMode mode => UpstreamMode mode
  | ChoiceSealed c => UpstreamNamed (ec_kind c) (en_encrypted_name (ec_function c))
  end.

(** [Value::as_f64], without a conversion of large integers: the sampling parameters are
    floats. *)
Definition float_member (name : string) (o : option Value) : option f64 :=
  match o ≫= value_get name with Some (VNumber (Float x)) => Some x | _ => None end.

Definition upstream_request (m : ModelInfo) (relay : RelayChatRequest) : NearUpstreamRequest :=
  {| nr_model := mi_upstream_model m; nr_messages := upstream_message <$> rr_messages relay;
     nr_stream := rr_stream relay; nr_max_tokens := default (mi_max_output_tokens m) (rr_max_tokens relay);
     nr_temperature := float_member "temperature" (rr_sampling relay);
     nr_top_p := float_member "top_p" (rr_sampling relay);
     nr_response_format := rr_response_format relay;
     nr_reasoning_effort := (fun e => if bool_decide (e = "xhigh") then "max" else e) <$> rr_reasoning_effort relay;
     nr_chat_template_kwargs :=
       (fun mode => {| nt_thinking := bool_decide (mode = Enabled) |}) <$> rr_thinking_mode relay;
     nr_tools := List.map upstream_tool <$> rr_tools relay;
     nr_tool_choice := upstream_choice <$> rr_tool_choice relay;
     nr_parallel_tool_calls := rr_parallel_tool_calls relay |}.

(** ** The request *)

Definition role_name (r : ChatRole) : string :=
  match r with
  | System => "system" | Developer => "developer" | User => "user" | Assistant => "assistant" | Tool => "tool"
  end.

(** The punctuation ["_.:-"]. *)
Definition call_id_char (c : N) : bool :=
  is_ascii_alphanumeric c || (c =? 95)%N || (c =? 46)%N || (c =? 58)%N || (c =? 45)%N.
Definition near_call_id (id : string) : result SecureClientError unit :=
  if is_empty id || (chars_count id >? MAX_TOOL_CALL_ID_CHARS) || negb (forallb call_id_char (bytes id))
  then Err (invalid_request "tool call ID is invalid") else Ok tt.

Definition is_some {A} (o : option A) : bool := if o then true else false.

Definition validate_message_shape (m : ChatMessage) : result SecureClientError unit :=
  _ ← match role m with
      | System | Developer | User =>
        reject_if (is_some (reasoning_content m) || is_some (refusal m) || is_some (tool_call_id m)
                   || negb (bool_decide (tool_calls m = [])))
          (invalid_request "message fields do not match its role")
      | Assistant =>
        reject_if (is_some (tool_call_id m)
                   || (is_empty (content m) && negb (is_some (refusal m)) && bool_decide (tool_calls m = [])))
          (invalid_request "assistant message shape is invalid")
      | Tool =>
        reject_if (negb (is_some (tool_call_id m)) || is_some (reasoning_content m) || is_some (refusal m)
                   || is_some (name m) || negb (bool_decide (tool_calls m = [])))
          (invalid_request "tool message shape is invalid")
      end;
  if_some (tool_call_id m) near_call_id.

Definition INFERENCE_ENCRYPTION : string := "provider_e2ee_v2".

Section Requests.
Context `{KD : KeyDigest} `{NP : NearPrimitives} `{JW : JsonWriter} `{FT : FloatText}.
Context `{SJ : SerdeJson} `{JT : JsonText} `{B64 : Base64}.

Definition near_upstream_request_bytes (m : ModelInfo) (relay : RelayChatRequest)
    : result SecureClientError (list N) :=
  if match rr_response_format relay with Some v => negb (is_fixed_json_object_format v) | None => false end
  then Err (invalid_request "schema-bearing response formats cannot cross the provider-E2EE boundary") else
  ok_or (write_json python_float_repr (upstream_value (upstream_request m relay)))
    (invalid_request "NEAR upstream request could not be serialized").

(** The parts of a message with images, as one JSON array. *)
Definition image_part (i : ImageContent) : Value :=
  VObject [("image_url", VObject [("url", VString (image_data_url i))]); ("type", VString "image_url")].
Definition content_text (m : ChatMessage) : result SecureClientError string :=
  if bool_decide (images m = []) then Ok (content m) else
  map_err (fun _ => invalid_request "invalid image content")
    (json_to_string (VArray (VObject [("text", VString (content m)); ("type", VString "text")]
                             :: (image_part <$> images m)))).

Definition encrypt_call (k : Ed25519PublicKey) (c : ToolCall) : Drawing EncryptedToolCall :=
  _ ← lift (near_call_id (ToolCalls.id c));
  n ← encrypt k (bytes (fc_name (function c)));
  a ← encrypt k (bytes (arguments (function c)));
  mret {| ecl_id := ToolCalls.id c; ecl_kind := "function";
          ecl_function := {| ef_encrypted_name := n; ef_encrypted_arguments := a |} |}.

Fixpoint encrypt_calls (k : Ed25519PublicKey) (l : list ToolCall) : Drawing (list EncryptedToolCall) :=
  match l with
  | [] => mret []
  | c :: l => c ← encrypt_call k c; l ← encrypt_calls k l; mret (c :: l)
  end.

Definition encrypt_message (k : Ed25519PublicKey) (m : ChatMessage) : Drawing EncryptedMessage :=
  _ ← lift (validate_message_shape m);
  let required_content := negb (bool_decide (role m = Assistant)) in
  text ← lift (content_text m);
  c ← (if required_content || negb (is_empty text)
       then c ← encrypt k (bytes text); mret (Some c) else mret None);
  calls ← (if bool_decide (tool_calls m = []) then mret None
           else l ← encrypt_calls k (tool_calls m); mret (Some l));
  reasoning ← encrypt_optional k (reasoning_content m);
  n ← encrypt_optional k (name m);
  r ← encrypt_optional k (refusal m);
  mret {| em_role := role_name (role m); em_content := c; em_reasoning_content := reasoning; em_name := n;
          em_refusal := r; em_tool_calls := calls; em_tool_call_id := tool_call_id m |}.

Fixpoint encrypt_messages (k : Ed25519PublicKey) (l : list ChatMessage) : Drawing (list EncryptedMessage) :=
  match l with
  | [] => mret []
  | m :: l => m ← encrypt_message k m; l ← encrypt_messages k l; mret (m :: l)
  end.

Definition encrypt_tool (k : Ed25519PublicKey) (t : ToolDefinition) : Drawing EncryptedTool :=
  ps ← lift (ok_or (to_vec (parameters (td_function t)))
               (invalid_request "tool parameters are not serializable"));
  n ← encrypt k (bytes (fd_name (td_function t)));
  d ← encrypt k (bytes (description (td_function t)));
  p ← encrypt k (bytes ps);
  mret {| ek_kind := "function";
          ek_function := {| ed_encrypted_name := n; ed_encrypted_description := Some d;
                            ed_encrypted_parameters := p; ed_strict := strict (td_function t) |} |}.

Fixpoint encrypt_tools (k : Ed25519PublicKey) (l : list ToolDefinition) : Drawing (list EncryptedTool) :=
  match l with
  | [] => mret []
  | t :: l => t ← encrypt_tool k t; l ← encrypt_tools k l; mret (t :: l)
  end.

Definition encrypt_choice (k : Ed25519PublicKey) (c : ToolChoice) (tools : option (list EncryptedTool))
    : Drawing (option EncryptedToolChoice) :=
  match c with
  | ChoiceAuto => mret ((fun _ => ChoiceMode "auto") <$> tools)
  | ChoiceNone => mret (Some (ChoiceMode "none"))
  | ChoiceRequired => mret (Some (ChoiceMode "required"))
  | ChoiceNamed n =>
    c ← encrypt k (bytes n);
    mret (Some (ChoiceSealed {| ec_kind := "function"; ec_function := {| en_encrypted_name := c |} |}))
  end.

Definition sampling_value (s : SamplingParameters) : option Value :=
  if is_some (temperature s) || is_some (top_p s)
  then Some (VObject (member (fun x => VNumber (Float x)) "temperature" (temperature s)
                      ++ member (fun x => VNumber (Float x)) "top_p" (top_p s)))
  else None.

(** What [build_request] refuses before anything is encrypted. *)
Definition check_request (m : ModelInfo) (r : InferenceRequest) (stream : bool)
    : result SecureClientError (option Value) :=
  _ ← map_err (fun _ => invalid_request "inference request validation failed") (request_validate r);
  format ← public_response_format (response_format r);
  _ ← reject_if (existsb (fun x => (negb (mi_supports_images m) && negb (bool_decide (images x = [])))
                                   || negb (bool_decide (files x = []))) (messages r))
        (invalid_request "this NEAR model does not support the attached file format");
  _ ← reject_if (negb (bool_decide (Inference.model r = mi_id m)))
        (invalid_request "request model does not match verified session");
  _ ← reject_if (negb (bool_decide (thinking_mode r = ProviderDefault))
                 && negb (bool_decide (thinking_mode r ∈ mi_thinking_modes m)))
        (invalid_request "thinking mode is not supported by the model");
  _ ← reject_if (bool_decide (reasoning_effort r = Minimal)
                 || (negb (bool_decide (mi_reasoning_efforts m = []))
                     && negb (bool_decide (reasoning_effort r ∈ mi_reasoning_efforts m))))
        (invalid_request "reasoning effort is not supported by the model");
  let no_tools := bool_decide (length (tools r) = O) in
  _ ← reject_if (negb no_tools && negb (mi_supports_tools m)) (invalid_request "model does not support tools");
  _ ← reject_if (no_tools && match tool_choice r with ChoiceAuto | ChoiceNone => false | _ => true end)
        (invalid_request "tool choice requires at least one tool");
  _ ← reject_if (match tool_choice r with
                 | ChoiceNamed n => negb (existsb (fun t => bool_decide (fd_name (td_function t) = n)) (tools r))
                 | _ => false
                 end) (invalid_request "named tool choice is not defined");
  _ ← reject_if (is_some (parallel_tool_calls r) && negb (mi_supports_parallel_tools m))
        (invalid_request "model does not support parallel tools");
  _ ← reject_if (is_some (parallel_tool_calls r) && no_tools)
        (invalid_request "parallel tool calls require tools");
  _ ← reject_if (match max_output_tokens r with Some n => n >? mi_max_output_tokens m | None => false end)
        (invalid_request "output limit exceeds the model capability");
  _ ← reject_if (stream && negb (mi_supports_streaming m)) (invalid_request "model does not support streaming");
  Ok format.

Definition with_context (o : option Value) (r : RelayChatRequest) : RelayChatRequest :=
  {| rr_client_request_id := rr_client_request_id r; rr_provider_id := rr_provider_id r;
     rr_inference_encryption := rr_inference_encryption r; rr_model_id := rr_model_id r;
     rr_encryption_version := rr_encryption_version r; rr_e2ee_protocol := rr_e2ee_protocol r;
     rr_client_public_key_hex := rr_client_public_key_hex r; rr_model_public_key_hex := rr_model_public_key_hex r;
     rr_messages := rr_messages r; rr_encrypt_all_fields := rr_encrypt_all_fields r; rr_tools := rr_tools r;
     rr_tool_choice := rr_tool_choice r; rr_parallel_tool_calls := rr_parallel_tool_calls r;
     rr_stream := rr_stream r; rr_max_tokens := rr_max_tokens r; rr_sampling := rr_sampling r;
     rr_response_format := rr_response_format r; rr_reasoning_effort := rr_reasoning_effort r;
     rr_thinking_mode := rr_thinking_mode r; rr_provider_e2ee_context := o;
     rr_attestation_generation := rr_attestation_generation r;
     rr_verified_key_fingerprint := rr_verified_key_fingerprint r;
     rr_verified_keyset_digest := rr_verified_keyset_digest r |}.

(** The request, the identity that opens its answer, and the hash of its upstream form. *)
Definition build_request (m : ModelInfo) (k : Ed25519PublicKey) (response_signing_address : string)
    (b : AttestationBinding) (r : InferenceRequest) (stream : bool)
    : Drawing (ClientIdentity * RelayChatRequest * string) :=
  format ← lift (check_request m r stream);
  identity ← generate_identity;
  sealed_messages ← encrypt_messages k (messages r);
  sealed_tools ← (if bool_decide (length (tools r) = O) then mret None
                  else l ← encrypt_tools k (tools r); mret (Some l));
  choice ← encrypt_choice k (tool_choice r) sealed_tools;
  let relay :=
    {| rr_client_request_id := request_id r; rr_provider_id := mi_provider_id m;
       rr_inference_encryption := INFERENCE_ENCRYPTION; rr_model_id := mi_id m;
       rr_encryption_version := mi_e2ee_encryption_version m; rr_e2ee_protocol := mi_e2ee_protocol m;
       rr_client_public_key_hex := public_key_hex identity; rr_model_public_key_hex := to_hex k;
       rr_messages := sealed_messages; rr_encrypt_all_fields := true; rr_tools := sealed_tools;
       rr_tool_choice := choice; rr_parallel_tool_calls := parallel_tool_calls r; rr_stream := stream;
       rr_max_tokens := Some (default (mi_max_output_tokens m) (max_output_tokens r));
       rr_sampling := sampling_value (sampling r); rr_response_format := format;
       rr_reasoning_effort := if bool_decide (mi_reasoning_efforts m = []) then None
                              else Some (effort_as_str (reasoning_effort r));
       rr_thinking_mode := if bool_decide (thinking_mode r = ProviderDefault) then None
                           else Some (thinking_mode r);
       rr_provider_e2ee_context := None; rr_attestation_generation := generation b;
       rr_verified_key_fingerprint := Lease.model_key_fingerprint b;
       rr_verified_keyset_digest := keyset_digest b |} in
  request_body ← lift (near_upstream_request_bytes m relay);
  let request_hash := sha256_hex request_body in
  mret (identity,
        with_context (Some (VObject [("request_body_hash", VString request_hash);
                                     ("response_signing_address", VString response_signing_address)])) relay,
        request_hash).
End Requests.
