(* ===== verification/Relay.v ===== *)
(** HTTP calls to the relay (crates/axiom-secure-client/src/relay/client.rs, with
    [relay_endpoint] of catalog.rs).

    The network is the state: it keeps the requests that were sent, and has the answers
    to come.  A call that is cancelled while it waits is one of the answers; whether the
    call is already cancelled when it begins is an argument. *)

From stdpp Require Import base gmap strings list.
From Stdlib Require Import ZArith NArith Lia ZifyBool ZifyN ZifyNat.
From S2P Require Import Prelude RustStr Json ToolCalls Accounting AppError Inference SecureError TrustPolicy Sse Endpoint Lease NearCrypto NearWire.

Local Open Scope Z_scope.

(** ** Completions (dto.rs) *)

Record RelayCompletion : Type := {
  rc_id : string;
  rc_model : option string;
  rc_content : option string;
  rc_reasoning_content : option string;
  rc_refusal : option string;
  rc_tool_calls : list EncryptedToolCall;
  rc_finish_reason : string;
  rc_usage : RelayUsage;
  rc_proof : option Value
}.

(** ** The network *)

Record HttpRequest : Type := {
  hq_post : bool;                       (** [POST], else [GET] *)
  hq_client : Endpoint.Client;
  hq_url : string;
  hq_accept : string;
  hq_bearer : string;
  hq_body : option (list N)
}.
(** The body of a response arrives in chunks, unless the call is cancelled meanwhile. *)
Record HttpBody : Type := {
  hb_content_length : option Z; hb_chunks : list (option (list N)); hb_cancelled : bool
}.
Inductive HttpOutcome : Type :=
| Responds (status : Z) (body : HttpBody)
| FailsToSend
| SendCancelled
| SendTimesOut.

Record Network : Type := { nw_sent : list HttpRequest; nw_answers : nat -> HttpOutcome }.

Abbreviation Calling := (M Network SecureClientError).

Definition call (r : HttpRequest) : Calling HttpOutcome := fun w =>
  ({| nw_sent := nw_sent w ++ [r]; nw_answers := nw_answers w |}, Ok (nw_answers w (length (nw_sent w)))).

(** ** Configuration *)

Record RelayConfig `{UrlLib} : Type := {
  cf_relay_base_url : Url;
  cf_endpoint_policy : EndpointPolicy;
  cf_limits : SecureClientLimits;
  cf_attestation_timeout : Z;
  cf_verified_session_ttl : Z;
  cf_accept_outdated_near_tcb : bool;
  cf_credential : string;
  cf_environment : Environment;
  cf_ca_file : option CaFile;
  cf_ca_valid : list N -> bool
}.

(** Text forms the client relies on: of URLs and of JSON bodies. *)
Class RelayHttp `{UrlLib} : Type := {
  extend_pairs : Url -> list (string * string) -> Url;
  request_to_vec : RelayChatRequest -> option (list N);
  completion_from_slice : list N -> option RelayCompletion;
  envelope_from_slice : list N -> option PublicErrorEnvelope
}.

Section Relay.
Context `{U : UrlLib} `{UO : !UrlOrigin} `{RH : !RelayHttp}.
Implicit Types (cfg : RelayConfig).

Definition relay_endpoint (base : Url) (path : string) : result SecureClientError Url :=
  map_err (fun _ => configuration_error "relay endpoint is invalid")
    (url_parse (trim_end_byte 47 (url_to_string base) +:+ path)).

Definition relay_client_for cfg (url : Url) (timeout : option Z) : result SecureClientError Endpoint.Client :=
  relay_client (cf_environment cfg) (cf_relay_base_url cfg) (cf_endpoint_policy cfg) (cf_ca_file cfg)
    (cf_ca_valid cfg) url timeout.

Definition read_bounded (limit : Z) (b : HttpBody) : result SecureClientError (list N) :=
  bounded_body (hb_content_length b) limit (hb_chunks b).

(** [unwrap_or_default]: a body that cannot be read says nothing. *)
Definition error_for_response cfg (status : Z) (b : HttpBody) : SecureClientError :=
  let body := match read_bounded (relay_error_bytes (cf_limits cfg)) b with Ok body => body | Err _ => [] end in
  error_for_status_body status (envelope_from_slice body).

(** [serialize_bounded] of dto.rs. *)
Definition serialize_bounded (r : RelayChatRequest) (limit : Z) : result SecureClientError (list N) :=
  bs ← ok_or (request_to_vec r) (new_error InvalidRequest "relay request could not be serialized");
  if Z.of_nat (length bs) >? limit
  then Err (new_error InvalidRequest "relay request exceeds the configured limit") else Ok bs.

Definition send cfg (cancelled : bool) (r : RelayChatRequest) : Calling HttpBody :=
  if cancelled then throw cancelled_error else
  endpoint ← lift (relay_endpoint (cf_relay_base_url cfg) "/api/v1/relay/chat/completions");
  client ← lift (relay_client_for cfg endpoint (if rr_stream r then None else Some 360000));
  body ← lift (serialize_bounded r (serialized_relay_request_bytes (cf_limits cfg)));
  answer ← call {| hq_post := true; hq_client := client; hq_url := url_to_string endpoint;
                   hq_accept := if rr_stream r then "text/event-stream" else "application/json";
                   hq_bearer := cf_credential cfg; hq_body := Some body |};
  match answer with
  | SendTimesOut => throw (with_code Transient CStreamTimeout "Timed out starting the encrypted request." true)
  | SendCancelled => throw cancelled_error
  | FailsToSend => throw (new_error Transient "relay request failed")
  | Responds status b => if negb (status =? 200) then throw (error_for_response cfg status b) else mret b
  end.

Definition complete cfg (cancelled : bool) (r : RelayChatRequest) : Calling RelayCompletion :=
  response ← send cfg cancelled r;
  if hb_cancelled response then throw cancelled_error else
  body ← lift (map_err (fun e =>
           if bool_decide (safe_detail e = "remote response exceeds the configured limit")
           then with_code InvalidResponse CResponseTooLarge "Response exceeded the allowed size." false
           else with_code Transient CProviderDisconnected "The provider connection was interrupted." true)
         (read_bounded (relay_response_bytes (cf_limits cfg)) response));
  lift (ok_or (completion_from_slice body) (new_error InvalidResponse "relay completion schema is invalid")).

Definition get_body cfg (cancelled : bool) (path : string) (query : list (string * string)) (body_limit : Z)
    : Calling (list N) :=
  if cancelled then throw cancelled_error else
  endpoint ← lift (relay_endpoint (cf_relay_base_url cfg) path);
  let endpoint := extend_pairs endpoint query in
  client ← lift (relay_client_for cfg endpoint (Some (cf_attestation_timeout cfg)));
  answer ← call {| hq_post := false; hq_client := client; hq_url := url_to_string endpoint;
                   hq_accept := "application/json"; hq_bearer := cf_credential cfg; hq_body := None |};
  match answer with
  | SendCancelled => throw cancelled_error
  | FailsToSend | SendTimesOut => throw (new_error AttestationUnavailable "provider evidence request failed")
  | Responds status b =>
    if negb (status =? 200) then throw (error_for_response cfg status b)
    else lift (read_bounded body_limit b)
  end.

Definition get_json {T} (decode : list N -> option T) cfg (cancelled : bool) (path : string)
    (query : list (string * string)) (body_limit : Z) : Calling T :=
  body ← get_body cfg cancelled path query body_limit;
  lift (ok_or (decode body) (new_error InvalidResponse "provider evidence schema is invalid")).

Definition provider_attestation_report {T} (decode : list N -> option T) cfg (cancelled : bool)
    (model_id nonce protocol : string) (version : Z) (profile : string) : Calling T :=
  get_json decode cfg cancelled "/api/v1/provider/attestation/report"
    [("model_id", model_id); ("nonce", nonce); ("e2ee_protocol", protocol);
     ("encryption_version", to_decimal version); ("attestation_protocol", profile);
     ("allow_outdated_tcb",
      if bool_decide (protocol = "near-v3") && accepts_outdated_tcb (cf_accept_outdated_near_tcb cfg) "near"
      then "true" else "false")]
    (attestation_report_bytes (cf_limits cfg)).

Definition signed_trust_policy cfg (cancelled : bool) : Calling (list N) :=
  get_body cfg cancelled "/api/v1/relay/trust-policy" [] (trust_policy_bytes (cf_limits cfg)).
End Relay.
