(* ===== verification/NearStream.v ===== *)
(** Answers of the NEAR provider (crates/axiom-secure-client/src/providers/near/inference.rs,
    second part): signed receipts, the transcript a receipt covers, and the stream the
    relay sends meanwhile.

    The relay is not trusted: what it sends is shown as provisional text, and is accepted
    when it equals the transcript the attested worker signed. *)

From stdpp Require Import base gmap strings list.
From Stdlib Require Import ZArith QArith Qround NArith Lia ZifyBool ZifyN ZifyNat.
From S2P Require Import Prelude RustStr Json ToolCalls Content Accounting AppError Inference SecureError TrustPolicy Sse Endpoint Lease NearCrypto NearWire Relay.

Local Open Scope Z_scope.

(** ** Receipts *)

Record NearCompletionProof : Type := {
  np_provider : string; np_protocol : string; np_chat_id : string; np_model : string;
  np_request_hash : string; np_response_hash : string; np_response_body_base64 : string;
  np_signed_text : string; np_signature : string; np_signing_address : string
}.

Definition PROVIDER_ID : string := "near".
Definition E2EE_PROTOCOL : string := "near-v3".
Definition NEAR_RECEIPT_RAW_RESPONSE_BYTES : Z := 32 * 1024 * 1024.
Definition MAX_PLAINTEXT_STREAM_BYTES : Z := MAX_MESSAGE_TEXT_BYTES.

(** ** What the provider wrote (the structs that are only deserialized) *)

Record RawNearFunctionCall : Type := { wf_name : string; wf_arguments : string }.
Record RawNearToolCall : Type := { wt_id : string; wt_kind : string; wt_function : RawNearFunctionCall }.
Record RawNearMessage : Type := {
  wm_content : option string; wm_reasoning_content : option string; wm_refusal : option string;
  wm_tool_calls : list RawNearToolCall
}.
Record RawNearCompletionChoice : Type := { wc_message : RawNearMessage; wc_finish_reason : option string }.
Record RawNearCompletion : Type := {
  wn_id : string; wn_model : option string; wn_choices : list RawNearCompletionChoice; wn_usage : option Value
}.
Record RawNearFunctionCallDelta : Type := { wd_name : option string; wd_arguments : option string }.
Record RawNearToolCallDelta : Type := {
  wx_index : Z; wx_id : option string; wx_kind : option string; wx_function : option RawNearFunctionCallDelta
}.
Record RawNearStreamDelta : Type := {
  ws_content : option string; ws_reasoning_content : option string; ws_refusal : option string;
  ws_tool_calls : option (list RawNearToolCallDelta)
}.
Record RawNearStreamChoice : Type := {
  wh_delta : RawNearStreamDelta; wh_text : option string; wh_finish_reason : option string
}.
Record RawNearStreamChunk : Type := {
  wk_id : option string; wk_model : option string; wk_choices : list RawNearStreamChoice; wk_usage : option Value
}.
Definition default_choice : RawNearStreamChoice :=
  {| wh_delta := {| ws_content := None; ws_reasoning_content := None; ws_refusal := None; ws_tool_calls := None |};
     wh_text := None; wh_finish_reason := None |}.

(** The derived deserializers. *)
Class NearCodec : Type := {
  proof_from_value : Value -> option NearCompletionProof;
  raw_completion_from_slice : list N -> option RawNearCompletion;
  chunk_from_str : string -> option RawNearStreamChunk
}.

Definition invalid (detail : string) : SecureClientError := new_error InvalidResponse detail.

#[export] Instance Usage_eq_dec : EqDecision Usage.
Proof. solve_decision. Defined.
#[export] Instance AssistantTurn_eq_dec : EqDecision AssistantTurn.
Proof. solve_decision. Defined.
#[export] Instance InferenceResponse_eq_dec : EqDecision InferenceResponse.
Proof. solve_decision. Defined.

(** ** Small checks *)

Definition canonical_hash (value : string) : bool :=
  (len value =? 64) && forallb (fun b => is_ascii_hexdigit b && negb (is_ascii_uppercase b)) (bytes value).

Definition validate_run_id (value : string) : result SecureClientError unit :=
  if is_empty value || (len value >? 256) || existsb is_control (chars value)
  then Err (invalid "relay run ID is invalid") else Ok tt.

Definition parse_finish_reason (value : string) : result SecureClientError FinishReason :=
  if bool_decide (value = "stop") then Ok Stop
  else if bool_decide (value = "length") then Ok Length
  else if bool_decide (value = "tool_calls") then Ok ToolCalls
  else if bool_decide (value = "content_filter") then Ok ContentFilter
  else Err (invalid "relay finish reason is invalid").

Definition validate_finish_shape (reason : FinishReason) (calls : list ToolCall) : result SecureClientError unit :=
  if negb (Bool.eqb (bool_decide (reason = ToolCalls)) (negb (bool_decide (calls = []))))
  then Err (invalid "relay finish reason conflicts with tool calls") else Ok tt.

Definition optional_ciphertext (value : option string) : result SecureClientError (option string) :=
  match value with
  | Some value => if is_empty value then Ok None else Some <$> ciphertext_new value
  | None => Ok None
  end.
Definition required_ciphertext (value detail : string) : result SecureClientError string :=
  if is_empty value then Err (invalid detail) else map_err (fun _ => invalid detail) (ciphertext_new value).

(** ** Token counts *)

Definition I128_MAX : Z := 2 ^ 127 - 1.

Definition token_value (v : Value) : option Z :=
  match v with
  | VNumber (PosInt n) => Some n
  | VNumber (NegInt n) => Some (Z.max n 0)
  | VNumber (Float (Finite q)) => Some (Z.min (Qfloor (if Qle_bool q 0 then 0 else q)) U64_MAX)
  | VString s => (fun n => Z.min (Z.max n 0) U64_MAX) <$> parse_signed I128_MAX s
  | _ => None
  end.

Fixpoint find_token (o : option Map) (names : list string) : option Z :=
  match names with
  | [] => None
  | n :: names =>
    match (m ← o; v ← map_get n m; token_value v) with
    | Some t => Some t
    | None => find_token o names
    end
  end.
Fixpoint find_details (o : option Map) (names : list string) : option Z :=
  match names with
  | [] => None
  | n :: names =>
    match (m ← o; v ← map_get n m; d ← as_object v; t ← map_get "cached_tokens" d; token_value t) with
    | Some t => Some t
    | None => find_details o names
    end
  end.

Definition provider_usage (v : option Value) : RelayUsage :=
  let object := v ≫= as_object in
  let prompt_tokens := find_token object ["prompt_tokens"; "input_tokens"] in
  let cached := match find_token object ["cached_prompt_tokens"] with
                | Some t => Some t
                | None => find_details object ["prompt_tokens_details"; "input_tokens_details"]
                end in
  {| ru_prompt_tokens := prompt_tokens;
     ru_completion_tokens := find_token object ["completion_tokens"; "output_tokens"];
     ru_total_tokens := find_token object ["total_tokens"];
     ru_cached_prompt_tokens := (fun c => match prompt_tokens with Some p => Z.min c p | None => c end) <$> cached |}.

Definition normalize_usage (u : RelayUsage) : result SecureClientError Usage :=
  let input_tokens := default 0 (ru_prompt_tokens u) in
  let output_tokens := default 0 (ru_completion_tokens u) in
  if match ru_cached_prompt_tokens u with
     | Some cached => match ru_prompt_tokens u with Some prompt => cached >? prompt | None => true end
     | None => false
     end
  then Err (invalid "relay cached-token usage is inconsistent") else
  Ok {| u_input_tokens := input_tokens; u_output_tokens := output_tokens;
        u_total_tokens := default (saturating_add input_tokens output_tokens) (ru_total_tokens u) |}.

Definition json_value_is_truthy (v : Value) : bool :=
  match v with
  | VNull => false
  | VBool b => b
  | VNumber (PosInt n) | VNumber (NegInt n) => negb (n =? 0)
  | VNumber (Float x) => negb (f64_eq x 0)
  | VString s => negb (is_empty s)
  | VArray l => negb (bool_decide (length l = O))
  | VObject m => negb (bool_decide (length m = O))
  end.

Definition append_bounded (target fragment : string) : result SecureClientError string :=
  if saturating_add (len target) (len fragment) >? MAX_PLAINTEXT_STREAM_BYTES
  then Err (invalid "decrypted relay stream exceeds the configured limit") else Ok (target +:+ fragment).

(** ** Receipts are verified *)

Section Answers.
Context `{KD : KeyDigest} `{NP : NearPrimitives} `{PC : PolicyCrypto} `{NC : NearCodec} `{B64 : Base64} `{SJ : SerdeJson}.

Definition verify_ed25519_signature (signed_text encoded_signature expected_address : string)
    : result SecureClientError unit :=
  if (len signed_text >? 1024) || negb (canonical_hash expected_address) || negb (len encoded_signature =? 128)
     || negb (forallb (fun b => is_ascii_hexdigit b && negb (is_ascii_uppercase b)) (bytes encoded_signature))
  then Err (invalid "NEAR completion signature encoding is invalid") else
  key_bytes ← ok_or (Lease.hex_decode expected_address) (invalid "NEAR receipt key is invalid");
  if negb (length key_bytes =? 32)%nat then Err (invalid "NEAR receipt key is invalid") else
  key ← ok_or (key_from_bytes key_bytes) (invalid "NEAR receipt key is invalid");
  signature_bytes ← ok_or (Lease.hex_decode encoded_signature) (invalid "NEAR receipt signature is invalid");
  signature ← ok_or (signature_from_slice signature_bytes) (invalid "NEAR receipt signature is invalid");
  if verify_strict key signed_text signature then Ok tt
  else Err (invalid "NEAR completion signature does not match attestation").

Definition receipt_unbound (p : NearCompletionProof) (request_hash signing_address model : string) : bool :=
  is_empty (np_chat_id p) || (len (np_chat_id p) >? 256) || existsb is_control (chars (np_chat_id p))
  || negb (bool_decide (np_model p = model))
  || negb (canonical_hash (np_request_hash p)) || negb (canonical_hash (np_response_hash p))
  || negb (bool_decide (np_request_hash p = request_hash))
  || negb (canonical_hash (np_signing_address p))
  || negb (bool_decide (np_signing_address p = signing_address)).

(** [div_ceil(3)], times four. *)
Definition maximum_encoded : Z := (NEAR_RECEIPT_RAW_RESPONSE_BYTES + 2) / 3 * 4.

Definition signed_text_of (p : NearCompletionProof) : string :=
  np_model p +:+ ":" +:+ np_request_hash p +:+ ":" +:+ np_response_hash p.

Definition verify_near_proof (value : Value) (request_hash signing_address model : string)
    : result SecureClientError (NearCompletionProof * list N) :=
  p ← ok_or (proof_from_value value) (invalid "NEAR completion receipt schema is invalid");
  if negb (bool_decide (np_provider p = PROVIDER_ID)) || negb (bool_decide (np_protocol p = E2EE_PROTOCOL))
  then Err (invalid "NEAR completion receipt protocol is invalid") else
  if receipt_unbound p request_hash signing_address model
  then Err (invalid "NEAR completion receipt binding is invalid") else
  if len (np_response_body_base64 p) >? maximum_encoded
  then Err (invalid "NEAR completion receipt response exceeds its bound") else
  raw_body ← ok_or (b64_decode (np_response_body_base64 p))
               (invalid "NEAR completion receipt response encoding is invalid");
  if (length raw_body =? 0)%nat || (Z.of_nat (length raw_body) >? NEAR_RECEIPT_RAW_RESPONSE_BYTES)
  then Err (invalid "NEAR completion receipt response exceeds its bound") else
  if negb (bool_decide (sha256_hex raw_body = np_response_hash p))
  then Err (invalid "NEAR completion receipt response hash is invalid") else
  if negb (bool_decide (np_signed_text p = signed_text_of p))
  then Err (invalid "NEAR completion receipt signed text is invalid") else
  _ ← verify_ed25519_signature (np_signed_text p) (np_signature p) (np_signing_address p);
  Ok (p, raw_body).

(** ** Completions *)

Definition validate_tool_arguments (arguments : string) : result SecureClientError unit :=
  match json_from_str arguments with
  | Some _ => Ok tt
  | None => Err (invalid "decrypted tool arguments are not valid JSON")
  end.

(** The calls of a finished response are checked again, one after the other. *)
Definition check_call (c : ToolCall) : result SecureClientError unit :=
  _ ← near_call_id (ToolCalls.id c); validate_tool_arguments (arguments (function c)).

Definition decrypt_optional (i : ClientIdentity) (o : option string) : result SecureClientError (option string) :=
  match o with Some c => Some <$> decrypt i c | None => Ok None end.

Fixpoint decrypt_calls_from (i : ClientIdentity) (seen : list string) (l : list EncryptedToolCall)
    : result SecureClientError (list ToolCall) :=
  match l with
  | [] => Ok []
  | c :: l =>
    _ ← near_call_id (ecl_id c);
    if negb (bool_decide (ecl_kind c = "function")) || bool_decide (ecl_id c ∈ seen)
    then Err (invalid "relay tool call metadata is invalid") else
    n ← decrypt i (ef_encrypted_name (ecl_function c));
    a ← decrypt i (ef_encrypted_arguments (ecl_function c));
    _ ← validate_tool_arguments a;
    calls ← decrypt_calls_from i (ecl_id c :: seen) l;
    Ok ({| ToolCalls.id := ecl_id c; tc_kind := ecl_kind c; function := {| fc_name := n; arguments := a |} |} :: calls)
  end.
Definition decrypt_tool_calls (i : ClientIdentity) (l : list EncryptedToolCall)
    : result SecureClientError (list ToolCall) :=
  if Z.of_nat (length l) >? MAX_TOOL_CALLS then Err (invalid "relay returned too many tool calls")
  else decrypt_calls_from i [] l.

Definition decrypt_relay_completion (m : ModelInfo) (i : ClientIdentity) (c : RelayCompletion)
    : result SecureClientError InferenceResponse :=
  _ ← validate_run_id (rc_id c);
  if match rc_model c with
     | Some v => negb (bool_decide (v = mi_upstream_model m)) && negb (bool_decide (v = mi_id m))
     | None => false
     end
  then Err (invalid "relay response model does not match verified session") else
  text ← decrypt_optional i (rc_content c);
  let text := default EmptyString text in
  reasoning ← decrypt_optional i (rc_reasoning_content c);
  r ← decrypt_optional i (rc_refusal c);
  calls ← decrypt_tool_calls i (rc_tool_calls c);
  if is_empty text && match reasoning with Some s => is_empty s | None => true end
     && negb (is_some r) && bool_decide (calls = [])
  then Err (invalid "relay completion has no usable output") else
  finish_reason ← parse_finish_reason (rc_finish_reason c);
  _ ← validate_finish_shape finish_reason calls;
  u ← normalize_usage (rc_usage c);
  Ok {| assistant := {| at_text := text; at_reasoning := None; at_tool_calls := calls |};
        ir_reasoning := reasoning; ir_refusal := r; ir_usage := u; ir_finish_reason := Some finish_reason |}.

Definition raw_call (c : RawNearToolCall) : result SecureClientError EncryptedToolCall :=
  n ← required_ciphertext (wf_name (wt_function c)) "signed NEAR tool name is invalid";
  a ← required_ciphertext (wf_arguments (wt_function c)) "signed NEAR tool arguments are invalid";
  Ok {| ecl_id := wt_id c; ecl_kind := wt_kind c;
        ecl_function := {| ef_encrypted_name := n; ef_encrypted_arguments := a |} |}.

Definition parse_raw_completion (bs : list N) : result SecureClientError RelayCompletion :=
  raw ← ok_or (raw_completion_from_slice bs) (invalid "signed NEAR completion JSON is invalid");
  _ ← validate_run_id (wn_id raw);
  choice ← ok_or (head (wn_choices raw)) (invalid "signed NEAR completion has no choice");
  calls ← collect raw_call (wm_tool_calls (wc_message choice));
  c ← optional_ciphertext (wm_content (wc_message choice));
  reasoning ← optional_ciphertext (wm_reasoning_content (wc_message choice));
  r ← optional_ciphertext (wm_refusal (wc_message choice));
  Ok {| rc_id := wn_id raw; rc_model := wn_model raw; rc_content := c; rc_reasoning_content := reasoning;
        rc_refusal := r; rc_tool_calls := calls; rc_finish_reason := default "stop" (wc_finish_reason choice);
        rc_usage := provider_usage (wn_usage raw); rc_proof := None |}.

Definition decrypt_completion (m : ModelInfo) (i : ClientIdentity) (request_hash signing_address : string)
    (c : RelayCompletion) : result SecureClientError InferenceResponse :=
  proof_value ← ok_or (rc_proof c) (invalid "NEAR completion omitted its signed receipt");
  '(p, raw_body) ← verify_near_proof proof_value request_hash signing_address (mi_upstream_model m);
  if negb (bool_decide (np_chat_id p = rc_id c))
  then Err (invalid "NEAR receipt chat ID does not match the relay response") else
  raw_completion ← parse_raw_completion raw_body;
  if negb (bool_decide (rc_id raw_completion = np_chat_id p))
  then Err (invalid "NEAR receipt chat ID does not match its response bytes") else
  verified ← decrypt_relay_completion m i raw_completion;
  provisional ← decrypt_relay_completion m i c;
  if negb (bool_decide (provisional = verified))
  then Err (invalid "relay completion does not match the signed NEAR response") else Ok verified.

(** ** The transcript a receipt covers *)

Record Transcript : Type := {
  tx_chat_id : option string; tx_model : option string; tx_content : string; tx_reasoning : string;
  tx_refusal : string; tx_calls : ToolCallAccumulator; tx_usage : RelayUsage; tx_finish : string;
  tx_count : Z; tx_done : bool
}.
Definition empty_transcript : Transcript :=
  {| tx_chat_id := None; tx_model := None; tx_content := EmptyString; tx_reasoning := EmptyString;
     tx_refusal := EmptyString; tx_calls := ∅; tx_usage := provider_usage None; tx_finish := "stop";
     tx_count := 0; tx_done := false |}.

(** An identifier that may be repeated but not changed. *)
Definition same_text (o : option string) (value detail : string) : result SecureClientError unit :=
  match o with
  | Some existing => if bool_decide (existing = value) then Ok tt else Err (invalid detail)
  | None => Ok tt
  end.
Definition chunk_id (o : option string) (k : RawNearStreamChunk) : result SecureClientError (option string) :=
  match wk_id k with
  | Some v => _ ← validate_run_id v; _ ← same_text o v "signed NEAR stream changes its chat ID"; Ok (Some v)
  | None => Ok o
  end.
Definition chunk_model (o : option string) (k : RawNearStreamChunk) : result SecureClientError (option string) :=
  match wk_model k with
  | Some v => _ ← same_text o v "signed NEAR stream changes its model"; Ok (Some v)
  | None => Ok o
  end.

(** Decrypts a fragment, when there is one, and appends it. *)
Definition append_sealed (i : ClientIdentity) (target : string) (o : option string)
    : result SecureClientError string :=
  match o with
  | Some c => text ← decrypt i c; append_bounded target text
  | None => Ok target
  end.

Definition raw_fragment (i : ClientIdentity) (o : option string) : result SecureClientError (option string) :=
  c ← optional_ciphertext o; decrypt_optional i c.
Definition raw_delta (i : ClientIdentity) (d : RawNearToolCallDelta) : result SecureClientError ToolCallDelta :=
  n ← raw_fragment i (wx_function d ≫= wd_name);
  a ← raw_fragment i (wx_function d ≫= wd_arguments);
  Ok {| d_index := wx_index d; d_id := wx_id d; d_kind := wx_kind d; d_name := n; d_arguments := a |}.

Fixpoint push_raw (i : ClientIdentity) (calls : ToolCallAccumulator) (l : list RawNearToolCallDelta)
    : result SecureClientError ToolCallAccumulator :=
  match l with
  | [] => Ok calls
  | d :: l =>
    delta ← raw_delta i d;
    match push delta calls with
    | (calls, Ok _) => push_raw i calls l
    | (_, Err _) => Err (invalid "signed NEAR tool-call fragments are invalid")
    end
  end.

Definition accept_chunk (i : ClientIdentity) (t : Transcript) (k : RawNearStreamChunk)
    : result SecureClientError Transcript :=
  chat_id ← chunk_id (tx_chat_id t) k;
  model ← chunk_model (tx_model t) k;
  let u := match wk_usage k with
           | Some v => if json_value_is_truthy v then provider_usage (Some v) else tx_usage t
           | None => tx_usage t
           end in
  let choice := default default_choice (head (wk_choices k)) in
  let delta := wh_delta choice in
  own ← optional_ciphertext (ws_content delta);
  c ← (match own with Some _ => Ok own | None => optional_ciphertext (wh_text choice) end);
  reasoning ← optional_ciphertext (ws_reasoning_content delta);
  r ← optional_ciphertext (ws_refusal delta);
  let calls := default [] (ws_tool_calls delta) in
  count ← (if is_some c || is_some reasoning || is_some r || negb (bool_decide (length calls = O))
           then ok_or (checked_add (tx_count t) 1) (invalid "signed NEAR stream sequence overflowed")
           else Ok (tx_count t));
  content ← append_sealed i (tx_content t) c;
  reasoning ← append_sealed i (tx_reasoning t) reasoning;
  refusal ← append_sealed i (tx_refusal t) r;
  calls ← push_raw i (tx_calls t) calls;
  Ok {| tx_chat_id := chat_id; tx_model := model; tx_content := content; tx_reasoning := reasoning;
        tx_refusal := refusal; tx_calls := calls; tx_usage := u;
        tx_finish := default (tx_finish t) (wh_finish_reason choice); tx_count := count; tx_done := tx_done t |}.

Definition finished_transcript (t : Transcript) : Transcript :=
  {| tx_chat_id := tx_chat_id t; tx_model := tx_model t; tx_content := tx_content t;
     tx_reasoning := tx_reasoning t; tx_refusal := tx_refusal t; tx_calls := tx_calls t;
     tx_usage := tx_usage t; tx_finish := tx_finish t; tx_count := tx_count t; tx_done := true |}.

Definition accept_raw_line (i : ClientIdentity) (t : Transcript) (raw_line : string)
    : result SecureClientError Transcript :=
  match strip_prefix "data:" (RustStr.strip_cr raw_line) with
  | None => Ok t
  | Some payload =>
    let payload := trim (default payload (strip_prefix " " payload)) in
    if bool_decide (payload = "[DONE]") then
      if tx_done t then Err (invalid "signed NEAR stream repeats its terminal marker")
      else Ok (finished_transcript t)
    else if tx_done t then Err (invalid "signed NEAR stream contains data after completion")
    else
      k ← ok_or (chunk_from_str payload) (invalid "signed NEAR stream event is invalid");
      accept_chunk i t k
  end.

Fixpoint accept_raw_lines (i : ClientIdentity) (t : Transcript) (l : list string)
    : result SecureClientError Transcript :=
  match l with
  | [] => Ok t
  | line :: l => t ← accept_raw_line i t line; accept_raw_lines i t l
  end.

Record VerifiedStreamTranscript : Type := {
  vt_chat_id : string; vt_model : option string; vt_sequence_count : Z; vt_response : InferenceResponse
}.

Definition some_text (s : string) : option string := if is_empty s then None else Some s.

(** The response of collected parts. *)
Definition collected (text reasoning refusal : string) (calls : list ToolCall) (u : Usage) (reason : FinishReason)
    : InferenceResponse :=
  {| assistant := {| at_text := text; at_reasoning := None; at_tool_calls := calls |};
     ir_reasoning := some_text reasoning; ir_refusal := some_text refusal; ir_usage := u;
     ir_finish_reason := Some reason |}.

Definition parse_raw_stream (bs : list N) (i : ClientIdentity) : result SecureClientError VerifiedStreamTranscript :=
  text ← ok_or (from_utf8 bs) (invalid "signed NEAR stream is not valid UTF-8");
  t ← accept_raw_lines i empty_transcript (split_byte 10 text);
  if negb (tx_done t) then Err (invalid "signed NEAR stream omitted its terminal marker") else
  chat_id ← ok_or (tx_chat_id t) (invalid "signed NEAR stream omitted its chat ID");
  calls ← map_err (fun _ => invalid "signed NEAR tool-call stream is incomplete") (ToolCalls.finish (tx_calls t));
  _ ← for_each check_call calls;
  finish_reason ← parse_finish_reason (tx_finish t);
  _ ← validate_finish_shape finish_reason calls;
  u ← normalize_usage (tx_usage t);
  Ok {| vt_chat_id := chat_id; vt_model := tx_model t; vt_sequence_count := tx_count t;
        vt_response := collected (tx_content t) (tx_reasoning t) (tx_refusal t) calls u finish_reason |}.

(** ** The stream *)

Record StreamState : Type := {
  expected_request_hash : string; expected_signing_address : string; expected_model : string;
  run_id : option string; ss_response_id : option string; next_sequence : option Z;
  ss_text : string; ss_reasoning : string; ss_refusal : string; ss_tool_calls : ToolCallAccumulator;
  ss_usage : option Usage; ss_finish_reason : option FinishReason; verified_events : list ProviderEvent;
  message_completed : bool; run_completed : bool
}.

Definition new_stream_state (request_hash signing_address model : string) : StreamState :=
  {| expected_request_hash := request_hash; expected_signing_address := signing_address; expected_model := model;
     run_id := None; ss_response_id := None; next_sequence := Some 1; ss_text := EmptyString;
     ss_reasoning := EmptyString; ss_refusal := EmptyString; ss_tool_calls := ∅; ss_usage := None;
     ss_finish_reason := None; verified_events := []; message_completed := false; run_completed := false |}.

(** The subscriber: what was sent, and whether the sends to come succeed (it listens, and
    the call is not cancelled). *)
Record Sink : Type := { sent : list ProviderEvent; listens : nat -> bool }.

Record Streaming : Type := { sg_state : StreamState; sg_sink : Sink }.
Abbreviation Stream := (M Streaming SecureClientError).

Definition emit (e : ProviderEvent) : M Sink SecureClientError unit := fun k =>
  if listens k (length (sent k)) then ({| sent := sent k ++ [e]; listens := listens k |}, Ok tt)
  else (k, Err cancelled_error).
Definition send_event (e : ProviderEvent) : Stream unit := fun g =>
  let '(k, r) := emit e (sg_sink g) in ({| sg_state := sg_state g; sg_sink := k |}, r).

Definition update_state (f : StreamState -> StreamState) : Stream unit := fun g =>
  ({| sg_state := f (sg_state g); sg_sink := sg_sink g |}, Ok tt).
Definition inspect {A} (f : StreamState -> result SecureClientError A) : Stream A := fun g => (g, f (sg_state g)).

Definition with_run (o : option string) (s : StreamState) : StreamState :=
  {| expected_request_hash := expected_request_hash s; expected_signing_address := expected_signing_address s;
     expected_model := expected_model s; run_id := o; ss_response_id := ss_response_id s;
     next_sequence := next_sequence s; ss_text := ss_text s; ss_reasoning := ss_reasoning s;
     ss_refusal := ss_refusal s; ss_tool_calls := ss_tool_calls s; ss_usage := ss_usage s;
     ss_finish_reason := ss_finish_reason s; verified_events := verified_events s;
     message_completed := message_completed s; run_completed := run_completed s |}.
Definition with_sequence (n : option Z) (response : option string) (s : StreamState) : StreamState :=
  {| expected_request_hash := expected_request_hash s; expected_signing_address := expected_signing_address s;
     expected_model := expected_model s; run_id := run_id s; ss_response_id := response;
     next_sequence := n; ss_text := ss_text s; ss_reasoning := ss_reasoning s;
     ss_refusal := ss_refusal s; ss_tool_calls := ss_tool_calls s; ss_usage := ss_usage s;
     ss_finish_reason := ss_finish_reason s; verified_events := verified_events s;
     message_completed := message_completed s; run_completed := run_completed s |}.
Definition with_texts (text reasoning refusal : string) (s : StreamState) : StreamState :=
  {| expected_request_hash := expected_request_hash s; expected_signing_address := expected_signing_address s;
     expected_model := expected_model s; run_id := run_id s; ss_response_id := ss_response_id s;
     next_sequence := next_sequence s; ss_text := text; ss_reasoning := reasoning;
     ss_refusal := refusal; ss_tool_calls := ss_tool_calls s; ss_usage := ss_usage s;
     ss_finish_reason := ss_finish_reason s; verified_events := verified_events s;
     message_completed := message_completed s; run_completed := run_completed s |}.
Definition with_calls (calls : ToolCallAccumulator) (l : list ProviderEvent) (s : StreamState) : StreamState :=
  {| expected_request_hash := expected_request_hash s; expected_signing_address := expected_signing_address s;
     expected_model := expected_model s; run_id := run_id s; ss_response_id := ss_response_id s;
     next_sequence := next_sequence s; ss_text := ss_text s; ss_reasoning := ss_reasoning s;
     ss_refusal := ss_refusal s; ss_tool_calls := calls; ss_usage := ss_usage s;
     ss_finish_reason := ss_finish_reason s; verified_events := l;
     message_completed := message_completed s; run_completed := run_completed s |}.
Definition with_completion (u : Usage) (reason : FinishReason) (s : StreamState) : StreamState :=
  {| expected_request_hash := expected_request_hash s; expected_signing_address := expected_signing_address s;
     expected_model := expected_model s; run_id := run_id s; ss_response_id := ss_response_id s;
     next_sequence := next_sequence s; ss_text := ss_text s; ss_reasoning := ss_reasoning s;
     ss_refusal := ss_refusal s; ss_tool_calls := ss_tool_calls s; ss_usage := Some u;
     ss_finish_reason := Some reason;
     verified_events := verified_events s ++ [EvUsage (u_input_tokens u) (u_output_tokens u); EvFinished reason];
     message_completed := true; run_completed := run_completed s |}.
Definition with_run_completed (s : StreamState) : StreamState :=
  {| expected_request_hash := expected_request_hash s; expected_signing_address := expected_signing_address s;
     expected_model := expected_model s; run_id := run_id s; ss_response_id := ss_response_id s;
     next_sequence := next_sequence s; ss_text := ss_text s; ss_reasoning := ss_reasoning s;
     ss_refusal := ss_refusal s; ss_tool_calls := ss_tool_calls s; ss_usage := ss_usage s;
     ss_finish_reason := ss_finish_reason s; verified_events := verified_events s;
     message_completed := message_completed s; run_completed := true |}.

Definition require_run (id : string) : Stream unit :=
  inspect (fun s => if bool_decide (run_id s = Some id) then Ok tt
                    else Err (invalid "relay event run ID is inconsistent")).

(** The sequence number and the response of a delta. *)
Definition accept_sequence (p : DeltaPayload) (s : StreamState) : result SecureClientError StreamState :=
  _ ← reject_if (match next_sequence s with Some expected => negb (dp_sequence p =? expected) | None => false end)
        (invalid "relay event sequence is invalid");
  n ← ok_or (checked_add (dp_sequence p) 1) (invalid "relay event sequence overflowed");
  match response_id p with
  | None => Ok (with_sequence (Some n) (ss_response_id s) s)
  | Some r =>
    _ ← validate_run_id r;
    _ ← same_text (ss_response_id s) r "NEAR relay delta changed its response ID";
    Ok (with_sequence (Some n) (Some r) s)
  end.
Definition apply_state (f : StreamState -> result SecureClientError StreamState) : Stream unit :=
  s ← inspect f; update_state (fun _ => s).

(** A fragment is decrypted, kept and shown. *)
Definition accept_fragment (i : ClientIdentity) (o : option string) (get : StreamState -> string)
    (set : string -> StreamState -> StreamState) (event : string -> ProviderEvent) : Stream unit :=
  match o with
  | None => mret tt
  | Some c =>
    value ← lift (decrypt i c);
    _ ← apply_state (fun s => text ← append_bounded (get s) value; Ok (set text s));
    send_event (event value)
  end.

Definition sealed_delta (i : ClientIdentity) (d : EncryptedToolCallDelta) : result SecureClientError ToolCallDelta :=
  n ← decrypt_optional i (et_function d ≫= Sse.encrypted_name);
  a ← decrypt_optional i (et_function d ≫= Sse.encrypted_arguments);
  Ok {| d_index := et_index d; d_id := et_id d; d_kind := et_kind d; d_name := n; d_arguments := a |}.

Definition accept_call (i : ClientIdentity) (d : EncryptedToolCallDelta) : Stream unit :=
  delta ← lift (sealed_delta i d);
  apply_state (fun s =>
    match push delta (ss_tool_calls s) with
    | (calls, Ok _) => Ok (with_calls calls (verified_events s ++ [EvToolCallDelta delta]) s)
    | (_, Err _) => Err (invalid "relay tool-call fragments are invalid")
    end).

Definition accept_delta (i : ClientIdentity) (p : DeltaPayload) : Stream unit :=
  _ ← require_run (dp_run_id p);
  _ ← inspect (fun s => if message_completed s
                        then Err (invalid "relay emitted a delta after message completion") else Ok tt);
  _ ← apply_state (accept_sequence p);
  _ ← accept_fragment i (encrypted_delta p) ss_text
        (fun t s => with_texts t (ss_reasoning s) (ss_refusal s) s) EvTextDelta;
  _ ← accept_fragment i (encrypted_reasoning_delta p) ss_reasoning
        (fun t s => with_texts (ss_text s) t (ss_refusal s) s) EvReasoningDelta;
  _ ← accept_fragment i (encrypted_refusal_delta p) ss_refusal
        (fun t s => with_texts (ss_text s) (ss_reasoning s) t s) EvRefusalDelta;
  iterM (accept_call i) (encrypted_tool_calls p).

Definition provisional_response (s : StreamState) (u : Usage) (reason : FinishReason)
    : result SecureClientError InferenceResponse :=
  calls ← map_err (fun _ => invalid "relay tool-call stream is incomplete") (ToolCalls.finish (ss_tool_calls s));
  _ ← for_each check_call calls;
  _ ← validate_finish_shape reason calls;
  Ok (collected (ss_text s) (ss_reasoning s) (ss_refusal s) calls u reason).

Definition accept_completion (i : ClientIdentity) (p : CompletedPayload) (s : StreamState)
    : result SecureClientError StreamState :=
  _ ← reject_if (message_completed s) (invalid "relay message completion is duplicated");
  proof_value ← ok_or (proof p) (invalid "NEAR stream omitted its signed receipt");
  '(receipt, raw_body) ← verify_near_proof proof_value (expected_request_hash s) (expected_signing_address s)
                         (expected_model s);
  _ ← same_text (ss_response_id s) (np_chat_id receipt) "NEAR stream receipt chat ID does not match provisional deltas";
  verified ← parse_raw_stream raw_body i;
  _ ← reject_if (negb (bool_decide (vt_chat_id verified = np_chat_id receipt))
                 || match vt_model verified with
                    | Some m => negb (bool_decide (m = expected_model s))
                    | None => false
                    end) (invalid "NEAR stream receipt metadata does not match its response bytes");
  let next := default 1 (next_sequence s) in
  _ ← reject_if (next <? 1) (invalid "relay sequence state is invalid");
  _ ← reject_if (negb (vt_sequence_count verified =? next - 1))
        (invalid "relay stream delta count does not match the signed NEAR response");
  reason ← parse_finish_reason (mp_finish_reason p);
  u ← normalize_usage (usage p);
  provisional ← provisional_response s u reason;
  _ ← reject_if (negb (bool_decide (provisional = vt_response verified)))
        (invalid "relay stream does not match the signed NEAR response");
  Ok (with_completion u reason s).

Definition accept (event : RelayEvent) (i : ClientIdentity) : Stream unit :=
  _ ← inspect (fun s => if run_completed s then Err (invalid "relay emitted data after terminal completion") else Ok tt);
  match event with
  | Finalizing p => require_run (rp_run_id p)
  | RelayAccounting u =>
    _ ← require_run (Accounting.request_id u);
    if negb (validate_counters u) || response_verified u then throw (invalid "invalid operational accounting") else
    send_event (EvAccounting u)
  | RunCreated p =>
    _ ← inspect (fun s => if is_some (run_id s) || negb (bool_decide (Sse.inference_encryption p = INFERENCE_ENCRYPTION))
                          then Err (invalid "relay run creation contract is invalid") else Ok tt);
    _ ← lift (validate_run_id (cp_run_id p));
    _ ← update_state (with_run (Some (cp_run_id p)));
    send_event (EvStatus true "Attested end-to-end encrypted inference connected")
  | Delta p => accept_delta i p
  | MessageCompleted p => _ ← require_run (mp_run_id p); apply_state (accept_completion i p)
  | RunCompleted p =>
    _ ← require_run (rp_run_id p);
    _ ← inspect (fun s => if message_completed s then Ok tt
                          else Err (invalid "relay run completed before its message"));
    update_state with_run_completed
  | RelayCancelled p =>
    _ ← require_run (xp_run_id p);
    if bool_decide (xp_reason p = Some "insufficient_credit")
    then throw (new_error InsufficientCredit INSUFFICIENT_CREDIT_MESSAGE) else throw cancelled_error
  | RelayFailed p => _ ← require_run (fp_run_id p); throw (stream_failure (fp_code p))
  end.

(** [StreamState::finish]. *)
Definition finish_stream (s : StreamState) : result SecureClientError (InferenceResponse * list ProviderEvent) :=
  if negb (message_completed s) || negb (run_completed s)
  then Err (invalid "relay stream ended without terminal completion") else
  calls ← map_err (fun _ => invalid "relay tool-call stream is incomplete") (ToolCalls.finish (ss_tool_calls s));
  _ ← for_each check_call calls;
  reason ← ok_or (ss_finish_reason s) (invalid "relay stream has no finish reason");
  _ ← validate_finish_shape reason calls;
  Ok (collected (ss_text s) (ss_reasoning s) (ss_refusal s) calls
        (default {| u_input_tokens := 0; u_output_tokens := 0; u_total_tokens := 0 |} (ss_usage s)) reason,
      verified_events s).

Definition emit_verified_events (l : list ProviderEvent) : Stream unit :=
  _ ← iterM send_event l; send_event EvResponseVerified.
End Answers.
