(* ===== verification/NearInference.v ===== *)
(** Inference with the NEAR provider (crates/axiom-secure-client/src/providers/near/inference.rs,
    [complete] and [stream]): a request is sealed, sent through the relay, and its answer
    is accepted when the attested worker signed it. *)

From stdpp Require Import base gmap strings list.
From Stdlib Require Import ZArith NArith Lia ZifyBool ZifyN ZifyNat.
From S2P Require Import Prelude RustStr Json ToolCalls Content Accounting AppError Inference SecureError TrustPolicy Sse Endpoint Lease NearCrypto NearWire Relay NearStream.

Local Open Scope Z_scope.

(** ** What a call meets *)

(** Random bytes, the network, and the subscriber. *)
Record Outside : Type := { ow_rng : Rng; ow_network : Network; ow_sink : Sink }.

Abbreviation Near := (M Outside SecureClientError).
Abbreviation Stream := (M Streaming SecureClientError).

Definition drawing {A} (m : Drawing A) : Near A := fun w =>
  let '(g, r) := m (ow_rng w) in ({| ow_rng := g; ow_network := ow_network w; ow_sink := ow_sink w |}, r).
Definition calling {A} (m : Calling A) : Near A := fun w =>
  let '(n, r) := m (ow_network w) in ({| ow_rng := ow_rng w; ow_network := n; ow_sink := ow_sink w |}, r).
Definition streaming_from {A} (s : StreamState) (m : Stream A) : Near (A * StreamState) := fun w =>
  let '(g, r) := m {| sg_state := s; sg_sink := ow_sink w |} in
  ({| ow_rng := ow_rng w; ow_network := ow_network w; ow_sink := sg_sink g |},
   match r with Ok a => Ok (a, sg_state g) | Err e => Err e end).

(** What comes first when the loop waits: bytes at a time, the end of the connection by an
    error, the deadline, or a cancellation. *)
Inductive StreamStep : Type :=
| ChunkArrives (now : Z) (chunk : list N)
| ConnectionBreaks
| DeadlinePasses
| StreamCancelled.

Record NearInferenceContext `{UrlLib} : Type := {
  nx_config : RelayConfig;
  nx_model : ModelInfo;
  nx_model_key : Ed25519PublicKey;
  nx_response_signing_address : string;
  nx_binding : AttestationBinding;
  nx_worker_session_id : string
}.

Section Inference.
Context `{U : UrlLib} `{UO : !UrlOrigin} `{RH : !RelayHttp}.
Context `{KD : KeyDigest} `{NP : NearPrimitives} `{PC : PolicyCrypto} `{NC : NearCodec} `{RC : RelayCodec}.
Context `{JW : JsonWriter} `{FT : FloatText} `{SJ : SerdeJson} `{JT : JsonText} `{B64 : Base64}.

(** [provider_e2ee_context["worker_session_id"] = ..] *)
Definition with_worker_session (id : string) (r : RelayChatRequest) : RelayChatRequest :=
  with_context ((fun v => match v with
                          | VObject m => VObject (map_insert "worker_session_id" (VString id) m)
                          | v => v
                          end) <$> rr_provider_e2ee_context r) r.

Definition prepare (c : NearInferenceContext) (r : InferenceRequest) (stream : bool)
    : Near (ClientIdentity * RelayChatRequest * string) :=
  '(identity, relay, request_hash) ← drawing (build_request (nx_model c) (nx_model_key c)
      (nx_response_signing_address c) (nx_binding c) r stream);
  mret (identity, with_worker_session (nx_worker_session_id c) relay, request_hash).

Definition complete (c : NearInferenceContext) (cancelled : bool) (r : InferenceRequest) : Near InferenceResponse :=
  '(identity, relay, request_hash) ← prepare c r false;
  completion ← calling (Relay.complete (nx_config c) cancelled relay);
  lift (decrypt_completion (nx_model c) identity request_hash (nx_response_signing_address c) completion).

Definition interrupted_connection : SecureClientError :=
  with_code Transient CProviderDisconnected "The connection to the provider was interrupted." true.

(** The loop, to the end of the connection. *)
Fixpoint read_stream (i : ClientIdentity) (d : SseDecoder) (t : StreamDeadline) (steps : list StreamStep)
    : Stream SseDecoder :=
  match steps with
  | [] => mret d
  | DeadlinePasses :: _ => throw (deadline_error t)
  | StreamCancelled :: _ => throw cancelled_error
  | ConnectionBreaks :: _ => throw interrupted_connection
  | ChunkArrives now chunk :: steps =>
    match feed chunk d with
    | (d, Ok events) =>
      _ ← iterM (fun e => accept e i) events;
      read_stream i d (foldl (fun t e => observe now e t) t events) steps
    | (_, Err e) => throw e
    end
  end.

Definition receive (i : ClientIdentity) (limits : SecureClientLimits) (started : Z) (steps : list StreamStep)
    : Stream (InferenceResponse) :=
  d ← read_stream i (new_decoder (relay_sse_event_bytes limits) (relay_stream_bytes limits))
        (new_deadline started) steps;
  _ ← lift (Sse.finish d);
  '(response, events) ← inspect finish_stream;
  _ ← emit_verified_events events;
  mret response.

Definition stream (c : NearInferenceContext) (cancelled : bool) (r : InferenceRequest) (started : Z)
    (steps : list StreamStep) : Near InferenceResponse :=
  '(identity, relay, request_hash) ← prepare c r true;
  _ ← calling (Relay.send (nx_config c) cancelled relay);
  '(response, _) ← streaming_from
      (new_stream_state request_hash (nx_response_signing_address c) (mi_upstream_model (nx_model c)))
      (receive identity (cf_limits (nx_config c)) started steps);
  mret response.
End Inference.
