(* ===== verification/NearProofs.v ===== *)
(** What the answers of the NEAR provider keep to, step by step, and what the relay reads
    of a request: every text is sealed for the attested key, and opens there to what was
    asked. *)

From stdpp Require Import base gmap strings list.
From Stdlib Require Import ZArith NArith Lia ZifyBool ZifyN ZifyNat.
From S2P Require Import Prelude RustStr Json ToolCalls Content Accounting AppError Inference SecureError TrustPolicy Sse Receipts Endpoint Lease NearCrypto NearWire Relay NearStream NearInference.

Local Open Scope Z_scope.

(** ** Events before the receipt *)

(** What is shown while the receipt is still to come. *)
Definition provisional (e : ProviderEvent) : Prop :=
  match e with
  | EvStatus _ _ | EvAccounting _ | EvTextDelta _ | EvReasoningDelta _ | EvRefusalDelta _ => True
  | _ => False
  end.

Definition text_of (e : ProviderEvent) : string := match e with EvTextDelta t => t | _ => EmptyString end.
Definition reasoning_of (e : ProviderEvent) : string := match e with EvReasoningDelta t => t | _ => EmptyString end.
Definition refusal_of (e : ProviderEvent) : string := match e with EvRefusalDelta t => t | _ => EmptyString end.
Definition said_by (f : ProviderEvent -> string) (l : list ProviderEvent) : string := str_concat (f <$> l).

Lemma said_by_snoc f l e : said_by f (l ++ [e]) = said_by f l +:+ f e.
Proof. unfold said_by. rewrite fmap_app. apply str_concat_snoc. Qed.

Section Proofs.
Context `{KD : KeyDigest} `{NP : NearPrimitives} `{PC : PolicyCrypto} `{NC : NearCodec} `{B64 : Base64} `{SJ : SerdeJson}.

(** ** Receipts *)

(** The worker with the attested address signed that the request of this hash, for this
    model, was answered by these bytes. *)
Record signed_receipt (request_hash address model : string) (p : NearCompletionProof) (raw : list N) : Prop := {
  sr_protocol : np_provider p = PROVIDER_ID /\ np_protocol p = E2EE_PROTOCOL;
  sr_body : b64_decode (np_response_body_base64 p) = Some raw;
  sr_bounds : 0 < Z.of_nat (length raw) <= NEAR_RECEIPT_RAW_RESPONSE_BYTES;
  sr_signature : exists key_bytes key signature_bytes signature,
    Lease.hex_decode address = Some key_bytes /\ length key_bytes = 32%nat /\
    key_from_bytes key_bytes = Some key /\ Lease.hex_decode (np_signature p) = Some signature_bytes /\
    signature_from_slice signature_bytes = Some signature /\
    verify_strict key (model +:+ ":" +:+ request_hash +:+ ":" +:+ sha256_hex raw) signature = true
}.

Lemma verify_signature_Ok text signature address :
  verify_ed25519_signature text signature address = Ok tt ->
  exists key_bytes key signature_bytes s,
    Lease.hex_decode address = Some key_bytes /\ length key_bytes = 32%nat /\ key_from_bytes key_bytes = Some key /\
    Lease.hex_decode signature = Some signature_bytes /\ signature_from_slice signature_bytes = Some s /\
    verify_strict key text s = true.
Proof.
  unfold verify_ed25519_signature. destruct (_ || _); [done|]. intros H.
  apply bind_Ok in H as (kb & Hk%ok_or_Ok & H). destruct (negb _) eqn:El; [done|].
  apply bind_Ok in H as (key & Hkey%ok_or_Ok & H). apply bind_Ok in H as (sb & Hs%ok_or_Ok & H).
  apply bind_Ok in H as (s & Hsig%ok_or_Ok & H). destruct (verify_strict _ _ _) eqn:Ev; [|done].
  exists kb, key, sb, s. split_and!; try done. lia.
Qed.

Lemma verify_near_proof_Ok v request_hash address model p raw :
  verify_near_proof v request_hash address model = Ok (p, raw) ->
  proof_from_value v = Some p /\ signed_receipt request_hash address model p raw.
Proof.
  unfold verify_near_proof. intros H. apply bind_Ok in H as (p' & Hp%ok_or_Ok & H).
  destruct (negb _ || negb _) eqn:Epr; [done|]. destruct (receipt_unbound _ _ _ _) eqn:Eb; [done|].
  destruct (_ >? _); [done|]. apply bind_Ok in H as (raw' & Hraw%ok_or_Ok & H).
  destruct ((_ =? _)%nat || _) eqn:El; [done|]. destruct (negb (bool_decide (sha256_hex _ = _))) eqn:Eh; [done|].
  destruct (negb (bool_decide (np_signed_text _ = _))) eqn:Et; [done|].
  apply bind_Ok in H as ([] & Hs & H). injection H as -> ->.
  unfold receipt_unbound in Eb. rewrite !orb_false_iff, !negb_false_iff, !bool_decide_eq_true in Eb.
  rewrite orb_false_iff, !negb_false_iff, !bool_decide_eq_true in Epr.
  rewrite negb_false_iff, bool_decide_eq_true in Eh, Et.
  split; [done|]. destruct Eb as ((((((((_ & _) & _) & Hm) & _) & _) & Hr) & _) & Ha).
  constructor; [done|done|lia|]. apply verify_signature_Ok in Hs. rewrite Et in Hs. unfold signed_text_of in Hs.
  by rewrite Hm, Hr, Ha, <- Eh in Hs.
Qed.
(** ** The stream *)

Section Answer.
Context (i : ClientIdentity) (request_hash address model : string) (base : list ProviderEvent).

(** Only provisional events were sent since. *)
Definition interim (k : Sink) : Prop := exists shown, sent k = base ++ shown /\ Forall provisional shown.

(** What was shown is what the state has collected. *)
Definition shown_so_far (g : Streaming) : Prop :=
  exists shown, sent (sg_sink g) = base ++ shown /\ Forall provisional shown /\
    ss_text (sg_state g) = said_by text_of shown /\ ss_reasoning (sg_state g) = said_by reasoning_of shown /\
    ss_refusal (sg_state g) = said_by refusal_of shown.

Definition expects (s : StreamState) : Prop :=
  expected_request_hash s = request_hash /\ expected_signing_address s = address /\ expected_model s = model.

(** The call fragments kept back assemble to the calls collected; after the completion the
    usage and the reason follow them. *)
Definition kept_back (s : StreamState) : Prop :=
  exists ds, iterM push ds ∅ = (ss_tool_calls s, Ok tt) /\
    verified_events s = (EvToolCallDelta <$> ds)
      ++ (if message_completed s then
            match ss_usage s, ss_finish_reason s with
            | Some u, Some r => [EvUsage (u_input_tokens u) (u_output_tokens u); EvFinished r]
            | _, _ => []
            end
          else []).

(** The completed message is the one that was signed. *)
Definition covered (s : StreamState) : Prop :=
  message_completed s = true ->
  exists p raw v u reason,
    signed_receipt request_hash address model p raw /\ parse_raw_stream raw i = Ok v /\
    vt_chat_id v = np_chat_id p /\
    ss_usage s = Some u /\ ss_finish_reason s = Some reason /\
    provisional_response s u reason = Ok (vt_response v).

Record answer_ok (g : Streaming) : Prop := {
  ao_shown : shown_so_far g;
  ao_expects : expects (sg_state g);
  ao_kept : kept_back (sg_state g);
  ao_covered : covered (sg_state g)
}.

Lemma ao_interim g : answer_ok g -> interim (sg_sink g).
Proof. intros [(shown & H & Hp & _) _ _ _]. by exists shown. Qed.

Abbreviation keeps m := (triple answer_ok m (fun _ => answer_ok) (fun _ g => interim (sg_sink g))).
(** The same while the message is not complete. *)
Definition open_answer (g : Streaming) : Prop := answer_ok g /\ message_completed (sg_state g) = false.
Abbreviation keeps_open m := (triple open_answer m (fun _ => open_answer) (fun _ g => interim (sg_sink g))).

(** Sending something that is not text. *)
Lemma keeps_send e :
  provisional e -> text_of e = EmptyString -> reasoning_of e = EmptyString -> refusal_of e = EmptyString ->
  keeps (send_event e).
Proof.
  intros Hp Ht Hr Hf g [(shown & Hs & Hall & Et & Er & Ef) He Hk Hc]. unfold send_event, emit.
  destruct (listens _ _); [|by exists shown].
  constructor; [|exact He|exact Hk|exact Hc]. exists (shown ++ [e]). cbn.
  rewrite Hs, !said_by_snoc, Ht, Hr, Hf, !str_app_nil_r, app_assoc. split_and!; try done.
  apply Forall_app. by repeat constructor.
Qed.

Lemma keeps_inspect {A} (f : StreamState -> result SecureClientError A) :
  triple answer_ok (inspect f) (fun a g => answer_ok g /\ f (sg_state g) = Ok a) (fun _ g => interim (sg_sink g)).
Proof. intros g H. unfold inspect. destruct (f (sg_state g)) eqn:E; [done|by apply ao_interim]. Qed.

(** A change of what neither the answer nor its receipt speaks of. *)
Definition same_answer (f : StreamState -> StreamState) : Prop := forall s,
  ss_text (f s) = ss_text s /\ ss_reasoning (f s) = ss_reasoning s /\ ss_refusal (f s) = ss_refusal s /\
  ss_tool_calls (f s) = ss_tool_calls s /\ verified_events (f s) = verified_events s /\
  ss_usage (f s) = ss_usage s /\ ss_finish_reason (f s) = ss_finish_reason s /\
  message_completed (f s) = message_completed s /\ expected_request_hash (f s) = expected_request_hash s /\
  expected_signing_address (f s) = expected_signing_address s /\ expected_model (f s) = expected_model s.

Lemma same_answer_ok f g :
  same_answer f -> answer_ok g -> answer_ok {| sg_state := f (sg_state g); sg_sink := sg_sink g |}.
Proof.
  intros Hf [Hs He Hk Hc]. destruct (Hf (sg_state g)) as (Et & Er & Ef & Ec & Ev & Eu & Ez & Em & E1 & E2 & E3).
  constructor; cbn.
  - destruct Hs as (shown & ?). exists shown. cbn. by rewrite Et, Er, Ef.
  - unfold expects. by rewrite E1, E2, E3.
  - unfold kept_back. by rewrite Ec, Ev, Eu, Ez, Em.
  - unfold covered, provisional_response. by rewrite Et, Er, Ef, Ec, Eu, Ez, Em.
Qed.

Lemma keeps_update f : same_answer f -> keeps (update_state f).
Proof. intros Hf g Hg. by apply same_answer_ok. Qed.

Lemma keeps_lift {A} (m : result SecureClientError A) (P : Streaming -> Prop) :
  triple (fun g => answer_ok g /\ P g) (lift m) (fun _ => answer_ok) (fun _ g => interim (sg_sink g)).
Proof. apply triple_lift. intros g [Hg _]. destruct m; [done|by apply ao_interim]. Qed.

Lemma keeps_require id : keeps (require_run id).
Proof. eapply triple_weaken; [apply keeps_inspect|done| |done]. by intros a g [H _]. Qed.

(** The three kinds of text. *)
Record text_field (get : StreamState -> string) (set : string -> StreamState -> StreamState)
    (event : string -> ProviderEvent) : Prop := {
  tf_same t s : set t s = with_texts (ss_text (set t s)) (ss_reasoning (set t s)) (ss_refusal (set t s)) s;
  tf_provisional t : provisional (event t);
  tf_shown shown t s :
    ss_text s = said_by text_of shown -> ss_reasoning s = said_by reasoning_of shown ->
    ss_refusal s = said_by refusal_of shown ->
    ss_text (set (get s +:+ t) s) = said_by text_of (shown ++ [event t]) /\
    ss_reasoning (set (get s +:+ t) s) = said_by reasoning_of (shown ++ [event t]) /\
    ss_refusal (set (get s +:+ t) s) = said_by refusal_of (shown ++ [event t])
}.

Ltac text_case :=
  intros shown t s E1 E2 E3; split_and!; rewrite said_by_snoc; cbn; rewrite ?E1, ?E2, ?E3;
  by rewrite ?str_app_nil_r.

Lemma text_is_text : text_field ss_text (fun t s => with_texts t (ss_reasoning s) (ss_refusal s) s) EvTextDelta.
Proof. split; [done|done|]. text_case. Qed.
Lemma reasoning_is_text :
  text_field ss_reasoning (fun t s => with_texts (ss_text s) t (ss_refusal s) s) EvReasoningDelta.
Proof. split; [done|done|]. text_case. Qed.
Lemma refusal_is_text :
  text_field ss_refusal (fun t s => with_texts (ss_text s) (ss_reasoning s) t s) EvRefusalDelta.
Proof. split; [done|done|]. text_case. Qed.

Lemma keeps_fragment o get set event : text_field get set event -> keeps_open (accept_fragment i o get set event).
Proof.
  intros [Hsame Hprov Hshown]. destruct o as [c|]; [|apply triple_ret; tauto].
  intros g [Hg Hm]. pose proof (ao_interim _ Hg) as Hi. unfold accept_fragment.
  rewrite M_bind_run. unfold lift. destruct (decrypt i c) as [value|e]; [|exact Hi].
  rewrite M_bind_run. unfold apply_state. rewrite M_bind_run. unfold inspect.
  unfold append_bounded. destruct (_ >? _); [exact Hi|]. cbn [mbind result_bind].
  unfold update_state. unfold send_event. cbn [sg_sink sg_state].
  unfold emit. destruct (listens _ _); [|exact Hi].
  destruct Hg as [(shown & Hs & Hall & Et & Er & Ef) He Hk Hc]. set (s := sg_state g) in *.
  destruct (Hshown shown value s Et Er Ef) as (Et' & Er' & Ef'). split.
  - constructor.
    + exists (shown ++ [event value]). cbn. rewrite Hs, app_assoc. split_and!; try done.
      apply Forall_app. split; [done|]. by repeat constructor.
    + cbn. by rewrite Hsame.
    + cbn. by rewrite Hsame.
    + cbn. unfold covered. intros H. exfalso. rewrite Hsame in H. cbn in H. by rewrite Hm in H.
  - cbn. rewrite Hsame. exact Hm.
Qed.

Lemma keeps_call d : keeps_open (accept_call i d).
Proof.
  intros g [Hg Hm]. pose proof (ao_interim _ Hg) as Hi. unfold accept_call.
  rewrite M_bind_run. unfold lift. destruct (sealed_delta i d) as [delta|e]; [|exact Hi].
  unfold apply_state. rewrite M_bind_run. unfold inspect.
  destruct (push delta (ss_tool_calls (sg_state g))) as [calls [[]|e]] eqn:Ep; [|exact Hi].
  unfold update_state. destruct Hg as [Hs He (ds & Hds & Hv) Hc]. split; [|exact Hm]. rewrite Hm, app_nil_r in Hv. constructor.
  - exact Hs.
  - exact He.
  - exists (ds ++ [delta]). cbn [sg_state with_calls ss_tool_calls verified_events message_completed]. rewrite Hm, app_nil_r.
    split; [|by rewrite Hv, fmap_app]. rewrite iterM_app, Hds. cbn [iterM]. rewrite M_bind_run. by rewrite Ep.
  - cbn. unfold covered. intros H. exfalso. cbn in H. by rewrite Hm in H.
Qed.

Lemma keeps_delta p : keeps (accept_delta i p).
Proof.
  unfold accept_delta. run_op ltac:(apply keeps_require). intros _.
  run_op ltac:(apply keeps_inspect). intros []. 
  eapply (triple_bind _ _ _ (fun _ => open_answer)).
  { intros g [Hg Hm]. unfold apply_state. rewrite M_bind_run. unfold inspect.
    destruct (message_completed (sg_state g)) eqn:Em; [done|].
    destruct (accept_sequence p (sg_state g)) as [s|e] eqn:E; [|by apply ao_interim].
    unfold update_state. unfold accept_sequence in E. apply bind_Ok in E as (_ & _ & E).
    apply bind_Ok in E as (n & _ & E).
    assert (exists r, s = with_sequence (Some n) r (sg_state g)) as [r ->].
    { destruct (response_id p); [|injection E as <-; by eexists].
      apply bind_Ok in E as (_ & _ & E). apply bind_Ok in E as (_ & _ & E). injection E as <-. by eexists. }
    split; [|exact Em]. by apply (same_answer_ok (with_sequence (Some n) r)). }
  intros _. run_op ltac:(apply keeps_fragment, text_is_text). intros _.
  run_op ltac:(apply keeps_fragment, reasoning_is_text). intros _.
  run_op ltac:(apply keeps_fragment, refusal_is_text). intros _.
  apply (triple_weaken open_answer open_answer _ (fun _ => answer_ok) (fun _ => open_answer)
           _ (fun _ g => interim (sg_sink g))); [|done|by intros _ g [H _]|done].
  apply triple_iter. intros d _. apply keeps_call.
Qed.

Lemma keeps_completion p : keeps (apply_state (accept_completion i p)).
Proof.
  intros g Hg. unfold apply_state. rewrite M_bind_run. unfold inspect.
  destruct (accept_completion i p (sg_state g)) as [s|e] eqn:E; [|by apply ao_interim].
  unfold update_state. destruct Hg as [Hs He Hk Hc]. set (s0 := sg_state g) in *.
  unfold accept_completion in E.
  apply bind_Ok in E as (_ & Hm%reject_if_Ok & E). apply bind_Ok in E as (pv & _ & E).
  apply bind_Ok in E as ([receipt raw] & Hp & E). apply bind_Ok in E as (_ & _ & E).
  apply bind_Ok in E as (v & Hv & E). apply bind_Ok in E as (_ & Hmeta%reject_if_Ok & E).
  apply bind_Ok in E as (_ & _ & E). apply bind_Ok in E as (_ & _ & E).
  apply bind_Ok in E as (reason & _ & E). apply bind_Ok in E as (u & _ & E).
  apply bind_Ok in E as (prov & Hprov & E). apply bind_Ok in E as (_ & Heq%reject_if_Ok & E).
  injection E as <-. destruct He as (E1 & E2 & E3).
  rewrite E1, E2, E3 in Hp. apply verify_near_proof_Ok in Hp as [_ Hsigned].
  rewrite negb_false_iff, bool_decide_eq_true in Heq. apply orb_false_iff in Hmeta as [Hid _].
  rewrite negb_false_iff, bool_decide_eq_true in Hid. constructor.
  - exact Hs.
  - done.
  - destruct Hk as (ds & Hds & Hve). exists ds. cbn. split; [done|]. rewrite Hm, app_nil_r in Hve. by rewrite Hve.
  - intros _. exists receipt, raw, v, u, reason. split_and!; try done. by rewrite <- Heq.
Qed.

Lemma keeps_accept e : keeps (accept e i).
Proof.
  unfold accept. run_op ltac:(apply keeps_inspect). intros [].
  apply (triple_weaken _ answer_ok _ (fun _ => answer_ok) (fun _ => answer_ok) _ (fun _ g => interim (sg_sink g)));
    [|by intros g [H _]|done|done].
  destruct e as [p|u|p|p|p|p|p|p].
  - run_op ltac:(apply keeps_inspect). intros []. run_op ltac:(apply keeps_lift). intros _. run_op ltac:(by apply keeps_update). intros _. by apply keeps_send.
  - run_op ltac:(apply keeps_require). intros _. destruct (_ || _); [|by apply keeps_send].
    apply triple_throw, ao_interim.
  - apply keeps_require.
  - apply keeps_delta.
  - run_op ltac:(apply keeps_require). intros _. apply keeps_completion.
  - run_op ltac:(apply keeps_require). intros _. run_op ltac:(apply keeps_inspect). intros [].
    apply (triple_weaken _ answer_ok _ (fun _ => answer_ok) (fun _ => answer_ok) _ (fun _ g => interim (sg_sink g)));
      [by apply keeps_update|by intros g [H _]|done|done].
  - run_op ltac:(apply keeps_require). intros _. destruct (bool_decide _); apply triple_throw, ao_interim.
  - run_op ltac:(apply keeps_require). intros _. apply triple_throw, ao_interim.
Qed.
End Answer.
End Proofs.

(** * Sealed requests *)

Section Sealed.
Context `{KD : KeyDigest} `{NP : NearPrimitives} `{NL : !NearLaws}.
Context `{JW : JsonWriter} `{FT : FloatText} `{SJ : SerdeJson} `{JT : JsonText} `{B64 : Base64}.
Context (secret : list N) (k : Ed25519PublicKey).

(** ** Sealed parts *)

Definition sealed_text (t c : string) : Prop := sealed secret (bytes t) c.
Definition sealed_option (o : option string) (c : option string) : Prop := option_Forall2 sealed_text o c.

Record sealed_call (c : ToolCall) (e : EncryptedToolCall) : Prop := {
  sc_id : ecl_id e = ToolCalls.id c;
  sc_kind : ecl_kind e = "function";
  sc_name : sealed_text (fc_name (function c)) (ef_encrypted_name (ecl_function e));
  sc_arguments : sealed_text (arguments (function c)) (ef_encrypted_arguments (ecl_function e))
}.

(** The role and the identifier of the answered call stay readable; content that is left
    out is empty. *)
Record sealed_message (m : ChatMessage) (e : EncryptedMessage) : Prop := {
  sm_role : em_role e = role_name (role m);
  sm_content : exists text, content_text m = Ok text /\
    match em_content e with Some c => sealed_text text c | None => role m = Assistant /\ text = EmptyString end;
  sm_reasoning : sealed_option (reasoning_content m) (em_reasoning_content e);
  sm_name : sealed_option (name m) (em_name e);
  sm_refusal : sealed_option (refusal m) (em_refusal e);
  sm_calls : match em_tool_calls e with
             | Some l => Forall2 sealed_call (tool_calls m) l
             | None => tool_calls m = []
             end;
  sm_call_id : em_tool_call_id e = tool_call_id m
}.

Record sealed_tool (t : ToolDefinition) (e : EncryptedTool) : Prop := {
  st_kind : ek_kind e = "function";
  st_name : sealed_text (fd_name (td_function t)) (ed_encrypted_name (ek_function e));
  st_description : sealed_option (Some (description (td_function t))) (ed_encrypted_description (ek_function e));
  st_parameters : exists ps, to_vec (parameters (td_function t)) = Some ps /\
    sealed_text ps (ed_encrypted_parameters (ek_function e));
  st_strict : ed_strict (ek_function e) = strict (td_function t)
}.

(** The mode of the choice is readable, a chosen tool is not. *)
Definition sealed_choice (c : ToolChoice) (tools : option (list EncryptedTool)) (e : option EncryptedToolChoice)
    : Prop :=
  match c, e with
  | ChoiceAuto, None => tools = None
  | ChoiceAuto, Some e => e = ChoiceMode "auto" /\ tools <> None
  | ChoiceNone, e => e = Some (ChoiceMode "none")
  | ChoiceRequired, e => e = Some (ChoiceMode "required")
  | ChoiceNamed n, Some (ChoiceSealed e) => ec_kind e = "function" /\ sealed_text n (en_encrypted_name (ec_function e))
  | ChoiceNamed _, _ => False
  end.

(** A whole request: what is not sealed is the request's shape, its limits and its place. *)
Record sealed_request (m : ModelInfo) (address : string) (b : AttestationBinding) (r : InferenceRequest)
    (stream : bool) (request_hash : string) (session : option string) (e : RelayChatRequest) : Prop := {
  sr_messages : Forall2 sealed_message (messages r) (rr_messages e);
  sr_tools : match rr_tools e with Some l => Forall2 sealed_tool (tools r) l | None => tools r = [] end;
  sr_choice : sealed_choice (tool_choice r) (rr_tools e) (rr_tool_choice e);
  sr_place : rr_provider_id e = mi_provider_id m /\ rr_model_id e = mi_id m /\
    rr_encryption_version e = mi_e2ee_encryption_version m /\ rr_e2ee_protocol e = mi_e2ee_protocol m /\
    rr_inference_encryption e = INFERENCE_ENCRYPTION /\ rr_encrypt_all_fields e = true;
  sr_key : rr_model_public_key_hex e = to_hex k;
  sr_attested : rr_attestation_generation e = generation b /\
    rr_verified_key_fingerprint e = Lease.model_key_fingerprint b /\ rr_verified_keyset_digest e = keyset_digest b;
  sr_shape : rr_client_request_id e = request_id r /\ rr_parallel_tool_calls e = parallel_tool_calls r /\
    rr_stream e = stream /\ rr_max_tokens e = Some (default (mi_max_output_tokens m) (max_output_tokens r)) /\
    rr_sampling e = sampling_value (sampling r) /\ public_response_format (response_format r) = Ok (rr_response_format e) /\
    rr_reasoning_effort e = (if bool_decide (mi_reasoning_efforts m = []) then None
                             else Some (effort_as_str (reasoning_effort r))) /\
    rr_thinking_mode e = (if bool_decide (thinking_mode r = ProviderDefault) then None else Some (thinking_mode r));
  sr_context : rr_provider_e2ee_context e =
    Some (VObject ([("request_body_hash", VString request_hash); ("response_signing_address", VString address)]
                   ++ member VString "worker_session_id" session));
  sr_hash : exists body, near_upstream_request_bytes m (with_context None e) = Ok body /\ request_hash = sha256_hex body
}.

(** ** Sealing *)

Context (Hopens : opens secret k).

Abbreviation seals m Q := (triple fills m (fun a g => fills g /\ Q a) (fun _ _ => True)).

Lemma seals_encrypt t : seals (encrypt k (bytes t)) (sealed_text t).
Proof.
  intros g Hg. destruct (encrypt k (bytes t) g) as [g' [c|e]] eqn:E; [|done].
  by eapply encrypt_seals.
Qed.

(** One part after the other. *)
Lemma seals_bind {A B} (m : Drawing A) (f : A -> Drawing B) (P : A -> Prop) (Q : B -> Prop) :
  seals m P -> (forall a, P a -> seals (f a) Q) -> seals (m ≫= f) Q.
Proof. intros Hm Hf. eapply triple_bind; [exact Hm|]. intros a g [Hg Ha]. by apply Hf. Qed.
Lemma seals_lift {A} (m : result SecureClientError A) : seals (lift m : Drawing A) (fun a => m = Ok a).
Proof. apply triple_lift. intros g Hg. by destruct m. Qed.
Lemma seals_ret {A} (a : A) (Q : A -> Prop) : Q a -> seals (mret a : Drawing A) Q.
Proof. intros H. by apply triple_ret. Qed.

Ltac seal_next tac := eapply seals_bind; [tac | cbv beta].

Lemma seals_optional o : seals (encrypt_optional k o) (sealed_option o).
Proof.
  destruct o as [t|]; [|by apply seals_ret; constructor].
  seal_next ltac:(apply seals_encrypt). intros c Hc. apply seals_ret. by constructor.
Qed.

Lemma seals_call c : seals (encrypt_call k c) (sealed_call c).
Proof.
  unfold encrypt_call. seal_next ltac:(apply seals_lift). intros _ _.
  seal_next ltac:(apply seals_encrypt). intros n Hn. seal_next ltac:(apply seals_encrypt). intros a Ha.
  by apply seals_ret.
Qed.

Lemma seals_calls l : seals (encrypt_calls k l) (Forall2 sealed_call l).
Proof.
  induction l as [|c l IH]; cbn [encrypt_calls]; [by apply seals_ret|].
  seal_next ltac:(apply seals_call). intros e He. seal_next ltac:(apply IH). intros es Hes.
  apply seals_ret. by constructor.
Qed.

Lemma seals_message m : seals (encrypt_message k m) (sealed_message m).
Proof.
  unfold encrypt_message. seal_next ltac:(apply seals_lift). intros _ _.
  seal_next ltac:(apply seals_lift). intros text Ht.
  apply (seals_bind _ _ (fun o => match o with Some c => sealed_text text c
                                             | None => role m = Assistant /\ text = EmptyString end)).
  { destruct (_ || _) eqn:E.
    - seal_next ltac:(apply seals_encrypt). intros c Hc. by apply seals_ret.
    - apply seals_ret. apply orb_false_iff in E as [Er Ee]. rewrite negb_false_iff in Er, Ee.
      rewrite bool_decide_eq_true in Er. by destruct text. }
  intros c Hc.
  apply (seals_bind _ _ (fun o => match o with Some l => Forall2 sealed_call (tool_calls m) l
                                             | None => tool_calls m = [] end)).
  { destruct (bool_decide _) eqn:E; [apply seals_ret; by apply bool_decide_eq_true in E|].
    seal_next ltac:(apply seals_calls). intros l Hl. by apply seals_ret. }
  intros calls Hcalls. seal_next ltac:(apply seals_optional). intros re Hre.
  seal_next ltac:(apply seals_optional). intros n Hn. seal_next ltac:(apply seals_optional). intros r Hr.
  apply seals_ret. constructor; try done. by exists text.
Qed.

Lemma seals_messages l : seals (encrypt_messages k l) (Forall2 sealed_message l).
Proof.
  induction l as [|c l IH]; cbn [encrypt_messages]; [by apply seals_ret|].
  seal_next ltac:(apply seals_message). intros e He. seal_next ltac:(apply IH). intros es Hes.
  apply seals_ret. by constructor.
Qed.

Lemma seals_tool t : seals (encrypt_tool k t) (sealed_tool t).
Proof.
  unfold encrypt_tool. seal_next ltac:(apply seals_lift). intros ps Hps%ok_or_Ok.
  seal_next ltac:(apply seals_encrypt). intros n Hn. seal_next ltac:(apply seals_encrypt). intros d Hd.
  seal_next ltac:(apply seals_encrypt). intros p Hp. apply seals_ret. constructor; try done.
  - by constructor.
  - by exists ps.
Qed.

Lemma seals_tools l : seals (encrypt_tools k l) (Forall2 sealed_tool l).
Proof.
  induction l as [|c l IH]; cbn [encrypt_tools]; [by apply seals_ret|].
  seal_next ltac:(apply seals_tool). intros e He. seal_next ltac:(apply IH). intros es Hes.
  apply seals_ret. by constructor.
Qed.

Lemma seals_choice c tools : seals (encrypt_choice k c tools) (sealed_choice c tools).
Proof.
  destruct c as [| | |n]; cbn [encrypt_choice]; try (by apply seals_ret).
  - apply seals_ret. by destruct tools.
  - seal_next ltac:(apply seals_encrypt). intros c Hc. by apply seals_ret.
Qed.

Lemma check_request_format m r stream format :
  check_request m r stream = Ok format -> public_response_format (response_format r) = Ok format.
Proof.
  unfold check_request. intros H. apply bind_Ok in H as (_ & _ & H). apply bind_Ok in H as (f & Hf & H).
  repeat apply bind_Ok in H as (_ & _ & H). by injection H as <-.
Qed.

Lemma seals_request m address b r stream :
  seals (build_request m k address b r stream)
    (fun '(_, e, request_hash) => sealed_request m address b r stream request_hash None e).
Proof.
  unfold build_request. seal_next ltac:(apply seals_lift). intros format Hf%check_request_format.
  apply (seals_bind _ _ (fun _ => True)).
  { unfold generate_identity. apply (seals_bind _ _ (fun _ => True)); [by intros g Hg|]. intros seed _.
    seal_next ltac:(apply seals_lift). intros sec _. by apply seals_ret. }
  intros identity _. seal_next ltac:(apply seals_messages). intros ms Hms.
  apply (seals_bind _ _ (fun o => match o with Some l => Forall2 sealed_tool (tools r) l | None => tools r = [] end)).
  { destruct (bool_decide _) eqn:E.
    - apply seals_ret. apply bool_decide_eq_true in E. by destruct (tools r).
    - seal_next ltac:(apply seals_tools). intros l Hl. by apply seals_ret. }
  intros ts Hts. seal_next ltac:(apply seals_choice). intros c Hc.
  seal_next ltac:(apply seals_lift). intros body Hbody. apply seals_ret. constructor; try done.
  by exists body.
Qed.
End Sealed.
