(* ===== verification/NearAttest.v ===== *)
(** Attestation of a NEAR worker (crates/axiom-secure-client/src/providers/near/attestation.rs).

    The relay transports the evidence and is not trusted with it: the evidence must echo
    the challenge, name the model, and bind its keys and its workload in an Intel quote
    that the vendor's library accepts and an NVIDIA verdict that an approved anchor
    signed.  The quote library, X.509 and the signatures are library code (classes
    [IntelLib] and [NvidiaLib]); the library fetches its collateral through the bounded
    client modelled here.  The last
    part says what an accepted attestation shows. *)

From stdpp Require Import base gmap strings list.
From Stdlib Require Import ZArith NArith Lia ZifyBool ZifyN ZifyNat.
From S2P Require Import Prelude RustStr Json ToolCalls Content Accounting AppError Inference SecureError TrustPolicy Sse Endpoint Lease NearCrypto NearWire Relay NearStream.

Local Open Scope Z_scope.

Definition INTEL_PCCS : string := "https://api.trustedservices.intel.com/".
Definition NVIDIA_NRAS : string := "https://nras.attestation.nvidia.com/v3/attest/gpu".
Definition NVIDIA_JWKS : string := "https://nras.attestation.nvidia.com/.well-known/jwks.json".
Definition ENCRYPTION_VERSION : Z := 2.
Definition ATTESTATION_PROTOCOL : string := "near-tdx-nvidia-v2".

(** ** Reports *)

Record AttestationReport : Type := {
  ar_signing_algo : option string; ar_signing_public_key : option string; ar_signing_address : option string;
  ar_nonce : option string; ar_request_nonce : option string; ar_tls_fingerprint : option string;
  ar_tls_cert_fingerprint : option string; ar_model_name : option string; ar_intel_quote : option string;
  ar_nvidia_payload : option Value; ar_app_compose : option string; ar_info : option Value;
  ar_tcb_info : option Value
}.

Record WorkerSessionEnvelope : Type := {
  we_provider : string; we_model_id : string; we_attestation_protocol : string; we_evidence : Value
}.

(** The first of two texts that is present. *)
Definition or_text (a b : option string) : option string := match a with Some t => Some t | None => b end.
Definition echoed_nonce (r : AttestationReport) : option string := or_text (ar_request_nonce r) (ar_nonce r).
Definition tls_fingerprint (r : AttestationReport) : option string :=
  or_text (ar_tls_cert_fingerprint r) (ar_tls_fingerprint r).

(** Deserialization of optional fields: absent and null are none. *)
Definition text_member (name : string) (m : Map) : option (option string) :=
  match map_get name m with
  | None | Some VNull => Some None
  | Some (VString s) => Some (Some s)
  | Some _ => None
  end.
Definition value_member (name : string) (m : Map) : option Value := not_null (map_get name m).

Section Reports.
Context `{SJ : SerdeJson}.

(** [deserialize_json_object]: an object, or the text of one. *)
Definition object_member (name : string) (m : Map) : option (option Value) :=
  match map_get name m with
  | None | Some VNull => Some None
  | Some (VObject o) => Some (Some (VObject o))
  | Some (VString encoded) =>
    if is_empty (trim encoded) then Some None else
    match json_from_str encoded with
    | Some (VObject o) => Some (Some (VObject o))
    | _ => None
    end
  | Some _ => None
  end.

(** [serde_json::from_value::<AttestationReport>] of an object. *)
Definition report_from_value (v : Value) : option AttestationReport :=
  m ← as_object v;
  algo ← text_member "signing_algo" m;
  public_key ← text_member "signing_public_key" m;
  address ← text_member "signing_address" m;
  n ← text_member "nonce" m;
  request_nonce ← text_member "request_nonce" m;
  tls ← text_member "tls_fingerprint" m;
  tls_cert ← text_member "tls_cert_fingerprint" m;
  model_name ← text_member "model_name" m;
  quote ← text_member "intel_quote" m;
  payload ← object_member "nvidia_payload" m;
  compose ← text_member "app_compose" m;
  Some {| ar_signing_algo := algo; ar_signing_public_key := public_key; ar_signing_address := address;
          ar_nonce := n; ar_request_nonce := request_nonce; ar_tls_fingerprint := tls;
          ar_tls_cert_fingerprint := tls_cert; ar_model_name := model_name; ar_intel_quote := quote;
          ar_nvidia_payload := payload; ar_app_compose := compose; ar_info := value_member "info" m;
          ar_tcb_info := value_member "tcb_info" m |}.

Definition parse_json_object (v : Value) : option Map :=
  match v with
  | VObject m => Some m
  | VString encoded => json_from_str encoded ≫= as_object
  | _ => None
  end.

Definition not_empty (o : option string) : option string :=
  match o with Some s => if is_empty s then None else Some s | None => None end.

(** [AttestationReport::workload_manifest]. *)
Definition workload_manifest_of (r : AttestationReport) : result SecureClientError string :=
  match not_empty (ar_app_compose r) with
  | Some value => Ok value
  | None =>
    let info := ar_info r ≫= parse_json_object in
    let nested := match (o ← info; v ← map_get "tcb_info" o; parse_json_object v) with
                  | Some o => Some o
                  | None => ar_tcb_info r ≫= parse_json_object
                  end in
    ok_or (not_empty (o ← nested; v ← map_get "app_compose" o; as_str v))
      (attestation_error "attestation omitted the workload manifest")
  end.

Definition normalize_report (v : Value) : result SecureClientError Value :=
  top ← ok_or (as_object v) (attestation_error "attestation report must be an object");
  match map_get "model_attestations" top with
  | None => Ok v
  | Some attestations =>
    let top := map_remove "model_attestations" top in
    reports ← ok_or (as_array attestations) (attestation_error "model attestations must be an array");
    match reports with
    | [selected] =>
      m ← ok_or (as_object selected) (attestation_error "selected model attestation must be an object");
      Ok (VObject (foldl (fun m kv => if map_contains kv.1 m then m else map_insert kv.1 kv.2 m) m top))
    | _ => Err (attestation_error "attestation response must select exactly one model")
    end
  end.
End Reports.

Section Fields.
Context `{KD : KeyDigest} `{NP : NearPrimitives} `{B64 : Base64}.

Definition decode_hex_32 (value detail : string) : result SecureClientError (list N) :=
  let normalized := without_0x value in
  if negb (len normalized =? 64) then Err (attestation_error detail) else
  bs ← ok_or (hex_decode normalized) (attestation_error detail);
  if (length bs =? 32)%nat then Ok bs else Err (attestation_error detail).

(** [AttestationReport::model_key]. *)
Definition report_key (r : AttestationReport) : result SecureClientError Ed25519PublicKey :=
  primary ← ok_or (or_text (ar_signing_public_key r) (ar_signing_address r))
              (attestation_error "attestation omitted the model key");
  key ← map_err (fun _ => attestation_error "attestation model key is invalid") (from_hex primary);
  match ar_signing_public_key r, ar_signing_address r with
  | Some public, Some address =>
    address_key ← map_err (fun _ => attestation_error "attestation signing address is invalid") (from_hex address);
    if bool_decide (key <> address_key) then Err (attestation_error "attestation model key aliases disagree") else
    public_key ← map_err (fun _ => attestation_error "attestation model key is invalid") (from_hex public);
    if bool_decide (key <> public_key) then Err (attestation_error "attestation model key aliases disagree")
    else Ok key
  | _, _ => Ok key
  end.

Definition validate_report_identity (r : AttestationReport) (challenge : list N)
    (upstream_model expected_signing_algo : string) : result SecureClientError unit :=
  if negb (bool_decide (ar_signing_algo r = Some expected_signing_algo))
  then Err (attestation_error "attestation signing algorithm does not match the request") else
  echoed ← ok_or (echoed_nonce r) (attestation_error "attestation did not echo the request nonce");
  nonce ← decode_hex_32 echoed "attestation nonce is invalid";
  if negb (bool_decide (nonce = challenge))
  then Err (attestation_error "attestation nonce does not match the challenge") else
  if negb (bool_decide (ar_model_name r = Some upstream_model))
  then Err (attestation_error "attested model does not match the selected model") else
  fingerprint ← ok_or (tls_fingerprint r) (attestation_error "attestation omitted TLS binding");
  _ ← decode_hex_32 fingerprint "attestation TLS fingerprint is invalid";
  Ok tt.

Definition decode_quote (value : string) (limit : Z) : result SecureClientError (list N) :=
  let normalized := without_0x value in
  bs ← ok_or (match hex_decode normalized with Some bs => Some bs | None => b64_decode normalized end)
         (attestation_error "Intel quote encoding is invalid");
  if (length bs =? 0)%nat || (Z.of_nat (length bs) >? limit)
  then Err (attestation_error "Intel quote exceeds its configured bounds") else Ok bs.
End Fields.

(** ** Intel *)

Record IntelEvidence : Type := {
  ie_status : string; ie_advisory_ids : list string; ie_mr_td : string; ie_compose_hash : string
}.

(** The responses the collateral client is given. *)
Record HttpResponse : Type := { hr_status : Z; hr_headers : gmap string string; hr_body : list N }.

(** What the server answers: headers that are not text are none. *)
Inductive IntelOutcome : Type :=
| IntelResponds (status : Z) (headers : list (string * option string)) (body : HttpBody)
| IntelFails.

(** A TD 1.0 report of a verified quote. *)
Record TdReport : Type := { td_report_data : list N; td_mr_config_id : list N; td_mr_td : list N }.
Record VerifiedQuote : Type := {
  vq_status : string; vq_advisory_ids : list string; vq_td10 : option TdReport
}.

(** The library as a client: it asks for URLs until it has decided. *)
Inductive Fetching : Type :=
| FetchDone (o : option VerifiedQuote)
| FetchUrl (url : string) (next : option HttpResponse -> Fetching).

Class IntelLib : Type := {
  fetch_and_verify : string -> list N -> Fetching;   (** [CollateralClient::fetch_and_verify] *)
  digest : list N -> list N                          (** [Sha256::digest] *)
}.

Section Intel.
Context `{U : UrlLib} `{UO : !UrlOrigin} `{IL : IntelLib} `{KD : KeyDigest} `{NP : NearPrimitives}.
Implicit Types (cfg : RelayConfig).

(** The budget of bytes that remains, shared by all the requests of one verification. *)
Abbreviation Bounded := (M Z string).

(** [BoundedCollateralHttp::consume]. *)
Definition consume (amount : Z) : Bounded unit := fun remaining =>
  if amount <=? remaining then (remaining - amount, Ok tt)
  else (remaining, Err "Intel collateral exceeded its configured bound").

(** Names and values, and their size; a later header of a name replaces an earlier one. *)
Fixpoint collect_headers (l : list (string * option string)) (size : Z) (headers : gmap string string)
    : result string (Z * gmap string string) :=
  match l with
  | [] => Ok (size, headers)
  | (name, value) :: l =>
    value ← ok_or value "Intel collateral header is not text";
    size ← ok_or (checked_add size (len name + len value)) "Intel collateral headers overflowed";
    collect_headers l size (<[name := value]> headers)
  end.

Definition collateral_host (host : string) : bool :=
  bool_decide (host = "api.trustedservices.intel.com") || ends_with ".trustedservices.intel.com" host.

Definition collateral_policy : EndpointPolicy :=
  {| require_https := false; reject_local_addresses := true; allow_redirects := false |}.

(** [BoundedCollateralHttp::get]. *)
Definition collateral_get cfg (answers : string -> IntelOutcome) (value : string) : Bounded HttpResponse :=
  url ← lift (map_err (fun _ => "Intel collateral URL is invalid") (url_parse value));
  if negb (bool_decide (scheme url = "http") || bool_decide (scheme url = "https"))
     || negb (is_empty (username url)) || is_some (password url)
  then throw "Intel collateral URL is disallowed" else
  host ← lift (ok_or (host_str url) "Intel collateral URL has no host");
  if negb (collateral_host host) then throw "Intel collateral host is outside the trusted service scope" else
  _ ← lift (map_err (fun _ => "Intel collateral connection was rejected")
              (pinned_client (cf_environment cfg) url collateral_policy (Some (cf_attestation_timeout cfg)) false));
  match answers (url_to_string url) with
  | IntelFails => throw "Intel collateral request failed"
  | IntelResponds status headers b =>
    '(size, headers) ← lift (collect_headers headers 0 ∅);
    _ ← consume size;
    available ← gets (fun remaining => remaining);
    body ← lift (map_err (fun _ => "Intel collateral response was rejected") (read_bounded available b));
    _ ← consume (Z.of_nat (length body));
    mret {| hr_status := status; hr_headers := headers; hr_body := body |}
  end.

(** The requests of the library, one after the other; each may be answered differently. *)
Fixpoint run_fetching cfg (answers : nat -> string -> IntelOutcome) (n : nat) (f : Fetching) (remaining : Z)
    : Z * option VerifiedQuote :=
  match f with
  | FetchDone o => (remaining, o)
  | FetchUrl url next =>
    let '(remaining, o) := collateral_get cfg (answers n) url remaining in
    run_fetching cfg answers (S n) (next (match o with Ok r => Some r | Err _ => None end)) remaining
  end.

Definition verify_report_data (report_data signing_material tls_fingerprint nonce : list N)
    : result SecureClientError unit :=
  if negb (length report_data =? 64)%nat
  then Err (attestation_error "Intel report data must be exactly 64 bytes") else
  if (length signing_material =? 0)%nat then Err (attestation_error "attested signing material is invalid") else
  if negb (bool_decide (take 32 report_data = digest (signing_material ++ tls_fingerprint)))
     || negb (bool_decide (drop 32 report_data = nonce))
  then Err (attestation_error "Intel report data does not bind the signing key, TLS key, and nonce") else Ok tt.

(** The version 1 and the digest of the manifest, padded. *)
Definition expected_config_id (workload_manifest : string) : list N :=
  [1%N] ++ digest (bytes workload_manifest) ++ replicate 15 0%N.

Definition verify_intel cfg (answers : nat -> string -> IntelOutcome)
    (quote signing_material tls_fingerprint nonce : list N) (workload_manifest : string)
    : result SecureClientError IntelEvidence :=
  verified ← ok_or (run_fetching cfg answers 0 (fetch_and_verify INTEL_PCCS quote)
                      (intel_collateral_bytes (cf_limits cfg))).2
               (attestation_error "Intel TDX quote or collateral verification failed");
  td ← ok_or (vq_td10 verified) (attestation_error "Intel quote does not contain a supported TDX report");
  _ ← verify_report_data (td_report_data td) signing_material tls_fingerprint nonce;
  if negb (bool_decide (td_mr_config_id td = expected_config_id workload_manifest))
  then Err (attestation_error "Intel quote does not bind the workload manifest") else
  Ok {| ie_status := vq_status verified; ie_advisory_ids := vq_advisory_ids verified;
        ie_mr_td := hex_encode (td_mr_td td); ie_compose_hash := hex_encode (digest (bytes workload_manifest)) |}.

Definition accept_intel_status (status : string) (p : TrustPolicy) (accepts : bool)
    : result SecureClientError bool :=
  if bool_decide (status = "UpToDate") && bool_decide (status ∈ accepted_intel_statuses p) then Ok false else
  if bool_decide (status = "OutOfDate") then
    if accepts_outdated_tcb accepts PROVIDER_ID then Ok true else
    Err (with_code AttestationRejected COutdatedTee
           "The provider's Intel TDX environment is OutOfDate and requires security updates." false)
  else Err (attestation_error (
    if bool_decide (status = "OutOfDateConfigurationNeeded") then "Intel TDX status is OutOfDateConfigurationNeeded"
    else if bool_decide (status = "ConfigurationNeeded") then "Intel TDX status is ConfigurationNeeded"
    else if bool_decide (status = "SWHardeningNeeded") then "Intel TDX status is SWHardeningNeeded"
    else if bool_decide (status = "ConfigurationAndSWHardeningNeeded")
    then "Intel TDX status is ConfigurationAndSWHardeningNeeded"
    else if bool_decide (status = "Revoked") then "Intel TDX status is Revoked"
    else "Intel TDX status is rejected by policy; see verification diagnostics")).
End Intel.

(** ** NVIDIA *)

Record JwsHeader : Type := { jh_alg : string; jh_kid : string }.
Record Jwk : Type := { jk_kid : option string; jk_x5c : option (list string) }.
Record Jwks : Type := { jks_keys : list Jwk }.

Class NvidiaLib : Type := {
  Certificate : Type;
  P384Key : Type;
  P384Signature : Type;
  value_from_slice : list N -> option Value;              (** [serde_json::from_slice::<Value>] *)
  header_from_slice : list N -> option JwsHeader;         (** .. of a derived struct *)
  jwks_from_slice : list N -> option Jwks;
  url_safe_decode : string -> option (list N);            (** [URL_SAFE_NO_PAD.decode] *)
  x509_from_der : list N -> option Certificate;           (** [X509Certificate::from_der] *)
  x509_valid : Z -> Certificate -> bool;                  (** [validity().is_valid()] *)
  x509_signed_by : Certificate -> Certificate -> bool;    (** [verify_signature(Some(anchor.public_key()))] *)
  p384_key : Certificate -> option P384Key;               (** [VerifyingKey::from_public_key_der] of its key *)
  p384_signature : list N -> option P384Signature;        (** [Signature::from_slice] *)
  p384_verify : P384Key -> list N -> P384Signature -> bool
}.

Definition eq_ignore_ascii_case (a b : string) : bool := bool_decide (to_ascii_lowercase a = to_ascii_lowercase b).

(** The member of that name, when it is this text but for the case. *)
Definition member_matches (name expected : string) (v : Value) : bool :=
  match value_get name v ≫= as_str with Some s => eq_ignore_ascii_case s expected | None => false end.

(** [Value::get] of a place in an array. *)
Definition value_nth (n : nat) (v : Value) : option Value := l ← as_array v; l !! n.

(** A request to NVIDIA. *)
Record VendorRequest : Type := { vr_client : Endpoint.Client; vr_url : string; vr_body : option (list N) }.

Section Nvidia.
Context `{U : UrlLib} `{UO : !UrlOrigin} `{NV : NvidiaLib} `{KD : KeyDigest} `{NP : NearPrimitives}.
Context `{SJ : SerdeJson} `{B64 : Base64}.
Implicit Types (cfg : RelayConfig).

Definition decode_jws_json {T} (decode : list N -> option T) (encoded detail : string)
    : result SecureClientError T :=
  bs ← ok_or (url_safe_decode encoded) (attestation_error detail);
  ok_or (decode bs) (attestation_error detail).

Definition decode_certificate (encoded : string) : result SecureClientError (list N) :=
  if len encoded >? 64 * 1024 then Err (attestation_error "NVIDIA certificate exceeds its configured bound")
  else ok_or (b64_decode encoded) (attestation_error "NVIDIA certificate encoding is invalid").

(** The first key of that identifier, when its chain has a certificate above the leaf. *)
Definition find_chain (kid : string) (keys : list Jwk) : option (string * string) :=
  key ← List.find (fun k => bool_decide (jk_kid k = Some kid)) keys;
  match jk_x5c key with Some (leaf :: intermediate :: _) => Some (leaf, intermediate) | _ => None end.

(** The verdict is a true value, or a text that says so. *)
Definition verdict_passed (v : Value) : bool :=
  match value_get "x-nvidia-overall-att-result" v with
  | Some (VBool b) => b
  | Some (VString s) => bool_decide (to_ascii_lowercase s ∈ ["true"; "success"; "pass"])
  | _ => false
  end.

(** [verify_nvidia_jwt] at time [now]. *)
Definition verify_nvidia_jwt (now : Z) (jwt : string) (jwks_json : list N) (expected_nonce : string)
    (approved_anchor_sha256 : list string) : result SecureClientError unit :=
  match split_byte 46 jwt with
  | [encoded_header; encoded_payload; encoded_signature] =>
    header ← decode_jws_json header_from_slice encoded_header "NVIDIA JWT header is invalid";
    if negb (bool_decide (jh_alg header = "ES384")) || is_empty (jh_kid header)
    then Err (attestation_error "NVIDIA verdict uses an unsupported signing algorithm") else
    jwks ← ok_or (jwks_from_slice jwks_json) (attestation_error "NVIDIA JWKS is invalid");
    '(leaf, intermediate) ← ok_or (find_chain (jh_kid header) (jks_keys jwks))
                              (attestation_error "NVIDIA signing key is absent from JWKS");
    leaf_der ← decode_certificate leaf;
    presented_intermediate ← decode_certificate intermediate;
    if negb (bool_decide (sha256_hex presented_intermediate ∈ approved_anchor_sha256))
    then Err (attestation_error "NVIDIA certificate chain does not match the signed trust policy") else
    anchor ← ok_or (x509_from_der presented_intermediate) (attestation_error "NVIDIA anchor is invalid");
    leaf ← ok_or (x509_from_der leaf_der) (attestation_error "NVIDIA leaf certificate is invalid");
    if negb (x509_valid now leaf) || negb (x509_valid now anchor)
    then Err (attestation_error "NVIDIA signing certificate is outside its validity period") else
    if negb (x509_signed_by leaf anchor)
    then Err (attestation_error "NVIDIA leaf is not signed by the pinned anchor") else
    key ← ok_or (p384_key leaf) (attestation_error "NVIDIA leaf does not contain a P-384 key");
    signature_bytes ← ok_or (url_safe_decode encoded_signature)
                        (attestation_error "NVIDIA JWT signature is malformed");
    signature ← ok_or (p384_signature signature_bytes) (attestation_error "NVIDIA JWT signature is malformed");
    if negb (p384_verify key (bytes (encoded_header +:+ "." +:+ encoded_payload)) signature)
    then Err (attestation_error "NVIDIA JWT signature is invalid") else
    payload ← decode_jws_json value_from_slice encoded_payload "NVIDIA JWT payload is invalid";
    if negb (verdict_passed payload) then Err (attestation_error "NVIDIA attestation verdict is not a pass") else
    if negb (member_matches "eat_nonce" expected_nonce payload)
    then Err (attestation_error "NVIDIA verdict nonce does not match the challenge") else Ok tt
  | _ => Err (attestation_error "NVIDIA verdict JWT is malformed")
  end.

(** A response of status 200. *)
Definition accepted_response (o : HttpOutcome) (failed rejected : string) : result SecureClientError HttpBody :=
  match o with
  | Responds status b => if status =? 200 then Ok b else Err (attestation_error rejected)
  | _ => Err (attestation_error failed)
  end.

(** [verify_nvidia]: the evidence is sent to the service, its verdict is checked with the
    keys it publishes.  [nras_url] and [jwks_url] are the parsed constants. *)
Definition verify_nvidia cfg (now : Z) (answers : VendorRequest -> HttpOutcome) (nras_url jwks_url : Url)
    (payload : Value) (expected_nonce : list N) (approved_anchor_sha256 : list string)
    : result SecureClientError unit :=
  payload_text ← ok_or (to_vec payload) (attestation_error "NVIDIA evidence is invalid");
  if len payload_text >? nvidia_evidence_bytes (cf_limits cfg)
  then Err (attestation_error "NVIDIA evidence exceeds its configured bound") else
  let expected_nonce_hex := hex_encode expected_nonce in
  if negb (member_matches "nonce" expected_nonce_hex payload)
  then Err (attestation_error "NVIDIA evidence nonce does not match the challenge") else
  http ← pinned_client (cf_environment cfg) nras_url default_endpoint_policy
           (Some (cf_attestation_timeout cfg)) false;
  response ← accepted_response
    (answers {| vr_client := http; vr_url := url_to_string nras_url; vr_body := Some (bytes payload_text) |})
    "NVIDIA NRAS request failed" "NVIDIA NRAS rejected the evidence";
  body ← read_bounded (nvidia_jwt_bytes (cf_limits cfg)) response;
  nras ← ok_or (value_from_slice body) (attestation_error "NVIDIA NRAS response is invalid");
  jwt ← ok_or (e ← value_nth 0 nras; v ← value_nth 1 e; as_str v)
          (attestation_error "NVIDIA NRAS response omitted its verdict");
  if len jwt >? nvidia_jwt_bytes (cf_limits cfg)
  then Err (attestation_error "NVIDIA verdict exceeds its configured bound") else
  jwks_response ← accepted_response
    (answers {| vr_client := http; vr_url := url_to_string jwks_url; vr_body := None |})
    "NVIDIA JWKS request failed" "NVIDIA JWKS request was rejected";
  jwks ← read_bounded (nvidia_jwks_bytes (cf_limits cfg)) jwks_response;
  verify_nvidia_jwt now jwt jwks expected_nonce_hex approved_anchor_sha256.
End Nvidia.

(** ** A worker *)

Record VerifiedNearAttestation : Type := {
  vn_model_key : Ed25519PublicKey; vn_response_signing_address : string; vn_evidence : SecurityEvidence
}.

(** The derived deserializers of the envelope and of the lease in it. *)
Class EvidenceCodec : Type := {
  worker_envelope_from_slice : list N -> option WorkerSessionEnvelope;
  lease_from_value : Value -> option ProviderKeyLease
}.

(** What the vendors answer, the clocks, the user's consent when it is asked for, which of
    the two verifications ends first, and whether the call is cancelled before or while
    they run. *)
Record Vendors : Type := {
  ve_intel : nat -> string -> IntelOutcome;
  ve_nvidia : VendorRequest -> HttpOutcome;
  ve_now : Z;            (** of the certificates, in their own time *)
  ve_verified_at : Z;    (** in Unix seconds, 0 before 1970 *)
  ve_accepts : bool;
  ve_intel_first : bool;
  ve_cancelled_before : bool;
  ve_cancelled_meanwhile : bool
}.

(** [tokio::try_join!]: both succeed, or the failure that comes first is the result. *)
Definition try_join {E A B} (first : bool) (a : result E A) (b : result E B) : result E (A * B) :=
  match a, b with
  | Ok a, Ok b => Ok (a, b)
  | Err e, Ok _ => Err e
  | Ok _, Err e => Err e
  | Err e, Err e' => Err (if first then e else e')
  end.

Definition check (id label status : string) : EvidenceCheck :=
  {| check_id := id; check_label := label; check_status := status; check_passed := true |}.
Definition claim (name value : string) : EvidenceClaim := {| claim_name := name; claim_value := value |}.

Record Attesting : Type := { at_rng : Rng; at_network : Network }.
Abbreviation Attest := (M Attesting SecureClientError).
Definition attest_drawing {A} (m : Drawing A) : Attest A := fun w =>
  let '(g, r) := m (at_rng w) in ({| at_rng := g; at_network := at_network w |}, r).
Definition attest_calling {A} (m : Calling A) : Attest A := fun w =>
  let '(n, r) := m (at_network w) in ({| at_rng := at_rng w; at_network := n |}, r).

Definition session_id_ok (id : string) : bool :=
  (len id =? 32) && forallb (fun b => is_ascii_hexdigit b && negb (is_ascii_uppercase b)) (bytes id).

Section Workers.
Context `{U : UrlLib} `{UO : !UrlOrigin} `{RH : !RelayHttp}.
Context `{IL : IntelLib} `{NV : NvidiaLib} `{EC : EvidenceCodec}.
Context `{KD : KeyDigest} `{NP : NearPrimitives} `{SJ : SerdeJson} `{B64 : Base64}.
Implicit Types (cfg : RelayConfig).

Definition build_evidence (now : Z) (model_id : string) (p : TrustPolicy) (key : Ed25519PublicKey)
    (fingerprint : list N) (i : IntelEvidence) (manifest : string) : SecurityEvidence :=
  {| se_state := SecVerified; se_provider_id := PROVIDER_ID; se_model_id := model_id;
     attestation_protocol := ATTESTATION_PROTOCOL; e2ee_protocol := E2EE_PROTOCOL;
     e2ee_encryption_version := ENCRYPTION_VERSION; trust_policy_version := version p;
     verified_at_unix_seconds := now; attestation_generation := None;
     Accounting.hard_expires_at_unix_seconds := None;
     Accounting.model_key_fingerprint := sha256_hex (key_bytes key);
     tls_spki_fingerprint := Some (hex_encode fingerprint);
     checks := [check "nonce_freshness" "Fresh challenge" "matched"; check "model_binding" "Model identity" "matched";
                check "model_key_binding" "Model encryption key" "bound";
                check "tls_binding" "Attested worker TLS key" "quote-bound";
                check "intel_tdx" "Intel TDX" (ie_status i); check "nvidia_gpu" "NVIDIA GPU" "verified";
                check "workload_manifest" "Workload manifest" "quote-bound"];
     provider_claims := [claim "intel_mr_td" (ie_mr_td i); claim "workload_manifest_sha256" (ie_compose_hash i);
                         claim "intel_advisory_ids" (join "," (ie_advisory_ids i))];
     workload_manifest := Some manifest |}.

Definition with_evidence (state : SecurityState) (l : list EvidenceCheck) (claims : list EvidenceClaim)
    (e : SecurityEvidence) : SecurityEvidence :=
  {| se_state := state; se_provider_id := se_provider_id e; se_model_id := se_model_id e;
     attestation_protocol := attestation_protocol e; e2ee_protocol := e2ee_protocol e;
     e2ee_encryption_version := e2ee_encryption_version e; trust_policy_version := trust_policy_version e;
     verified_at_unix_seconds := verified_at_unix_seconds e; attestation_generation := attestation_generation e;
     Accounting.hard_expires_at_unix_seconds := Accounting.hard_expires_at_unix_seconds e;
     Accounting.model_key_fingerprint := Accounting.model_key_fingerprint e;
     tls_spki_fingerprint := tls_spki_fingerprint e; checks := l; provider_claims := claims;
     workload_manifest := workload_manifest e |}.

(** The first check of that identifier does not pass. *)
Fixpoint fail_check (id : string) (l : list EvidenceCheck) : list EvidenceCheck :=
  match l with
  | [] => []
  | c :: l =>
    if bool_decide (check_id c = id)
    then {| check_id := check_id c; check_label := check_label c; check_status := check_status c;
            check_passed := false |} :: l
    else c :: fail_check id l
  end.

Definition degraded (e : SecurityEvidence) : SecurityEvidence :=
  with_evidence SecDegraded (fail_check "intel_tdx" (checks e))
    (provider_claims e ++ [claim "outdated_tcb_accepted" "Accepted by user for this provider until restart"]) e.
Definition with_signer (key : Ed25519PublicKey) (e : SecurityEvidence) : SecurityEvidence :=
  with_evidence (se_state e)
    (checks e ++ [check "response_signature" "Provider response signature" "ed25519-attested"])
    (provider_claims e ++ [claim "response_signing_address" (to_hex key);
                           claim "response_signing_key_fingerprint" (sha256_hex (key_bytes key))]) e.

(** What the evidence of the relay says, before any of it is verified. *)
Record Stated : Type := {
  sd_session_id : string; sd_lease : ProviderKeyLease; sd_key : Ed25519PublicKey; sd_fingerprint : list N;
  sd_manifest : string; sd_quote : list N; sd_nvidia : Value
}.

Definition read_evidence cfg (m : ModelInfo) (nonce : list N) (wire : WorkerSessionEnvelope)
    : result SecureClientError Stated :=
  if negb (bool_decide (we_provider wire = PROVIDER_ID)) || negb (bool_decide (we_model_id wire = mi_id m))
     || negb (bool_decide (we_attestation_protocol wire = ATTESTATION_PROTOCOL))
  then Err (attestation_error "NEAR worker session contract is invalid") else
  worker_session_id ← ok_or (id ← value_get "worker_session_id" (we_evidence wire) ≫= as_str;
                             if session_id_ok id then Some id else None)
                        (attestation_error "NEAR worker session ID is invalid");
  lease ← ok_or (lease_from_value (default VNull (value_get "lease" (we_evidence wire))))
            (attestation_error "NEAR worker session lease is invalid");
  normalized ← normalize_report (we_evidence wire);
  report ← ok_or (report_from_value normalized) (attestation_error "NEAR worker evidence schema is invalid");
  _ ← validate_report_identity report nonce (mi_upstream_model m) "ed25519";
  key ← report_key report;
  tls ← ok_or (tls_fingerprint report) (attestation_error "attestation omitted TLS binding");
  fingerprint ← decode_hex_32 tls "attestation TLS fingerprint is invalid";
  manifest ← workload_manifest_of report;
  encoded ← ok_or (ar_intel_quote report) (attestation_error "attestation omitted Intel evidence");
  quote ← decode_quote encoded (attestation_quote_bytes (cf_limits cfg));
  payload ← ok_or (ar_nvidia_payload report) (attestation_error "attestation omitted NVIDIA evidence");
  Ok {| sd_session_id := worker_session_id; sd_lease := lease; sd_key := key; sd_fingerprint := fingerprint;
        sd_manifest := manifest; sd_quote := quote; sd_nvidia := payload |}.

(** The vendors' word on it. *)
Definition judge_evidence cfg (nras_url jwks_url : Url) (ve : Vendors) (m : ModelInfo) (p : TrustPolicy)
    (nonce : list N) (s : Stated) : result SecureClientError VerifiedNearAttestation :=
  if ve_cancelled_meanwhile ve then Err cancelled_error else
  '(intel, _) ← try_join (ve_intel_first ve)
     (verify_intel cfg (ve_intel ve) (sd_quote s) (key_bytes (sd_key s)) (sd_fingerprint s) nonce (sd_manifest s))
     (verify_nvidia cfg (ve_now ve) (ve_nvidia ve) nras_url jwks_url (sd_nvidia s) nonce (nvidia_anchor_sha256 p));
  outdated_accepted ← accept_intel_status (ie_status intel) p (ve_accepts ve);
  if negb (require_nvidia_verified p)
  then Err (configuration_error "near-v3 requires NVIDIA verification") else
  let e := build_evidence (ve_verified_at ve) (mi_id m) p (sd_key s) (sd_fingerprint s) intel (sd_manifest s) in
  let e := if (outdated_accepted : bool) then degraded e else e in
  Ok {| vn_model_key := sd_key s; vn_response_signing_address := to_hex (sd_key s);
        vn_evidence := with_signer (sd_key s) e |}.

Definition verify_model cfg (nras_url jwks_url : Url) (ve : Vendors) (m : ModelInfo) (p : TrustPolicy)
    : Attest (VerifiedNearAttestation * ProviderKeyLease * string) :=
  if ve_cancelled_before ve then throw cancelled_error else
  _ ← lift (validate_provider_url (cf_endpoint_policy cfg) (mi_provider_base_url m));
  nonce ← attest_drawing (fill_bytes 32);
  wire ← attest_calling (provider_attestation_report worker_envelope_from_slice cfg false (mi_id m)
           (hex_encode nonce) E2EE_PROTOCOL ENCRYPTION_VERSION ATTESTATION_PROTOCOL);
  s ← lift (read_evidence cfg m nonce wire);
  verified ← lift (judge_evidence cfg nras_url jwks_url ve m p nonce s);
  mret (verified, sd_lease s, sd_session_id s).
End Workers.

(** * What an accepted attestation shows *)

(** A guard that an accepted value has passed. *)
Ltac passed H := first
  [ rewrite negb_false_iff, bool_decide_eq_true in H
  | rewrite negb_false_iff in H
  | idtac ].

Section Attested.
Context `{U : UrlLib} `{UO : !UrlOrigin} `{RH : !RelayHttp}.
Context `{IL : IntelLib} `{NV : NvidiaLib} `{EC : EvidenceCodec}.
Context `{KD : KeyDigest} `{NP : NearPrimitives} `{SJ : SerdeJson} `{B64 : Base64}.
Implicit Types (cfg : RelayConfig).

(** ** The collateral client *)

Lemma collect_headers_size l n hs size hs' :
  collect_headers l n hs = Ok (size, hs') -> 0 <= n -> 0 <= size.
Proof.
  revert n hs. induction l as [|[name value] l IH]; intros n hs; cbn [collect_headers]; [by intros [= <- _]|].
  intros H Hn. apply bind_Ok in H as (v & _ & H). apply bind_Ok in H as (n' & Hn'%ok_or_Ok & H).
  eapply IH; [exact H|]. unfold checked_add in Hn'. destruct (_ <=? _); [|done]. injection Hn' as <-. unfold len. lia.
Qed.

(** No request is answered with more than what remained, and what it took is deducted. *)
Lemma collateral_get_bounded cfg answers url remaining :
  0 <= remaining ->
  let '(r', o) := collateral_get cfg answers url remaining in
  0 <= r' <= remaining /\
  match o with Ok r => Z.of_nat (length (hr_body r)) <= remaining - r' | Err _ => True end.
Proof.
  intros Hr. unfold collateral_get. rewrite M_bind_run. unfold lift at 1. destruct (map_err _ _) as [u|]; [|by split; [lia|]].
  destruct (negb (_ || _) || _ || _); [by split; [lia|]|]. rewrite M_bind_run. unfold lift at 1.
  destruct (ok_or (host_str u) _) as [host|]; [|by split; [lia|]]. destruct (negb (collateral_host _)); [by split; [lia|]|].
  rewrite M_bind_run. unfold lift at 1. destruct (map_err _ (pinned_client _ _ _ _ _)); [|by split; [lia|]].
  destruct (answers _) as [status headers b|]; [|by split; [lia|]].
  rewrite M_bind_run. unfold lift at 1. destruct (collect_headers _ _ _) as [[size hs]|] eqn:Eh; [|by split; [lia|]].
  assert (Hs : 0 <= size).
  { by apply collect_headers_size in Eh; [|lia]. }
  rewrite M_bind_run. unfold consume at 1. destruct (size <=? remaining) eqn:E1; [|by split; [lia|]].
  rewrite M_bind_run. unfold gets. rewrite M_bind_run. unfold lift. destruct (map_err _ _) as [body|]; [|by split; [lia|]].
  rewrite M_bind_run. unfold consume.
  destruct (Z.of_nat (length body) <=? remaining - size) eqn:E2; cbn -[Z.sub]; lia.
Qed.

(** The library never gets more than the configured bytes, whatever it asks for. *)
Fixpoint delivered cfg (answers : nat -> string -> IntelOutcome) (n : nat) (f : Fetching) (remaining : Z) : Z :=
  match f with
  | FetchDone _ => 0
  | FetchUrl url next =>
    let '(remaining, o) := collateral_get cfg (answers n) url remaining in
    match o with Ok r => Z.of_nat (length (hr_body r)) | Err _ => 0 end
    + delivered cfg answers (S n) (next (match o with Ok r => Some r | Err _ => None end)) remaining
  end.

Lemma delivered_bounded cfg answers n f remaining :
  0 <= remaining ->
  let left := (run_fetching cfg answers n f remaining).1 in
  0 <= delivered cfg answers n f remaining /\ 0 <= left /\ delivered cfg answers n f remaining + left <= remaining.
Proof.
  revert n remaining. induction f as [o|url next IH]; intros n remaining Hr; cbn [delivered run_fetching]; [cbn; lia|].
  pose proof (collateral_get_bounded cfg (answers n) url remaining Hr) as H.
  destruct (collateral_get _ _ _ _) as [r' o]. destruct H as [Hr' Ho].
  specialize (IH (match o with Ok r => Some r | Err _ => None end) (S n) r' ltac:(lia)). cbv zeta in *. destruct o; lia.
Qed.

(** ** The vendors' word *)

(** The quote is accepted by the vendor's library with this status, and binds the keys,
    the challenge and the workload. *)
Definition quoted cfg (answers : nat -> string -> IntelOutcome) (quote key fingerprint nonce : list N)
    (manifest status : string) : Prop :=
  exists vq td,
    (run_fetching cfg answers 0 (fetch_and_verify INTEL_PCCS quote) (intel_collateral_bytes (cf_limits cfg))).2 = Some vq /\
    vq_td10 vq = Some td /\ vq_status vq = status /\ length (td_report_data td) = 64%nat /\
    td_report_data td = digest (key ++ fingerprint) ++ nonce /\
    td_mr_config_id td = expected_config_id manifest.

Lemma verify_intel_Ok cfg answers quote key fingerprint nonce manifest i :
  verify_intel cfg answers quote key fingerprint nonce manifest = Ok i ->
  quoted cfg answers quote key fingerprint nonce manifest (ie_status i) /\
  ie_compose_hash i = hex_encode (digest (bytes manifest)).
Proof.
  unfold verify_intel. intros H. apply bind_Ok in H as (vq & Hvq%ok_or_Ok & H).
  apply bind_Ok in H as (td & Htd%ok_or_Ok & H). apply bind_Ok in H as ([] & Hd & H).
  destruct (negb _) eqn:Em; [done|]. passed Em. injection H as <-. split; [|done].
  unfold verify_report_data in Hd. destruct (negb (_ =? 64)%nat) eqn:El; [done|]. destruct (_ =? 0)%nat; [done|].
  destruct (_ || _) eqn:Eb; [done|]. apply orb_false_iff in Eb as [E1 E2]. passed E1. passed E2.
  exists vq, td. split_and!; try done; [lia|]. rewrite <- E1, <- E2. by rewrite take_drop.
Qed.

(** A verdict that an approved anchor vouches for, about this challenge. *)
Definition vouched (now : Z) (anchors : list string) (nonce : string) (jwt : string) : Prop :=
  exists h p s anchor_der anchor leaf key signature payload,
    split_byte 46 jwt = [h; p; s] /\
    sha256_hex anchor_der ∈ anchors /\ x509_from_der anchor_der = Some anchor /\
    x509_signed_by leaf anchor = true /\ x509_valid now leaf = true /\ x509_valid now anchor = true /\
    p384_key leaf = Some key /\ url_safe_decode s ≫= p384_signature = Some signature /\
    p384_verify key (bytes (h +:+ "." +:+ p)) signature = true /\
    url_safe_decode p ≫= value_from_slice = Some payload /\ verdict_passed payload = true /\
    member_matches "eat_nonce" nonce payload = true.

Lemma decode_jws_Ok {T} (decode : list N -> option T) encoded detail v :
  decode_jws_json decode encoded detail = Ok v -> url_safe_decode encoded ≫= decode = Some v.
Proof.
  unfold decode_jws_json. intros H. apply bind_Ok in H as (bs & Hb%ok_or_Ok & H%ok_or_Ok). by rewrite Hb.
Qed.

Lemma verify_jwt_Ok now jwt jwks nonce anchors :
  verify_nvidia_jwt now jwt jwks nonce anchors = Ok tt -> vouched now anchors nonce jwt.
Proof.
  unfold verify_nvidia_jwt. destruct (split_byte 46 jwt) as [|h [|p [|s []]]] eqn:Es; try done.
  intros H. apply bind_Ok in H as (header & _ & H). destruct (_ || _); [done|].
  apply bind_Ok in H as (keys & _ & H). apply bind_Ok in H as ([leaf intermediate] & _ & H).
  apply bind_Ok in H as (leaf_der & _ & H). apply bind_Ok in H as (anchor_der & _ & H).
  destruct (negb _) eqn:Ea; [done|]. passed Ea.
  apply bind_Ok in H as (anchor & Hanchor%ok_or_Ok & H). apply bind_Ok in H as (leaf' & _ & H).
  destruct (negb (x509_valid now leaf') || _) eqn:Ev; [done|]. apply orb_false_iff in Ev as [E1 E2]. passed E1. passed E2.
  destruct (negb (x509_signed_by _ _)) eqn:Esig; [done|]. passed Esig.
  apply bind_Ok in H as (key & Hkey%ok_or_Ok & H). apply bind_Ok in H as (sb & Hsb%ok_or_Ok & H).
  apply bind_Ok in H as (signature & Hsig%ok_or_Ok & H). destruct (negb (p384_verify _ _ _)) eqn:Eg; [done|]. passed Eg.
  apply bind_Ok in H as (payload & Hp%decode_jws_Ok & H). destruct (negb (verdict_passed _)) eqn:Epass; [done|]. passed Epass.
  destruct (negb (member_matches _ _ _)) eqn:Em; [done|]. passed Em.
  exists h, p, s, anchor_der, anchor, leaf', key, signature, payload. rewrite Hsb. by split_and!.
Qed.

Lemma verify_nvidia_Ok cfg now answers nras jwks payload nonce anchors :
  verify_nvidia cfg now answers nras jwks payload nonce anchors = Ok tt ->
  member_matches "nonce" (hex_encode nonce) payload = true /\
  exists jwt, vouched now anchors (hex_encode nonce) jwt.
Proof.
  unfold verify_nvidia. intros H. apply bind_Ok in H as (text & _ & H). destruct (_ >? _); [done|].
  destruct (negb _) eqn:Em; [done|]. passed Em. split; [done|].
  apply bind_Ok in H as (http & _ & H). apply bind_Ok in H as (response & _ & H).
  apply bind_Ok in H as (body & _ & H). apply bind_Ok in H as (nras' & _ & H).
  apply bind_Ok in H as (jwt & _ & H). destruct (_ >? _); [done|].
  apply bind_Ok in H as (jr & _ & H). apply bind_Ok in H as (keys & _ & H).
  exists jwt. by apply verify_jwt_Ok in H.
Qed.

(** ** A worker *)

(** The evidence the relay transported, by what it says. *)
Definition names_worker cfg (m : ModelInfo) (nonce : list N) (wire : WorkerSessionEnvelope) (s : Stated) : Prop :=
  we_provider wire = PROVIDER_ID /\ we_model_id wire = mi_id m /\ we_attestation_protocol wire = ATTESTATION_PROTOCOL /\
  session_id_ok (sd_session_id s) = true /\
  exists report, (normalize_report (we_evidence wire) = Ok report /\
    exists r, report_from_value report = Some r /\
      ar_signing_algo r = Some "ed25519" /\ ar_model_name r = Some (mi_upstream_model m) /\
      (exists t, echoed_nonce r = Some t /\ decode_hex_32 t "attestation nonce is invalid" = Ok nonce) /\
      report_key r = Ok (sd_key s) /\
      (exists t, tls_fingerprint r = Some t /\ decode_hex_32 t "attestation TLS fingerprint is invalid" = Ok (sd_fingerprint s)) /\
      workload_manifest_of r = Ok (sd_manifest s) /\ ar_nvidia_payload r = Some (sd_nvidia s)).

Lemma validate_identity_Ok r nonce model algo :
  validate_report_identity r nonce model algo = Ok tt ->
  ar_signing_algo r = Some algo /\ ar_model_name r = Some model /\
  exists t, echoed_nonce r = Some t /\ decode_hex_32 t "attestation nonce is invalid" = Ok nonce.
Proof.
  unfold validate_report_identity. destruct (negb _) eqn:Ea; [done|]. passed Ea. intros H.
  apply bind_Ok in H as (t & Ht%ok_or_Ok & H). apply bind_Ok in H as (n & Hn & H).
  destruct (negb (bool_decide (n = _))) eqn:En; [done|]. passed En. subst n.
  destruct (negb (bool_decide (ar_model_name r = _))) eqn:Em; [done|]. passed Em. split_and!; try done. by exists t.
Qed.

Lemma read_evidence_Ok cfg m nonce wire s :
  read_evidence cfg m nonce wire = Ok s -> names_worker cfg m nonce wire s.
Proof.
  unfold read_evidence. destruct (_ || _) eqn:Ec; [done|]. intros H.
  rewrite !orb_false_iff in Ec. destruct Ec as [[E1 E2] E3]. passed E1. passed E2. passed E3.
  apply bind_Ok in H as (id & Hid%ok_or_Ok & H). apply bind_Ok in H as (lease & _ & H).
  apply bind_Ok in H as (report & Hn & H). apply bind_Ok in H as (r & Hr%ok_or_Ok & H).
  apply bind_Ok in H as ([] & (Ha & Hm & Hnonce)%validate_identity_Ok & H). apply bind_Ok in H as (key & Hk & H).
  apply bind_Ok in H as (t & Ht%ok_or_Ok & H). apply bind_Ok in H as (fp & Hfp & H).
  apply bind_Ok in H as (manifest & Hman & H). apply bind_Ok in H as (q & _ & H).
  apply bind_Ok in H as (quote & _ & H). apply bind_Ok in H as (payload & Hp%ok_or_Ok & H). injection H as <-.
  unfold names_worker. cbn. split_and!; try done.
  - apply bind_Some in Hid as (i & _ & Hi). destruct (session_id_ok i) eqn:E; [|done]. by injection Hi as <-.
  - exists report. split; [done|]. exists r. split_and!; try done. by exists t.
Qed.

(** What the user is told of it. *)
Record honest_evidence (m : ModelInfo) (p : TrustPolicy) (now : Z) (key : Ed25519PublicKey) (fingerprint : list N)
    (manifest status : string) (e : SecurityEvidence) : Prop := {
  he_state : (se_state e = SecVerified /\ status = "UpToDate" /\ status ∈ accepted_intel_statuses p) \/
    (se_state e = SecDegraded /\ status = "OutOfDate" /\
       exists c, c ∈ checks e /\ check_id c = "intel_tdx" /\ check_passed c = false);
  he_model : se_model_id e = mi_id m /\ se_provider_id e = PROVIDER_ID /\ attestation_protocol e = ATTESTATION_PROTOCOL;
  he_time : verified_at_unix_seconds e = now;
  he_policy : trust_policy_version e = version p;
  he_key : Accounting.model_key_fingerprint e = sha256_hex (key_bytes key);
  he_tls : tls_spki_fingerprint e = Some (hex_encode fingerprint);
  he_manifest : workload_manifest e = Some manifest
}.

(** Every vendor has vouched for the worker of these keys, for this challenge. *)
Record vouched_for cfg (ve : Vendors) (m : ModelInfo) (p : TrustPolicy) (nonce : list N) (s : Stated)
    (v : VerifiedNearAttestation) : Prop := {
  vf_key : vn_model_key v = sd_key s /\ vn_response_signing_address v = to_hex (sd_key s);
  vf_intel : exists status,
    quoted cfg (ve_intel ve) (sd_quote s) (key_bytes (sd_key s)) (sd_fingerprint s) nonce (sd_manifest s) status /\
    honest_evidence m p (ve_verified_at ve) (sd_key s) (sd_fingerprint s) (sd_manifest s) status (vn_evidence v) /\
    (status = "UpToDate" \/ ve_accepts ve = true);
  vf_nvidia : member_matches "nonce" (hex_encode nonce) (sd_nvidia s) = true /\
    exists jwt, vouched (ve_now ve) (nvidia_anchor_sha256 p) (hex_encode nonce) jwt;
  vf_required : require_nvidia_verified p = true
}.

Lemma accept_status_Ok status p accepts o :
  accept_intel_status status p accepts = Ok o ->
  (o = false /\ status = "UpToDate" /\ status ∈ accepted_intel_statuses p) \/
  (o = true /\ status = "OutOfDate" /\ accepts = true).
Proof.
  unfold accept_intel_status. destruct (bool_decide (status = "UpToDate") && _) eqn:E1.
  { intros [= <-]. apply andb_true_iff in E1 as [? ?]. rewrite !bool_decide_eq_true in *. by left. }
  destruct (bool_decide (status = "OutOfDate")) eqn:E2; [|done].
  unfold accepts_outdated_tcb. destruct (_ && accepts) eqn:E3; [|done]. intros [= <-].
  apply bool_decide_eq_true in E2. apply andb_true_iff in E3 as [_ ?]. by right.
Qed.

Lemma judge_evidence_Ok cfg nras jwks ve m p nonce s v :
  judge_evidence cfg nras jwks ve m p nonce s = Ok v -> vouched_for cfg ve m p nonce s v.
Proof.
  unfold judge_evidence. destruct (ve_cancelled_meanwhile ve); [done|]. intros H.
  apply bind_Ok in H as ([i []] & Hj & H).
  destruct (verify_intel _ _ _ _ _ _ _) as [i'|] eqn:Ei; [|by destruct (verify_nvidia _ _ _ _ _ _ _ _)].
  destruct (verify_nvidia _ _ _ _ _ _ _ _) as [[]|] eqn:En; [|done]. injection Hj as ->.
  apply verify_intel_Ok in Ei as [Hq _]. apply verify_nvidia_Ok in En.
  apply bind_Ok in H as (outdated & Ho%accept_status_Ok & H). destruct (negb _) eqn:Er; [done|]. passed Er.
  injection H as <-. constructor; [done| |done|done]. exists (ie_status i). split; [done|].
  destruct Ho as [(-> & Hst & Hin)|(-> & Hst & Ha)]; (split; [|by auto]); constructor; try done; cbn.
  - by left.
  - right. split_and!; try done.
    exists {| check_id := "intel_tdx"; check_label := "Intel TDX"; check_status := ie_status i; check_passed := false |}.
    split_and!; try done. set_solver.
Qed.
End Attested.
