(* ===== verification/NearEngine.v ===== *)
(** The NEAR provider (crates/axiom-secure-client/src/providers/near/mod.rs): sessions are
    established from attested material, which tasks share through the cache of lease.rs.

    [establish] is asynchronous: a task looks into the cache, waits for the lock of its
    model, looks again, and attests the worker; other tasks and invalidations run between
    any two of its steps.  An [Engine] is what the tasks share and where each stands, and
    [engine_step] one step of one task. *)

From stdpp Require Import base gmap strings list.
From Stdlib Require Import ZArith NArith Lia ZifyBool ZifyN ZifyNat.
From S2P Require Import Prelude RustStr Json ToolCalls Content Accounting AppError Inference SecureError TrustPolicy Sse Endpoint Lease NearCrypto NearWire Relay NearStream NearInference NearAttest.

Local Open Scope Z_scope.

(** ** The contract *)

Definition supports_contract (e2ee_protocol : string) (e2ee_encryption_version : Z) (attestation_protocol : string)
    : bool :=
  bool_decide (e2ee_protocol = E2EE_PROTOCOL) && (e2ee_encryption_version =? ENCRYPTION_VERSION)
  && bool_decide (attestation_protocol = ATTESTATION_PROTOCOL).

Definition supports (m : ModelInfo) : result SecureClientError unit :=
  if negb (bool_decide (mi_provider_id m = PROVIDER_ID)) || negb (bool_decide (mi_e2ee_protocol m = E2EE_PROTOCOL))
     || negb (mi_e2ee_encryption_version m =? ENCRYPTION_VERSION)
     || negb (bool_decide (mi_attestation_protocol m = ATTESTATION_PROTOCOL))
  then Err (capability_error "model does not match the compiled NEAR provider contract") else
  if is_empty (trim (mi_upstream_model m)) || is_empty (trim (mi_provider_base_url m))
  then Err (capability_error "model omits required provider routing metadata") else Ok tt.

Definition populate_capabilities (m : ModelInfo) : ModelInfo :=
  {| mi_id := mi_id m; mi_label := mi_label m; mi_short_label := mi_short_label m;
     mi_provider_id := mi_provider_id m; mi_provider_label := mi_provider_label m;
     mi_upstream_model := mi_upstream_model m; mi_provider_base_url := mi_provider_base_url m;
     mi_e2ee_protocol := mi_e2ee_protocol m; mi_e2ee_encryption_version := mi_e2ee_encryption_version m;
     mi_attestation_protocol := mi_attestation_protocol m;
     mi_context_window_tokens := mi_context_window_tokens m; mi_max_output_tokens := mi_max_output_tokens m;
     mi_input_price := mi_input_price m; mi_output_price := mi_output_price m;
     mi_reasoning_efforts := mi_reasoning_efforts m; mi_thinking_modes := mi_thinking_modes m;
     mi_reasoning_replay := mi_reasoning_replay m; mi_supports_tools := mi_supports_tools m;
     mi_supports_parallel_tools := mi_supports_parallel_tools m; mi_supports_streaming := true;
     mi_supports_images := mi_supports_images m; mi_file_mime_types := [];
     mi_reasoning_parameters := []; mi_thinking_parameters := [] |}.

(** ** Material and sessions *)

Record NearVerifiedMaterial : Type := {
  nm_verified : VerifiedNearAttestation; nm_binding : AttestationBinding; nm_worker_session_id : string
}.

Section Engine.
Context `{U : UrlLib} `{UO : !UrlOrigin} `{RH : !RelayHttp}.
Context `{IL : IntelLib} `{NV : NvidiaLib} `{EC : EvidenceCodec}.
Context `{KD : KeyDigest} `{NP : NearPrimitives} `{SJ : SerdeJson} `{B64 : Base64}.
Context (cfg : RelayConfig) (nras_url jwks_url : Url).

Record NearVerifiedSession : Type := {
  ns_evidence : SecurityEvidence; ns_context : NearInferenceContext
}.

Definition session_from_material (material : NearVerifiedMaterial) (m : ModelInfo) : NearVerifiedSession :=
  {| ns_evidence := vn_evidence (nm_verified material);
     ns_context := {| nx_config := cfg; nx_model := m; nx_model_key := vn_model_key (nm_verified material);
                      nx_response_signing_address := vn_response_signing_address (nm_verified material);
                      nx_binding := nm_binding material; nx_worker_session_id := nm_worker_session_id material |} |}.

Definition verify_response_signing_binding (wire : ProviderKeyLease) (locally_attested : string)
    : result SecureClientError unit :=
  wire_address ← ok_or (pl_response_signing_address wire)
                   (attestation_error "backend lease omitted the NEAR response-signing address");
  wire_fingerprint ← ok_or (pl_response_signing_key_fingerprint wire)
                       (attestation_error "backend lease omitted the NEAR response-signing fingerprint");
  if negb (canonical_hash wire_address) || negb (canonical_hash locally_attested)
     || negb (bool_decide (wire_address = locally_attested))
  then Err (attestation_error "backend lease response signer does not match local provider evidence") else
  address_bytes ← ok_or (hex_decode wire_address) (attestation_error "backend lease response signer is invalid");
  if negb (bool_decide (wire_fingerprint = sha256_hex address_bytes))
  then Err (attestation_error "backend lease response-signer fingerprint is invalid") else Ok tt.

Definition with_lease (generation expires : Z) (e : SecurityEvidence) : SecurityEvidence :=
  {| se_state := se_state e; se_provider_id := se_provider_id e; se_model_id := se_model_id e;
     attestation_protocol := attestation_protocol e; e2ee_protocol := e2ee_protocol e;
     e2ee_encryption_version := e2ee_encryption_version e; trust_policy_version := trust_policy_version e;
     verified_at_unix_seconds := verified_at_unix_seconds e; attestation_generation := Some generation;
     Accounting.hard_expires_at_unix_seconds := Some expires;
     Accounting.model_key_fingerprint := Accounting.model_key_fingerprint e;
     tls_spki_fingerprint := tls_spki_fingerprint e; checks := checks e; provider_claims := provider_claims e;
     workload_manifest := workload_manifest e |}.

Definition expires_at (b : AttestationBinding) (p : TrustPolicy) (e : SecurityEvidence) : Z :=
  Z.min (Z.min (Lease.hard_expires_at_unix_seconds b) (expires_at_unix_seconds p))
    (saturating_add (verified_at_unix_seconds e) (cf_verified_session_ttl cfg)).

(** The part of [establish] that attests: fresh material, and when it expires.  [now] is
    the clock when the lease is checked. *)
Definition attest (ve : Vendors) (now : Z) (m : ModelInfo) (p : TrustPolicy) : Attest (NearVerifiedMaterial * Z) :=
  '(verified, wire, worker_session_id) ← verify_model cfg nras_url jwks_url ve m p;
  _ ← lift (verify_response_signing_binding wire (vn_response_signing_address verified));
  binding ← lift (Lease.verify now wire m (to_hex (vn_model_key verified)));
  let expires := expires_at binding p (vn_evidence verified) in
  mret ({| nm_verified := {| vn_model_key := vn_model_key verified;
                             vn_response_signing_address := vn_response_signing_address verified;
                             vn_evidence := with_lease (generation binding) expires (vn_evidence verified) |};
           nm_binding := binding; nm_worker_session_id := worker_session_id |}, expires).

(** ** Tasks *)

Inductive Phase : Type :=
| Waiting                                (** for the lock of the model *)
| Holding                                (** the lock, about to look again *)
| Verifying                              (** with the lock held *)
| Ended (o : result SecureClientError NearVerifiedSession).

Record Job : Type := { jb_model : ModelInfo; jb_policy : TrustPolicy; jb_phase : Phase }.

Record Engine : Type := {
  en_entries : gmap string (@CachedMaterial NearVerifiedMaterial);
  en_locks : gmap string nat;            (** the task that holds the lock of a model *)
  en_jobs : gmap nat Job
}.
Definition idle_engine : Engine := {| en_entries := ∅; en_locks := ∅; en_jobs := ∅ |}.

Inductive Action : Type :=
| Establish (t : nat) (now : Z) (m : ModelInfo) (p : TrustPolicy)
| TakeLock (t : nat)
| CancelWait (t : nat)
| LookAgain (t : nat) (now : Z)
| Attested (t : nat) (ve : Vendors) (w : Attesting) (lease_now insert_now : Z)
| DropTask (t : nat)                     (** the future is dropped *)
| Invalidate (model_id : string).

Definition end_job (t : nat) (j : Job) (o : result SecureClientError NearVerifiedSession) (e : Engine) : Engine :=
  {| en_entries := en_entries e; en_locks := en_locks e;
     en_jobs := <[t := {| jb_model := jb_model j; jb_policy := jb_policy j; jb_phase := Ended o |}]> (en_jobs e) |}.
Definition set_phase (t : nat) (j : Job) (ph : Phase) (e : Engine) : Engine :=
  {| en_entries := en_entries e; en_locks := en_locks e;
     en_jobs := <[t := {| jb_model := jb_model j; jb_policy := jb_policy j; jb_phase := ph |}]> (en_jobs e) |}.
Definition set_locks (l : gmap string nat) (e : Engine) : Engine :=
  {| en_entries := en_entries e; en_locks := l; en_jobs := en_jobs e |}.
Definition set_entries (l : gmap string (@CachedMaterial NearVerifiedMaterial)) (e : Engine) : Engine :=
  {| en_entries := l; en_locks := en_locks e; en_jobs := en_jobs e |}.
(** The guard is dropped. *)
Definition unlock (j : Job) (e : Engine) : Engine := set_locks (delete (mi_id (jb_model j)) (en_locks e)) e.

(** [None]: the step is not possible. *)
Definition engine_step (e : Engine) (a : Action) : option Engine :=
  match a with
  | Establish t now m p =>
    match en_jobs e !! t with
    | Some _ => None
    | None =>
      let j := {| jb_model := m; jb_policy := p; jb_phase := Waiting |} in
      Some (match supports m with
            | Err error => end_job t j (Err error) e
            | Ok _ =>
              match Lease.get now m p (en_entries e) with
              | Some material => end_job t j (Ok (session_from_material material m)) e
              | None => set_phase t j Waiting e
              end
            end)
    end
  | TakeLock t =>
    j ← en_jobs e !! t;
    match jb_phase j, en_locks e !! mi_id (jb_model j) with
    | Waiting, None => Some (set_locks (<[mi_id (jb_model j) := t]> (en_locks e)) (set_phase t j Holding e))
    | _, _ => None
    end
  | CancelWait t =>
    j ← en_jobs e !! t;
    match jb_phase j with Waiting => Some (end_job t j (Err cancelled_error) e) | _ => None end
  | LookAgain t now =>
    j ← en_jobs e !! t;
    match jb_phase j with
    | Holding =>
      Some (match Lease.get now (jb_model j) (jb_policy j) (en_entries e) with
            | Some material => unlock j (end_job t j (Ok (session_from_material material (jb_model j))) e)
            | None => set_phase t j Verifying e
            end)
    | _ => None
    end
  | Attested t ve w lease_now insert_now =>
    j ← en_jobs e !! t;
    match jb_phase j with
    | Verifying =>
      let m := jb_model j in
      let p := jb_policy j in
      Some (match (attest ve lease_now m p w).2 with
            | Err error => unlock j (end_job t j (Err error) e)
            | Ok (material, expires) =>
              unlock j (end_job t j (Ok (session_from_material material m))
                (set_entries (insert_material insert_now m p material expires (cf_verified_session_ttl cfg)
                                (en_entries e)) e))
            end)
    | _ => None
    end
  | DropTask t =>
    j ← en_jobs e !! t;
    let e' := {| en_entries := en_entries e; en_locks := en_locks e; en_jobs := delete t (en_jobs e) |} in
    match jb_phase j with
    | Waiting => Some e'
    | Holding | Verifying => Some (unlock j e')
    | Ended _ => None
    end
  | Invalidate id => Some (set_entries (Lease.invalidate id (en_entries e)) e)
  end.

Fixpoint engine_run (e : Engine) (l : list Action) : option Engine :=
  match l with
  | [] => Some e
  | a :: l => e ← engine_step e a; engine_run e l
  end.
End Engine.
