(* ===== verification/NearSample.v ===== *)
(** Concrete primitives and codecs for the examples of the NEAR provider, and one exchange
    with them; then concrete vendors, with which a worker is attested and a request is
    answered in its session.  Definitions of the provider never use them. *)

From stdpp Require Import base gmap strings list.
From Stdlib Require Import ZArith NArith Lia ZifyBool ZifyN ZifyNat.
From S2P Require Import Prelude RustStr Json ToolCalls Content Accounting AppError Inference SecureError TrustPolicy Sse Receipts Endpoint Lease NearCrypto NearWire Relay NearStream NearInference NearProofs NearAttest NearEngine.

Local Open Scope Z_scope.

(** ** Primitives *)

(** Two lower-case digits for a byte. *)
Definition nibble (n : N) : N := if (n <? 10)%N then 48 + n else 87 + n.
Definition hex_bytes (l : list N) : list N := l ≫= fun b => [nibble (b / 16); nibble (b mod 16)].
Definition of_nibble (c : N) : option N :=
  if (48 <=? c)%N && (c <? 58)%N then Some (c - 48)%N
  else if (97 <=? c)%N && (c <? 103)%N then Some (c - 87)%N else None.
Fixpoint of_hex (l : list N) : option (list N) :=
  match l with
  | [] => Some []
  | a :: b :: l => x ← of_nibble a; y ← of_nibble b; r ← of_hex l; Some (16 * x + y :: r)%N
  | _ => None
  end.

(** A digest of 32 equal bytes. *)
Definition sum_digest (l : list N) : list N := replicate 32 (foldr N.add 0 l mod 256)%N.

#[export] Instance near_digest : KeyDigest :=
  {| hex_decode s := of_hex (bytes s); sha256_hex l := of_bytes (hex_bytes (sum_digest l)) |}.

(** Every point is the same point, and the cipher only appends a tag. *)
#[export] Instance near_primitives : NearPrimitives := {|
  hex_encode l := of_bytes (hex_bytes l);
  sha512 l := replicate 64 0%N;
  to_montgomery _ := Some (replicate 32 7%N);
  ed25519_verifying_key l := replicate 32 9%N;
  x25519_public_key _ := replicate 32 7%N;
  diffie_hellman _ _ := [];
  hkdf_expand _ _ n := Some (replicate n 1%N);
  aead_encrypt _ _ m := if forallb (fun b => b <? 256)%N m then Some (m ++ replicate 16 0%N) else None;
  aead_decrypt _ _ c := Some (take (length c - 16) c)
|}.

Lemma nibbles b : byte b ->
  of_nibble (nibble (b / 16)) = Some (b / 16)%N /\ of_nibble (nibble (b mod 16)) = Some (b mod 16)%N /\
  is_ascii_hexdigit (nibble (b / 16)) = true /\ is_ascii_hexdigit (nibble (b mod 16)) = true /\
  (nibble (b / 16) < 256)%N /\ (nibble (b mod 16) < 256)%N.
Proof.
  unfold byte. intros Hb.
  assert (H : forall n, (n < 16)%N -> of_nibble (nibble n) = Some n /\ is_ascii_hexdigit (nibble n) = true /\
                                       (nibble n < 256)%N).
  { intros n Hn. assert (Hin : n ∈ N.of_nat <$> seq 0 16).
    { apply list_elem_of_fmap. exists (N.to_nat n). rewrite elem_of_seq. lia. }
    clear Hn. revert n Hin. apply Forall_forall. repeat constructor. }
  assert (H1 : (b / 16 < 16)%N) by (apply N.Div0.div_lt_upper_bound; lia).
  assert (H2 : (b mod 16 < 16)%N) by (apply N.mod_lt; lia).
  destruct (H _ H1) as (? & ? & ?), (H _ H2) as (? & ? & ?). done.
Qed.

Lemma hex_bytes_ok l : Forall byte l ->
  of_hex (hex_bytes l) = Some l /\ forallb is_ascii_hexdigit (hex_bytes l) = true /\
  Forall (fun b => b < 256)%N (hex_bytes l) /\ length (hex_bytes l) = (2 * length l)%nat.
Proof.
  induction 1 as [|b l Hb Hl (IH & IHd & IHb & IHl)]; [done|].
  destruct (nibbles b Hb) as (E1 & E2 & D1 & D2 & B1 & B2).
  change (hex_bytes (b :: l)) with (nibble (b / 16) :: nibble (b mod 16) :: hex_bytes l).
  cbn [of_hex forallb length]. rewrite E1, E2, IH, D1, D2, IHd. cbn. split_and!; [|done|by repeat constructor|lia].
  do 2 f_equal. rewrite (N.div_mod b 16) at 3 by done. lia.
Qed.

#[export] Instance near_laws : NearLaws.
Proof.
  constructor; cbn.
  - intros l Hl. destruct (hex_bytes_ok l Hl) as (H & _ & Hb & _). by rewrite bytes_of_bytes.
  - intros l Hl. destruct (hex_bytes_ok l Hl) as (_ & H & Hb & _). by rewrite bytes_of_bytes.
  - intros l. rewrite len_of_bytes. unfold hex_bytes. induction l as [|b l IH]; [done|]. cbn in *. lia.
  - done.
  - intros _. split; [done|]. by apply (Forall_replicate _ 32).
  - intros _ _ m c. destruct (forallb _ m); [|done]. intros [= <-].
    rewrite length_app. cbn [length]. by rewrite Nat.add_sub, take_app_length.
  - intros _ _ m c. destruct (forallb _ m) eqn:E; [|done]. intros [= <-]. split; [by rewrite length_app|].
    apply Forall_app. split; [|by apply (Forall_replicate _ 16)]. rewrite forallb_forall in E.
    apply Forall_forall. intros b Hb%list_elem_of_In. apply E in Hb. unfold byte. lia.
Qed.

(** ** Codecs *)

(** A host of one public address, and endpoints of the relay's origin. *)
#[local] Existing Instances plain_url plain_base64 plain_json plain_text.
Definition near_origin : UrlOrigin :=
  {| same_origin u v := starts_with v u; port_or_known_default _ := Some 443 |}.
#[local] Existing Instance near_origin.

(** Keys are bytes, and the good signature repeats the digest of the text. *)
#[export] Instance near_policy : PolicyCrypto := {|
  VerifyingKey := list N; Signature := list N;
  parse_envelope _ := None; TrustPolicy.hex_decode s := of_hex (bytes s);
  key_from_bytes := Some; signature_from_slice := Some; canonical _ := None;
  verify_strict _ text s := bool_decide (s = sum_digest (bytes text) ++ sum_digest (bytes text))
|}.

Definition text_number (f : f64 -> string) (v : Value) : option (list N) := Some [1; 2; 3]%N.
#[export] Instance near_writer : JsonWriter := {| write_json := text_number |}.
#[export] Instance near_floats : FloatText :=
  {| format_finite _ := "1"; is_sign_negative _ := false; parse_f64 _ := None |}.

(** The worker's answer: the letters of [hi], sealed. *)
Definition hi : string := of_bytes (hex_bytes (replicate 32 7%N ++ replicate 24 0%N ++ [104; 105]%N ++ replicate 16 0%N)).
Definition hi_choice : RawNearStreamChoice :=
  {| wh_delta := {| ws_content := Some hi; ws_reasoning_content := None; ws_refusal := None; ws_tool_calls := None |};
     wh_text := None; wh_finish_reason := Some "stop" |}.
Definition hi_chunk : RawNearStreamChunk :=
  {| wk_id := Some "chat"; wk_model := Some "m"; wk_choices := [hi_choice]; wk_usage := None |}.
Definition transcript_text : string := "data: hi" +:+ newline +:+ newline +:+ "data: [DONE]" +:+ newline.
Definition worker_address : string := of_bytes (hex_bytes (replicate 32 9%N)).
Definition sample_hash : string := sha256_hex [1; 2; 3]%N.
Definition sample_signed : string := "m:" +:+ sample_hash +:+ ":" +:+ sha256_hex (bytes transcript_text).
Definition sample_signature : string :=
  of_bytes (hex_bytes (sum_digest (bytes sample_signed) ++ sum_digest (bytes sample_signed))).
Definition sample_proof : NearCompletionProof :=
  {| np_provider := PROVIDER_ID; np_protocol := E2EE_PROTOCOL; np_chat_id := "chat"; np_model := "m";
     np_request_hash := sample_hash; np_response_hash := sha256_hex (bytes transcript_text);
     np_response_body_base64 := transcript_text; np_signed_text := sample_signed;
     np_signature := sample_signature; np_signing_address := worker_address |}.
#[export] Instance near_codec : NearCodec := {|
  proof_from_value _ := Some sample_proof;
  raw_completion_from_slice _ := None;
  chunk_from_str s := if bool_decide (s = "hi") then Some hi_chunk else None
|}.

(** The relay's stream: every event of the run [r]. *)
Definition sample_delta : DeltaPayload :=
  {| dp_run_id := "r"; encrypted_delta := Some hi; encrypted_reasoning_delta := None;
     encrypted_refusal_delta := None; encrypted_tool_calls := []; dp_sequence := 1; response_id := Some "chat";
     content_field := None; reasoning_field := None; refusal_field := None |}.
#[export] Instance near_relay_codec : RelayCodec := {|
  decode_created _ := Some {| cp_run_id := "r"; Sse.inference_encryption := NearWire.INFERENCE_ENCRYPTION |};
  decode_accounting _ := None;
  decode_delta _ := Some sample_delta;
  decode_completed _ := Some {| mp_run_id := "r"; usage := provider_usage None; mp_finish_reason := "stop";
                                proof := Some (VObject []) |};
  decode_run _ := Some {| rp_run_id := "r" |};
  decode_cancelled _ := None; decode_failed _ := None; decode_part _ := None
|}.
Definition sse (name : string) : string :=
  "event: " +:+ name +:+ newline +:+ "data: x" +:+ newline +:+ newline.
Definition sample_stream : list N :=
  bytes (sse "run.created" +:+ sse "message.encrypted_delta" +:+ sse "message.encrypted_completed"
         +:+ sse "run.completed").

#[export] Instance near_http : RelayHttp :=
  {| extend_pairs u _ := u; request_to_vec _ := Some [4]%N; completion_from_slice _ := None;
     envelope_from_slice _ := None |}.

(** ** An exchange *)

Definition near_model : ModelInfo :=
  {| mi_id := "cherry"; mi_label := "c"; mi_short_label := "c"; mi_provider_id := "near";
     mi_provider_label := "p"; mi_upstream_model := "m"; mi_provider_base_url := "https://worker";
     mi_e2ee_protocol := E2EE_PROTOCOL; mi_e2ee_encryption_version := 2;
     mi_attestation_protocol := "near-tdx-nvidia-v2";
     mi_context_window_tokens := 1048576; mi_max_output_tokens := 8; mi_input_price := None;
     mi_output_price := None; mi_reasoning_efforts := []; mi_thinking_modes := [];
     mi_reasoning_replay := false; mi_supports_tools := false; mi_supports_parallel_tools := false;
     mi_supports_streaming := true; mi_supports_images := false; mi_file_mime_types := [];
     mi_reasoning_parameters := []; mi_thinking_parameters := [] |}.
Definition near_config : RelayConfig :=
  {| cf_relay_base_url := ("https://relay" : @Url plain_url); cf_endpoint_policy := default_endpoint_policy;
     cf_limits := default_limits; cf_attestation_timeout := 1; cf_verified_session_ttl := 240;
     cf_accept_outdated_near_tcb := false; cf_credential := "token";
     cf_environment := {| lookup_host _ _ := Resolved [(V4 8 8 8 8, 443)]; from_pem _ := false; buildable _ := true |};
     cf_ca_file := None; cf_ca_valid _ := false |}.
Definition near_context : NearInferenceContext :=
  {| nx_config := near_config; nx_model := near_model; nx_model_key := {| key_bytes := replicate 32 9%N |};
     nx_response_signing_address := worker_address;
     nx_binding := {| generation := 1; Lease.model_key_fingerprint := "f"; keyset_digest := None;
                      hard_expires_at_unix_seconds := 9 |};
     nx_worker_session_id := "session" |}.
Definition near_request : InferenceRequest := streaming "cherry" [chat_text User "hello"] [].
Definition near_outside (listens : bool) : Outside :=
  {| ow_rng := {| rng_bytes _ n := replicate n 3%N; rng_calls := 0 |};
     ow_network := {| nw_sent := [];
                      nw_answers _ := Responds 200 {| hb_content_length := None; hb_chunks := []; hb_cancelled := false |} |};
     ow_sink := {| sent := []; NearStream.listens _ := listens |} |}.

(** The answer is shown, its receipt checked, and the response verified. *)
Definition sample_exchange : Outside * result SecureClientError InferenceResponse :=
  NearInference.stream near_context false near_request 0 [ChunkArrives 1 sample_stream] (near_outside true).

Example sample_exchange_succeeds :
  sent (ow_sink sample_exchange.1) =
    [EvStatus true "Attested end-to-end encrypted inference connected"; EvTextDelta "hi"; EvUsage 0 0;
     EvFinished Stop; EvResponseVerified] /\
  at_text ∘ assistant <$> sample_exchange.2 = Ok "hi" /\
  length (nw_sent (ow_network sample_exchange.1)) = 1%nat.
Proof. vm_compute. done. Qed.

(** * An attested session *)

#[local] Existing Instances plain_url plain_base64 plain_json plain_text near_origin.

Definition worker_key : list N := replicate 32 9%N.
Definition challenge : list N := replicate 32 3%N.
Definition worker_tls : list N := replicate 32 6%N.
Definition hex (l : list N) : string := of_bytes (hex_bytes l).

(** The quote library asks for one file, and accepts every quote as that of the worker. *)
#[export] Instance sample_intel : IntelLib := {|
  fetch_and_verify _ _ := FetchUrl "https://x.trustedservices.intel.com" (fun r => FetchDone (
    _ ← r; Some {| vq_status := "UpToDate"; vq_advisory_ids := [];
                   vq_td10 := Some {| td_report_data := sum_digest (worker_key ++ worker_tls) ++ challenge;
                                      td_mr_config_id := [1%N] ++ sum_digest (bytes "compose") ++ replicate 15 0%N;
                                      td_mr_td := [] |} |}));
  digest := sum_digest
|}.

(** The service's answer is [10], its verdict is good for the challenge, and certificates are
    their bytes. *)
#[export] Instance sample_nvidia : NvidiaLib := {|
  Certificate := list N; P384Key := unit; P384Signature := unit;
  value_from_slice bs :=
    if bool_decide (bs = [10%N]) then Some (VArray [VArray [VString "JWT"; VString "h.p.s"]])
    else Some (VObject [("eat_nonce", VString (hex challenge)); ("x-nvidia-overall-att-result", VBool true)]);
  header_from_slice _ := Some {| jh_alg := "ES384"; jh_kid := "k" |};
  jwks_from_slice _ := Some {| jks_keys := [{| jk_kid := Some "k"; jk_x5c := Some ["leaf"; "anchor"] |}] |};
  url_safe_decode s := Some (bytes s);
  x509_from_der := Some; x509_valid _ _ := true; x509_signed_by _ _ := true;
  p384_key _ := Some tt; p384_signature _ := Some tt; p384_verify _ _ _ := true
|}.

Definition worker_evidence : Value := VObject [
  ("app_compose", VString "compose"); ("intel_quote", VString "00"); ("model_name", VString "m");
  ("nonce", VString (hex challenge)); ("nvidia_payload", VObject [("nonce", VString (hex challenge))]);
  ("signing_algo", VString "ed25519"); ("signing_public_key", VString (hex worker_key));
  ("tls_fingerprint", VString (hex worker_tls)); ("worker_session_id", VString (hex (replicate 16 0%N)))].
Definition worker_lease : ProviderKeyLease :=
  {| pl_model_id := "cherry"; pl_model := "m"; pl_base_url := "https://worker"; pl_provider := "near";
     pl_attestation_protocol := ATTESTATION_PROTOCOL; pl_encryption_version := 2; pl_e2ee_protocol := E2EE_PROTOCOL;
     pl_model_public_key := hex worker_key; pl_verified := true; pl_attestation_generation := 1;
     pl_model_key_fingerprint := sha256_hex worker_key; pl_keyset_digest := None;
     pl_response_signing_address := Some (hex worker_key);
     pl_response_signing_key_fingerprint := Some (sha256_hex worker_key); pl_hard_expires_at := 1000 |}.
#[export] Instance sample_evidence : EvidenceCodec := {|
  worker_envelope_from_slice _ := Some {| we_provider := PROVIDER_ID; we_model_id := "cherry";
    we_attestation_protocol := ATTESTATION_PROTOCOL; we_evidence := worker_evidence |};
  lease_from_value _ := Some worker_lease
|}.

Definition sample_trust : TrustPolicy :=
  {| sequence := 1; version := "v"; expires_at_unix_seconds := 5000; accepted_intel_statuses := ["UpToDate"];
     require_nvidia_verified := true; require_model_binding := true; require_live_tls_binding := true;
     nvidia_anchor_sha256 := [sha256_hex (bytes "anchor")] |}.
Definition answer (l : list N) : HttpBody :=
  {| hb_content_length := None; hb_chunks := [Some l]; hb_cancelled := false |}.
Definition sample_vendors : Vendors :=
  {| ve_intel _ _ := IntelResponds 200 [("a", Some "b")] (answer [1%N]);
     ve_nvidia _ := Responds 200 (answer [10%N]); ve_now := 0; ve_verified_at := 100; ve_accepts := false;
     ve_intel_first := true; ve_cancelled_before := false; ve_cancelled_meanwhile := false |}.
Definition sample_world : Attesting :=
  {| at_rng := ow_rng (near_outside true);
     at_network := {| nw_sent := []; nw_answers _ := Responds 200 (answer []) |} |}.

(** Two tasks ask for the model; the first attests it, the second finds it attested. *)
Definition sample_actions : list (@Action) :=
  [Establish 1 100 near_model sample_trust; Establish 2 100 near_model sample_trust; TakeLock 1; LookAgain 1 100;
   Attested 1 sample_vendors sample_world 100 100; TakeLock 2].
Definition sample_engine : Engine :=
  default idle_engine (engine_run near_config "https://nras" "https://jwks" idle_engine sample_actions).
Definition looked_again : Engine :=
  default idle_engine (engine_step near_config "https://nras" "https://jwks" sample_engine (LookAgain 2 339)).
Definition second_job : option Job := en_jobs looked_again !! 2%nat.
Definition near_session : option NearVerifiedSession :=
  j ← second_job; match jb_phase j with Ended (Ok s) => Some s | _ => None end.

Definition expires_of (s : NearVerifiedSession) : option Z := Accounting.hard_expires_at_unix_seconds (ns_evidence s).

Example second_task_is_served :
  expires_of <$> near_session = Some (Some 340) /\
  (response ← (fun s => (NearInference.stream (ns_context s) false near_request 0 [ChunkArrives 1 sample_stream]
                           (near_outside true)).2) <$> near_session;
   match response with Ok r => Some (at_text (assistant r)) | Err _ => None end) = Some "hi".
Proof. split; vm_compute; reflexivity. Qed.

(** The same, by name. *)
Definition waiting_engine : Engine :=
  default idle_engine (engine_run near_config "https://nras" "https://jwks" idle_engine
    [Establish 1 100 near_model sample_trust; Establish 2 100 near_model sample_trust; TakeLock 1]).
Definition the_job : Job := default {| jb_model := near_model; jb_policy := sample_trust; jb_phase := Waiting |} second_job.
Definition the_session : NearVerifiedSession :=
  default {| ns_evidence := build_evidence 0 EmptyString sample_trust {| key_bytes := [] |} []
               {| ie_status := EmptyString; ie_advisory_ids := []; ie_mr_td := EmptyString; ie_compose_hash := EmptyString |}
               EmptyString;
             ns_context := near_context |} near_session.
Definition session_exchange : Outside * result SecureClientError InferenceResponse :=
  NearInference.stream (ns_context the_session) false near_request 0 [ChunkArrives 1 sample_stream] (near_outside true).
Definition sample_response : InferenceResponse :=
  match session_exchange.2 with
  | Ok r => r
  | Err _ => collected EmptyString EmptyString EmptyString [] {| u_input_tokens := 0; u_output_tokens := 0; u_total_tokens := 0 |} Stop
  end.
Definition sample_end : Outside := session_exchange.1.
