(* ===== verification/NearTheorems.v ===== *)
(** What the NEAR provider accepts: an answer is the one the attested worker signed, for
    the request that was sealed. *)

From stdpp Require Import base gmap strings list.
From Stdlib Require Import ZArith NArith Lia ZifyBool ZifyN ZifyNat.
From S2P Require Import Prelude RustStr Json ToolCalls Content Accounting AppError Inference SecureError TrustPolicy Sse Receipts Endpoint Lease NearCrypto NearWire Relay NearStream NearInference NearProofs NearSample.

Local Open Scope Z_scope.

Abbreviation Stream := (M Streaming SecureClientError).

(** ** What a verified answer promises *)

(** The events that wait for the receipt. *)
Definition released (ds : list ToolCallDelta) (u : Usage) (reason : FinishReason) : list ProviderEvent :=
  (EvToolCallDelta <$> ds) ++ [EvUsage (u_input_tokens u) (u_output_tokens u); EvFinished reason].

Section Theorems.
Context `{U : UrlLib} `{UO : !UrlOrigin} `{RH : !RelayHttp}.
Context `{KD : KeyDigest} `{NP : NearPrimitives} `{PC : PolicyCrypto} `{NC : NearCodec} `{RC : RelayCodec}.
Context `{JW : JsonWriter} `{FT : FloatText} `{SJ : SerdeJson} `{JT : JsonText} `{B64 : Base64}.

(** The worker signed a transcript that reads, to this identity, as this response. *)
Definition signed_response (i : ClientIdentity) (request_hash address model : string)
    (response : InferenceResponse) : Prop :=
  exists p raw v, signed_receipt request_hash address model p raw /\ parse_raw_stream raw i = Ok v /\
    vt_chat_id v = np_chat_id p /\ vt_response v = response.

(** What was shown, and the call fragments kept back, are this response. *)
Record tells (shown : list ProviderEvent) (ds : list ToolCallDelta) (response : InferenceResponse) : Prop := {
  te_text : said_by text_of shown = at_text (assistant response);
  te_reasoning : some_text (said_by reasoning_of shown) = ir_reasoning response;
  te_refusal : some_text (said_by refusal_of shown) = ir_refusal response;
  te_calls : exists calls, iterM push ds ∅ = (calls, Ok tt) /\
    ToolCalls.finish calls = Ok (at_tool_calls (assistant response))
}.

(** What an attempt to stream leaves with the subscriber. *)
Definition told (i : ClientIdentity) (request_hash address model : string) (base l : list ProviderEvent)
    (o : result SecureClientError InferenceResponse) : Prop :=
  exists shown gated, l = base ++ shown ++ gated /\ Forall provisional shown /\
    match o with
    | Ok response => exists ds reason,
        signed_response i request_hash address model response /\ tells shown ds response /\
        ir_finish_reason response = Some reason /\
        gated = released ds (ir_usage response) reason ++ [EvResponseVerified]
    | Err _ => gated = [] \/ exists response ds reason,
        signed_response i request_hash address model response /\ tells shown ds response /\
        ir_finish_reason response = Some reason /\ gated `prefix_of` released ds (ir_usage response) reason
    end.

Lemma emit_all l g :
  let '(g', o) := iterM send_event l g in
  exists l', sent (sg_sink g') = sent (sg_sink g) ++ l' /\
    match o with Ok _ => l' = l | Err _ => l' `prefix_of` l end.
Proof.
  revert g. induction l as [|e l IH]; intros g; cbn [iterM].
  { exists []. cbn. by rewrite app_nil_r. }
  rewrite M_bind_run. unfold send_event at 1, emit. destruct (listens _ _).
  - match goal with |- context [iterM send_event l ?g] => specialize (IH g) end.
    destruct (iterM _ _ _) as [g' o]. destruct IH as (l' & Hs & Ho). exists (e :: l'). cbn in Hs. split.
    + by rewrite Hs, <- app_assoc.
    + destruct o; [by rewrite Ho|]. by apply prefix_cons.
  - exists []. cbn. rewrite app_nil_r. split; [done|apply prefix_nil].
Qed.

Lemma emit_verified l g :
  let '(g', o) := emit_verified_events l g in
  exists l', sent (sg_sink g') = sent (sg_sink g) ++ l' /\
    match o with Ok _ => l' = l ++ [EvResponseVerified] | Err _ => l' `prefix_of` l end.
Proof.
  unfold emit_verified_events. rewrite M_bind_run. pose proof (emit_all l g) as H.
  destruct (iterM send_event l g) as [g' [[]|e]]; [|exact H]. destruct H as (l' & Hs & ->).
  unfold send_event, emit. destruct (listens _ _); cbn.
  - exists (l ++ [EvResponseVerified]). by rewrite Hs, app_assoc.
  - by exists l.
Qed.

Section Received.
Context (i : ClientIdentity) (request_hash address model : string) (base : list ProviderEvent).
Abbreviation ok := (answer_ok i request_hash address model base).
Abbreviation interim := (interim base).

Lemma keeps_read steps d t :
  triple ok (read_stream i d t steps) (fun _ => ok) (fun _ g => interim (sg_sink g)).
Proof.
  revert d t. induction steps as [|s steps IH]; intros d t; cbn [read_stream]; [by apply triple_ret|].
  destruct s as [now chunk| | |]; try (by apply triple_throw; intros g; apply ao_interim).
  destruct (feed chunk d) as [d' [events|e]]; [|by apply triple_throw; intros g; apply ao_interim].
  apply (triple_bind _ _ _ (fun _ => ok)); [|intros _; apply IH].
  apply triple_iter. intros e _. apply keeps_accept.
Qed.

(** The answer a state finishes with is the one the receipt covers. *)
Lemma finished_is_covered s response events :
  covered i request_hash address model s -> kept_back s ->
  finish_stream s = Ok (response, events) ->
  signed_response i request_hash address model response /\
  exists ds reason, ir_finish_reason response = Some reason /\ events = released ds (ir_usage response) reason /\
    at_text (assistant response) = ss_text s /\ ir_reasoning response = some_text (ss_reasoning s) /\
    ir_refusal response = some_text (ss_refusal s) /\
    iterM push ds ∅ = (ss_tool_calls s, Ok tt) /\
    ToolCalls.finish (ss_tool_calls s) = Ok (at_tool_calls (assistant response)).
Proof.
  intros Hc (ds & Hds & Hv) H. unfold finish_stream in H. destruct (negb _ || _) eqn:Ed; [done|].
  apply orb_false_iff in Ed as [Ed _]. rewrite negb_false_iff in Ed.
  destruct (Hc Ed) as (p & raw & v & u & reason & Hr & Hp & Hid & Hu & Hf & Hprov).
  rewrite Ed, Hu, Hf in Hv. unfold provisional_response in Hprov.
  apply bind_Ok in H as (calls & Hcalls & H). rewrite Hcalls in Hprov.
  apply bind_Ok in H as ([] & Hchk & H). cbn [mbind result_bind] in Hprov. rewrite Hchk in Hprov.
  rewrite Hf in H. cbn [ok_or mbind result_bind] in H. apply bind_Ok in H as ([] & Hshape & H).
  rewrite Hu in H. injection H as <- <-. cbn [mbind result_bind] in Hprov. rewrite Hshape in Hprov.
  injection Hprov as Hprov. apply map_err_Ok in Hcalls.
  split; [by exists p, raw, v|]. by exists ds, reason.
Qed.

Lemma receive_told limits started steps g :
  ok g ->
  let '(g', o) := receive i limits started steps g in
  told i request_hash address model base (sent (sg_sink g')) o.
Proof.
  intros Hg. unfold receive. rewrite M_bind_run.
  assert (Hshown : forall k e, interim k -> told i request_hash address model base (sent k) (Err e)).
  { intros k e (shown & Hs & Hp). exists shown, []. rewrite app_nil_r. by auto. }
  pose proof (keeps_read steps (new_decoder (relay_sse_event_bytes limits) (relay_stream_bytes limits))
    (new_deadline started) g Hg) as Hr.
  destruct (read_stream _ _ _ _ g) as [g1 [d|e]]; [|by apply Hshown].
  rewrite M_bind_run. unfold lift. destruct (Sse.finish d); [|by apply ao_interim in Hr; apply Hshown].
  rewrite M_bind_run. unfold inspect. destruct (finish_stream (sg_state g1)) as [[response events]|e] eqn:Ef;
    [|by apply ao_interim in Hr; apply Hshown].
  destruct Hr as [(shown & Hs & Hp & Et & Er & Erf) _ Hk Hc].
  destruct (finished_is_covered _ _ _ Hc Hk Ef) as (Hsigned & ds & reason & Hreason & -> & Ht & Hre & Hrf & Hds & Hcs).
  rewrite M_bind_run. pose proof (emit_verified (released ds (ir_usage response) reason) g1) as He.
  destruct (emit_verified_events _ g1) as [g2 o]. destruct He as (l & Hl & Ho).
  assert (tells shown ds response) as Htells.
  { constructor; [by rewrite <- Et|by rewrite <- Er|by rewrite <- Erf|by exists (ss_tool_calls (sg_state g1))]. }
  destruct o as [[]|e]; exists shown, l; cbn; rewrite Hl, Hs, app_assoc; (split; [done|split; [done|]]).
  - by exists ds, reason.
  - right. by exists response, ds, reason.
Qed.
End Received.

(** ** Requests *)

(** The one request that posts a sealed request to the relay. *)
Definition posted (cfg : RelayConfig) (relay : RelayChatRequest) (q : HttpRequest) : Prop :=
  exists endpoint client body,
    relay_endpoint (cf_relay_base_url cfg) "/api/v1/relay/chat/completions" = Ok endpoint /\
    relay_client_for cfg endpoint (if rr_stream relay then None else Some 360000) = Ok client /\
    request_to_vec relay = Some body /\
    Z.of_nat (length body) <= serialized_relay_request_bytes (cf_limits cfg) /\
    hq_post q = true /\ hq_client q = client /\ hq_url q = url_to_string endpoint /\
    hq_bearer q = cf_credential cfg /\ hq_body q = Some body.

Lemma send_posts cfg cancelled relay n :
  let '(n', _) := Relay.send cfg cancelled relay n in
  nw_sent n' = nw_sent n \/ exists q, nw_sent n' = nw_sent n ++ [q] /\ posted cfg relay q.
Proof.
  unfold Relay.send. destruct cancelled; [by left|].
  rewrite M_bind_run. unfold lift at 1. destruct (relay_endpoint _ _) as [endpoint|] eqn:Ee; [|by left].
  rewrite M_bind_run. unfold lift at 1. destruct (relay_client_for _ _ _) as [client|] eqn:Ec; [|by left].
  rewrite M_bind_run. unfold lift at 1. unfold serialize_bounded.
  destruct (request_to_vec relay) as [body|] eqn:Eb; [|by left]. cbn [ok_or mbind result_bind].
  destruct (_ >? _) eqn:El; [by left|]. rewrite M_bind_run. unfold call.
  match goal with |- context [_ ++ [?r]] => set (q := r) end.
  assert (posted cfg relay q) by (exists endpoint, client, body; split_and!; try done; lia).
  cbn [nw_sent]. destruct (nw_answers _ _) as [status b| | |]; [destruct (negb (status =? 200))|..]; right; by exists q.
Qed.

Lemma complete_posts cfg cancelled relay n :
  let '(n', _) := Relay.complete cfg cancelled relay n in
  nw_sent n' = nw_sent n \/ exists q, nw_sent n' = nw_sent n ++ [q] /\ posted cfg relay q.
Proof.
  unfold Relay.complete. rewrite M_bind_run. pose proof (send_posts cfg cancelled relay n) as H.
  destruct (Relay.send _ _ _ n) as [n' [b|e]]; [|exact H].
  destruct (hb_cancelled b); [exact H|]. rewrite M_bind_run. unfold lift.
  by destruct (map_err _ _).
Qed.

Lemma prepare_run c r s w :
  prepare c r s w =
    let '(g, o) := build_request (nx_model c) (nx_model_key c) (nx_response_signing_address c) (nx_binding c) r s (ow_rng w) in
    ({| ow_rng := g; ow_network := ow_network w; ow_sink := ow_sink w |},
     '(i, relay, h) ← o; Ok (i, with_worker_session (nx_worker_session_id c) relay, h)).
Proof.
  unfold prepare. rewrite M_bind_run. unfold drawing.
  by destruct (build_request _ _ _ _ _ _ _) as [g [[[i relay] h]|e]].
Qed.

(** The request names the key it is sealed for. *)
Lemma build_request_key m k address b r s g g' i relay h :
  build_request m k address b r s g = (g', Ok (i, relay, h)) -> rr_model_public_key_hex relay = to_hex k.
Proof.
  unfold build_request. intros H. repeat (apply M_bind_Ok in H as (? & ? & _ & H)). by injection H as _ _ <- _.
Qed.

Lemma streaming_run {A} (s : StreamState) (m : Stream A) (w : Outside) :
  streaming_from s m w =
    let '(g, o) := m {| sg_state := s; sg_sink := ow_sink w |} in
    ({| ow_rng := ow_rng w; ow_network := ow_network w; ow_sink := sg_sink g |}, a ← o; Ok (a, sg_state g)).
Proof. unfold streaming_from. by destruct (m _) as [g [a|e]]. Qed.

Lemma prepare_posts c r s secret `{NL : !NearLaws} w :
  fills (ow_rng w) -> opens secret (nx_model_key c) ->
  match prepare c r s w with
  | (w', Ok (_, relay, h)) =>
      ow_network w' = ow_network w /\
      sealed_request secret (nx_model_key c) (nx_model c) (nx_response_signing_address c) (nx_binding c) r s h (Some (nx_worker_session_id c)) relay
  | (w', Err _) => ow_network w' = ow_network w
  end.
Proof.
  intros Hg Ho. rewrite prepare_run.
  pose proof (seals_request secret (nx_model_key c) Ho (nx_model c) (nx_response_signing_address c)
    (nx_binding c) r s (ow_rng w) Hg) as H.
  destruct (build_request _ _ _ _ _ _ _) as [g [[[i relay] h]|e]]; [|done]. split; [done|].
  destruct H as [_ [Hm Ht Hc Hp Hk Ha Hs Hx Hh]]. unfold with_worker_session. rewrite Hx.
  constructor; try done.
Qed.

(** What was posted: nothing, or the sealed request. *)
Definition only_sealed (secret : list N) (c : NearInferenceContext) (r : InferenceRequest) (stream : bool)
    (before after : list HttpRequest) : Prop :=
  after = before \/ exists relay request_hash q, after = before ++ [q] /\ posted (nx_config c) relay q /\
    sealed_request secret (nx_model_key c) (nx_model c) (nx_response_signing_address c) (nx_binding c) r stream
      request_hash (Some (nx_worker_session_id c)) relay.

(** C14: the relay is sent at most one request for a call, and nothing readable in it is
    text: each message, name, reasoning, refusal, tool and call in it is a ciphertext that
    the attested key opens to what was asked, and the rest is the request's shape, its
    limits and the identifiers of the call. *)
Theorem requests_leave_sealed (c : NearInferenceContext) cancelled r started steps secret `{NL : !NearLaws} w :
  fills (ow_rng w) -> opens secret (nx_model_key c) ->
  only_sealed secret c r false (nw_sent (ow_network w)) (nw_sent (ow_network (complete c cancelled r w).1)) /\
  only_sealed secret c r true (nw_sent (ow_network w))
    (nw_sent (ow_network (NearInference.stream c cancelled r started steps w).1)).
Proof.
  intros Hg Ho. unfold complete, NearInference.stream. rewrite !M_bind_run. split.
  - pose proof (prepare_posts c r false secret w Hg Ho) as Hp.
    destruct (prepare c r false w) as [w1 [[[i relay] h]|e]]; [destruct Hp as [Hn Hs]|left; by rewrite <- Hp].
    rewrite M_bind_run. unfold calling, lift. rewrite <- Hn.
    pose proof (complete_posts (nx_config c) cancelled relay (ow_network w1)) as H.
    destruct (Relay.complete _ _ _ _) as [n [completion|e]]; (destruct H as [H|(q & H & Hq)]; [left; exact H|]);
      right; by exists relay, h, q.
  - pose proof (prepare_posts c r true secret w Hg Ho) as Hp.
    destruct (prepare c r true w) as [w1 [[[i relay] h]|e]]; [destruct Hp as [Hn Hs]|left; by rewrite <- Hp].
    rewrite M_bind_run. unfold calling. rewrite <- Hn.
    pose proof (send_posts (nx_config c) cancelled relay (ow_network w1)) as H.
    destruct (Relay.send _ _ _ _) as [n [b|e]].
    2:{ destruct H as [H|(q & H & Hq)]; [by left|right; by exists relay, h, q]. }
    rewrite M_bind_run, streaming_run. destruct (receive _ _ _ _ _) as [g [response|e]];
      (destruct H as [H|(q & H & Hq)]; [by left|right; by exists relay, h, q]).
Qed.

(** What a call leaves with the subscriber, when it could be prepared. *)
Lemma stream_told (c : NearInferenceContext) cancelled r started steps w :
  let '(w', o) := NearInference.stream c cancelled r started steps w in
  match prepare c r true w with
  | (_, Ok (i, _, request_hash)) =>
      told i request_hash (nx_response_signing_address c) (mi_upstream_model (nx_model c))
        (sent (ow_sink w)) (sent (ow_sink w')) o
  | (_, Err e) => o = Err e /\ sent (ow_sink w') = sent (ow_sink w)
  end.
Proof.
  unfold NearInference.stream. rewrite M_bind_run. assert (Hsink : ow_sink (prepare c r true w).1 = ow_sink w).
  { rewrite prepare_run. by destruct (build_request _ _ _ _ _ _ _). }
  destruct (prepare c r true w) as [w1 [[[i relay] h]|e]]; cbn in Hsink; [|by rewrite Hsink].
  rewrite M_bind_run. unfold calling. destruct (Relay.send _ _ _ _) as [n [b|e]].
  2:{ exists [], []. cbn. rewrite !app_nil_r, Hsink. by auto. }
  rewrite M_bind_run, streaming_run. rewrite <- Hsink. cbn [ow_sink].
  match goal with |- context [receive i ?l started steps ?g] =>
    pose proof (receive_told i h (nx_response_signing_address c) (mi_upstream_model (nx_model c))
      (sent (ow_sink w1)) l started steps g) as H end.
  destruct (receive _ _ _ _ _) as [g [response|e]]; cbn; apply H.
  all: (constructor; [by exists []; cbn; rewrite app_nil_r|done|by exists []|done]).
Qed.


(** C13: a streamed answer that is returned is the one the attested worker signed for this
    request: what was shown on the way reads as the texts of the signed response, the tool
    calls and the usage were held back until the receipt was checked and are the
    response's, and only then is the response reported as verified; when the call fails,
    no verification was reported, and anything but provisional text shows only a signed
    response. *)
Theorem streamed_answers_are_signed (c : NearInferenceContext) cancelled r started steps w :
  let '(w', o) := NearInference.stream c cancelled r started steps w in
  match prepare c r true w with
  | (_, Ok (i, _, request_hash)) =>
      told i request_hash (nx_response_signing_address c) (mi_upstream_model (nx_model c))
        (sent (ow_sink w)) (sent (ow_sink w')) o
  | (_, Err e) => o = Err e /\ sent (ow_sink w') = sent (ow_sink w)
  end.
Proof. apply stream_told. Qed.

Lemma decrypt_completion_Ok m i request_hash address completion response :
  decrypt_completion m i request_hash address completion = Ok response ->
  exists p raw signed, signed_receipt request_hash address (mi_upstream_model m) p raw /\
    parse_raw_completion raw = Ok signed /\ rc_id signed = np_chat_id p /\ rc_id completion = np_chat_id p /\
    decrypt_relay_completion m i signed = Ok response /\ decrypt_relay_completion m i completion = Ok response.
Proof.
  unfold decrypt_completion. intros H. apply bind_Ok in H as (v & _ & H). apply bind_Ok in H as ([p raw] & Hp & H).
  destruct (negb _) eqn:Eid; [done|]. apply bind_Ok in H as (signed & Hraw & H).
  destruct (negb (bool_decide (rc_id signed = _))) eqn:Es; [done|]. apply bind_Ok in H as (verified & Hv & H).
  apply bind_Ok in H as (provisional & Hprov & H). destruct (negb (bool_decide (provisional = _))) eqn:Eq; [done|].
  injection H as <-. rewrite negb_false_iff, bool_decide_eq_true in Eid, Es, Eq. subst provisional.
  apply verify_near_proof_Ok in Hp as [_ Hp]. by exists p, raw, signed.
Qed.

(** an answer that comes whole is returned when the attested worker signed bytes that
    read, to the identity of this request, as this response, and the relay's own copy of
    the response reads the same; nothing is returned on the relay's word alone. *)
Theorem completed_answers_are_signed (c : NearInferenceContext) cancelled r w :
  match complete c cancelled r w with
  | (_, Ok response) => exists i relay request_hash completion p raw signed,
      (prepare c r false w).2 = Ok (i, relay, request_hash) /\
      (Relay.complete (nx_config c) cancelled relay (ow_network (prepare c r false w).1)).2 = Ok completion /\
      signed_receipt request_hash (nx_response_signing_address c) (mi_upstream_model (nx_model c)) p raw /\
      parse_raw_completion raw = Ok signed /\ rc_id signed = np_chat_id p /\ rc_id completion = np_chat_id p /\
      decrypt_relay_completion (nx_model c) i signed = Ok response /\
      decrypt_relay_completion (nx_model c) i completion = Ok response
  | (_, Err _) => True
  end.
Proof.
  unfold complete. rewrite M_bind_run.
  destruct (prepare c r false w) as [w1 [[[i relay] h]|e]]; [|done].
  rewrite M_bind_run. unfold calling.
  destruct (Relay.complete _ _ _ _) as [n [completion|e]] eqn:En; [|done]. unfold lift.
  destruct (decrypt_completion _ _ _ _ _) as [response|e] eqn:Ed; [|done].
  apply decrypt_completion_Ok in Ed as (p & raw & signed & H).
  exists i, relay, h, completion, p, raw, signed. cbn. by rewrite En.
Qed.
End Theorems.

(** ** Examples *)

#[local] Existing Instances plain_url plain_base64 plain_json plain_text near_origin.

Lemma requests_leave_sealed_witness :
  only_sealed (replicate 32 3%N) near_context near_request true [] (nw_sent (ow_network sample_exchange.1)) /\
  length (nw_sent (ow_network sample_exchange.1)) = 1%nat.
Proof.
  split; [|vm_compute; reflexivity].
  refine (proj2 (requests_leave_sealed near_context false near_request 0 [ChunkArrives 1 sample_stream]
    (replicate 32 3%N) (near_outside true) _ _)); [|reflexivity].
  intros k n. split; [exact (length_replicate n 3%N)|exact (Forall_replicate byte n 3%N eq_refl)].
Defined.
