(* ===== verification/NearEngineTheorems.v ===== *)
(** Sessions of the NEAR provider rest on attested keys, whatever tasks do meanwhile. *)

From stdpp Require Import base gmap strings list.
From Stdlib Require Import ZArith NArith Lia ZifyBool ZifyN ZifyNat.
From S2P Require Import Prelude RustStr Json ToolCalls Content Accounting AppError Inference SecureError TrustPolicy Sse Receipts Endpoint Lease NearCrypto NearWire Relay NearStream NearInference NearProofs NearTheorems NearAttest NearEngine NearSample.

Local Open Scope Z_scope.

Section Engine.
Context `{U : UrlLib} `{UO : !UrlOrigin} `{RH : !RelayHttp}.
Context `{IL : IntelLib} `{NV : NvidiaLib} `{EC : EvidenceCodec}.
Context `{KD : KeyDigest} `{NP : NearPrimitives} `{SJ : SerdeJson} `{B64 : Base64}.
Context (cfg : RelayConfig) (nras_url jwks_url : Url).

(** ** What attested material is *)

(** The challenge was drawn for this attestation, the relay answered it with evidence
    that the vendors vouch for, and its lease is about the attested key. *)
Record attested (m : ModelInfo) (p : TrustPolicy) (material : NearVerifiedMaterial) (expires : Z) : Prop := {
  at_supported : supports m = Ok tt;
  at_vouched : exists ve w wire s v lease_now,
    let nonce := rng_bytes (at_rng w) (rng_calls (at_rng w)) 32 in
    (provider_attestation_report worker_envelope_from_slice cfg false (mi_id m) (hex_encode nonce)
       E2EE_PROTOCOL ENCRYPTION_VERSION ATTESTATION_PROTOCOL (at_network w)).2 = Ok wire /\
    names_worker cfg m nonce wire s /\ vouched_for cfg ve m p nonce s v /\
    vn_model_key (nm_verified material) = sd_key s /\
    vn_response_signing_address (nm_verified material) = to_hex (sd_key s) /\
    nm_worker_session_id material = sd_session_id s /\
    pl_response_signing_address (sd_lease s) = Some (to_hex (sd_key s)) /\
    Lease.verify lease_now (sd_lease s) m (to_hex (sd_key s)) = Ok (nm_binding material) /\
    vn_evidence (nm_verified material) = with_lease (generation (nm_binding material)) expires (vn_evidence v);
  at_expires : expires <= expires_at_unix_seconds p /\
    expires <= Lease.hard_expires_at_unix_seconds (nm_binding material) /\
    expires <= saturating_add (verified_at_unix_seconds (vn_evidence (nm_verified material))) (cf_verified_session_ttl cfg)
}.

Lemma verify_model_Ok ve m p w v lease session :
  (verify_model cfg nras_url jwks_url ve m p w).2 = Ok (v, lease, session) ->
  exists wire s, let nonce := rng_bytes (at_rng w) (rng_calls (at_rng w)) 32 in
    (provider_attestation_report worker_envelope_from_slice cfg false (mi_id m) (hex_encode nonce)
       E2EE_PROTOCOL ENCRYPTION_VERSION ATTESTATION_PROTOCOL (at_network w)).2 = Ok wire /\
    names_worker cfg m nonce wire s /\ vouched_for cfg ve m p nonce s v /\ lease = sd_lease s /\ session = sd_session_id s.
Proof.
  unfold verify_model. destruct (ve_cancelled_before ve); [done|].
  rewrite M_bind_run. unfold lift at 1. destruct (validate_provider_url _ _); [|done].
  rewrite M_bind_run. unfold attest_drawing, fill_bytes. set (nonce := rng_bytes _ _ 32). cbn [at_network].
  rewrite M_bind_run. unfold attest_calling. cbn [at_network at_rng].
  destruct (provider_attestation_report _ _ _ _ _ _ _ _ _) as [n [wire|e]] eqn:Ew; [|done].
  rewrite M_bind_run. unfold lift at 1. destruct (read_evidence _ _ _ _) as [s|] eqn:Es; [|done].
  rewrite M_bind_run. unfold lift. destruct (judge_evidence _ _ _ _ _ _ _ _) as [v'|] eqn:Ev; [|done].
  cbn [mret M_ret snd]. intros [= <- <- <-]. exists wire, s. cbv zeta.
  apply read_evidence_Ok in Es. apply judge_evidence_Ok in Ev. by split_and!.
Qed.

Lemma attest_Ok ve now m p w material expires :
  supports m = Ok tt -> (attest cfg nras_url jwks_url ve now m p w).2 = Ok (material, expires) ->
  attested m p material expires.
Proof.
  unfold attest. rewrite M_bind_run. intros Hsup. pose proof (verify_model_Ok ve m p w) as Hv.
  destruct (verify_model _ _ _ _ _ _ w) as [w' [[[v lease] session]|e]]; [|done]. specialize (Hv _ _ _ eq_refl).
  destruct Hv as (wire & s & Hw & Hn & Hf & -> & ->).
  rewrite M_bind_run. unfold lift at 1. destruct (verify_response_signing_binding _ _) as [[]|] eqn:Eb; [|done].
  rewrite M_bind_run. unfold lift. destruct (Lease.verify _ _ _ _) as [binding|] eqn:El; [|done].
  cbn [mret M_ret snd]. intros [= <- <-]. destruct (vf_key _ _ _ _ _ _ _ Hf) as [Hk Ha].
  unfold verify_response_signing_binding in Eb. apply bind_Ok in Eb as (a & Hwa%ok_or_Ok & Eb).
  apply bind_Ok in Eb as (f & _ & Eb). destruct (_ || _) eqn:Ec; [done|]. apply orb_false_iff in Ec as [_ Ec]. passed Ec.
  constructor; [done| |cbn; unfold expires_at; lia].
  exists ve, w, wire, s, v, now. cbn. rewrite Hk in El. subst a. rewrite Ha in Hwa. by split_and!.
Qed.

(** ** The invariant of the shared state *)

Definition cached_ok (e : Engine) : Prop := forall id c, en_entries e !! id = Some c ->
  mi_id (ca_model c) = id /\ exists expires, attested (ca_model c) (ca_policy c) (ca_material c) expires /\
    ca_expires_at c <= expires.

(** A session of material that was attested for an equal model, under the same policy. *)
Definition session_ok (j : Job) (s : NearVerifiedSession) : Prop :=
  exists m material expires, (m = jb_model j \/ model_eqb m (jb_model j) = true) /\ attested m (jb_policy j) material expires /\
    s = session_from_material cfg material (jb_model j).

Definition phase_ok (j : Job) : Prop :=
  match jb_phase j with
  | Ended (Ok s) => session_ok j s
  | Ended (Err _) => True
  | _ => supports (jb_model j) = Ok tt
  end.
Definition jobs_ok (e : Engine) : Prop := forall t j, en_jobs e !! t = Some j -> phase_ok j.

Definition locked (j : Job) : Prop := jb_phase j = Holding \/ jb_phase j = Verifying.

(** The lock of a model is held exactly by the task that attests it, or is about to. *)
Definition locks_ok (e : Engine) : Prop := forall id t, en_locks e !! id = Some t <->
  exists j, en_jobs e !! t = Some j /\ mi_id (jb_model j) = id /\ locked j.

Record engine_ok (e : Engine) : Prop := {
  eo_cached : cached_ok e; eo_jobs : jobs_ok e; eo_locks : locks_ok e
}.

Lemma idle_ok : engine_ok idle_engine.
Proof.
  split; [by intros id c|by intros t j|]. intros id t. cbn. rewrite lookup_empty. split; [done|].
  intros (j & Hj & _). by rewrite lookup_empty in Hj.
Qed.

Lemma model_eqb_id a b : model_eqb a b = true -> mi_id a = mi_id b.
Proof. by intros [H _]%model_eqb_fields. Qed.

(** What the cache yields is attested. *)
Lemma get_attested e now m p material :
  cached_ok e -> Lease.get now m p (en_entries e) = Some material ->
  exists m' expires, model_eqb m' m = true /\ attested m' p material expires /\ now < expires.
Proof.
  intros He. unfold Lease.get. intros H. apply bind_Some in H as (c & Hc & H).
  destruct (_ && _ && _) eqn:E; [|done]. injection H as <-.
  apply andb_true_iff in E as [E Ep]. apply andb_true_iff in E as [Ex Em]. apply bool_decide_eq_true in Ep. subst p.
  destruct (He _ _ Hc) as (_ & expires & Ha & Hle). exists (ca_model c), expires. split_and!; try done. lia.
Qed.

(** Only the job of one task and what follows from it changes. *)
Lemma jobs_insert e e' t j :
  en_jobs e' = <[t := j]> (en_jobs e) -> jobs_ok e -> phase_ok j -> jobs_ok e'.
Proof.
  intros Hj He Hp t' j'. rewrite Hj, lookup_insert_Some. intros [[<- <-]|[_ H]]; [done|by eapply He].
Qed.

Lemma locks_same e e' t j' :
  en_locks e' = en_locks e -> en_jobs e' = <[t := j']> (en_jobs e) -> locks_ok e ->
  match en_jobs e !! t with
  | Some j => mi_id (jb_model j') = mi_id (jb_model j) /\ (locked j' <-> locked j)
  | None => ~ locked j'
  end -> locks_ok e'.
Proof.
  intros Hl Hj He Ht id t'. rewrite Hl, Hj, (He id t'). split.
  - intros (k & Hk & Hid & Hlk). destruct (decide (t' = t)) as [->|Hne].
    + rewrite Hk in Ht. destruct Ht as [Hm Hlj].
      exists j'. rewrite lookup_insert_eq. split_and!; [done|congruence|by apply Hlj].
    + exists k. rewrite lookup_insert_ne by done. done.
  - intros (k & Hk & Hid & Hlk). rewrite lookup_insert_Some in Hk. destruct Hk as [[<- <-]|[Hne Hk]]; [|by exists k].
    destruct (en_jobs e !! t) as [j|]; [|done]. destruct Ht as [Hm Hlj].
    exists j. split_and!; [done|congruence|by apply Hlj].
Qed.

(** The task that held the lock of its model has dropped it and is not locked any more. *)
Lemma locks_dropped e e' t j :
  en_jobs e !! t = Some j -> locked j -> locks_ok e ->
  en_locks e' = delete (mi_id (jb_model j)) (en_locks e) ->
  (forall t', t' <> t -> en_jobs e' !! t' = en_jobs e !! t') ->
  (forall j', en_jobs e' !! t = Some j' -> ~ locked j') -> locks_ok e'.
Proof.
  intros Ht Hj He Hl Hothers Hown id t'. assert (Hheld : en_locks e !! mi_id (jb_model j) = Some t) by (apply He; by exists j).
  rewrite Hl, lookup_delete_Some, (He id t'). split.
  - intros [Hne (k & Hk & Hid & Hlk)]. exists k. split; [|done]. rewrite Hothers; [done|]. intros ->. congruence.
  - intros (k & Hk & Hid & Hlk). destruct (decide (t' = t)) as [->|Hne]; [by apply Hown in Hk|].
    rewrite Hothers in Hk by done. assert (Hk' : en_locks e !! id = Some t') by (apply He; by exists k).
    split; [congruence|by exists k].
Qed.

Abbreviation step := (engine_step cfg nras_url jwks_url).

Lemma establish_ok e e' t now m p : step e (Establish t now m p) = Some e' -> engine_ok e -> engine_ok e'.
Proof.
  intros H [Hc Hj Hl]. cbn [engine_step] in H. destruct (en_jobs e !! t) eqn:Et; [done|]. injection H as <-.
  destruct (supports m) as [[]|error] eqn:Es.
  - destruct (Lease.get now m p (en_entries e)) as [material|] eqn:Eg.
    + destruct (get_attested _ _ _ _ _ Hc Eg) as (m' & expires & Hm & Ha & _). split; [exact Hc| |].
      * eapply (jobs_insert e); [reflexivity|exact Hj|]. exists m', material, expires. auto.
      * eapply (locks_same e); [reflexivity|reflexivity|exact Hl|]. rewrite Et. by intros [].
    + split; [exact Hc| |].
      * eapply (jobs_insert e); [reflexivity|exact Hj|exact Es].
      * eapply (locks_same e); [reflexivity|reflexivity|exact Hl|]. rewrite Et. by intros [].
  - split; [exact Hc| |].
    + eapply (jobs_insert e); [reflexivity|exact Hj|exact I].
    + eapply (locks_same e); [reflexivity|reflexivity|exact Hl|]. rewrite Et. by intros [].
Qed.

Lemma take_lock_ok e e' t : step e (TakeLock t) = Some e' -> engine_ok e -> engine_ok e'.
Proof.
  intros H [Hc Hj Hl]. cbn [engine_step] in H. apply bind_Some in H as (j & Et & H).
  destruct (jb_phase j) eqn:Ep; try done. destruct (en_locks e !! mi_id (jb_model j)) eqn:El; [done|]. injection H as <-.
  pose proof (Hj _ _ Et) as Hp. unfold phase_ok in Hp. rewrite Ep in Hp. split; [exact Hc|eapply (jobs_insert e); [reflexivity|exact Hj|exact Hp]|].
  intros id t'. cbn. rewrite !lookup_insert_Some. split.
  - intros [[<- <-]|[Hne H]].
    + eexists. rewrite lookup_insert_eq. split_and!; [done|done|by left].
    + apply Hl in H as (k & Hk & Hid & Hlk). exists k. rewrite lookup_insert_ne; [done|]. intros <-. rewrite Et in Hk.
      injection Hk as <-. destruct Hlk; congruence.
  - intros (k & Hk & Hid & Hlk). rewrite lookup_insert_Some in Hk. destruct Hk as [[<- <-]|[Hne Hk]]; [by left|].
    assert (Hk' : en_locks e !! id = Some t') by (apply Hl; by exists k). right. split; [congruence|done].
Qed.

Lemma look_again_ok e e' t now : step e (LookAgain t now) = Some e' -> engine_ok e -> engine_ok e'.
Proof.
  intros H [Hc Hj Hl]. cbn [engine_step] in H. apply bind_Some in H as (j & Et & H).
  destruct (jb_phase j) eqn:Ep; try done. injection H as <-.
  pose proof (Hj _ _ Et) as Hp. unfold phase_ok in Hp. rewrite Ep in Hp.
  destruct (Lease.get now _ _ _) as [material|] eqn:Eg.
  - destruct (get_attested _ _ _ _ _ Hc Eg) as (m' & expires & Hm & Ha & _). split; [exact Hc| |].
    + eapply (jobs_insert e); [reflexivity|exact Hj|]. exists m', material, expires. auto.
    + eapply (locks_dropped e); [exact Et|by left|exact Hl|reflexivity| |]; cbn.
      * intros t' Hne. by rewrite lookup_insert_ne.
      * intros j'. rewrite lookup_insert_eq. intros [= <-] []; done.
  - split; [exact Hc|eapply (jobs_insert e); [reflexivity|exact Hj|exact Hp]|].
    eapply (locks_same e); [reflexivity|reflexivity|exact Hl|]. rewrite Et. split; [done|].
    unfold locked. cbn. rewrite Ep. split; intros _; auto.
Qed.

Lemma attested_ok e e' t ve w n1 n2 : step e (Attested t ve w n1 n2) = Some e' -> engine_ok e -> engine_ok e'.
Proof.
  intros H [Hc Hj Hl]. cbn [engine_step] in H. apply bind_Some in H as (j & Et & H).
  destruct (jb_phase j) eqn:Ep; try done. injection H as <-.
  pose proof (Hj _ _ Et) as Hp. unfold phase_ok in Hp. rewrite Ep in Hp.
  assert (Hdrop : forall e' o, en_locks e' = delete (mi_id (jb_model j)) (en_locks e) ->
    en_jobs e' = <[t := {| jb_model := jb_model j; jb_policy := jb_policy j; jb_phase := Ended o |}]> (en_jobs e) ->
    locks_ok e').
  { intros e' o H1 H2. eapply locks_dropped; [exact Et|by right|exact Hl|done| |]; rewrite H2.
    - intros t' Hne. by rewrite lookup_insert_ne.
    - intros j'. rewrite lookup_insert_eq. intros [= <-] []; done. }
  destruct (attest _ _ _ _ _ _ _ _).2 as [[material expires]|error] eqn:Ea.
  - pose proof (attest_Ok _ _ _ _ _ _ _ Hp Ea) as Hat. split; [|eapply (jobs_insert e); [reflexivity|exact Hj|]|eapply Hdrop; reflexivity].
    + intros id c. cbn. unfold insert_material. rewrite lookup_insert_Some. intros [[<- <-]|[_ H]]; [|by eapply Hc].
      split; [done|]. exists expires. cbn. split; [done|lia].
    + exists (jb_model j), material, expires. auto.
  - split; [exact Hc|eapply (jobs_insert e); [reflexivity|exact Hj|exact I]|eapply Hdrop; reflexivity].
Qed.

Lemma drop_ok e e' t : step e (DropTask t) = Some e' -> engine_ok e -> engine_ok e'.
Proof.
  intros H [Hc Hj Hl]. cbn [engine_step] in H. apply bind_Some in H as (j & Et & H).
  assert (Hjobs : forall t' k, delete t (en_jobs e) !! t' = Some k -> phase_ok k).
  { intros t' k [_ Hk]%lookup_delete_Some. by eapply Hj. }
  assert (Hdrop : locked j -> locks_ok (unlock j {| en_entries := en_entries e; en_locks := en_locks e; en_jobs := delete t (en_jobs e) |})).
  { intros Hlk. eapply (locks_dropped e); [exact Et|exact Hlk|exact Hl|reflexivity| |]; cbn.
    - intros t' Hne. by rewrite lookup_delete_ne.
    - intros j'. by rewrite lookup_delete_eq. }
  destruct (jb_phase j) eqn:Ep; try done; injection H as <-; (split; [exact Hc|exact Hjobs|]).
  - intros id t'. cbn. rewrite (Hl id t'). split; intros (k & Hk & Hid & Hlk); exists k.
    + rewrite lookup_delete_ne; [done|]. intros <-. rewrite Et in Hk. injection Hk as <-. destruct Hlk; congruence.
    + apply lookup_delete_Some in Hk as [_ Hk]. done.
  - apply Hdrop. by left.
  - apply Hdrop. by right.
Qed.

Lemma engine_step_ok e a e' : step e a = Some e' -> engine_ok e -> engine_ok e'.
Proof.
  destruct a as [t now m p|t|t|t now|t ve w n1 n2|t|id].
  - apply establish_ok.
  - apply take_lock_ok.
  - intros H [Hc Hj Hl]. cbn [engine_step] in H. apply bind_Some in H as (j & Et & H).
    destruct (jb_phase j) eqn:Ep; try done. injection H as <-. split; [exact Hc|eapply (jobs_insert e); [reflexivity|exact Hj|exact I]|].
    eapply (locks_same e); [reflexivity|reflexivity|exact Hl|]. rewrite Et. split; [done|].
    unfold locked. cbn. rewrite Ep. split; intros []; done.
  - apply look_again_ok.
  - apply attested_ok.
  - apply drop_ok.
  - intros [= <-] [Hc Hj Hl]. split; [|exact Hj|exact Hl].
    intros i c. cbn. unfold Lease.invalidate. intros [_ H]%lookup_delete_Some. by eapply Hc.
Qed.

Lemma run_ok l e : engine_run cfg nras_url jwks_url idle_engine l = Some e -> engine_ok e.
Proof.
  assert (forall e0, engine_run cfg nras_url jwks_url e0 l = Some e -> engine_ok e0 -> engine_ok e) as H.
  { induction l as [|a l IH]; cbn [engine_run]; intros e0; [by intros [= <-]|].
    intros H Ho. apply bind_Some in H as (e1 & He1 & H). eapply IH; [exact H|]. by eapply engine_step_ok. }
  intros Hr. eapply H; [exact Hr|exact idle_ok].
Qed.

(** ** Progress *)

(** The steps a task ends by itself with. *)
Definition own_step (a : Action) : Prop :=
  match a with TakeLock _ | LookAgain _ _ | Attested _ _ _ _ _ => True | _ => False end.

Abbreviation run := (engine_run cfg nras_url jwks_url).

Lemma run_app e l l' : run e (l ++ l') = e1 ← run e l; run e1 l'.
Proof.
  revert e. induction l as [|a l IH]; intros e; [done|]. cbn [app engine_run].
  destruct (engine_step _ _ _ e a); [apply IH|done].
Qed.

(** A task that has the lock ends, and gives it back; other tasks that wait still wait. *)
Lemma verifying_ends e t j (ve : Vendors) (w : Attesting) (now : Z) :
  en_jobs e !! t = Some j -> jb_phase j = Verifying ->
  exists e' o, run e [Attested t ve w now now] = Some e' /\
    en_jobs e' = <[t := {| jb_model := jb_model j; jb_policy := jb_policy j; jb_phase := Ended o |}]> (en_jobs e) /\
    en_locks e' = delete (mi_id (jb_model j)) (en_locks e).
Proof.
  intros Ht Hp. cbn [engine_run engine_step]. rewrite Ht. cbn [mbind option_bind]. rewrite Hp.
  destruct (attest _ _ _ _ _ _ _ _).2 as [[material expires]|error]; cbn; by do 2 eexists.
Qed.

Lemma holder_ends e t j (ve : Vendors) (w : Attesting) (now : Z) :
  en_jobs e !! t = Some j -> locked j ->
  exists acts e' o, run e acts = Some e' /\ Forall own_step acts /\
    en_jobs e' = <[t := {| jb_model := jb_model j; jb_policy := jb_policy j; jb_phase := Ended o |}]> (en_jobs e) /\
    en_locks e' = delete (mi_id (jb_model j)) (en_locks e).
Proof.
  intros Ht [Hp|Hp].
  - destruct (Lease.get now (jb_model j) (jb_policy j) (en_entries e)) as [material|] eqn:Eg.
    + exists [LookAgain t now]. cbn [engine_run engine_step]. rewrite Ht. cbn [mbind option_bind]. rewrite Hp, Eg.
      do 2 eexists. by split_and!; [|repeat constructor|..].
    + set (e1 := set_phase t j Verifying e).
      assert (H1 : run e [LookAgain t now] = Some e1).
      { cbn [engine_run engine_step]. rewrite Ht. cbn [mbind option_bind]. by rewrite Hp, Eg. }
      destruct (verifying_ends e1 t {| jb_model := jb_model j; jb_policy := jb_policy j; jb_phase := Verifying |} ve w now)
        as (e' & o & Hr & Hj & Hl); [by apply lookup_insert_eq|done|].
      exists ([LookAgain t now] ++ [Attested t ve w now now]), e', o. rewrite run_app, H1. split_and!; [exact Hr| | |exact Hl].
      * by repeat constructor.
      * rewrite Hj. cbn. by rewrite insert_insert_eq.
  - destruct (verifying_ends e t j ve w now Ht Hp) as (e' & o & Hr & Hj & Hl).
    exists [Attested t ve w now now], e', o. split_and!; [exact Hr|by repeat constructor|exact Hj|exact Hl].
Qed.

(** ** What is promised *)

(** the quote library is never given more collateral than configured: whatever it asks
    for and whatever the servers answer, the bodies delivered and the budget that is left
    stay within the limit of one verification. *)
Theorem collateral_is_bounded answers quote :
  let limit := intel_collateral_bytes (cf_limits cfg) in
  let f := fetch_and_verify INTEL_PCCS quote in
  0 <= limit ->
  0 <= delivered cfg answers 0 f limit /\ 0 <= (run_fetching cfg answers 0 f limit).1 /\
  delivered cfg answers 0 f limit + (run_fetching cfg answers 0 f limit).1 <= limit.
Proof. intros limit f Hl. by apply delivered_bounded. Qed.

(** C15: a session is only ever opened on attested material: whatever tasks establish,
    attest, are dropped or invalidate meanwhile, a task that ends with a session has a
    model and a policy for which the challenge was fresh, the quote and the verdict bind
    the key the session encrypts to and the address its answers are signed by, and the
    lease is about that key; and a session from the cache has not expired. *)
Theorem sessions_are_attested l e a e' t j s :
  run idle_engine l = Some e -> engine_step cfg nras_url jwks_url e a = Some e' ->
  en_jobs e' !! t = Some j -> jb_phase j = Ended (Ok s) ->
  session_ok j s /\
  match a with
  | Establish t' now _ _ | LookAgain t' now =>
    t' = t -> exists expires, Accounting.hard_expires_at_unix_seconds (ns_evidence s) = Some expires /\ now < expires
  | _ => True
  end.
Proof.
  intros Hl Ha Hj Hs. pose proof (run_ok _ _ Hl) as He. pose proof (engine_step_ok _ _ _ Ha He) as [_ Hjobs _].
  pose proof (Hjobs _ _ Hj) as Hok. unfold phase_ok in Hok. rewrite Hs in Hok. split; [exact Hok|].
  assert (Hfresh : forall now m p material, Lease.get now m p (en_entries e) = Some material ->
    s = session_from_material cfg material m -> exists expires,
    Accounting.hard_expires_at_unix_seconds (ns_evidence s) = Some expires /\ now < expires).
  { intros now m p material Hg ->. destruct (get_attested e now m p material (eo_cached _ He) Hg)
      as (m' & expires & _ & [_ (ve & w & wire & st & v & n & H) _] & Hlt). exists expires. cbn. split; [|exact Hlt].
    destruct H as (_ & _ & _ & _ & _ & _ & _ & _ & ->). done. }
  destruct a as [t' now m p|t'|t'|t' now|t' ve w n1 n2|t'|id]; try done; intros ->; cbn [engine_step] in Ha.
  - destruct (en_jobs e !! t); [done|]. injection Ha as <-. destruct (supports m).
    + destruct (Lease.get now m p _) as [material|] eqn:Eg; cbn in Hj; rewrite lookup_insert_eq in Hj;
        injection Hj as <-; [|done]. cbn in Hs. injection Hs as <-. by eapply Hfresh.
    + cbn in Hj. rewrite lookup_insert_eq in Hj. by injection Hj as <-.
  - apply bind_Some in Ha as (j0 & Ht & Ha). destruct (jb_phase j0); try done. injection Ha as <-.
    destruct (Lease.get now _ _ _) as [material|] eqn:Eg; cbn in Hj; rewrite lookup_insert_eq in Hj;
      injection Hj as <-; [|done]. cbn in Hs. injection Hs as <-. by eapply Hfresh.
Qed.

(** C16: attestation is single-flight and never stuck: at most one task attests a model at
    a time, and a task that waits for its model can always end by the steps of the tasks
    alone, whatever the vendors answer, with no cancellation needed. *)
Theorem attestation_is_single_flight l e :
  run idle_engine l = Some e ->
  (forall t1 t2 j1 j2, en_jobs e !! t1 = Some j1 -> en_jobs e !! t2 = Some j2 -> locked j1 -> locked j2 ->
     mi_id (jb_model j1) = mi_id (jb_model j2) -> t1 = t2) /\
  (forall t j (ve : Vendors) (w : Attesting) (now : Z), en_jobs e !! t = Some j -> jb_phase j = Waiting ->
     exists acts e' j' o, run e acts = Some e' /\ Forall own_step acts /\
       en_jobs e' !! t = Some j' /\ jb_phase j' = Ended o).
Proof.
  intros Hl. pose proof (run_ok _ _ Hl) as [_ _ Hlocks]. split.
  - intros t1 t2 j1 j2 H1 H2 L1 L2 Hid.
    assert (E1 : en_locks e !! mi_id (jb_model j1) = Some t1) by (apply Hlocks; by exists j1).
    assert (E2 : en_locks e !! mi_id (jb_model j1) = Some t2) by (apply Hlocks; by exists j2). congruence.
  - intros t j ve w now Ht Hp.
    assert (Hfree : forall e1, en_jobs e1 !! t = Some j -> en_locks e1 !! mi_id (jb_model j) = None ->
      exists acts e' j' o, run e1 acts = Some e' /\ Forall own_step acts /\ en_jobs e' !! t = Some j' /\ jb_phase j' = Ended o).
    { intros e1 Ht1 Hn. set (e2 := set_locks (<[mi_id (jb_model j) := t]> (en_locks e1)) (set_phase t j Holding e1)).
      assert (H1 : run e1 [TakeLock t] = Some e2).
      { cbn [engine_run engine_step]. rewrite Ht1. cbn [mbind option_bind]. by rewrite Hp, Hn. }
      destruct (holder_ends e2 t {| jb_model := jb_model j; jb_policy := jb_policy j; jb_phase := Holding |} ve w now)
        as (acts & e' & o & Hr & Hf & Hj & _); [by apply lookup_insert_eq|by left|].
      do 4 eexists. split_and!; [rewrite (run_app _ [TakeLock t]), H1; exact Hr|by constructor|rewrite Hj; apply lookup_insert_eq|done]. }
    destruct (en_locks e !! mi_id (jb_model j)) as [t'|] eqn:El; [|by apply Hfree].
    apply Hlocks in El as (j' & Ht' & Hid & Hlk).
    destruct (holder_ends e t' j' ve w now Ht' Hlk) as (acts & e1 & o & Hr & Hf & Hj & Hl').
    assert (Hne : t' <> t) by (intros ->; destruct Hlk; congruence).
    destruct (Hfree e1) as (acts' & e' & k & o' & Hr' & Hf' & Hk & Hend).
    { rewrite Hj. by rewrite lookup_insert_ne. }
    { rewrite Hl', Hid. apply lookup_delete_eq. }
    exists (acts ++ acts'), e', k, o'. rewrite run_app, Hr. split_and!; [exact Hr'| |exact Hk|exact Hend].
    by apply Forall_app.
Qed.

(** ** The provider as a whole *)

Context `{NP' : !PolicyCrypto} `{NC : NearCodec} `{RC : RelayCodec} `{JW : JsonWriter} `{FT : FloatText} `{JT : JsonText}.

(** The quote that the vendor's library accepted binds this key, under a policy that asks
    for it, and an approved anchor vouched for the machine. *)
Definition attested_key (p : TrustPolicy) (key : Ed25519PublicKey) : Prop :=
  exists ve nonce quote fingerprint manifest status jwt,
    quoted cfg (ve_intel ve) quote (key_bytes key) fingerprint nonce manifest status /\
    (status = "UpToDate" /\ status ∈ accepted_intel_statuses p \/ status = "OutOfDate" /\ ve_accepts ve = true) /\
    vouched (ve_now ve) (nvidia_anchor_sha256 p) (hex_encode nonce) jwt.

Lemma attested_has_key m p material expires :
  attested m p material expires ->
  attested_key p (vn_model_key (nm_verified material)) /\
  vn_response_signing_address (nm_verified material) = to_hex (vn_model_key (nm_verified material)).
Proof.
  intros [_ (ve & w & wire & s & v & n & _ & _ & Hf & Hk & Ha & _) _]. split; [|by rewrite Ha, Hk].
  destruct Hf as [_ (status & Hq & Hh & Hok) (_ & jwt & Hj) _]. rewrite Hk.
  exists ve, (rng_bytes (at_rng w) (rng_calls (at_rng w)) 32), (sd_quote s), (sd_fingerprint s), (sd_manifest s), status, jwt.
  split_and!; [exact Hq| |exact Hj]. destruct (he_state _ _ _ _ _ _ _ _ Hh) as [(_ & E & Hin)|(_ & E & _)]; [by left|].
  right. split; [done|]. destruct Hok as [Hu|Hu]; [congruence|done].
Qed.

(** C12: an answer comes from an attested worker: when a session that was established in any
    interleaving streams a response to its end, that response is what a worker signed with
    the very key that the accepted quote and verdict bind, for the request that was sealed
    to that key. *)
Theorem answers_come_from_attested_workers l e t j s cancelled r started steps w w' response :
  run idle_engine l = Some e -> en_jobs e !! t = Some j -> jb_phase j = Ended (Ok s) ->
  NearInference.stream (ns_context s) cancelled r started steps w = (w', Ok response) ->
  let key := nx_model_key (ns_context s) in
  exists m, attested_key (jb_policy j) key /\ supports m = Ok tt /\ (m = jb_model j \/ model_eqb m (jb_model j) = true) /\
    exists i relay request_hash,
      (prepare (ns_context s) r true w).2 = Ok (i, relay, request_hash) /\ rr_model_public_key_hex relay = to_hex key /\
      signed_response i request_hash (to_hex key) (mi_upstream_model (jb_model j)) response.
Proof.
  intros Hl Hj Hs Hstream key. pose proof (run_ok _ _ Hl) as [_ Hjobs _].
  pose proof (Hjobs _ _ Hj) as Hok. unfold phase_ok in Hok. rewrite Hs in Hok.
  destruct Hok as (m & material & expires & Hm & Ha & ->). destruct (attested_has_key _ _ _ _ Ha) as [Hkey Haddr].
  exists m. split_and!; [exact Hkey|apply Ha|exact Hm|].
  pose proof (stream_told (ns_context (session_from_material cfg material (jb_model j))) cancelled r started steps w) as Ht.
  rewrite Hstream in Ht. rewrite prepare_run in Ht |- *.
  match type of Ht with context [build_request ?a ?b ?c ?d ?x ?y ?z] =>
    destruct (build_request a b c d x y z) as [g [[[i relay] h]|e']] eqn:Eb end; [|by destruct Ht].
  cbn [mbind result_bind snd] in Ht |- *. destruct Ht as (shown & gated & _ & _ & ds & reason & Hsigned & _).
  exists i, (with_worker_session (nm_worker_session_id material) relay), h. split_and!; [done| |].
  - cbn. by apply build_request_key in Eb.
  - cbn in Hsigned. by rewrite Haddr in Hsigned.
Qed.
End Engine.

(** ** Examples *)

#[local] Existing Instances plain_url plain_base64 plain_json plain_text near_origin.

Lemma collateral_is_bounded_witness :
  let limit := 2 * 1024 * 1024 in
  0 <= limit /\ delivered near_config (ve_intel sample_vendors) 0 (fetch_and_verify INTEL_PCCS [0%N]) limit <= limit.
Proof.
  split; [lia|].
  destruct (collateral_is_bounded near_config (ve_intel sample_vendors) [0%N] ltac:(cbn; lia)) as (H1 & H2 & H3).
  cbn [near_config cf_limits intel_collateral_bytes default_limits] in *. lia.
Defined.

Lemma sessions_are_attested_witness : session_ok near_config the_job the_session.
Proof.
  assert (H1 : engine_run near_config "https://nras" "https://jwks" idle_engine sample_actions = Some sample_engine)
    by (vm_compute; reflexivity).
  assert (H2 : engine_step near_config "https://nras" "https://jwks" sample_engine (LookAgain 2 339) = Some looked_again)
    by (vm_compute; reflexivity).
  assert (H3 : en_jobs looked_again !! 2%nat = Some the_job) by (vm_compute; reflexivity).
  assert (H4 : jb_phase the_job = Ended (Ok the_session)) by (vm_compute; reflexivity).
  exact (proj1 (sessions_are_attested near_config "https://nras" "https://jwks" sample_actions sample_engine
    (LookAgain 2 339) looked_again 2%nat the_job the_session H1 H2 H3 H4)).
Defined.

Lemma attestation_is_single_flight_witness :
  exists acts e' j' o, engine_run near_config "https://nras" "https://jwks" waiting_engine acts = Some e' /\
    Forall own_step acts /\ en_jobs e' !! 2%nat = Some j' /\ jb_phase j' = Ended o.
Proof.
  assert (H1 : engine_run near_config "https://nras" "https://jwks" idle_engine
    [Establish 1 100 near_model sample_trust; Establish 2 100 near_model sample_trust; TakeLock 1] = Some waiting_engine)
    by (vm_compute; reflexivity).
  assert (H2 : en_jobs waiting_engine !! 2%nat =
    Some {| jb_model := near_model; jb_policy := sample_trust; jb_phase := Waiting |}) by (vm_compute; reflexivity).
  exact (proj2 (attestation_is_single_flight near_config "https://nras" "https://jwks" _ waiting_engine H1)
    2%nat _ sample_vendors sample_world 100 H2 eq_refl).
Defined.

Lemma answers_come_from_attested_workers_witness :
  exists m, attested_key near_config sample_trust {| key_bytes := worker_key |} /\ supports m = Ok tt.
Proof.
  assert (H1 : engine_run near_config "https://nras" "https://jwks" idle_engine (sample_actions ++ [LookAgain 2 339])
    = Some looked_again) by (vm_compute; reflexivity).
  assert (H3 : en_jobs looked_again !! 2%nat = Some the_job) by (vm_compute; reflexivity).
  assert (H4 : jb_phase the_job = Ended (Ok the_session)) by (vm_compute; reflexivity).
  assert (H5 : NearInference.stream (ns_context the_session) false near_request 0 [ChunkArrives 1 sample_stream]
    (near_outside true) = (sample_end, Ok sample_response)) by (vm_compute; reflexivity).
  assert (Hp : jb_policy the_job = sample_trust) by (vm_compute; reflexivity).
  assert (Hk : nx_model_key (ns_context the_session) = {| key_bytes := worker_key |}) by (vm_compute; reflexivity).
  destruct (answers_come_from_attested_workers near_config "https://nras" "https://jwks" _ _ _ _ _ _ _ _ _ _ _ _ H1 H3 H4 H5)
    as (m & H & Hm & _).
  rewrite Hp, Hk in H. exists m. split; [exact H|exact Hm].
Defined.
