(* ===== verification/Machine.v ===== *)
(** The machine an update runs on: its files, file locks, clock, network and other
    programs, as crates/axiom-update-client, crates/axiom-installation and
    apps/axiomcli/src/updates use them on Linux.

    Files are those of [Disk]: before any call other processes may act, and any call may
    fail.  What programs that are started do, what servers answer, how long things take
    and which processes live is the class [World], whose operations get a number that
    is never used twice.  The acts a process does on the outside are kept in order. *)

From stdpp Require Import base gmap strings list.
From Stdlib Require Import ZArith NArith Lia ZifyBool ZifyN ZifyNat.
From S2P Require Import Prelude RustStr Json Paths Disk.

Local Open Scope Z_scope.

(** [std::process::Command]. *)
Record Command : Type := {
  cm_program : Path; cm_args : list string; cm_env_remove : list string; cm_cwd : option Path
}.
#[export] Instance Command_eq_dec : EqDecision Command.
Proof. solve_decision. Defined.

Inductive Act : Type :=
| Requested (url : string)
| Ran (c : Command) (d : Disk) (held : list Key)  (** with the disk and our locks then *)
| Spawned (c : Command)
| Killed (c : Command)
| Printed (event : Value)                        (** [println!] *)
| PrintedText (text : string)
| Warned (text : string).                        (** [eprintln!] *)

Record Machine : Type := {
  mc_fs : Fs;
  mc_held : list Key;     (** files locked exclusively by this process *)
  mc_time : Z;            (** milliseconds *)
  mc_ticks : nat;
  mc_acts : list Act
}.

(** What a server answers to a request; [None] among the chunks is a broken connection. *)
Inductive Answer : Type :=
| Answers (status : Z) (content_length : option Z) (chunks : list (option (list N)))
| NoAnswer (error : string).

Class World : Type := {
  lag : nat -> nat;
  answer : nat -> Answer;
  (** What a program leaves of the disk, whether it succeeds, and its output. *)
  run_program : nat -> Command -> Disk -> Disk * result string (bool * list N);
  spawn_error : nat -> option string;
  alive : nat -> Z -> bool;
  (** [Child::try_wait] is [Some]. *)
  child_exited : nat -> bool;
  process_id : Z;
  current_exe : Path;
  appimage : option Path;
  user_cache : option Path;
  (** [Metadata::modified] in milliseconds. *)
  modified : nat -> Key -> option Z
}.

Abbreviation Doing := (M Machine string).

Definition mc_with_fs (m : Machine) (w : Fs) : Machine :=
  {| mc_fs := w; mc_held := mc_held m; mc_time := mc_time m; mc_ticks := mc_ticks m; mc_acts := mc_acts m |}.
Definition mc_with_held (m : Machine) (l : list Key) : Machine :=
  {| mc_fs := mc_fs m; mc_held := l; mc_time := mc_time m; mc_ticks := mc_ticks m; mc_acts := mc_acts m |}.
Definition mc_at (m : Machine) (t : Z) : Machine :=
  {| mc_fs := mc_fs m; mc_held := mc_held m; mc_time := t; mc_ticks := S (mc_ticks m); mc_acts := mc_acts m |}.
Definition mc_with_act (m : Machine) (a : Act) : Machine :=
  {| mc_fs := mc_fs m; mc_held := mc_held m; mc_time := mc_time m; mc_ticks := mc_ticks m;
     mc_acts := mc_acts m ++ [a] |}.

(** [anyhow::ensure!] and [Context::context]. *)
Definition ensure (b : bool) (message : string) : Doing unit := if b then mret tt else throw message.
Definition need {A} (o : option A) (message : string) : Doing A := lift (ok_or o message).
Definition context {A} (message : string) (x : Doing A) : Doing A := fun m =>
  match x m with (m, Ok a) => (m, Ok a) | (m, Err _) => (m, Err message) end.
(** [let _ = ..]. *)
Definition ignore {A} (x : Doing A) : Doing unit := fun m => let '(m, _) := x m in (m, Ok tt).
(** The result of a call as a value. *)
Definition attempt {A} (x : Doing A) : Doing (result string A) := fun m => let '(m, r) := x m in (m, Ok r).

Definition act (a : Act) : Doing unit := modify (fun m => mc_with_act m a).

(** ** Files *)

Definition on_fs {A} (x : M Fs string A) : Doing A := fun m =>
  let '(w, r) := x (mc_fs m) in (mc_with_fs m w, r).

(** A call that reads. *)
Definition look {A} (f : Fs -> result string A) : M Fs string A :=
  call (fun w => a ← f w; Ok (fs_disk w, a)).

Definition canonicalize_path (p : Path) : Doing Path := on_fs (look (fun w => canonical w p)).

(** [Path::try_exists]. *)
Definition try_exists (p : Path) : Doing bool :=
  on_fs (look (fun w => match resolve w p with
                        | Ok _ => Ok true
                        | Err e => if decide (e = ENOENT) then Ok false else Err e
                        end)).

(** [Path::is_file]: errors are [false]. *)
Definition is_file (p : Path) : Doing bool := fun m =>
  match on_fs (look (fun w => Ok match path_node w p with Some (NFile _ _) => true | _ => false end)) m with
  | (m, Ok b) => (m, Ok b) | (m, Err _) => (m, Ok false)
  end.

Definition file_data (n : Node) : result string (list N) :=
  match n with NFile data _ => Ok data | NDir => Err EISDIR | _ => Err EINVAL end.

Definition followed (w : Fs) (p : Path) : result string Node :=
  k ← resolve w p; ok_or (node (fs_disk w) k) ENOENT.

(** [std::fs::metadata(..).len()], [std::fs::read], [File::open] with what the handle keeps. *)
Definition node_len (n : Node) : Z := match n with NFile data _ => Z.of_nat (length data) | _ => 4096 end.
Definition file_len (p : Path) : Doing Z := on_fs (look (fun w => node_len <$> followed w p)).
Definition read_file (p : Path) : Doing (list N) := on_fs (look (fun w => n ← followed w p; file_data n)).
Definition open_file (p : Path) : Doing Node := on_fs (look (fun w => followed w p)).

(** [OpenOptions::new().create(true).truncate(false)]: links are followed, also to a
    file that is yet to be made. *)
Fixpoint open_entry (links : nat) (w : Fs) (p : Path) : result string Key :=
  k ← entry w p;
  match node (fs_disk w) k with
  | Some (NLink target) =>
    match links with
    | O => Err ELOOP
    | S links => open_entry links w (path_join (of_key (removelast k)) target)
    end
  | _ => Ok k
  end.

Definition fs_open_or_create (p : Path) : M Fs string Key :=
  call (fun w => k ← open_entry MAX_LINKS w p;
    match node (fs_disk w) k with
    | None => Ok (<[k := NFile [] (Z.land 438 (Z.lnot (fs_umask w)))]> (fs_disk w), k)
    | Some NDir => Err EISDIR
    | Some _ => Ok (fs_disk w, k)
    end).

(** [std::fs::write]: the file is truncated, then written. *)
Definition truncate_at (k : Key) (d : Disk) : Disk :=
  match d !! k with Some (NFile _ mode) => <[k := NFile [] mode]> d | _ => d end.
Definition fs_write (p : Path) (data : list N) : M Fs string unit :=
  k ← fs_open_or_create p;
  _ ← modify (fun w => with_disk w (truncate_at k (fs_disk w)));
  fs_write_all k data.

(** [std::fs::create_dir_all]. *)
Fixpoint make_dirs (w : Fs) (d : Disk) (cur : Path) (todo : list component) : result string Disk :=
  match todo with
  | [] => Ok d
  | c :: todo =>
    let p := {| absolute := absolute cur; comps := comps cur ++ [c] |} in
    let w' := with_disk w d in
    match followed w' p with
    | Ok NDir => make_dirs w d p todo
    | Ok _ => Err EEXIST
    | Err e => if decide (e = ENOENT)
               then k ← entry w' p;
                    match node d k with
                    | None => make_dirs w (<[k := NDir]> d) p todo
                    | Some _ => Err EEXIST
                    end
               else Err e
    end
  end.
Definition fs_create_dir_all (p : Path) : M Fs string unit :=
  call (fun w => d ← make_dirs w (fs_disk w) {| absolute := absolute p; comps := [] |} (comps p); Ok (d, tt)).

(** [create_dir]. *)
Definition fs_create_dir (p : Path) : M Fs string Key :=
  call (fun w => k ← entry w p;
    match node (fs_disk w) k with Some _ => Err EEXIST | None => Ok (<[k := NDir]> (fs_disk w), k) end).

(** [std::fs::read_dir], at once: the names of a directory. *)
Definition child (k : Key) (x : Key * Node) : option string :=
  match last x.1 with
  | Some s => if decide (x.1 = k ++ [s]) then Some s else None
  | None => None
  end.
Definition children (d : Disk) (k : Key) : list string := omap (child k) (map_to_list d).
Definition read_dir (p : Path) : Doing (list string) :=
  on_fs (look (fun w => k ← resolve w p;
    match node (fs_disk w) k with Some NDir => Ok (children (fs_disk w) k) | _ => Err ENOTDIR end)).

(** [std::fs::remove_dir]. *)
Definition fs_remove_dir (p : Path) : M Fs string unit :=
  call (fun w => k ← entry w p;
    match node (fs_disk w) k with
    | Some NDir => if existsb (fun x => below k x.1 && negb (bool_decide (x.1 = k))) (map_to_list (fs_disk w))
                   then Err ENOTEMPTY else Ok (delete k (fs_disk w), tt)
    | Some _ => Err ENOTDIR
    | None => Err ENOENT
    end).

(** [std::fs::remove_dir_all]: links are removed, not followed; a call that fails may have
    removed a part. *)
Definition tree_of (k : Key) (d : Disk) : list Key :=
  List.filter (fun k' => below k k') ((fun x : Key * Node => x.1) <$> map_to_list d).
Definition delete_all (l : list Key) (d : Disk) : Disk := foldr delete d l.
Definition fs_remove_dir_all (p : Path) : M Fs string unit := fun w =>
  match next_event w with
  | (w, e) =>
    match entry w p with
    | Err m => (w, Err m)
    | Ok k =>
      match node (fs_disk w) k with
      | None => (w, Err ENOENT)
      | Some NDir =>
        match e with
        | Some {| ev_fault := Some m; ev_written := n |} =>
          (with_disk w (delete_all (take n (List.filter (fun k' => negb (bool_decide (k' = k))) (tree_of k (fs_disk w))))
                          (fs_disk w)), Err m)
        | _ => (with_disk w (delete_all (tree_of k (fs_disk w)) (fs_disk w)), Ok tt)
        end
      | Some _ => match e with Some {| ev_fault := Some m |} => (w, Err m) | _ => (w, Err ENOTDIR) end
      end
    end
  end.

(** [std::fs::copy]: the content and the mode of a file. *)
Definition fs_copy (src dst : Path) : M Fs string unit :=
  n ← look (fun w => followed w src);
  data ← lift (file_data n);
  k ← fs_open_or_create dst;
  _ ← modify (fun w => with_disk w (truncate_at k (fs_disk w)));
  _ ← fs_write_all k data;
  modify (fun w => with_disk w (match fs_disk w !! k, n with
                                | Some (NFile data _), NFile _ mode => <[k := NFile data mode]> (fs_disk w)
                                | _, _ => fs_disk w
                                end)).

(** [tempfile::NamedTempFile::new_in]: a new name in the directory. *)
Definition temp_file_in (dir : Path) : Doing Path :=
  name ← on_fs new_uuid;
  let p := path_push dir (".tmp" +:+ name) in
  _ ← on_fs (fs_create_new p); mret p.
(** What is dropped on an error is cleaned up. *)
Definition on_error {A} (cleanup : Doing unit) (x : Doing A) : Doing A := fun m =>
  match x m with
  | (m, Ok a) => (m, Ok a)
  | (m, Err e) => let '(m, _) := cleanup m in (m, Err e)
  end.
(** A temporary file is removed when it is dropped without [persist]. *)
Definition or_remove {A} (p : Path) (x : Doing A) : Doing A := on_error (on_fs (fs_remove_file p)) x.

(** [let mut f = NamedTempFile::new_in(dir)?; f.write_all(data)?; f.sync_all()?; f.persist(to)]. *)
Definition write_and_persist (dir : Path) (data : list N) (to : Path) : Doing unit :=
  p ← temp_file_in dir;
  or_remove p
    (k ← on_fs (look (fun w => entry w p));
     _ ← on_fs (fs_write_all k data);
     _ ← on_fs (fs_sync_all k);
     on_fs (fs_rename p to)).

(** ** Locks *)

(** [fs2::FileExt::try_lock_exclusive]: fails when another handle has a lock. *)
Definition try_lock (k : Key) : Doing unit := fun m =>
  if bool_decide (k ∈ mc_held m) then (m, Err "Resource temporarily unavailable (os error 11)") else
  match on_fs (call (fun w => Ok (fs_disk w, tt))) m with
  | (m, Ok _) => (mc_with_held m (k :: mc_held m), Ok tt)
  | (m, Err e) => (m, Err e)
  end.
Definition unlock (k : Key) : Doing unit :=
  modify (fun m => mc_with_held m (List.filter (fun k' => negb (bool_decide (k' = k))) (mc_held m))).
(** A guard is dropped when its scope ends. *)
Definition guarded {A} (k : Key) (x : Doing A) : Doing A := fun m =>
  let '(m, r) := x m in let '(m, _) := unlock k m in (m, r).

(** ** Time, programs and the network *)

Section World.
Context `{W : World}.

(** [Instant::now]. *)
Definition now : Doing Z := fun m =>
  let t := mc_time m + Z.of_nat (lag (mc_ticks m)) in (mc_at m t, Ok t).
(** [std::thread::sleep] sleeps at least its argument. *)
Definition sleep (ms : Z) : Doing unit := fun m =>
  (mc_at m (mc_time m + ms + Z.of_nat (lag (mc_ticks m))), Ok tt).
Definition tick : Doing nat := fun m => (mc_at m (mc_time m), Ok (mc_ticks m)).

(** [loop { if done()? { return } if now >= deadline { late } sleep(ms) }]: the fuel is
    enough rounds ([Machine.poll_enough]). *)
Definition EXHAUSTED : string := "no rounds left".
Fixpoint poll_rounds (fuel : nat) (deadline ms : Z) (late : Doing unit) (check : Doing bool) : Doing unit :=
  match fuel with
  | O => throw EXHAUSTED
  | S fuel =>
    ready ← check;
    if ready : bool then mret tt else
    t ← now;
    if t <? deadline then _ ← sleep ms; poll_rounds fuel deadline ms late check else late
  end.
Definition rounds (total ms : Z) : nat := S (S (Z.to_nat (total / ms))).
Definition poll (total ms : Z) (late : Doing unit) (check : Doing bool) : Doing unit :=
  t ← now; poll_rounds (rounds total ms) (t + total) ms late check.

(** [Command::status] and [Command::output]. *)
Definition run_command (c : Command) : Doing (bool * list N) := fun m =>
  let '(m, r) := on_fs (look (fun _ => Ok tt)) m in
  match r with
  | Err e => (m, Err e)
  | Ok _ =>
    let d := fs_disk (mc_fs m) in
    let m := mc_with_act m (Ran c d (mc_held m)) in
    let '(d, r) := run_program (mc_ticks m) c d in
    (mc_at (mc_with_fs m (with_disk (mc_fs m) d)) (mc_time m), r)
  end.

(** [Command::spawn]. *)
Definition spawn_command (c : Command) : Doing unit :=
  n ← tick;
  match spawn_error n with Some e => throw e | None => act (Spawned c) end.

Definition request (url : string) : Doing Answer :=
  n ← tick; _ ← act (Requested url); mret (answer n).
End World.

(** A lock that was not held is given back. *)
Lemma filter_other (k : Key) l : k ∉ l -> List.filter (fun k' => negb (bool_decide (k' = k))) l = l.
Proof.
  induction l as [|x l IH]; intros H; [done|]. apply not_elem_of_cons in H as [Hx H]. cbn.
  rewrite bool_decide_false by done. cbn. by rewrite IH.
Qed.

(** ** Waiting ends *)

Section Waiting.
Context `{W : World}.
Implicit Types (m : Machine).

Definition keeps_time {A} (x : Doing A) : Prop := forall m, mc_time m <= mc_time (x m).1.

Lemma poll_rounds_more ms late check deadline : 0 < ms -> keeps_time check -> forall fuel m,
  (0 < fuel)%nat -> deadline - mc_time m <= (Z.of_nat fuel - 1) * ms ->
  poll_rounds (S fuel) deadline ms late check m = poll_rounds fuel deadline ms late check m.
Proof.
  intros Hms Hck. induction fuel as [|fuel IH]; intros m Hf Hd; [lia|].
  change (poll_rounds (S (S fuel)) deadline ms late check m) with
    ((ready ← check; if ready : bool then mret tt else
      t ← now; if t <? deadline then _ ← sleep ms; poll_rounds (S fuel) deadline ms late check else late) m).
  change (poll_rounds (S fuel) deadline ms late check m) with
    ((ready ← check; if ready : bool then mret tt else
      t ← now; if t <? deadline then _ ← sleep ms; poll_rounds fuel deadline ms late check else late) m).
  rewrite !M_bind_run. specialize (Hck m). destruct (check m) as [m1 [[]|e]]; [done| |done]. cbn in Hck.
  rewrite !M_bind_run. unfold now, mc_at. cbv zeta. cbn -[Z.add Z.sub Z.mul poll_rounds].
  destruct (_ <? _) eqn:Ht; [|done]. cbn -[Z.add Z.sub Z.mul poll_rounds].
  apply Z.ltb_lt in Ht. destruct fuel as [|fuel]; [lia|]. apply IH; [lia|]. cbn. nia.
Qed.

(** However long it is let run, a wait does the same: its rounds are enough. *)
Lemma poll_enough total ms late check fuel m :
  0 < ms -> 0 <= total -> keeps_time check -> (rounds total ms <= fuel)%nat ->
  (t ← now; poll_rounds fuel (t + total) ms late check) m = poll total ms late check m.
Proof.
  intros Hms Ht Hck Hf. unfold poll. rewrite !M_bind_run. unfold now, mc_at. cbv zeta. cbv beta iota.
  induction Hf as [|fuel Hf IH]; [done|]. rewrite <- IH. apply poll_rounds_more; [done..| |].
  - unfold rounds in Hf. lia.
  - cbn. unfold rounds in Hf. pose proof (Z.mul_div_le total ms Hms).
    pose proof (Z.mod_pos_bound total ms Hms). pose proof (Z.div_mod total ms ltac:(lia)).
    assert (0 <= total / ms) by (apply Z.div_pos; lia). nia.
Qed.
End Waiting.
