(* ===== verification/Download.v ===== *)
(** The signed feed and downloads (crates/axiom-update-client/src/lib.rs): bounded,
    without redirects, verified. *)

From stdpp Require Import base gmap strings list.
From Stdlib Require Import ZArith NArith Lia ZifyBool ZifyN ZifyNat.
From S2P Require Import Prelude RustStr Json Paths Accounting Lease Release Disk Machine.

Local Open Scope Z_scope.

Definition RELEASE_API : string := "https://axiom.stream/api/releases/latest".
Definition BROKEN : string := "error decoding response body".

Section Download.
Context `{W : World} `{RC : ReleaseCodec} `{B64 : Base64} `{J : SerdeJson} `{KD : KeyDigest}.

(** The text of an error. *)
Definition failure_text (e : Failure) : string :=
  match e with Refused message => message | External => "invalid data" end.
Definition checked {A} (r : result Failure A) : Doing A := lift (map_err failure_text r).

(** [while let Some(chunk) = response.chunk().await?]. *)
Fixpoint read_chunks (acc : list N) (chunks : list (option (list N))) : result string (list N) :=
  match chunks with
  | [] => Ok acc
  | None :: _ => Err BROKEN
  | Some chunk :: chunks =>
    if Z.of_nat (length acc) + Z.of_nat (length chunk) <=? MAX_FEED_BYTES
    then read_chunks (acc ++ chunk) chunks else Err "Release feed is too large"
  end.

Definition within (limit : Z -> bool) (content_length : option Z) : bool :=
  match content_length with Some n => limit n | None => true end.

Definition read_release (a : Answer) : Doing Release :=
  match a with
  | NoAnswer e => throw e
  | Answers status content_length chunks =>
    _ ← ensure (status =? 200) "Release feed is unavailable";
    _ ← ensure (within (fun n => n <=? MAX_FEED_BYTES) content_length) "Release feed is too large";
    bs ← lift (read_chunks [] chunks);
    checked (parse_release bs)
  end.

Definition latest_release (trusted_keys : string) : Doing Release :=
  response ← request RELEASE_API;
  release ← read_release response;
  _ ← checked (verify_release release trusted_keys);
  mret release.

(** [accept_sequence], one step under [feed.lock]: the call that fails is one before the
    checks ([ev_written] is 0), [path.exists()] (1, which hides the file), the read (2), or
    one that writes. *)
Definition accepted_at (directory : Path) : Path := path_push directory "accepted.json".

Definition accept_io (e : option Event) : Io :=
  match e with
  | Some {| ev_fault := Some _; ev_written := O |} => DirectoryFails
  | Some {| ev_fault := Some _; ev_written := 1 |} => Reached false true true
  | Some {| ev_fault := Some _; ev_written := 2 |} => Reached true false true
  | Some {| ev_fault := Some _ |} => Reached true true false
  | _ => Reached true true true
  end.

Definition accept_sequence_at (directory : Path) (r : Release) (trusted_keys : string) : Doing unit := fun m =>
  let '(w, e) := next_event (mc_fs m) in
  let p := accepted_at directory in
  match entry w p, followed w p with
  | Err x, _ => (mc_with_fs m w, Err x)
  | Ok _, Ok (NDir | NLink _ | NSpecial) =>
    (mc_with_fs m w, match verify_release r trusted_keys with Ok _ => Err EISDIR | Err x => Err (failure_text x) end)
  | Ok k, n =>
    let file := match n with Ok (NFile data _) => Some data | _ => None end in
    let '(file', res) := accept_sequence trusted_keys r (accept_io e) file in
    let d := match res, file' with
             | Ok _, Some data => <[k := NFile data 384]> (fs_disk w)
             | _, _ => fs_disk w
             end in
    (mc_with_fs m (with_disk w d), map_err failure_text res)
  end.

Definition verify_file (p : Path) (file : Artifact) : Doing unit :=
  n ← open_file p;
  data ← match n with
         | NFile data _ => if Z.of_nat (length data) =? a_bytes file then mret data
                           else throw "Update size mismatch"
         | _ => throw "Update size mismatch"
         end;
  ensure (bool_decide (sha256_hex data = sha256 file)) "Update checksum mismatch".

(** The loop over the chunks of a download; [progress] is called when the percentage
    changes. *)
Fixpoint write_chunks (progress : Z -> Z -> Doing unit) (k : Key) (total received last_percent : Z)
    (chunks : list (option (list N))) : Doing unit :=
  match chunks with
  | [] => mret tt
  | None :: _ => throw BROKEN
  | Some chunk :: chunks =>
    let received := received + Z.of_nat (length chunk) in
    _ ← ensure (received <=? total) "Update exceeds expected size";
    _ ← on_fs (fs_write_all k chunk);
    let percent := received * 100 / total in
    _ ← (if percent =? last_percent then mret tt else progress received total);
    write_chunks progress k total received percent chunks
  end.

Definition download_verified (file : Artifact) (destination : Path) (progress : Z -> Z -> Doing unit) : Doing unit :=
  a ← request (a_url file);
  match a with
  | NoAnswer e => throw e
  | Answers status content_length chunks =>
    _ ← ensure ((status =? 200) && within (fun n => n =? a_bytes file) content_length)
          "Update download is unavailable or changed";
    output ← on_fs (fs_create_new destination);
    _ ← write_chunks progress output (a_bytes file) 0 101 chunks;
    _ ← on_fs (fs_sync_all output);
    verify_file destination file
  end.

(** ** What a download leaves *)

(** The file at [q] is the one the release describes. *)
Definition exact_at (w : Fs) (q : Path) (file : Artifact) : Prop :=
  exists data mode, followed w q = Ok (NFile data mode) /\ Z.of_nat (length data) = a_bytes file /\
                    sha256_hex data = sha256 file.

Lemma ensure_Ok b e m m' : ensure b e m = (m', Ok tt) -> b = true /\ m' = m.
Proof. destruct b; [by intros [= <-]|done]. Qed.

Lemma look_Ok {A} (f : Fs -> result string A) m m' a :
  on_fs (look f) m = (m', Ok a) -> f (mc_fs m') = Ok a.
Proof.
  unfold on_fs, look, call. destruct (next_event (mc_fs m)) as [w e].
  assert (Hf : forall (x : Machine * result string A),
    x = (let '(w, r) := match f w ≫= (fun a => Ok (fs_disk w, a)) with
                        | Ok (d, a) => (with_disk w d, Ok a) | Err s => (w, Err s) end in (mc_with_fs m w, r)) ->
    x = (m', Ok a) -> f (mc_fs m') = Ok a).
  { intros x -> H. destruct (f w) as [a'|s] eqn:Hf; cbn in H; [|done]. injection H as <- <-. cbn.
    by destruct w. }
  destruct e as [[c mv [s|] n]|]; [done|by apply Hf..].
Qed.

Lemma verify_file_Ok q file m m' : verify_file q file m = (m', Ok tt) -> exact_at (mc_fs m') q file.
Proof.
  unfold verify_file. intros (m1 & n & Hn & H)%M_bind_Ok. apply look_Ok in Hn.
  apply M_bind_Ok in H as (m2 & data & Hd & H). apply ensure_Ok in H as [Hs ->].
  destruct n as [d mode| |t|]; try done. destruct (_ =? _) eqn:Hl; [|done]. injection Hd as <- <-.
  apply bool_decide_eq_true in Hs. exists d, mode. split_and!; [done|lia|done].
Qed.

End Download.
