(* ===== verification/Installation.v ===== *)
(** Which package a program belongs to (crates/axiom-installation/src/lib.rs), as the
    Linux build reads it: the marker beside the program, the files of the package, the
    private cache of its updates and the lease its processes hold. *)

From stdpp Require Import base gmap strings list.
From Stdlib Require Import ZArith NArith Lia ZifyBool ZifyN ZifyNat.
From S2P Require Import Prelude RustStr Json Paths Disk Lease Machine.

Local Open Scope Z_scope.

Record Marker : Type := {
  mk_schema_version : Z; mk_product : string; mk_format : string; mk_versioned : bool
}.
Record Installation : Type := {
  in_product : string; in_format : string; in_root : Path; in_cli : Path;
  in_desktop : option Path; in_app_image : option Path
}.
#[export] Instance Installation_eq_dec : EqDecision Installation.
Proof. solve_decision. Defined.

(** serde's derived decoder. *)
Class MarkerCodec : Type := { decode_marker : list N -> option Marker }.

Definition supported_format (product format : string) : bool :=
  if decide (product = "desktop") then bool_decide (format ∈ ["AppImage"; "deb"; "pacman"])
  else bool_decide (format = "sh").

Definition is_versioned (product format : string) : bool :=
  bool_decide (product = "cli") && bool_decide (format = "sh").

Section Installation.
Context `{W : World} `{KD : KeyDigest} `{MC : MarkerCodec}.

Definition grandparent (p : Path) : option Path := p ← parent p; parent p.

Definition read_marker (resources : Path) : Doing Marker :=
  bs ← read_file (path_push resources "axiom-install.json");
  need (decode_marker bs) "invalid data".

(** The files of a package whose marker is [k] in [resources]. *)
Definition discover_at (executable : Path) (app_image : option Path) : Doing Installation :=
  cli ← canonicalize_path executable;
  resources ← need (grandparent cli) "Unknown installation";
  k ← read_marker resources;
  _ ← ensure ((mk_schema_version k =? 1) && bool_decide (mk_product k ∈ ["desktop"; "cli"]))
        "Unknown installation owner";
  _ ← ensure (supported_format (mk_product k) (mk_format k)
              && eqb (mk_versioned k) (is_versioned (mk_product k) (mk_format k)))
        "Unsupported installation format";
  desktop ← (if decide (mk_product k = "desktop") then
               root ← need (parent resources) "Unknown Desktop installation";
               mret (Some (path_push root "axiom-desktop"))
             else mret None);
  image ← (if decide (mk_format k = "AppImage") then
             p ← need app_image "Run this AppImage through its installed launcher";
             p ← canonicalize_path p; mret (Some p)
           else mret None);
  root ← match image with
         | Some p => mret p
         | None => if decide (mk_product k = "desktop") then need (parent resources) "Missing installation root"
                   else if mk_versioned k then need (grandparent resources) "Invalid versioned installation"
                   else mret resources
         end;
  let cli := if mk_versioned k
             then path_push (path_push (path_push root "current") "bin") "axiomcli"
             else path_push (path_push resources "bin") "axiomcli" in
  mret {| in_product := mk_product k; in_format := mk_format k; in_root := root; in_cli := cli;
          in_desktop := desktop; in_app_image := image |}.

Definition discover : Doing Installation := discover_at current_exe appimage.

(** [to_string_lossy] of a path. *)
Definition cache_id (i : Installation) : string :=
  of_bytes (take 24 (bytes (sha256_hex (bytes (path_display (in_root i)))))).
Definition cache_path (base : Path) (i : Installation) : Path :=
  path_push (path_push (path_push base "axiom") "updates") (cache_id i).

Definition cache (i : Installation) : Doing Path :=
  base ← need user_cache "No user cache directory";
  let directory := cache_path base i in
  _ ← on_fs (fs_create_dir_all directory);
  _ ← on_fs (fs_set_permissions directory 448);
  mret directory.

Definition lock (i : Installation) : Doing Key :=
  directory ← cache i; on_fs (fs_open_or_create (path_push directory "installation.lock")).

(** A shared lock, refused while another process has an exclusive one. *)
Definition try_lock_shared (k : Key) : Doing unit :=
  m ← gets (fun m => mc_held m);
  if bool_decide (k ∈ m) then throw "Resource temporarily unavailable (os error 11)"
  else on_fs (look (fun _ => Ok tt)).

Definition lease : Doing (option Key) :=
  executable ← canonicalize_path current_exe;
  resources ← need (grandparent executable) "Unknown executable directory";
  marked ← try_exists (path_push resources "axiom-install.json");
  if (marked : bool) then
    installation ← discover;
    file ← lock installation;
    _ ← context "An Axiom update is installing; retry when it finishes" (try_lock_shared file);
    mret (Some file)
  else mret None.
End Installation.
