(* ===== verification/Staging.v ===== *)
(** Downloads that wait to be installed (apps/axiomcli/src/updates/staging.rs): the
    lease of a staging directory, its removal, and which directories are pruned. *)

From stdpp Require Import base gmap strings list.
From Stdlib Require Import ZArith NArith Lia ZifyBool ZifyN ZifyNat.
From S2P Require Import Prelude RustStr Json Paths Disk Machine.

Local Open Scope Z_scope.

Definition LOCK : string := "staging.lock".
Definition COMPLETE : string := "completed".
Definition MAX_AGE : Z := 7 * 24 * 60 * 60 * 1000.

Definition pending (name : string) : bool := starts_with "pending-" name.

Definition lock (directory : Path) : Doing Key :=
  kind ← (match file_name directory with
          | Some name => if pending name then on_fs (look (fun w => link_metadata w directory))
                         else throw "Invalid update staging directory"
          | None => throw "Invalid update staging directory"
          end);
  _ ← ensure (is_node_dir kind) "Invalid update staging directory";
  file ← on_fs (fs_open_or_create (path_push directory LOCK));
  _ ← context "Update staging is still in use" (try_lock file);
  mret file.

Definition is_payload (name : string) : bool := negb (bool_decide (name = LOCK)) && negb (bool_decide (name = COMPLETE)).

(** The entries that go first; the last error is kept. [entry.file_type()?] ends the loop, a failed removal does not. *)
Fixpoint remove_payloads (directory : Path) (failure : option string) (names : list string) : Doing (option string) :=
  match names with
  | [] => mret failure
  | name :: names =>
    if is_payload name then
      let p := path_push directory name in
      kind ← on_fs (look (fun w => link_metadata w p));
      r ← attempt (if is_node_dir kind then on_fs (fs_remove_dir_all p) else on_fs (fs_remove_file p));
      remove_payloads directory (match r with Ok _ => failure | Err e => Some e end) names
    else remove_payloads directory failure names
  end.

Definition remove (directory : Path) : Doing unit :=
  names ← read_dir directory;
  failure ← remove_payloads directory None names;
  match failure with
  | Some e => throw e
  | None =>
    complete ← try_exists (path_push directory COMPLETE);
    _ ← (if (complete : bool) then on_fs (fs_remove_file (path_push directory COMPLETE)) else mret tt);
    _ ← on_fs (fs_remove_file (path_push directory LOCK));
    on_fs (fs_remove_dir directory)
  end.

Definition finish (directory : Path) (lease : Key) : Doing unit :=
  guarded lease
    (_ ← ignore (on_fs (fs_create_new (path_push directory COMPLETE)));
     ignore (remove directory)).

Section Prune.
Context `{W : World}.

Definition is_expired (now : Z) (modified : option Z) : bool :=
  match modified with Some t => (t <=? now) && (MAX_AGE <=? now - t) | None => false end.

(** One entry of the cache: [entry.file_type()] and [entry.metadata()] do not follow links. *)
Definition prune_entry (root : Path) (now : Z) (name : string) : Doing unit :=
  let directory := path_push root name in
  if negb (pending name) then mret tt else
  kind ← attempt (on_fs (look (fun w => link_metadata w directory)));
  if negb (match kind with Ok NDir => true | _ => false end) then mret tt else
  age ← attempt (k ← on_fs (look (fun w => entry w directory)); n ← tick; mret (modified n k));
  let expired := is_expired now (match age with Ok t => t | Err _ => None end) in
  complete ← (if expired : bool then mret true else is_file (path_push directory COMPLETE));
  if negb complete then mret tt else
  lease ← attempt (lock directory);
  match lease with Ok lease => finish directory lease | Err _ => mret tt end.

Definition prune_at (root : Path) (now : Z) : Doing unit :=
  entries ← attempt (read_dir root);
  match entries with
  | Ok names => iterM (prune_entry root now) names
  | Err _ => mret tt
  end.

Definition prune (root : Path) : Doing unit := t ← now; prune_at root t.
End Prune.
