(* ===== verification/SelfUpdate.v ===== *)
(** Updating an installed package (apps/axiomcli/src/updates.rs and updates/apply.rs),
    as the Linux build does it: preparing a job from a signed release, checking a job
    that was staged, waiting for other processes, installing, recording the outcome and
    starting the program again. *)

From stdpp Require Import base gmap strings list.
From Stdlib Require Import ZArith NArith Lia ZifyBool ZifyN ZifyNat.
From S2P Require Import Prelude RustStr Json Paths Disk Accounting Lease Release Workspace Machine Download Installation Staging.

Local Open Scope Z_scope.

Inductive Restart : Type := Desktop | Tui (cwd : Path) (resume : option string).
Record Job : Type := {
  jb_installation : Installation; jb_release : Release; jb_artifact : string; jb_restart : Restart
}.
Record Arguments : Type := {
  ar_check : bool; ar_json : bool; ar_prepare : bool; ar_desktop : bool; ar_start_job : option Path;
  ar_apply_job : option Path; ar_parent : option Z; ar_trust_keys : bool; ar_ready_file : bool
}.

(** The texts of jobs and of outcomes. *)
Class JobCodec : Type := {
  decode_job : list N -> option Job;
  encode_job : Job -> list N;
  value_to_vec : Value -> list N;
  value_from_slice : list N -> option Value
}.
(** What is fixed when the program is built. *)
Class Build : Type := { TRUSTED_KEYS : string; CARGO_PKG_VERSION : string; host_arch : string }.

Definition host_platform : string := "linux".
Definition MAX_JOB_BYTES : Z := 256 * 1024.

Section SelfUpdate.
Context `{W : World} `{RC : ReleaseCodec} `{B64 : Base64} `{J : SerdeJson} `{KD : KeyDigest}.
Context `{MC : MarkerCodec} `{JC : JobCodec} `{BU : Build}.

Definition emit (event : Value) (message : string) (machine : bool) : Doing unit :=
  act (if machine then Printed event else Warned message).

(** ** Which file *)

Definition accept_sequence_with_keys (i : Installation) (r : Release) (keys : string) : Doing unit :=
  directory ← cache i; accept_sequence_at directory r keys.

Definition matches_target (file : Artifact) (plat cpu : string) : bool :=
  bool_decide (platform file = plat) && bool_decide (cpu ∈ ["x64"; "arm64"])
  && (bool_decide (arch file = cpu)
      || (bool_decide (plat ∈ ["mac"; "win"]) && bool_decide (arch file = "universal"))).

(** [files.iter().find(..)]. *)
Definition chosen (r : Release) (i : Installation) : option Artifact :=
  let files := if decide (in_product i = "desktop") then downloads r else cli_downloads r in
  head (filter (fun f => matches_target f host_platform host_arch && bool_decide (format f = in_format i) = true)
          files).

Definition select (r : Release) (i : Installation) : Doing Artifact :=
  need (chosen r i) "No update has been published for this installation".

(** [version_parts(&release.version)? > version_parts(env!("CARGO_PKG_VERSION"))?]. *)
Definition newer (r : Release) : result Failure bool :=
  new ← version_parts (version r); current ← version_parts CARGO_PKG_VERSION;
  Ok (negb (parts_le new current)).

(** ** Preparing *)

Definition progress_event (name : string) (machine : bool) (received total : Z) : Doing unit :=
  let message := "Downloading update: " +:+ to_decimal (received * 100 / total) +:+ "%" in
  emit (VObject [("event", VString "progress"); ("message", VString message); ("name", VString name);
                 ("received", VNumber (PosInt received)); ("total", VNumber (PosInt total))]) message machine.

(** The files of a staging directory. *)
Definition stage (directory : Path) (file : Artifact) (job : Job) (machine : bool) : Doing Path :=
  lease ← Staging.lock directory;
  guarded lease
    (_ ← download_verified file (path_push directory (a_name file)) (progress_event (a_name file) machine);
     let helper := path_push directory "update-helper" in
     _ ← on_fs (fs_copy current_exe helper);
     _ ← on_fs (fs_set_permissions helper 448);
     let p := path_push directory "job.json" in
     output ← on_fs (fs_create_new p);
     _ ← on_fs (fs_write_all output (encode_job job));
     _ ← on_fs (fs_sync_all output);
     mret p).

(** [tempfile::Builder::new().prefix("pending-").tempdir_in(root)], removed when it is
    dropped without [keep]. *)
Definition with_tempdir {A} (root : Path) (x : Path -> Doing A) : Doing A :=
  name ← on_fs new_uuid;
  let directory := path_push root ("pending-" +:+ name) in
  _ ← on_fs (fs_create_dir directory);
  on_error (on_fs (fs_remove_dir_all directory)) (x directory).

Definition prepare (i : Installation) (r : Release) (restart : Restart) (machine : bool) : Doing Path :=
  later ← checked (newer r);
  _ ← ensure later "Already up to date";
  file ← select r i;
  root ← cache i;
  _ ← prune root;
  p ← with_tempdir root (fun directory =>
        stage directory file {| jb_installation := i; jb_release := r; jb_artifact := a_name file;
                                jb_restart := restart |} machine);
  let message := "Update verified. Ready to install." in
  _ ← emit (VObject [("event", VString "ready"); ("job", VString (path_display p)); ("message", VString message)])
        message machine;
  mret p.

(** ** Checking a job *)

(** The installation of a job is still the one it was made for. *)
Definition same_installation (i : Installation) : Doing unit :=
  match in_app_image i with
  | Some image =>
    _ ← ensure (absolute image) "Installation changed";
    real ← canonicalize_path image;
    ensure (bool_decide (real = image) && bool_decide (image = in_root i)
            && bool_decide (in_product i = "desktop") && bool_decide (in_format i = "AppImage"))
      "Installation changed"
  | None =>
    found ← discover_at (in_cli i) None;
    ensure (bool_decide (found = i)) "Installation changed"
  end.

Definition restart_ok (j : Job) : bool :=
  match jb_restart j with Desktop => bool_decide (in_product (jb_installation j) = "desktop") | Tui _ _ => true end.

Definition decode_and_place (p : Path) : Doing Job :=
  size ← file_len p;
  _ ← ensure (size <=? MAX_JOB_BYTES) "Invalid update job";
  bs ← read_file p;
  job ← need (decode_job bs) "invalid data";
  _ ← checked (parse_release (encode_release (jb_release job)));
  real ← canonicalize_path p;
  directory ← cache (jb_installation job);
  private ← canonicalize_path directory;
  _ ← ensure (path_starts_with real private) "Update job is outside its private cache";
  mret job.

Definition read_job_with_keys (p : Path) (keys : string) : Doing Job :=
  job ← decode_and_place p;
  _ ← same_installation (jb_installation job);
  _ ← ensure (restart_ok job) "Wrong restart frontend";
  _ ← checked (verify_release (jb_release job) keys);
  _ ← accept_sequence_with_keys (jb_installation job) (jb_release job) keys;
  later ← checked (newer (jb_release job));
  _ ← ensure later "Refusing update downgrade";
  artifact ← select (jb_release job) (jb_installation job);
  _ ← ensure (bool_decide (a_name artifact = jb_artifact job)) "Update target changed";
  directory ← need (parent p) "Invalid update job path";
  _ ← verify_file (path_push directory (jb_artifact job)) artifact;
  mret job.
Definition read_job (p : Path) : Doing Job := read_job_with_keys p TRUSTED_KEYS.

(** ** Handing over to the helper *)

Definition update_command (helper : Path) (args : list string) : Command :=
  {| cm_program := helper; cm_args := "update" :: args; cm_env_remove := []; cm_cwd := None |}.

Definition helper (p : Path) : Doing Path :=
  directory ← need (parent p) "Invalid update job"; mret (path_push directory "update-helper").

Definition spawn (p : Path) (parent : option Z) : Doing unit :=
  _ ← read_job p;
  pid ← need parent "Desktop update requires its parent process";
  let ready := with_file_name p "ready" in
  started ← try_exists ready;
  _ ← ensure (negb started) "Update job already started";
  h ← helper p;
  let command := update_command h ["--apply-job"; path_display p; "--ready-file"; "--parent"; to_decimal pid] in
  _ ← context "Could not start the update installer" (spawn_command command);
  _ ← poll 20000 50 (_ ← act (Killed command); throw "Update helper did not become ready")
        (up ← try_exists ready;
         if (up : bool) then mret true else
         n ← tick;
         _ ← ensure (negb (child_exited n)) "Update helper exited before it was ready";
         mret false);
  act (Printed (VObject [("event", VString "installing")])).

(** [exec]: the program the process becomes. *)
Definition exec (c : Command) : Doing Command :=
  n ← tick; match spawn_error n with Some e => throw e | None => mret c end.

Definition handoff (p : Path) : Doing Command :=
  _ ← read_job p;
  h ← helper p;
  exec (update_command h ["--apply-job"; path_display p]).

(** ** Waiting *)

Definition I32_MAX : Z := 2 ^ 31 - 1.

Definition wait_parent (parent : option Z) : Doing unit :=
  match parent with
  | None => mret tt
  | Some pid =>
    _ ← ensure (negb (pid =? 0) && negb (pid =? process_id)) "Invalid update parent";
    _ ← ensure (pid <=? I32_MAX) "out of range integral type conversion attempted";
    poll 180000 100 (throw "Axiom did not close for the update")
      (n ← tick; mret (negb (alive n pid)))
  end.

Definition exclusive (j : Job) : Doing Key :=
  file ← Installation.lock (jb_installation j);
  _ ← act (Warned "Waiting for other AxiomCLI sessions, Desktop, and proxies to close before installation…");
  _ ← poll 180000 100
        (throw "Other AxiomCLI or proxy sessions are still running. Close them and retry.")
        (r ← attempt (try_lock file); mret (is_ok r));
  mret file.

(** ** Installing *)

Definition install_image (artifact destination : Path) : Doing unit :=
  directory ← need (parent destination) "Invalid AppImage path";
  temporary ← temp_file_in directory;
  or_remove temporary
    (_ ← on_fs (fs_copy artifact temporary);
     _ ← on_fs (fs_set_permissions temporary 493);
     k ← on_fs (look (fun w => entry w temporary));
     _ ← on_fs (fs_sync_all k);
     on_fs (fs_rename temporary destination)).

(** The program that installs a package. *)
Definition installer (i : Installation) (artifact : Path) : Command :=
  let run program args := {| cm_program := path_of_string program; cm_args := args ++ [path_display artifact];
                             cm_env_remove := []; cm_cwd := None |} in
  if decide (in_format i = "sh") then
    {| cm_program := path_of_string "/bin/sh"; cm_args := [path_display artifact; "--prefix"; path_display (in_root i)];
       cm_env_remove := []; cm_cwd := None |}
  else if decide (in_format i = "deb")
  then run "/usr/bin/pkexec" ["/usr/bin/apt-get"; "--yes"; "install"; "--"]
  else run "/usr/bin/pkexec" ["/usr/bin/pacman"; "--noconfirm"; "-U"; "--"].

Definition install (j : Job) (artifact : Path) : Doing unit :=
  let i := jb_installation j in
  if decide (in_format i = "AppImage") then
    destination ← need (in_app_image i) "Missing AppImage path";
    install_image artifact destination
  else if decide (in_format i = "sh") then
    _ ← ensure (bool_decide (in_product i = "cli")) "Wrong installer kind";
    r ← run_command (installer i artifact);
    ensure (fst r) "CLI installer failed"
  else if decide (in_format i ∈ ["deb"; "pacman"]) then
    r ← run_command (installer i artifact);
    ensure (fst r) "Package installation was cancelled or failed"
  else throw "This package cannot be installed automatically".

Definition cli_command (j : Job) (args : list string) : Command :=
  match in_app_image (jb_installation j) with
  | Some image => {| cm_program := image; cm_args := "--axiom-cli" :: args;
                     cm_env_remove := ["APPDIR"; "APPIMAGE"]; cm_cwd := None |}
  | None => {| cm_program := in_cli (jb_installation j); cm_args := args; cm_env_remove := []; cm_cwd := None |}
  end.

(** [String::from_utf8_lossy(..).trim() == "axiomcli <version>"]: a replacement character
    is neither in a version nor trimmed. *)
Definition says (output : list N) (v : string) : bool :=
  match from_utf8 output with Some s => bool_decide (trim s = "axiomcli " +:+ v) | None => false end.

(** What happens under the lock of the installation. *)
Definition install_locked (p : Path) (keys : string) : Doing unit :=
  job ← read_job_with_keys p keys;
  directory ← need (parent p) "Missing update directory";
  let artifact := path_push directory (jb_artifact job) in
  current ← run_command (cli_command job ["--version"]);
  _ ← ensure (fst current) "The installed CLI could not start";
  _ ← (if says (snd current) (version (jb_release job)) then mret tt else
       _ ← ensure (says (snd current) CARGO_PKG_VERSION)
             "The installation changed while waiting; check for updates again";
       install job artifact);
  output ← run_command (cli_command job ["--version"]);
  ensure (fst output && says (snd output) (version (jb_release job)))
    "Installed version did not pass its startup check".

Definition install_staged (p : Path) (keys : string) : Doing unit :=
  job ← read_job_with_keys p keys;
  guard ← exclusive job;
  guarded guard (install_locked p keys).

(** ** The outcome *)

Definition restart_arguments (r : Restart) : list string :=
  match r with
  | Desktop => []
  | Tui cwd resume => ["tui"; "--cwd"; path_display cwd]
                      ++ match resume with Some id => ["--resume"; id] | None => [] end
  end.

Definition outcome_value (j : Job) (r : result string unit) : Value :=
  VObject [("error", match r with Ok _ => VNull | Err e => VString e end);
           ("restartArguments", VArray (VString <$> restart_arguments (jb_restart j)));
           ("success", VBool (is_ok r)); ("version", VString (version (jb_release j)))].

Definition record_outcome (j : Job) (r : result string unit) : Doing unit :=
  directory ← cache (jb_installation j);
  write_and_persist directory (value_to_vec (outcome_value j r)) (path_push directory "last-update.json").

(** What the outcome file says of the last update; errors are [None]. *)
Definition MAX_OUTCOME_BYTES : Z := 16 * 1024.
Definition outcome_error (bs : list N) : option string :=
  if MAX_OUTCOME_BYTES <? Z.of_nat (length bs) then None else
  v ← value_from_slice bs;
  match v with
  | VObject members =>
    match map_get "success" members with
    | Some (VBool false) => match map_get "error" members with Some (VString e) => Some e | _ => None end
    | _ => None
    end
  | _ => None
  end.
Definition last_error (i : Installation) : Doing (option string) :=
  r ← attempt (directory ← cache i; read_file (path_push directory "last-update.json"));
  mret match r with Ok bs => outcome_error bs | Err _ => None end.

(** ** Starting again *)

Definition relaunch (j : Job) : Doing (option Command) :=
  match jb_restart j with
  | Desktop =>
    program ← match in_app_image (jb_installation j) with
              | Some image => mret image
              | None => need (in_desktop (jb_installation j)) "Not a Desktop installation"
              end;
    _ ← spawn_command {| cm_program := program; cm_args := []; cm_env_remove := ["APPDIR"; "APPIMAGE"];
                         cm_cwd := None |};
    mret None
  | Tui cwd _ =>
    let c := cli_command j (restart_arguments (jb_restart j)) in
    c ← exec {| cm_program := cm_program c; cm_args := cm_args c; cm_env_remove := cm_env_remove c;
                cm_cwd := Some cwd |};
    mret (Some c)
  end.

Definition run (p : Path) (parent_pid : option Z) (ready_file : bool) : Doing (option Command) :=
  job ← read_job p;
  directory ← need (parent p) "Invalid update job";
  lease ← Staging.lock directory;
  _ ← on_error (unlock lease)
        (if ready_file then
           ready ← on_fs (fs_create_new (with_file_name p "ready")); on_fs (fs_sync_all ready)
         else mret tt);
  result ← attempt (_ ← wait_parent parent_pid; install_staged p TRUSTED_KEYS);
  recorded ← attempt (record_outcome job result);
  _ ← finish directory lease;
  _ ← lift recorded;
  _ ← match result with Err e => act (Warned ("Axiom update failed: " +:+ e)) | Ok _ => mret tt end;
  again ← attempt (relaunch job);
  match again with
  | Ok (Some c) => mret (Some c)
  | Ok None => _ ← lift result; mret None
  | Err _ =>
    _ ← record_outcome job (Err "Axiom could not restart");
    throw "Axiom could not restart"
  end.

(** ** The command *)

Definition option_path (o : option Path) : Value :=
  match o with Some p => VString (path_display p) | None => VNull end.
Definition installation_value (i : Installation) : Value :=
  VObject [("appImage", option_path (in_app_image i)); ("cli", VString (path_display (in_cli i)));
           ("desktop", option_path (in_desktop i)); ("format", VString (in_format i));
           ("product", VString (in_product i)); ("root", VString (path_display (in_root i)))].
Definition option_text (o : option string) : Value := match o with Some s => VString s | None => VNull end.

Definition modes (a : Arguments) : list bool :=
  [ar_check a; ar_prepare a; bool_decide (is_Some (ar_start_job a)); bool_decide (is_Some (ar_apply_job a));
   ar_trust_keys a].

Definition check_for_update (machine : bool) : Doing (Installation * Release * bool) :=
  i ← context "Use an installed Axiom package to update; source builds must be rebuilt" discover;
  root ← cache i;
  _ ← prune root;
  r ← latest_release TRUSTED_KEYS;
  _ ← accept_sequence_with_keys i r TRUSTED_KEYS;
  later ← checked (newer r);
  e ← last_error i;
  let message := if (later : bool) then "Axiom " +:+ version r +:+ " is available." else "Axiom is up to date." in
  _ ← emit (VObject [("available", VBool later); ("event", VString "checked");
                     ("installation", installation_value i); ("lastError", option_text e);
                     ("message", VString message); ("release", release_value r)]) message machine;
  mret (i, r, later).

Definition command (a : Arguments) (cwd : result string Path) : Doing (option Command) :=
  _ ← ensure (length (List.filter id (modes a)) <=? 1)%nat "Choose one update operation";
  _ ← ensure (bool_decide (ar_parent a = None) || bool_decide (is_Some (ar_start_job a))
              || bool_decide (is_Some (ar_apply_job a))) "Invalid parent option";
  _ ← ensure (negb (ar_desktop a) || ar_prepare a) "Desktop requires prepare mode";
  if ar_trust_keys a then _ ← act (PrintedText TRUSTED_KEYS); mret None else
  match ar_apply_job a, ar_start_job a with
  | Some p, _ => run p (ar_parent a) (ar_ready_file a)
  | None, Some p => _ ← spawn p (ar_parent a); mret None
  | None, None =>
    x ← check_for_update (ar_json a);
    let '(i, r, later) := x in
    if ar_check a || negb later then mret None else
    restart ← (if ar_desktop a then mret Desktop else d ← lift cwd; mret (Tui d None));
    p ← prepare i r restart (ar_json a);
    if ar_prepare a then mret None else c ← handoff p; mret (Some c)
  end.

Definition run_with_resume (cwd : Path) (resume : string) : Doing (option Command) :=
  i ← discover;
  r ← latest_release TRUSTED_KEYS;
  _ ← accept_sequence_with_keys i r TRUSTED_KEYS;
  later ← checked (newer r);
  if negb later then _ ← act (Warned "Axiom is up to date."); mret None else
  p ← prepare i r (Tui cwd (Some resume)) false;
  c ← handoff p; mret (Some c).

Definition startup_notice : Doing (option string) :=
  found ← attempt discover;
  match found with
  | Err _ => mret None
  | Ok i =>
    root ← cache i;
    _ ← prune root;
    e ← last_error i;
    match e with
    | Some e => mret (Some ("Previous update failed: " +:+ e +:+ ". Use /update to retry."))
    | None =>
      r ← latest_release TRUSTED_KEYS;
      _ ← accept_sequence_with_keys i r TRUSTED_KEYS;
      later ← checked (newer r);
      mret (if (later : bool)
            then Some ("Axiom " +:+ version r +:+ " is available. Use /update to install and restart.") else None)
    end
  end.
End SelfUpdate.
