(* ===== verification/SelfUpdateProofs.v ===== *)
(** What the calls of an update leave alone (checking a job runs no program, takes no
    lock and lets other processes act only as they would), the files an update writes, call
    by call, when only this process changes the disk, and a machine with an installed
    terminal client and a staged update to 1.2.3, on which the theorems are evaluated. *)

From stdpp Require Import base gmap strings list.
From Stdlib Require Import ZArith NArith Lia ZifyBool ZifyN ZifyNat.
From S2P Require Import Prelude RustStr Json Paths Disk Accounting Lease Release Workspace WorkspaceEdits Machine Download Installation Staging SelfUpdate.

Local Open Scope Z_scope.

(** ** Calls that act on nothing but the disk *)

Record passes (m m' : Machine) : Prop := {
  ps_acts : mc_acts m' = mc_acts m;
  ps_held : mc_held m' = mc_held m;
  ps_cwd : fs_cwd (mc_fs m') = fs_cwd (mc_fs m);
  ps_agenda : fs_agenda (mc_fs m') ⊆ fs_agenda (mc_fs m)
}.

#[export] Instance passes_preorder : PreOrder passes.
Proof. split; [by constructor|]. intros a b c [] []. constructor; [congruence..|]. by etransitivity. Qed.

Definition inner {A} (x : Doing A) : Prop := forall m, passes m (x m).1.

(** The same for the file system alone. *)
Definition fs_inner {A} (x : M Fs string A) : Prop :=
  forall w, fs_cwd (x w).1 = fs_cwd w /\ fs_agenda (x w).1 ⊆ fs_agenda w.

Lemma next_event_inner w : fs_cwd (next_event w).1 = fs_cwd w /\ fs_agenda (next_event w).1 ⊆ fs_agenda w.
Proof. unfold next_event. destruct (fs_agenda w) eqn:E; cbn; [by rewrite E|]. set_solver. Qed.

Lemma call_inner {A} (f : Fs -> result string (Disk * A)) : fs_inner (call f).
Proof.
  intros w. unfold call. pose proof (next_event_inner w) as H. destruct (next_event w) as [w1 e]. cbn in H.
  destruct e as [[c mv [s|] n]|]; [done|..]; by destruct (f w1) as [[d a]|s].
Qed.

Lemma fs_inner_ret {A} (a : A) : fs_inner (mret a).
Proof. done. Qed.
Lemma fs_inner_lift {A} (r : result string A) : fs_inner (lift r).
Proof. done. Qed.
Lemma fs_inner_bind {A B} (x : M Fs string A) (f : A -> M Fs string B) :
  fs_inner x -> (forall a, fs_inner (f a)) -> fs_inner (x ≫= f).
Proof.
  intros Hx Hf w. rewrite M_bind_run. specialize (Hx w). destruct (x w) as [w1 [a|e]]; [|done].
  destruct (Hf a w1) as [H1 H2], Hx as [H3 H4]. cbn in *. split; [congruence|]. by etransitivity.
Qed.
Lemma fs_inner_disk (f : Fs -> Disk) : fs_inner (modify (fun w => with_disk w (f w))).
Proof. done. Qed.
Lemma fs_inner_write k data : fs_inner (fs_write_all k data).
Proof.
  intros w. unfold fs_write_all. pose proof (next_event_inner w) as H. destruct (next_event w) as [w1 e].
  by destruct e as [[c mv [s|] n]|].
Qed.
Lemma fs_inner_uuid : fs_inner new_uuid.
Proof. done. Qed.
Lemma fs_inner_open p : fs_inner (fs_open_or_create p).
Proof. apply call_inner. Qed.
Lemma fs_inner_look {A} (f : Fs -> result string A) : fs_inner (look f).
Proof. apply call_inner. Qed.
Lemma fs_inner_dirs p : fs_inner (fs_create_dir_all p).
Proof. apply call_inner. Qed.
Lemma fs_inner_permissions p mode : fs_inner (fs_set_permissions p mode).
Proof. apply call_inner. Qed.

Create HintDb machine discriminated.
#[export] Hint Resolve fs_inner_ret fs_inner_lift fs_inner_bind fs_inner_disk fs_inner_write fs_inner_uuid
  fs_inner_open fs_inner_look fs_inner_dirs fs_inner_permissions : machine.

Lemma inner_fs {A} (x : M Fs string A) : fs_inner x -> inner (on_fs x).
Proof. intros H m. unfold on_fs. destruct (H (mc_fs m)). destruct (x (mc_fs m)) as [w r]. by constructor. Qed.
Lemma inner_ret {A} (a : A) : inner (mret a).
Proof. intros m. reflexivity. Qed.
Lemma inner_throw {A} e : inner (throw (A := A) e).
Proof. intros m. reflexivity. Qed.
Lemma inner_lift {A} (r : result string A) : inner (lift r).
Proof. intros m. reflexivity. Qed.
Lemma inner_ensure b e : inner (ensure b e).
Proof. intros m. by destruct b. Qed.
Lemma inner_need {A} (o : option A) e : inner (need o e).
Proof. intros m. reflexivity. Qed.
Lemma inner_bind {A B} (x : Doing A) (f : A -> Doing B) : inner x -> (forall a, inner (f a)) -> inner (x ≫= f).
Proof.
  intros Hx Hf m. rewrite M_bind_run. specialize (Hx m). destruct (x m) as [m1 [a|e]]; [|done].
  etransitivity; [done|apply Hf].
Qed.
Lemma inner_attempt {A} (x : Doing A) : inner x -> inner (attempt x).
Proof. intros H m. unfold attempt. specialize (H m). by destruct (x m). Qed.
Lemma inner_checked {A} (r : result Failure A) : inner (checked r).
Proof. intros m. reflexivity. Qed.
#[export] Hint Resolve inner_fs inner_ret inner_throw inner_lift inner_ensure inner_need inner_bind
  inner_attempt inner_checked : machine.

(** Follows the calls of a function. *)
Ltac inner_tac :=
  repeat first
    [ progress eauto 2 with machine
    | apply inner_bind; [|intros ?]
    | apply inner_fs
    | match goal with |- inner (match ?x with _ => _ end) => destruct x
                    | |- inner (if ?b then _ else _) => destruct b
                    | |- inner (let '(_, _) := ?x in _) => destruct x end ].

Section Reading.
Context `{W : World} `{RC : ReleaseCodec} `{B64 : Base64} `{J : SerdeJson} `{KD : KeyDigest}.
Context `{MC : MarkerCodec} `{JC : JobCodec} `{BU : Build}.

Lemma inner_cache i : inner (cache i).
Proof. unfold cache. inner_tac. Qed.
Lemma inner_discover_at p image : inner (discover_at p image).
Proof. unfold discover_at, canonicalize_path, read_marker, read_file. inner_tac. Qed.

Lemma inner_accept directory r keys : inner (accept_sequence_at directory r keys).
Proof.
  intros m. unfold accept_sequence_at. destruct (next_event_inner (mc_fs m)) as [Hc Ha].
  destruct (next_event (mc_fs m)) as [w e].
  destruct (entry w _); [destruct (followed w _) as [[]|]|]; try by constructor.
  all: destruct (accept_sequence _ _ _ _); by constructor.
Qed.
Lemma inner_open_file p : inner (open_file p).
Proof. unfold open_file. inner_tac. Qed.
Lemma inner_verify_file p file : inner (verify_file p file).
Proof. pose proof inner_open_file. unfold verify_file. inner_tac. Qed.
Lemma inner_select r i : inner (select r i).
Proof. unfold select. inner_tac. Qed.

#[local] Hint Resolve inner_cache inner_discover_at inner_accept inner_verify_file inner_select : machine.

Lemma inner_same_installation i : inner (same_installation i).
Proof. unfold same_installation, canonicalize_path. inner_tac. Qed.
Lemma inner_decode_and_place p : inner (decode_and_place p).
Proof. unfold decode_and_place, file_len, read_file, canonicalize_path. inner_tac. Qed.
#[local] Hint Resolve inner_same_installation inner_decode_and_place : machine.

Lemma inner_read_job p keys : inner (read_job_with_keys p keys).
Proof. unfold read_job_with_keys, accept_sequence_with_keys. inner_tac. Qed.

(** ** What a checked job is *)

Record checked_job (keys : string) (p : Path) (j : Job) (file : Artifact) (dir : Path) : Prop := {
  cj_signed : verify_release (jb_release j) keys = Ok tt;
  cj_newer : newer (jb_release j) = Ok true;
  cj_file : chosen (jb_release j) (jb_installation j) = Some file;
  cj_name : a_name file = jb_artifact j;
  cj_dir : parent p = Some dir;
  cj_restart : restart_ok j = true
}.

Lemma checked_Ok {A} (r : result Failure A) m m' a : checked r m = (m', Ok a) -> r = Ok a /\ m' = m.
Proof. destruct r; [by intros [= <- <-]|done]. Qed.

Lemma read_job_Ok p keys m m' j :
  read_job_with_keys p keys m = (m', Ok j) ->
  exists file dir, checked_job keys p j file dir /\ exact_at (mc_fs m') (path_push dir (jb_artifact j)) file.
Proof.
  unfold read_job_with_keys. intros (m1 & job & _ & H)%M_bind_Ok.
  apply M_bind_Ok in H as (m2 & [] & _ & H).
  apply M_bind_Ok in H as (m3 & [] & [Hr ->]%ensure_Ok & H).
  apply M_bind_Ok in H as (m4 & [] & [Hv ->]%checked_Ok & H).
  apply M_bind_Ok in H as (m5 & [] & _ & H).
  apply M_bind_Ok in H as (m6 & later & [Hn ->]%checked_Ok & H).
  apply M_bind_Ok in H as (m7 & [] & [-> ->]%ensure_Ok & H).
  apply M_bind_Ok in H as (m8 & file & Hc & H). injection Hc as <- Hc. apply ok_or_Ok in Hc.
  apply M_bind_Ok in H as (m9 & [] & [Ha ->]%ensure_Ok & H). apply bool_decide_eq_true in Ha.
  apply M_bind_Ok in H as (m10 & dir & Hd & H). injection Hd as <- Hd. apply ok_or_Ok in Hd.
  apply M_bind_Ok in H as (m11 & [] & Hf & H). injection H as <- <-. apply verify_file_Ok in Hf.
  by exists file, dir.
Qed.

(** ** Programs that are run *)

(** [m'] is later than [m], with acts that satisfy [P]. *)
Record acted (P : Act -> Prop) (m m' : Machine) : Prop := {
  ad_acts : exists l, mc_acts m' = mc_acts m ++ l /\ Forall P l;
  ad_held : mc_held m' = mc_held m;
  ad_cwd : fs_cwd (mc_fs m') = fs_cwd (mc_fs m);
  ad_agenda : fs_agenda (mc_fs m') ⊆ fs_agenda (mc_fs m)
}.

Lemma acted_passes P m m' : passes m m' -> acted P m m'.
Proof. intros []. constructor; try done. exists []. by rewrite app_nil_r. Qed.

Lemma acted_trans P a b c : acted P a b -> acted P b c -> acted P a c.
Proof.
  intros [(l & Hl & Fl) ? ? ?] [(k & Hk & Fk) ? ? ?]. constructor; [|congruence|congruence|by etransitivity].
  exists (l ++ k). rewrite Hk, Hl, <- app_assoc. split; [done|]. by apply Forall_app.
Qed.

Lemma run_command_cases c m m' r :
  run_command c m = (m', r) ->
  let w := (next_event (mc_fs m)).1 in
  (is_err r /\ passes m m') \/
  (acted (fun a => a = Ran c (fs_disk w) (mc_held m)) m m' /\
   exists n, run_program n c (fs_disk w) = (fs_disk (mc_fs m'), r)).
Proof.
  unfold run_command. destruct (on_fs (look (fun _ => Ok tt)) m) as [m1 r1] eqn:E. intros H.
  assert (Hi : passes m m1) by (pose proof (inner_fs _ (fs_inner_look (fun _ => Ok tt)) m) as Hi; by rewrite E in Hi).
  destruct r1 as [u|e]; [right|left; injection H as <- <-; by split].
  assert (Hd : fs_disk (mc_fs m1) = fs_disk (next_event (mc_fs m)).1).
  { unfold on_fs, look, call in E. destruct (next_event (mc_fs m)) as [w [[c' mv [s|] n]|]]; cbn in E; by simplify_eq. }
  rewrite <- Hd. cbn in H. destruct (run_program (mc_ticks m1) c (fs_disk (mc_fs m1))) as [d r'] eqn:Hr.
  injection H as <- <-. destruct Hi as [Ha Hh Hc Hg]. split; [|by exists (mc_ticks m1)].
  constructor; cbn; try done. exists [Ran c (fs_disk (mc_fs m1)) (mc_held m1)]. rewrite Ha, Hh. split; [done|].
  by apply Forall_singleton.
Qed.

(** Nobody else changes the file at [q]: no other process, and not the installed program
    when it is asked for its version. *)
Record untouched (w : Fs) (q : Path) : Prop := {
  un_others : forall e d, e ∈ fs_agenda w -> followed (with_disk w (ev_change e d)) q = followed (with_disk w d) q;
  un_version : forall n j d, followed (with_disk w (run_program n (cli_command j ["--version"]) d).1) q
                             = followed (with_disk w d) q
}.

Lemma followed_disk w w' q :
  fs_disk w = fs_disk w' -> fs_cwd w = fs_cwd w' -> followed w q = followed w' q.
Proof. intros Hd Hc. unfold followed, resolve, start. by rewrite Hd, Hc. Qed.

Lemma untouched_later w w' q :
  fs_cwd w' = fs_cwd w -> fs_agenda w' ⊆ fs_agenda w -> untouched w q -> untouched w' q.
Proof.
  intros Hc Ha [H1 H2].
  assert (Hf : forall d, followed (with_disk w' d) q = followed (with_disk w d) q) by (intros d; by apply followed_disk).
  constructor; intros; rewrite !Hf; auto.
Qed.

Lemma untouched_next w q file :
  untouched w q -> exact_at w q file -> exact_at (next_event w).1 q file.
Proof.
  intros [H _] (data & mode & Hq & Hx). exists data, mode. split; [|done]. rewrite <- Hq.
  assert (Hn : fs_agenda w = [] /\ (next_event w).1 = w \/
    exists e, e ∈ fs_agenda w /\ fs_disk (next_event w).1 = ev_change e (fs_disk w)).
  { unfold next_event. destruct (fs_agenda w) as [|e l]; [by left|right]. exists e. split; [left|done]. }
  destruct Hn as [[_ ->]|(e & He & Hd)]; [done|].
  rewrite <- (followed_disk (with_disk w (fs_disk w)) w), <- (H e) by done. apply followed_disk; [done|].
  exact (proj1 (next_event_inner w)).
Qed.

Lemma inner_install_image artifact dst : inner (install_image artifact dst).
Proof.
  unfold install_image, temp_file_in, or_remove. apply inner_bind; [inner_tac|intros dir].
  assert (Hc : forall p, fs_inner (fs_create_new p)) by (intros p; apply call_inner).
  apply inner_bind; [inner_tac|intros tmp].
  assert (He : forall (x : Doing unit) c, inner x -> inner c -> inner (on_error c x)).
  { intros x c Hx Hcl m. unfold on_error. specialize (Hx m). destruct (x m) as [m1 [a|e]]; [done|].
    specialize (Hcl m1). destruct (c m1). cbn in *. by etransitivity. }
  apply He; [|apply inner_fs, call_inner].
  assert (Hcopy : fs_inner (fs_copy artifact tmp)).
  { unfold fs_copy. repeat (apply fs_inner_bind; [eauto 2 with machine|intros ?]). apply fs_inner_disk. }
  repeat (apply inner_bind; [eauto 3 with machine|intros ?]).
  all: apply inner_fs, call_inner.
Qed.
End Reading.

(** * What each operation does to files *)

(** ** Triples of calls *)

Definition steady (I : Fs -> Prop) : Prop :=
  (forall w, I w -> quiet w) /\ forall w w', I w -> same w w' -> I w'.

Lemma triple_call {A} (I : Fs -> Prop) (f : Fs -> result string (Disk * A)) Post Bad :
  steady I -> (forall w d a, I w -> f w = Ok (d, a) -> Post a (with_disk w d)) ->
  (forall w e, I w -> Bad e w) -> triple I (call f) Post Bad.
Proof.
  intros [Hq Hs] Hok Hbad w Hw. destruct (call f w) as [w' r] eqn:E.
  apply call_cases in E as (w1 & Hw1 & [(e & -> & ->)|(d & a & Hf & -> & ->)]); [| |by apply Hq].
  - by apply Hbad, (Hs w).
  - apply Hok; [by apply (Hs w)|done].
Qed.

Lemma triple_look {A} (I : Fs -> Prop) (f : Fs -> result string A) Post Bad :
  steady I -> (forall w a, I w -> f w = Ok a -> Post a w) -> (forall w e, I w -> Bad e w) ->
  triple I (look f) Post Bad.
Proof.
  intros HI Hok Hbad. apply triple_call; [done| |done]. intros w d a Hw H.
  apply bind_Ok in H as (a' & Ha & H). injection H as <- <-.
  replace (with_disk w (fs_disk w)) with w by (by destruct w). by apply Hok.
Qed.

Lemma triple_write (I : Fs -> Prop) k data Post Bad :
  steady I -> (forall w, I w -> Post tt (with_disk w (append_to k data (fs_disk w)))) ->
  (forall w part e, I w -> Bad e (with_disk w (append_to k part (fs_disk w)))) ->
  triple I (fs_write_all k data) Post Bad.
Proof.
  intros [Hq Hs] Hok Hbad w Hw. unfold fs_write_all. destruct (next_event w) as [w1 o] eqn:E.
  apply next_event_quiet in E; [|by apply Hq]. pose proof (Hs _ _ Hw E).
  destruct o as [[c mv [e|] n]|]; auto.
Qed.

Lemma triple_on_fs {A} (I : Fs -> Prop) (x : M Fs string A) Post Bad :
  triple I x Post Bad ->
  triple (fun m => I (mc_fs m)) (on_fs x) (fun a m => Post a (mc_fs m)) (fun e m => Bad e (mc_fs m)).
Proof. intros H m Hm. unfold on_fs. specialize (H _ Hm). by destruct (x (mc_fs m)) as [w [a|e]]. Qed.

Lemma triple_fs_bind {A B} (I : Fs -> Prop) (x : M Fs string A) (f : A -> Doing B) (Mid : A -> Fs -> Prop) Post Bad :
  triple I x Mid (fun _ => Bad) ->
  (forall a, triple (fun m => Mid a (mc_fs m)) (f a) Post (fun _ m => Bad (mc_fs m))) ->
  triple (fun m => I (mc_fs m)) (on_fs x ≫= f) Post (fun _ m => Bad (mc_fs m)).
Proof.
  intros Hx Hf. eapply (triple_bind _ _ _ (fun a m => Mid a (mc_fs m))); [|done].
  exact (triple_on_fs I x Mid (fun _ => Bad) Hx).
Qed.

Lemma triple_on_error {A} (I : Machine -> Prop) cleanup (x : Doing A) Post Mid Bad :
  triple I x Post (fun _ => Mid) -> (forall m e, Mid m -> Bad e (cleanup m).1) ->
  triple I (on_error cleanup x) Post Bad.
Proof.
  intros H Hc m Hm. unfold on_error. specialize (H m Hm). destruct (x m) as [m1 [a|e]]; [done|].
  specialize (Hc m1 e H). by destruct (cleanup m1).
Qed.

(** ** A new file beside the files there are *)

Lemma settled_insert d k tk n :
  Disk.settled d k -> d !! tk = None -> tk <> k -> Disk.settled (<[tk := n]> d) k.
Proof.
  intros Hs Ht Hne.
  assert (Hc : forall k0, chain d k0 -> chain (<[tk := n]> d) k0).
  { intros k0. apply chain_mono. intros k' Hk'. rewrite lookup_insert_ne; [done|]. congruence. }
  destruct Hs as [H|(dir & s & x & -> & H & Hx & Hd & Hl)]; [left; auto|right].
  exists dir, s, x. split_and!; auto. by rewrite lookup_insert_ne.
Qed.

Section Temporary.
Variables (w0 : Fs) (dk : Key) (t : string).
#[local] Abbreviation tk := (dk ++ [t]).
Hypothesis Hquiet : quiet w0.
Hypothesis Hdir : chain (fs_disk w0) dk.
Hypothesis Hnew : fs_disk w0 !! tk = None.

(** The disk of [w0] and a temporary file. *)
Definition with_temp (P : list N -> Z -> Prop) (w : Fs) : Prop :=
  exists data mode, P data mode /\ same (with_disk w0 (<[tk := NFile data mode]> (fs_disk w0))) w.
Definition some_temp : Fs -> Prop := with_temp (fun _ _ => True).

Lemma with_temp_steady P : steady (with_temp P).
Proof.
  split.
  - intros w (data & mode & _ & Hs). by apply Hs.
  - intros w w' (data & mode & HP & Hs) H. exists data, mode. split; [done|]. by eapply same_trans.
Qed.

Lemma with_temp_some P w : with_temp P w -> some_temp w.
Proof. intros (data & mode & _ & H). by exists data, mode. Qed.

Lemma with_temp_disk P w : with_temp P w -> exists data mode, P data mode /\ fs_disk w = <[tk := NFile data mode]> (fs_disk w0).
Proof. intros (data & mode & HP & H). exists data, mode. split; [done|]. apply H. Qed.

Lemma chain_temp n : chain (<[tk := n]> (fs_disk w0)) dk.
Proof. eapply chain_mono; [|exact Hdir]. intros k' Hk'. rewrite lookup_insert_ne; [done|]. congruence. Qed.

Lemma entry_temp w s : some_temp w -> entry w (of_key (dk ++ [s])) = Ok (dk ++ [s]).
Proof. intros (data & mode & _ & Hd)%with_temp_disk. apply entry_of_key. rewrite Hd. apply chain_temp. Qed.

Lemma node_temp P w : with_temp P w -> exists data mode, P data mode /\ node (fs_disk w) tk = Some (NFile data mode).
Proof.
  intros (data & mode & HP & Hd)%with_temp_disk. exists data, mode. split; [done|].
  by rewrite node_snoc, Hd, lookup_insert_eq.
Qed.

(** The temporary file is changed. *)
Lemma with_temp_change P Q w d :
  with_temp P w ->
  (forall data mode, P data mode -> fs_disk w = <[tk := NFile data mode]> (fs_disk w0) ->
     exists data' mode', Q data' mode' /\ d = <[tk := NFile data' mode']> (fs_disk w)) ->
  with_temp Q (with_disk w d).
Proof.
  intros (data & mode & HP & Hs) H. pose proof (same_disk _ _ Hs) as Hd. cbn in Hd.
  destruct (H data mode HP Hd) as (data' & mode' & HQ & ->). exists data', mode'. split; [done|].
  destruct Hs. constructor; cbn in *; try done. by rewrite same_disk, insert_insert_eq.
Qed.

Lemma open_temp P : triple (with_temp P) (fs_open_or_create (of_key tk))
  (fun k w => k = tk /\ with_temp P w) (fun _ => some_temp).
Proof.
  apply triple_call; [apply with_temp_steady| |intros w e; apply with_temp_some].
  intros w d k Hw H. apply bind_Ok in H as (k' & Hk & H).
  cbn [open_entry MAX_LINKS] in Hk. rewrite (entry_temp w t (with_temp_some _ _ Hw)) in Hk. cbn in Hk.
  destruct (node_temp _ _ Hw) as (data & mode & HP & Hn). rewrite Hn in Hk. injection Hk as <-.
  rewrite Hn in H. injection H as <- <-. split; [done|].
  replace (with_disk w (fs_disk w)) with w by (by destruct w). done.
Qed.

Lemma truncate_temp P w : with_temp P w -> with_temp (fun data _ => data = []) (with_disk w (truncate_at tk (fs_disk w))).
Proof.
  intros Hw. eapply with_temp_change; [done|]. intros data mode _ Hd. unfold truncate_at.
  rewrite Hd, lookup_insert_eq. by eexists _, _.
Qed.

Lemma append_temp P part w :
  with_temp (fun data _ => P data) w ->
  with_temp (fun data _ => exists before, P before /\ data = before ++ part) (with_disk w (append_to tk part (fs_disk w))).
Proof.
  intros Hw. eapply with_temp_change; [done|]. intros data mode HP Hd. unfold append_to.
  rewrite Hd, lookup_insert_eq. eexists _, _. split; [|done]. by exists data.
Qed.

Lemma write_temp content : triple (with_temp (fun data _ => data = [])) (fs_write_all tk content)
  (fun _ => with_temp (fun data _ => data = content)) (fun _ => some_temp).
Proof.
  apply triple_write; [apply with_temp_steady| |].
  - intros w Hw. apply (append_temp (fun data => data = []) content) in Hw as (data & mode & (b & -> & ->) & Hs).
    by exists content, mode.
  - intros w part e Hw. by apply (append_temp (fun data => data = []) part), with_temp_some in Hw.
Qed.

Lemma followed_temp k n w :
  Disk.settled (fs_disk w0) k -> k <> tk -> node (fs_disk w0) k = Some n -> some_temp w ->
  followed w (of_key k) = Ok n.
Proof.
  intros Hk Hne Hn (data & mode & _ & Hd)%with_temp_disk. unfold followed.
  rewrite resolve_of_key by (rewrite Hd; by apply settled_insert). cbn.
  assert (E : node (fs_disk w) k = Some n); [|by rewrite E].
  rewrite Hd. destruct k; [done|]. cbn in *. by rewrite lookup_insert_ne.
Qed.

Lemma copy_temp k content mode :
  Disk.settled (fs_disk w0) k -> k <> tk -> node (fs_disk w0) k = Some (NFile content mode) ->
  triple some_temp (fs_copy (of_key k) (of_key tk))
    (fun _ => with_temp (fun data _ => data = content)) (fun _ => some_temp).
Proof.
  intros Hk Hne Hn. unfold fs_copy.
  eapply (triple_bind _ _ _ (fun n w => n = NFile content mode /\ some_temp w)).
  { apply triple_look; [apply with_temp_steady| |done]. intros w a Hw H.
    rewrite (followed_temp k (NFile content mode)) in H by done. by injection H as <-. }
  intros n w [-> Hw]. revert w Hw. cbn [file_data]. change (triple some_temp
    (data ← lift (Ok content); k ← fs_open_or_create (of_key tk);
     _ ← modify (fun w => with_disk w (truncate_at k (fs_disk w))); _ ← fs_write_all k data;
     modify (fun w => with_disk w (match fs_disk w !! k, NFile content mode with
                                | Some (NFile data _), NFile _ mode => <[k := NFile data mode]> (fs_disk w)
                                | _, _ => fs_disk w end)))
    (fun _ => with_temp (fun data _ => data = content)) (fun _ => some_temp)).
  eapply (triple_bind _ _ _ (fun d w => d = content /\ some_temp w)); [by apply triple_lift|].
  intros d w [-> Hw]. revert w Hw.
  eapply (triple_bind some_temp _ _ (fun k' w => k' = tk /\ some_temp w)); [apply open_temp|].
  intros k' w [-> Hw]. revert w Hw.
  eapply (triple_bind some_temp _ _ (fun _ => with_temp (fun data _ => data = []))).
  { apply triple_modify. intros w. apply truncate_temp. }
  intros []. eapply triple_bind; [apply write_temp|]. intros []. apply triple_modify. intros w Hw.
  eapply with_temp_change; [done|]. intros data m -> Hd. rewrite Hd, lookup_insert_eq. by eexists _, _.
Qed.

Lemma permissions_temp P mode : triple (with_temp (fun data _ => P data)) (fs_set_permissions (of_key tk) mode)
  (fun _ => with_temp (fun data m => P data /\ m = mode)) (fun _ => some_temp).
Proof.
  apply triple_call; [apply with_temp_steady| |intros w e; apply with_temp_some].
  intros w d u Hw H. apply bind_Ok in H as (k & Hk & H).
  destruct (node_temp _ _ Hw) as (data & m & HP & Hn).
  rewrite resolve_of_key in Hk.
  2: { right. exists dk, t, (NFile data m). split_and!; [done| |by rewrite <- node_snoc|done|done].
       destruct (with_temp_disk _ _ Hw) as (? & ? & _ & ->). apply chain_temp. }
  injection Hk as <-. injection H as <- _. eapply with_temp_change; [done|].
  intros data' m' HP' Hd. rewrite Hd, lookup_insert_eq. by exists data', mode.
Qed.

Lemma same_temp P {A} (f : Fs -> result string A) :
  triple (with_temp P) (look f) (fun a w => f w = Ok a /\ with_temp P w) (fun _ => some_temp).
Proof. apply triple_look; [apply with_temp_steady|by intros w a Hw Ha|intros w e; apply with_temp_some]. Qed.

Lemma sync_temp P k : triple (with_temp P) (fs_sync_all k) (fun _ => with_temp P) (fun _ => some_temp).
Proof.
  apply triple_call; [apply with_temp_steady| |intros w e; apply with_temp_some].
  intros w d u Hw [= <- _]. replace (with_disk w (fs_disk w)) with w by (by destruct w). done.
Qed.

(** The file [s] of the directory is the temporary one, or the disk is as it was but for
    the temporary file. *)
Definition replaced (s : string) (P : list N -> Z -> Prop) (w : Fs) : Prop :=
  exists data mode, P data mode /\ fs_disk w = <[dk ++ [s] := NFile data mode]> (fs_disk w0).
Definition undone (w : Fs) : Prop := forall k, k <> tk -> fs_disk w !! k = fs_disk w0 !! k.

Lemma some_temp_undone w : some_temp w -> undone w.
Proof. intros (data & mode & _ & Hd)%with_temp_disk k Hk. by rewrite Hd, lookup_insert_ne. Qed.

Lemma rename_temp P s : t <> s -> node (fs_disk w0) (dk ++ [s]) <> Some NDir ->
  triple (with_temp P) (fs_rename (of_key tk) (of_key (dk ++ [s])))
  (fun _ => replaced s P) (fun _ => some_temp).
Proof.
  intros Hts Hs. apply triple_call; [apply with_temp_steady| |intros w e; apply with_temp_some].
  intros w d u Hw H. apply bind_Ok in H as (src & Hsrc & H). apply bind_Ok in H as (dst & Hdst & H).
  apply bind_Ok in H as (d' & Hd' & H). injection H as <- _.
  rewrite entry_temp in Hsrc, Hdst by (by eapply with_temp_some). injection Hsrc as <-. injection Hdst as <-.
  destruct (with_temp_disk _ _ Hw) as (data & mode & HP & Hd).
  assert (Hne : tk <> dk ++ [s]) by (intros E; apply app_inj_tail in E as [_ E]; done).
  unfold rename_keys in Hd'. rewrite !node_snoc, Hd, lookup_insert_eq in Hd'. rewrite bool_decide_false in Hd' by done.
  rewrite lookup_insert_ne in Hd' by done. rewrite node_snoc in Hs.
  assert (E : d' = <[dk ++ [s] := NFile data mode]> (delete tk (<[tk := NFile data mode]> (fs_disk w0))))
    by (destruct (fs_disk w0 !! (dk ++ [s])) as [[]|]; cbn in Hd'; congruence).
  exists data, mode. split; [done|]. cbn. by rewrite E, delete_insert_id.
Qed.

Lemma remove_temp w : some_temp w -> undone (fs_remove_file (of_key tk) w).1.
Proof.
  intros Hw.
  assert (H : triple some_temp (fs_remove_file (of_key tk)) (fun _ => undone) (fun _ => undone)).
  { apply triple_call; [apply with_temp_steady| |intros ? ? ?; by apply some_temp_undone].
    intros w1 d u Hw1 H. apply bind_Ok in H as (k & Hk & H). rewrite entry_temp in Hk by done. injection Hk as <-.
    destruct (node_temp _ _ Hw1) as (data & mode & _ & Hn). rewrite Hn in H. injection H as <- _.
    intros k Hk. cbn. rewrite lookup_delete_ne by done. by apply some_temp_undone. }
  specialize (H w Hw). by destruct (fs_remove_file (of_key tk) w) as [w' [u|e]].
Qed.
End Temporary.

Lemma path_push_of_key k s : path_push (of_key k) s = of_key (k ++ [s]).
Proof. unfold path_push, of_key. cbn. by rewrite fmap_app. Qed.

Lemma parent_of_key k s : parent (of_key (k ++ [s])) = Some (of_key k).
Proof.
  unfold parent. rewrite of_key_snoc. destruct ((Normal <$> k) ++ [Normal s]) eqn:E; [by destruct k|].
  rewrite <- E. by rewrite removelast_last.
Qed.

(** The temporary file of a new name: it is made, or nothing is. *)
Lemma temp_file_cases w0 dk :
  quiet w0 -> chain (fs_disk w0) dk ->
  let t := ".tmp" +:+ fs_uuid w0 (fs_drawn w0) in
  forall m, mc_fs m = w0 ->
  match temp_file_in (of_key dk) m with
  | (m', Ok p) => p = of_key (dk ++ [t]) /\ fs_disk w0 !! (dk ++ [t]) = None /\
      with_temp (with_drawn w0 (S (fs_drawn w0))) dk t (fun data _ => data = []) (mc_fs m')
  | (m', Err _) => fs_disk (mc_fs m') = fs_disk w0
  end.
Proof.
  intros Hq Hc t m Hm. unfold temp_file_in. rewrite M_bind_run. unfold on_fs at 1, new_uuid at 1. cbv beta iota zeta.
  rewrite Hm. rewrite M_bind_run, path_push_of_key. fold t. set (w1 := with_drawn w0 (S (fs_drawn w0))).
  unfold on_fs. cbn [mc_fs mc_with_fs].
  destruct (fs_create_new (of_key (dk ++ [t])) w1) as [w2 r] eqn:E.
  apply call_cases in E as (w3 & Hs & [(e & -> & ->)|(d & k & Hf & -> & ->)]); [apply Hs| |done].
  apply bind_Ok in Hf as (k' & Hk & Hf). rewrite (entry_same _ _ _ Hs) in Hk.
  rewrite entry_of_key in Hk by done. injection Hk as <-.
  pose proof (same_disk _ _ Hs) as Hd. cbn in Hd. rewrite Hd, node_snoc in Hf.
  destruct (fs_disk w0 !! (dk ++ [t])) eqn:Hn; [done|]. injection Hf as <- <-. split_and!; [done|done|].
  eexists _, _. split; [done|]. destruct Hs. constructor; cbn in *; done.
Qed.

(** ** A cache that is there *)

Lemma resolve_chain w k : chain (fs_disk w) k -> resolve w (of_key k) = Ok k.
Proof. intros H. apply resolve_of_key. by left. Qed.

Lemma make_dirs_there w rest : forall cur, chain (fs_disk w) (cur ++ rest) ->
  make_dirs w (fs_disk w) (of_key cur) (Normal <$> rest) = Ok (fs_disk w).
Proof.
  induction rest as [|s rest IH]; intros cur H; [done|]. cbn [fmap list_fmap make_dirs].
  replace {| absolute := absolute (of_key cur); comps := comps (of_key cur) ++ [Normal s] |} with (of_key (cur ++ [s]))
    by (unfold of_key; by rewrite fmap_app).
  replace (cur ++ s :: rest) with ((cur ++ [s]) ++ rest) in H by (by rewrite <- app_assoc).
  assert (Hc : chain (fs_disk w) (cur ++ [s])) by (eapply chain_prefix; [done|by apply prefix_app_r]).
  replace (with_disk w (fs_disk w)) with w by (by destruct w). unfold followed. rewrite resolve_chain by done. cbn.
  rewrite (Hc (cur ++ [s])) by done. cbn. by apply IH.
Qed.

Lemma make_cache I k : steady I -> (forall w, I w -> chain (fs_disk w) k) ->
  triple I (fs_create_dir_all (of_key k)) (fun _ => I) (fun _ => I).
Proof.
  intros HI Hc. apply triple_call; [done| |done]. intros w d u Hw H.
  apply bind_Ok in H as (d' & Hd & H). injection H as <- _.
  change {| absolute := absolute (of_key k); comps := [] |} with (of_key []) in Hd.
  change (comps (of_key k)) with (Normal <$> k) in Hd.
  rewrite (make_dirs_there w k []) in Hd by (by apply Hc). injection Hd as <-. by destruct w.
Qed.

Lemma permissions_cache I k s mode : steady I -> (forall w, I w -> chain (fs_disk w) (k ++ [s])) ->
  triple I (fs_set_permissions (of_key (k ++ [s])) mode) (fun _ => I) (fun _ => I).
Proof.
  intros HI Hc. apply triple_call; [done| |done]. intros w d u Hw H.
  apply bind_Ok in H as (k' & Hk & H). rewrite resolve_chain in Hk by (by apply Hc). injection Hk as <-.
  injection H as <- _. pose proof (Hc w Hw _ (reflexivity _)) as E. rewrite node_snoc in E. rewrite E. by destruct w.
Qed.

(** * An update that runs *)

Definition abs (l : list string) : Path := of_key l.

Definition cli_artifact : Artifact :=
  {| a_name := "axiom-cli-1.2.3-x64.sh"; product := "cli"; platform := "linux"; arch := "x64"; format := "sh";
     a_bytes := 3; sha256 := of_bytes (replicate 64 48%N);
     a_url := "https://cdn.axiom.stream/downloads/1.2.3/axiom-cli-1.2.3-x64.sh";
     github_url := "https://github.com/astrea-foundation/axiom-releases/releases/download/v1.2.3/axiom-cli-1.2.3-x64.sh" |}.
Definition update_release : Release :=
  {| schema_version := 2; version := "1.2.3"; r_revision := of_bytes (replicate 40 48%N); r_sequence := 7;
     signing := "signed"; downloads := [artifact_sample]; cli_downloads := [cli_artifact];
     signature := Some {| key_id := of_bytes (replicate 16 48%N); sig_value := of_bytes (replicate 64 48%N) |} |}.

Definition installed : Installation :=
  {| in_product := "cli"; in_format := "sh"; in_root := abs ["opt"]; in_cli := abs ["opt"; "current"; "bin"; "axiomcli"];
     in_desktop := None; in_app_image := None |}.
Definition update_job : Job :=
  {| jb_installation := installed; jb_release := update_release; jb_artifact := a_name cli_artifact;
     jb_restart := Tui (abs ["work"]) (Some "session") |}.

(** The payload is three bytes long; every digest is zeros. *)
Definition payload : list N := [104; 105; 33]%N.
Definition cache_name : string := of_bytes (replicate 24 48%N).
Definition cache_dir : Key := ["cache"; "axiom"; "updates"; cache_name].
Definition staged_dir : Key := cache_dir ++ ["pending-1"].

Definition update_disk : Disk :=
  list_to_map
    [(["opt"], NDir); (["opt"; "versions"], NDir); (["opt"; "versions"; "1"], NDir); (["opt"; "versions"; "1"; "bin"], NDir);
     (["opt"; "versions"; "1"; "bin"; "axiomcli"], NFile [49%N] 493);
     (["opt"; "versions"; "1"; "axiom-install.json"], NFile [3%N] 420);
     (["opt"; "current"], NLink {| absolute := false; comps := [Normal "versions"; Normal "1"] |});
     (["cache"], NDir); (["cache"; "axiom"], NDir); (["cache"; "axiom"; "updates"], NDir); (cache_dir, NDir);
     (staged_dir, NDir); (staged_dir ++ ["job.json"], NFile [2%N] 420);
     (staged_dir ++ [a_name cli_artifact], NFile payload 420)].

Definition update_fs (agenda : list Event) : Fs :=
  {| fs_disk := update_disk; fs_cwd := []; fs_umask := 18; fs_agenda := agenda;
     fs_uuid := fun n => of_bytes (replicate (S n) 97%N); fs_drawn := 0 |}.
Definition update_machine (agenda : list Event) : Machine :=
  {| mc_fs := update_fs agenda; mc_held := []; mc_time := 0; mc_ticks := 0; mc_acts := [] |}.

(** The installer leaves a new program, which is asked for its version. *)
Definition new_program : Key := ["opt"; "versions"; "1"; "bin"; "axiomcli"].
Definition sample_run (c : Command) (d : Disk) : Disk * result string (bool * list N) :=
  if decide (last (cm_args c) = Some "--version")
  then (d, Ok (true, bytes match d !! new_program with
                           | Some (NFile [50%N] _) => "axiomcli 1.2.3"
                           | _ => "axiomcli 1.2.2"
                           end))
  else (<[new_program := NFile [50%N] 493]> d, Ok (true, [])).

Definition sample_world : World :=
  {| lag := fun _ => 1%nat; answer := fun _ => Answers 200 (Some 3) [Some [104; 105]%N; Some [33%N]];
     run_program := fun _ => sample_run; spawn_error := fun _ => None; alive := fun _ _ => false;
     child_exited := fun _ => false; process_id := 7; current_exe := abs new_program; appimage := None;
     user_cache := Some (abs ["cache"]); modified := fun _ _ => Some 0 |}.

(** The files hold one byte that names what they decode to. *)
Definition update_codec : ReleaseCodec :=
  {| decode_release := fun bs => if decide (bs = [1%N]) then Some update_release else None;
     encode_release := fun _ => [1%N]; write_scalar := fun _ => "0";
     signature_shape := fun _ => true; verifying_key := fun _ => true; verify_strict := fun _ _ _ => true |}.
Definition marker_codec : MarkerCodec :=
  {| decode_marker := fun bs =>
       if decide (bs = [3%N])
       then Some {| mk_schema_version := 1; mk_product := "cli"; mk_format := "sh"; mk_versioned := true |} else None |}.
Definition failed : result string unit := Err "boom".
Definition job_codec : JobCodec :=
  {| decode_job := fun bs => if decide (bs = [2%N]) then Some update_job else None; encode_job := fun _ => [2%N];
     value_to_vec := fun _ => [7%N];
     value_from_slice := fun bs => if decide (bs = [7%N]) then Some (outcome_value update_job failed) else None |}.
Definition update_build : Build := {| TRUSTED_KEYS := "key"; CARGO_PKG_VERSION := "1.2.2"; host_arch := "x64" |}.

Definition job_path : Path := abs (staged_dir ++ ["job.json"]).

#[local] Existing Instances sample_world update_codec plain_base64 plain_json sample_digest marker_codec job_codec update_build.

Definition sample_install (agenda : list Event) : Machine * result string unit :=
  install_staged job_path "key" (update_machine agenda).

Definition quiet_event : Event := {| ev_change := fun d => d; ev_moves := Some; ev_fault := None; ev_written := 0 |}.

Example sample_installs :
  let '(m, r) := sample_install [] in
  r = Ok tt /\ length (mc_acts m) = 4%nat /\ fs_disk (mc_fs m) !! new_program = Some (NFile [50%N] 493) /\ mc_held m = [].
Proof. vm_compute. done. Qed.

(** ** Directories of the sample *)

Definition no_links_below (root : Key) (d : Disk) : bool :=
  forallb (fun x : Key * Node => match x.2 with NLink _ => negb (below root x.1) | _ => true end) (map_to_list d).

Lemma no_links_below_spec root d k target :
  no_links_below root d = true -> d !! k = Some (NLink target) -> ~ root `prefix_of` k.
Proof.
  unfold no_links_below. rewrite forallb_elem_of. intros H Hk%elem_of_map_to_list Hp.
  specialize (H _ Hk). cbn in H. unfold below in H. by rewrite bool_decide_true in H.
Qed.

Definition all_dirs (d : Disk) (k : Key) : bool :=
  forallb (fun n => match node d (take n k) with Some NDir => true | _ => false end) (seq 0 (S (length k))).

Lemma all_dirs_chain d k : all_dirs d k = true -> chain d k.
Proof.
  unfold all_dirs. rewrite forallb_elem_of. intros H k' [l ->].
  specialize (H (length k')). rewrite take_app_length in H.
  destruct (node d k') as [[]|]; try done; exfalso; by assert (length k' ∈ seq 0 (S (length (k' ++ l)))) as ?%H
    by (apply elem_of_seq; rewrite length_app; lia).
Qed.
