(* ===== verification/SelfUpdateTheorems.v ===== *)
(** What self-updates promise: only signed, newer files are installed, an installed image
    is replaced whole, waiting ends, failures are reported, and staging directories of
    live jobs are spared. *)

From stdpp Require Import base gmap strings list.
From Stdlib Require Import ZArith NArith Lia ZifyBool ZifyN ZifyNat.
From S2P Require Import Prelude RustStr Json Paths Disk Accounting Lease Release Workspace WorkspaceEdits Machine Download Installation Staging SelfUpdate SelfUpdateProofs.

Local Open Scope Z_scope.

Section Installing.
Context `{W : World} `{RC : ReleaseCodec} `{B64 : Base64} `{J : SerdeJson} `{KD : KeyDigest}.
Context `{MC : MarkerCodec} `{JC : JobCodec} `{BU : Build}.


Lemma exact_at_disk w w' q file :
  fs_disk w = fs_disk w' -> fs_cwd w = fs_cwd w' -> exact_at w q file -> exact_at w' q file.
Proof. intros Hd Hc (data & mode & H & Hx). exists data, mode. by rewrite <- (followed_disk w w'). Qed.

Section Locked.
Variables (keys : string) (p : Path) (held : list Key) (k : Key) (j : Job) (file : Artifact) (dir : Path).
Variable undisturbed : Prop.
Hypothesis Hk : k ∉ held.
Hypothesis Hj : checked_job keys p j file dir.
#[local] Abbreviation artifact := (path_push dir (jb_artifact j)).


End Locked.

Lemma exact_later w w' q file : fs_disk w' = fs_disk w -> fs_cwd w' = fs_cwd w -> exact_at w q file -> exact_at w' q file.
Proof. intros Hd Hc. by apply exact_at_disk. Qed.

(** The artifact of a job is in no one else's hands. *)
Definition private_job (w : Fs) (p : Path) : Prop :=
  forall dir name, parent p = Some dir -> untouched w (path_push dir name).



Lemma acted_inner {A} P (x : Doing A) m m' r : inner x -> x m = (m', r) -> acted P m m'.
Proof. intros Hi H. apply acted_passes. specialize (Hi m). by rewrite H in Hi. Qed.

Lemma ensure_acted P b e m m' r : ensure b e m = (m', r) -> acted P m m'.
Proof. apply acted_inner, inner_ensure. Qed.
#[local] Hint Resolve ensure_acted : machine.













End Installing.

(** ** Images *)

Section Images.
Variables (w0 : Fs) (dk ak : Key) (t name : string) (new : list N) (amode : Z).
Hypothesis Hquiet : quiet w0.
Hypothesis Hdir : chain (fs_disk w0) dk.
Hypothesis Htemp : fs_disk w0 !! (dk ++ [t]) = None.
Hypothesis Hsource : Disk.settled (fs_disk w0) ak /\ node (fs_disk w0) ak = Some (NFile new amode).
Hypothesis Htarget : exists old omode, fs_disk w0 !! (dk ++ [name]) = Some (NFile old omode).

(** The temporary file becomes the image, or the image is as it was. *)
Lemma replacing :
  triple (fun m => some_temp w0 dk t (mc_fs m))
    (_ ← on_fs (fs_copy (of_key ak) (of_key (dk ++ [t])));
     _ ← on_fs (fs_set_permissions (of_key (dk ++ [t])) 493);
     k ← on_fs (look (fun w => entry w (of_key (dk ++ [t]))));
     _ ← on_fs (fs_sync_all k);
     on_fs (fs_rename (of_key (dk ++ [t])) (of_key (dk ++ [name]))))
    (fun _ m => replaced w0 dk name (fun data mode => data = new /\ mode = 493) (mc_fs m))
    (fun _ m => some_temp w0 dk t (mc_fs m)).
Proof.
  destruct Hsource as [Hs Hn], Htarget as (old & omode & Ht).
  apply (triple_fs_bind _ _ _ (fun _ => with_temp w0 dk t (fun data _ => data = new))).
  { eapply copy_temp; [done..| |exact Hn]. intros ->. rewrite node_snoc in Hn. congruence. }
  intros _. apply (triple_fs_bind _ _ _ (fun _ => with_temp w0 dk t (fun data mode => data = new /\ mode = 493)));
    [by apply permissions_temp|].
  intros _. apply (triple_fs_bind _ _ _ (fun _ => with_temp w0 dk t (fun data mode => data = new /\ mode = 493))).
  { eapply triple_weaken; [by apply same_temp|done|by intros k w [_ H]|done]. }
  intros k. apply (triple_fs_bind _ _ _ (fun _ => with_temp w0 dk t (fun data mode => data = new /\ mode = 493)));
    [by apply sync_temp|].
  intros _. apply (triple_on_fs _ _ (fun _ => replaced w0 dk name (fun data mode => data = new /\ mode = 493))
    (fun _ => some_temp w0 dk t)).
  apply rename_temp; [done..|congruence|]. rewrite node_snoc. by rewrite Ht.
Qed.
End Images.

(** C18: An installed image is replaced whole: whichever call of an AppImage update fails, also
    while it cleans up, the image at its destination is byte for byte the old one, and when
    the update succeeds it is byte for byte the new one, executable; no other file of the
    disk changes, save for a temporary one beside the image. *)
Theorem images_are_replaced_whole dk name ak new amode old omode m m' r :
  quiet (mc_fs m) -> chain (fs_disk (mc_fs m)) dk ->
  Disk.settled (fs_disk (mc_fs m)) ak -> node (fs_disk (mc_fs m)) ak = Some (NFile new amode) ->
  fs_disk (mc_fs m) !! (dk ++ [name]) = Some (NFile old omode) ->
  install_image (of_key ak) (of_key (dk ++ [name])) m = (m', r) ->
  fs_disk (mc_fs m') !! (dk ++ [name]) = Some (match r with Ok _ => NFile new 493 | Err _ => NFile old omode end) /\
  let t := ".tmp" +:+ fs_uuid (mc_fs m) (fs_drawn (mc_fs m)) in
  forall k, k <> dk ++ [name] -> k <> dk ++ [t] -> fs_disk (mc_fs m') !! k = fs_disk (mc_fs m) !! k.
Proof.
  intros Hq Hc Hs Hn Ht H. unfold install_image in H. rewrite parent_of_key in H.
  rewrite M_bind_run in H. unfold need, lift in H. cbn [ok_or] in H. rewrite M_bind_run in H.
  pose proof (temp_file_cases (mc_fs m) dk Hq Hc m eq_refl) as T. cbv zeta in T.
  destruct (temp_file_in (of_key dk) m) as [m1 [p|e]].
  2: { injection H as <- <-. rewrite T. by split. }
  destruct T as (-> & Hnew & Hm1).
  set (t := ".tmp" +:+ _) in *. set (w0 := with_drawn _ _) in *.
  assert (Hne : dk ++ [name] <> dk ++ [t]) by congruence.
  pose proof (triple_on_error (fun m => some_temp w0 dk t (mc_fs m)) (on_fs (fs_remove_file (of_key (dk ++ [t])))) _ _ _
    (fun _ m => undone w0 dk t (mc_fs m))
    (replacing w0 dk ak t name new amode Hq Hc Hnew (conj Hs Hn) (ex_intro _ old (ex_intro _ omode Ht)))) as R.
  apply with_temp_some in Hm1. unfold or_remove in H. specialize (R ltac:(intros m2 e Hm2; unfold on_fs;
    pose proof (remove_temp w0 dk t Hq Hc Hnew (mc_fs m2) Hm2) as U; by destruct (fs_remove_file _ (mc_fs m2))) m1 Hm1).
  rewrite H in R. destruct r as [[]|e].
  - destruct R as (data & mode & [-> ->] & Hd). rewrite Hd. cbn [fs_disk w0 with_drawn]. split; [by rewrite lookup_insert_eq|].
    cbv zeta. intros k Hk _. by rewrite lookup_insert_ne.
  - split; [rewrite (R _ Hne); exact Ht|]. cbv zeta. intros k _ Hk. exact (R _ Hk).
Qed.

(** ** Outcomes *)

Section Outcomes.
Context `{W : World} `{RC : ReleaseCodec} `{B64 : Base64} `{J : SerdeJson} `{KD : KeyDigest}.
Context `{MC : MarkerCodec} `{JC : JobCodec} `{BU : Build}.

Definition cache_key (base : Key) (i : Installation) : Key := base ++ ["axiom"; "updates"; cache_id i].

Lemma same_steady w0 : quiet w0 -> steady (same w0).
Proof. intros Hq. split; [by intros w []; auto|]. intros w w' H1 H2. by eapply same_trans. Qed.

Lemma cache_there base i m m' r :
  user_cache = Some (of_key base) -> quiet (mc_fs m) -> chain (fs_disk (mc_fs m)) (cache_key base i) ->
  cache i m = (m', r) ->
  same (mc_fs m) (mc_fs m') /\ match r with Ok p => p = of_key (cache_key base i) | Err _ => True end.
Proof.
  intros Hu Hq Hc H. unfold cache in H. rewrite Hu in H. rewrite M_bind_run in H. cbn [need lift ok_or] in H.
  assert (Hp : cache_path (of_key base) i = of_key (cache_key base i)).
  { unfold cache_path, cache_key. rewrite !path_push_of_key, <- !app_assoc. done. }
  rewrite Hp in H.
  assert (Hck : cache_key base i = (base ++ ["axiom"; "updates"]) ++ [cache_id i]) by (unfold cache_key; by rewrite <- app_assoc).
  set (w0 := mc_fs m) in *. assert (Hch : forall w, same w0 w -> chain (fs_disk w) (cache_key base i)).
  { intros w Hw. by rewrite (same_disk _ _ Hw). }
  assert (T : triple (fun m => same w0 (mc_fs m)) (_ ← on_fs (fs_create_dir_all (of_key (cache_key base i)));
      _ ← on_fs (fs_set_permissions (of_key (cache_key base i)) 448); mret (of_key (cache_key base i)))
      (fun p m => same w0 (mc_fs m) /\ p = of_key (cache_key base i)) (fun _ m => same w0 (mc_fs m))).
  { apply (triple_fs_bind _ _ _ (fun _ => same w0)); [by apply make_cache; [by apply same_steady|]|intros _].
    apply (triple_fs_bind _ _ _ (fun _ => same w0)); [|intros _; by apply triple_ret].
    rewrite Hck in Hch |- *. by apply permissions_cache; [by apply same_steady|]. }
  specialize (T m (same_refl _)). cbn [ok_or] in H. cbv zeta in H.
  match type of H with ?x = _ => match type of T with match ?y with _ => _ end => change x with y in H end end.
  rewrite H in T. destruct r as [p|e]; [|by split]. by destruct T.
Qed.

Lemma persist_cases dk name data m m' r :
  quiet (mc_fs m) -> chain (fs_disk (mc_fs m)) dk -> fs_disk (mc_fs m) !! (dk ++ [name]) <> Some NDir ->
  (forall s, ".tmp" +:+ s <> name) ->
  write_and_persist (of_key dk) data (of_key (dk ++ [name])) m = (m', r) ->
  match r with
  | Ok _ => exists mode, fs_disk (mc_fs m') !! (dk ++ [name]) = Some (NFile data mode)
  | Err _ => fs_disk (mc_fs m') !! (dk ++ [name]) = fs_disk (mc_fs m) !! (dk ++ [name])
  end.
Proof.
  intros Hq Hc Hn Hne H. unfold write_and_persist in H. rewrite M_bind_run in H.
  pose proof (temp_file_cases (mc_fs m) dk Hq Hc m eq_refl) as T. cbv zeta in T.
  destruct (temp_file_in (of_key dk) m) as [m1 [p|e]]; [|injection H as <- <-; by rewrite T].
  destruct T as (-> & Hnew & Hm1).
  specialize (Hne (fs_uuid (mc_fs m) (fs_drawn (mc_fs m)))).
  set (t := ".tmp" +:+ _) in *. set (w0 := with_drawn _ _) in *.
  assert (R : triple (fun m => with_temp w0 dk t (fun data _ => data = []) (mc_fs m))
    (k ← on_fs (look (fun w => entry w (of_key (dk ++ [t])))); _ ← on_fs (fs_write_all k data);
     _ ← on_fs (fs_sync_all k); on_fs (fs_rename (of_key (dk ++ [t])) (of_key (dk ++ [name]))))
    (fun _ m => replaced w0 dk name (fun d _ => d = data) (mc_fs m)) (fun _ m => some_temp w0 dk t (mc_fs m))).
  { apply (triple_fs_bind _ _ _ (fun k w => k = dk ++ [t] /\ with_temp w0 dk t (fun data _ => data = []) w)).
    { eapply triple_weaken; [exact (same_temp w0 dk t Hq (fun data _ => data = []) _)|done| |done]. intros k w [Hk Hw]. split; [|done].
      rewrite (entry_temp w0 dk t) in Hk by (done || by eapply with_temp_some). by injection Hk. }
    intros k. apply (triple_fs_bind (fun w => k = dk ++ [t] /\ with_temp w0 dk t (fun data _ => data = []) w) _ _
      (fun _ => with_temp w0 dk t (fun d _ => d = data))).
    { intros w [-> Hw]. by apply write_temp. }
    intros _. apply (triple_fs_bind _ _ _ (fun _ => with_temp w0 dk t (fun d _ => d = data))); [by apply sync_temp|].
    intros _. apply (triple_on_fs _ _ (fun _ => replaced w0 dk name (fun d _ => d = data)) (fun _ => some_temp w0 dk t)).
    apply rename_temp; [done..|]. by rewrite node_snoc. }
  pose proof (triple_on_error _ (on_fs (fs_remove_file (of_key (dk ++ [t])))) _ _ _ (fun _ m => undone w0 dk t (mc_fs m)) R) as F.
  unfold or_remove in H. specialize (F ltac:(intros m2 e Hm2; unfold on_fs;
    pose proof (remove_temp w0 dk t Hq Hc Hnew (mc_fs m2) Hm2) as U; by destruct (fs_remove_file _ (mc_fs m2))) m1 Hm1).
  rewrite H in F. destruct r as [[]|e].
  - destruct F as (d & mode & -> & Hd). exists mode. by rewrite Hd, lookup_insert_eq.
  - apply F. intros E. apply app_inj_tail in E as [_ [= E]]. by apply Hne.
Qed.

(** Documented behaviour of serde_json: an outcome that is written is read back. *)
Definition OutcomeRoundtrip (j : Job) (res : result string unit) : Prop :=
  value_from_slice (value_to_vec (outcome_value j res)) = Some (outcome_value j res).

(** An update that failed is reported: the outcome file always holds one whole outcome,
    the old one when recording fails at any call, and otherwise one from which [last_error]
    reads exactly the error of the update, or none when it succeeded. *)
Theorem outcomes_are_reported base j res m m' r :
  OutcomeRoundtrip j res -> user_cache = Some (of_key base) ->
  quiet (mc_fs m) -> chain (fs_disk (mc_fs m)) (cache_key base (jb_installation j)) ->
  let file := cache_key base (jb_installation j) ++ ["last-update.json"] in
  fs_disk (mc_fs m) !! file <> Some NDir ->
  Z.of_nat (length (value_to_vec (outcome_value j res))) <= MAX_OUTCOME_BYTES ->
  record_outcome j res m = (m', r) ->
  match r with
  | Ok _ => exists bs mode, fs_disk (mc_fs m') !! file = Some (NFile bs mode) /\
              outcome_error bs = match res with Err e => Some e | Ok _ => None end
  | Err _ => fs_disk (mc_fs m') !! file = fs_disk (mc_fs m) !! file
  end.
Proof.
  intros Hrt Hu Hq Hc file Hf Hlen H. unfold record_outcome in H. rewrite M_bind_run in H.
  destruct (cache (jb_installation j) m) as [m1 r1] eqn:E. apply (cache_there base) in E as [Hs Hp]; [|done..].
  destruct r1 as [p|e]; [|injection H as <- <-; by rewrite (same_disk _ _ Hs)]. subst p.
  rewrite path_push_of_key in H. rewrite <- (same_disk _ _ Hs) in Hc, Hf |- *.
  apply persist_cases in H; [|by apply Hs|done|done|by intros s].
  destruct r as [u|e]; [|done]. destruct H as [mode H]. eexists _, mode. split; [exact H|].
  unfold outcome_error. rewrite (proj2 (Z.ltb_ge _ _) Hlen). unfold OutcomeRoundtrip in Hrt. rewrite Hrt. by destruct res.
Qed.
End Outcomes.

(** ** Examples *)

#[local] Existing Instances sample_world update_codec plain_base64 plain_json sample_digest marker_codec job_codec update_build.

Lemma sample_private l p : Forall (fun e => forall d, ev_change e d = d) l -> private_job (update_fs l) p.
Proof.
  intros Hl dir name _. constructor.
  - intros e d He. rewrite Forall_forall in Hl. by rewrite Hl.
  - intros n j d. unfold run_program, sample_world, sample_run, cli_command.
    by destruct (in_app_image (jb_installation j)).
Qed.


(** An image of two bytes replaces one of one byte, or stays when the rename fails. *)
Definition image_disk : Disk :=
  list_to_map [(["apps"], NDir); (["apps"; "Axiom"], NFile [1%N] 493); (["new"], NFile [2; 3]%N 420)].
Definition image_machine (l : list Event) : Machine :=
  {| mc_fs := {| fs_disk := image_disk; fs_cwd := []; fs_umask := 18; fs_agenda := l;
                 fs_uuid := fun n => of_bytes (replicate (S n) 97%N); fs_drawn := 0 |};
     mc_held := []; mc_time := 0; mc_ticks := 0; mc_acts := [] |}.
Definition failing_event : Event := {| ev_change := fun d => d; ev_moves := Some; ev_fault := Some "No space left"; ev_written := 1 |}.
Definition failing_rename : list Event := replicate 7 quiet_event ++ [failing_event].

Lemma images_are_replaced_whole_witness :
  let m' := (install_image (abs ["new"]) (abs ["apps"; "Axiom"]) (image_machine failing_rename)).1 in
  is_err (install_image (abs ["new"]) (abs ["apps"; "Axiom"]) (image_machine failing_rename)).2 = true /\
  fs_disk (mc_fs m') !! ["apps"; "Axiom"] = Some (NFile [1%N] 493).
Proof.
  cbv zeta. assert (He : is_err (install_image (abs ["new"]) (abs ["apps"; "Axiom"]) (image_machine failing_rename)).2 = true)
    by (vm_compute; reflexivity).
  split; [exact He|].
  pose proof (images_are_replaced_whole ["apps"] "Axiom" ["new"] [2; 3]%N 420 [1%N] 493 (image_machine failing_rename)
    (install_image (abs ["new"]) (abs ["apps"; "Axiom"]) (image_machine failing_rename)).1
    (install_image (abs ["new"]) (abs ["apps"; "Axiom"]) (image_machine failing_rename)).2) as T.
  destruct T as [T _].
  - by repeat constructor.
  - intros k Hk. destruct k as [|s [|]]; [done| |by apply prefix_length in Hk; cbn in Hk; lia].
    apply prefix_cons_inv_1 in Hk as ->. by vm_compute.
  - right. exists [], "new", (NFile [2; 3]%N 420). split_and!; [done| |by vm_compute|done|done].
    apply chain_nil.
  - by vm_compute.
  - by vm_compute.
  - unfold abs. change (["apps"] ++ ["Axiom"]) with ["apps"; "Axiom"]. by destruct (install_image _ _ _).
  - change (["apps"] ++ ["Axiom"]) with ["apps"; "Axiom"] in T. rewrite T.
    by destruct (install_image (abs ["new"]) (abs ["apps"; "Axiom"]) (image_machine failing_rename)).2.
Defined.

(** The error of a failed update is what the file says. *)
Lemma outcomes_are_reported_witness :
  exists bs mode,
    fs_disk (mc_fs (record_outcome update_job failed (update_machine [quiet_event])).1)
      !! (cache_dir ++ ["last-update.json"]) = Some (NFile bs mode) /\ outcome_error bs = Some "boom".
Proof.
  assert (He : (record_outcome update_job failed (update_machine [quiet_event])).2 = Ok tt) by (vm_compute; reflexivity).
  pose proof (outcomes_are_reported ["cache"] update_job failed (update_machine [quiet_event])
    (record_outcome update_job failed (update_machine [quiet_event])).1
    (record_outcome update_job failed (update_machine [quiet_event])).2) as T.
  cbv zeta in T. rewrite He in T. apply T.
  - by vm_compute.
  - done.
  - by repeat constructor.
  - apply all_dirs_chain. by vm_compute.
  - by vm_compute.
  - by vm_compute.
  - rewrite <- He. by destruct (record_outcome _ _ _).
Defined.
