(* ===== verification/StagingTheorems.v ===== *)
(** Which staging directories are pruned: those of live jobs are spared, and what belongs
    to a job that is over goes away. *)

From stdpp Require Import base gmap strings list.
From Stdlib Require Import ZArith NArith Lia ZifyBool ZifyN ZifyNat.
From S2P Require Import Prelude RustStr Json Paths Disk Workspace WorkspaceEdits Machine Staging SelfUpdate SelfUpdateProofs.

Local Open Scope Z_scope.

(** ** Changes below a directory *)

(** What the calls of a removal do: entries vanish, or become files. *)
Definition touches (T : Key -> Prop) (d d' : Disk) : Prop :=
  forall k, d' !! k = d !! k \/ (T k /\ (d' !! k = None \/ exists data mode, d' !! k = Some (NFile data mode))).

Lemma touches_delete (T : Key -> Prop) k d : T k -> touches T d (delete k d).
Proof.
  intros HT k'. destruct (decide (k = k')) as [<-|Hne]; [right; split; [done|left; apply lookup_delete_eq]|].
  left. by apply lookup_delete_ne.
Qed.

Lemma touches_insert (T : Key -> Prop) k data mode d : T k -> touches T d (<[k := NFile data mode]> d).
Proof.
  intros HT k'. destruct (decide (k = k')) as [<-|Hne].
  - right. split; [done|right]. eexists _, _. apply lookup_insert_eq.
  - left. by apply lookup_insert_ne.
Qed.

Lemma delete_all_lookup l d k : delete_all l d !! k = if decide (k ∈ l) then None else d !! k.
Proof.
  induction l as [|x l IH]; [by rewrite decide_False by apply not_elem_of_nil|]. cbn [delete_all foldr].
  destruct (decide (x = k)) as [->|Hne].
  - rewrite lookup_delete_eq, decide_True by (by left). done.
  - rewrite lookup_delete_ne by done. unfold delete_all in IH. rewrite IH.
    destruct (decide (k ∈ l)); [rewrite decide_True by (by right)|rewrite decide_False by (by intros [|]%elem_of_cons)]; done.
Qed.

Lemma touches_delete_all (T : Key -> Prop) l d : Forall T l -> touches T d (delete_all l d).
Proof.
  intros HT k. rewrite delete_all_lookup. case_decide as H; [right|by left].
  rewrite Forall_forall in HT. split; [by apply HT|by left].
Qed.

Lemma tree_below k d : Forall (fun k' => k `prefix_of` k') (tree_of k d).
Proof.
  apply Forall_forall. intros k' H. unfold tree_of in H. apply list_elem_of_In, filter_In in H as [_ H].
  by apply bool_decide_eq_true in H.
Qed.

(** ** The invariant of a prune *)

Section Prune.
Context `{W : World}.
Variables (root : Key) (now : Z) (d0 : Disk) (held : list Key).

#[local] Abbreviation job name := (root ++ [name]).

(** A directory that [prune_at] may remove. *)
Definition over (name : string) : Prop :=
  pending name = true /\ d0 !! job name = Some NDir /\
  ((exists n, is_expired now (modified n (job name)) = true) \/ is_Some (d0 !! (job name ++ [COMPLETE]))).

(** What it may change: all below a directory whose lease is free, and the lock file of one
    whose lease is held. *)
Definition fair (k : Key) : Prop :=
  exists name, over name /\ job name `prefix_of` k /\ ((job name ++ [LOCK]) ∉ held \/ k = job name ++ [LOCK]).

Record base (w : Fs) : Prop := {
  ba_quiet : quiet w;
  ba_root : chain (fs_disk w) root;
  ba_kind : forall k, fs_disk w !! k = d0 !! k \/ fs_disk w !! k = None \/ exists data mode, fs_disk w !! k = Some (NFile data mode);
  ba_fair : forall k, fs_disk w !! k = d0 !! k \/ fair k
}.
Hypothesis Hlock : forall name target, over name -> d0 !! (job name ++ [LOCK]) <> Some (NLink target).

Lemma job_inj name name' k : job name `prefix_of` k -> job name' `prefix_of` k -> name = name'.
Proof.
  intros [l ->] [l' E]. rewrite <- !app_assoc in E. apply app_inv_head in E. by injection E.
Qed.

Lemma base_touch (T : Key -> Prop) w d :
  base w -> touches T (fs_disk w) d -> (forall k, T k -> fair k) -> base (with_disk w d).
Proof.
  intros [Hq Hr Hk Hf] Ht HT. constructor; cbn; [done| | |].
  - intros k Hkr. destruct k as [|s k]; [done|]. destruct (Ht (s :: k)) as [E|[H _]].
    + rewrite <- (Hr _ Hkr). exact E.
    + apply HT in H as (name & _ & H & _). exfalso. pose proof (prefix_length _ _ H) as L1.
      pose proof (prefix_length _ _ Hkr) as L2. rewrite length_app in L1. cbn in *. lia.
  - intros k. destruct (Ht k) as [->|[_ H]]; [apply Hk|by right].
  - intros k. destruct (Ht k) as [->|[H _]]; [apply Hf|right; by apply HT].
Qed.

Lemma base_steady : steady base.
Proof.
  split; [by intros w []|]. intros w w' [] Hs. pose proof (same_disk _ _ Hs) as E.
  constructor; [by apply Hs|by rewrite E..].
Qed.

(** While the directory of one job is worked on. *)
Definition at_job (name : string) (w : Fs) : Prop := base w /\ chain (fs_disk w) (job name).

Lemma at_job_steady name : steady (at_job name).
Proof.
  split; [by intros w [[] _]|]. intros w w' [Hb Hc] Hs. split; [by eapply (proj2 base_steady)|].
  by rewrite (same_disk _ _ Hs).
Qed.

(** Changes strictly below the directory. *)
Definition inside (name : string) (k : Key) : Prop := exists s, (job name ++ [s]) `prefix_of` k.

Lemma at_job_touch name w d :
  at_job name w -> touches (inside name) (fs_disk w) d -> (forall k, inside name k -> fair k) ->
  at_job name (with_disk w d).
Proof.
  intros [Hb Hc] Ht HT. split; [by eapply base_touch|]. cbn. intros k Hk. destruct k as [|s k]; [done|].
  destruct (Ht (s :: k)) as [E|[(s' & H) _]]; [rewrite <- (Hc _ Hk); exact E|]. exfalso.
  pose proof (prefix_length _ _ H) as L1. pose proof (prefix_length _ _ Hk) as L2.
  rewrite !length_app in L1. rewrite length_app in L2. cbn in *. lia.
Qed.

Section Job.
Variable name : string.
Hypothesis Hover : over name.

Lemma fair_inside : (job name ++ [LOCK]) ∉ held -> forall k, inside name k -> fair k.
Proof.
  intros Hh k (s & Hs). exists name. split_and!; [done| |by left].
  etransitivity; [|exact Hs]. by apply prefix_app_r.
Qed.

Lemma triple_at {A} (f : Fs -> result string (Disk * A)) :
  (job name ++ [LOCK]) ∉ held ->
  (forall w d a, at_job name w -> f w = Ok (d, a) -> touches (inside name) (fs_disk w) d) ->
  triple (at_job name) (call f) (fun _ => at_job name) (fun _ => at_job name).
Proof.
  intros Hh Hf. apply triple_call; [apply at_job_steady| |done]. intros w d a Hw Hd.
  eapply at_job_touch; [done|by eapply Hf|by apply fair_inside].
Qed.

Lemma triple_at_look {A} (f : Fs -> result string A) :
  triple (at_job name) (look f) (fun _ => at_job name) (fun _ => at_job name).
Proof. by apply triple_look; [apply at_job_steady|..]. Qed.

Lemma entry_at s w : at_job name w -> entry w (of_key (job name ++ [s])) = Ok (job name ++ [s]).
Proof. intros [_ Hc]. by apply entry_of_key. Qed.

Lemma inside_child s : inside name (job name ++ [s]).
Proof. by exists s. Qed.

Lemma remove_file_at s : (job name ++ [LOCK]) ∉ held ->
  triple (at_job name) (fs_remove_file (of_key (job name ++ [s]))) (fun _ => at_job name) (fun _ => at_job name).
Proof.
  intros Hh. apply triple_at; [done|]. intros w d a Hw H. rewrite entry_at in H by done. cbn in H.
  destruct (node _ _) as [[]|]; simplify_eq; apply touches_delete, inside_child.
Qed.

Lemma create_at s : (job name ++ [LOCK]) ∉ held ->
  triple (at_job name) (fs_create_new (of_key (job name ++ [s]))) (fun _ => at_job name) (fun _ => at_job name).
Proof.
  intros Hh. apply triple_at; [done|]. intros w d a Hw H. rewrite entry_at in H by done. cbn in H.
  destruct (node _ _) as [n|]; simplify_eq; apply touches_insert, inside_child.
Qed.

Lemma remove_dir_all_at s : (job name ++ [LOCK]) ∉ held ->
  triple (at_job name) (fs_remove_dir_all (of_key (job name ++ [s]))) (fun _ => at_job name) (fun _ => at_job name).
Proof.
  intros Hh w Hw. unfold fs_remove_dir_all. destruct (next_event w) as [w1 o] eqn:E.
  assert (Hw1 : at_job name w1).
  { apply next_event_quiet in E; [by eapply (proj2 (at_job_steady name))|by apply (proj1 (at_job_steady name))]. }
  rewrite entry_at by done.
  assert (Hall : forall l, Forall (fun k => (job name ++ [s]) `prefix_of` k) l ->
            at_job name (with_disk w1 (delete_all l (fs_disk w1)))).
  { intros l Hl. eapply at_job_touch; [done| |by apply fair_inside]. apply touches_delete_all.
    eapply Forall_impl; [exact Hl|]. intros k Hk. by exists s. }
  pose proof (tree_below (job name ++ [s]) (fs_disk w1)) as Htree.
  destruct (node (fs_disk w1) _) as [[]|]; [by destruct o as [[? ? [] ?]|]| |by destruct o as [[? ? [] ?]|]..|done].
  destruct o as [[c mv [e|] n]|]; [|by apply Hall..]. apply Hall.
  apply Forall_take. rewrite Forall_forall in Htree |- *. intros k Hk.
  apply list_elem_of_In, filter_In in Hk as [Hk _]. by apply Htree, list_elem_of_In.
Qed.

(** The lock file is opened also when the lease is held. *)
Lemma open_at : triple (at_job name) (fs_open_or_create (of_key (job name ++ [LOCK])))
  (fun k w => k = job name ++ [LOCK] /\ at_job name w) (fun _ => at_job name).
Proof.
  apply triple_call; [apply at_job_steady| |done]. intros w d k Hw H.
  apply bind_Ok in H as (k' & Hk & H). cbn [open_entry MAX_LINKS] in Hk. rewrite entry_at in Hk by done. cbn in Hk.
  assert (Hl : forall t, node (fs_disk w) (job name ++ [LOCK]) <> Some (NLink t)).
  { intros t Ht. rewrite node_snoc in Ht. destruct (ba_kind _ (proj1 Hw) (job name ++ [LOCK])) as [E|[E|(? & ? & E)]];
      rewrite E in Ht; [by apply (Hlock name t Hover)|done|done]. }
  assert (E : k' = job name ++ [LOCK]).
  { destruct (node (fs_disk w) (job name ++ [LOCK])) as [[]|]; try by injection Hk. by destruct (Hl target). }
  subst k'. assert (Hsame : at_job name (with_disk w (fs_disk w))) by (by destruct w).
  destruct (node (fs_disk w) (job name ++ [LOCK])) as [[]|] eqn:Hn; simplify_eq; try done. split; [done|].
  assert (Ht : touches (fun k => k = job name ++ [LOCK]) (fs_disk w)
    (<[job name ++ [LOCK] := NFile [] (Z.land 438 (Z.lnot (fs_umask w)))]> (fs_disk w))) by (by apply touches_insert).
  split.
  - eapply base_touch; [apply Hw|exact Ht|]. intros k ->. exists name. split_and!; [done| |by right]. by apply prefix_app_r.
  - cbn. eapply chain_mono; [|apply Hw]. intros k' Hk'. rewrite lookup_insert_ne; [done|].
    intros <-. rewrite node_snoc in Hn. congruence.
Qed.

(** The same on the machine, with the locks it holds. *)
Definition working (h : list Key) (m : Machine) : Prop := at_job name (mc_fs m) /\ mc_held m = h.
Definition resting (h : list Key) (m : Machine) : Prop := base (mc_fs m) /\ mc_held m = h.

Lemma working_resting h m : working h m -> resting h m.
Proof. by intros [[Hb _] Hh]. Qed.

Lemma triple_held {A} (I : Fs -> Prop) h (x : M Fs string A) (Post : A -> Fs -> Prop) (Bad : Fs -> Prop) :
  triple I x Post (fun _ => Bad) ->
  triple (fun m => I (mc_fs m) /\ mc_held m = h) (on_fs x) (fun a m => Post a (mc_fs m) /\ mc_held m = h)
    (fun _ m => Bad (mc_fs m) /\ mc_held m = h).
Proof. intros H m [Hm Hh]. unfold on_fs. specialize (H _ Hm). by destruct (x (mc_fs m)) as [w [a|e]]. Qed.

Lemma working_call {A} h (x : M Fs string A) :
  triple (at_job name) x (fun _ => at_job name) (fun _ => at_job name) ->
  triple (working h) (on_fs x) (fun _ => working h) (fun _ => working h).
Proof. intros H. exact (triple_held (at_job name) h x (fun _ => at_job name) (at_job name) H). Qed.

Lemma triple_attempt {A} (I : Machine -> Prop) (x : Doing A) Bad :
  triple I x (fun _ => I) (fun _ => I) -> triple I (attempt x) (fun _ => I) Bad.
Proof. intros H m Hm. unfold attempt. specialize (H m Hm). by destruct (x m) as [m1 [a|e]]. Qed.

Lemma triple_ignore {A} (I K : Machine -> Prop) (x : Doing A) (Bad : string -> Machine -> Prop) :
  triple I x (fun _ => K) (fun _ => K) -> triple I (ignore x) (fun _ => K) Bad.
Proof. intros H m Hm. unfold ignore. specialize (H m Hm). by destruct (x m) as [m1 [a|e]]. Qed.

Hypothesis Hfree : (job name ++ [LOCK]) ∉ held.

Lemma removal_at h s (kind : Node) :
  triple (working h) (if is_node_dir kind then on_fs (fs_remove_dir_all (of_key (job name ++ [s])))
                      else on_fs (fs_remove_file (of_key (job name ++ [s]))))
    (fun _ => working h) (fun _ => working h).
Proof. destruct (is_node_dir kind); apply working_call; [by apply remove_dir_all_at|by apply remove_file_at]. Qed.

Lemma remove_payloads_at h names : forall failure,
  triple (working h) (remove_payloads (of_key (job name)) failure names) (fun _ => working h) (fun _ => working h).
Proof.
  induction names as [|s names IH]; intros failure; [by apply triple_ret|]. cbn [remove_payloads].
  destruct (is_payload s); [|apply IH]. rewrite path_push_of_key.
  apply (triple_bind _ _ _ (fun _ => working h)); [apply working_call, triple_at_look|intros kind].
  apply (triple_bind _ _ _ (fun _ => working h)); [|intros r; apply IH].
  apply triple_attempt, removal_at.
Qed.

Lemma remove_dir_at :
  triple (at_job name) (fs_remove_dir (of_key (job name))) (fun _ => base) (fun _ => base).
Proof.
  apply triple_call; [apply at_job_steady| |by intros w e [? _]]. intros w d u Hw H.
  apply bind_Ok in H as (k & Hk & H). rewrite entry_of_key in Hk by (eapply chain_prefix; [apply Hw|by apply prefix_app_r]).
  injection Hk as <-. destruct (node _ _) as [[]|]; try done. destruct (existsb _ _); [done|]. injection H as <- _.
  eapply (base_touch (fun k => k = job name)); [apply Hw|by apply touches_delete|].
  intros k ->. exists name. by split_and!; [| |left].
Qed.

Lemma remove_at h : triple (working h) (remove (of_key (job name))) (fun _ => resting h) (fun _ => resting h).
Proof.
  unfold remove. rewrite !path_push_of_key.
  assert (Hw : forall {A} (x : Doing A) (f : A -> Doing unit), triple (working h) x (fun _ => working h) (fun _ => working h) ->
    (forall a, triple (working h) (f a) (fun _ => resting h) (fun _ => resting h)) ->
    triple (working h) (x ≫= f) (fun _ => resting h) (fun _ => resting h)).
  { intros A x f Hx Hf. apply (triple_bind _ _ _ (fun _ => working h)); [|done].
    eapply triple_weaken; [exact Hx|done..|]. intros e m. apply working_resting. }
  apply Hw; [apply working_call, triple_at_look|intros names].
  apply Hw; [apply remove_payloads_at|intros [e|]]; [apply triple_throw, working_resting|].
  apply Hw; [apply working_call, triple_at_look|intros complete].
  apply Hw; [destruct complete; [by apply working_call, remove_file_at|by apply triple_ret]|intros _].
  apply Hw; [by apply working_call, remove_file_at|intros _].
  eapply triple_weaken; [exact (triple_held (at_job name) h _ (fun _ => base) base remove_dir_at)|done..].
Qed.

Lemma finish_at h : triple (working ((job name ++ [LOCK]) :: h)) (finish (of_key (job name)) (job name ++ [LOCK]))
  (fun _ m => base (mc_fs m) /\ mc_held m = List.filter (fun k' => negb (bool_decide (k' = job name ++ [LOCK]))) h)
  (fun _ _ => False).
Proof.
  intros m Hm. unfold finish, guarded. rewrite path_push_of_key.
  set (h' := (job name ++ [LOCK]) :: h) in *.
  assert (H : triple (working h') (_ ← ignore (on_fs (fs_create_new (of_key (job name ++ [COMPLETE]))));
      ignore (remove (of_key (job name)))) (fun _ => resting h') (fun _ _ => False)).
  { apply (triple_bind _ _ _ (fun _ => working h')); [by apply triple_ignore, working_call, create_at|].
    intros _. apply triple_ignore, remove_at. }
  specialize (H m Hm). destruct ((_ ← ignore _; ignore _) m) as [m1 [[]|e]]; [|done].
  destruct H as [Hb Hh]. cbn. rewrite Hh. subst h'. cbn. by rewrite bool_decide_true.
Qed.
End Job.

(** ** One entry *)

Lemma file_name_of_key k s : file_name (of_key (k ++ [s])) = Some s.
Proof. unfold file_name. by rewrite of_key_snoc, last_snoc. Qed.

Lemma at_job_dir name w : base w -> link_metadata w (of_key (job name)) = Ok NDir ->
  at_job name w /\ d0 !! job name = Some NDir.
Proof.
  intros Hb H. unfold link_metadata in H. rewrite entry_of_key in H by apply Hb. cbn in H.
  apply ok_or_Ok in H. split.
  - split; [done|]. by apply chain_snoc; [apply Hb|].
  - rewrite node_snoc in H. destruct (ba_kind _ Hb (job name)) as [E|[E|(? & ? & E)]]; congruence.
Qed.

Lemma complete_over name w :
  at_job name w -> pending name = true -> d0 !! job name = Some NDir ->
  (match path_node w (of_key (job name ++ [COMPLETE])) with Some (NFile _ _) => true | _ => false end) = true ->
  over name.
Proof.
  intros [Hb Hc] Hp Hd H.
  assert (Hn : is_Some (fs_disk w !! (job name ++ [COMPLETE]))).
  { unfold path_node, resolve in H. rewrite of_key_snoc in H.
    change (start w (of_key (job name ++ [COMPLETE]))) with (@nil string) in H.
    rewrite (walk_through _ _ _ [] (job name)) in H by done. cbn [app] in H.
    rewrite <- node_snoc. unfold MAX_LINKS in H. cbn in H. by destruct (node (fs_disk w) (job name ++ [COMPLETE])). }
  destruct (ba_fair _ Hb (job name ++ [COMPLETE])) as [E|(name' & Ho & Hpre & _)].
  - split_and!; [done..|right; by rewrite <- E].
  - rewrite (job_inj name name' (job name ++ [COMPLETE])); [done|by apply prefix_app_r|done].
Qed.

(** The lease of a directory. *)
Lemma lock_at name : over name ->
  triple (fun m => at_job name (mc_fs m) /\ mc_held m = held) (lock (of_key (job name)))
    (fun k m => k = job name ++ [LOCK] /\ k ∉ held /\ at_job name (mc_fs m) /\ mc_held m = k :: held)
    (fun _ m => base (mc_fs m) /\ mc_held m = held).
Proof.
  intros Ho. unfold lock. rewrite file_name_of_key. rewrite (proj1 Ho), path_push_of_key.
  assert (Hw : forall {A B} (x : Doing A) (f : A -> Doing B) Mid Post,
    triple (working name held) x Mid (fun _ => working name held) ->
    (forall a, triple (Mid a) (f a) Post (fun _ => resting held)) ->
    triple (working name held) (x ≫= f) Post (fun _ => resting held)).
  { intros A B x f Mid Post Hx Hf. apply (triple_bind _ _ _ Mid); [|done].
    eapply triple_weaken; [exact Hx|done..|]. intros e m. apply working_resting. }
  apply (Hw _ _ _ _ (fun _ => working name held)); [apply working_call, triple_at_look|intros kind].
  apply (Hw _ _ _ _ (fun _ => working name held)); [destruct (is_node_dir kind); [by apply triple_ret|by apply triple_throw]|intros _].
  apply (Hw _ _ _ _ (fun k m => (k = job name ++ [LOCK] /\ at_job name (mc_fs m)) /\ mc_held m = held)).
  { exact (triple_held (at_job name) held _ (fun k w => k = job name ++ [LOCK] /\ at_job name w) (at_job name) (open_at name Ho)). }
  intros k m [[-> Hm] Hh]. rewrite M_bind_run. unfold context, try_lock. rewrite Hh.
  case_bool_decide as Hin; [split; [apply Hm|done]|].
  assert (Hc : triple (working name held) (on_fs (call (fun w => Ok (fs_disk w, tt)))) (fun _ => working name held) (fun _ => working name held)).
  { apply working_call, triple_call; [apply at_job_steady| |done]. intros w d a Hw' [= <- _]. by destruct w. }
  specialize (Hc m (conj Hm Hh)). destruct (on_fs _ m) as [m1 [u|e]]; [|by apply (working_resting name)].
  destruct Hc as [Hm1 Hh1]. cbn. split_and!; [done..|by rewrite Hh1].
Qed.

(** The lease of a job that is over is taken, and its files removed. *)
Lemma take_at name : over name ->
  triple (working name held)
    (lease ← attempt (lock (of_key (job name)));
     match lease with Ok lease => finish (of_key (job name)) lease | Err _ => mret tt end)
    (fun _ => resting held) (fun _ _ => False).
Proof.
  intros Ho m Hm. rewrite M_bind_run. unfold attempt. pose proof (lock_at name Ho m Hm) as H.
  destruct (lock (of_key (job name)) m) as [m1 [k|e]]; [|done]. destruct H as (-> & Hk & Hj & Hh).
  pose proof (finish_at name Ho Hk held m1 (conj Hj Hh)) as F.
  destruct (finish _ _ m1) as [m2 [[]|e]]; [|done]. destruct F as [Hb F]. rewrite filter_other in F by done. done.
Qed.

(** A directory is taken when it is old or complete. *)
Lemma judge_at name : pending name = true -> d0 !! job name = Some NDir ->
  triple (working name held)
    (age ← attempt (k ← on_fs (look (fun w => entry w (of_key (job name)))); n ← tick; mret (modified n k));
     let expired := is_expired now (match age with Ok t => t | Err _ => None end) in
     complete ← (if expired : bool then mret true else is_file (of_key (job name ++ [COMPLETE])));
     if negb complete then mret tt else
     lease ← attempt (lock (of_key (job name)));
     match lease with Ok lease => finish (of_key (job name)) lease | Err _ => mret tt end)
    (fun _ => resting held) (fun _ _ => False).
Proof.
  intros Hp Hd. apply (triple_bind _ _ _ (fun age m => working name held m /\
    (is_expired now (match age with Ok t => t | Err _ => None end) = true -> over name))).
  { intros m Hm. unfold attempt. rewrite M_bind_run.
    assert (H : triple (working name held) (on_fs (look (fun w => entry w (of_key (job name)))))
      (fun k m => (k = job name /\ at_job name (mc_fs m)) /\ mc_held m = held) (fun _ => working name held)).
    { apply (triple_held (at_job name) held _ (fun k w => k = job name /\ at_job name w) (at_job name)).
      apply triple_look; [apply at_job_steady| |done]. intros w k Hw He.
      rewrite entry_of_key in He by apply Hw. by injection He as <-. }
    specialize (H m Hm). destruct (on_fs _ m) as [m1 [k|e]]; [|by split].
    destruct H as [[-> Hj] Hh]. cbn. split; [by split|]. intros He.
    split_and!; [done..|left; by exists (mc_ticks m1)]. }
  intros age. cbv zeta. destruct (is_expired now _) eqn:Hx.
  - intros m [Hm Ho]. cbn [negb]. rewrite M_bind_run. cbn [mret M_ret negb]. by apply take_at; [apply Ho|].
  - intros m [Hm _]. rewrite M_bind_run. unfold is_file.
    assert (H : triple (working name held) (on_fs (look (fun w => Ok match path_node w (of_key (job name ++ [COMPLETE])) with
        Some (NFile _ _) => true | _ => false end)))
      (fun b m => (at_job name (mc_fs m) /\ (b = true -> over name)) /\ mc_held m = held) (fun _ => working name held)).
    { apply (triple_held (at_job name) held _ (fun b w => at_job name w /\ (b = true -> over name)) (at_job name)).
      apply triple_look; [apply at_job_steady| |done]. intros w b Hw [= <-]. split; [done|]. by eapply complete_over. }
    specialize (H m Hm). destruct (on_fs _ m) as [m1 [[]|e]].
    + destruct H as [[Hj Ho] Hh]. cbn [negb]. by apply take_at; [apply Ho|split].
    + destruct H as [[Hj Ho] Hh]. by apply (working_resting name).
    + by apply (working_resting name).
Qed.

Lemma prune_entry_at name :
  triple (resting held) (prune_entry (of_key root) now name) (fun _ => resting held) (fun _ _ => False).
Proof.
  intros m Hm. unfold prune_entry. destruct (pending name) eqn:Hp; [|done]. cbn [negb].
  rewrite !path_push_of_key. rewrite M_bind_run. unfold attempt at 1.
  assert (H1 : triple (resting held) (on_fs (look (fun w => link_metadata w (of_key (job name)))))
    (fun n m => (link_metadata (mc_fs m) (of_key (job name)) = Ok n /\ base (mc_fs m)) /\ mc_held m = held) (fun _ => resting held)).
  { apply (triple_held base held _ (fun n w => link_metadata w (of_key (job name)) = Ok n /\ base w) base).
    apply triple_look; [apply base_steady|done|done]. }
  specialize (H1 m Hm). destruct (on_fs _ m) as [m1 [n|e]]; [|done]. destruct H1 as [[Hl Hb] Hh].
  destruct (negb _) eqn:Hk; [by split|]. assert (n = NDir) as -> by (by destruct n).
  destruct (at_job_dir name _ Hb Hl) as [Hj Hd]. by apply judge_at.
Qed.

Lemma prune_at_keeps :
  triple (resting held) (prune_at (of_key root) now) (fun _ => resting held) (fun _ _ => False).
Proof.
  unfold prune_at. apply (triple_bind _ _ _ (fun _ => resting held)).
  { apply triple_attempt. apply (triple_held base held _ (fun _ => base) base).
    by apply triple_look; [apply base_steady|..]. }
  intros [names|e]; [|by apply triple_ret]. apply triple_iter. intros name _. apply prune_entry_at.
Qed.
End Prune.

(** Pruning spares what is not over: whichever calls fail, everything that changes in the
    cache lies in a real directory named [pending-..], never behind a link, that is a week
    old or has a completion marker, and whose lease this process does not hold (but for the
    lock file itself); every lease it takes is given back, and it never fails. *)
Theorem live_jobs_are_spared `{W : World} root now m m' r :
  quiet (mc_fs m) -> chain (fs_disk (mc_fs m)) root ->
  (forall name target, over root now (fs_disk (mc_fs m)) name ->
     fs_disk (mc_fs m) !! ((root ++ [name]) ++ [LOCK]) <> Some (NLink target)) ->
  prune_at (of_key root) now m = (m', r) ->
  r = Ok tt /\ mc_held m' = mc_held m /\
  forall k, fs_disk (mc_fs m') !! k <> fs_disk (mc_fs m) !! k ->
    fair root now (fs_disk (mc_fs m)) (mc_held m) k.
Proof.
  intros Hq Hc Hl H.
  pose proof (prune_at_keeps root now (fs_disk (mc_fs m)) (mc_held m) Hl m) as P.
  rewrite H in P. assert (Hb : base root now (fs_disk (mc_fs m)) (mc_held m) (mc_fs m)).
  { constructor; [done|done|by left|by left]. }
  specialize (P (conj Hb eq_refl)). destruct r as [[]|e]; [|done]. destruct P as [Hb' Hh].
  split_and!; [done|done|]. intros k Hk. by destruct (ba_fair _ _ _ _ _ Hb' k).
Qed.

(** ** An example *)

(** The staged job is complete, and another has just begun. *)
Definition prune_disk : Disk :=
  <[staged_dir ++ [COMPLETE] := NFile [] 420]>
    (<[cache_dir ++ ["pending-2"] := NDir]> (<[cache_dir ++ ["pending-2"; "update"] := NFile payload 420]> update_disk)).
Definition prune_machine : Machine :=
  mc_with_fs (update_machine [quiet_event]) (with_disk (update_fs [quiet_event]) prune_disk).

#[local] Existing Instance sample_world.

(** The complete one goes, the other stays: it is not fair to take it. *)
Lemma live_jobs_are_spared_witness :
  let m' := (prune_at (of_key cache_dir) 0 prune_machine).1 in
  fs_disk (mc_fs m') !! staged_dir = None /\
  forall k, fs_disk (mc_fs m') !! k <> prune_disk !! k -> fair cache_dir 0 prune_disk [] k.
Proof.
  cbv zeta. split; [by vm_compute|].
  apply (live_jobs_are_spared cache_dir 0 prune_machine _ (prune_at (of_key cache_dir) 0 prune_machine).2).
  - by repeat constructor.
  - apply all_dirs_chain. by vm_compute.
  - intros name target _ H. assert (Hn : no_links_below cache_dir prune_disk = true) by (by vm_compute).
    apply (no_links_below_spec _ _ _ _ Hn H). rewrite <- app_assoc. by apply prefix_app_r.
  - by destruct (prune_at (of_key cache_dir) 0 prune_machine).
Defined.
