(* ===== verification/DownloadTheorems.v ===== *)
(** What a download may do: its file, its one request and its reports are bounded. *)

From stdpp Require Import base gmap strings list sorting.
From Stdlib Require Import ZArith NArith Lia ZifyBool ZifyN ZifyNat.
From S2P Require Import Prelude RustStr Json Paths Accounting Lease Release Disk Workspace WorkspaceEdits Machine Download Installation SelfUpdate SelfUpdateProofs.

Local Open Scope Z_scope.

(** ** Bounds *)

Lemma sorted_bounded (l : list Z) a b :
  StronglySorted Z.lt l -> Forall (fun x => a <= x <= b) l -> Z.of_nat (length l) <= Z.max 0 (b - a + 1).
Proof.
  revert a. induction l as [|x l IH]; intros a Hs Hf; [cbn; lia|].
  apply StronglySorted_inv in Hs as [Hs Hx]. apply Forall_cons in Hf as [Hx' Hf].
  assert (H : Forall (fun y => x + 1 <= y <= b) l).
  { rewrite Forall_forall in *. intros y Hy. specialize (Hx y Hy). specialize (Hf y Hy). lia. }
  specialize (IH (x + 1) Hs H). cbn [length]. lia.
Qed.

Section Bounds.
Context `{W : World} `{KD : KeyDigest}.
Variables (report : Z -> Z -> Act) (total : Z) (k : Key).
Hypothesis Htotal : 0 < total <= MAX_ARTIFACT_BYTES.

Definition percent (received : Z) : Z := received * 100 / total.

(** The file has what was received, or less when the last write failed. *)
Record downloading (d0 : Disk) (received : Z) (w : Fs) : Prop := {
  dl_quiet : quiet w;
  dl_file : exists data mode, fs_disk w = <[k := NFile data mode]> d0 /\ Z.of_nat (length data) <= received
}.

Lemma percent_le a b : 0 <= a -> a <= b -> percent a <= percent b.
Proof. intros Ha Hab. apply Z.div_le_mono; lia. Qed.

Lemma percent_range n : 0 <= n <= total -> 0 <= percent n <= 100.
Proof.
  intros H. split; [apply Z.div_pos; lia|]. apply Z.div_le_upper_bound; lia.
Qed.

Lemma write_all_cases chunk d0 received w w' r :
  downloading d0 received w -> fs_write_all k chunk w = (w', r) ->
  downloading d0 (received + Z.of_nat (length chunk)) w'.
Proof.
  intros [Hq (data & mode & Hd & Hl)] H. unfold fs_write_all in H.
  destruct (next_event w) as [w1 o] eqn:E. apply next_event_quiet in E; [|done].
  pose proof (same_disk _ _ E) as Hd1. pose proof (same_quiet _ _ E Hq) as Hq1.
  assert (G : forall part, (length part <= length chunk)%nat ->
    downloading d0 (received + Z.of_nat (length chunk)) (with_disk w1 (append_to k part (fs_disk w1)))).
  { intros part Hp. constructor; [done|]. cbn. exists (data ++ part), mode. unfold append_to.
    rewrite Hd1, Hd, lookup_insert_eq, insert_insert_eq, length_app. split; [done|lia]. }
  destruct o as [[c mv [e|] n]|]; injection H as <- <-; apply G; [rewrite length_take; lia|lia..].
Qed.

(** The reports of a download: growing percentages. *)
Definition reports (last : Z) (l : list Z) : Prop :=
  StronglySorted Z.lt (percent <$> l) /\ Forall (fun n => 0 <= n <= total /\ (last = 101 \/ last < percent n)) l.

Lemma reports_cons last n l :
  0 <= n <= total -> last = 101 \/ last < percent n -> reports (percent n) l -> reports last (n :: l).
Proof.
  intros Hn Hl [Hs Hf]. assert (Hp : percent n <= 100) by (apply percent_range; lia).
  rewrite Forall_forall in Hf. split; cbn.
  - constructor; [done|]. apply Forall_forall. intros p Hp'. apply list_elem_of_fmap in Hp' as (n' & -> & Hn').
    destruct (Hf _ Hn') as [_ [|]]; lia.
  - constructor; [done|]. apply Forall_forall. intros n' Hn'. destruct (Hf _ Hn') as [? [|]]; split; lia.
Qed.

Lemma write_chunks_bounded chunks : forall d0 received last m m' r,
  0 <= received <= total -> last = 101 \/ last = percent received ->
  downloading d0 received (mc_fs m) ->
  write_chunks (fun n t => act (report n t)) k total received last chunks m = (m', r) ->
  downloading d0 total (mc_fs m') /\
  exists l, mc_acts m' = mc_acts m ++ ((fun n => report n total) <$> l) /\ reports last l.
Proof.
  assert (Hnil : forall d0 received last m, 0 <= received <= total -> downloading d0 received (mc_fs m) ->
    downloading d0 total (mc_fs m) /\ exists l, mc_acts m = mc_acts m ++ ((fun n => report n total) <$> l) /\ reports last l).
  { intros d0 received last m Hr [Hq (data & mode & Hd & Hl)]. split.
    - constructor; [done|]. exists data, mode. split; [done|lia].
    - exists []. split; [by rewrite app_nil_r|split; constructor]. }
  induction chunks as [|[chunk|] chunks IH]; intros d0 received last m m' r Hr Hlast Hm H.
  1: injection H as <- <-; by eapply Hnil.
  2: injection H as <- <-; by eapply Hnil.
  cbn [write_chunks] in H. set (received' := received + Z.of_nat (length chunk)) in *.
  rewrite M_bind_run in H. unfold ensure in H. destruct (received' <=? total) eqn:Hle;
    [|injection H as <- <-; by eapply Hnil].
  cbn [mret M_ret] in H. rewrite M_bind_run in H. unfold on_fs in H.
  destruct (fs_write_all k chunk (mc_fs m)) as [w1 r1] eqn:E.
  apply (write_all_cases chunk d0 received) in E; [|done]. fold received' in E.
  assert (Hr' : 0 <= received' <= total) by lia.
  destruct r1 as [u|e]; [|injection H as <- <-; by eapply (Hnil d0 received' last (mc_with_fs m w1))].
  rewrite M_bind_run in H. fold (percent received') in H.
  destruct (percent received' =? last) eqn:Hp.
  - apply Z.eqb_eq in Hp. cbn [mret M_ret] in H. apply (IH d0) in H; [|done|by right|done].
    rewrite Hp in H. exact H.
  - apply Z.eqb_neq in Hp. unfold act, modify in H. apply (IH d0) in H; [|done|by right|done].
    destruct H as [Hd (l & Hl & Hrep)]. split; [done|]. exists (received' :: l). split.
    + rewrite Hl. cbn. by rewrite <- app_assoc.
    + apply reports_cons; [done| |done]. destruct Hlast as [->| ->]; [by left|right].
      pose proof (percent_le received received'). lia.
Qed.
End Bounds.

Section Whole.
Context `{W : World} `{KD : KeyDigest}.

(** What a download may have done when it began on the disk [d0] after the acts [before]. *)
Record bounded (d0 : Disk) (before : list Act) (file : Artifact) (k : Key) (report : Z -> Z -> Act) (m : Machine) : Prop := {
  bo_others : forall k', k' <> k -> fs_disk (mc_fs m) !! k' = d0 !! k';
  bo_file : forall n, fs_disk (mc_fs m) !! k = Some n ->
    exists data mode, n = NFile data mode /\ Z.of_nat (length data) <= a_bytes file;
  bo_acts : exists l, mc_acts m = before ++ Requested (a_url file) :: ((fun n => report n (a_bytes file)) <$> l) /\
    (length l <= 101)%nat /\ StronglySorted Z.lt (percent (a_bytes file) <$> l) /\
    Forall (fun n => 0 <= n <= a_bytes file /\ n * 100 <= U64_MAX) l
}.

Lemma bounded_idle d0 before file k report m :
  fs_disk (mc_fs m) = d0 -> d0 !! k = None -> mc_acts m = before ++ [Requested (a_url file)] ->
  bounded d0 before file k report m.
Proof.
  intros Hd Hk Ha. constructor; [by rewrite Hd|by rewrite Hd, Hk|]. exists []. split_and!; [done|cbn; lia|constructor..].
Qed.

Lemma bounded_written d0 before file k report m l :
  0 < a_bytes file <= MAX_ARTIFACT_BYTES ->
  downloading k d0 (a_bytes file) (mc_fs m) ->
  mc_acts m = (before ++ [Requested (a_url file)]) ++ ((fun n => report n (a_bytes file)) <$> l) ->
  reports (a_bytes file) 101 l -> bounded d0 before file k report m.
Proof.
  intros Hb [_ (data & mode & Hd & Hl)] Ha [Hs Hf]. constructor.
  - intros k' Hk'. by rewrite Hd, lookup_insert_ne.
  - intros n. rewrite Hd, lookup_insert_eq. intros [= <-]. by exists data, mode.
  - exists l. split_and!; [by rewrite Ha, <- app_assoc| |done|].
    + pose proof (sorted_bounded (percent (a_bytes file) <$> l) 0 100 Hs) as H. rewrite length_fmap in H.
      apply Nat2Z.inj_le. etransitivity; [apply H|done]. apply Forall_fmap. eapply Forall_impl; [exact Hf|].
      intros n [Hn _]. by apply percent_range.
    + eapply Forall_impl; [exact Hf|]. intros n [Hn _]. split; [done|]. unfold MAX_ARTIFACT_BYTES, U64_MAX in *. lia.
Qed.

Lemma downloading_steady k d0 total : steady (downloading k d0 total).
Proof.
  split; [by intros w []|]. intros w w' [Hq (data & mode & Hd & Hl)] Hs. constructor; [by apply Hs|].
  exists data, mode. by rewrite (same_disk _ _ Hs).
Qed.

(** Reading and flushing change nothing. *)
Lemma finish_download k d0 total acts p file :
  triple (fun m => downloading k d0 total (mc_fs m) /\ mc_acts m = acts)
    (_ ← on_fs (fs_sync_all k); verify_file p file)
    (fun _ m => downloading k d0 total (mc_fs m) /\ mc_acts m = acts)
    (fun _ m => downloading k d0 total (mc_fs m) /\ mc_acts m = acts).
Proof.
  assert (Hw : forall {A} (x : M Fs string A), triple (downloading k d0 total) x (fun _ => downloading k d0 total) (fun _ => downloading k d0 total) ->
    triple (fun m => downloading k d0 total (mc_fs m) /\ mc_acts m = acts) (on_fs x)
      (fun _ m => downloading k d0 total (mc_fs m) /\ mc_acts m = acts)
      (fun _ m => downloading k d0 total (mc_fs m) /\ mc_acts m = acts)).
  { intros A x Hx m [Hm Ha]. unfold on_fs. specialize (Hx _ Hm). by destruct (x (mc_fs m)) as [w [a|e]]. }
  set (I := fun m => downloading k d0 total (mc_fs m) /\ mc_acts m = acts) in *.
  apply (triple_bind I _ _ (fun _ => I)).
  { apply Hw, triple_call; [apply downloading_steady| |done]. intros w d a H [= <- _]. by destruct w. }
  intros _. apply (triple_bind I _ _ (fun _ => I)); [by apply Hw, triple_look; [apply downloading_steady|..]|].
  intros n. apply (triple_bind I _ _ (fun _ => I)).
  - destruct n; try by apply triple_throw. destruct (_ =? _); [by apply triple_ret|by apply triple_throw].
  - intros data m Hm. unfold ensure. by destruct (bool_decide _).
Qed.

(** C19: A download never takes more than it was promised: for an artifact of a parsed release,
    whatever the server sends and whichever write fails, the file at the destination never
    has more bytes than the release states, no other file changes, the server is asked once,
    at the address of the release, and progress is reported at most 101 times, with growing
    percentages computed within 64 bits; and a download that succeeds leaves exactly the
    bytes of the stated length and SHA-256. *)
Theorem downloads_are_bounded file dk name report m m' r :
  0 < a_bytes file <= MAX_ARTIFACT_BYTES ->
  quiet (mc_fs m) -> chain (fs_disk (mc_fs m)) dk -> fs_disk (mc_fs m) !! (dk ++ [name]) = None ->
  download_verified file (of_key (dk ++ [name])) (fun n t => act (report n t)) m = (m', r) ->
  (r = Ok tt -> exact_at (mc_fs m') (of_key (dk ++ [name])) file) /\
  (forall k, k <> dk ++ [name] -> fs_disk (mc_fs m') !! k = fs_disk (mc_fs m) !! k) /\
  (forall n, fs_disk (mc_fs m') !! (dk ++ [name]) = Some n ->
     exists data mode, n = NFile data mode /\ Z.of_nat (length data) <= a_bytes file) /\
  exists l, mc_acts m' = mc_acts m ++ Requested (a_url file) :: ((fun n => report n (a_bytes file)) <$> l) /\
    (length l <= 101)%nat /\ StronglySorted Z.lt (percent (a_bytes file) <$> l) /\
    Forall (fun n => 0 <= n <= a_bytes file /\ n * 100 <= U64_MAX) l.
Proof.
  intros Hb Hq Hc Hn H. unfold download_verified in H. set (k := dk ++ [name]) in *.
  assert (G : bounded (fs_disk (mc_fs m)) (mc_acts m) file k report m' /\ (r = Ok tt -> exact_at (mc_fs m') (of_key k) file));
    [|destruct G as [[] ?]; by split_and!].
  rewrite M_bind_run in H. destruct (request (a_url file) m) as [m1 r1] eqn:E1. injection E1 as <- <-.
  set (m1 := mc_with_act _ _) in H.
  assert (Hidle : bounded (fs_disk (mc_fs m)) (mc_acts m) file k report m1) by (by apply bounded_idle).
  destruct (answer (mc_ticks m)) as [status content_length chunks|e]; [|by injection H as <- <-].
  rewrite M_bind_run in H. unfold ensure in H. destruct (_ && _); [|by injection H as <- <-].
  cbn [mret M_ret] in H. rewrite M_bind_run in H. unfold on_fs at 1 in H.
  destruct (fs_create_new (of_key k) (mc_fs m1)) as [w2 r2] eqn:E2.
  apply call_cases in E2 as (w3 & Hs & [(e & -> & ->)|(d & k' & Hf & -> & ->)]); [| |exact Hq].
  { injection H as <- <-. split; [|done]. apply bounded_idle; [apply Hs|done|done]. }
  apply bind_Ok in Hf as (k2 & Hk & Hf). rewrite (entry_same _ _ _ Hs) in Hk.
  unfold k in Hk. rewrite entry_of_key in Hk by exact Hc. injection Hk as <-. fold k in Hf.
  assert (Hd3 : fs_disk w3 = fs_disk (mc_fs m)) by apply Hs.
  destruct (node (fs_disk w3) k); [done|]. injection Hf as <- <-. rewrite Hd3 in H.
  rewrite M_bind_run in H.
  set (m3 := mc_with_fs m1 _) in H. destruct (write_chunks _ k (a_bytes file) 0 101 chunks m3) as [m4 r4] eqn:E4.
  apply (write_chunks_bounded report (a_bytes file) k Hb chunks (fs_disk (mc_fs m))) in E4 as (Hd4 & l & Hl & Hrep);
    [|lia|by left|].
  2: { constructor; [by apply Hs|]. eexists [], _. split; [reflexivity|cbn; lia]. }
  assert (H4 : bounded (fs_disk (mc_fs m)) (mc_acts m) file k report m4) by (by eapply bounded_written).
  destruct r4 as [[]|e]; [|by injection H as <- <-].
  pose proof (finish_download k _ _ _ (of_key k) file m4 (conj Hd4 eq_refl)) as F. rewrite H in F. split.
  - destruct r as [[]|e]; destruct F as [Hd5 Ha5]; (eapply bounded_written; [done|done|by rewrite Ha5|done]).
  - intros ->. apply M_bind_Ok in H as (m5 & u & _ & H). by apply verify_file_Ok in H.
Qed.
End Whole.

#[local] Existing Instances sample_world sample_digest.

Definition sample_download : Machine * result string unit :=
  download_verified cli_artifact (of_key (staged_dir ++ ["again"])) (fun n t => act (Printed (VNumber (PosInt n))))
    (update_machine [quiet_event]).

(** Three bytes arrive in two chunks. *)
Lemma downloads_are_bounded_witness :
  sample_download.2 = Ok tt /\
  exact_at (mc_fs sample_download.1) (of_key (staged_dir ++ ["again"])) cli_artifact.
Proof.
  assert (He : sample_download.2 = Ok tt) by (vm_compute; reflexivity). split; [exact He|].
  destruct (downloads_are_bounded cli_artifact staged_dir "again" (fun n t => Printed (VNumber (PosInt n)))
    (update_machine [quiet_event]) sample_download.1 sample_download.2) as [R _].
  - change (0 < 3 <= MAX_ARTIFACT_BYTES). unfold MAX_ARTIFACT_BYTES. lia.
  - by repeat constructor.
  - apply all_dirs_chain. by vm_compute.
  - by vm_compute.
  - unfold sample_download. by destruct (download_verified _ _ _ _).
  - exact (R He).
Defined.
