(* ===== verification/AuthChecks.v ===== *)
(** What the client accepts of the authentication service and of the browser
    (apps/axiomcli/src/auth.rs): tokens, accounts, sessions, authorizations, service
    addresses, and the callback on the loopback interface. *)

From stdpp Require Import base gmap strings list.
From Stdlib Require Import ZArith NArith Lia ZifyBool ZifyN ZifyNat.
From S2P Require Import Prelude RustStr Json Inference AppError.

Local Open Scope Z_scope.

Definition MAX_TOKEN_BYTES : Z := 8 * 1024.
Definition MAX_HTTP_REQUEST_BYTES : Z := 16 * 1024.

Inductive CredentialSource : Type := FromEnvironment | SystemKeyring | LocalDevelopmentFile.
#[export] Instance CredentialSource_eq_dec : EqDecision CredentialSource.
Proof. solve_decision. Defined.
Inductive LoginMethod : Type := Passkey | Google | Password | EthereumWallet.
#[export] Instance LoginMethod_eq_dec : EqDecision LoginMethod.
Proof. solve_decision. Defined.

Record AccountProfile : Type := {
  ap_id : string; ap_display_name : option string; ap_avatar_url : option string;
  ap_verified_email : option string; ap_linked_methods : list LoginMethod
}.
Record NativeSessionStatus : Type := { ns_id : option string; ns_expires_at : string }.

(** What the server sends. *)
Record SessionBundle : Type := {
  bn_access_token : string; bn_access_expires_at : Z; bn_refresh_token : string;
  bn_account : AccountProfile; bn_session : NativeSessionStatus
}.
Record TokenResponse : Type := {
  tr_token_type : string; tr_access_token : string; tr_access_expires_at : string;
  tr_refresh_token : string; tr_refresh_expires_at : string;
  tr_account : AccountProfile; tr_session : NativeSessionStatus
}.
Record ExchangeResponse : Type := {
  er_status : string; er_token_type : option string; er_access_token : option string;
  er_access_expires_at : option string; er_refresh_token : option string;
  er_refresh_expires_at : option string; er_account : option AccountProfile;
  er_session : option NativeSessionStatus
}.
Record CreatedAuthorization : Type := {
  ca_id : string; ca_device_code : string; ca_user_code : string; ca_state : string;
  ca_authorization_url : string; ca_callback_uri : string; ca_expires_at : string;
  ca_interval_seconds : Z
}.

(** chrono, in nanoseconds since the epoch. *)
Class AuthClock : Type := { parse_time : string -> option Z; show_time : Z -> string }.

(** More of [url::Url]. *)
Class UrlParts `{UrlLib} : Type := {
  url_path : Url -> string;
  query_pairs : Url -> list (string * string);
  url_query : Url -> option string;
  url_fragment : Url -> option string;
  ascii_origin : Url -> string;      (** [origin().ascii_serialization()] *)
  origin_eq : Url -> Url -> bool     (** equality of [origin()]s *)
}.

Definition protocol {A} (s : string) : result AxiomError A := Err (ProtocolError s).

(** ** Shapes *)

(** [u8::is_ascii_graphic]. *)
Definition is_ascii_graphic (c : N) : bool := (33 <=? c)%N && (c <=? 126)%N.
Definition is_id_byte (c : N) : bool := is_ascii_alphanumeric c || (c =? 95)%N || (c =? 45)%N.

Definition validate_api_key_shape (value : string) : result AxiomError unit :=
  if negb (starts_with "axm_" value) || negb ((16 <=? len value) && (len value <=? MAX_TOKEN_BYTES))
     || negb (forallb is_ascii_graphic (bytes value))
  then Err (ConfigError "invalid AXIOM_API_KEY automation credential") else Ok tt.

Definition validate_token_shape (value label : string) : result AxiomError unit :=
  if negb ((32 <=? len value) && (len value <=? MAX_TOKEN_BYTES))
     || negb (forallb is_ascii_graphic (bytes value))
  then protocol ("Axiom returned an invalid " +:+ label) else Ok tt.

Definition id_shape (id : string) : bool :=
  negb (is_empty id) && (len id <=? 128) && forallb is_id_byte (bytes id).

Section Checks.
Context {U : UrlLib} {UP : UrlParts} {AC : AuthClock}.

Definition loopback_http (url : Url) : bool :=
  bool_decide (scheme url = "http")
  && bool_decide (host_str url ∈ [Some "127.0.0.1"; Some "localhost"; Some "::1"]).

Definition with_credentials (url : Url) : bool :=
  negb (is_empty (username url)) || (if password url then true else false).

Definition validate_avatar (avatar_url : string) : result AxiomError unit :=
  url ← map_err (fun _ => ProtocolError "Axiom returned an invalid avatar URL") (url_parse avatar_url);
  if (2048 <? len avatar_url)
     || (negb (bool_decide (scheme url = "https")) && negb (loopback_http url))
     || bool_decide (host_str url = None) || with_credentials url
  then protocol "Axiom returned an untrusted avatar URL" else Ok tt.

Definition metadata_bad (value : string) : bool := (320 <? len value) || existsb is_control (chars value).

Definition validate_account (a : AccountProfile) : result AxiomError unit :=
  if negb (id_shape (ap_id a)) || (16 <? Z.of_nat (length (ap_linked_methods a)))
  then protocol "Axiom returned an invalid account profile"
  else if existsb metadata_bad (omap id [ap_display_name a; ap_verified_email a])
  then protocol "Axiom returned invalid account metadata"
  else if_some (ap_avatar_url a) validate_avatar.

Definition validate_native_session (now : Z) (s : NativeSessionStatus) : result AxiomError unit :=
  if match ns_id s with Some id => negb (id_shape id) | None => false end
  then protocol "Axiom returned an invalid session identifier" else
  expires_at ← ok_or (parse_time (ns_expires_at s)) (ProtocolError "Axiom returned invalid session expiry metadata");
  if expires_at <=? now then protocol "Axiom returned an expired native session" else Ok tt.

Definition validate_bundle (now : Z) (b : SessionBundle) : result AxiomError unit :=
  _ ← validate_token_shape (bn_access_token b) "access token";
  _ ← validate_token_shape (bn_refresh_token b) "refresh token";
  _ ← validate_account (bn_account b);
  _ ← validate_native_session now (bn_session b);
  if bn_access_expires_at b <=? now then protocol "Axiom returned invalid session expiry metadata" else Ok tt.

(** ** Bundles *)

Definition session_bundle (t : TokenResponse) : option SessionBundle :=
  refresh_expires_at ← parse_time (tr_refresh_expires_at t);
  session_expires_at ← parse_time (ns_expires_at (tr_session t));
  if negb (bool_decide (to_ascii_lowercase (tr_token_type t) = "bearer"))
     || negb (refresh_expires_at =? session_expires_at)
  then None else
  access_expires_at ← parse_time (tr_access_expires_at t);
  Some {| bn_access_token := tr_access_token t; bn_access_expires_at := access_expires_at;
          bn_refresh_token := tr_refresh_token t; bn_account := tr_account t; bn_session := tr_session t |}.

Definition exchange_bundle (e : ExchangeResponse) : option SessionBundle :=
  token_type ← er_token_type e;
  access_expires_at ← er_access_expires_at e;
  refresh_expires_at ← er_refresh_expires_at e;
  access_token ← er_access_token e;
  refresh_token ← er_refresh_token e;
  account ← er_account e;
  session ← er_session e;
  session_bundle {| tr_token_type := token_type; tr_access_token := access_token;
                    tr_access_expires_at := access_expires_at; tr_refresh_token := refresh_token;
                    tr_refresh_expires_at := refresh_expires_at; tr_account := account; tr_session := session |}.

(** ** Addresses *)

Definition query_values (url : Url) (name : string) : list string :=
  snd <$> List.filter (fun x => bool_decide (x.1 = name)) (query_pairs url).

Definition query_value_occurs_once (url : Url) (name value : string) : bool :=
  match query_values url name with
  | [v] => bool_decide (v = value)
  | _ => false
  end.

Definition parse_service_url (value label : string) : result AxiomError Url :=
  url ← map_err (fun e => ConfigError ("invalid " +:+ label +:+ " URL: " +:+ e)) (url_parse value);
  if (negb (bool_decide (scheme url = "https")) && negb (loopback_http url))
     || bool_decide (host_str url = None) || with_credentials url
     || negb (bool_decide (url_path url = "/"))
     || (if url_query url then true else false) || (if url_fragment url then true else false)
  then Err (ConfigError (label +:+ " URL must be an HTTPS origin (or loopback HTTP origin) with no credentials, path, query, or fragment"))
  else Ok url.

Definition created_bad (now : Z) (c : CreatedAuthorization) (callback_uri : string) : bool :=
  negb (id_shape (ca_id c))
  || is_empty (ca_user_code c) || (32 <? len (ca_user_code c))
  || negb (forallb is_ascii_graphic (bytes (ca_user_code c)))
  || negb (bool_decide (ca_callback_uri c = callback_uri))
  || negb (match parse_time (ca_expires_at c) with Some t => now <? t | None => false end).

Definition authorization_url_bad (url : Url) (c : CreatedAuthorization) (auth_base_url : Url) : bool :=
  (4096 <? len (ca_authorization_url c))
  || negb (origin_eq url auth_base_url)
  || with_credentials url
  || negb (bool_decide (url_path url = "/native/authorize"))
  || (if url_fragment url then true else false)
  || negb (length (query_pairs url) =? 2)%nat
  || negb (query_value_occurs_once url "authorization_id" (ca_id c))
  || negb (query_value_occurs_once url "state" (ca_state c)).

Definition validate_created_authorization (now : Z) (c : CreatedAuthorization) (auth_base_url : Url)
    (callback_uri : string) : result AxiomError unit :=
  _ ← validate_token_shape (ca_device_code c) "device secret";
  _ ← validate_token_shape (ca_state c) "authorization state";
  if created_bad now c callback_uri then protocol "Axiom returned invalid authorization metadata" else
  url ← map_err (fun _ => ProtocolError "Axiom returned an invalid authorization URL") (url_parse (ca_authorization_url c));
  if authorization_url_bad url c auth_base_url
  then protocol "Axiom returned an untrusted authorization URL" else Ok tt.

End Checks.

(** ** The callback *)

Definition crlf : string := String (byte_of 13) (String (byte_of 10) EmptyString).

(** [str::split("\r\n")]; a piece takes two bytes or is the last. *)
Fixpoint split_crlf (fuel : nat) (s : string) : list string :=
  match fuel with
  | O => [s]
  | S fuel => match split_once crlf s with Some (a, b) => a :: split_crlf fuel b | None => [s] end
  end.

(** [str::split_whitespace], on characters. *)
Fixpoint words_from (word : list N) (l : list N) : list (list N) :=
  match l with
  | [] => if word is [] then [] else [word]
  | c :: l =>
    if is_whitespace c then (if word is [] then words_from [] l else word :: words_from [] l)
    else words_from (word ++ [c]) l
  end.
Definition split_whitespace (s : string) : list string := utf8_encode <$> words_from [] (chars s).

(** [String::from_utf8_lossy]: the longest valid beginnings of what is invalid are replaced. *)
Definition REPLACEMENT : list N := [239; 191; 189]%N.
Fixpoint lossy (fuel : nat) (l : list N) : list N :=
  match fuel, l with
  | S n, b0 :: l1 =>
    if (b0 <? 128)%N then b0 :: lossy n l1 else
    match l1 with
    | b1 :: l2 =>
      if ((194 <=? b0) && (b0 <? 224) && is_cont b1)%N then b0 :: b1 :: lossy n l2
      else if second3_ok b0 b1 then
        match l2 with
        | b2 :: l3 => if is_cont b2 then b0 :: b1 :: b2 :: lossy n l3 else REPLACEMENT ++ lossy n l2
        | [] => REPLACEMENT
        end
      else if second4_ok b0 b1 then
        match l2 with
        | b2 :: l3 =>
          if is_cont b2 then
            match l3 with
            | b3 :: l4 => if is_cont b3 then b0 :: b1 :: b2 :: b3 :: lossy n l4 else REPLACEMENT ++ lossy n l3
            | [] => REPLACEMENT
            end
          else REPLACEMENT ++ lossy n l2
        | [] => REPLACEMENT
        end
      else REPLACEMENT ++ lossy n l1
    | [] => REPLACEMENT
    end
  | _, _ => []
  end.
(** Every round takes a byte. *)
Definition from_utf8_lossy (bs : list N) : string := of_bytes (lossy (length bs) bs).

(** The security headers: the last values, and whether one of them came twice. *)
Record Headers : Type := { hd_origin : option string; hd_host : option string; hd_duplicate : bool }.
Definition no_headers : Headers := {| hd_origin := None; hd_host := None; hd_duplicate := false |}.

Definition named (name expected : string) : bool := bool_decide (to_ascii_lowercase name = expected).
Definition is_set (o : option string) : bool := if o then true else false.

Definition read_header (h : Headers) (line : string) : Headers :=
  match split_once ":" line with
  | Some (name, value) =>
    if named name "origin" then
      {| hd_origin := Some (trim value); hd_host := hd_host h; hd_duplicate := hd_duplicate h || is_set (hd_origin h) |}
    else if named name "host" then
      {| hd_origin := hd_origin h; hd_host := Some (trim value); hd_duplicate := hd_duplicate h || is_set (hd_host h) |}
    else h
  | None => h
  end.

(** The answer on the socket: its status, and whether it has the CORS headers. *)
Record LoopbackReply : Type := { lr_status : Z; lr_cors : bool }.

Section Callback.
Context {U : UrlLib} {UP : UrlParts}.

Definition callback_target_ok (target authorization_id expected_state : string) : bool :=
  match url_parse ("http://127.0.0.1" +:+ target) with
  | Ok url => bool_decide (url_path url = "/callback")
              && query_value_occurs_once url "authorization_id" authorization_id
              && query_value_occurs_once url "state" expected_state
  | Err _ => false
  end.

(** One read of at most [MAX_HTTP_REQUEST_BYTES] bytes. *)
Definition handle_loopback_request (request : list N)
    (allowed_origin expected_host authorization_id expected_state : string) : LoopbackReply * bool :=
  let size := Z.of_nat (length request) in
  if (size =? 0) || (MAX_HTTP_REQUEST_BYTES <=? size) then ({| lr_status := 400; lr_cors := false |}, false) else
  let text := from_utf8_lossy request in
  let lines := split_crlf (String.length text) text in
  let request_line := default EmptyString (head lines) in
  let h := foldl read_header no_headers (tail lines) in
  if starts_with "OPTIONS " request_line then
    let allowed := negb (hd_duplicate h) && bool_decide (hd_origin h = Some allowed_origin)
                   && bool_decide (hd_host h = Some expected_host) in
    ({| lr_status := if allowed then 204 else 403; lr_cors := allowed |}, false)
  else
    let parts := split_whitespace request_line in
    let method := default EmptyString (parts !! 0%nat) in
    let target := default EmptyString (parts !! 1%nat) in
    let valid := bool_decide (method = "GET") && negb (hd_duplicate h)
                 && bool_decide (hd_host h = Some expected_host)
                 && match hd_origin h with Some o => bool_decide (o = allowed_origin) | None => true end
                 && callback_target_ok target authorization_id expected_state in
    ({| lr_status := if valid then 200 else 400; lr_cors := valid |}, valid).
End Callback.

(** ** Names *)

(** [char::is_control], and what is kept of a host name. *)
Definition sanitize_device_label (value : string) : option string :=
  let normalized := trim (utf8_encode (take 71 (List.filter (fun c => negb (is_control c)) (chars value)))) in
  if is_empty normalized then None else Some normalized.

Definition client_name (hostname : option string) (os client_id : string) : string :=
  default (os +:+ " device") (hostname ≫= sanitize_device_label)
  +:+ " · " +:+ str_drop (String.length client_id - 6) client_id.

(** ** Rejected callbacks *)

(** The values of a header, wherever it stands and however its name is written. *)
Definition header_value (name line : string) : option string :=
  match split_once ":" line with
  | Some (n, value) => if named n name then Some (trim value) else None
  | None => None
  end.
Definition header_values (name : string) (lines : list string) : list string := omap (header_value name) lines.

Definition headers_of (origins hosts : list string) : Headers :=
  {| hd_origin := last origins; hd_host := last hosts;
     hd_duplicate := (1 <? length origins)%nat || (1 <? length hosts)%nat |}.

Lemma not_both name : named name "origin" = true -> named name "host" = false.
Proof. unfold named. intros ->%bool_decide_eq_true. done. Qed.

Lemma again (l : list string) v : (1 <? length (l ++ [v]))%nat = (1 <? length l)%nat || is_set (last l).
Proof.
  destruct l as [|x l] using rev_ind; [done|]. rewrite last_snoc, !length_app. cbn [is_set]. rewrite orb_true_r.
  apply Nat.ltb_lt. cbn [length]. lia.
Qed.

Lemma read_headers_of os hs line :
  read_header (headers_of os hs) line
  = headers_of (os ++ option_list (header_value "origin" line)) (hs ++ option_list (header_value "host" line)).
Proof.
  unfold read_header, header_value, headers_of. destruct (split_once ":" line) as [[name value]|]; cbn [option_list].
  - destruct (named name "origin") eqn:Eo; [rewrite (not_both _ Eo)|destruct (named name "host")];
      unfold option_list; cbn [option_rect]; rewrite ?app_nil_r, ?last_snoc, ?again; cbn [hd_origin hd_host hd_duplicate];
      [f_equal|f_equal|done].
    + by destruct (1 <? length os)%nat, (1 <? length hs)%nat, (is_set (last os)).
    + by destruct (1 <? length os)%nat, (1 <? length hs)%nat, (is_set (last hs)).
  - by rewrite !app_nil_r.
Qed.

Lemma values_cons name line lines :
  header_values name (line :: lines) = option_list (header_value name line) ++ header_values name lines.
Proof. unfold header_values. cbn. by destruct (header_value name line). Qed.

Lemma fold_headers lines : forall os hs,
  foldl read_header (headers_of os hs) lines
  = headers_of (os ++ header_values "origin" lines) (hs ++ header_values "host" lines).
Proof.
  induction lines as [|line lines IH]; intros os hs; cbn [foldl]; [by rewrite !app_nil_r|].
  by rewrite read_headers_of, IH, !values_cons, !app_assoc.
Qed.

(** Without a duplicate, the last value is the only one. *)
Lemma only_value (l : list string) v : (1 <? length l)%nat = false -> last l = Some v -> l = [v].
Proof.
  intros Hl Hv. apply Nat.ltb_ge in Hl. destruct l as [|x [|y l]]; [done| |cbn in Hl; lia]. by injection Hv as ->.
Qed.

Section Rejections.
Context {U : UrlLib} {UP : UrlParts}.

Lemma occurs_once url name value :
  query_value_occurs_once url name value = true ->
  query_values url name = [value].
Proof.
  unfold query_value_occurs_once. destruct (query_values url name) as [|v [|w l]]; [done| |done]. by intros ->%bool_decide_eq_true.
Qed.

(** A read that is accepted as the callback. *)
Record bound (read : list N) (allowed_origin expected_host authorization_id expected_state : string) : Prop := {
  bd_size : 0 < Z.of_nat (length read) < MAX_HTTP_REQUEST_BYTES;
  bd_host : let text := from_utf8_lossy read in
            header_values "host" (tail (split_crlf (String.length text) text)) = [expected_host];
  bd_origin : let text := from_utf8_lossy read in
              let values := header_values "origin" (tail (split_crlf (String.length text) text)) in
              values = [] \/ values = [allowed_origin];
  bd_target : let text := from_utf8_lossy read in
    exists line url, head (split_crlf (String.length text) text) = Some line /\
      starts_with "OPTIONS " line = false /\ split_whitespace line !! 0%nat = Some "GET" /\
      url_parse ("http://127.0.0.1" +:+ default EmptyString (split_whitespace line !! 1%nat)) = Ok url /\
      url_path url = "/callback" /\
      query_values url "authorization_id" = [authorization_id] /\ query_values url "state" = [expected_state]
}.

Lemma occurs_once_iff url name value :
  query_value_occurs_once url name value = true <-> query_values url name = [value].
Proof. split; [apply occurs_once|]. unfold query_value_occurs_once. intros ->. by apply bool_decide_eq_true. Qed.

(** C24: Which bytes the loopback listener takes for the callback of a login.  It looks at
    what one read of the socket gives, which need not be the whole request: the read is
    accepted, and answered with 200, exactly when it is not empty and does not fill the
    buffer, its first line is a GET of "/callback" whose query has the one authorization
    and the one secret state, each exactly once, and among its other lines there is exactly
    one Host header, which names the listener, and no Origin header or exactly one, which
    is the authentication website; so neither another page, nor a rebound host name, nor a
    second such header in the read, wherever it stands and however its name is written,
    gets through.  Whatever arrives after that read is not looked at (see
    [later_segments_are_not_read]). *)
Theorem callbacks_are_bound read allowed_origin expected_host authorization_id expected_state reply :
  handle_loopback_request read allowed_origin expected_host authorization_id expected_state = (reply, true) <->
  reply = {| lr_status := 200; lr_cors := true |} /\
  bound read allowed_origin expected_host authorization_id expected_state.
Proof.
  unfold handle_loopback_request. cbv zeta.
  set (lines := split_crlf _ _). change no_headers with (headers_of [] []). rewrite (fold_headers (tail lines) [] []). cbn [app].
  split.
  - intros H. destruct (_ || _)%bool eqn:Hif in H; [done|].
    destruct (starts_with _ _) eqn:Hopt; [done|]. injection H as Hr Hv. rewrite Hv in Hr. split; [done|].
    rewrite !andb_true_iff, !bool_decide_eq_true, negb_true_iff in Hv. destruct Hv as ((((Hg & Hd) & Hh) & Ho) & Ht).
    cbn [hd_duplicate hd_host hd_origin headers_of] in *. apply orb_false_iff in Hd as [Hdo Hdh].
    apply orb_false_iff in Hif as [Hz Hm]. constructor; cbv zeta; fold lines; [lia|by apply only_value| |].
    + destruct (last (header_values "origin" _)) as [o|] eqn:El; [right|left; by apply last_None].
      apply bool_decide_eq_true in Ho as ->. by apply only_value.
    + unfold callback_target_ok in Ht. destruct (url_parse _) as [url|] eqn:Eu; [|done].
      rewrite !andb_true_iff, bool_decide_eq_true in Ht. destruct Ht as ((Hp & Ha) & Hs).
      destruct (head lines) as [line|] eqn:El; cbn [default] in *; [|done]. unfold id in *.
      destruct (split_whitespace line !! 0%nat) as [method|] eqn:Em; cbn in Hg; [subst method|done].
      exists line, url. split_and!; [done..|by apply occurs_once|by apply occurs_once].
  - intros (-> & [Hz Hh Ho (line & url & El & Hopt & Hg & Eu & Hp & Ha & Hs)]). cbv zeta in *.
    fold lines in Hh, Ho, El.
    assert (Hif : (Z.of_nat (length read) =? 0) || (MAX_HTTP_REQUEST_BYTES <=? Z.of_nat (length read)) = false) by lia.
    rewrite Hif, El. change (default EmptyString (Some line)) with line. rewrite Hopt, Hg, Hh.
    assert (Ht : callback_target_ok (default EmptyString (split_whitespace line !! 1%nat)) authorization_id expected_state = true).
    { unfold callback_target_ok. rewrite Eu. apply occurs_once_iff in Ha, Hs. rewrite Ha, Hs, bool_decide_true by done. done. }
    rewrite Ht. change (default EmptyString (Some "GET")) with "GET".
    destruct Ho as [-> | ->]; cbn [hd_duplicate hd_host hd_origin headers_of]; cbn; rewrite !bool_decide_true by done; done.
Qed.
End Rejections.

(** ** An accepted callback *)

(** Addresses whose parts are where one sees them. *)
Definition simple_url : UrlLib :=
  {| Url := string;
     url_parse := fun s => if starts_with "http" s then Ok s else Err "relative URL";
     scheme := fun u => default EmptyString (fst <$> split_once "://" u);
     username := fun _ => EmptyString;
     password := fun _ => None;
     host_str := fun u => '(_, rest) ← split_once "://" u; head (split_byte 47 rest);
     port := fun _ => None;
     without_fragment := fun u => u;
     url_to_string := fun u => u |}.
Definition simple_target (u : string) : string :=
  match split_once "://" u with
  | Some (_, rest) => match split_once "/" rest with Some (_, target) => "/" +:+ target | None => "/" end
  | None => "/"
  end.
Definition simple_parts : @UrlParts simple_url :=
  {| url_path := fun u : @Url simple_url => default EmptyString (head (split_byte 63 (simple_target u)));
     query_pairs := fun u => match split_once "?" (simple_target u) with
                             | Some (_, q) => omap (split_once "=") (split_byte 38 q)
                             | None => []
                             end;
     url_query := fun u => snd <$> split_once "?" u;
     url_fragment := fun u => snd <$> split_once "#" u;
     ascii_origin := fun u => match split_once "://" u with
                              | Some (s, rest) => s +:+ "://" +:+ default EmptyString (head (split_byte 47 rest))
                              | None => EmptyString
                              end;
     origin_eq := fun u v => bool_decide (take 3 (split_byte 47 u) = take 3 (split_byte 47 v)) |}.

Definition browser_request : list N :=
  bytes ("GET /callback?authorization_id=auth-1&state=s-2 HTTP/1.1" +:+ crlf
         +:+ "hOST:  127.0.0.1:4000" +:+ crlf +:+ "Origin: https://auth.axiom.stream" +:+ crlf +:+ crlf).

#[local] Existing Instance simple_url.
#[local] Existing Instance simple_parts.

Lemma callbacks_are_bound_witness :
  header_values "host" (tail (split_crlf 1000 (from_utf8_lossy browser_request))) = ["127.0.0.1:4000"] /\
  bound browser_request "https://auth.axiom.stream" "127.0.0.1:4000" "auth-1" "s-2".
Proof.
  split; [by vm_compute|].
  apply (callbacks_are_bound browser_request "https://auth.axiom.stream" "127.0.0.1:4000" "auth-1" "s-2"
           {| lr_status := 200; lr_cors := true |}).
  by vm_compute.
Defined.

(** A second Host header, another origin and a query that repeats the state are refused. *)
Example smuggled_host :
  let answer more := (handle_loopback_request
    (bytes ("GET /callback?authorization_id=auth-1&state=s-2" +:+ more)) "https://auth.axiom.stream"
    "127.0.0.1:4000" "auth-1" "s-2").2 in
  let host := crlf +:+ "Host: 127.0.0.1:4000" in
  answer (" HTTP/1.1" +:+ host) = true /\
  answer (" HTTP/1.1" +:+ host +:+ crlf +:+ "host: evil.example") = false /\
  answer (" HTTP/1.1" +:+ host +:+ crlf +:+ "Origin: https://evil.example") = false /\
  answer ("&state=s-3 HTTP/1.1" +:+ host) = false.
Proof. by vm_compute. Qed.

(** A second Host header that comes with the next segment is not seen, and a request whose
    Host header does is refused. *)
Example later_segments_are_not_read :
  let answer l := (handle_loopback_request (bytes l) "https://auth.axiom.stream" "127.0.0.1:4000" "auth-1" "s-2").2 in
  let line := "GET /callback?authorization_id=auth-1&state=s-2 HTTP/1.1" in
  let host := crlf +:+ "Host: 127.0.0.1:4000" in
  let second := crlf +:+ "Host: evil.example" +:+ crlf +:+ crlf in
  answer (line +:+ host) = true /\ answer (line +:+ host +:+ second) = false /\ answer line = false.
Proof. by vm_compute. Qed.
