(* ===== verification/Credentials.v ===== *)
(** The account session of a process (apps/axiomcli/src/auth.rs, [AuthManager]): its state
    behind a lock, the credential store that all processes share, and the operations that
    refresh, replace and remove the session.

    An operation works under [operations], a lock of the process, and touches the store
    under a lock of the file system, which no other process passes.  What it cannot
    keep out happens where it awaits: other tasks of the process change the state without
    [operations] ([Nearby]); while it waits for [operations], other operations run as a
    whole ([Turn]); while it waits for the lock of the store, other processes change the
    entry ([LockReply]). *)

From stdpp Require Import base gmap strings list.
From Stdlib Require Import ZArith NArith Lia ZifyBool ZifyN ZifyNat.
From S2P Require Import Prelude RustStr Json Inference AppError AuthChecks.

Local Open Scope Z_scope.

Definition CREDENTIAL_TIMEOUT_MARKER : string := "timed out; the system credential store remains unavailable".
Definition NANOS : Z := 1000000000.
Definition DEFAULT_MINIMUM_ACCESS_LIFETIME : Z := 120 * NANOS.

(** [u64::wrapping_add(1)]. *)
Definition next_u64 (n : Z) : Z := (n + 1) mod 2 ^ 64.

Record CachedAccessToken : Type := { ct_token : string; ct_expires_at : Z }.
Record AccessTokenLease : Type := { al_token : string; al_expires_at : option Z }.

Record AuthState : Type := {
  au_automation_key : option string;
  au_refresh_token : option string;
  au_access_token : option CachedAccessToken;
  au_account : option AccountProfile;
  au_session : option NativeSessionStatus;
  au_source : CredentialSource;
  au_generation : Z;
  au_revision : Z;
  au_unavailable_detail : option string;
  au_external_change_pending : bool
}.
Record AccountStatus : Type := {
  as_account : AccountProfile; as_session : NativeSessionStatus; as_source : CredentialSource;
  as_generation : Z; as_revision : Z
}.
Record AccountAccessTokenLease : Type := { aa_access : AccessTokenLease; aa_account_id : string; aa_generation : Z }.

Definition account_changed : AxiomError :=
  SecureProviderError LocalAuthentication "ACCOUNT_CHANGED"
    "the native account changed in another Axiom process; refresh account status".
Definition authentication_required : AxiomError :=
  SecureProviderError LocalAuthentication "AUTHENTICATION_REQUIRED"
    "authentication required; sign in to your Axiom account".

(** What the service says of a session. *)
Record SessionResponse : Type := {
  sr_authenticated : bool; sr_account : option AccountProfile; sr_session : option NativeSessionStatus
}.

(** ** The state *)

Definition initial_state (key token : option string) (source : CredentialSource) (detail : option string) : AuthState :=
  {| au_automation_key := key; au_refresh_token := token; au_access_token := None; au_account := None;
     au_session := None; au_source := source; au_generation := 0; au_revision := 0;
     au_unavailable_detail := detail; au_external_change_pending := false |}.

Definition has_credential (s : AuthState) : bool :=
  bool_decide (is_Some (au_automation_key s)) || bool_decide (is_Some (au_refresh_token s)).
Definition active_account_id (s : AuthState) : option string := ap_id <$> au_account s.

Definition account_status_is_current (s : AuthState) (status : AccountStatus) : bool :=
  (au_generation s =? as_generation status)
  && bool_decide (active_account_id s = Some (ap_id (as_account status))).
Definition account_access_is_current (s : AuthState) (lease : AccountAccessTokenLease) : bool :=
  (au_generation s =? aa_generation lease) && bool_decide (active_account_id s = Some (aa_account_id lease)).

Definition next_revision (s : AuthState) : AuthState :=
  {| au_automation_key := au_automation_key s; au_refresh_token := au_refresh_token s;
     au_access_token := au_access_token s; au_account := au_account s; au_session := au_session s;
     au_source := au_source s; au_generation := au_generation s; au_revision := next_u64 (au_revision s);
     au_unavailable_detail := au_unavailable_detail s;
     au_external_change_pending := au_external_change_pending s |}.

Definition clear_local_authorization (detail : option string) (s : AuthState) : AuthState :=
  {| au_automation_key := au_automation_key s; au_refresh_token := None;
     au_access_token := None; au_account := None; au_session := None;
     au_source := au_source s; au_generation := next_u64 (au_generation s);
     au_revision := next_u64 (au_revision s);
     au_unavailable_detail := detail; au_external_change_pending := false |}.

Definition adopted (credential : option string) (s : AuthState) : AuthState :=
  {| au_automation_key := au_automation_key s; au_refresh_token := credential;
     au_access_token := None; au_account := None; au_session := None;
     au_source := au_source s; au_generation := next_u64 (au_generation s);
     au_revision := next_u64 (au_revision s);
     au_unavailable_detail := None;
     au_external_change_pending := if credential then true else false |}.

(** The end of [commit_bundle_under_credential_lock]. *)
Definition committed (b : SessionBundle) (force : bool) (previous : option string) (s : AuthState) : AuthState :=
  {| au_automation_key := au_automation_key s; au_refresh_token := Some (bn_refresh_token b);
     au_access_token := Some {| ct_token := bn_access_token b; ct_expires_at := bn_access_expires_at b |};
     au_account := Some (bn_account b); au_session := Some (bn_session b);
     au_source := au_source s;
     au_generation := if force || negb (bool_decide (previous = Some (ap_id (bn_account b))))
                      then next_u64 (au_generation s) else au_generation s;
     au_revision := next_u64 (au_revision s);
     au_unavailable_detail := None;
     au_external_change_pending := if force then false else au_external_change_pending s |}.

(** The write of [validate_with_revision]. *)
Definition validated (account : AccountProfile) (session : NativeSessionStatus) (s : AuthState) : AuthState :=
  {| au_automation_key := au_automation_key s; au_refresh_token := au_refresh_token s;
     au_access_token := au_access_token s; au_account := Some account; au_session := Some session;
     au_source := au_source s; au_generation := au_generation s; au_revision := au_revision s;
     au_unavailable_detail := au_unavailable_detail s; au_external_change_pending := false |}.

Definition other_account (s : AuthState) (account : AccountProfile) : bool :=
  match au_account s with Some current => negb (bool_decide (ap_id current = ap_id account)) | None => false end.

Definition account_status (b : SessionBundle) (s : AuthState) : AccountStatus :=
  {| as_account := bn_account b; as_session := bn_session b; as_source := au_source s;
     as_generation := au_generation s; as_revision := au_revision s |}.

(** The write of a validation, and the source it reads: none of another generation, and no
    account but the one that is known. *)
Definition record_validation (generation : Z) (account : AccountProfile) (session : NativeSessionStatus) (s : AuthState)
    : AuthState * option (option CredentialSource) :=
  if negb (au_generation s =? generation) then (s, None)
  else if other_account s account then (s, Some None)
  else (validated account session s, Some (Some (au_source s))).

(** What tasks outside of [operations] do to the state while an operation awaits. *)
Inductive Nearby : Type :=
| Revised                                                              (** [next_revision] *)
| Answered (generation : Z) (a : AccountProfile) (s : NativeSessionStatus)   (** a validation *)
| Adopts (credential : option string)                                  (** the start of a login *)
| Gives_up (detail : option string).                                   (** .. that fails *)

Definition nearby (s : AuthState) (n : Nearby) : AuthState :=
  match n with
  | Revised => next_revision s
  | Answered generation a session => (record_validation generation a session s).1
  | Adopts credential => adopted credential s
  | Gives_up detail => clear_local_authorization detail s
  end.

(** ** The world of a process *)

Inductive StoreKind : Type := KeyringStore | EnvironmentStore | UnavailableStore (detail : string) | EphemeralTestStore.
Definition kind_source (k : StoreKind) : CredentialSource :=
  match k with EnvironmentStore => FromEnvironment | _ => SystemKeyring end.

(** The calls on the keyring, and how one ends: it may fail, or its task, before or after it had its
    effect; or take longer than [CREDENTIAL_OPERATION_TIMEOUT] and end later. *)
Inductive StoreCall : Type := Loads | Saves | Deletes.
#[export] Instance StoreCall_eq_dec : EqDecision StoreCall.
Proof. solve_decision. Defined.

Inductive StoreReply : Type :=
| Works
| Fails (e : string) (effect : bool)
| Panics (effect : bool)
| Hangs (late : LateReply)
| NoClone (e : string)               (** the lock's handle cannot be cloned *)
with LateReply : Type :=
| LateWorks
| LateFails (effect : bool)
| LateLost (effect : bool).          (** .. with its process *)

(** How the lock of the store is got, with the entry as other processes leave it. *)
Inductive LockReply : Type :=
| Locked (entry : option (option string))
| NotLocked (e : string).

Inductive Request : Type :=
| RefreshRequest (refresh_token : string)
| RevokeRequest (bearer : string)
| SessionRequest (bearer : string)
| CreateAuthorizationRequest (code_challenge callback_uri client_id name : string) (hint : option LoginMethod)
| ExchangeRequest (authorization_id device_code code_verifier : string)
| CancelAuthorizationRequest (authorization_id device_code : string).

Inductive Reply : Type :=
| Lost (e : string)
| Replied (status : Z) (body : list N).

Record World : Type := {
  w_auth : AuthState;
  w_kind : StoreKind;
  w_entry : option string;
  w_store : StoreCall -> list StoreReply;
  w_locks : list LockReply;
  w_awaits : list (list Nearby);
  w_clock : list Z;
  w_cancels : list bool;
  w_server : list Reply;
  w_log : list (Request * Reply)
}.

Definition with_auth (f : AuthState -> AuthState) (w : World) : World :=
  {| w_auth := f (w_auth w); w_kind := w_kind w; w_entry := w_entry w; w_store := w_store w; w_locks := w_locks w;
     w_awaits := w_awaits w; w_clock := w_clock w; w_cancels := w_cancels w; w_server := w_server w; w_log := w_log w |}.
Definition with_entry (entry : option string) (w : World) : World :=
  {| w_auth := w_auth w; w_kind := w_kind w; w_entry := entry; w_store := w_store w; w_locks := w_locks w;
     w_awaits := w_awaits w; w_clock := w_clock w; w_cancels := w_cancels w; w_server := w_server w; w_log := w_log w |}.
Definition with_store (f : StoreCall -> list StoreReply) (w : World) : World :=
  {| w_auth := w_auth w; w_kind := w_kind w; w_entry := w_entry w; w_store := f; w_locks := w_locks w;
     w_awaits := w_awaits w; w_clock := w_clock w; w_cancels := w_cancels w; w_server := w_server w; w_log := w_log w |}.
Definition with_locks (l : list LockReply) (w : World) : World :=
  {| w_auth := w_auth w; w_kind := w_kind w; w_entry := w_entry w; w_store := w_store w; w_locks := l;
     w_awaits := w_awaits w; w_clock := w_clock w; w_cancels := w_cancels w; w_server := w_server w; w_log := w_log w |}.
Definition with_awaits (l : list (list Nearby)) (w : World) : World :=
  {| w_auth := w_auth w; w_kind := w_kind w; w_entry := w_entry w; w_store := w_store w; w_locks := w_locks w;
     w_awaits := l; w_clock := w_clock w; w_cancels := w_cancels w; w_server := w_server w; w_log := w_log w |}.
Definition with_clock (l : list Z) (w : World) : World :=
  {| w_auth := w_auth w; w_kind := w_kind w; w_entry := w_entry w; w_store := w_store w; w_locks := w_locks w;
     w_awaits := w_awaits w; w_clock := l; w_cancels := w_cancels w; w_server := w_server w; w_log := w_log w |}.
Definition with_cancels (l : list bool) (w : World) : World :=
  {| w_auth := w_auth w; w_kind := w_kind w; w_entry := w_entry w; w_store := w_store w; w_locks := w_locks w;
     w_awaits := w_awaits w; w_clock := w_clock w; w_cancels := l; w_server := w_server w; w_log := w_log w |}.
Definition sent (r : Request) (reply : Reply) (rest : list Reply) (w : World) : World :=
  {| w_auth := w_auth w; w_kind := w_kind w; w_entry := w_entry w; w_store := w_store w; w_locks := w_locks w;
     w_awaits := w_awaits w; w_clock := w_clock w; w_cancels := w_cancels w; w_server := rest;
     w_log := w_log w ++ [(r, reply)] |}.

Notation Auth := (M World AxiomError).

Definition attempt {A} (x : Auth A) : Auth (result AxiomError A) := fun w => let '(w, r) := x w in (w, Ok r).
Definition ignore {A} (x : Auth A) : Auth unit := fun w => let '(w, _) := x w in (w, Ok tt).

(** Other tasks of the process run: at an [.await], and before the lock of the state is got. *)
Definition await : Auth unit := fun w =>
  match w_awaits w with
  | [] => (w, Ok tt)
  | ns :: l => (with_auth (fun s => foldl nearby s ns) (with_awaits l w), Ok tt)
  end.
(** A critical section of the lock of the state. *)
Definition change {A} (f : AuthState -> AuthState * A) : Auth A := fun w =>
  (with_auth (fun s => (f s).1) w, Ok (f (w_auth w)).2).
Definition update {A} (f : AuthState -> AuthState * A) : Auth A := _ ← await; change f.
Definition state {A} (f : AuthState -> A) : Auth A := update (fun s => (s, f s)).
Definition write (f : AuthState -> AuthState) : Auth unit := update (fun s => (f s, tt)).

Definition now : Auth Z := fun w =>
  match w_clock w with [] => (w, Ok 0) | t :: l => (with_clock l w, Ok t) end.
Definition is_cancelled : Auth bool := fun w =>
  match w_cancels w with [] => (w, Ok false) | c :: l => (with_cancels l w, Ok c) end.
Definition store_reply (call : StoreCall) : Auth StoreReply := fun w =>
  match w_store w call with
  | [] => (w, Ok Works)
  | r :: l => (with_store (fun c => if bool_decide (c = call) then l else w_store w c) w, Ok r)
  end.

(** A request to the service, whose answers come in the order of the requests. *)
Definition reply_to (r : Request) : Auth Reply := fun w =>
  match w_server w with
  | [] => (sent r (Lost "connection refused") [] w, Ok (Lost "connection refused"))
  | reply :: l => (sent r reply l w, Ok reply)
  end.
Definition send (r : Request) : Auth Reply := _ ← await; reply_to r.
Definition revoke (bearer : string) : Auth unit := _ ← send (RevokeRequest bearer); mret tt.

(** ** The credential store *)

Definition set_entry (entry : option string) (effect : bool) : Auth unit :=
  modify (fun w => if effect then with_entry entry w else w).

(** [CredentialStore::load] in its task. *)
Definition store_load : Auth (option string) :=
  r ← store_reply Loads;
  kind ← gets w_kind;
  match kind, r with
  | _, NoClone e => throw (IoError e)
  | EnvironmentStore, _ => mret None
  | UnavailableStore detail, _ => throw (StorageError detail)
  | KeyringStore, Fails e _ => throw (StorageError e)
  | KeyringStore, Panics _ => throw (StorageError "credential read task failed")
  | _, _ => gets w_entry
  end.

(** What becomes of a save that was given up: when it has worked after all, the value is
    removed again, while the lock is still held. *)
Definition late_save (credential : string) (late : LateReply) : Auth unit :=
  match late with
  | LateFails effect | LateLost effect => set_entry (Some credential) effect
  | LateWorks =>
    _ ← set_entry (Some credential) true;
    r ← store_reply Loads;
    entry ← gets w_entry;
    match r with
    | Works | Hangs _ =>
      if bool_decide (entry = Some credential) then
        r ← store_reply Deletes;
        match r with
        | Works | Hangs _ => set_entry None true
        | Fails _ effect | Panics effect => set_entry None effect
        | NoClone _ => mret tt
        end
      else mret tt
    | _ => mret tt
    end
  end.

Definition credential_timeout_error (label : string) : AxiomError :=
  StorageError (label +:+ " " +:+ CREDENTIAL_TIMEOUT_MARKER).
Definition credential_operation_timed_out (e : AxiomError) : bool :=
  match e with StorageError detail => contains CREDENTIAL_TIMEOUT_MARKER detail | _ => false end.

Definition load_persisted_credential : Auth (option string) :=
  _ ← await;
  value ← store_load;
  _ ← lift (if_some value (fun v => validate_token_shape v "stored refresh token"));
  mret value.

Definition save_persisted_credential (credential : string) : Auth unit :=
  _ ← await;
  r ← store_reply Saves;
  kind ← gets w_kind;
  match kind, r with
  | _, NoClone e => throw (IoError e)
  | EnvironmentStore, _ => throw (StorageError "AXIOM_API_KEY is an environment-owned automation credential")
  | UnavailableStore detail, _ => throw (StorageError detail)
  | KeyringStore, Fails e effect => _ ← set_entry (Some credential) effect; throw (StorageError e)
  | KeyringStore, Panics effect =>
    _ ← set_entry (Some credential) effect; throw (StorageError "credential persistence task failed")
  | KeyringStore, Hangs late =>
    _ ← late_save credential late; throw (credential_timeout_error "credential persistence")
  | _, _ => set_entry (Some credential) true
  end.

Definition delete_persisted_credential : Auth (result string unit) :=
  _ ← await;
  r ← store_reply Deletes;
  kind ← gets w_kind;
  match kind, r with
  | _, NoClone e => mret (Err ("could not retain native-session coordination lock: " +:+ e))
  | EnvironmentStore, _ => mret (Err "unset AXIOM_API_KEY to remove the automation credential")
  | UnavailableStore detail, _ => mret (Err detail)
  | KeyringStore, Fails e effect => _ ← set_entry None effect; mret (Err e)
  | KeyringStore, Panics effect => _ ← set_entry None effect; mret (Err "credential deletion task failed")
  | KeyringStore, Hangs late =>
    _ ← set_entry None (match late with LateWorks => true | LateFails effect | LateLost effect => effect end);
    mret (Err (error_display (credential_timeout_error "credential deletion")))
  | _, _ => _ ← set_entry None true; mret (Ok tt)
  end.

(** [acquire_refresh_file_lock] in its task: other processes come first. *)
Definition lock_reply : Auth LockReply := fun w =>
  match w_locks w with
  | [] => (w, Ok (Locked None))
  | Locked (Some entry) :: l => (with_entry entry (with_locks l w), Ok (Locked (Some entry)))
  | r :: l => (with_locks l w, Ok r)
  end.
Definition acquire_credential_lock : Auth unit :=
  _ ← await;
  r ← lock_reply;
  match r with
  | Locked _ => mret tt
  | NotLocked e =>
    _ ← write (clear_local_authorization (Some (error_display (StorageError e))));
    throw (StorageError e)
  end.

Definition adopt_external_credential (credential : option string) : Auth unit :=
  _ ← lift (if_some credential (fun v => validate_token_shape v "stored refresh token"));
  write (adopted credential).

(** ** Removal *)

Definition delete_if_matches_and_clear (expected : option string) : Auth Z :=
  persisted ← attempt load_persisted_credential;
  deletion ← match persisted with
             | Ok p => if bool_decide (is_Some expected) && bool_decide (p = expected)
                       then delete_persisted_credential else mret (Ok tt)
             | Err e => mret (Err (error_display e))
             end;
  revision ← update (fun s =>
    let s := clear_local_authorization (match deletion with Ok _ => None | Err e => Some e end) s in (s, au_revision s));
  match deletion with Ok _ => mret revision | Err e => throw (StorageError e) end.

Definition delete_persisted_and_clear : Auth Z :=
  source ← state au_source;
  if bool_decide (source = FromEnvironment)
  then throw (InvalidTransition "AXIOM_API_KEY is controlled by the process environment; unset it to sign out") else
  expected ← state au_refresh_token;
  _ ← acquire_credential_lock;
  delete_if_matches_and_clear expected.

(** ** Committing a session *)

(** The JSON bodies of the service, and the name of a status. *)
Class AuthCodec : Type := {
  decode_tokens : list N -> option TokenResponse;
  decode_exchange : list N -> option ExchangeResponse;
  decode_created : list N -> option CreatedAuthorization;
  decode_session : list N -> option SessionResponse;
  show_status : Z -> string
}.

Section Sessions.
Context {U : UrlLib} {AC : AuthClock}.

Definition check_bundle (b : SessionBundle) : Auth unit :=
  t ← now;
  lift (validate_bundle t b).

Definition commit_bundle_under_credential_lock (b : SessionBundle) (force : bool) (expected : option string)
    : Auth AccountStatus :=
  checked ← attempt (check_bundle b);
  match checked with
  | Err e => _ ← revoke (bn_access_token b); _ ← ignore (delete_if_matches_and_clear expected); throw e
  | Ok _ =>
    previous ← state active_account_id;
    if negb force && match previous with Some id => negb (bool_decide (id = ap_id (bn_account b))) | None => false end
    then
      _ ← revoke (bn_access_token b);
      _ ← ignore (delete_if_matches_and_clear expected);
      throw (ProtocolError "Axiom changed accounts during native-session rotation")
    else
      persisted ← attempt load_persisted_credential;
      match persisted with
      | Err e =>
        _ ← revoke (bn_access_token b);
        _ ← write (clear_local_authorization (Some (error_display e)));
        throw e
      | Ok persisted =>
        if negb (bool_decide (persisted = expected)) then
          _ ← revoke (bn_access_token b);
          _ ← adopt_external_credential persisted;
          throw account_changed
        else
          saved ← attempt (save_persisted_credential (bn_refresh_token b));
          match saved with
          | Err e =>
            _ ← revoke (bn_access_token b);
            let detail := "could not persist the rotated native session in the system credential store: "
                          +:+ error_display e in
            _ ← (if credential_operation_timed_out e
                 then write (clear_local_authorization (Some detail))
                 else ignore (delete_if_matches_and_clear expected));
            throw (StorageError detail)
          | Ok _ =>
            update (fun s =>
              let s := committed b force previous s in
              (s, account_status b s))
          end
      end
  end.

Definition commit_bundle (b : SessionBundle) (force : bool) : Auth AccountStatus :=
  expected ← state au_refresh_token;
  locked ← attempt acquire_credential_lock;
  match locked with
  | Err e => _ ← revoke (bn_access_token b); throw e
  | Ok _ => commit_bundle_under_credential_lock b force expected
  end.

(** ** Rotation *)

Context {DC : AuthCodec}.

(** The answers that cost the session. *)
Definition forget (refresh : string) : Auth string :=
  cleared ← attempt (delete_if_matches_and_clear (Some refresh));
  mret match cleared with
       | Ok _ => EmptyString
       | Err e => "; the local credential could not be cleared cleanly: " +:+ error_display e
       end.

Definition refresh_answer (refresh : string) (reply : Reply) : Auth SessionBundle :=
  match reply with
  | Lost e =>
    suffix ← forget refresh;
    throw (ProviderError ("session refresh response was lost; sign in again" +:+ suffix +:+ ": " +:+ e))
  | Replied status body =>
    if status =? 401 then _ ← forget refresh; throw authentication_required else
    if negb ((200 <=? status) && (status <? 300)) then
      suffix ← forget refresh;
      throw (ProviderError ("Axiom session refresh returned HTTP " +:+ show_status status
        +:+ "; sign in again because rotation may have consumed the prior token" +:+ suffix))
    else match decode_tokens body with
    | None => _ ← forget refresh; throw (ProtocolError "invalid session refresh response")
    | Some response =>
      match session_bundle response with
      | None => _ ← forget refresh; throw (ProtocolError "session refresh omitted rotated tokens")
      | Some b => mret b
      end
    end
  end.

(** [refresh_under_lock] up to its lease. *)
Definition rotate (allow_external_change : bool) : Auth unit :=
  _ ← acquire_credential_lock;
  loaded ← attempt load_persisted_credential;
  match loaded with
  | Err e => _ ← write (clear_local_authorization (Some (error_display e))); throw e
  | Ok persisted =>
    local ← state au_refresh_token;
    let changed := negb (bool_decide (persisted = local)) in
    previous ← state active_account_id;
    _ ← (if changed && (bool_decide (previous = None) || bool_decide (persisted = None)) then
           _ ← adopt_external_credential persisted;
           if allow_external_change then mret tt else throw account_changed
         else mret tt);
    refresh ← lift (ok_or persisted authentication_required);
    reply ← send (RefreshRequest refresh);
    b ← refresh_answer refresh reply;
    let switched := changed && bool_decide (is_Some previous)
                    && negb (bool_decide (previous = Some (ap_id (bn_account b)))) in
    _ ← (if switched then adopt_external_credential (Some refresh) else mret tt);
    _ ← commit_bundle_under_credential_lock b false (Some refresh);
    if switched && negb allow_external_change then throw account_changed else mret tt
  end.

Definition refresh_under_lock (allow_external_change : bool) : Auth AccessTokenLease :=
  _ ← rotate allow_external_change;
  token ← state au_access_token;
  match token with
  | Some t => mret {| al_token := ct_token t; al_expires_at := Some (ct_expires_at t) |}
  | None => throw (StorageError "session refresh task failed: task panicked")
  end.

(** ** What runs under [operations] *)

Definition usable_token (allow_external_change : bool) (minimum_remaining : Z) : Auth (option AccessTokenLease) :=
  s ← state id;
  if au_external_change_pending s && negb allow_external_change then throw account_changed else
  match au_access_token s with
  | None => mret None
  | Some t =>
    current ← now;
    mret (if current + minimum_remaining <? ct_expires_at t
          then Some {| al_token := ct_token t; al_expires_at := Some (ct_expires_at t) |} else None)
  end.

Definition access_locked (allow_external_change : bool) (minimum_remaining : Z) : Auth AccessTokenLease :=
  usable ← usable_token allow_external_change minimum_remaining;
  match usable with
  | Some lease => mret lease
  | None => refresh_under_lock allow_external_change
  end.

Definition logout_locked (bearer : option AccessTokenLease) : Auth Z :=
  _ ← match bearer with Some lease => revoke (al_token lease) | None => mret tt end;
  delete_persisted_and_clear.

Definition finish_locked (b : SessionBundle) (expected_generation : Z) : Auth AccountStatus :=
  generation ← state au_generation;
  if negb (generation =? expected_generation) then
    _ ← revoke (bn_access_token b);
    throw (InvalidTransition "Axiom authorization changed while browser sign-in was pending; start sign-in again")
  else commit_bundle b true.

Definition clear_locked (generation : Z) : Auth Z :=
  current ← state au_generation;
  if negb (current =? generation) then state au_revision else delete_persisted_and_clear.

(** The start of a login, under the lock of the store only. *)
Definition login_locked : Auth unit :=
  _ ← acquire_credential_lock;
  loaded ← attempt load_persisted_credential;
  match loaded with
  | Err e => _ ← write (clear_local_authorization (Some (error_display e))); throw e
  | Ok persisted =>
    local ← state au_refresh_token;
    if bool_decide (persisted = local) then mret tt else adopt_external_credential persisted
  end.

(** What other tasks do while one waits for [operations]. *)
Inductive Turn : Type :=
| Refreshes (allow_external_change : bool) (minimum_remaining : Z)
| Signs_out (bearer : option AccessTokenLease)
| Finishes (b : SessionBundle) (expected_generation : Z)
| Clears (generation : Z)
| Logs_in
| Meanwhile (n : Nearby).

Definition run_turn (t : Turn) : Auth unit :=
  match t with
  | Refreshes allow minimum => ignore (access_locked allow minimum)
  | Signs_out bearer => ignore (logout_locked bearer)
  | Finishes b generation => ignore (finish_locked b generation)
  | Clears generation => ignore (clear_locked generation)
  | Logs_in => ignore login_locked
  | Meanwhile n => write (fun s => nearby s n)
  end.

(** [operations.lock_owned()], raced against a cancellation, which is looked at twice
    by [access_token_internal]. *)
Definition operations_lock (cancellable : bool) (meanwhile : list Turn) : Auth unit :=
  _ ← iterM run_turn meanwhile;
  if cancellable then
    cancelled ← is_cancelled;
    match cancelled with true => throw CancelledError | false => mret tt end
  else mret tt.

(** ** The operations of [AuthManager] *)

(** What happens while an operation waits for [operations], and for a task of its own. *)
Record Pauses : Type := { p_turns : list Turn; p_resumed : list Turn }.
Definition no_pauses : Pauses := {| p_turns := []; p_resumed := [] |}.

Definition access_token_internal (minimum_remaining : Z) (cancellable allow_external_change : bool) (p : Pauses)
    : Auth AccessTokenLease :=
  key ← state au_automation_key;
  match key with
  | Some key => mret {| al_token := key; al_expires_at := None |}
  | None =>
    usable ← usable_token allow_external_change minimum_remaining;
    match usable with
    | Some lease => mret lease
    | None =>
      _ ← operations_lock cancellable (p_turns p);
      _ ← operations_lock cancellable [];
      lease ← attempt (access_locked allow_external_change minimum_remaining);
      _ ← iterM run_turn (p_resumed p);
      lift lease
    end
  end.

Definition access_token (minimum_remaining : Z) (p : Pauses) : Auth AccessTokenLease :=
  access_token_internal minimum_remaining true false p.
Definition access_token_for_secure_operation (p : Pauses) : Auth AccessTokenLease :=
  access_token DEFAULT_MINIMUM_ACCESS_LIFETIME p.

Definition not_automation (message : string) : Auth unit :=
  source ← state au_source;
  if bool_decide (source = FromEnvironment) then throw (InvalidTransition message) else mret tt.

Definition access_token_for_account_operation (p : Pauses) : Auth AccountAccessTokenLease :=
  _ ← not_automation "this operation requires a native Axiom account session; AXIOM_API_KEY is automation-only";
  access ← access_token (30 * NANOS) p;
  found ← state (fun s => (active_account_id s, au_generation s));
  account_id ← lift (ok_or found.1 (InvalidTransition "refresh account status before using account services"));
  mret {| aa_access := access; aa_account_id := account_id; aa_generation := found.2 |}.

Definition logout_with_cancellation (before after : Pauses) : Auth Z :=
  _ ← not_automation "AXIOM_API_KEY is controlled by the process environment; unset it to sign out";
  bearer ← attempt (access_token 0 before);
  bearer ← match bearer with
           | Ok lease => mret (Some lease)
           | Err CancelledError => throw CancelledError
           | Err _ => mret None
           end;
  _ ← operations_lock true (p_turns after);
  logout_locked bearer.

(** Validation. *)
Inductive ValidationStatus : Type := Missing | Valid (status : AccountStatus) | Expired | Unavailable (detail : string).
Record VersionedValidationStatus : Type := { vv_status : ValidationStatus; vv_revision : Z }.

Definition answer (status : ValidationStatus) (revision : Z) : Auth VersionedValidationStatus :=
  mret {| vv_status := status; vv_revision := revision |}.
Definition expire (generation revision : Z) (p : Pauses) : Auth VersionedValidationStatus :=
  _ ← operations_lock false (p_turns p);
  cleared ← attempt (clear_locked generation);
  answer Expired (match cleared with Ok r => r | Err _ => revision end).

(** What was said of the session, and for the account that the state then has. *)
Definition accept_session (value : SessionResponse) (lease : AccessTokenLease) (generation revision : Z) (p : Pauses)
    : Auth VersionedValidationStatus :=
  match sr_account value with
  | None => answer (Unavailable "Axiom omitted the account from an authenticated session") revision
  | Some account =>
    match validate_account account with
    | Err e => answer (Unavailable (error_display e)) revision
    | Ok _ =>
      t ← now;
      let session := default {| ns_id := None; ns_expires_at := show_time (default t (al_expires_at lease)) |}
                             (sr_session value) in
      t ← now;
      match validate_native_session t session with
      | Err e => answer (Unavailable (error_display e)) revision
      | Ok _ =>
        source ← update (record_validation generation account session);
        match source with
        | None => answer (Unavailable "Axiom account changed while validation was in progress; retry validation") revision
        | Some None => expire generation revision p
        | Some (Some source) =>
          answer (Valid {| as_account := account; as_session := session; as_source := source;
                           as_generation := generation; as_revision := revision |}) revision
        end
      end
    end
  end.

Definition validate_with_revision (before after : Pauses) : Auth VersionedValidationStatus :=
  revision ← update (fun s => let s := next_revision s in (s, au_revision s));
  detail ← state au_unavailable_detail;
  match detail with
  | Some detail => answer (Unavailable detail) revision
  | None =>
    known ← state has_credential;
    if negb known then answer Missing revision else
    lease ← attempt (access_token_internal (30 * NANOS) false true before);
    match lease with
    | Err e =>
      known ← state has_credential;
      if negb known then revision ← state au_revision; answer Expired revision
      else answer (Unavailable (error_display e)) revision
    | Ok lease =>
      generation ← state au_generation;
      reply ← send (SessionRequest (al_token lease));
      match reply with
      | Lost e => answer (Unavailable ("could not reach Axiom to validate this session: " +:+ e)) revision
      | Replied status body =>
        if status =? 401 then expire generation revision after else
        if negb ((200 <=? status) && (status <? 300)) then
          answer (Unavailable ("Axiom session validation returned HTTP " +:+ show_status status)) revision
        else match decode_session body with
        | Some value =>
          if sr_authenticated value then accept_session value lease generation revision after
          else answer (Unavailable "Axiom returned an invalid session-validation response") revision
        | None => answer (Unavailable "Axiom returned an invalid session-validation response") revision
        end
      end
    end
  end.

End Sessions.
