(* ===== verification/SignIn.v ===== *)
(** The first state of a process and the login through the browser
    (apps/axiomcli/src/auth.rs, [AuthManager::new_with_paths], [start_native_login] and
    [NativeLogin]).

    The listener, randomness, the identity file of the installation and the browser are
    arguments ([LoginIo]); so are the connections that are accepted. *)

From stdpp Require Import base gmap strings list.
From Stdlib Require Import ZArith NArith Lia.
From S2P Require Import Prelude RustStr Json Inference AppError AuthChecks Credentials.

Local Open Scope Z_scope.

(** ** Start *)

(** [AuthManager::new_with_paths] of a release build, without a development store, on the keyring of the audience.  An
    invalid value is removed, and without a store there is no session. *)
Definition store_now : Auth (option string) :=
  r ← store_reply Loads;
  match r with
  | Fails e _ => throw (StorageError e)
  | _ => gets w_entry
  end.
Definition delete_now : Auth unit :=
  r ← store_reply Deletes;
  match r with
  | Fails e effect => _ ← set_entry None effect; throw (StorageError e)
  | _ => set_entry None true
  end.

Definition become (kind : StoreKind) (key token detail : option string) : Auth unit :=
  modify (fun w => {| w_auth := initial_state key token (kind_source kind) detail; w_kind := kind;
    w_entry := w_entry w; w_store := w_store w; w_locks := w_locks w; w_awaits := w_awaits w; w_clock := w_clock w;
    w_cancels := w_cancels w; w_server := w_server w; w_log := w_log w |}).
Definition new_unavailable (detail : string) : Auth unit :=
  become (UnavailableStore detail) None None (Some detail).

Definition take_file_lock : Auth unit :=
  r ← lock_reply;
  match r with Locked _ => mret tt | NotLocked e => throw (IoError e) end.

Definition detail_of (e : AxiomError) : string := match e with StorageError s => s | e => error_display e end.

Definition new_with_paths (development api_key requested_store : option string) : Auth unit :=
  match development with
  | Some _ => throw (ConfigError "local development credentials require an explicit Unix debug build with loopback API and auth origins")
  | None =>
  match api_key with
  | Some value =>
    _ ← lift (validate_api_key_shape value);
    become EnvironmentStore (Some value) None None
  | None =>
    if match requested_store with Some s => negb (bool_decide (s = "keyring")) | None => false end
    then throw (ConfigError "native sessions require the system credential store; plaintext file storage is not supported")
    else
      _ ← take_file_lock;
      loaded ← attempt store_now;
      match loaded with
      | Err e => new_unavailable ("the system credential store is unavailable: " +:+ detail_of e
                                  +:+ "; sign-in remains disabled until it is restored")
      | Ok None => become KeyringStore None None None
      | Ok (Some value) =>
        if is_ok (validate_token_shape value "stored refresh token")
        then become KeyringStore None (Some value) None
        else
          deleted ← attempt delete_now;
          match deleted with
          | Ok _ => become KeyringStore None None None
          | Err e => new_unavailable ("the system credential store contains an invalid native session and could not be cleared: "
                                      +:+ detail_of e)
          end
      end
  end
  end.

(** ** Login *)

Record LoginIo : Type := {
  li_port : result string Z;                (** the listener on 127.0.0.1 *)
  li_verifier : result string string;       (** [random_urlsafe(32)] *)
  li_client_id : result AxiomError string;  (** [load_or_create_client_id] *)
  li_hostname : option string;
  li_os : string;
  li_opens : bool;                          (** the browser starts *)
  li_launch_browser : bool
}.

Record NativeLogin : Type := {
  nl_callback_host : string; nl_authorization_id : string; nl_device_code : string; nl_verifier : string;
  nl_state : string; nl_user_code : string; nl_authorization_url : string; nl_expires_at : string;
  nl_interval : Z; nl_browser_opened : bool; nl_auth_generation : Z
}.

(** A poll of the ticker, a connection with what is read from it and whether it can be
    answered, or the cancellation. *)
Inductive LoginEvent : Type :=
| Ticked (p : Pauses)
| Accepted (request : result AxiomError (list N)) (written : result AxiomError unit) (p : Pauses)
| NotAccepted (e : string)
| LoginCancelled.

(** [URL_SAFE_NO_PAD.encode(Sha256::digest(..))]. *)
Class Pkce : Type := { challenge_of : string -> string }.

Section Login.
Context {U : UrlLib} {UP : UrlParts} {AC : AuthClock} {DC : AuthCodec} {PK : Pkce}.

Definition show_port (port : Z) : string := show_status port.
Definition success (status : Z) : bool := (200 <=? status) && (status <? 300).

(** One checked request for an authorization. *)
Definition create_authorization (request : Request) (auth_base_url : Url) (callback_uri : string)
    : Auth CreatedAuthorization :=
  reply ← send request;
  match reply with
  | Lost e => throw (ProviderError ("could not start login: " +:+ e))
  | Replied status body =>
    if negb (success status)
    then throw (ProviderError ("Axiom rejected the login request with HTTP " +:+ show_status status)) else
    created ← lift (ok_or (decode_created body) (ProtocolError "invalid native login response from Axiom"));
    t ← now;
    _ ← lift (validate_created_authorization t created auth_base_url callback_uri);
    mret created
  end.

Definition start_native_login (io : LoginIo) (auth_base_url : Url) (hint : option LoginMethod) : Auth NativeLogin :=
  _ ← not_automation "AXIOM_API_KEY is active; unset it before starting an account session";
  detail ← state au_unavailable_detail;
  match detail with
  | Some detail => throw (StorageError detail)
  | None =>
    _ ← login_locked;
    known ← state has_credential;
    if negb (negb known)
    then throw (InvalidTransition "sign out of the current Axiom account before starting another native login") else
    generation ← state au_generation;
    port ← lift (map_err IoError (li_port io));
    verifier ← lift (map_err (fun e => StorageError ("secure randomness unavailable: " +:+ e)) (li_verifier io));
    let callback_uri := "http://127.0.0.1:" +:+ show_port port +:+ "/callback" in
    _ ← await;
    client_id ← lift (map_err (fun e => StorageError (error_display e)) (li_client_id io));
    created ← create_authorization
      (CreateAuthorizationRequest (challenge_of verifier) callback_uri client_id
         (client_name (li_hostname io) (li_os io) client_id) hint) auth_base_url callback_uri;
    mret {| nl_callback_host := "127.0.0.1:" +:+ show_port port; nl_authorization_id := ca_id created;
            nl_device_code := ca_device_code created; nl_verifier := verifier; nl_state := ca_state created;
            nl_user_code := ca_user_code created; nl_authorization_url := ca_authorization_url created;
            nl_expires_at := ca_expires_at created;
            nl_interval := Z.max 1 (Z.min 10 (ca_interval_seconds created));
            nl_browser_opened := li_launch_browser io && li_opens io; nl_auth_generation := generation |}
  end.

Definition exchange (request : Request) : Auth ExchangeResponse :=
  reply ← send request;
  match reply with
  | Lost e => throw (ProviderError ("login exchange failed: " +:+ e))
  | Replied status body =>
    if negb (success status)
    then throw (ProviderError ("Axiom rejected the one-time login with HTTP " +:+ show_status status)) else
    lift (ok_or (decode_exchange body) (ProtocolError "invalid native login exchange response"))
  end.

Definition finish_exchange (response : ExchangeResponse) (expected_generation : Z) (p : Pauses) : Auth AccountStatus :=
  if negb (bool_decide (er_status response = "complete"))
  then throw (InvalidTransition "authorization has not been approved yet") else
  b ← lift (ok_or (exchange_bundle response) (ProtocolError "completed login omitted session tokens"));
  _ ← operations_lock false (p_turns p);
  finish_locked b expected_generation.

Definition poll_exchange (l : NativeLogin) (p : Pauses) : Auth (option AccountStatus) :=
  response ← exchange (ExchangeRequest (nl_authorization_id l) (nl_device_code l) (nl_verifier l));
  if bool_decide (er_status response = "pending") then mret None else
  status ← finish_exchange response (nl_auth_generation l) p;
  mret (Some status).

Definition cancel_authorization (l : NativeLogin) : Auth unit :=
  reply ← send (CancelAuthorizationRequest (nl_authorization_id l) (nl_device_code l));
  match reply with
  | Lost e => throw (ProviderError ("could not cancel login: " +:+ e))
  | Replied status _ =>
    if success status || (status =? 404) then mret tt
    else throw (ProviderError ("Axiom rejected login cancellation with HTTP " +:+ show_status status))
  end.

(** One round of [complete]: the result when there is one. *)
Definition login_round (l : NativeLogin) (allowed_origin : string) (deadline : Z) (e : LoginEvent)
    : Auth (option AccountStatus) :=
  t ← now;
  if deadline <=? t then
    _ ← ignore (cancel_authorization l);
    throw (ProviderError "native authorization expired; start sign-in again")
  else match e with
  | LoginCancelled => _ ← ignore (cancel_authorization l); throw CancelledError
  | Ticked p => poll_exchange l p
  | NotAccepted e => throw (IoError e)
  | Accepted request written p =>
    request ← lift request;
    let '(_, valid) := handle_loopback_request request allowed_origin (nl_callback_host l)
                         (nl_authorization_id l) (nl_state l) in
    _ ← lift written;
    match valid with true => poll_exchange l p | false => mret None end
  end.

(** The rounds, as long as there are events. *)
Fixpoint login_rounds (l : NativeLogin) (allowed_origin : string) (deadline : Z) (events : list LoginEvent)
    : Auth (option AccountStatus) :=
  match events with
  | [] => mret None
  | e :: events =>
    done ← login_round l allowed_origin deadline e;
    match done with Some status => mret (Some status) | None => login_rounds l allowed_origin deadline events end
  end.

Definition complete (l : NativeLogin) (auth_base_url : Url) (events : list LoginEvent) : Auth (option AccountStatus) :=
  t ← now;
  login_rounds l (ascii_origin auth_base_url) (default (t + 600 * NANOS) (parse_time (nl_expires_at l))) events.

(** ** A process *)

(** What the rest of the program calls, and what happens in between. *)
Inductive Call : Type :=
| AccessToken (minimum_remaining : Z) (p : Pauses)
| AccountToken (p : Pauses)
| Validate (before after : Pauses)
| Logout (before after : Pauses)
| StartLogin (io : LoginIo) (auth_base_url : Url) (hint : option LoginMethod)
| CompleteLogin (l : NativeLogin) (auth_base_url : Url) (events : list LoginEvent)
| CancelLogin (l : NativeLogin)
| Others (t : Turn).

Definition run_call (c : Call) : Auth unit :=
  match c with
  | AccessToken minimum p => ignore (access_token minimum p)
  | AccountToken p => ignore (access_token_for_account_operation p)
  | Validate before after => ignore (validate_with_revision before after)
  | Logout before after => ignore (logout_with_cancellation before after)
  | StartLogin io url hint => ignore (start_native_login io url hint)
  | CompleteLogin l url events => ignore (complete l url events)
  | CancelLogin l => ignore (cancel_authorization l)
  | Others t => run_turn t
  end.
Definition run_calls (l : list Call) : Auth unit := iterM run_call l.

End Login.
