(* ===== verification/CredentialProofs.v ===== *)
(** Hoare rules of [Credentials]: what each call does to the credential store, to the log
    of requests and to the state; and a service, a clock and a store with which the account
    session can be followed on concrete values. *)

From stdpp Require Import base gmap strings list.
From Stdlib Require Import ZArith NArith Lia.
From S2P Require Import Prelude RustStr Json Inference AppError AuthChecks Credentials SignIn.

Local Open Scope Z_scope.

(** ** Operations that keep a property *)

Definition keeps {A} (P : World -> Prop) (x : Auth A) : Prop := triple P x (fun _ => P) (fun _ => P).

Lemma keeps_bind {A B} P (x : Auth A) (f : A -> Auth B) : keeps P x -> (forall a, keeps P (f a)) -> keeps P (x ≫= f).
Proof. intros Hx Hf. by apply (triple_bind _ _ _ (fun _ => P)). Qed.
Lemma keeps_ret {A} P (a : A) : keeps P (mret a).
Proof. by apply triple_ret. Qed.
Lemma keeps_throw {A} P e : keeps P (throw e : Auth A).
Proof. by apply triple_throw. Qed.
Lemma keeps_result {A} P (r : result AxiomError A) : keeps P (lift r).
Proof. apply triple_lift. by destruct r. Qed.
Lemma keeps_gets {A} P (f : World -> A) : keeps P (gets f).
Proof. by apply triple_gets. Qed.
Lemma keeps_attempt {A} P (x : Auth A) : keeps P x -> keeps P (attempt x).
Proof. intros H w Hw. specialize (H w Hw). unfold attempt. by destruct (x w) as [w' [a|e]]. Qed.
Lemma keeps_ignore {A} P (x : Auth A) : keeps P x -> keeps P (ignore x).
Proof. intros H w Hw. specialize (H w Hw). unfold ignore. by destruct (x w) as [w' [a|e]]. Qed.
Lemma keeps_iter {A} P (f : A -> Auth unit) l : (forall x, x ∈ l -> keeps P (f x)) -> keeps P (iterM f l).
Proof. apply triple_iter. Qed.
Lemma keeps_if {A} P (b : bool) (x y : Auth A) : keeps P x -> keeps P y -> keeps P (if b then x else y).
Proof. by destruct b. Qed.

(** What an attempt leaves. *)
Lemma attempt_triple {A} Pre (x : Auth A) Post Bad :
  triple Pre x Post Bad ->
  triple Pre (attempt x) (fun r w => match r with Ok a => Post a w | Err e => Bad e w end) (fun _ _ => False).
Proof. intros H w Hw. specialize (H w Hw). unfold attempt. by destruct (x w) as [w' [a|e]]. Qed.
Lemma ignore_triple {A} Pre (x : Auth A) Post :
  triple Pre x (fun _ => Post) (fun _ => Post) -> triple Pre (ignore x) (fun _ => Post) (fun _ _ => False).
Proof. intros H w Hw. specialize (H w Hw). unfold ignore. by destruct (x w) as [w' [a|e]]. Qed.

Lemma triple_safe {A} Pre (x : Auth A) Post Bad : triple Pre x Post (fun _ _ => False) -> triple Pre x Post Bad.
Proof. intros H w Hw. specialize (H w Hw). by destruct (x w) as [w' [a|e]]. Qed.
Lemma attempt_keeps {A} P (x : Auth A) : keeps P x -> triple P (attempt x) (fun _ => P) (fun _ _ => False).
Proof. intros H w Hw. specialize (H w Hw). unfold attempt. by destruct (x w) as [w' [a|e]]. Qed.

(** A condition that does not depend on the world. *)
Lemma triple_pure {A} (Q : Prop) Pre (x : Auth A) Post Bad :
  (Q -> triple Pre x Post Bad) -> triple (fun w => Pre w /\ Q) x Post Bad.
Proof. intros H w [Hw HQ]. by apply H. Qed.

(** ** Properties of what is outside of the state *)

(** The world but for the state and the tasks, clocks and cancellations of the process. *)
Definition outside (w : World) :=
  (w_kind w, w_entry w, w_store w, w_locks w, w_server w, w_log w).
Definition blind (P : World -> Prop) : Prop := forall w w', outside w' = outside w -> P w -> P w'.

Lemma blind_step {A} P (x : Auth A) :
  blind P -> (forall w, outside (x w).1 = outside w) -> keeps P x.
Proof.
  intros HP Hx w Hw. specialize (Hx w). destruct (x w) as [w' r]. cbn in Hx.
  destruct r; by apply (HP w).
Qed.
Lemma blind_await P : blind P -> keeps P await.
Proof. intros HP. apply blind_step; [done|]. intros w. unfold await. by destruct (w_awaits w). Qed.
Lemma blind_change {A} P (f : AuthState -> AuthState * A) : blind P -> keeps P (change f).
Proof. intros HP. by apply blind_step. Qed.
Lemma blind_update {A} P (f : AuthState -> AuthState * A) : blind P -> keeps P (update f).
Proof. intros HP. apply keeps_bind; [by apply blind_await|]. intros _. by apply blind_change. Qed.
Lemma blind_state {A} P (f : AuthState -> A) : blind P -> keeps P (state f).
Proof. apply blind_update. Qed.
Lemma blind_write P f : blind P -> keeps P (write f).
Proof. apply blind_update. Qed.
Lemma blind_now P : blind P -> keeps P now.
Proof. intros HP. apply blind_step; [done|]. intros w. unfold now. by destruct (w_clock w). Qed.
Lemma blind_cancelled P : blind P -> keeps P is_cancelled.
Proof. intros HP. apply blind_step; [done|]. intros w. unfold is_cancelled. by destruct (w_cancels w). Qed.
Lemma blind_adopt P c : blind P -> keeps P (adopt_external_credential c).
Proof. intros HP. apply keeps_bind; [apply keeps_result|]. intros _. by apply blind_write. Qed.
Lemma blind_usable P allow minimum : blind P -> keeps P (usable_token allow minimum).
Proof.
  intros HP. apply keeps_bind; [by apply blind_state|]. intros s. apply keeps_if; [apply keeps_throw|].
  destruct (au_access_token s); [|apply keeps_ret]. apply keeps_bind; [by apply blind_now|]. intros t. apply keeps_ret.
Qed.

(** ** Invariants of a process *)

(** What all but the requests and the commit of a session have to do with a property. *)
Record quietly (P : World -> Prop) : Prop := {
  qt_await : keeps P await;
  qt_now : keeps P now;
  qt_cancelled : keeps P is_cancelled;
  qt_store : forall call, keeps P (store_reply call);
  qt_entry : forall entry effect, keeps P (set_entry entry effect);
  qt_lock : keeps P lock_reply;
  qt_read : forall A (f : AuthState -> A), keeps P (change (fun s => (s, f s)));
  qt_revise : forall A (f : AuthState -> A), keeps P (change (fun s => (next_revision s, f (next_revision s))));
  qt_clear : forall d A (f : AuthState -> A),
    keeps P (change (fun s => (clear_local_authorization d s, f (clear_local_authorization d s))));
  qt_adopt : forall c A (f : AuthState -> A), keeps P (change (fun s => (adopted c s, f (adopted c s))));
  qt_validation : forall g a s, keeps P (change (record_validation g a s))
}.

Section Quiet.
Variable P : World -> Prop.
Hypothesis K : quietly P.

Lemma kept_update {A} (f : AuthState -> AuthState * A) : keeps P (change f) -> keeps P (update f).
Proof. intros H. apply keeps_bind; [apply K|]. by intros _. Qed.
Lemma kept_state {A} (f : AuthState -> A) : keeps P (state f).
Proof. apply kept_update, K. Qed.
Lemma kept_clear d : keeps P (write (clear_local_authorization d)).
Proof. apply kept_update. exact (qt_clear _ K d unit (fun _ => tt)). Qed.
Lemma kept_adopt c : keeps P (adopt_external_credential c).
Proof.
  apply keeps_bind; [apply keeps_result|]. intros _. apply kept_update. exact (qt_adopt _ K c unit (fun _ => tt)).
Qed.
End Quiet.

(** One step of a proof that an operation keeps a property. *)
Ltac keep K :=
  first
    [ assumption
    | apply keeps_ret | apply keeps_throw | apply keeps_result | apply keeps_gets
    | apply keeps_attempt | apply keeps_ignore | apply keeps_if
    | exact (qt_await _ K) | exact (qt_now _ K) | exact (qt_cancelled _ K) | exact (qt_lock _ K)
    | exact (qt_store _ K _) | exact (qt_entry _ K _ _)
    | exact (kept_state _ K _) | exact (kept_clear _ K _) | exact (kept_adopt _ K _)
    | lazymatch goal with |- keeps _ (_ ≫= _) => apply keeps_bind; [|intros ?] end
    | case_match ].
Ltac keeping K := repeat keep K.

Section QuietOperations.
Variable P : World -> Prop.
Hypothesis K : quietly P.

Lemma kept_load : keeps P load_persisted_credential.
Proof. unfold load_persisted_credential, store_load. keeping K. Qed.
Lemma kept_save c : keeps P (save_persisted_credential c).
Proof. unfold save_persisted_credential, late_save. keeping K. Qed.
Lemma kept_delete : keeps P delete_persisted_credential.
Proof. unfold delete_persisted_credential. keeping K. Qed.
Lemma kept_acquire : keeps P acquire_credential_lock.
Proof. unfold acquire_credential_lock. keeping K. Qed.

Lemma kept_delete_if expected : keeps P (delete_if_matches_and_clear expected).
Proof.
  unfold delete_if_matches_and_clear. apply keeps_bind; [apply keeps_attempt, kept_load|]. intros persisted.
  apply keeps_bind; [destruct persisted; keeping K; apply kept_delete|]. intros deletion.
  apply keeps_bind; [|intros revision; keeping K].
  apply (kept_update _ K). exact (qt_clear _ K _ Z au_revision).
Qed.
Lemma kept_delete_persisted : keeps P delete_persisted_and_clear.
Proof. unfold delete_persisted_and_clear. keeping K; [apply kept_acquire|apply kept_delete_if]. Qed.
Lemma kept_forget refresh : keeps P (forget refresh).
Proof. unfold forget. keeping K. apply kept_delete_if. Qed.
Lemma kept_login : keeps P login_locked.
Proof. unfold login_locked. keeping K; [apply kept_acquire|apply kept_load]. Qed.
Lemma kept_nearby n : keeps P (write (fun s => nearby s n)).
Proof.
  apply (kept_update _ K). destruct n as [|g a s|c|d].
  - exact (qt_revise _ K unit (fun _ => tt)).
  - intros w Hw. pose proof (qt_validation _ K g a s w Hw) as H. exact H.
  - exact (qt_adopt _ K c unit (fun _ => tt)).
  - exact (qt_clear _ K d unit (fun _ => tt)).
Qed.
Lemma kept_not_automation message : keeps P (not_automation message).
Proof. unfold not_automation. keeping K. Qed.
End QuietOperations.

(** All operations, when all bundles of the service are [good]. *)
Section Operations.
Context {U : UrlLib} {UP : UrlParts} {AC : AuthClock} {DC : AuthCodec} {PK : Pkce}.

Definition good_reply (good : SessionBundle -> Prop) (reply : Reply) : Prop :=
  match reply with
  | Replied _ body =>
    (forall t b, decode_tokens body = Some t -> session_bundle t = Some b -> good b) /\
    (forall t b, decode_exchange body = Some t -> exchange_bundle t = Some b -> good b)
  | Lost _ => True
  end.

Record kept (P : World -> Prop) (good : SessionBundle -> Prop) : Prop := {
  kp_quiet : quietly P;
  kp_reply : forall r, triple P (reply_to r) (fun reply w => P w /\ good_reply good reply) (fun _ => P);
  kp_commit : forall b force previous A (f : AuthState -> A), good b ->
    keeps P (change (fun s => (committed b force previous s, f (committed b force previous s))))
}.

Variables (P : World -> Prop) (good : SessionBundle -> Prop).
Hypothesis KP : kept P good.
Let K : quietly P := kp_quiet _ _ KP.

Lemma kept_send r : triple P (send r) (fun reply w => P w /\ good_reply good reply) (fun _ => P).
Proof. apply (triple_bind _ _ _ (fun _ => P)); [apply K|]. intros _. apply KP. Qed.
Lemma kept_send_any r : keeps P (send r).
Proof. eapply triple_weaken; [apply kept_send|done| |done]. by intros a w []. Qed.
Lemma kept_revoke t : keeps P (revoke t).
Proof. apply keeps_bind; [apply kept_send_any|]. intros _. apply keeps_ret. Qed.

Lemma kept_commit_locked b force expected :
  good b -> keeps P (commit_bundle_under_credential_lock b force expected).
Proof.
  intros Hb. unfold commit_bundle_under_credential_lock, check_bundle. keeping K;
    try apply kept_revoke; try apply (kept_delete_if _ K); try apply (kept_load _ K); try apply (kept_save _ K).
  all: apply (kept_update _ K); exact (kp_commit _ _ KP _ _ _ _ (account_status b) Hb).
Qed.
Lemma kept_commit b force : good b -> keeps P (commit_bundle b force).
Proof. intros Hb. unfold commit_bundle. keeping K; first [apply (kept_acquire _ K)|apply kept_revoke|by apply kept_commit_locked]. Qed.

Lemma kept_answer refresh reply :
  good_reply good reply -> triple P (refresh_answer refresh reply) (fun b w => P w /\ good b) (fun _ => P).
Proof.
  intros Hr. unfold refresh_answer.
  assert (F : forall e : string -> AxiomError, triple P (suffix ← forget refresh; throw (e suffix))
                (fun (b : SessionBundle) w => P w /\ good b) (fun _ => P)).
  { intros e. apply (triple_bind _ _ _ (fun _ => P)); [apply (kept_forget _ K)|].
    intros s. by apply triple_throw. }
  destruct reply as [e|status body]; [exact (F (fun suffix => ProviderError _))|].
  case_match; [exact (F (fun _ => authentication_required))|].
  case_match; [exact (F (fun suffix => ProviderError _))|].
  case_match eqn:Ht; [|exact (F (fun _ => ProtocolError _))].
  case_match eqn:Hb; [|exact (F (fun _ => ProtocolError _))].
  apply triple_ret. intros w Hw. split; [done|]. by apply (proj1 Hr _ _ Ht).
Qed.

Lemma kept_rotate allow : keeps P (rotate allow).
Proof.
  unfold rotate. apply keeps_bind; [apply (kept_acquire _ K)|intros _].
  apply keeps_bind; [apply keeps_attempt, (kept_load _ K)|intros loaded].
  destruct loaded as [persisted|e]; [|keeping K].
  do 4 (apply keeps_bind; [keeping K|intros ?]).
  apply (triple_bind _ _ _ (fun reply w => P w /\ good_reply good reply)); [apply kept_send|].
  intros reply. apply triple_pure. intros Hr.
  apply (triple_bind _ _ _ (fun b w => P w /\ good b)); [by apply kept_answer|].
  intros b. apply triple_pure. intros Hb.
  apply keeps_bind; [keeping K|intros _].
  apply keeps_bind; [by apply kept_commit_locked|intros _]. keeping K.
Qed.

Lemma kept_refresh allow : keeps P (refresh_under_lock allow).
Proof. unfold refresh_under_lock. keeping K. apply kept_rotate. Qed.

Lemma kept_access allow minimum : keeps P (access_locked allow minimum).
Proof. unfold access_locked, usable_token. keeping K. apply kept_refresh. Qed.
Lemma kept_logout bearer : keeps P (logout_locked bearer).
Proof. unfold logout_locked. keeping K; first [apply kept_revoke|apply (kept_delete_persisted _ K)]. Qed.
Lemma kept_finish b generation : good b -> keeps P (finish_locked b generation).
Proof. intros Hb. unfold finish_locked. keeping K; first [apply kept_revoke|by apply kept_commit]. Qed.
Lemma kept_clear_locked generation : keeps P (clear_locked generation).
Proof. unfold clear_locked. keeping K. apply (kept_delete_persisted _ K). Qed.
Definition good_turn (t : Turn) : Prop := match t with Finishes b _ => good b | _ => True end.

Lemma kept_turn t : good_turn t -> keeps P (run_turn t).
Proof.
  intros Ht. destruct t as [allow minimum|bearer|b g|g| |n]; cbn [run_turn]; try apply keeps_ignore.
  - apply kept_access.
  - apply kept_logout.
  - by apply kept_finish.
  - apply kept_clear_locked.
  - apply (kept_login _ K).
  - apply (kept_nearby _ K).
Qed.
Lemma kept_turns l : Forall good_turn l -> keeps P (iterM run_turn l).
Proof. intros Hl. apply keeps_iter. intros t Ht. apply kept_turn. by eapply Forall_forall in Hl. Qed.

Definition good_pauses (p : Pauses) : Prop := Forall good_turn (p_turns p) /\ Forall good_turn (p_resumed p).

Lemma kept_operations cancellable l : Forall good_turn l -> keeps P (operations_lock cancellable l).
Proof. intros Hl. unfold operations_lock. keeping K. by apply kept_turns. Qed.

Lemma kept_access_internal minimum cancellable allow p :
  good_pauses p -> keeps P (access_token_internal minimum cancellable allow p).
Proof.
  intros [Ht Hr]. unfold access_token_internal, usable_token.
  keeping K; try (apply kept_operations; try done; constructor); [apply kept_access|by apply kept_turns].
Qed.

Lemma kept_expire generation revision p : good_pauses p -> keeps P (expire generation revision p).
Proof.
  intros [Ht _]. unfold expire, answer. keeping K; [by apply kept_operations|apply kept_clear_locked].
Qed.
Lemma kept_accept value lease generation revision p :
  good_pauses p -> keeps P (accept_session value lease generation revision p).
Proof.
  intros Hp. unfold accept_session, answer. keeping K; [|by apply kept_expire].
  apply (kept_update _ K), (qt_validation _ K).
Qed.
Lemma kept_validate before after :
  good_pauses before -> good_pauses after -> keeps P (validate_with_revision before after).
Proof.
  intros Hb Ha. unfold validate_with_revision, answer. keeping K;
    [| by apply kept_access_internal | apply kept_send_any | by apply kept_expire | by apply kept_accept ].
  apply (kept_update _ K). exact (qt_revise _ K Z au_revision).
Qed.
Lemma kept_logout_call before after :
  good_pauses before -> good_pauses after -> keeps P (logout_with_cancellation before after).
Proof.
  intros Hb [Ha _]. unfold logout_with_cancellation, access_token.
  keeping K; [apply (kept_not_automation _ K)|by apply kept_access_internal|by apply kept_operations|apply kept_logout].
Qed.
Lemma kept_account_token p : good_pauses p -> keeps P (access_token_for_account_operation p).
Proof.
  intros Hp. unfold access_token_for_account_operation, access_token.
  keeping K; [apply (kept_not_automation _ K)|by apply kept_access_internal].
Qed.

Lemma kept_start io url hint : keeps P (start_native_login io url hint).
Proof.
  unfold start_native_login, create_authorization.
  keeping K; [apply (kept_not_automation _ K)|apply (kept_login _ K)|apply kept_send_any].
Qed.
Lemma kept_cancel l : keeps P (cancel_authorization l).
Proof. unfold cancel_authorization. keeping K. apply kept_send_any. Qed.

Lemma kept_poll l p : good_pauses p -> keeps P (poll_exchange l p).
Proof.
  intros [Hp _]. unfold poll_exchange, exchange.
  apply (triple_bind _ _ _ (fun e w => P w /\ forall b, exchange_bundle e = Some b -> good b)).
  - apply (triple_bind _ _ _ (fun reply w => P w /\ good_reply good reply)); [apply kept_send|].
    intros reply. apply triple_pure. intros Hr. destruct reply as [e|status body]; [by apply triple_throw|].
    case_match; [by apply triple_throw|]. apply triple_lift. intros w Hw.
    destruct (decode_exchange body) as [e|] eqn:Ed; cbn [ok_or]; [|done]. split; [done|].
    intros b Hb. by apply (proj2 Hr e).
  - intros e. apply triple_pure. intros Hb. apply keeps_if; [apply keeps_ret|].
    apply keeps_bind; [|intros ?; apply keeps_ret]. unfold finish_exchange. apply keeps_if; [apply keeps_throw|].
    apply (triple_bind _ _ _ (fun b w => P w /\ good b)).
    + apply triple_lift. intros w Hw. destruct (exchange_bundle e) as [b|]; cbn [ok_or]; auto.
    + intros b. apply triple_pure. intros Hg. apply keeps_bind; [by apply kept_operations|intros _; by apply kept_finish].
Qed.

Definition good_event (e : LoginEvent) : Prop :=
  match e with Ticked p | Accepted _ _ p => good_pauses p | _ => True end.

Lemma kept_round l origin deadline e : good_event e -> keeps P (login_round l origin deadline e).
Proof.
  intros He. unfold login_round. keeping K; try apply kept_cancel; by apply kept_poll.
Qed.
Lemma kept_rounds l origin deadline events :
  Forall good_event events -> keeps P (login_rounds l origin deadline events).
Proof.
  induction 1 as [|e events He _ IH]; cbn [login_rounds]; [apply keeps_ret|].
  apply keeps_bind; [by apply kept_round|]. intros [status|]; [apply keeps_ret|exact IH].
Qed.

Definition good_call (c : Call) : Prop :=
  match c with
  | AccessToken _ p | AccountToken p => good_pauses p
  | Validate before after | Logout before after => good_pauses before /\ good_pauses after
  | CompleteLogin _ _ events => Forall good_event events
  | Others t => good_turn t
  | StartLogin _ _ _ | CancelLogin _ => True
  end.

(** Whatever is called, the property stays. *)
Lemma kept_call c : good_call c -> keeps P (run_call c).
Proof.
  intros Hc. destruct c as [minimum p|p|before after|before after|io url hint|l url events|l|t];
    cbn [run_call good_call] in *; try apply keeps_ignore.
  - by apply kept_access_internal.
  - by apply kept_account_token.
  - destruct Hc. by apply kept_validate.
  - destruct Hc. by apply kept_logout_call.
  - apply kept_start.
  - unfold complete. keeping K. by apply kept_rounds.
  - apply kept_cancel.
  - by apply kept_turn.
Qed.
Lemma kept_calls l : Forall good_call l -> keeps P (run_calls l).
Proof. intros Hl. apply keeps_iter. intros c Hc. apply kept_call. by eapply Forall_forall in Hl. Qed.
End Operations.

(** * A service one can run *)

Definition sample_clock : AuthClock := {| parse_time := fun _ => Some (1000 * NANOS); show_time := fun _ => "later" |}.

Definition sample_account (id : string) : AccountProfile :=
  {| ap_id := id; ap_display_name := None; ap_avatar_url := None; ap_verified_email := None; ap_linked_methods := [Passkey] |}.
Definition sample_session : NativeSessionStatus := {| ns_id := None; ns_expires_at := "later" |}.
Definition sample_bundle (access refresh id : string) : SessionBundle :=
  {| bn_access_token := access; bn_access_expires_at := 1000 * NANOS; bn_refresh_token := refresh;
     bn_account := sample_account id; bn_session := sample_session |}.

(** Bodies are words between bars. *)
Definition sample_body (words : list string) : list N := bytes (join "|" words).
Definition sample_codec : AuthCodec :=
  {| decode_tokens := fun body =>
       match split_byte 124 (of_bytes body) with
       | ["tokens"; access; refresh; id] =>
         Some {| tr_token_type := "Bearer"; tr_access_token := access; tr_access_expires_at := "later";
                 tr_refresh_token := refresh; tr_refresh_expires_at := "later"; tr_account := sample_account id;
                 tr_session := sample_session |}
       | _ => None
       end;
     decode_exchange := fun body =>
       match split_byte 124 (of_bytes body) with
       | ["pending"] =>
         Some {| er_status := "pending"; er_token_type := None; er_access_token := None; er_access_expires_at := None;
                 er_refresh_token := None; er_refresh_expires_at := None; er_account := None; er_session := None |}
       | ["complete"; access; refresh; id] =>
         Some {| er_status := "complete"; er_token_type := Some "bearer"; er_access_token := Some access;
                 er_access_expires_at := Some "later"; er_refresh_token := Some refresh;
                 er_refresh_expires_at := Some "later"; er_account := Some (sample_account id);
                 er_session := Some sample_session |}
       | _ => None
       end;
     decode_created := fun _ => None;
     decode_session := fun body =>
       match split_byte 124 (of_bytes body) with
       | ["session"; id] =>
         Some {| sr_authenticated := true; sr_account := Some (sample_account id); sr_session := None |}
       | _ => None
       end;
     show_status := fun _ => "4000" |}.
Definition sample_pkce : Pkce := {| challenge_of := fun v => v |}.

#[export] Existing Instance simple_url.
#[export] Existing Instance simple_parts.
#[export] Existing Instance sample_clock.
#[export] Existing Instance sample_codec.
#[export] Existing Instance sample_pkce.

Definition R0 : string := "refresh-0-of-alice-with-32-bytes-or-more".
Definition R1 : string := "refresh-1-of-alice-with-32-bytes-or-more".
Definition R2 : string := "refresh-2-of-alice-with-32-bytes-or-more".
Definition A1 : string := "access-1-of-alice-with-32-bytes-or-more".
Definition A2 : string := "access-2-of-alice-with-32-bytes-or-more".
Definition RB : string := "refresh-of-bob-with-32-bytes-or-more....".
Definition AB : string := "access-of-bob-with-32-bytes-or-more.....".

Definition tokens_reply (access refresh id : string) : Reply := Replied 200 (sample_body ["tokens"; access; refresh; id]).
Definition session_reply (id : string) : Reply := Replied 200 (sample_body ["session"; id]).

(** A process that has just started, with a token in the keyring. *)
Definition started (store : StoreCall -> list StoreReply) (locks : list LockReply) (awaits : list (list Nearby))
    (server : list Reply) : World :=
  {| w_auth := initial_state None (Some R0) SystemKeyring None; w_kind := KeyringStore; w_entry := Some R0;
     w_store := store; w_locks := locks; w_awaits := awaits; w_clock := []; w_cancels := [];
     w_server := server; w_log := [] |}.
Definition working : StoreCall -> list StoreReply := fun _ => [].

Definition sample_owner (access : string) : string := if bool_decide (access = AB) then "bob" else "alice".

(** The session that [new_with_paths] makes of the keyring. *)
Example started_by_new :
  (new_with_paths None None None (started working [] [] [])).1 = started working [] [] [].
Proof. reflexivity. Qed.

(** A browser login, from the poll that is pending to the session. *)
Definition sample_login (generation : Z) : NativeLogin :=
  {| nl_callback_host := "127.0.0.1:4000"; nl_authorization_id := "auth-1"; nl_device_code := "device";
     nl_verifier := "verifier"; nl_state := "s-2"; nl_user_code := "CODE"; nl_authorization_url := "https://auth.axiom.stream";
     nl_expires_at := "later"; nl_interval := 1; nl_browser_opened := true; nl_auth_generation := generation |}.
Definition signed_out : World :=
  with_entry None (with_auth (fun _ => initial_state None None SystemKeyring None)
    (started working [] [] [Replied 200 (sample_body ["pending"]); Replied 200 (sample_body ["complete"; A1; R1; "alice"])])).

Example login_completes :
  let '(w, r) := complete (sample_login 0) ("https://auth.axiom.stream" : Url)
                   [Ticked no_pauses; Accepted (Ok browser_request) (Ok tt) no_pauses] signed_out in
  w_entry w = Some R1 /\ active_account_id (w_auth w) = Some "alice" /\
  match r with Ok (Some status) => account_status_is_current (w_auth w) status = true | _ => False end.
Proof. by vm_compute. Qed.

(** A connection from which nothing comes ends the login: browsers open such connections
    before they need them. *)
Example idle_connection_ends_login :
  (complete (sample_login 0) ("https://auth.axiom.stream" : Url)
     [Accepted (Err (ProtocolError "loopback callback timed out")) (Ok tt) no_pauses; Ticked no_pauses] signed_out).2
  = Err (ProtocolError "loopback callback timed out").
Proof. by vm_compute. Qed.
