(* ===== verification/CredentialTheorems.v ===== *)
(** What the account session of a process promises (apps/axiomcli/src/auth.rs). *)

From stdpp Require Import base gmap strings list.
From Stdlib Require Import ZArith NArith Lia.
From S2P Require Import Prelude RustStr Json Inference AppError AuthChecks Credentials SignIn CredentialProofs.

Local Open Scope Z_scope.

(** ** The account of a token *)

Section Accounts.
Context {U : UrlLib} {UP : UrlParts} {AC : AuthClock} {DC : AuthCodec} {PK : Pkce}.

(** The account that the service has issued an access token for. *)
Variable Owner : string -> string.

Definition honest (b : SessionBundle) : Prop := Owner (bn_access_token b) = ap_id (bn_account b).
Definition belongs_to (s : AuthState) : Prop :=
  forall t, au_access_token s = Some t -> exists a, au_account s = Some a /\ Owner (ct_token t) = ap_id a.
Definition belongs (w : World) : Prop := belongs_to (w_auth w) /\ Forall (good_reply honest) (w_server w).

Lemma validation_belongs g a session s : belongs_to s -> belongs_to (record_validation g a session s).1.
Proof.
  intros H. unfold record_validation. case_if; [done|]. destruct (other_account s a) eqn:Ho; [done|].
  intros t Ht. cbn in *. destruct (H t Ht) as (b & Hb & HO). exists a. split; [done|]. rewrite HO.
  unfold other_account in Ho. rewrite Hb in Ho. by apply negb_false_iff, bool_decide_eq_true in Ho.
Qed.
Lemma nearby_belongs s n : belongs_to s -> belongs_to (nearby s n).
Proof. intros H. destruct n; cbn [nearby]; [done|by apply validation_belongs|done..]. Qed.

Lemma belongs_change {A} (f : AuthState -> AuthState * A) :
  (forall s, belongs_to s -> belongs_to (f s).1) -> keeps belongs (change f).
Proof. intros Hf w [Ha Hs]. split; [by apply Hf|done]. Qed.

Lemma quiet_belongs : quietly belongs.
Proof.
  constructor.
  - intros w [Ha Hs]. unfold await. destruct (w_awaits w) as [|ns l]; [done|]. split; [|done]. cbn.
    generalize (w_auth w), Ha. induction ns as [|n ns IH]; intros s H; [done|]. by apply IH, nearby_belongs.
  - intros w Hw. unfold now. by destruct (w_clock w).
  - intros w Hw. unfold is_cancelled. by destruct (w_cancels w).
  - intros call w Hw. unfold store_reply. by destruct (w_store w call).
  - intros entry [] w Hw; exact Hw.
  - intros w Hw. unfold lock_reply. by destruct (w_locks w) as [|[[]|] ].
  - intros A f. by apply belongs_change.
  - intros A f. by apply belongs_change.
  - intros d A f. by apply belongs_change.
  - intros c A f. by apply belongs_change.
  - intros g a s. apply belongs_change. by apply validation_belongs.
Qed.
Lemma kept_belongs : kept belongs honest.
Proof.
  constructor; [apply quiet_belongs| |].
  - intros r w [Ha Hs]. unfold reply_to. destruct (w_server w) as [|reply l]; [by repeat split|].
    apply Forall_cons in Hs as [Hr Hs]. by repeat split.
  - intros b force previous A f Hb. apply belongs_change. intros s _ t [= <-]. by exists (bn_account b).
Qed.

(** What a lease is for. *)
Definition leased (lease : AccessTokenLease) (w : World) : Prop :=
  exists a, au_account (w_auth w) = Some a /\ Owner (al_token lease) = ap_id a.

Lemma read_belongs {A} (f : AuthState -> A) :
  triple belongs (state f) (fun a w => belongs w /\ a = f (w_auth w)) (fun _ => belongs).
Proof.
  apply (triple_bind _ _ _ (fun _ => belongs)); [apply quiet_belongs|]. intros _ w Hw. split; [|done].
  destruct Hw. by split.
Qed.

Lemma usable_leased allow minimum :
  triple belongs (usable_token allow minimum)
    (fun o w => belongs w /\ forall lease, o = Some lease -> leased lease w) (fun _ => belongs).
Proof.
  unfold usable_token.
  apply (triple_bind _ _ _ _ _ _ (read_belongs id)). intros s.
  - case_if; [by apply triple_throw; intros w []|].
    destruct (au_access_token s) as [t|] eqn:Et; [|by apply triple_ret; intros w []; split].
    apply (triple_bind _ _ _ (fun _ w => belongs w /\ s = w_auth w)).
    + intros w Hw. unfold now. by destruct (w_clock w).
    + intros c. apply triple_ret. intros w [Hw ->]. split; [done|]. intros lease. case_if; intros [= <-].
      by apply (proj1 Hw).
Qed.

Lemma refresh_leased allow : triple belongs (refresh_under_lock allow) leased (fun _ => belongs).
Proof.
  apply (triple_bind _ _ _ (fun _ => belongs)); [by apply (kept_rotate _ _ kept_belongs)|]. intros _.
  apply (triple_bind _ _ _ _ _ _ (read_belongs au_access_token)). intros [t|].
  - apply triple_ret. intros w [[Hw _] Ht]. by apply Hw.
  - by apply triple_throw; intros w [].
Qed.

Lemma access_leased allow minimum : triple belongs (access_locked allow minimum) leased (fun _ => belongs).
Proof.
  apply (triple_bind _ _ _ _ _ _ (usable_leased allow minimum)). intros [lease|].
  - apply triple_ret. intros w [_ Hw]. by apply Hw.
  - eapply triple_weaken; [apply refresh_leased|by intros w []|done|done].
Qed.

(** A token that was handed out: when it was taken it was the token of the account shown,
    or the automation key; then come the turns [resumed] before the caller goes on. *)
Definition handed (lease : AccessTokenLease) (resumed : list Turn) (w2 : World) : Prop :=
  exists w1, (leased lease w1 \/ au_automation_key (w_auth w1) = Some (al_token lease)) /\
    (w2 = w1 \/ exists r, iterM run_turn resumed w1 = (w2, r)).

Lemma internal_handed minimum cancellable allow p :
  good_pauses honest p ->
  triple belongs (access_token_internal minimum cancellable allow p)
    (fun lease w => belongs w /\ handed lease (p_resumed p) w) (fun _ => belongs).
Proof.
  intros Hp. unfold access_token_internal.
  apply (triple_bind _ _ _ _ _ _ (read_belongs au_automation_key)). intros [key|].
  { apply triple_ret. intros w [Hw Hk]. split; [done|]. exists w. by split; [right|left]. }
  apply (triple_bind _ _ _ (fun o w => belongs w /\ forall lease, o = Some lease -> leased lease w)).
  { eapply triple_weaken; [apply usable_leased|by intros w []|done|done]. }
  intros [lease|].
  { apply triple_ret. intros w [Hw Hl]. split; [done|]. exists w. split; [left; by apply Hl|by left]. }
  do 2 (apply (triple_bind _ _ _ (fun _ => belongs));
    [eapply triple_weaken; [eapply (kept_operations _ _ kept_belongs)|by intros w []|done|done]; try apply Hp; constructor|intros _]).
  intros w Hw. rewrite M_bind_run. unfold attempt.
  pose proof (kept_access _ _ kept_belongs allow minimum w Hw) as K. pose proof (access_leased allow minimum w Hw) as L.
  destruct (access_locked allow minimum w) as [w1 r1]. assert (K1 : belongs w1) by (by destruct r1).
  pose proof (kept_turns _ _ kept_belongs _ (proj2 Hp) w1 K1) as T.
  rewrite M_bind_run. destruct (iterM run_turn (p_resumed p) w1) as [w2 [u|e]] eqn:E; [|done].
  destruct r1 as [lease|e]; [|done]. split; [done|]. exists w1. split; [by left|]. right. by eexists.
Qed.

(** C23: In every interleaving of calls, validations, logins, sign-outs and changes by other
    processes, with any failure of the store and of the service, the access token that a
    process holds was issued for the account it shows; and so was every token when it is
    handed out, under the lock or by any entry point, unless it is the automation key.  The
    label of an account lease is the account (and the generation) shown when the caller
    goes on: that is the account of the token unless turns that came between the two have
    changed it, as in [leases_may_be_mislabelled].  Assumed ([belongs], [good_call]): the
    service names the account that a token is for, in its answers and in the sessions that
    calls bring, and the process starts with no token or one of the account shown. *)
Theorem leases_belong_to_their_account calls w w1 r :
  belongs w -> Forall (good_call honest) calls -> run_calls calls w = (w1, r) ->
  belongs_to (w_auth w1) /\
  (forall allow minimum w2 lease, access_locked allow minimum w1 = (w2, Ok lease) -> leased lease w2) /\
  (forall minimum cancellable allow p w2 lease, good_pauses honest p ->
     access_token_internal minimum cancellable allow p w1 = (w2, Ok lease) -> handed lease (p_resumed p) w2) /\
  (forall p w3 lease, good_pauses honest p -> access_token_for_account_operation p w1 = (w3, Ok lease) ->
     exists w2, handed (aa_access lease) (p_resumed p) w2 /\ await w2 = (w3, Ok tt) /\
       active_account_id (w_auth w3) = Some (aa_account_id lease) /\
       au_generation (w_auth w3) = aa_generation lease).
Proof.
  intros Hw Hc H. pose proof (kept_calls _ _ kept_belongs calls Hc w Hw) as K. rewrite H in K.
  assert (Hb : belongs w1) by (by destruct r). split_and!; [by destruct Hb|..].
  - intros allow minimum w2 lease E. pose proof (access_leased allow minimum w1 Hb) as L. by rewrite E in L.
  - intros minimum cancellable allow p w2 lease Hp E.
    pose proof (internal_handed minimum cancellable allow p Hp w1 Hb) as L. rewrite E in L. by destruct L.
  - intros p w3 lease Hp E. unfold access_token_for_account_operation in E.
    apply M_bind_Ok in E as (wa & u & Ea & E).
    pose proof (kept_not_automation _ quiet_belongs "this operation requires a native Axiom account session; AXIOM_API_KEY is automation-only" w1 Hb) as N.
    rewrite Ea in N. apply M_bind_Ok in E as (w2 & access & E2 & E).
    pose proof (internal_handed (30 * NANOS) true false p Hp wa N) as L. unfold access_token in E2. rewrite E2 in L. destruct L as [_ L].
    apply M_bind_Ok in E as (wb & found & Eb & E). unfold state, update in Eb.
    apply M_bind_Ok in Eb as (wc & [] & Ec & Eb). unfold change in Eb. injection Eb as <- <-. cbn [fst snd] in E.
    destruct (active_account_id (w_auth wc)) as [id|] eqn:Hid; [|done]. injection E as <- <-.
    exists w2. cbn [aa_access aa_account_id aa_generation]. destruct wc; cbn in *. by split_and!.
Qed.

(** ** Work that goes on *)

(** While other tasks only validate the session and publish revisions. *)
Definition calm (n : Nearby) : Prop := match n with Revised | Answered _ _ _ => True | _ => False end.
Definition at_work (g : Z) (id : string) (w : World) : Prop :=
  Forall (Forall calm) (w_awaits w) /\ au_generation (w_auth w) = g /\ active_account_id (w_auth w) = Some id.

Lemma calm_nearby n s : calm n -> is_Some (active_account_id s) ->
  au_generation (nearby s n) = au_generation s /\ active_account_id (nearby s n) = active_account_id s.
Proof.
  intros Hn Hs. destruct n as [|g a session|c|d]; [done| |done..]. cbn [nearby]. unfold record_validation.
  case_if; [done|]. destruct (other_account s a) eqn:Ho; [done|]. split; [done|]. unfold active_account_id in *. cbn.
  unfold other_account in Ho. destruct (au_account s) as [b|]; [|by destruct Hs].
  apply negb_false_iff, bool_decide_eq_true in Ho. cbn. by rewrite Ho.
Qed.

Section Working.
Variables (g : Z) (id : string).
Notation W := (at_work g id).

Lemma work_await : keeps W await.
Proof.
  intros w (Hc & Hg & Hi). unfold await. destruct (w_awaits w) as [|ns l] eqn:E; [by split_and!; [rewrite E|..]|].
  apply Forall_cons in Hc as [Hns Hl]. split; [done|]. cbn. clear E. revert Hg Hi. generalize (w_auth w).
  induction Hns as [|n ns Hn _ IH]; intros s Hg Hi; [done|].
  destruct (calm_nearby n s Hn) as [E1 E2]; [by rewrite Hi|]. apply IH; congruence.
Qed.
Lemma work_outside {A} (x : Auth A) :
  (forall w, w_auth (x w).1 = w_auth w /\ w_awaits (x w).1 = w_awaits w) -> keeps W x.
Proof.
  intros Hx w (Hc & Hg & Hi). specialize (Hx w). destruct (x w) as [w' r]. cbn in Hx. destruct Hx as [E1 E2].
  destruct r; unfold at_work; by rewrite E1, E2.
Qed.
Lemma work_store call : keeps W (store_reply call).
Proof. apply work_outside. intros w. unfold store_reply. by destruct (w_store w call). Qed.
Lemma work_entry entry effect : keeps W (set_entry entry effect).
Proof. apply work_outside. intros w. by destruct effect. Qed.
Lemma work_lock : keeps W lock_reply.
Proof. apply work_outside. intros w. unfold lock_reply. by destruct (w_locks w) as [|[[]|] ]. Qed.
Lemma work_now : keeps W now.
Proof. apply work_outside. intros w. unfold now. by destruct (w_clock w). Qed.
Lemma work_send q : keeps W (send q).
Proof.
  apply keeps_bind; [apply work_await|]. intros _. apply work_outside. intros w. unfold reply_to. by destruct (w_server w).
Qed.

Ltac working :=
  repeat first
    [ apply keeps_ret | apply keeps_throw | apply keeps_result | apply keeps_gets | apply keeps_attempt
    | apply work_await | apply work_store | apply work_entry | apply work_lock | apply work_now | apply work_send
    | lazymatch goal with |- keeps _ (_ ≫= _) => apply keeps_bind; [|intros ?] end | case_match ].








End Working.

End Accounts.

(** ** Issued sessions *)

Section Settling.
Context {U : UrlLib} {UP : UrlParts} {AC : AuthClock} {DC : AuthCodec} {PK : Pkce}.

Lemma quiet_log (P : list (Request * Reply) -> Prop) : quietly (fun w => P (w_log w)).
Proof.
  constructor; try (by intros; intros w Hw).
  - intros w Hw. unfold await. by destruct (w_awaits w).
  - intros w Hw. unfold now. by destruct (w_clock w).
  - intros w Hw. unfold is_cancelled. by destruct (w_cancels w).
  - intros call w Hw. unfold store_reply. by destruct (w_store w call).
  - intros entry [] w Hw; exact Hw.
  - intros w Hw. unfold lock_reply. by destruct (w_locks w) as [|[[]|] ].
Qed.
Lemma kept_log (P : list (Request * Reply) -> Prop) :
  (forall l x, P l -> P (l ++ [x])) -> kept (fun w => P (w_log w)) (fun _ => True).
Proof.
  intros HP. constructor; [apply quiet_log| |by intros; intros w Hw].
  intros r w Hw. unfold reply_to. destruct (w_server w) as [|[e|status body] l]; cbn; auto 6.
Qed.

Definition revoked (b : SessionBundle) (l : list (Request * Reply)) : Prop :=
  exists reply, (RevokeRequest (bn_access_token b), reply) ∈ l.
Lemma kept_revoked b : kept (fun w => revoked b (w_log w)) (fun _ => True).
Proof. apply kept_log. intros l x [reply H]. exists reply. apply elem_of_app. by left. Qed.

Lemma revoking b Pre :
  triple Pre (revoke (bn_access_token b)) (fun _ w => revoked b (w_log w)) (fun _ w => revoked b (w_log w)).
Proof.
  intros w _. unfold revoke, send. rewrite !M_bind_run. unfold await.
  destruct (w_awaits w) as [|ns l]; rewrite ?M_bind_run; unfold reply_to;
    match goal with |- context [w_server ?x] => destruct (w_server x) as [|reply rest] end; cbn;
    (eexists; apply elem_of_app; right; by left).
Qed.

(** A session that was issued is in the store, or was revoked. *)
Definition settled (b : SessionBundle) (w : World) : Prop :=
  revoked b (w_log w) \/ w_entry w = Some (bn_refresh_token b).

Lemma blind_settled b : blind (settled b).
Proof. intros w w' E. unfold outside in E. injection E as _ He _ _ _ Hl. unfold settled. by rewrite He, Hl. Qed.

(** Whatever comes before, and however it ends. *)
Definition settles {A} (b : SessionBundle) (x : Auth A) : Prop :=
  triple (fun _ => True) x (fun _ => settled b) (fun _ => settled b).

Lemma settles_bind {A B} b (x : Auth A) (f : A -> Auth B) Mid :
  triple (fun _ => True) x Mid (fun _ => settled b) -> (forall a, triple (Mid a) (f a) (fun _ => settled b) (fun _ => settled b)) ->
  settles b (x ≫= f).
Proof. apply triple_bind. Qed.
Lemma settles_after {A B} b (x : Auth A) (f : A -> Auth B) :
  triple (fun _ => True) x (fun _ _ => True) (fun _ => settled b) -> (forall a, settles b (f a)) -> settles b (x ≫= f).
Proof. apply triple_bind. Qed.
Lemma settles_attempt {A B} b (x : Auth A) (f : result AxiomError A -> Auth B) :
  (forall a, settles b (f a)) -> settles b (attempt x ≫= f).
Proof. apply settles_after. intros w _. unfold attempt. by destruct (x w). Qed.
Lemma settles_state {A B} b (g : AuthState -> A) (f : A -> Auth B) :
  (forall a, settles b (f a)) -> settles b (state g ≫= f).
Proof.
  apply settles_after. intros w _. unfold state, update, await. rewrite M_bind_run.
  destruct (w_awaits w); cbn; done.
Qed.
Lemma revoke_then {A} b (f : unit -> Auth A) :
  (forall u, keeps (fun w => revoked b (w_log w)) (f u)) -> settles b (revoke (bn_access_token b) ≫= f).
Proof.
  intros Hx. apply (triple_bind _ _ _ (fun _ w => revoked b (w_log w))).
  - eapply triple_weaken; [apply (revoking b (fun _ => True))|done|done|]. by left.
  - intros u. eapply triple_weaken; [exact (Hx u)|done| |]; by left.
Qed.

Lemma any {A} (x : Auth A) : triple (fun _ => True) x (fun _ _ => True) (fun _ _ => True).
Proof. intros w _. by destruct (x w) as [w' [a|e]]. Qed.
Lemma saved_entry c : triple (fun _ => True) (save_persisted_credential c) (fun _ w => w_entry w = Some c) (fun _ _ => True).
Proof.
  unfold save_persisted_credential. apply (triple_bind _ _ _ (fun _ _ => True)); [apply any|intros _].
  apply (triple_bind _ _ _ (fun _ _ => True)); [apply any|intros r].
  apply (triple_bind _ _ _ (fun _ _ => True)); [apply any|intros kind].
  destruct kind, r; try (by apply triple_throw); try (by intros w _);
    (apply (triple_bind _ _ _ (fun _ _ => True)); [apply any|intros _; by apply triple_throw]).
Qed.

Lemma commit_settles b force expected : settles b (commit_bundle_under_credential_lock b force expected).
Proof.
  pose proof (kept_revoked b) as KP. pose proof (kp_quiet _ _ KP) as K. cbv beta in K.
  unfold commit_bundle_under_credential_lock. apply settles_attempt. intros [u|e].
  2: { apply revoke_then. intros _. keeping K; by apply kept_delete_if. }
  apply settles_state. intros previous. case_if.
  { apply revoke_then. intros _. keeping K; by apply kept_delete_if. }
  apply settles_attempt. intros [persisted|e].
  2: { apply revoke_then. intros _. keeping K. }
  case_if.
  { apply revoke_then. intros _. keeping K. }
  apply (settles_bind _ _ _ (fun r w => match r with Ok _ => w_entry w = Some (bn_refresh_token b) | Err _ => True end)).
  { eapply triple_weaken; [apply (attempt_triple _ _ _ _ (saved_entry _))|done| |done]. by intros [u'|e] w. }
  intros [u'|e].
  - eapply triple_weaken; [apply blind_update, (blind_settled b)|by right|done|done].
  - apply revoke_then. intros _. keeping K; by apply kept_delete_if.
Qed.

(** The bundle in the answer to a refresh. *)
Definition bundle_of (reply : Reply) : option SessionBundle :=
  match reply with
  | Replied status body =>
    if (200 <=? status) && (status <? 300) then decode_tokens body ≫= session_bundle else None
  | Lost _ => None
  end.

Definition asked (l : list (Request * Reply)) (t : string) (reply : Reply) (l' : list (Request * Reply)) : Prop :=
  exists more, l' = l ++ (RefreshRequest t, reply) :: more.
Lemma kept_asked l t reply : kept (fun w => asked l t reply (w_log w)) (fun _ => True).
Proof. apply kept_log. intros l' x [more ->]. exists (more ++ [x]). by rewrite <- app_assoc. Qed.

(** What a rotation leaves: no request, or one whose bundle is settled. *)
Definition rotated (l : list (Request * Reply)) (w : World) : Prop :=
  w_log w = l \/ exists t reply, asked l t reply (w_log w) /\ forall b, bundle_of reply = Some b -> settled b w.

Lemma answer_bundle l t reply :
  triple (fun w => asked l t reply (w_log w)) (refresh_answer t reply)
    (fun b w => asked l t reply (w_log w) /\ bundle_of reply = Some b) (fun _ => rotated l).
Proof.
  pose proof (kp_quiet _ _ (kept_asked l t reply)) as K. cbv beta in K. unfold refresh_answer.
  assert (F : bundle_of reply = None -> forall e : string -> AxiomError,
    triple (fun w => asked l t reply (w_log w)) (suffix ← forget t; throw (e suffix))
      (fun b w => asked l t reply (w_log w) /\ bundle_of reply = Some b) (fun _ => rotated l)).
  { intros Hn e. apply (triple_bind _ _ _ (fun _ w => asked l t reply (w_log w))).
    - eapply triple_weaken; [apply (kept_forget _ K)|done|done|]. intros e' w Hw. right. exists t, reply. by rewrite Hn.
    - intros s. apply triple_throw. intros w Hw. right. exists t, reply. by rewrite Hn. }
  destruct reply as [e|status body]; [exact (F eq_refl (fun suffix => ProviderError _))|]. cbn [bundle_of] in *.
  destruct (status =? 401) eqn:H4; [apply (F ltac:(by case_if; [lia|]) (fun _ => authentication_required))|].
  case_if; [apply (F ltac:(by apply negb_true_iff in Hif; rewrite Hif) (fun suffix => ProviderError _))|].
  apply negb_false_iff in Hif. rewrite Hif in *.
  destruct (decode_tokens body) as [tr|] eqn:Hd; [|exact (F eq_refl (fun _ => ProtocolError _))]. cbn in *.
  destruct (session_bundle tr) as [b|] eqn:Hs; [|exact (F eq_refl (fun _ => ProtocolError _))].
  by apply triple_ret.
Qed.

Lemma triple_and {A} P1 P2 (x : Auth A) Q1 Q2 B1 B2 :
  triple P1 x Q1 B1 -> triple P2 x Q2 B2 ->
  triple (fun w => P1 w /\ P2 w) x (fun a w => Q1 a w /\ Q2 a w) (fun e w => B1 e w /\ B2 e w).
Proof. intros H1 H2 w [W1 W2]. specialize (H1 w W1). specialize (H2 w W2). by destruct (x w) as [w' [a|e]]. Qed.

Lemma rotated_before {A} l (x : Auth A) :
  keeps (fun w => w_log w = l) x -> triple (fun w => w_log w = l) x (fun _ w => w_log w = l) (fun _ => rotated l).
Proof. intros Hx. eapply triple_weaken; [exact Hx|done|done|]. by left. Qed.

(** The end of a rotation, with the bundle. *)
Lemma commit_rotated {A} l t reply b force expected (x : Auth A) :
  bundle_of reply = Some b -> (forall P, keeps P x) ->
  triple (fun w => asked l t reply (w_log w)) (_ ← commit_bundle_under_credential_lock b force expected; x)
    (fun _ => rotated l) (fun _ => rotated l).
Proof.
  intros Hb Hx.
  assert (R : forall w, asked l t reply (w_log w) /\ settled b w -> rotated l w).
  { intros w [Ha Hs]. right. exists t, reply. split; [done|]. intros b' Hb'. congruence. }
  pose proof (kept_commit_locked _ _ (kept_asked l t reply) b force expected I) as Hk.
  apply (triple_bind _ _ _ (fun _ w => asked l t reply (w_log w) /\ settled b w)).
  - eapply triple_weaken; [apply (triple_and _ _ _ _ _ _ _ Hk (commit_settles b force expected))|done|done|].
    intros e w Hw. by apply R.
  - intros _. eapply triple_weaken; [apply (triple_and _ _ _ _ _ _ _ (Hx (fun w => asked l t reply (w_log w))) (Hx (settled b)))|done|..];
      intros ? w Hw; by apply R.
Qed.

(** A value that is loaded has the shape of a token. *)
Lemma load_shape P : quietly P ->
  triple P (attempt load_persisted_credential)
    (fun r w => P w /\ match r with Ok (Some t) => validate_token_shape t "stored refresh token" = Ok tt | _ => True end)
    (fun _ => P).
Proof.
  intros K. assert (H : triple P load_persisted_credential
    (fun v w => P w /\ if_some v (fun v => validate_token_shape v "stored refresh token") = Ok tt) (fun _ => P)).
  { unfold load_persisted_credential. apply (triple_bind _ _ _ (fun _ => P)); [apply K|intros _].
    apply (triple_bind _ _ _ (fun _ => P)); [change (keeps P store_load); unfold store_load; keeping K|intros v].
    apply (triple_bind _ _ _ (fun _ w => P w /\ if_some v (fun v => validate_token_shape v "stored refresh token") = Ok tt)).
    - apply triple_lift. intros w Hw. by destruct (if_some _ _) as [[]|e].
    - intros _. by apply triple_ret. }
  eapply triple_weaken; [exact (attempt_triple _ _ _ _ H)|done| |done].
  intros [[t|]|e] w; cbn; [by intros []|by intros []|done].
Qed.

Lemma rotate_settles l allow : triple (fun w => w_log w = l) (rotate allow) (fun _ => rotated l) (fun _ => rotated l).
Proof.
  pose proof (quiet_log (fun l' => l' = l)) as K. cbv beta in K.
  unfold rotate. apply (triple_bind _ _ _ (fun _ w => w_log w = l)); [by apply rotated_before, kept_acquire|intros _].
  eapply triple_bind.
  { eapply triple_weaken; [apply (load_shape _ K)|done|done|]. by left. }
  intros [persisted|e]; cbv beta; apply triple_pure; intros Hshape.
  2: { apply (triple_bind _ _ _ (fun _ w => w_log w = l)); [apply rotated_before; keeping K|].
       intros _. apply triple_throw. by left. }
  do 3 (apply (triple_bind _ _ _ (fun _ w => w_log w = l)); [apply rotated_before; keeping K|intros ?]).
  destruct persisted as [t|]; cbn [ok_or].
  2: { apply (triple_bind _ _ _ (fun _ _ => False)); [|by intros r w]. intros w Hw. by left. }
  apply (triple_bind _ _ _ (fun r w => w_log w = l /\ r = t)); [by apply triple_ret|]. intros r. apply triple_pure. intros ->.
  apply (triple_bind _ _ _ (fun reply w => asked l t reply (w_log w))).
  { apply (triple_bind _ _ _ (fun _ w => w_log w = l)); [apply rotated_before, K|intros _]. intros w Hw. unfold reply_to.
    destruct (w_server w); cbn; exists []; by rewrite Hw. }
  intros reply. apply (triple_bind _ _ _ _ _ _ (answer_bundle l t reply)). intros b. apply triple_pure. intros Hb.
  apply (triple_bind _ _ _ (fun _ w => asked l t reply (w_log w))).
  - pose proof (quiet_log (asked l t reply)) as K2. case_if; [|by apply triple_ret].
    unfold adopt_external_credential. cbn [if_some]. rewrite Hshape.
    apply (triple_bind _ _ _ (fun _ w => asked l t reply (w_log w))); [by apply triple_ret|]. intros _.
    intros w Hw. unfold write, update. rewrite M_bind_run. unfold await. by destruct (w_awaits w).
  - intros _. apply (commit_rotated l t reply b); [done|]. intros P. case_match; [apply keeps_throw|apply keeps_ret].
Qed.

Lemma refresh_settles l allow :
  triple (fun w => w_log w = l) (refresh_under_lock allow) (fun _ => rotated l) (fun _ => rotated l).
Proof.
  apply (triple_bind _ _ _ _ _ _ (rotate_settles l allow)). intros _.
  assert (B : blind (rotated l)).
  { intros w w' E. pose proof E as E'. unfold outside in E. injection E as _ _ _ _ _ Hl.
    intros [Hw|(t & reply & Ha & Hs)]; [left; congruence|right; exists t, reply; rewrite Hl; split; [done|]].
    intros b Hb. by apply (blind_settled b w), Hs. }
  change (keeps (rotated l) (token ← state au_access_token;
    match token with
    | Some t => mret {| al_token := ct_token t; al_expires_at := Some (ct_expires_at t) |}
    | None => throw (StorageError "session refresh task failed: task panicked")
    end)).
  apply keeps_bind; [by apply blind_state|]. intros [t|]; [apply keeps_ret|apply keeps_throw].
Qed.

Lemma finish_settles b g : settles b (finish_locked b g).
Proof.
  pose proof (kp_quiet _ _ (kept_revoked b)) as K. cbv beta in K.
  unfold finish_locked. apply settles_state. intros current. case_if.
  - apply revoke_then. intros _. apply keeps_throw.
  - unfold commit_bundle. apply settles_state. intros expected. apply settles_attempt. intros [u|e].
    + apply commit_settles.
    + apply revoke_then. intros _. apply keeps_throw.
Qed.

Lemma turns_succeed l : triple (fun _ => True) (iterM run_turn l) (fun _ _ => True) (fun _ _ => False).
Proof.
  apply (triple_iter (fun _ => True)). intros t _ w _.
  destruct t; cbn [run_turn]; unfold ignore;
    try (match goal with |- match (let '(_, _) := ?x in _) with _ => _ end => by destruct x end).
  unfold write, update. rewrite M_bind_run. unfold await. by destruct (w_awaits w).
Qed.

(** C21: No session that the service issues is left to itself: when a rotation or a login
    ends, however it ends, whatever calls of the store fail or hang and whatever other tasks
    and processes did in the meantime, the session that was received is in the store, for
    this process or the next, or its revocation was asked for. *)
Theorem issued_sessions_are_settled :
  (forall allow w w' r, refresh_under_lock allow w = (w', r) -> rotated (w_log w) w') /\
  (forall response g p b w w' r, er_status response = "complete" -> exchange_bundle response = Some b ->
     finish_exchange response g p w = (w', r) -> settled b w').
Proof.
  split.
  - intros allow w w' r H. pose proof (refresh_settles (w_log w) allow w eq_refl) as R. rewrite H in R. by destruct r.
  - intros response g p b w w' r Hs Hb H. unfold finish_exchange in H.
    rewrite bool_decide_true in H by done. cbn [negb] in H. rewrite Hb in H. cbn [ok_or] in H.
    assert (T : settles b (_ ← operations_lock false (p_turns p); finish_locked b g)).
    { apply settles_after; [|intros _; apply finish_settles]. unfold operations_lock.
      apply (triple_bind _ _ _ (fun _ _ => True)); [|by intros _; apply triple_ret].
      eapply triple_weaken; [apply turns_succeed|done|done|done]. }
    specialize (T w I). rewrite M_bind_run in H. cbn in H. rewrite H in T. by destruct r.
Qed.
End Settling.

(** ** Examples *)

Ltac known := intros ? ? E1 E2; vm_compute in E1; try discriminate E1;
  injection E1 as <-; vm_compute in E2; try discriminate E2; injection E2 as <-; by vm_compute.
Ltac all_known := repeat (apply Forall_cons; split; [first [exact I | split; known]|]); apply Forall_nil; exact I.

(** Alice's session is rotated while another process signs in as Bob. *)
Definition account_calls : list Call :=
  [AccessToken 0 no_pauses; Validate no_pauses no_pauses; AccessToken (2000 * NANOS) no_pauses].
Definition account_world : World :=
  started working [Locked None; Locked (Some (Some RB))] [] [tokens_reply A1 R1 "alice"; session_reply "alice"; tokens_reply AB R2 "bob"].

Lemma leases_belong_to_their_account_witness :
  (exists t, au_access_token (w_auth (run_calls account_calls account_world).1) = Some t /\ ct_token t = AB) /\
  belongs_to sample_owner (w_auth (run_calls account_calls account_world).1).
Proof.
  split; [by eexists; vm_compute|].
  apply (leases_belong_to_their_account sample_owner account_calls account_world _ (run_calls account_calls account_world).2).
  - split; [by intros t|]. unfold account_world, started. cbn [w_server]. all_known.
  - by repeat constructor.
  - by destruct (run_calls account_calls account_world).
Defined.



(** A rotation whose save fails, and a login that finds another generation. *)
Definition full_store : StoreCall -> list StoreReply := fun call => if bool_decide (call = Saves) then [Fails "full" false] else [].
Definition full_world : World := started full_store [] [] [tokens_reply A1 R1 "alice"].
Definition late_response : ExchangeResponse :=
  {| er_status := "complete"; er_token_type := Some "bearer"; er_access_token := Some A1;
     er_access_expires_at := Some "later"; er_refresh_token := Some R1; er_refresh_expires_at := Some "later";
     er_account := Some (sample_account "alice"); er_session := Some sample_session |}.

Lemma issued_sessions_are_settled_witness :
  rotated [] (refresh_under_lock false full_world).1 /\ w_entry (refresh_under_lock false full_world).1 = None /\
  settled (sample_bundle A1 R1 "alice") (finish_exchange late_response 7 no_pauses full_world).1.
Proof.
  destruct issued_sessions_are_settled as [H1 H2]. split_and!.
  - apply (H1 false full_world _ (refresh_under_lock false full_world).2). by destruct (refresh_under_lock false full_world).
  - by vm_compute.
  - apply (H2 late_response 7 no_pauses (sample_bundle A1 R1 "alice") full_world _ (finish_exchange late_response 7 no_pauses full_world).2);
      [done|by vm_compute|by destruct (finish_exchange late_response 7 no_pauses full_world)].
Defined.

(** A bearer may be labelled with the account of a login that ended before the label is
    read. *)
Definition relabelled : World := started working [] [] [tokens_reply A1 R1 "alice"].
Example leases_may_be_mislabelled :
  let '(w, r) := access_token_for_account_operation
                   {| p_turns := []; p_resumed := [Signs_out None; Finishes (sample_bundle AB RB "bob") 2] |} relabelled in
  match r with
  | Ok lease => al_token (aa_access lease) = A1 /\ aa_account_id lease = "bob" /\ account_access_is_current (w_auth w) lease = true
  | Err _ => False
  end.
Proof. by vm_compute. Qed.
