(* ===== verification/RotationTheorems.v ===== *)
(** A refresh token is used once: rotation of the session when tasks, processes, the
    credential store and the service do what they want (apps/axiomcli/src/auth.rs). *)

From stdpp Require Import base gmap strings list.
From Stdlib Require Import ZArith NArith Lia.
From S2P Require Import Prelude RustStr Json Inference AppError AuthChecks Credentials SignIn CredentialProofs.

Local Open Scope Z_scope.

(** ** Tokens *)

Section Tokens.
Context {U : UrlLib} {UP : UrlParts} {AC : AuthClock} {DC : AuthCodec} {PK : Pkce}.

(** The refresh tokens that were sent, those that other processes will store, and those
    that the service will issue. *)
Definition refreshes (l : list (Request * Reply)) : list string :=
  omap (fun x => match x.1 with RefreshRequest t => Some t | _ => None end) l.
Definition peers (l : list LockReply) : list string :=
  omap (fun r => match r with Locked (Some (Some t)) => Some t | _ => None end) l.
Definition reply_tokens (reply : Reply) : list string :=
  match reply with
  | Lost _ => []
  | Replied _ body =>
    remove_dups (option_list (bn_refresh_token <$> (decode_tokens body ≫= session_bundle))
                 ++ option_list (bn_refresh_token <$> (decode_exchange body ≫= exchange_bundle)))
  end.
Definition issued (l : list Reply) : list string := l ≫= reply_tokens.

(** What matters for them. *)
Record Book : Type := { bk_sent : list string; bk_entry : option string; bk_locks : list LockReply; bk_server : list Reply }.
Definition book (w : World) : Book :=
  {| bk_sent := refreshes (w_log w); bk_entry := w_entry w; bk_locks := w_locks w; bk_server := w_server w |}.
Definition entered (e : option string) (b : Book) : Book :=
  {| bk_sent := bk_sent b; bk_entry := e; bk_locks := bk_locks b; bk_server := bk_server b |}.

(** A keyring that reads and deletes what it is told to, and whose saves succeed or fail in
    time; one that takes too long does succeed. *)
Definition obedient (r : StoreReply) : Prop := r = Works \/ r = Hangs LateWorks.
Definition in_time (r : StoreReply) : Prop :=
  match r with
  | Hangs late => late = LateWorks
  | Fails e _ => contains CREDENTIAL_TIMEOUT_MARKER e = false
  | _ => True
  end.
Definition fine (call : StoreCall) (r : StoreReply) : Prop :=
  match call with Saves => in_time r | _ => obedient r end.
Definition trusty (w : World) : Prop :=
  w_kind w = KeyringStore /\ forall call, Forall (fine call) (w_store w call).

Definition bal (Φ : Book -> Prop) (w : World) : Prop := trusty w /\ Φ (book w).

Lemma bal_blind Φ : blind (bal Φ).
Proof.
  intros w w' E. unfold outside in E. injection E as Hk He Hs Hl Hv Hg. intros [[T1 T2] H].
  split; [split; [congruence|intros call; by rewrite Hs]|]. unfold book in *. by rewrite He, Hl, Hv, Hg.
Qed.

Lemma bal_reply Φ call :
  triple (bal Φ) (store_reply call) (fun r w => bal Φ w /\ fine call r) (fun _ _ => False).
Proof.
  intros w [[Hk Hs] H]. unfold store_reply. destruct (w_store w call) as [|r l] eqn:E.
  - split; [done|]. by destruct call; [left|exact I|left].
  - pose proof (Hs call) as Hc. rewrite E in Hc. apply Forall_cons in Hc as [Hr Hl].
    split; [|done]. split; [split; [done|]|done]. intros c. cbn. case_bool_decide; [by subst|apply Hs].
Qed.
Lemma bal_kind Φ : triple (bal Φ) (gets w_kind : Auth StoreKind) (fun k w => bal Φ w /\ k = KeyringStore) (fun _ _ => False).
Proof. apply triple_gets. intros w Hw. split; [done|apply Hw]. Qed.
Lemma bal_entry Φ Φ' e :
  (forall b, Φ b -> Φ' (entered e b)) -> triple (bal Φ) (set_entry e true) (fun _ => bal Φ') (fun _ _ => False).
Proof. intros HΦ w [Ht H]. split; [exact Ht|]. exact (HΦ _ H). Qed.
Lemma bal_await Φ : triple (bal Φ) await (fun _ => bal Φ) (fun _ _ => False).
Proof.
  pose proof (blind_await (bal Φ) (bal_blind Φ)) as K. intros w Hw. specialize (K w Hw).
  unfold await in *. by destruct (w_awaits w).
Qed.
Lemma bal_update {A} Φ (f : AuthState -> AuthState * A) : triple (bal Φ) (update f) (fun _ => bal Φ) (fun _ _ => False).
Proof.
  apply (triple_bind _ _ _ (fun _ => bal Φ)); [apply bal_await|]. intros _ w Hw. by apply (bal_blind Φ w).
Qed.

(** ** The store *)

Definition token_ok (v : option string) : Prop := if_some v (fun v => validate_token_shape v "stored refresh token") = Ok tt.

Lemma bal_load Φ :
  triple (bal Φ) load_persisted_credential
    (fun v w => bal (fun b => Φ b /\ bk_entry b = v) w /\ token_ok v)
    (fun _ => bal (fun b => Φ b /\ ~ token_ok (bk_entry b))).
Proof.
  unfold load_persisted_credential. apply (triple_bind _ _ _ (fun _ => bal Φ)).
  { apply triple_safe, bal_await. }
  intros _. apply (triple_bind _ _ _ (fun v => bal (fun b => Φ b /\ bk_entry b = v))).
  - unfold store_load. apply (triple_bind _ _ _ (fun r w => bal Φ w /\ fine Loads r)).
    { apply triple_safe, bal_reply. }
    intros r. apply triple_pure. intros Hr. apply (triple_bind _ _ _ (fun k w => bal Φ w /\ k = KeyringStore)).
    { apply triple_safe, bal_kind. }
    intros k. apply triple_pure. intros ->. destruct Hr as [-> | ->]; apply triple_gets; intros w [Ht H]; by split.
  - intros v. apply (triple_bind _ _ _ (fun _ w => bal (fun b => Φ b /\ bk_entry b = v) w /\ token_ok v)).
    + apply triple_lift. intros w Hw. destruct (if_some _ _) as [[]|e] eqn:E; [done|].
      destruct Hw as [Ht [H <-]]. split; [done|]. split; [done|]. unfold token_ok. intros E'. congruence.
    + intros _. apply triple_ret. done.
Qed.

Lemma bal_delete Φ Φ' :
  (forall b, Φ b -> Φ' (entered None b)) ->
  triple (bal Φ) delete_persisted_credential (fun _ => bal Φ') (fun _ _ => False).
Proof.
  intros HΦ. unfold delete_persisted_credential. apply (triple_bind _ _ _ _ _ _ (bal_await Φ)). intros _.
  apply (triple_bind _ _ _ _ _ _ (bal_reply Φ Deletes)). intros r. apply triple_pure. intros Hr.
  apply (triple_bind _ _ _ _ _ _ (bal_kind Φ)). intros k. apply triple_pure. intros ->.
  destruct Hr as [-> | ->]; (apply (triple_bind _ _ _ (fun _ => bal Φ')); [by apply bal_entry|intros _; by apply triple_ret]).
Qed.

(** A save that fails has not removed the entry, unless it was too late. *)
Lemma bal_save Φ Φ' c :
  (forall b, Φ b -> Φ' (entered (Some c) b)) -> (forall b, Φ b -> Φ' (entered None b)) ->
  triple (bal Φ) (save_persisted_credential c) (fun _ => bal Φ')
    (fun e => if credential_operation_timed_out e then bal Φ' else bal (fun b => Φ b \/ Φ' b)).
Proof.
  intros HS HN. unfold save_persisted_credential.
  apply (triple_bind _ _ _ (fun _ => bal Φ)). { apply triple_safe, bal_await. }
  intros _. apply (triple_bind _ _ _ (fun r w => bal Φ w /\ fine Saves r)).
  { apply triple_safe, bal_reply. }
  intros r. apply triple_pure. intros Hr. apply (triple_bind _ _ _ (fun k w => bal Φ w /\ k = KeyringStore)).
  { apply triple_safe, bal_kind. }
  intros k. apply triple_pure. intros ->.
  assert (E : forall effect, triple (bal Φ) (set_entry (Some c) effect) (fun _ => bal (fun b => Φ b \/ Φ' b)) (fun _ _ => False)).
  { intros [] w [Ht H]; (split; [exact Ht|]); [right; exact (HS _ H)|by left]. }
  destruct r as [|e effect|effect|late|e]; cbn [fine in_time] in Hr.
  - eapply triple_weaken; [by apply (bal_entry Φ Φ')|done..].
  - apply (triple_bind _ _ _ (fun _ => bal (fun b => Φ b \/ Φ' b))).
    + eapply triple_weaken; [apply E|done..].
    + intros _. apply triple_throw. intros w Hw. cbn. by rewrite Hr.
  - apply (triple_bind _ _ _ (fun _ => bal (fun b => Φ b \/ Φ' b))).
    + eapply triple_weaken; [apply E|done..].
    + intros _. apply triple_throw. intros w Hw. exact Hw.
  - subst late. apply (triple_bind _ _ _ (fun _ => bal Φ')); [|intros _; apply triple_throw; intros w Hw; exact Hw].
    assert (L : triple (bal Φ) (late_save c LateWorks) (fun _ => bal Φ') (fun _ _ => False)).
    2: { eapply triple_weaken; [exact L|done..]. }
    unfold late_save. set (Φc := fun b => exists b', Φ b' /\ b = entered (Some c) b').
    apply (triple_bind _ _ _ (fun _ => bal Φc)). { apply bal_entry. intros b Hb. by exists b. }
    intros _. apply (triple_bind _ _ _ _ _ _ (bal_reply Φc Loads)). intros r. apply triple_pure. intros Hl.
    apply (triple_bind _ _ _ (fun v w => bal Φc w /\ v = Some c)).
    { apply triple_gets. intros w [Ht (b & Hb & E')]. split; [split; [done|by exists b]|]. by injection E'. }
    intros v. apply triple_pure. intros ->. rewrite bool_decide_true by done.
    assert (D : triple (bal Φc) (set_entry None true) (fun _ => bal Φ') (fun _ _ => False)).
    { apply bal_entry. intros b (b' & Hb & ->). exact (HN b' Hb). }
    destruct Hl as [-> | ->]; (apply (triple_bind _ _ _ _ _ _ (bal_reply Φc Deletes)); intros r; apply triple_pure;
      intros [-> | ->]; exact D).
  - apply triple_throw. intros w [Ht H]. split; [done|]. by left.
Qed.

(** ** Whose tokens they are *)

(** No token is in two places: sent, in the store, with other processes, with the service,
    or in the [hand] of those who run next. *)
Definition held (hand : list string) (b : Book) : Prop :=
  NoDup (bk_sent b ++ option_list (bk_entry b) ++ peers (bk_locks b) ++ issued (bk_server b) ++ hand).
(** .. but for a token in the store that was just sent. *)
Definition spent (t : string) (hand : list string) (b : Book) : Prop :=
  bk_entry b = Some t /\ token_ok (Some t) /\
  NoDup (bk_sent b ++ peers (bk_locks b) ++ issued (bk_server b) ++ hand).

Lemma NoDup_sub (l k : list string) : l ⊆+ k -> NoDup k -> NoDup l.
Proof.
  intros (l' & Hs & Hp)%submseteq_sublist_l Hk. rewrite <- Hp in Hk.
  by eapply sublist_NoDup.
Qed.
Ltac fewer := match goal with H : NoDup _ |- NoDup _ => eapply NoDup_sub; [|exact H]; solve_submseteq end.

Lemma held_sub hand hand' b : hand' ⊆+ hand -> held hand b -> held hand' b.
Proof. unfold held. intros Hs H. eapply NoDup_sub; [|exact H]. by repeat apply submseteq_skips_l. Qed.
Lemma spent_sub t hand hand' b : hand' ⊆+ hand -> spent t hand b -> spent t hand' b.
Proof.
  intros Hs (He & Ht & H). split_and!; [done..|]. eapply NoDup_sub; [|exact H]. by repeat apply submseteq_skips_l.
Qed.
Lemma held_none hand b : held hand b -> held hand (entered None b).
Proof. unfold held. cbn. intros H. fewer. Qed.
Lemma held_some c hand b : held (c :: hand) b -> held hand (entered (Some c) b).
Proof. unfold held. cbn. intros H. fewer. Qed.
Lemma spent_none t hand b : spent t hand b -> held hand (entered None b).
Proof. intros (_ & _ & H). exact H. Qed.
Lemma spent_some t c hand b : spent t (c :: hand) b -> held hand (entered (Some c) b).
Proof. intros (_ & _ & H). unfold held. cbn. fewer. Qed.

(** The stocks of tokens that a commit begins with. *)
Record stock (A : list string -> Book -> Prop) (expected : option string) : Prop := {
  st_sub : forall hand hand' b, hand' ⊆+ hand -> A hand b -> A hand' b;
  st_none : forall hand b, A hand b -> held hand (entered None b);
  st_some : forall c hand b, A (c :: hand) b -> held hand (entered (Some c) b);
  st_entry : forall hand b, A hand b -> is_Some expected /\ bk_entry b = expected \/ held hand b;
  st_token : forall hand b, A hand b -> token_ok (bk_entry b) \/ held hand b;
  st_reply : forall hand b reply l, A hand b -> bk_server b = reply :: l ->
    A hand {| bk_sent := bk_sent b; bk_entry := bk_entry b; bk_locks := bk_locks b; bk_server := l |}
}.

Lemma held_stock expected : stock held expected.
Proof.
  constructor; [apply held_sub|apply held_none|apply held_some|by right|by right|].
  intros hand b reply l H E. unfold held in *. rewrite E in H. cbn in *. fewer.
Qed.
Lemma spent_stock t : stock (spent t) (Some t).
Proof.
  constructor; [apply spent_sub|apply spent_none|apply spent_some| | |].
  - intros hand b (He & _). by left.
  - intros hand b (He & Ht & _). left. by rewrite He.
  - intros hand b reply l (He & Ht & H) E. split_and!; [done..|]. rewrite E in H. cbn in *. fewer.
Qed.

Lemma bal_weaken (Φ Φ' : Book -> Prop) w : (forall b, Φ b -> Φ' b) -> bal Φ w -> bal Φ' w.
Proof. intros H [Ht Hb]. split; auto. Qed.

Section Stock.
Variables (A : list string -> Book -> Prop) (expected : option string).
Hypothesis S : stock A expected.

Lemma stock_revoke hand t : triple (bal (A hand)) (revoke t) (fun _ => bal (A hand)) (fun _ _ => False).
Proof.
  unfold revoke, send. apply (triple_bind _ _ _ (fun _ => bal (A hand))); [|by intros _; apply triple_ret].
  apply (triple_bind _ _ _ _ _ _ (bal_await (A hand))). intros _ w [Ht H]. unfold reply_to.
  destruct (w_server w) as [|reply l] eqn:E; (split; [exact Ht|]).
  - assert (Eb : book (sent (RevokeRequest t) (Lost "connection refused") [] w) = book w).
    { unfold book, sent, refreshes. cbn. rewrite omap_app. cbn. by rewrite app_nil_r, E. }
    by rewrite Eb.
  - unfold book in *. cbn. unfold refreshes. rewrite omap_app. cbn. rewrite app_nil_r.
    by apply (st_reply _ _ S hand _ reply l) in H.
Qed.

Lemma stock_delete hand :
  triple (bal (A hand)) (delete_if_matches_and_clear expected) (fun _ => bal (held hand)) (fun _ => bal (held hand)).
Proof.
  unfold delete_if_matches_and_clear.
  apply (triple_bind _ _ _ (fun r => bal (fun b => match r with
    | Ok v => A hand b /\ bk_entry b = v
    | Err _ => A hand b /\ ~ token_ok (bk_entry b) end))).
  { eapply triple_weaken; [apply attempt_triple, (bal_load (A hand))|done| |done]. intros [v|e] w; [by intros []|done]. }
  intros r. apply (triple_bind _ _ _ (fun _ => bal (held hand))).
  - destruct r as [v|e].
    + case_if.
      * eapply triple_weaken; [apply (bal_delete (fun b => A hand b /\ bk_entry b = v) (held hand))|done|done|done].
        intros b [Hb _]. by apply (st_none _ _ S).
      * apply triple_ret. intros w. apply bal_weaken. intros b [Hb <-].
        destruct (st_entry _ _ S _ _ Hb) as [[Hs He]|Hh]; [|done].
        rewrite !bool_decide_true in Hif by done. done.
    + apply triple_ret. intros w. apply bal_weaken. intros b [Hb Hn]. by destruct (st_token _ _ S _ _ Hb).
  - intros deletion. apply (triple_bind _ _ _ (fun _ => bal (held hand))).
    + apply triple_safe, bal_update.
    + intros revision. destruct deletion; [by apply triple_ret|by apply triple_throw].
Qed.

(** A refusal: the session is revoked and, unless the store has another one, removed. *)
Lemma stock_refuse {B} hand t e :
  triple (bal (A hand)) (_ ← revoke t; _ ← ignore (delete_if_matches_and_clear expected); (throw e : Auth B))
    (fun _ => bal (held hand)) (fun _ => bal (held hand)).
Proof.
  apply (triple_bind _ _ _ (fun _ => bal (A hand))).
  { apply triple_safe, stock_revoke. }
  intros _. apply (triple_bind _ _ _ (fun _ => bal (held hand))).
  { eapply triple_weaken; [apply ignore_triple, stock_delete|done|done|done]. }
  intros _. by apply triple_throw.
Qed.
End Stock.

Lemma triple_bal_or {B} (Φ Φ' : Book -> Prop) (x : Auth B) Post Bad :
  triple (bal Φ) x Post Bad -> triple (bal Φ') x Post Bad -> triple (bal (fun b => Φ b \/ Φ' b)) x Post Bad.
Proof. intros H H' w [Ht [Hb|Hb]]; [by apply H|by apply H']. Qed.

(** A commit of a session whose token is in hand. *)
Lemma commit_bal A expected (S : stock A expected) b force hand :
  triple (bal (A (bn_refresh_token b :: hand))) (commit_bundle_under_credential_lock b force expected)
    (fun _ => bal (held hand)) (fun _ => bal (held hand)).
Proof.
  set (c := bn_refresh_token b).
  assert (Hsub : forall w, bal (A (c :: hand)) w -> bal (A hand) w).
  { intros w. apply bal_weaken. intros b'. apply (st_sub _ _ S). by apply submseteq_cons. }
  unfold commit_bundle_under_credential_lock.
  apply (triple_bind _ _ _ (fun _ => bal (A (c :: hand)))).
  { apply triple_safe, attempt_keeps. unfold check_bundle. apply keeps_bind; [by apply blind_now, bal_blind|]. intros t. apply keeps_result. }
  intros [u|e]. 2: { eapply triple_weaken; [apply (stock_refuse A expected S hand)|exact Hsub|done|done]. }
  apply (triple_bind _ _ _ (fun _ => bal (A (c :: hand)))). { apply triple_safe, bal_update. }
  intros previous.
  destruct (_ && _)%bool. { eapply triple_weaken; [apply (stock_refuse A expected S hand)|exact Hsub|done|done]. }
  apply (triple_bind _ _ _ (fun r => bal (fun b => match r with
    | Ok v => A (c :: hand) b /\ bk_entry b = v
    | Err _ => A (c :: hand) b /\ ~ token_ok (bk_entry b) end))).
  { eapply triple_weaken; [apply attempt_triple, (bal_load (A (c :: hand)))|done| |done]. intros [v|e] w; [by intros []|done]. }
  intros [v|e].
  - case_if.
    + apply (triple_weaken _ (bal (held hand)) _ _ (fun _ => bal (held hand)) _ (fun _ => bal (held hand))); [|..|done|done].
      * apply (triple_bind _ _ _ (fun _ => bal (held hand))).
        { apply triple_safe, (stock_revoke held expected (held_stock _)). }
        intros _. apply (triple_bind _ _ _ (fun _ => bal (held hand))); [by apply blind_adopt, bal_blind|].
        intros _. by apply triple_throw.
      * intros w. apply bal_weaken. intros b' [Hb <-]. apply negb_true_iff, bool_decide_eq_false in Hif.
        destruct (st_entry _ _ S _ _ Hb) as [[_ He]|Hh]; [done|]. apply (held_sub (c :: hand)); [by apply submseteq_cons|done].
    + apply (triple_bind _ _ _ (fun r => match r with
        | Ok _ => bal (held hand)
        | Err e => if credential_operation_timed_out e then bal (held hand) else bal (fun b => A hand b \/ held hand b) end)).
      * eapply triple_weaken; [apply attempt_triple, (bal_save (A (c :: hand)) (held hand) c)|..].
        -- intros b'. apply (st_some _ _ S).
        -- intros b' Hb. apply (st_none _ _ S). apply (st_sub _ _ S (c :: hand)); [by apply submseteq_cons|done].
        -- intros w. apply bal_weaken. by intros b' [].
        -- intros [u'|e] w Hw; cbn in *; [done|]. destruct (credential_operation_timed_out e); [done|].
           revert Hw. apply bal_weaken. intros b' [Hb|Hh]; [left|by right].
           apply (st_sub _ _ S (c :: hand)); [by apply submseteq_cons|done].
        -- by intros e w.
      * intros [u'|e]. { apply triple_safe, bal_update. }
        destruct (credential_operation_timed_out e) eqn:Ht; cbv beta.
        -- apply (triple_bind _ _ _ (fun _ => bal (held hand))).
           { apply triple_safe, (stock_revoke held expected (held_stock _)). }
           intros _. apply (triple_bind _ _ _ (fun _ => bal (held hand))); [by apply blind_write, bal_blind|].
           intros _. by apply triple_throw.
        -- apply triple_bal_or; [apply stock_refuse, S|apply stock_refuse, held_stock].
  - apply (triple_weaken _ (bal (held hand)) _ _ (fun _ => bal (held hand)) _ (fun _ => bal (held hand))); [|..|done|done].
    + apply (triple_bind _ _ _ (fun _ => bal (held hand))).
      { apply triple_safe, (stock_revoke held expected (held_stock _)). }
      intros _. apply (triple_bind _ _ _ (fun _ => bal (held hand))); [by apply blind_write, bal_blind|].
      intros _. by apply triple_throw.
    + intros w. apply bal_weaken. intros b' [Hb Hn]. destruct (st_token _ _ S _ _ Hb) as [|Hh]; [done|].
      apply (held_sub (c :: hand)); [by apply submseteq_cons|done].
Qed.

(** ** The operations *)

Notation HELD hand := (bal (held hand)).

Lemma H_sub hand hand' w : hand' ⊆+ hand -> HELD hand w -> HELD hand' w.
Proof. intros Hs. apply bal_weaken. intros b. by apply held_sub. Qed.

(** An operation that uses some tokens of the hand, and no others. *)
Definition uses {A} (ts : list string) (x : Auth A) : Prop :=
  forall hand, triple (HELD (ts ++ hand)) x (fun _ => HELD hand) (fun _ => HELD hand).

Lemma uses_bind {A B} t1 t2 (x : Auth A) (f : A -> Auth B) :
  uses t1 x -> (forall a, uses t2 (f a)) -> uses (t1 ++ t2) (x ≫= f).
Proof.
  intros Hx Hf hand. rewrite <- app_assoc. apply (triple_bind _ _ _ (fun _ => HELD (t2 ++ hand))); [|intros a; apply Hf].
  eapply triple_weaken; [apply (Hx (t2 ++ hand))|done|done|]. intros e w. apply H_sub. by apply submseteq_inserts_l.
Qed.
Lemma uses_sub {A} t1 t2 (x : Auth A) : t1 ⊆+ t2 -> uses t1 x -> uses t2 x.
Proof.
  intros Hs Hx hand. eapply triple_weaken; [apply (Hx hand)| |done|done]. intros w. apply H_sub. by apply submseteq_skips_r.
Qed.
Lemma uses_blind {A} (x : Auth A) : (forall P, blind P -> keeps P x) -> uses [] x.
Proof. intros Hx hand. by apply Hx, bal_blind. Qed.
Lemma uses_ret {A} (a : A) : uses [] (mret a).
Proof. intros hand. by apply triple_ret. Qed.
Lemma uses_throw {A} e : uses [] (throw e : Auth A).
Proof. intros hand. by apply triple_throw. Qed.
Lemma uses_lift {A} (r : result AxiomError A) : uses [] (lift r).
Proof. intros hand. apply triple_lift. by destruct r. Qed.
Lemma uses_attempt {A} ts (x : Auth A) : uses ts x -> uses ts (attempt x).
Proof. intros Hx hand w Hw. specialize (Hx hand w Hw). unfold attempt. by destruct (x w) as [w' [a|e]]. Qed.
Lemma uses_ignore {A} ts (x : Auth A) : uses ts x -> uses ts (ignore x).
Proof. intros Hx hand w Hw. specialize (Hx hand w Hw). unfold ignore. by destruct (x w) as [w' [a|e]]. Qed.
Lemma uses_state {A} (f : AuthState -> A) : uses [] (state f).
Proof. apply uses_blind. intros P. apply blind_state. Qed.
Lemma uses_update {A} (f : AuthState -> AuthState * A) : uses [] (update f).
Proof. apply uses_blind. intros P. apply blind_update. Qed.
Lemma uses_now : uses [] now.
Proof. apply uses_blind, blind_now. Qed.
Lemma uses_cancelled : uses [] is_cancelled.
Proof. apply uses_blind, blind_cancelled. Qed.
Lemma uses_adopt c : uses [] (adopt_external_credential c).
Proof. apply uses_blind. intros P. apply blind_adopt. Qed.
Lemma uses_revoke t : uses [] (revoke t).
Proof. intros hand. apply triple_safe, (stock_revoke held None (held_stock _)). Qed.

Lemma uses_load : uses [] load_persisted_credential.
Proof.
  intros hand. eapply triple_weaken; [apply (bal_load (held hand))|done|..].
  - intros v w [Hw _]. revert Hw. apply bal_weaken. by intros b [].
  - intros e w. apply bal_weaken. by intros b [].
Qed.
Lemma uses_delete_if expected : uses [] (delete_if_matches_and_clear expected).
Proof. intros hand. apply stock_delete, held_stock. Qed.
Lemma uses_commit_locked b force expected : uses [bn_refresh_token b] (commit_bundle_under_credential_lock b force expected).
Proof. intros hand. apply commit_bal, held_stock. Qed.

Lemma uses_acquire : uses [] acquire_credential_lock.
Proof.
  unfold acquire_credential_lock. apply (uses_bind [] []); [apply uses_blind, blind_await|intros _].
  apply (uses_bind [] []); [|intros [e|e]; [apply uses_ret|]].
  - intros hand w [Ht Hh]. unfold lock_reply. cbn in Hh. unfold held in Hh. cbn in Hh.
    destruct (w_locks w) as [|[[e|]|e] l] eqn:E.
    + split; [done|]. unfold held, book. cbn. by rewrite E in *.
    + split; [done|]. unfold held, book. cbn in *. destruct e as [e|]; cbn in *; fewer.
    + by split.
    + by split.
  - apply (uses_bind [] []); [apply uses_update|intros _; apply uses_throw].
Qed.

(** Requests, but for those that rotate. *)
Lemma send_bal q hand : (forall t, q <> RefreshRequest t) ->
  triple (HELD hand) (send q) (fun reply => HELD (reply_tokens reply ++ hand)) (fun _ _ => False).
Proof.
  intros Hq. apply (triple_bind _ _ _ _ _ _ (bal_await (held hand))). intros _ w [Ht Hh].
  assert (Es : forall reply, refreshes (w_log w ++ [(q, reply)]) = refreshes (w_log w)).
  { intros reply. unfold refreshes. rewrite omap_app. cbn.
    destruct q; cbn; rewrite ?app_nil_r; try done. exfalso. by eapply Hq. }
  unfold reply_to, held, book in *. cbn in *. destruct (w_server w) as [|reply l] eqn:E; (split; [exact Ht|]); cbn in *; rewrite Es.
  - exact Hh.
  - fewer.
Qed.
Lemma uses_send q : (forall t, q <> RefreshRequest t) -> uses [] (send q).
Proof.
  intros Hq hand. apply triple_safe. eapply triple_weaken; [apply (send_bal q hand Hq)|done| |done].
  intros reply w. apply H_sub. by apply submseteq_inserts_l.
Qed.

Lemma refresh_bal t hand : token_ok (Some t) ->
  triple (bal (fun b => held hand b /\ bk_entry b = Some t)) (send (RefreshRequest t))
    (fun reply => bal (spent t (reply_tokens reply ++ hand))) (fun _ _ => False).
Proof.
  intros Hok. apply (triple_bind _ _ _ _ _ _ (bal_await _)). intros _ w [Ht [Hh He]].
  assert (Es : forall reply, refreshes (w_log w ++ [(RefreshRequest t, reply)]) = refreshes (w_log w) ++ [t]).
  { intros reply. unfold refreshes. by rewrite omap_app. }
  unfold reply_to, spent, held, book in *. cbn in *. rewrite He in Hh. cbn in Hh.
  destruct (w_server w) as [|reply l] eqn:E; (split; [exact Ht|]); cbn in *; rewrite Es; split_and!; try done; fewer.
Qed.

Lemma forget_bal t hand : triple (bal (spent t hand)) (forget t) (fun _ => HELD hand) (fun _ _ => False).
Proof.
  unfold forget. apply (triple_bind _ _ _ (fun _ => HELD hand)); [|by intros a; apply triple_ret].
  pose proof (stock_delete (spent t) (Some t) (spent_stock t) hand) as D.
  intros w Hw. specialize (D w Hw). unfold attempt. by destruct (delete_if_matches_and_clear (Some t) w) as [w' [a|e]].
Qed.

Lemma answer_bal t reply hand :
  triple (bal (spent t (reply_tokens reply ++ hand))) (refresh_answer t reply)
    (fun b => bal (spent t (bn_refresh_token b :: hand))) (fun _ => HELD hand).
Proof.
  assert (F : forall e : string -> AxiomError,
    triple (bal (spent t (reply_tokens reply ++ hand))) (suffix ← forget t; throw (e suffix))
      (fun b => bal (spent t (bn_refresh_token b :: hand))) (fun _ => HELD hand)).
  { intros e. apply (triple_bind _ _ _ (fun _ => HELD (reply_tokens reply ++ hand))); [apply triple_safe, forget_bal|].
    intros s. apply triple_throw. intros w. apply H_sub. by apply submseteq_inserts_l. }
  unfold refresh_answer. destruct reply as [e|status body]; [exact (F (fun suffix => ProviderError _))|].
  case_if; [exact (F (fun _ => authentication_required))|]. case_if; [exact (F (fun suffix => ProviderError _))|].
  destruct (decode_tokens body) as [tr|] eqn:Ed; [|exact (F (fun _ => ProtocolError _))].
  destruct (session_bundle tr) as [b|] eqn:Eb; [|exact (F (fun _ => ProtocolError _))].
  apply triple_ret. intros w. apply bal_weaken. intros b'. apply spent_sub. apply (submseteq_skips_r hand [_]).
  apply singleton_submseteq_l. unfold reply_tokens. apply elem_of_remove_dups, elem_of_app. left. rewrite Ed. cbn. rewrite Eb. by left.
Qed.

Lemma rotate_uses allow : uses [] (rotate allow).
Proof.
  intros hand. cbn [app]. unfold rotate. apply (triple_bind _ _ _ (fun _ => HELD hand)); [apply (uses_acquire hand)|intros _].
  apply (triple_bind _ _ _ (fun r w => match r with
    | Ok v => bal (fun b => held hand b /\ bk_entry b = v) w /\ token_ok v
    | Err _ => HELD hand w end)).
  { apply triple_safe. eapply triple_weaken; [apply attempt_triple, (bal_load (held hand))|done| |done].
    intros [v|e] w; [done|]. apply bal_weaken. by intros b []. }
  intros [v|e]; [|apply (uses_bind [] [] _ _ (uses_update _)); intros _; apply uses_throw].
  apply triple_pure. intros Hv. set (Φ := fun b => held hand b /\ bk_entry b = v).
  assert (W : forall w, bal Φ w -> HELD hand w) by (intros w; apply bal_weaken; by intros b []).
  assert (Q : forall A (x : Auth A), keeps (bal Φ) x -> triple (bal Φ) x (fun _ => bal Φ) (fun _ => HELD hand)).
  { intros A x Hx. eapply triple_weaken; [exact Hx|done|done|]. intros e w. apply W. }
  pose proof (bal_blind Φ) as B.
  apply (triple_bind _ _ _ (fun _ => bal Φ)); [by apply Q, blind_state|intros local].
  apply (triple_bind _ _ _ (fun _ => bal Φ)); [by apply Q, blind_state|intros previous].
  apply (triple_bind _ _ _ (fun _ => bal Φ)).
  { apply Q, keeps_if; [|apply keeps_ret]. apply keeps_bind; [by apply blind_adopt|]. intros _.
    apply keeps_if; [apply keeps_ret|apply keeps_throw]. }
  intros _. destruct v as [t|]; cbn [ok_or].
  2: { apply (triple_bind _ _ _ (fun _ _ => False)); [|by intros r w]. intros w Hw. by apply W. }
  apply (triple_bind _ _ _ (fun r w => bal Φ w /\ r = t)); [by apply triple_ret|]. intros r. apply triple_pure. intros ->.
  apply (triple_bind _ _ _ (fun reply => bal (spent t (reply_tokens reply ++ hand)))); [by apply triple_safe, refresh_bal|].
  intros reply. apply (triple_bind _ _ _ _ _ _ (answer_bal t reply hand)). intros b.
  apply (triple_bind _ _ _ (fun _ => bal (spent t (bn_refresh_token b :: hand)))).
  - apply triple_safe. case_if; [|by apply triple_ret]. unfold adopt_external_credential. cbn [if_some].
    cbv [token_ok if_some] in Hv. rewrite Hv.
    apply (triple_bind _ _ _ (fun _ => bal (spent t (bn_refresh_token b :: hand)))); [by apply triple_ret|].
    intros _. apply bal_update.
  - intros _. apply (triple_bind _ _ _ (fun _ => HELD hand)); [apply commit_bal, spent_stock|].
    intros _. case_match; [by apply triple_throw|by apply triple_ret].
Qed.

Ltac spend := repeat first
  [ apply uses_ret | apply uses_throw | apply uses_lift | apply uses_state | apply uses_update | apply uses_now
  | apply uses_cancelled | apply uses_adopt | apply uses_revoke | apply uses_load | apply uses_delete_if
  | apply uses_acquire | apply rotate_uses | apply uses_attempt | apply uses_ignore
  | lazymatch goal with |- uses [] (_ ≫= _) => apply (uses_bind [] []); [|intros ?] end
  | case_match ].

Lemma uses_delete_persisted : uses [] delete_persisted_and_clear.
Proof. unfold delete_persisted_and_clear. spend. Qed.
Lemma uses_access allow minimum : uses [] (access_locked allow minimum).
Proof. unfold access_locked, usable_token, refresh_under_lock. spend. Qed.
Lemma uses_logout bearer : uses [] (logout_locked bearer).
Proof. unfold logout_locked. spend; apply uses_delete_persisted. Qed.
Lemma uses_clear generation : uses [] (clear_locked generation).
Proof. unfold clear_locked. spend. apply uses_delete_persisted. Qed.
Lemma uses_login : uses [] login_locked.
Proof. unfold login_locked. spend. Qed.
Lemma uses_finish b generation : uses [bn_refresh_token b] (finish_locked b generation).
Proof.
  unfold finish_locked. apply (uses_bind [] [_]); [spend|intros current]. case_match.
  - apply (uses_sub []); [solve_submseteq|spend].
  - unfold commit_bundle. apply (uses_bind [] [_]); [spend|intros expected].
    apply (uses_bind [] [_]); [spend|intros [u|e]]; [apply uses_commit_locked|].
    apply (uses_sub []); [solve_submseteq|spend].
Qed.

Definition turn_tokens (t : Turn) : list string := match t with Finishes b _ => [bn_refresh_token b] | _ => [] end.
Lemma uses_turn t : uses (turn_tokens t) (run_turn t).
Proof.
  destruct t; cbn [run_turn turn_tokens]; try apply uses_ignore.
  - apply uses_access.
  - apply uses_logout.
  - apply uses_finish.
  - apply uses_clear.
  - apply uses_login.
  - apply uses_update.
Qed.
Lemma uses_iter {A} (ts : A -> list string) (f : A -> Auth unit) l :
  (forall x, uses (ts x) (f x)) -> uses (l ≫= ts) (iterM f l).
Proof. intros Hf. induction l as [|x l IH]; [apply uses_ret|]. cbn. by apply uses_bind. Qed.

(** The tokens of what happens during a call. *)
Definition turns_tokens (l : list Turn) : list string := l ≫= turn_tokens.
Definition pause_tokens (p : Pauses) : list string := turns_tokens (p_turns p) ++ turns_tokens (p_resumed p).
Definition event_tokens (e : LoginEvent) : list string :=
  match e with Ticked p | Accepted _ _ p => pause_tokens p | _ => [] end.
Definition call_tokens (c : Call) : list string :=
  match c with
  | AccessToken _ p | AccountToken p => pause_tokens p
  | Validate before after | Logout before after => pause_tokens before ++ pause_tokens after
  | CompleteLogin _ _ events => events ≫= event_tokens
  | Others t => turn_tokens t
  | StartLogin _ _ _ | CancelLogin _ => []
  end.

Lemma uses_operations cancellable l : uses (turns_tokens l) (operations_lock cancellable l).
Proof.
  unfold operations_lock. apply (uses_sub (turns_tokens l ++ [])); [by rewrite app_nil_r|].
  apply uses_bind; [apply uses_iter, uses_turn|intros _]. spend.
Qed.

(** A branch that leaves tokens alone. *)
Lemma uses_none {A} ts (x : Auth A) : uses [] x -> uses ts x.
Proof. apply uses_sub. solve_submseteq. Qed.

Lemma uses_access_internal minimum cancellable allow p :
  uses (pause_tokens p) (access_token_internal minimum cancellable allow p).
Proof.
  unfold access_token_internal. apply (uses_bind [] _); [spend|intros [key|]]; [by apply uses_none, uses_ret|].
  apply (uses_bind [] _); [unfold usable_token; spend|intros [lease|]]; [by apply uses_none, uses_ret|].
  unfold pause_tokens. apply uses_bind; [apply uses_operations|intros _].
  apply (uses_bind [] _); [apply (uses_operations _ [])|intros _].
  apply (uses_bind [] _); [apply uses_attempt, uses_access|intros lease].
  apply (uses_sub (turns_tokens (p_resumed p) ++ [])); [by rewrite app_nil_r|].
  apply uses_bind; [apply uses_iter, uses_turn|intros _; spend].
Qed.
Lemma uses_not_automation message : uses [] (not_automation message).
Proof. unfold not_automation. spend. Qed.
Lemma uses_account p : uses (pause_tokens p) (access_token_for_account_operation p).
Proof.
  unfold access_token_for_account_operation. apply (uses_bind [] _); [apply uses_not_automation|intros _].
  apply (uses_sub (pause_tokens p ++ [])); [by rewrite app_nil_r|].
  apply uses_bind; [apply uses_access_internal|intros access; spend].
Qed.
Lemma uses_expire generation revision p : uses (pause_tokens p) (expire generation revision p).
Proof.
  unfold expire, answer. apply (uses_sub (turns_tokens (p_turns p) ++ [])).
  { unfold pause_tokens. apply submseteq_skips_l, submseteq_nil_l. }
  apply uses_bind; [apply uses_operations|intros _]. spend. apply uses_clear.
Qed.
Lemma uses_accept value lease generation revision p :
  uses (pause_tokens p) (accept_session value lease generation revision p).
Proof.
  unfold accept_session. destruct (sr_account value) as [account|]; [|by apply uses_none, uses_ret].
  case_match; [|by apply uses_none, uses_ret].
  apply (uses_bind [] _); [spend|intros t]. apply (uses_bind [] _); [spend|intros t'].
  case_match; [|by apply uses_none, uses_ret]. apply (uses_bind [] _); [spend|intros [[source|]|]];
    [by apply uses_none, uses_ret|apply uses_expire|by apply uses_none, uses_ret].
Qed.
Lemma uses_validate before after : uses (pause_tokens before ++ pause_tokens after) (validate_with_revision before after).
Proof.
  unfold validate_with_revision. apply (uses_bind [] _); [spend|intros revision].
  apply (uses_bind [] _); [spend|intros [detail|]]; [by apply uses_none, uses_ret|].
  apply (uses_bind [] _); [spend|intros known]. case_match; [by apply uses_none, uses_ret|].
  apply uses_bind; [apply uses_attempt, uses_access_internal|intros [lease|e]].
  2: { apply uses_none. unfold answer. spend. }
  apply (uses_bind [] _); [spend|intros generation]. apply (uses_bind [] _); [by apply uses_send|intros [e|status body]].
  { by apply uses_none, uses_ret. }
  case_match; [apply uses_expire|]. case_match; [by apply uses_none, uses_ret|].
  case_match; [|by apply uses_none, uses_ret]. case_match; [apply uses_accept|by apply uses_none, uses_ret].
Qed.
Lemma uses_logout_call before after : uses (pause_tokens before ++ pause_tokens after) (logout_with_cancellation before after).
Proof.
  unfold logout_with_cancellation. apply (uses_bind [] _); [apply uses_not_automation|intros _].
  apply uses_bind; [apply uses_attempt, uses_access_internal|intros bearer].
  apply (uses_bind [] _); [spend|intros lease].
  apply (uses_sub (turns_tokens (p_turns after) ++ [])).
  { unfold pause_tokens. apply submseteq_skips_l, submseteq_nil_l. }
  apply uses_bind; [apply uses_operations|intros _; apply uses_logout].
Qed.
Lemma uses_start io url hint : uses [] (start_native_login io url hint).
Proof.
  unfold start_native_login, create_authorization.
  spend; first [apply uses_not_automation | apply uses_login | apply uses_blind, blind_await | by apply uses_send].
Qed.
Lemma uses_cancel l : uses [] (cancel_authorization l).
Proof. unfold cancel_authorization. spend. by apply uses_send. Qed.

Definition exchanged (e : ExchangeResponse) : list string := option_list (bn_refresh_token <$> exchange_bundle e).

Lemma exchange_bal q hand : (forall t, q <> RefreshRequest t) ->
  triple (HELD hand) (exchange q) (fun e => HELD (exchanged e ++ hand)) (fun _ => HELD hand).
Proof.
  intros Hq. apply (triple_bind _ _ _ (fun reply => HELD (reply_tokens reply ++ hand))); [by apply triple_safe, send_bal|].
  assert (W : forall reply w, HELD (reply_tokens reply ++ hand) w -> HELD hand w).
  { intros reply w. apply H_sub. by apply submseteq_inserts_l. }
  intros [e|status body]; [apply triple_throw; apply W|]. case_match; [apply triple_throw; apply W|].
  apply triple_lift. intros w Hw. destruct (decode_exchange body) as [e|] eqn:Ed; cbn [ok_or]; [|by eapply W].
  revert Hw. apply H_sub. apply submseteq_skips_r. unfold exchanged.
  destruct (exchange_bundle e) as [b|] eqn:Eb; cbn; [|apply submseteq_nil_l].
  apply singleton_submseteq_l, elem_of_remove_dups, elem_of_app. right. rewrite Ed. cbn. rewrite Eb. by left.
Qed.

Lemma uses_poll l p : uses (pause_tokens p) (poll_exchange l p).
Proof.
  intros hand. unfold poll_exchange.
  apply (triple_bind _ _ _ (fun e => HELD (exchanged e ++ pause_tokens p ++ hand))).
  { eapply triple_weaken; [by apply exchange_bal|done|done|]. intros e w. apply H_sub. by apply submseteq_inserts_l. }
  intros e. case_match.
  { apply triple_ret. intros w. apply H_sub. by do 2 apply submseteq_inserts_l. }
  rewrite app_assoc. change (triple (HELD ((exchanged e ++ pause_tokens p) ++ hand))
    (status ← finish_exchange e (nl_auth_generation l) p; mret (Some status)) (fun _ => HELD hand) (fun _ => HELD hand)).
  apply (triple_bind _ _ _ (fun _ => HELD hand)); [|intros status; by apply triple_ret].
  assert (F : uses (exchanged e ++ pause_tokens p) (finish_exchange e (nl_auth_generation l) p)); [|apply F].
  unfold finish_exchange, exchanged. case_match; [by apply uses_none, uses_throw|].
  destruct (exchange_bundle e) as [b|]; cbn [fmap option_fmap option_map option_list option_rect ok_or app].
  2: { apply uses_none. intros hand' w Hw. exact Hw. }
  apply (uses_sub (turns_tokens (p_turns p) ++ [bn_refresh_token b])); [unfold pause_tokens; solve_submseteq|].
  assert (F : uses (turns_tokens (p_turns p) ++ [bn_refresh_token b])
    (_ ← operations_lock false (p_turns p); finish_locked b (nl_auth_generation l))); [|exact F].
  apply uses_bind; [apply uses_operations|intros _; apply uses_finish].
Qed.

Lemma uses_round l origin deadline e : uses (event_tokens e) (login_round l origin deadline e).
Proof.
  unfold login_round. apply (uses_bind [] _); [spend|intros t]. destruct (deadline <=? t).
  { apply uses_none, (uses_bind [] []); [apply uses_ignore, uses_cancel|intros _; spend]. }
  destruct e as [p|request written p|e|]; cbn [event_tokens].
  - apply uses_poll.
  - apply (uses_bind [] _); [spend|intros bs]. destruct (handle_loopback_request _ _ _ _ _) as [reply valid].
    apply (uses_bind [] _); [spend|intros _]. destruct valid; [apply uses_poll|by apply uses_none, uses_ret].
  - spend.
  - apply (uses_bind [] []); [apply uses_ignore, uses_cancel|intros _; spend].
Qed.
Lemma uses_rounds l origin deadline events : uses (events ≫= event_tokens) (login_rounds l origin deadline events).
Proof.
  induction events as [|e events IH]; cbn; [apply uses_ret|]. apply uses_bind; [apply uses_round|].
  intros [status|]; [by apply uses_none, uses_ret|exact IH].
Qed.

Lemma uses_call c : uses (call_tokens c) (run_call c).
Proof.
  destruct c as [minimum p|p|before after|before after|io url hint|l url events|l|t]; cbn [run_call call_tokens];
    try apply uses_ignore.
  - apply uses_access_internal.
  - apply uses_account.
  - apply uses_validate.
  - apply uses_logout_call.
  - apply uses_start.
  - unfold complete. apply (uses_bind [] _); [spend|intros t; apply uses_rounds].
  - apply uses_cancel.
  - apply uses_turn.
Qed.

(** The tokens that there are to come: no two of them are the same, and none is in use. *)
Definition all_fresh (calls : list Call) (w : World) : Prop := held (calls ≫= call_tokens) (book w).

(** C20: A refresh token is sent at most once: in every interleaving of calls, logins,
    sign-outs and other processes, with any failure of the network, of the service and of
    saving, a process that starts with fresh tokens never sends the same one twice, and the
    one that is left in the store was never sent; provided the store reads and deletes what
    it is told to, and a save that takes too long works in the end. *)
Theorem refresh_tokens_are_used_once calls w w' r :
  trusty w -> all_fresh calls w -> run_calls calls w = (w', r) ->
  NoDup (refreshes (w_log w')) /\ forall t, w_entry w' = Some t -> t ∉ refreshes (w_log w').
Proof.
  intros Ht Hf Hr. assert (Hu : uses (calls ≫= call_tokens) (run_calls calls)) by apply uses_iter, uses_call.
  specialize (Hu [] w). rewrite app_nil_r, Hr in Hu. specialize (Hu (conj Ht Hf)).
  assert (Hh : held [] (book w')) by (destruct r; apply Hu). clear Hu. unfold held, book in Hh. cbn in Hh.
  apply NoDup_app in Hh as (Hn & Hd & _). split; [done|]. intros t Et Hin. apply (Hd t Hin).
  apply elem_of_app. left. rewrite Et. by left.
Qed.
End Tokens.

(** ** Examples *)

(** Two rotations, the second of which cannot be saved and whose answers are then lost;
    then a login. *)
Definition rotation_calls : list Call :=
  [AccessToken 0 no_pauses; AccessToken (2000 * NANOS) {| p_turns := [Meanwhile Revised]; p_resumed := [] |};
   AccessToken 0 no_pauses; CompleteLogin (sample_login 2) ("https://auth.axiom.stream" : Url) [Ticked no_pauses];
   Logout no_pauses no_pauses].
Definition rotation_world : World :=
  started (fun call => if bool_decide (call = Saves) then [Works; Fails "full" false] else [])
    [] [] [tokens_reply A1 R1 "alice"; tokens_reply A2 R2 "alice"; Lost "closed";
           Replied 200 (sample_body ["complete"; AB; RB; "bob"])].

Lemma refresh_tokens_are_used_once_witness :
  let w' := (run_calls rotation_calls rotation_world).1 in
  refreshes (w_log w') = [R0; R1] /\ NoDup (refreshes (w_log w')) /\
  forall t, w_entry w' = Some t -> t ∉ refreshes (w_log w').
Proof.
  cbv zeta. split; [by vm_compute|].
  apply (refresh_tokens_are_used_once rotation_calls rotation_world _ (run_calls rotation_calls rotation_world).2).
  - split; [done|]. intros []; cbn; repeat constructor.
  - unfold all_fresh, held. apply (bool_decide_unpack _). by vm_compute.
  - by destruct (run_calls rotation_calls rotation_world).
Defined.

(** A save that takes too long and fails in the end leaves the token that was sent, and
    another call sends it again. *)
Definition late_store : StoreCall -> list StoreReply :=
  fun call => if bool_decide (call = Saves) then [Hangs (LateFails false)] else [].
Example late_save_sends_again :
  refreshes (w_log (run_calls [AccessToken 0 no_pauses; AccessToken 0 no_pauses; Validate no_pauses no_pauses]
                      (started late_store [] [] [tokens_reply A1 R1 "alice"])).1) = [R0; R0].
Proof. by vm_compute. Qed.
